(* ===== verification/_CoqProject ===== *)
-Q . S2P
Prelude.v
PyStr.v
PyFloat.v
PyVal.v
Json.v
JsonRoundtrip.v
Redis.v
PyUrl.v
Sha.v
Dedupe.v
DedupeLaws.v
World.v
Store.v
StoreOps.v
Trace.v
StoreLaws.v
OpLaws.v
Queue.v
QueueLaws.v
StoreExamples.v
Exploration.v
Prompt.v
PromptLaws.v
PromptText.v
Messages.v
Backend.v
Goals.v
WorkerOps.v
Worker.v
WorkerLaws.v
MainLoop.v
WorkerExamples.v
Identity.v
Tokens.v
Policy.v
Gate.v
Mcp.v
ApprovalApi.v
Idempotency.v
ApprovalExamples.v
Collections.v
CollectionLaws.v
Markdown.v
Extraction.v
Documents.v
Ingest.v
Batch.v
DocumentTool.v
IngestLaws.v
BatchLaws.v
DocumentToolLaws.v
ThreadedWork.v
DocumentExamples.v
AuditLog.v
Migration.v
MigrationLaws.v
MigrationHistory.v
MigrationRows.v
MigrationExamples.v
PyNet.v
SafeHttp.v
PublicContent.v
PublicContentLaws.v
WebExamples.v
Compaction.v
CompactionLaws.v
AgentBudget.v
Citations.v
CitationLaws.v
SourcePlan.v
Webscrape.v
Critic.v
ToolExamples.v
Runtime.v
RuntimeLaws.v
RuntimeExamples.v
Rss.v
RssExamples.v
