(* ===== verification/Prelude.v ===== *)
(** * Daedalus: verification library of the Python side of the assistant

    Daedalus is an assistant with tools and an autonomous worker.  This library
    models the Python services that act on the user's behalf and proves what
    keeps those actions safe: a queued request reaches the backend at most
    once, a remote tool runs only with an authorisation that is spent once, a
    write goes to the requester's own data, a fetch stays outside the internal
    network, what is stored is read back, and what is cited was checked.

    ** Foundations

    - [Prelude]: exceptions as values ([exn], [result]), lists, stable sorting,
      shared tactics.  [PyStr], [PyFloat], [PyVal], [PyUrl], [Json], [Sha]:
      the part of Python the sources use -- text as UTF-8 bytes, binary64
      floats, values of JSON shape with insertion-ordered dictionaries,
      [urllib.parse], [json], [hashlib]; laws of JSON are in
      [JsonRoundtrip].  [PyNet]: [ipaddress] and the classes of addresses.
    - [Redis] and [World]: the server as the interface [RedisServer] whose laws
      are the documented effect of each command, the monad [eff] of stateful
      Python that may raise, and a process whose every round trip first lets
      other clients act, may be lost, and is logged; [Trace] reasons on logs.

    ** The autonomous worker (src/builder/autonomous_agent/)

    - [Dedupe], [DedupeLaws]: dedupe.py.  Published items are novel; nothing
      is invented or lost.
    - [World] (records of models.py), [Store], [StoreOps]: store.py, optimistic
      transactions, Lua scripts, leases, queue.  [StoreLaws], [OpLaws]: a
      transaction that commits saw no other write,
      a fenced write commits under the lease, retries end.
    - [Queue] is the abstract protocol of one user's queue between any number
      of workers; [QueueLaws] shows that the store refines it.
    - [Exploration], [Prompt], [PromptText], [Messages], [PromptLaws]:
      exploration.py and prompt.py.  [Backend]:
      backend_client.py.  [Goals], [Worker]: worker.py, with the heartbeat
      thread interleaved at every store call; [WorkerOps], [WorkerLaws],
      [MainLoop]: every run of the worker is a sequence of
      protocol steps behind the dispatch fence, and ends in a final status.

    ** Approvals (src/builder/daedalus_runtime/, nat_helpers/, user_interaction/)

    - [Identity]: who is asking.  [Tokens]: approval_tokens.py.  [Policy],
      [Gate]: approval.py, the decision before a remote call.  [Mcp]: mcp.py,
      the call itself.  [ApprovalApi]: mcp_approval_api.py and executions.py.
      [Idempotency]: idempotency.py, writes of the worker that must not happen twice.

    ** Documents and collections (src/builder/nat_nv_ingest/)

    - [Collections], [CollectionLaws]: names and access to collections, stored
      documents.  [Markdown], [Extraction], [Documents], [Ingest], [Batch],
      [DocumentTool] with their laws: cleaning, reports, one document, a
      batch, the tool.  [ThreadedWork]: ownership of blocking work
      (nat_helpers/threaded_work.py).

    ** Migration of private collections (src/builder/milvus_collection_migration.py)

    - [AuditLog]: the hash-chained log of operator actions.  [Migration]: the
      plan, the copying of rows, the checks of a target and the commands.
      [MigrationLaws]: which collections a run touches; [MigrationHistory]: what
      a verified or rolled-back subject means later; [MigrationRows]: a copy
      has every row of its source; [MigrationExamples]: the command line.

    ** Public web content (src/builder/nat_helpers/)

    - [SafeHttp]: url_guard.py and safe_http.py, the check of addresses and the
      pinned fetch with its redirects and size limit.  [PublicContent],
      [PublicContentLaws]: public_content.py, articles shared between callers.

    ** Tool output and agent turns (src/builder/nat_helpers/, tool_output_retriever/)

    - [Compaction], [CompactionLaws]: previews of large tool output, of which the
      original stays retrievable.  [AgentBudget]: the budgets of history and
      images, the loop guard and the choice of a model.

    ** Scraping, citations and claims (src/builder/webscrape/, source_verifier/, rss_feed/)

    - [Webscrape]: one scrape behind the robots policy, with the reader as a
      fallback.  [Citations], [CitationLaws]: the audit and renumbering of an
      answer's references.  [SourcePlan]: the plan and the ledger of sources.
      [Critic]: the verdict on one claim.  [Rss]: search in curated feeds and
      the reranker's replies.

    ** Tool service (src/builder/daedalus_runtime/service.py)

    - [Runtime], [RuntimeLaws]: runs of a conversation, their preparation in two
      atomic steps, their release, and the calls of tools within them, alone or
      as a stream.  Local tools and the manager of [Mcp] are one interface
      ([leaf_tools]); [mcp_leaves] shows that the manager fulfils its law.

    ** Conventions

    A component's definitions keep the source's names and order; its laws are
    in [<Component>Laws], and the runs on which the theorems are instantiated
    in a file [...Examples].  What is outside the repository is a parameter:
    Redis, Milvus, the object store, HTTP exchanges, DNS, the clock, random
    identifiers, pydantic, zlib, tiktoken, MarkItDown, the feed parser, model
    answers, Unicode tables beyond Latin-1 and the MCP transport; a class or
    record states what is assumed of it.  Text of exceptions is kept where the code stores
    or inspects it.

    Fuel appears where a loop is not structural.  JSON parsing takes the length
    of the text; the retries of a transaction the attempts the source allows;
    Lua recovery the length of the processing list; writing bytes one step per
    byte, since every accepted write makes progress; iterators over server data
    what the caller passes, with a theorem that more fuel changes nothing.

    ** Not modelled

    redis-py's own retry policy and the pipeline-less fallback for test fakes;
    IDNA and normalisation checks of host names; case mapping beyond Latin-1
    and [html.unescape] (parameters); Python's recursion and digit limits of
    JSON; aliasing of feed items (the code copies what it keeps); UNWATCH as a
    trip; heartbeat steps inside a store call; the tasks of a batch interleaved
    (they run one after another in an order the scheduler chooses); log output;
    signals (an oracle); file locks and modes; fetches of feeds joined by calls
    other than the one that runs (the steps are there, the search is not
    interleaved).  YAML reading, JSON schemas and
    the transport of the MCP SDK are parameters.  The code sandbox, images, memory,
    retrieval and search services, agent skills, the renderer of briefings, the
    web frontend, the Rust runtime, operator checks, tests and evaluation are
    outside this library; the manifest lists them. *)
From stdpp Require Export prelude strings gmap list sorting.
From Stdlib Require Export ZArith Lia Bool Ascii DecimalString.

#[global] Open Scope Z_scope.

(** ** Python exceptions and results

    A Python call either returns a value or raises.  Only the class of an
    exception decides which [except] clause catches it, the text is kept
    because the worker stores it in run records. *)
Inductive exn_class :=
| Exception_ | ValueError | TypeError | KeyError | AttributeError
| IndexError | OverflowError | RuntimeError | JSONDecodeError
| WorkerLeaseLost | RunAbortedError | ApprovalRequiredError
| OAuthRequiredError | StructuredOutputError | InterruptedBeforeDispatch
| WatchError | ResponseError | ConnectionError_ | PermissionError
| FileNotFoundError | OSError | YAMLError | HTTPException (status : Z)
| UnsafeJSON | CriticResponseError | MigrationStateError
| MigrationVerificationError | OperatorAuthenticationError | AmbiguousLegacyOwnershipError
| ConfigValidationError | UnsafeURLError | UnresolvableHostError | ResponseSizeError
| DocumentStorageError | DocumentStorageUnavailableError | TimeoutError_
| UncertainVectorWriteError | AssertionError
| TransportError | HTTPStatusError | ArticleChallengeError | EmptyArticleError
| RequestError | TimeoutException | ReaderResponseError | VerificationLLMError.

#[export] Instance exn_class_eq_dec : EqDecision exn_class.
Proof. solve_decision. Defined.

Record exn := Exn { exn_cls : exn_class; exn_msg : string }.

#[export] Instance exn_eq_dec : EqDecision exn.
Proof. solve_decision. Defined.

Inductive result (A : Type) :=
| Ok (a : A)
| Raise (e : exn).
Arguments Ok {A} a.
Arguments Raise {A} e.

#[export] Instance result_eq_dec {A} `{EqDecision A} : EqDecision (result A).
Proof. solve_decision. Defined.

#[export] Instance result_ret : MRet result := fun A a => Ok a.
#[export] Instance result_bind : MBind result := fun A B f m =>
  match m with Ok a => f a | Raise e => Raise e end.
#[export] Instance result_fmap : FMap result := fun A B f m =>
  match m with Ok a => Ok (f a) | Raise e => Raise e end.

Definition raise {A} (c : exn_class) (msg : string) : result A := Raise (Exn c msg).

(** [isinstance(exc, cls)] for the subclass edges the source relies on. *)
Definition exn_isa (c cls : exn_class) : bool :=
  bool_decide (c = cls) ||
  match cls with
  | Exception_ => true
  | ValueError => match c with
                  | JSONDecodeError | StructuredOutputError | UnsafeJSON | ConfigValidationError
                  | UnsafeURLError | UnresolvableHostError | ResponseSizeError
                  | DocumentStorageError | DocumentStorageUnavailableError
                  | ArticleChallengeError | EmptyArticleError | ReaderResponseError => true
                  | _ => false end
  | RuntimeError => match c with
                    | WorkerLeaseLost | RunAbortedError | ApprovalRequiredError
                    | OAuthRequiredError | CriticResponseError
                    | MigrationStateError | MigrationVerificationError
                    | OperatorAuthenticationError | AmbiguousLegacyOwnershipError
                    | UncertainVectorWriteError | VerificationLLMError => true
                    | _ => false end
  | UnsafeURLError => match c with UnresolvableHostError | ResponseSizeError => true | _ => false end
  | DocumentStorageError => match c with DocumentStorageUnavailableError => true | _ => false end
  | RequestError => match c with TransportError | TimeoutException => true | _ => false end
  | TransportError => match c with TimeoutException => true | _ => false end
  | OSError => match c with PermissionError | FileNotFoundError | TimeoutError_ => true | _ => false end
  | _ => false
  end.

Definition exn_in (e : exn) (cs : list exn_class) : bool :=
  existsb (exn_isa (exn_cls e)) cs.

(** [try: m except cs: h]. *)
Definition try_except {A} (m : result A) (cs : list exn_class) (h : exn -> result A)
  : result A :=
  match m with
  | Ok a => Ok a
  | Raise e => if exn_in e cs then h e else Raise e
  end.

Definition is_ok {A} (m : result A) : bool :=
  match m with Ok _ => true | Raise _ => false end.

(** ** Lists *)
Fixpoint mapM_r {A B} (f : A -> result B) (l : list A) : result (list B) :=
  match l with
  | [] => Ok []
  | x :: xs => y ← f x; ys ← mapM_r f xs; Ok (y :: ys)
  end.

Definition last_opt {A} (l : list A) : option A := last l.

(** [l[:n]] for [n] an integer, negative counts from the end. *)
Definition py_take {A} (n : Z) (l : list A) : list A :=
  if n <? 0 then firstn (length l - Z.to_nat (- n))%nat l
  else firstn (Z.to_nat n) l.

Lemma py_take_length {A} n (l : list A) : 0 <= n -> Z.of_nat (length (py_take n l)) <= n.
Proof.
  intros Hn. unfold py_take. destruct (Z.ltb_spec n 0); [lia|].
  rewrite length_firstn. lia.
Qed.

Lemma py_take_sublist {A} n (l : list A) : exists k, l = py_take n l ++ k.
Proof.
  unfold py_take. destruct (n <? 0); eexists; symmetry; apply firstn_skipn.
Qed.

Lemma elem_of_py_take {A} n (l : list A) x : x ∈ py_take n l -> x ∈ l.
Proof.
  destruct (py_take_sublist n l) as [k Hk]. intros H. rewrite Hk. set_solver.
Qed.

(** Insertion sort by a boolean order, stable: Python's [sorted(key=...)]. *)
Section StableSort.
Context {A : Type} (leb : A -> A -> bool).
Fixpoint insert_sorted (x : A) (l : list A) : list A :=
  match l with
  | [] => [x]
  | y :: ys => if leb x y then x :: l else y :: insert_sorted x ys
  end.
Fixpoint stable_sort (l : list A) : list A :=
  match l with [] => [] | x :: xs => insert_sorted x (stable_sort xs) end.

Lemma insert_sorted_perm x l : insert_sorted x l ≡ₚ x :: l.
Proof.
  induction l as [|y ys IH]; simpl; [done|]. destruct (leb x y); [done|].
  rewrite IH. apply Permutation_swap.
Qed.
Lemma stable_sort_perm l : stable_sort l ≡ₚ l.
Proof.
  induction l as [|x xs IH]; simpl; [done|]. by rewrite insert_sorted_perm, IH.
Qed.

Context (leb_total : forall x y, leb x y = true \/ leb y x = true).
Context (leb_trans : forall x y z, leb x y = true -> leb y z = true -> leb x z = true).
Let le x y := leb x y = true.
Lemma insert_sorted_sorted x l : StronglySorted le l -> StronglySorted le (insert_sorted x l).
Proof using leb_total leb_trans.
  induction 1 as [|y ys Hs IH Hf]; simpl; [repeat constructor|].
  destruct (leb x y) eqn:E.
  - constructor; [by constructor|]. constructor; [done|].
    eapply Forall_impl; [exact Hf|]. intros z Hz. eapply leb_trans; eauto.
  - constructor; [done|]. rewrite insert_sorted_perm. constructor; [|done].
    destruct (leb_total x y); [congruence|done].
Qed.
Lemma stable_sort_sorted l : StronglySorted le (stable_sort l).
Proof using leb_total leb_trans.
  induction l; simpl; [constructor|]. by apply insert_sorted_sorted.
Qed.
End StableSort.

(** ** Automation *)
Create HintDb daedalus.
Create Rewrite HintDb pytext.

(** Split every boolean conjunction, disjunction and comparison into [Prop]. *)
Ltac bool_prop :=
  repeat match goal with
  | H : _ && _ = true |- _ => apply andb_true_iff in H; destruct H
  | H : _ || _ = false |- _ => apply orb_false_iff in H; destruct H
  | H : negb _ = true |- _ => apply negb_true_iff in H
  | H : negb _ = false |- _ => apply negb_false_iff in H
  | H : bool_decide _ = true |- _ => apply bool_decide_eq_true_1 in H
  | H : bool_decide _ = false |- _ => apply bool_decide_eq_false_1 in H
  | H : String.eqb _ _ = true |- _ => apply String.eqb_eq in H
  | H : String.eqb _ _ = false |- _ => apply String.eqb_neq in H
  | H : (_ =? _) = true |- _ => apply Z.eqb_eq in H
  | H : (_ =? _) = false |- _ => apply Z.eqb_neq in H
  | H : (_ <? _) = true |- _ => apply Z.ltb_lt in H
  | H : (_ <? _) = false |- _ => apply Z.ltb_ge in H
  | H : (_ <=? _) = true |- _ => apply Z.leb_le in H
  | H : (_ <=? _) = false |- _ => apply Z.leb_gt in H
  end.

(** Case on the scrutinee of the first [match]/[if] of the goal. *)
Ltac case_goal :=
  match goal with
  | |- context [match ?x with _ => _ end] =>
      lazymatch x with context [match _ with _ => _ end] => fail | _ => destruct x eqn:? end
  end.

(** The same for a hypothesis. *)
Ltac case_hyp H :=
  match type of H with
  | context [match ?x with _ => _ end] =>
      lazymatch x with context [match _ with _ => _ end] => fail | _ => destruct x eqn:? end
  end.

Lemma bind_ok {A B} (m : result A) (f : A -> result B) b :
  (x ← m; f x) = Ok b <-> exists a, m = Ok a /\ f a = Ok b.
Proof. destruct m; simpl; naive_solver. Qed.

Lemma try_except_total {A} (m : result A) (a : A) :
  exists b, try_except m [Exception_] (fun _ => Ok a) = Ok b.
Proof.
  destruct m as [b|[c msg]]; simpl; [eauto|].
  unfold exn_in; simpl. destruct c; simpl; eauto.
Qed.

#[export] Hint Resolve elem_of_py_take : daedalus.
