(* ===== verification/PyStr.v ===== *)
(** * Python text

    A Python [str] is modelled by its UTF-8 encoding, a [string] of bytes: a
    literal such as ["…"] denotes the same text as in the source, substring
    tests, concatenation and comparison of encoded texts agree with those of
    the code points, and lengths and slices count code points by skipping
    continuation bytes.  Case mapping is that of ASCII and Latin-1; other
    letters are left as they are. *)
From S2P Require Import Prelude.
#[local] Open Scope string_scope.
#[local] Open Scope Z_scope.

#[global] Arguments String.append !_ _ / : simpl nomatch.
Notation "a +++ b" := (String.append a b) (at level 60, right associativity).

(** ** Bytes *)
Definition byte_of (c : ascii) : Z := Z.of_N (Ascii.N_of_ascii c).
Definition chr (n : Z) : ascii := Ascii.ascii_of_N (Z.to_N n).
Definition is_cont (c : ascii) : bool := (128 <=? byte_of c) && (byte_of c <? 192).
Definition in_range (lo hi : Z) (c : ascii) : bool := (lo <=? byte_of c) && (byte_of c <=? hi).
Definition is_digit (c : ascii) : bool := in_range 48 57 c.
Definition is_lower (c : ascii) : bool := in_range 97 122 c.
Definition is_upper (c : ascii) : bool := in_range 65 90 c.
Definition is_alnum_lower (c : ascii) : bool := is_lower c || is_digit c.

(** The whitespace of [str.isspace], [str.strip] and [str.split]: U+0009-000D,
    U+001C-0020, U+0085, U+00A0, U+1680, U+2000-200A, U+2028, U+2029, U+202F,
    U+205F and U+3000. *)
Definition ws1 (a : ascii) : bool := in_range 9 13 a || in_range 28 32 a.
Definition ws2 (a b : ascii) : bool :=
  (byte_of a =? 194) && ((byte_of b =? 133) || (byte_of b =? 160)).
Definition ws3 (a b c : ascii) : bool :=
  let x := byte_of a in let y := byte_of b in let z := byte_of c in
  ((x =? 225) && (y =? 154) && (z =? 128)) ||
  ((x =? 226) && (y =? 128) && (in_range 128 138 c || (z =? 168) || (z =? 169) || (z =? 175))) ||
  ((x =? 226) && (y =? 129) && (z =? 159)) ||
  ((x =? 227) && (y =? 128) && (z =? 128)).

(** ** Length and slices, in code points *)
Fixpoint ulen_nat (s : string) : nat :=
  match s with
  | EmptyString => O
  | String c s' => if is_cont c then ulen_nat s' else S (ulen_nat s')
  end.
Definition ulen (s : string) : Z := Z.of_nat (ulen_nat s).

Fixpoint utake_nat (n : nat) (s : string) : string :=
  match s with
  | EmptyString => EmptyString
  | String c s' =>
      if is_cont c then String c (utake_nat n s')
      else match n with O => EmptyString | S n' => String c (utake_nat n' s') end
  end.
Fixpoint udrop_nat (n : nat) (s : string) : string :=
  match s with
  | EmptyString => EmptyString
  | String c s' =>
      if is_cont c then udrop_nat n s'
      else match n with O => s | S n' => udrop_nat n' s' end
  end.

(** [s[:n]], [s[n:]] and [s[a:b]]; a negative bound counts from the end. *)
Definition norm_index (n : Z) (s : string) : nat :=
  Z.to_nat (if n <? 0 then Z.max 0 (n + ulen s) else n).
Definition utake (n : Z) (s : string) : string := utake_nat (norm_index n s) s.
Definition udrop (n : Z) (s : string) : string :=
  match norm_index n s with O => s | m => udrop_nat m s end.
Definition uslice (a b : Z) (s : string) : string :=
  udrop_nat (norm_index a s) (utake_nat (norm_index b s) s).

(** Number of bytes of [s.encode("utf-8")]. *)
Definition blen (s : string) : Z := Z.of_nat (String.length s).

(** ** Prefixes, suffixes, search *)
Fixpoint strip_prefix (p s : string) : option string :=
  match p, s with
  | EmptyString, _ => Some s
  | String a p', String b s' => if Ascii.eqb a b then strip_prefix p' s' else None
  | _, _ => None
  end.
Definition startswith (s p : string) : bool :=
  match strip_prefix p s with Some _ => true | None => false end.
Definition removeprefix (s p : string) : string :=
  match strip_prefix p s with Some r => r | None => s end.
Fixpoint endswith (s p : string) : bool :=
  (s =? p)%string || match s with EmptyString => false | String _ s' => endswith s' p end.

(** [p in s], [s.find(p)] and [s.rfind(p)] (in code points, [None] for -1). *)
Fixpoint contains (s p : string) : bool :=
  startswith s p || match s with EmptyString => false | String _ s' => contains s' p end.
Fixpoint find_nat (s p : string) : option nat :=
  if startswith s p then Some O else
  match s with
  | EmptyString => None
  | String c s' =>
      match find_nat s' p with
      | Some n => Some (if is_cont c then n else S n)
      | None => None
      end
  end.
Fixpoint rfind_nat (s p : string) : option nat :=
  match s with
  | EmptyString => if startswith s p then Some O else None
  | String c s' =>
      match rfind_nat s' p with
      | Some n => Some (if is_cont c then n else S n)
      | None => if startswith s p then Some O else None
      end
  end.

(** [s.partition(p)]: the text before and after the first occurrence. *)
Fixpoint cut (s p : string) : option (string * string) :=
  match strip_prefix p s with
  | Some r => Some (EmptyString, r)
  | None =>
      match s with
      | EmptyString => None
      | String c s' =>
          match cut s' p with Some (a, b) => Some (String c a, b) | None => None end
      end
  end.
(** [s.rpartition(p)]. *)
Fixpoint rcut (s p : string) : option (string * string) :=
  match s with
  | EmptyString => match strip_prefix p s with Some r => Some (EmptyString, r) | None => None end
  | String c s' =>
      match rcut s' p with
      | Some (a, b) => Some (String c a, b)
      | None => match strip_prefix p s with Some r => Some (EmptyString, r) | None => None end
      end
  end.

(** ** Stripping *)
Fixpoint lstrip (s : string) : string :=
  match s with
  | EmptyString => EmptyString
  | String a s1 =>
      if ws1 a then lstrip s1 else
      match s1 with
      | EmptyString => s
      | String b s2 =>
          if ws2 a b then lstrip s2 else
          match s2 with
          | EmptyString => s
          | String c s3 => if ws3 a b c then lstrip s3 else s
          end
      end
  end.
Definition is_blank (s : string) : bool := (lstrip s =? "")%string.
Fixpoint rstrip (s : string) : string :=
  match s with
  | EmptyString => EmptyString
  | String c s' => if is_blank s then EmptyString else String c (rstrip s')
  end.
Definition strip (s : string) : string := rstrip (lstrip s).

(** [s.rstrip(chars)] and [s.lstrip(chars)] for a set of ASCII characters. *)
Fixpoint all_chars (f : ascii -> bool) (s : string) : bool :=
  match s with EmptyString => true | String c s' => f c && all_chars f s' end.
Fixpoint rstrip_chars (f : ascii -> bool) (s : string) : string :=
  match s with
  | EmptyString => EmptyString
  | String c s' => if all_chars f s then EmptyString else String c (rstrip_chars f s')
  end.
Fixpoint lstrip_chars (f : ascii -> bool) (s : string) : string :=
  match s with
  | EmptyString => EmptyString
  | String c s' => if f c then lstrip_chars f s' else s
  end.
Fixpoint any_char (f : ascii -> bool) (s : string) : bool :=
  match s with EmptyString => false | String c s' => f c || any_char f s' end.
Definition char_is (d : ascii) (c : ascii) : bool := Ascii.eqb d c.
(** [any(ch.isspace() for ch in s)]. *)
Fixpoint any_space (s : string) : bool :=
  match s with
  | EmptyString => false
  | String a s1 =>
      ws1 a ||
      match s1 with
      | EmptyString => false
      | String b s2 =>
          ws2 a b || match s2 with EmptyString => false | String c _ => ws3 a b c end
      end || any_space s1
  end.

(** ** Case *)
Definition lower_ascii (c : ascii) : ascii := if is_upper c then chr (byte_of c + 32) else c.
Fixpoint lower (s : string) : string :=
  match s with
  | EmptyString => EmptyString
  | String a s1 =>
      match s1 with
      | String b s2 =>
          if (byte_of a =? 195) && in_range 128 158 b && negb (byte_of b =? 151)
          then String a (String (chr (byte_of b + 32)) (lower s2))
          else String (lower_ascii a) (lower s1)
      | EmptyString => String (lower_ascii a) EmptyString
      end
  end.
(** [str.casefold]: as [lower], with U+00DF expanded to "ss" and U+00B5
    mapped to the Greek letter. *)
Fixpoint casefold (s : string) : string :=
  match s with
  | EmptyString => EmptyString
  | String a s1 =>
      match s1 with
      | String b s2 =>
          if (byte_of a =? 195) && (byte_of b =? 159) then "ss" +++ casefold s2
          else if (byte_of a =? 194) && (byte_of b =? 181) then "μ" +++ casefold s2
          else if (byte_of a =? 195) && in_range 128 158 b && negb (byte_of b =? 151)
          then String a (String (chr (byte_of b + 32)) (casefold s2))
          else String (lower_ascii a) (casefold s1)
      | EmptyString => String (lower_ascii a) EmptyString
      end
  end.

(** ** Splitting and joining *)
Definition join (sep : string) (l : list string) : string := String.concat sep l.

(** [s.split(sep)] for a one-character separator. *)
Fixpoint split_char (d : ascii) (s : string) : list string :=
  match s with
  | EmptyString => [EmptyString]
  | String c s' =>
      if Ascii.eqb c d then EmptyString :: split_char d s'
      else match split_char d s' with
           | w :: ws => String c w :: ws
           | [] => [String c EmptyString]
           end
  end.

(** Maximal runs of characters that satisfy [f]: [re.findall("[...]+", s)]. *)
Fixpoint runs (f : ascii -> bool) (s : string) : list string :=
  match s with
  | EmptyString => []
  | String c s' =>
      if f c then
        match s' with
        | String d _ => if f d then match runs f s' with
                                    | w :: ws => String c w :: ws
                                    | [] => [String c EmptyString]
                                    end
                        else String c EmptyString :: runs f s'
        | EmptyString => [String c EmptyString]
        end
      else runs f s'
  end.

(** [s.split()]: runs of non-whitespace. *)
Fixpoint split_ws_go (fuel : nat) (s : string) : list string :=
  match fuel with
  | O => []
  | S n =>
      match lstrip s with
      | EmptyString => []
      | t =>
          let fix word (u : string) : string * string :=
            match u with
            | EmptyString => (EmptyString, EmptyString)
            | String c u' =>
                if (lstrip u =? u)%string
                then let '(w, r) := word u' in (String c w, r) else (EmptyString, u)
            end in
          let '(w, r) := word t in w :: split_ws_go n r
      end
  end.
Definition split_ws (s : string) : list string := split_ws_go (S (String.length s)) s.

(** [s.replace(old, new)] for a nonempty [old]. *)
Fixpoint replace_go (fuel : nat) (old new s : string) : string :=
  match fuel with
  | O => s
  | S n => match cut s old with
           | Some (a, b) => a +++ new +++ replace_go n old new b
           | None => s
           end
  end.
Definition replace (old new s : string) : string := replace_go (String.length s) old new s.

(** Number of non-overlapping occurrences, [s.count(p)] for a nonempty [p]. *)
Fixpoint count_go (fuel : nat) (s p : string) : Z :=
  match fuel with
  | O => 0
  | S n => match cut s p with Some (_, r) => 1 + count_go n r p | None => 0 end
  end.
Definition count (s p : string) : Z := count_go (String.length s) s p.

(** ** Numbers in text *)
Definition digit_char (d : Z) : ascii := chr (48 + d).
Definition str_of_Z (z : Z) : string :=
  DecimalString.NilZero.string_of_int (Z.to_int z).
Fixpoint take_while (f : ascii -> bool) (s : string) : string * string :=
  match s with
  | EmptyString => (EmptyString, EmptyString)
  | String c s' => if f c then let '(a, b) := take_while f s' in (String c a, b)
                   else (EmptyString, s)
  end.
(** Value of a run of ASCII digits. *)
Fixpoint digits_val (acc : Z) (s : string) : Z :=
  match s with
  | EmptyString => acc
  | String c s' => digits_val (10 * acc + (byte_of c - 48)) s'
  end.
Definition all_digits (s : string) : bool :=
  match s with EmptyString => false | _ => all_chars is_digit s end.

(** [int(s)] for text: surrounding whitespace, a sign, and digits with single
    underscores between them. *)
Fixpoint int_digits (prev_digit : bool) (s : string) : option string :=
  match s with
  | EmptyString => if prev_digit then Some EmptyString else None
  | String c s' =>
      if is_digit c then match int_digits true s' with
                         | Some r => Some (String c r) | None => None end
      else if Ascii.eqb c "_"%char && prev_digit then int_digits false s'
      else None
  end.
Definition parse_int (s : string) : option Z :=
  let t := strip s in
  match t with
  | String c r =>
      if Ascii.eqb c "-"%char then
        match int_digits false r with Some d => Some (- digits_val 0 d) | None => None end
      else if Ascii.eqb c "+"%char then
        match int_digits false r with Some d => Some (digits_val 0 d) | None => None end
      else match int_digits false t with Some d => Some (digits_val 0 d) | None => None end
  | EmptyString => None
  end.

(** ** Laws *)
Lemma append_nil_r s : s +++ "" = s.
Proof. induction s; simpl; congruence. Qed.
Lemma append_assoc a b c : (a +++ b) +++ c = a +++ b +++ c.
Proof. induction a; simpl; congruence. Qed.
Lemma append_inj_l a b c : a +++ b = a +++ c -> b = c.
Proof. induction a; simpl; [done|]. intros H. injection H. auto. Qed.

Lemma utake_udrop_nat n s : utake_nat n s +++ udrop_nat n s = s.
Proof.
  revert n. induction s as [|c s IH]; intros n; simpl; [done|].
  destruct (is_cont c); simpl; [by rewrite IH|].
  destruct n; simpl; [done|]. by rewrite IH.
Qed.
Lemma ulen_utake_nat n s : (ulen_nat (utake_nat n s) <= n)%nat.
Proof.
  revert n. induction s as [|c s IH]; intros n; simpl; [lia|].
  destruct (is_cont c) eqn:E; simpl; [rewrite E; auto|].
  destruct n; simpl; [lia|]. rewrite E. specialize (IH n). lia.
Qed.
Lemma ulen_utake_nat_le n s : (ulen_nat (utake_nat n s) <= ulen_nat s)%nat.
Proof.
  revert n. induction s as [|c s IH]; intros n; simpl; [lia|].
  destruct (is_cont c) eqn:E; simpl; [rewrite E; auto|].
  destruct n; simpl; [lia|]. rewrite E. specialize (IH n). lia.
Qed.
Lemma ulen_app a b : ulen (a +++ b) = ulen a + ulen b.
Proof.
  unfold ulen. induction a as [|c a IH]; simpl; [done|].
  destruct (is_cont c); simpl; lia.
Qed.
Lemma ulen_nonneg s : 0 <= ulen s.
Proof. unfold ulen. lia. Qed.
Lemma ulen_utake n s : 0 <= n -> ulen (utake n s) <= n.
Proof.
  intros Hn. unfold utake, norm_index, ulen. destruct (Z.ltb_spec n 0); [lia|].
  pose proof (ulen_utake_nat (Z.to_nat n) s). lia.
Qed.
Lemma ulen_utake_le n s : ulen (utake n s) <= ulen s.
Proof. unfold utake, ulen. pose proof (ulen_utake_nat_le (norm_index n s) s). lia. Qed.
Lemma utake_nat_all n s : (ulen_nat s <= n)%nat -> utake_nat n s = s.
Proof.
  revert n. induction s as [|c s IH]; intros n H; simpl in *; [done|].
  destruct (is_cont c); [by rewrite IH|].
  destruct n; [lia|]. by rewrite IH by lia.
Qed.

Lemma rstrip_ulen s : ulen (rstrip s) <= ulen s.
Proof.
  unfold ulen. induction s as [|c s IH]; [done|].
  cbn [rstrip]. destruct (is_blank _); simpl; [lia|]. destruct (is_cont c); lia.
Qed.

(** Structural induction that may skip up to three bytes, for [lstrip]. *)
Lemma string_ind3 (P : string -> Prop) :
  P "" ->
  (forall a, P (String a "")) ->
  (forall a b, P (String b "") -> P (String a (String b ""))) ->
  (forall a b c s, P s -> P (String c s) -> P (String b (String c s)) ->
     P (String a (String b (String c s)))) ->
  forall s, P s.
Proof.
  intros H0 H1 H2 H3 s.
  enough (H : P s /\ (forall a, P (String a s)) /\ (forall a b, P (String a (String b s)))) by tauto.
  induction s as [|c s (IH1 & IH2 & IH3)]; [by repeat split; auto|].
  split; [auto|]. split; [auto|]. intros a b. apply H3; auto.
Qed.

Lemma ulen_cons_le c s : ulen s <= ulen (String c s).
Proof. unfold ulen. simpl. destruct (is_cont c); lia. Qed.
Lemma lstrip_ulen s : ulen (lstrip s) <= ulen s.
Proof.
  induction s as [|a|a b IHb|a b c s IHs IHc IHb] using string_ind3; [done|..].
  - simpl. destruct (ws1 a); [apply ulen_cons_le|done].
  - cbn [lstrip]. pose proof (ulen_cons_le a (String b "")). pose proof (ulen_cons_le b "").
    destruct (ws1 a); [etrans; eauto|]. destruct (ws2 a b); [etrans; eauto|done].
  - cbn [lstrip]. pose proof (ulen_cons_le a (String b (String c s))).
    pose proof (ulen_cons_le b (String c s)). pose proof (ulen_cons_le c s).
    destruct (ws1 a); [etrans; eauto|]. destruct (ws2 a b); [do 2 (etrans; eauto)|].
    destruct (ws3 a b c); [do 3 (etrans; eauto)|done].
Qed.
Lemma strip_ulen s : ulen (strip s) <= ulen s.
Proof. unfold strip. pose proof (rstrip_ulen (lstrip s)). pose proof (lstrip_ulen s). lia. Qed.

Lemma strip_prefix_app p s : strip_prefix p (p +++ s) = Some s.
Proof. induction p as [|a p IH]; simpl; [done|]. by rewrite Ascii.eqb_refl. Qed.
Lemma strip_prefix_Some p s r : strip_prefix p s = Some r <-> s = p +++ r.
Proof.
  split; [|by intros ->; apply strip_prefix_app].
  revert s. induction p as [|a p IH]; intros [|b s]; simpl; try congruence.
  destruct (Ascii.eqb_spec a b); [|done]. subst. intros H%IH. by subst.
Qed.
Lemma startswith_spec s p : startswith s p = true <-> exists r, s = p +++ r.
Proof.
  unfold startswith. destruct (strip_prefix p s) as [r|] eqn:E.
  - apply strip_prefix_Some in E. naive_solver.
  - split; [done|]. intros [r ->]. by rewrite strip_prefix_app in E.
Qed.
Lemma startswith_app p s : startswith (p +++ s) p = true.
Proof. apply startswith_spec. eauto. Qed.
Lemma removeprefix_app p s : removeprefix (p +++ s) p = s.
Proof. unfold removeprefix. by rewrite strip_prefix_app. Qed.

Lemma all_chars_app f a b : all_chars f (a +++ b) = all_chars f a && all_chars f b.
Proof. induction a; simpl; [done|]. by rewrite IHa, andb_assoc. Qed.
Lemma all_chars_impl (f g : ascii -> bool) s :
  (forall c, f c = true -> g c = true) -> all_chars f s = true -> all_chars g s = true.
Proof.
  intros H. induction s; simpl; [done|]. intros Hf. bool_prop.
  rewrite H by done. auto.
Qed.

(** A text without whitespace is its own strip. *)
Definition ascii_graph (c : ascii) : bool := in_range 33 126 c.
Lemma byte_of_inj_range lo hi c : in_range lo hi c = true <-> lo <= byte_of c <= hi.
Proof. unfold in_range. rewrite andb_true_iff, !Z.leb_le. done. Qed.
Lemma ascii_graph_ws1 c : ascii_graph c = true -> ws1 c = false.
Proof.
  unfold ascii_graph, ws1. rewrite byte_of_inj_range. intros H.
  apply orb_false_iff. split; apply not_true_iff_false; rewrite byte_of_inj_range; lia.
Qed.
Lemma ascii_graph_ws2 a b : ascii_graph a = true -> ws2 a b = false.
Proof.
  unfold ascii_graph, ws2. rewrite byte_of_inj_range. intros H.
  destruct (Z.eqb_spec (byte_of a) 194); [lia|done].
Qed.
Lemma ascii_graph_ws3 a b c : ascii_graph a = true -> ws3 a b c = false.
Proof.
  unfold ascii_graph, ws3. rewrite byte_of_inj_range. intros H. simpl.
  destruct (Z.eqb_spec (byte_of a) 225), (Z.eqb_spec (byte_of a) 226),
    (Z.eqb_spec (byte_of a) 227); try lia; done.
Qed.
Lemma lstrip_graph c s : ascii_graph c = true -> lstrip (String c s) = String c s.
Proof.
  intros H. simpl. rewrite (ascii_graph_ws1 _ H).
  destruct s as [|b s]; [done|]. rewrite (ascii_graph_ws2 _ _ H).
  destruct s; [done|]. by rewrite (ascii_graph_ws3 _ _ _ H).
Qed.

(** Text whose last character is a printable ASCII one. *)
Fixpoint ends_graph (s : string) : bool :=
  match s with
  | EmptyString => true
  | String c EmptyString => ascii_graph c
  | String _ s' => ends_graph s'
  end.
Definition starts_graph (s : string) : bool :=
  match s with EmptyString => true | String c _ => ascii_graph c end.
Lemma is_blank_ends_graph s : s <> "" -> ends_graph s = true -> is_blank s = false.
Proof.
  unfold is_blank. intros Hne H. apply String.eqb_neq. revert Hne H.
  induction s as [|a|a b IHb|a b c s IHs IHc IHb] using string_ind3; intros Hne H.
  - done.
  - simpl in H. by rewrite lstrip_graph.
  - cbn [lstrip]. destruct (ws1 a); [by apply IHb|]. destruct (ws2 a b) eqn:E; [|done].
    exfalso. revert E. cbn in H. unfold ascii_graph in H. apply byte_of_inj_range in H.
    unfold ws2. destruct (Z.eqb_spec (byte_of a) 194); [|done].
    destruct (Z.eqb_spec (byte_of b) 133), (Z.eqb_spec (byte_of b) 160); try lia; done.
  - cbn [lstrip]. destruct (ws1 a); [by apply IHb|].
    destruct (ws2 a b); [by apply IHc|]. destruct (ws3 a b c) eqn:E; [|done].
    destruct s as [|d s']; [|by apply IHs].
    exfalso. revert E. cbn in H. apply byte_of_inj_range in H. unfold ws3, in_range.
    repeat match goal with |- context [Z.eqb ?x ?y] => destruct (Z.eqb_spec x y); try lia
                         | |- context [Z.leb ?x ?y] => destruct (Z.leb_spec x y); try lia end; done.
Qed.
Lemma rstrip_ends_graph s : ends_graph s = true -> rstrip s = s.
Proof.
  induction s as [|c s IH]; [done|]. intros H. cbn [rstrip].
  rewrite is_blank_ends_graph by done.
  destruct s as [|d s']; [done|]. by rewrite IH.
Qed.
Lemma strip_graph s : starts_graph s = true -> ends_graph s = true -> strip s = s.
Proof.
  intros H1 H2. unfold strip. destruct s as [|c s]; [done|].
  rewrite lstrip_graph by done. by apply rstrip_ends_graph.
Qed.
Lemma strip_prefix_nil_inv p : strip_prefix p "" = None -> p <> "".
Proof. by destruct p. Qed.

#[export] Hint Rewrite append_nil_r append_assoc ulen_app : pytext.
#[export] Hint Resolve ulen_nonneg ulen_utake strip_ulen startswith_app : daedalus.

(** ** Laws of stripping and of single-character tests

    Generic facts on [strip], shared by the components that normalise names. *)
(** Whitespace at the head: what is left behind it. *)
Lemma lstrip_length s : (String.length (lstrip s) <= String.length s)%nat.
Proof.
  induction s as [|a|a b H|a b c s H1 H2 H3] using string_ind3; [done| | |].
  - cbn [lstrip]. destruct (ws1 a); cbn; lia.
  - cbn [lstrip String.length] in *. destruct (ws1 a), (ws1 b), (ws2 a b); cbn; lia.
  - cbn [lstrip String.length] in *. destruct (ws1 a); [lia|]. destruct (ws2 a b); [lia|].
    destruct (ws3 a b c); cbn [String.length]; lia.
Qed.
Lemma lstrip_idem s : lstrip (lstrip s) = lstrip s.
Proof.
  induction s as [|a|a b H|a b c s H1 H2 H3] using string_ind3; [done| | |].
  - cbn [lstrip]. destruct (ws1 a) eqn:E1; [done|]. cbn [lstrip]. by rewrite E1.
  - cbn [lstrip]. destruct (ws1 a) eqn:E1; [destruct (ws1 b) eqn:Eb; [done|cbn [lstrip]; by rewrite Eb]|].
    destruct (ws2 a b) eqn:E2; [done|]. cbn [lstrip]. by rewrite E1, E2.
  - cbn [lstrip]. destruct (ws1 a) eqn:E1; [exact H3|]. destruct (ws2 a b) eqn:E2; [exact H2|].
    destruct (ws3 a b c) eqn:E3; [exact H1|]. cbn [lstrip]. by rewrite E1, E2, E3.
Qed.
(** The head of a stripped text is not whitespace. *)
Definition no_space_ahead (s : string) : bool :=
  match s with
  | String a (String b (String c _)) => negb (ws1 a || ws2 a b || ws3 a b c)
  | String a (String b EmptyString) => negb (ws1 a || ws2 a b)
  | String a EmptyString => negb (ws1 a)
  | EmptyString => true
  end.
Lemma no_space_lstrip s : no_space_ahead s = true -> lstrip s = s.
Proof.
  destruct s as [|a [|b [|c s]]]; cbn [no_space_ahead lstrip]; [done| | |].
  - by destruct (ws1 a).
  - by destruct (ws1 a), (ws2 a b).
  - by destruct (ws1 a), (ws2 a b), (ws3 a b c).
Qed.
Lemma lstrip_no_space s : lstrip s = s -> no_space_ahead s = true.
Proof.
  destruct s as [|a [|b [|c s]]]; [done| | |]; intros H; apply (f_equal String.length) in H.
  - cbn [lstrip no_space_ahead] in *. by destruct (ws1 a).
  - pose proof (lstrip_length (String b "")) as P. cbn [lstrip no_space_ahead String.length] in *.
    destruct (ws1 a); [lia|]. by destruct (ws2 a b).
  - pose proof (lstrip_length (String b (String c s))) as P. pose proof (lstrip_length (String c s)) as P2.
    pose proof (lstrip_length s) as P3. cbn [lstrip no_space_ahead String.length] in *.
    destruct (ws1 a); [lia|]. destruct (ws2 a b); [lia|]. destruct (ws3 a b c); [lia|done].
Qed.

(** ** Trailing whitespace *)
Lemma rstrip_cons c s : rstrip (String c s) = if is_blank (String c s) then "" else String c (rstrip s).
Proof. done. Qed.
Lemma rstrip_nil s : rstrip s = "" -> is_blank s = true.
Proof. destruct s as [|c s]; [done|]. rewrite rstrip_cons. by destruct (is_blank _). Qed.
Lemma blank_lstrip s : is_blank s = true <-> lstrip s = "".
Proof. unfold is_blank. apply String.eqb_eq. Qed.
(** Dropping a blank end leaves a text that is not blank. *)
Lemma rstrip_not_blank s : is_blank s = false -> is_blank (rstrip s) = false.
Proof.
  induction s as [|a|a b H|a b c s H1 H2 H3] using string_ind3; intros E; [done| | |];
    rewrite rstrip_cons, E.
  - exact E.
  - rewrite rstrip_cons. destruct (is_blank (String b "")) eqn:Eb; [|exact E].
    unfold is_blank in E, Eb |- *. cbn [lstrip] in *. destruct (ws1 a); [congruence|done].
  - rewrite rstrip_cons in H3 |- *. destruct (is_blank (String b (String c s))) eqn:Eb.
    { clear H1 H2 H3. unfold is_blank in E, Eb |- *. cbn [lstrip] in *. destruct (ws1 a); [congruence|done]. }
    specialize (H3 eq_refl). rewrite rstrip_cons in H2, H3 |- *.
    destruct (is_blank (String c s)) eqn:Ec.
    { clear H1 H2. unfold is_blank in E, Ec, H3 |- *. cbn [lstrip rstrip] in *.
      destruct (ws1 a); [exact H3|]. destruct (ws2 a b); [congruence|done]. }
    specialize (H2 eq_refl). unfold is_blank in E, H1, H2, H3 |- *. cbn [lstrip] in *.
    destruct (ws1 a); [exact H3|]. destruct (ws2 a b); [exact H2|].
    destruct (ws3 a b c); [by apply H1|done].
Qed.
Lemma rstrip_idem s : rstrip (rstrip s) = rstrip s.
Proof.
  induction s as [|c s IH]; [done|]. rewrite rstrip_cons. destruct (is_blank (String c s)) eqn:E; [done|].
  rewrite rstrip_cons, IH. destruct (is_blank (String c (rstrip s))) eqn:E2; [|done].
  apply rstrip_not_blank in E as B. rewrite rstrip_cons, E in B. congruence.
Qed.
Lemma no_space_rstrip s : no_space_ahead s = true -> no_space_ahead (rstrip s) = true.
Proof.
  destruct s as [|a s]; [done|]. rewrite rstrip_cons. destruct (is_blank (String a s)) eqn:E; [done|].
  destruct s as [|b s]; [done|]. rewrite rstrip_cons. destruct (is_blank (String b s)) eqn:Eb.
  - cbn [no_space_ahead]. by destruct s, (ws1 a), (ws2 a b).
  - destruct s as [|c s]; [done|]. rewrite rstrip_cons. destruct (is_blank (String c s)) eqn:Ec; [|done].
    cbn [no_space_ahead]. by destruct (ws1 a), (ws2 a b).
Qed.
Lemma strip_idem s : strip (strip s) = strip s.
Proof.
  unfold strip. rewrite (no_space_lstrip (rstrip (lstrip s))); [apply rstrip_idem|].
  apply no_space_rstrip, lstrip_no_space, lstrip_idem.
Qed.
#[export] Hint Rewrite strip_idem : pytext.
