(* ===== verification/PyFloat.v ===== *)
(** * Python floats

    A [float] is an IEEE binary64 number, [spec_float] with 53 bits of
    precision; arithmetic rounds to nearest even.  [float_repr] is the
    shortest decimal text that reads back as the same number, and
    [dec_to_float] the correctly rounded value of a decimal literal. *)
From S2P Require Import Prelude PyStr.
From Stdlib Require Export SpecFloat.
#[local] Open Scope Z_scope.

Abbreviation float := spec_float.
Definition prec : Z := 53.
Definition emax : Z := 1024.

#[export] Instance float_eq_dec : EqDecision spec_float.
Proof. solve_decision. Defined.

Definition f_of_Z (z : Z) : float := binary_normalize prec emax z 0 false.
Definition f_add : float -> float -> float := SFadd prec emax.
Definition f_sub : float -> float -> float := SFsub prec emax.
Definition f_mul : float -> float -> float := SFmul prec emax.
Definition f_div : float -> float -> float := SFdiv prec emax.
Definition f_neg : float -> float := SFopp.
Definition f_ltb (a b : float) : bool := SFltb a b.
Definition f_leb (a b : float) : bool := SFleb a b.
Definition f_eqb (a b : float) : bool := SFeqb a b.

(** Exact value of a finite float as a fraction. *)
Definition float_frac (f : float) : option (Z * Z) :=
  match f with
  | S754_zero _ => Some (0, 1)
  | S754_finite s m e =>
      let z := if s then Zneg m else Zpos m in
      Some (if 0 <=? e then (z * 2 ^ e, 1) else (z, 2 ^ (- e)))
  | _ => None
  end.

(** Exact comparison of a float with an integer, as Python does it. *)
Definition f_cmp_Z (f : float) (z : Z) : option comparison :=
  match f with
  | S754_nan => None
  | S754_infinity true => Some Lt
  | S754_infinity false => Some Gt
  | _ => match float_frac f with
         | Some (n, d) => Some (Z.compare n (z * d))
         | None => None
         end
  end.

(** [int(f)]: truncation; [None] for infinities ([OverflowError]) and NaN
    ([ValueError]). *)
Definition f_trunc (f : float) : option Z :=
  match float_frac f with Some (n, d) => Some (Z.quot n d) | None => None end.

Definition f_is_zero (f : float) : bool :=
  match f with S754_zero _ => true | _ => false end.

(** ** Decimal literals *)
Definition dec_to_float (neg : bool) (m e10 : Z) : float :=
  if m =? 0 then S754_zero neg else
  let sgn z := if neg then - z else z in
  let mag := Z.log2 m * 30103 / 100000 + e10 in
  if 400 <? mag then S754_infinity neg
  else if mag <? -400 then S754_zero neg
  else if 0 <=? e10 then binary_normalize prec emax (sgn (m * 10 ^ e10)) 0 neg
  else
    let den := 10 ^ (- e10) in
    let k := Z.max 0 (Z.log2 den - Z.log2 m + 66) in
    let q := (m * 2 ^ k) / den in
    let r := (m * 2 ^ k) mod den in
    binary_normalize prec emax (sgn (2 * q + (if r =? 0 then 0 else 1))) (- k - 1) neg.

(** ** Shortest representation *)
Fixpoint adjust_up (fuel : nat) (num den p : Z) : Z :=
  match fuel with
  | O => p
  | S n => if (if 0 <=? p then den * 10 ^ p <=? num else den <=? num * 10 ^ (- p))
           then adjust_up n num den (p + 1) else p
  end.
Fixpoint adjust_down (fuel : nat) (num den p : Z) : Z :=
  match fuel with
  | O => p
  | S n => if (if 0 <=? p - 1 then num <? den * 10 ^ (p - 1) else num * 10 ^ (1 - p) <? den)
           then adjust_down n num den (p - 1) else p
  end.
(** The [p] with 10^(p-1) <= num/den < 10^p. *)
Definition decimal_point (num den : Z) : Z :=
  let p0 := (Z.log2 num - Z.log2 den) * 30103 / 100000 in
  adjust_down 4 num den (adjust_up 4 num den p0).

Definition round_div (num den : Z) : Z :=
  let q := num / den in
  match Z.compare (2 * (num mod den)) den with
  | Lt => q
  | Gt => q + 1
  | Eq => if Z.even q then q else q + 1
  end.

Definition digits_at (num den p k : Z) : Z * Z :=
  let n := if 0 <=? k - p then round_div (num * 10 ^ (k - p)) den
           else round_div num (den * 10 ^ (p - k)) in
  if n =? 10 ^ k then (10 ^ (k - 1), p + 1) else (n, p).

Fixpoint shortest (fuel : nat) (f : float) (num den p k : Z) : Z * Z * Z :=
  let '(n, p') := digits_at num den p k in
  match fuel with
  | O => (n, p', k)
  | S fl => if f_eqb (dec_to_float false n (p' - k)) f then (n, p', k)
            else shortest fl f num den p (k + 1)
  end.

Fixpoint zeros (n : nat) : string :=
  match n with O => "" | S m => String "0" (zeros m) end.
Definition pad2 (z : Z) : string := if z <? 10 then String "0" (str_of_Z z) else str_of_Z z.

Definition format_repr (ds : string) (k decpt : Z) : string :=
  if (-4 <? decpt) && (decpt <=? 16) then
    if decpt <=? 0 then "0." +++ zeros (Z.to_nat (- decpt)) +++ ds
    else if decpt <? k then utake decpt ds +++ "." +++ udrop decpt ds
    else ds +++ zeros (Z.to_nat (decpt - k)) +++ ".0"
  else
    let e := decpt - 1 in
    utake 1 ds +++ (if 1 <? k then "." +++ udrop 1 ds else "") +++ "e" +++
    (if e <? 0 then "-" +++ pad2 (- e) else "+" +++ pad2 e).

Definition float_repr (f : float) : string :=
  match f with
  | S754_nan => "nan"
  | S754_infinity s => if s then "-inf" else "inf"
  | S754_zero s => if s then "-0.0" else "0.0"
  | S754_finite s m e =>
      let a := S754_finite false m e in
      match float_frac a with
      | Some (num, den) =>
          let p := decimal_point num den in
          let '(n, p', k) := shortest 16 a num den p 1 in
          (if s then "-" else "") +++ format_repr (str_of_Z n) k p'
      | None => ""
      end
  end.

(** ** Reading a decimal number at the front of a text *)
(** Optional fraction and exponent after an integer part, as in the number
    grammar of JSON: the digits with the decimal exponent and the rest, or
    [None] when there is neither a fraction nor an exponent. *)
Definition scan_frac (s : string) : option (string * string) :=
  match s with
  | String c r => if Ascii.eqb c "."%char then
                    let '(d, r') := take_while is_digit r in
                    if (d =? "")%string then None else Some (d, r')
                  else None
  | EmptyString => None
  end.
Definition scan_exp (s : string) : option (Z * string) :=
  match s with
  | String c r =>
      if Ascii.eqb c "e"%char || Ascii.eqb c "E"%char then
        let '(neg, r1) := match r with
                          | String d r' => if Ascii.eqb d "-"%char then (true, r')
                                           else if Ascii.eqb d "+"%char then (false, r')
                                           else (false, r)
                          | EmptyString => (false, r)
                          end in
        let '(d, r2) := take_while is_digit r1 in
        if (d =? "")%string then None
        else Some ((if neg then - digits_val 0 d else digits_val 0 d), r2)
      else None
  | EmptyString => None
  end.

(** [float(s)] for text. *)
Definition parse_float (s : string) : option float :=
  let t := lower (strip s) in
  let '(neg, u) := match t with
                   | String c r => if Ascii.eqb c "-"%char then (true, r)
                                   else if Ascii.eqb c "+"%char then (false, r) else (false, t)
                   | EmptyString => (false, t)
                   end in
  if (u =? "inf")%string || (u =? "infinity")%string then Some (S754_infinity neg)
  else if (u =? "nan")%string then Some S754_nan
  else
    let '(ip, r0) := take_while is_digit u in
    let '(fp, r1) := match r0 with
                     | String c r => if Ascii.eqb c "."%char then take_while is_digit r
                                     else ("", r0)
                     | EmptyString => ("", r0)
                     end in
    if (ip =? "")%string && (fp =? "")%string then None
    else
      let '(e, r2) := match scan_exp r1 with Some (e, r) => (e, r) | None => (0, r1) end in
      if (r2 =? "")%string
      then Some (dec_to_float neg (digits_val 0 (ip +++ fp)) (e - ulen fp))
      else None.

(** ** Checks on known values *)
Example repr_tenth : float_repr (dec_to_float false 1 (-1)) = "0.1".
Proof. vm_compute. reflexivity. Qed.
Example repr_sum : float_repr (f_add (dec_to_float false 1 (-1)) (dec_to_float false 2 (-1)))
  = "0.30000000000000004".
Proof. vm_compute. reflexivity. Qed.
Example repr_big : float_repr (dec_to_float true 123456789012345678 3) = "-1.2345678901234568e+20".
Proof. vm_compute. reflexivity. Qed.
Example repr_min : float_repr (dec_to_float false 5 (-324)) = "5e-324".
Proof. vm_compute. reflexivity. Qed.
Example repr_int : float_repr (f_of_Z 14400) = "14400.0".
Proof. vm_compute. reflexivity. Qed.
Example repr_exp : float_repr (dec_to_float false 15 (-6)) = "1.5e-05".
Proof. vm_compute. reflexivity. Qed.
