(* ===== verification/PyVal.v ===== *)
(** * Python values of JSON shape

    Records in Redis, requests and model outputs are trees of [None], [bool],
    [int], [float], [str], [list] and [dict] with text keys.  A [dict] is an
    association list in insertion order, as Python keeps it. *)
From S2P Require Import Prelude PyStr PyFloat.
#[local] Open Scope Z_scope.

Unset Elimination Schemes.
Inductive value :=
| VNone
| VBool (b : bool)
| VInt (z : Z)
| VFloat (f : float)
| VStr (s : string)
| VList (l : list value)
| VDict (d : list (string * value)).
Set Elimination Schemes.

Abbreviation dict := (list (string * value)).

Section value_ind.
  Context (P : value -> Prop).
  Context (HNone : P VNone) (HBool : forall b, P (VBool b)) (HInt : forall z, P (VInt z))
    (HFloat : forall f, P (VFloat f)) (HStr : forall s, P (VStr s))
    (HList : forall l, Forall P l -> P (VList l))
    (HDict : forall d, Forall (fun kv => P (snd kv)) d -> P (VDict d)).
Fixpoint value_ind (v : value) : P v :=
    match v with
    | VNone => HNone
    | VBool b => HBool b
    | VInt z => HInt z
    | VFloat f => HFloat f
    | VStr s => HStr s
    | VList l => HList l ((fix go l := match l return Forall P l with
                           | [] => Forall_nil_2 _
                           | x :: xs => Forall_cons_2 _ _ _ (value_ind x) (go xs) end) l)
    | VDict d => HDict d ((fix go d := match d return Forall (fun kv => P (snd kv)) d with
                           | [] => Forall_nil_2 _
                           | x :: xs => Forall_cons_2 _ _ _ (value_ind (snd x)) (go xs) end) d)
    end.
End value_ind.

#[export] Instance value_eq_dec : EqDecision value.
Proof.
  refine (fix go (x y : value) : {x = y} + {x <> y} := _).
  destruct x as [|b|z|f|s|l|d], y as [|b'|z'|f'|s'|l'|d'];
    try (right; congruence).
  - left; reflexivity.
  - destruct (decide (b = b')); [left|right]; congruence.
  - destruct (decide (z = z')); [left|right]; congruence.
  - destruct (decide (f = f')); [left|right]; congruence.
  - destruct (decide (s = s')); [left|right]; congruence.
  - assert (E : {l = l'} + {l <> l'}).
    { revert l'. induction l as [|x xs IH]; intros [|y ys]; try (right; congruence);
        [left; reflexivity|].
      destruct (go x y); [|right; congruence]. destruct (IH ys); [left|right]; congruence. }
    destruct E; [left|right]; congruence.
  - assert (E : {d = d'} + {d <> d'}).
    { revert d'. induction d as [|[k x] xs IH]; intros [|[k' y] ys]; try (right; congruence);
        [left; reflexivity|].
      destruct (decide (k = k')); [|right; congruence].
      destruct (go x y); [|right; congruence]. destruct (IH ys); [left|right]; congruence. }
    destruct E; [left|right]; congruence.
Defined.

(** ** Dictionaries *)
(** [k in d], [d[k]]. *)
Fixpoint dlookup (k : string) (d : dict) : option value :=
  match d with
  | [] => None
  | (k', v) :: d' => if (k =? k')%string then Some v else dlookup k d'
  end.
Definition dmem (k : string) (d : dict) : bool :=
  match dlookup k d with Some _ => true | None => false end.
(** [d.get(k)] and [d.get(k, default)]. *)
Definition dget (k : string) (d : dict) : value :=
  match dlookup k d with Some v => v | None => VNone end.
Definition dget_or (k : string) (def : value) (d : dict) : value :=
  match dlookup k d with Some v => v | None => def end.
(** [d[k] = v]: an existing key keeps its position. *)
Fixpoint dset (k : string) (v : value) (d : dict) : dict :=
  match d with
  | [] => [(k, v)]
  | (k', v') :: d' => if (k =? k')%string then (k', v) :: d' else (k', v') :: dset k v d'
  end.
(** [d.pop(k, None)]. *)
Fixpoint ddel (k : string) (d : dict) : dict :=
  match d with
  | [] => []
  | (k', v') :: d' => if (k =? k')%string then d' else (k', v') :: ddel k d'
  end.
(** [{**a, **b}]. *)
Definition dmerge (a b : dict) : dict := fold_left (fun acc kv => dset (fst kv) (snd kv) acc) b a.
(** [d.setdefault(k, v)]. *)
Definition dsetdefault (k : string) (v : value) (d : dict) : dict :=
  if dmem k d then d else dset k v d.
Definition dkeys (d : dict) : list string := map fst d.
(** A dictionary display or a decoded JSON object: later pairs win. *)
Definition dict_of (kvs : list (string * value)) : dict := dmerge [] kvs.
Definition dict_wf (d : dict) : Prop := NoDup (dkeys d).

Lemma dlookup_dset k v k' d :
  dlookup k' (dset k v d) = if (k' =? k)%string then Some v else dlookup k' d.
Proof.
  induction d as [|[k0 v0] d IH]; simpl; [done|].
  destruct (String.eqb_spec k k0) as [->|Hne]; simpl.
  - by destruct (String.eqb_spec k' k0).
  - destruct (String.eqb_spec k' k0) as [->|]; [|done].
    by destruct (String.eqb_spec k0 k); [congruence|].
Qed.
Lemma dget_dset k v d : dget k (dset k v d) = v.
Proof. unfold dget. by rewrite dlookup_dset, String.eqb_refl. Qed.
Lemma dget_dset_ne k k' v d : k' <> k -> dget k' (dset k v d) = dget k' d.
Proof. intros H%String.eqb_neq. unfold dget. by rewrite dlookup_dset, H. Qed.
Lemma dlookup_ddel_ne k k' d : k' <> k -> dlookup k' (ddel k d) = dlookup k' d.
Proof.
  intros H. induction d as [|[k0 v0] d IH]; simpl; [done|].
  destruct (String.eqb_spec k k0) as [->|]; simpl.
  - by destruct (String.eqb_spec k' k0).
  - by destruct (String.eqb_spec k' k0).
Qed.
Lemma dlookup_dmerge k a b :
  dict_wf b -> dlookup k (dmerge a b) = match dlookup k b with Some v => Some v | None => dlookup k a end.
Proof.
  unfold dmerge, dict_wf. revert a. induction b as [|[k0 v0] b IH]; intros a Hwf; simpl; [done|].
  inversion Hwf as [|?? Hni Hnd]; subst.
  rewrite IH by done. destruct (String.eqb_spec k k0) as [->|Hne].
  - assert (dlookup k0 b = None) as ->.
    { clear -Hni. induction b as [|[k v] b IH]; simpl in *; [done|].
      destruct (String.eqb_spec k0 k); [set_solver|]. apply IH. set_solver. }
    by rewrite dlookup_dset, String.eqb_refl.
  - destruct (dlookup k b); [done|]. rewrite dlookup_dset.
    by destruct (String.eqb_spec k k0).
Qed.
Lemma dkeys_dset k v d : k ∈ dkeys (dset k v d).
Proof.
  induction d as [|[k0 v0] d IH]; simpl; [set_solver|].
  destruct (String.eqb_spec k k0) as [->|]; simpl; set_solver.
Qed.
Lemma dset_wf k v d : dict_wf d -> dict_wf (dset k v d).
Proof.
  unfold dict_wf. induction d as [|[k0 v0] d IH]; simpl; intros H.
  - constructor; [set_solver|constructor].
  - inversion H as [|?? Hni Hnd]; subst.
    destruct (String.eqb_spec k k0) as [->|Hne]; simpl; [by constructor|].
    constructor; [|auto].
    assert (Hk : forall x, x ∈ dkeys (dset k v d) -> x = k \/ x ∈ dkeys d).
    { clear. induction d as [|[k1 v1] d IH]; simpl; [set_solver|].
      destruct (String.eqb_spec k k1); simpl; set_solver. }
    intros Hin. destruct (Hk _ Hin); [congruence|done].
Qed.
Lemma dmerge_wf a b : dict_wf a -> dict_wf (dmerge a b).
Proof.
  unfold dmerge. revert a. induction b as [|[k v] b IH]; intros a H; simpl; [done|].
  apply IH. by apply dset_wf.
Qed.
Lemma dict_of_wf kvs : dict_wf (dict_of kvs).
Proof. apply dmerge_wf. constructor. Qed.

#[export] Hint Rewrite dlookup_dset dget_dset : pytext.
#[export] Hint Resolve dset_wf dmerge_wf dict_of_wf : daedalus.

(** ** Truth, equality, conversions *)
Definition truthy (v : value) : bool :=
  match v with
  | VNone => false
  | VBool b => b
  | VInt z => negb (z =? 0)
  | VFloat f => negb (f_is_zero f)
  | VStr s => negb (s =? "")%string
  | VList l => match l with [] => false | _ => true end
  | VDict d => match d with [] => false | _ => true end
  end.
(** [a or b]. *)
Definition vor (a b : value) : value := if truthy a then a else b.

Definition is_dict (v : value) : bool := match v with VDict _ => true | _ => false end.
Definition is_list (v : value) : bool := match v with VList _ => true | _ => false end.
Definition is_str (v : value) : bool := match v with VStr _ => true | _ => false end.
Definition is_bool (v : value) : bool := match v with VBool _ => true | _ => false end.
(** [isinstance(v, (int, float))]: [bool] is a subclass of [int]. *)
Definition is_number (v : value) : bool :=
  match v with VInt _ | VFloat _ | VBool _ => true | _ => false end.
(** [v is True], [v is False], [v is None]. *)
Definition is_true (v : value) : bool := match v with VBool b => b | _ => false end.
Definition is_false (v : value) : bool := match v with VBool b => negb b | _ => false end.
Definition is_none (v : value) : bool := match v with VNone => true | _ => false end.

Definition Z_of_bool (b : bool) : Z := if b then 1 else 0.

(** The numeric reading shared by [bool], [int] and [float]. *)
Definition num_eq (a b : value) : option bool :=
  match a, b with
  | (VInt _ | VBool _), (VInt _ | VBool _) =>
      let z v := match v with VInt z => z | VBool b => Z_of_bool b | _ => 0 end in
      Some (z a =? z b)
  | VFloat f, VFloat g => Some (f_eqb f g)
  | VFloat f, (VInt _ | VBool _) =>
      let z := match b with VInt z => z | VBool b => Z_of_bool b | _ => 0 end in
      Some (match f_cmp_Z f z with Some Eq => true | _ => false end)
  | (VInt _ | VBool _), VFloat g =>
      let z := match a with VInt z => z | VBool b => Z_of_bool b | _ => 0 end in
      Some (match f_cmp_Z g z with Some Eq => true | _ => false end)
  | _, _ => None
  end.

(** [a == b]. *)
Fixpoint py_eq (a b : value) {struct a} : bool :=
  match num_eq a b with
  | Some r => r
  | None =>
      match a, b with
      | VNone, VNone => true
      | VStr s, VStr t => (s =? t)%string
      | VList l, VList m =>
          (fix go l m := match l, m with
             | [], [] => true
             | x :: xs, y :: ys => py_eq x y && go xs ys
             | _, _ => false end) l m
      | VDict d, VDict e =>
          Nat.eqb (length d) (length e) &&
          (fix go d := match d with
             | [] => true
             | (k, x) :: d' => match dlookup k e with
                               | Some y => py_eq x y | None => false end && go d' end) d
      | _, _ => false
      end
  end.

Lemma py_eq_str s v : py_eq (VStr s) v = true <-> v = VStr s.
Proof.
  destruct v; simpl; try (split; intros; [discriminate|congruence]).
  rewrite String.eqb_eq. naive_solver.
Qed.
Lemma py_eq_str_r s v : py_eq v (VStr s) = true <-> v = VStr s.
Proof.
  destruct v; simpl; try (split; intros; [discriminate|congruence]).
  rewrite String.eqb_eq. naive_solver.
Qed.

(** ** [repr] and [str] *)
Definition hex_digit (d : Z) : ascii := if d <? 10 then chr (48 + d) else chr (87 + d).
Definition hex2 (n : Z) : string := String (hex_digit (n / 16)) (String (hex_digit (n mod 16)) "").
Definition repr_quote (s : string) : ascii :=
  if any_char (char_is "'") s && negb (any_char (char_is (chr 34)) s) then chr 34 else "'"%char.
Fixpoint repr_body (q : ascii) (s : string) : string :=
  match s with
  | EmptyString => ""
  | String c s' =>
      (if Ascii.eqb c q || Ascii.eqb c "\"%char then String "\" (String c "")
       else if byte_of c =? 10 then "\n" else if byte_of c =? 13 then "\r"
       else if byte_of c =? 9 then "\t"
       else if (byte_of c <? 32) || (byte_of c =? 127) then "\x" +++ hex2 (byte_of c)
       else String c "") +++ repr_body q s'
  end.
Definition repr_str (s : string) : string :=
  let q := repr_quote s in String q (repr_body q s +++ String q "").

Fixpoint py_repr (v : value) : string :=
  match v with
  | VNone => "None"
  | VBool b => if b then "True" else "False"
  | VInt z => str_of_Z z
  | VFloat f => float_repr f
  | VStr s => repr_str s
  | VList l => "[" +++ join ", " (map py_repr l) +++ "]"
  | VDict d => "{" +++ join ", " (map (fun kv => repr_str (fst kv) +++ ": " +++ py_repr (snd kv)) d) +++ "}"
  end.
Definition py_str (v : value) : string := match v with VStr s => s | _ => py_repr v end.

(** [int(v)]. *)
Definition py_int (v : value) : result Z :=
  match v with
  | VBool b => Ok (Z_of_bool b)
  | VInt z => Ok z
  | VFloat f =>
      match f with
      | S754_nan => raise ValueError "cannot convert float NaN to integer"
      | S754_infinity _ => raise OverflowError "cannot convert float infinity to integer"
      | _ => match f_trunc f with Some z => Ok z | None => raise ValueError "" end
      end
  | VStr s => match parse_int s with
              | Some z => Ok z
              | None => raise ValueError ("invalid literal for int() with base 10: " +++ repr_str s)
              end
  | _ => raise TypeError "int() argument must be a string, a bytes-like object or a real number"
  end.
(** [float(v)]. *)
Definition py_float (v : value) : result float :=
  match v with
  | VBool b => Ok (f_of_Z (Z_of_bool b))
  | VInt z => match f_of_Z z with
              | S754_infinity _ => raise OverflowError "int too large to convert to float"
              | f => Ok f end
  | VFloat f => Ok f
  | VStr s => match parse_float s with
              | Some f => Ok f
              | None => raise ValueError ("could not convert string to float: " +++ repr_str s)
              end
  | _ => raise TypeError "float() argument must be a string or a real number"
  end.

(** [d[k]]. *)
Definition dgetitem (k : string) (d : dict) : result value :=
  match dlookup k d with Some v => Ok v | None => raise KeyError (repr_str k) end.

(** The keyword-independent attribute protocol the source uses on values that
    should be dictionaries: [v.get(k)] fails on anything else. *)
Definition attr_get (v : value) (k : string) : result value :=
  match v with
  | VDict d => Ok (dget k d)
  | _ => raise AttributeError "object has no attribute 'get'"
  end.

Lemma py_int_exn v e : py_int v = Raise e ->
  exn_cls e = ValueError \/ exn_cls e = TypeError \/ exn_cls e = OverflowError.
Proof.
  destruct v as [| | |f| | |]; simpl; unfold raise; intros H; repeat case_hyp H;
    try discriminate; injection H as <-; simpl; auto.
Qed.
