(* ===== verification/Json.v ===== *)
(** * JSON text: [json.dumps] and [json.loads]

    The printer follows the options the source passes ([ensure_ascii],
    [separators], [sort_keys], [indent]); the parser accepts the grammar of
    Python's decoder, including [NaN], [Infinity] and duplicate keys (the last
    one wins). *)
From S2P Require Import Prelude PyStr PyFloat PyVal.
#[local] Open Scope Z_scope.

Definition dq : ascii := chr 34.
Definition bs : ascii := chr 92.

(** ** UTF-8 *)
Definition enc_utf8 (cp : Z) : string :=
  if cp <? 128 then String (chr cp) ""
  else if cp <? 2048 then String (chr (192 + cp / 64)) (String (chr (128 + cp mod 64)) "")
  else if cp <? 65536 then
    String (chr (224 + cp / 4096)) (String (chr (128 + cp / 64 mod 64))
      (String (chr (128 + cp mod 64)) ""))
  else
    String (chr (240 + cp / 262144)) (String (chr (128 + cp / 4096 mod 64))
      (String (chr (128 + cp / 64 mod 64)) (String (chr (128 + cp mod 64)) ""))).

(** ** Printing *)
Record opts := Opts {
  ensure_ascii : bool;
  item_sep : string;
  key_sep : string;
  sort_keys : bool;
  indent : option nat;
}.
Definition default_opts : opts := Opts true ", " ": " false None.
(** [separators=(",", ":"), ensure_ascii=False]. *)
Definition compact_opts : opts := Opts false "," ":" false None.
(** [sort_keys=True, separators=(",", ":"), ensure_ascii=False]. *)
Definition canonical_opts : opts := Opts false "," ":" true None.

Definition u4 (n : Z) : string :=
  String bs (String "u" (hex2 (n / 256) +++ hex2 (n mod 256))).
Definition short_escape (n : Z) : option ascii :=
  if n =? 34 then Some dq else if n =? 92 then Some bs
  else if n =? 10 then Some "n"%char else if n =? 13 then Some "r"%char
  else if n =? 9 then Some "t"%char else if n =? 12 then Some "f"%char
  else if n =? 8 then Some "b"%char else None.
Definition esc_byte (ascii_only : bool) (c : ascii) : string :=
  let n := byte_of c in
  match short_escape n with
  | Some e => String bs (String e "")
  | None => if (n <? 32) || (ascii_only && (126 <? n)) then u4 n else String c ""
  end.
Fixpoint esc_raw (s : string) : string :=
  match s with EmptyString => "" | String c s' => esc_byte false c +++ esc_raw s' end.
(** One escape per code point, two for those above U+FFFF. *)
Fixpoint esc_ascii (s : string) : string :=
  match s with
  | EmptyString => ""
  | String a s1 =>
      let x := byte_of a in
      if x <? 192 then esc_byte true a +++ esc_ascii s1 else
      match s1 with
      | EmptyString => u4 x
      | String b s2 =>
          let y := byte_of b - 128 in
          if x <? 224 then u4 ((x - 192) * 64 + y) +++ esc_ascii s2 else
          match s2 with
          | EmptyString => u4 x
          | String c s3 =>
              let z := byte_of c - 128 in
              if x <? 240 then u4 ((x - 224) * 4096 + y * 64 + z) +++ esc_ascii s3 else
              match s3 with
              | EmptyString => u4 x
              | String d s4 =>
                  let cp := (x - 240) * 262144 + y * 4096 + z * 64 + (byte_of d - 128) - 65536 in
                  u4 (55296 + cp / 1024) +++ u4 (56320 + cp mod 1024) +++ esc_ascii s4
              end
          end
      end
  end.
Definition quote (o : opts) (s : string) : string :=
  String dq ((if ensure_ascii o then esc_ascii s else esc_raw s) +++ String dq "").

Definition json_float (f : float) : string :=
  match f with
  | S754_nan => "NaN"
  | S754_infinity s => if s then "-Infinity" else "Infinity"
  | _ => float_repr f
  end.

Fixpoint spaces (n : nat) : string :=
  match n with O => "" | S m => String " " (spaces m) end.
Definition newline (k : nat) : string := String (chr 10) (spaces k).
(** Items between brackets, on one line or one per line when indenting. *)
Definition bracket (o : opts) (level : nat) (l r : string) (items : list string) : string :=
  match items with
  | [] => l +++ r
  | _ =>
      match indent o with
      | None => l +++ join (item_sep o) items +++ r
      | Some n =>
          l +++ newline (n * S level) +++ join ("," +++ newline (n * S level)) items +++
          newline (n * level) +++ r
      end
  end.

Definition key_leb (a b : string * string) : bool :=
  match String.compare (fst a) (fst b) with Gt => false | _ => true end.

Fixpoint dumps_at (o : opts) (level : nat) (v : value) {struct v} : string :=
  match v with
  | VNone => "null"
  | VBool b => if b then "true" else "false"
  | VInt z => str_of_Z z
  | VFloat f => json_float f
  | VStr s => quote o s
  | VList l => bracket o level "[" "]" (map (dumps_at o (S level)) l)
  | VDict d =>
      let items := map (fun kv => (fst kv, dumps_at o (S level) (snd kv))) d in
      let items := if sort_keys o then stable_sort key_leb items else items in
      bracket o level "{" "}" (map (fun kv => quote o (fst kv) +++ key_sep o +++ snd kv) items)
  end.
Definition dumps_with (o : opts) (v : value) : string := dumps_at o 0 v.
Definition dumps (v : value) : string := dumps_with default_opts v.

(** ** Parsing *)
Definition is_json_ws (c : ascii) : bool :=
  let n := byte_of c in (n =? 32) || (n =? 9) || (n =? 10) || (n =? 13).
Definition skip_ws (s : string) : string := lstrip_chars is_json_ws s.

Definition hex_val (c : ascii) : option Z :=
  if is_digit c then Some (byte_of c - 48)
  else if in_range 97 102 c then Some (byte_of c - 87)
  else if in_range 65 70 c then Some (byte_of c - 55) else None.
Definition hex4 (a b c d : ascii) : option Z :=
  match hex_val a, hex_val b, hex_val c, hex_val d with
  | Some w, Some x, Some y, Some z => Some (w * 4096 + x * 256 + y * 16 + z)
  | _, _, _, _ => None
  end.
Definition unescape (c : ascii) : option ascii :=
  if Ascii.eqb c dq then Some dq else if Ascii.eqb c bs then Some bs
  else if Ascii.eqb c "/"%char then Some "/"%char
  else if Ascii.eqb c "n"%char then Some (chr 10) else if Ascii.eqb c "r"%char then Some (chr 13)
  else if Ascii.eqb c "t"%char then Some (chr 9) else if Ascii.eqb c "f"%char then Some (chr 12)
  else if Ascii.eqb c "b"%char then Some (chr 8) else None.

Definition push_text (t : string) (r : option (string * string)) : option (string * string) :=
  match r with Some (s, rest) => Some (t +++ s, rest) | None => None end.
(** The low half of a surrogate pair, with the text after it. *)
Definition low_surrogate (s : string) : option (Z * string) :=
  match s with
  | String b (String u (String h1 (String h2 (String h3 (String h4 r))))) =>
      if Ascii.eqb b bs && Ascii.eqb u "u"%char then
        match hex4 h1 h2 h3 h4 with
        | Some n => if (56320 <=? n) && (n <? 57344) then Some (n, r) else None
        | None => None
        end
      else None
  | _ => None
  end.
(** The characters of a string literal up to its closing quote.  An escape is
    decoded to a code point; a pair of surrogate escapes to one. *)
Fixpoint p_string (s : string) : option (string * string) :=
  match s with
  | EmptyString => None
  | String c s1 =>
      if Ascii.eqb c dq then Some ("", s1)
      else if Ascii.eqb c bs then
        match s1 with
        | EmptyString => None
        | String e s2 =>
            if Ascii.eqb e "u"%char then
              match s2 with
              | String h1 (String h2 (String h3 (String h4 s3))) =>
                  match hex4 h1 h2 h3 h4 with
                  | None => None
                  | Some n =>
                      if (55296 <=? n) && (n <? 56320) then
                        match s3 with
                        | String b (String u (String g1 (String g2 (String g3 (String g4 s4))))) =>
                            match low_surrogate s3 with
                            | Some (m, _) =>
                                push_text (enc_utf8 (65536 + (n - 55296) * 1024 + (m - 56320)))
                                  (p_string s4)
                            | None => push_text (enc_utf8 n) (p_string s3)
                            end
                        | _ => push_text (enc_utf8 n) (p_string s3)
                        end
                      else push_text (enc_utf8 n) (p_string s3)
                  end
              | _ => None
              end
            else match unescape e with
                 | Some x => push_text (String x "") (p_string s2)
                 | None => None
                 end
        end
      else if byte_of c <? 32 then None
      else push_text (String c "") (p_string s1)
  end.

(** A number: an integer part without leading zeros, then an optional fraction
    and exponent, which make it a float. *)
Definition p_int_part (s : string) : option (string * string) :=
  let '(d, r) := take_while is_digit s in
  match d with
  | EmptyString => None
  | String c d' => if Ascii.eqb c "0"%char then Some ("0", d' +++ r) else Some (d, r)
  end.
(** [s] without its rest [r]. *)
Definition consumed (s r : string) : string := String.substring 0 (String.length s - String.length r) s.

(** What the caller may pass to [json.loads]: [object_pairs_hook], and whether
    [parse_constant] and [parse_float] accept the text they are given. *)
Record hooks := Hooks {
  on_object : list (string * value) -> option dict; on_const : string -> bool; on_float : string -> float -> bool }.
Definition plain : hooks := Hooks (fun l => Some (dict_of l)) (fun _ => true) (fun _ _ => true).
Section Parser.
Context (K : hooks).
Definition float_value (s r : string) (f : float) : option (value * string) :=
  if on_float K (consumed s r) f then Some (VFloat f, r) else None.
Definition p_number (s : string) : option (value * string) :=
  let '(neg, s1) := match s with
                    | String c r => if Ascii.eqb c "-"%char then (true, r) else (false, s)
                    | EmptyString => (false, s) end in
  match p_int_part s1 with
  | None => None
  | Some (ip, r) =>
      let n := digits_val 0 ip in
      match scan_frac r with
      | Some (fp, r1) =>
          let '(e, r2) := match scan_exp r1 with Some er => er | None => (0, r1) end in
          float_value s r2 (dec_to_float neg (digits_val 0 (ip +++ fp)) (e - ulen fp))
      | None =>
          match scan_exp r with
          | Some (e, r2) => float_value s r2 (dec_to_float neg n e)
          | None => Some (VInt (if neg then - n else n), r)
          end
      end
  end.

Definition keywords : list (string * value) :=
  [("null", VNone); ("true", VBool true); ("false", VBool false); ("NaN", VFloat S754_nan);
   ("Infinity", VFloat (S754_infinity false)); ("-Infinity", VFloat (S754_infinity true))].
Definition keyword_ok (kw : string * value) : bool := match snd kw with VFloat _ => on_const K (fst kw) | _ => true end.
Definition p_keyword (s : string) : option (option value * string) :=
  fold_right (fun kw acc => match strip_prefix (fst kw) s with
                            | Some r => Some (if keyword_ok kw then Some (snd kw) else None, r) | None => acc end) None keywords.

Fixpoint p_value (fuel : nat) (s : string) : option (value * string) :=
  match fuel with
  | O => None
  | S n =>
      match s with
      | EmptyString => None
      | String c r =>
          if Ascii.eqb c dq then
            match p_string r with Some (t, r') => Some (VStr t, r') | None => None end
          else if Ascii.eqb c "["%char then
            match skip_ws r with
            | String d r' => if Ascii.eqb d "]"%char then Some (VList [], r')
                             else match p_items n (skip_ws r) with
                                  | Some (l, r'') => Some (VList l, r'') | None => None end
            | EmptyString => None
            end
          else if Ascii.eqb c "{"%char then
            match skip_ws r with
            | String d r' => if Ascii.eqb d "}"%char then Some (VDict [], r')
                             else match p_members n (skip_ws r) with
                                  | Some (l, r'') =>
                                      match on_object K l with Some d => Some (VDict d, r'') | None => None end
                                  | None => None end
            | EmptyString => None
            end
          else match p_keyword s with
               | Some (Some v, r) => Some (v, r)
               | Some (None, _) => None
               | None => p_number s
               end
      end
  end
with p_items (fuel : nat) (s : string) : option (list value * string) :=
  match fuel with
  | O => None
  | S n =>
      match p_value n s with
      | None => None
      | Some (v, r) =>
          match skip_ws r with
          | String d r' =>
              if Ascii.eqb d "]"%char then Some ([v], r')
              else if Ascii.eqb d ","%char then
                match p_items n (skip_ws r') with
                | Some (l, r'') => Some (v :: l, r'') | None => None end
              else None
          | EmptyString => None
          end
      end
  end
with p_members (fuel : nat) (s : string) : option (list (string * value) * string) :=
  match fuel with
  | O => None
  | S n =>
      match s with
      | String c r =>
          if Ascii.eqb c dq then
            match p_string r with
            | None => None
            | Some (k, r1) =>
                match skip_ws r1 with
                | String d r2 =>
                    if Ascii.eqb d ":"%char then
                      match p_value n (skip_ws r2) with
                      | None => None
                      | Some (v, r3) =>
                          match skip_ws r3 with
                          | String e r4 =>
                              if Ascii.eqb e "}"%char then Some ([(k, v)], r4)
                              else if Ascii.eqb e ","%char then
                                match p_members n (skip_ws r4) with
                                | Some (l, r5) => Some ((k, v) :: l, r5) | None => None end
                              else None
                          | EmptyString => None
                          end
                      end
                    else None
                | EmptyString => None
                end
            end
          else None
      | EmptyString => None
      end
  end.

Definition parse_fuel (s : string) : nat := (2 * String.length s + 2)%nat.
Definition loads_with (s : string) : result value :=
  match p_value (parse_fuel s) (skip_ws s) with
  | Some (v, r) => if (skip_ws r =? "")%string then Ok v else raise JSONDecodeError "Extra data"
  | None => raise JSONDecodeError "Expecting value"
  end.
End Parser.
Definition loads : string -> result value := loads_with plain.

Lemma loads_exn s e : loads s = Raise e -> exn_cls e = JSONDecodeError.
Proof.
  unfold loads, loads_with, raise. intros H. repeat case_hyp H; try discriminate; by injection H as <-.
Qed.

(** ** Checks *)
Example dumps_ex : dumps (VDict [("a", VList [VInt 1; VBool true; VNone]); ("é", VStr "x…y")])
  = "{" +++ String dq "a" +++ String dq ": [1, true, null], " +++
    String dq "\u00e9" +++ String dq ": " +++ String dq "x\u2026y" +++ String dq "}".
Proof. vm_compute. reflexivity. Qed.
Example loads_ex :
  let v := VDict [("a", VList [VInt (-12); VBool true; VNone; VFloat (dec_to_float false 15 (-1))]);
                  ("é", VStr "x…y😀"); ("e", VDict []); ("l", VList [])] in
  loads (dumps v) = Ok v /\ loads (dumps_with compact_opts v) = Ok v.
Proof. vm_compute. split; reflexivity. Qed.
