(* ===== verification/JsonRoundtrip.v ===== *)
(** * [json.loads (json.dumps v)] gives back [v]

    For the value trees the worker stores: texts in well-formed UTF-8 without
    surrogates, dictionaries with distinct keys, no floats. *)
From Stdlib Require Import DecimalFacts DecimalPos.
From Stdlib Require Import OrdersEx.
From S2P Require Import Prelude PyStr PyFloat PyVal Json.
#[local] Open Scope Z_scope.

(** ** Characters *)
Lemma chr_byte_of c : chr (byte_of c) = c.
Proof. unfold chr, byte_of. rewrite N2Z.id. apply ascii_N_embedding. Qed.
Lemma byte_of_chr n : 0 <= n < 256 -> byte_of (chr n) = n.
Proof. intros H. unfold chr, byte_of. rewrite N_ascii_embedding; lia. Qed.
Lemma byte_of_range c : 0 <= byte_of c < 256.
Proof. unfold byte_of. pose proof (N_ascii_bounded c). lia. Qed.

Lemma p_string_esc_raw c t :
  p_string (esc_byte false c +++ t) = push_text (String c "") (p_string t).
Proof. destruct c as [[] [] [] [] [] [] [] []]; reflexivity. Qed.
Lemma p_string_esc_low c t : byte_of c < 128 ->
  p_string (esc_byte true c +++ t) = push_text (String c "") (p_string t).
Proof.
  destruct c as [[] [] [] [] [] [] [] []]; intros H;
    first [reflexivity | exfalso; vm_compute in H; discriminate].
Qed.

(** ** Escapes *)
Lemma hex_val_digit d : 0 <= d < 16 -> hex_val (hex_digit d) = Some d.
Proof.
  intros H. assert (Hd : In d (map Z.of_nat (seq 0 16))).
  { replace d with (Z.of_nat (Z.to_nat d)) by lia. apply in_map, in_seq. lia. }
  simpl in Hd. repeat destruct Hd as [<-|Hd]; try reflexivity. done.
Qed.
Lemma hex4_of n : 0 <= n < 65536 ->
  hex4 (hex_digit (n / 256 / 16)) (hex_digit (n / 256 mod 16))
       (hex_digit (n mod 256 / 16)) (hex_digit (n mod 256 mod 16)) = Some n.
Proof.
  intros H. unfold hex4. rewrite !hex_val_digit by (Z.to_euclidean_division_equations; lia).
  f_equal. Z.to_euclidean_division_equations; lia.
Qed.
Definition high_surrogate (n : Z) : bool := (55296 <=? n) && (n <? 56320).
Lemma p_string_u4 n t : 0 <= n < 65536 -> high_surrogate n = false ->
  p_string (u4 n +++ t) = push_text (enc_utf8 n) (p_string t).
Proof.
  intros Hn Hs. unfold u4, hex2, high_surrogate in *. cbn -[hex4 hex_digit Z.div Z.modulo].
  rewrite hex4_of by done. by rewrite Hs.
Qed.
Lemma p_string_pair cp t : 0 <= cp < 1048576 ->
  p_string (u4 (55296 + cp / 1024) +++ u4 (56320 + cp mod 1024) +++ t) =
  push_text (enc_utf8 (65536 + cp)) (p_string t).
Proof.
  intros Hc. set (hi := 55296 + cp / 1024). set (lo := 56320 + cp mod 1024).
  assert (Hhi : 55296 <= hi < 56320) by (subst hi; Z.to_euclidean_division_equations; lia).
  assert (Hlo : 56320 <= lo < 57344) by (subst lo; Z.to_euclidean_division_equations; lia).
  unfold u4, hex2. cbn -[hex4 hex_digit Z.div Z.modulo].
  rewrite !hex4_of by lia.
  rewrite (proj2 (Z.leb_le 55296 hi)), (proj2 (Z.ltb_lt hi 56320)) by lia. simpl.
  rewrite (proj2 (Z.leb_le 56320 lo)), (proj2 (Z.ltb_lt lo 57344)) by lia. simpl.
  do 2 f_equal. subst hi lo. Z.to_euclidean_division_equations; lia.
Qed.

(** ** Well-formed UTF-8 *)
Definition cont_byte (c : ascii) : bool := is_cont c.
Fixpoint utf8_ok (s : string) : bool :=
  match s with
  | EmptyString => true
  | String a s1 =>
      let x := byte_of a in
      if x <? 128 then utf8_ok s1 else
      match s1 with
      | EmptyString => false
      | String b s2 =>
          let y := byte_of b - 128 in
          if x <? 224 then (194 <=? x) && is_cont b && utf8_ok s2 else
          match s2 with
          | EmptyString => false
          | String c s3 =>
              let cp := (x - 224) * 4096 + y * 64 + (byte_of c - 128) in
              if x <? 240 then
                is_cont b && is_cont c && (2048 <=? cp) &&
                negb ((55296 <=? cp) && (cp <? 57344)) && utf8_ok s3
              else
              match s3 with
              | EmptyString => false
              | String d s4 =>
                  let cp := (x - 240) * 262144 + y * 4096 + (byte_of c - 128) * 64
                            + (byte_of d - 128) in
                  is_cont b && is_cont c && is_cont d && (65536 <=? cp) && (cp <? 1114112) &&
                  utf8_ok s4
              end
          end
      end
  end.

Lemma push_push a b r : push_text a (push_text b r) = push_text (a +++ b) r.
Proof. destruct r as [[s t]|]; simpl; [|done]. by rewrite append_assoc. Qed.

Lemma is_cont_range c : is_cont c = true -> 128 <= byte_of c < 192.
Proof. unfold is_cont. intros H. bool_prop. lia. Qed.

Lemma enc2 a b : 194 <= byte_of a < 224 -> is_cont b = true ->
  enc_utf8 ((byte_of a - 192) * 64 + (byte_of b - 128)) = String a (String b "").
Proof.
  intros Ha Hb%is_cont_range. unfold enc_utf8.
  set (cp := _ + _). assert (128 <= cp < 2048) by (subst cp; lia).
  rewrite (proj2 (Z.ltb_ge cp 128)), (proj2 (Z.ltb_lt cp 2048)) by lia.
  replace (192 + cp / 64) with (byte_of a) by (subst cp; Z.to_euclidean_division_equations; lia).
  replace (128 + cp mod 64) with (byte_of b) by (subst cp; Z.to_euclidean_division_equations; lia).
  by rewrite !chr_byte_of.
Qed.
Lemma enc3 a b c : 224 <= byte_of a < 240 -> is_cont b = true -> is_cont c = true ->
  let cp := (byte_of a - 224) * 4096 + (byte_of b - 128) * 64 + (byte_of c - 128) in
  2048 <= cp -> enc_utf8 cp = String a (String b (String c "")).
Proof.
  intros Ha Hb%is_cont_range Hc%is_cont_range cp Hcp. unfold enc_utf8.
  assert (cp < 65536) by (subst cp; lia).
  rewrite (proj2 (Z.ltb_ge cp 128)), (proj2 (Z.ltb_ge cp 2048)), (proj2 (Z.ltb_lt cp 65536)) by lia.
  replace (224 + cp / 4096) with (byte_of a) by (subst cp; Z.to_euclidean_division_equations; lia).
  replace (128 + cp / 64 mod 64) with (byte_of b) by (subst cp; Z.to_euclidean_division_equations; lia).
  replace (128 + cp mod 64) with (byte_of c) by (subst cp; Z.to_euclidean_division_equations; lia).
  by rewrite !chr_byte_of.
Qed.
Lemma enc4 a b c d : 240 <= byte_of a -> is_cont b = true -> is_cont c = true -> is_cont d = true ->
  let cp := (byte_of a - 240) * 262144 + (byte_of b - 128) * 4096 + (byte_of c - 128) * 64
            + (byte_of d - 128) in
  65536 <= cp < 1114112 -> enc_utf8 cp = String a (String b (String c (String d ""))).
Proof.
  intros Ha Hb%is_cont_range Hc%is_cont_range Hd%is_cont_range cp Hcp. unfold enc_utf8.
  rewrite (proj2 (Z.ltb_ge cp 128)), (proj2 (Z.ltb_ge cp 2048)), (proj2 (Z.ltb_ge cp 65536)) by lia.
  replace (240 + cp / 262144) with (byte_of a) by (subst cp; Z.to_euclidean_division_equations; lia).
  replace (128 + cp / 4096 mod 64) with (byte_of b) by (subst cp; Z.to_euclidean_division_equations; lia).
  replace (128 + cp / 64 mod 64) with (byte_of c) by (subst cp; Z.to_euclidean_division_equations; lia).
  replace (128 + cp mod 64) with (byte_of d) by (subst cp; Z.to_euclidean_division_equations; lia).
  by rewrite !chr_byte_of.
Qed.

(** The reader of a string literal undoes both escapings. *)
Lemma p_string_raw s r : p_string (esc_raw s +++ String dq r) = Some (s, r).
Proof.
  induction s as [|c s IH]; [reflexivity|]. cbn [esc_raw].
  rewrite append_assoc, p_string_esc_raw, IH. done.
Qed.

Lemma string_ind4 (P : string -> Prop) :
  P "" -> (forall a s, (forall t, (String.length t <= String.length s)%nat -> P t) -> P (String a s)) ->
  forall s, P s.
Proof.
  intros H0 HS s. remember (String.length s) as n eqn:E.
  assert (H : (String.length s <= n)%nat) by lia. clear E. revert s H.
  induction n as [|n IH]; intros [|a s] H; simpl in H; auto; [lia|].
  apply HS. intros t Ht. apply IH. lia.
Qed.

Lemma p_string_ascii s r : utf8_ok s = true ->
  p_string (esc_ascii s +++ String dq r) = Some (s, r).
Proof.
  induction s as [|a s IH] using string_ind4; [done|]. intros Hok.
  cbn [utf8_ok] in Hok. cbn [esc_ascii]. pose proof (byte_of_range a) as Ra.
  destruct (Z.ltb_spec (byte_of a) 128) as [Hx|Hx].
  { rewrite (proj2 (Z.ltb_lt (byte_of a) 192)) by lia.
    rewrite append_assoc, p_string_esc_low, IH by (auto; lia). done. }
  destruct s as [|b s]; [done|]. destruct (Z.ltb_spec (byte_of a) 224) as [Hx2|Hx2].
  { bool_prop. rewrite (proj2 (Z.ltb_ge (byte_of a) 192)) by lia.
    pose proof (is_cont_range b ltac:(done)).
    rewrite append_assoc, p_string_u4; [|lia|unfold high_surrogate; destruct (Z.leb_spec 55296 ((byte_of a - 192) * 64 + (byte_of b - 128))); [lia|done]].
    rewrite IH by (simpl; auto with lia). by rewrite enc2 by (try lia; done). }
  destruct s as [|c s]; [done|].
  rewrite (proj2 (Z.ltb_ge (byte_of a) 192)) by lia.
  destruct (Z.ltb_spec (byte_of a) 240) as [Hx3|Hx3].
  { bool_prop. pose proof (is_cont_range b ltac:(done)). pose proof (is_cont_range c ltac:(done)).
    rewrite append_assoc, p_string_u4; [|lia|].
    2:{ unfold high_surrogate. apply andb_false_iff. match goal with H : _ && _ = false |- _ => apply andb_false_iff in H as [?|?] end; bool_prop.
        - left. by apply Z.leb_gt. - right. apply Z.ltb_ge. lia. }
    rewrite IH by (simpl; auto with lia). by rewrite enc3 by (try lia; done). }
  destruct s as [|d s]; [done|]. bool_prop.
  pose proof (is_cont_range b ltac:(done)). pose proof (is_cont_range c ltac:(done)).
  pose proof (is_cont_range d ltac:(done)).
  rewrite !append_assoc, p_string_pair by lia.
  rewrite IH by (simpl; auto with lia).
  match goal with |- push_text (enc_utf8 (65536 + ?n)) _ = _ =>
    replace (65536 + n) with ((byte_of a - 240) * 262144 + (byte_of b - 128) * 4096 +
      (byte_of c - 128) * 64 + (byte_of d - 128)) by lia end.
  by rewrite enc4 by (done || lia).
Qed.

(** ** Integers *)
Lemma digits_val_uint d acc :
  digits_val (Zpos acc) (NilEmpty.string_of_uint d) = Zpos (Pos.of_uint_acc d acc).
Proof.
  revert acc. induction d; intros acc; [done|..]; simpl;
    rewrite <- IHd; f_equal; unfold byte_of; simpl; lia.
Qed.
Lemma digits_val_uint0 d :
  digits_val 0 (NilEmpty.string_of_uint d) = Z.of_N (Pos.of_uint d).
Proof. induction d; [done| exact IHd |..]; simpl; by rewrite <- digits_val_uint. Qed.
Lemma uint_digits d : all_chars is_digit (NilEmpty.string_of_uint d) = true.
Proof. induction d; simpl; done. Qed.
Lemma take_while_all f a b : all_chars f a = true ->
  (match b with EmptyString => true | String c _ => negb (f c) end) = true ->
  take_while f (a +++ b) = (a, b).
Proof.
  intros Ha Hb. induction a as [|c a IH]; simpl in *.
  - destruct b as [|c b]; [done|]. simpl. destruct (f c); done.
  - bool_prop. destruct (f c); [|done]. by rewrite IH.
Qed.

(** A text that cannot extend a number. *)
Definition num_end (s : string) : bool :=
  match s with
  | EmptyString => true
  | String c _ => negb (is_digit c) && negb (Ascii.eqb c ".") && negb (Ascii.eqb c "e")
                  && negb (Ascii.eqb c "E")
  end.
Lemma num_end_scan s : num_end s = true -> scan_frac s = None /\ scan_exp s = None.
Proof.
  destruct s as [|c s]; [done|]. unfold num_end, scan_frac, scan_exp. intros H. bool_prop.
  repeat match goal with H : Ascii.eqb _ _ = false |- _ => rewrite H; clear H end. done.
Qed.
Lemma num_end_digit s : num_end s = true ->
  (match s with EmptyString => true | String c _ => negb (is_digit c) end) = true.
Proof. destruct s as [|c s]; [done|]. simpl. intros H. bool_prop. by rewrite H. Qed.

Lemma pos_uint_head p : match Pos.to_uint p with Decimal.D0 _ | Decimal.Nil => False | _ => True end.
Proof.
  pose proof (Unsigned.of_to p) as Hof. pose proof (Unsigned.to_of (Pos.to_uint p)) as Hto.
  rewrite Hof in Hto. simpl in Hto.
  destruct (Pos.to_uint p) as [|l| | | | | | | | |] eqn:E; try done.
  exfalso. unfold Decimal.unorm in Hto. simpl in Hto.
  destruct (Decimal.nzhead l) eqn:En; try discriminate.
  { rewrite Hto in Hof. done. }
  match type of En with _ = Decimal.D0 _ => by apply nzhead_nonzero in En end.
Qed.

Lemma p_pos p s : num_end s = true ->
  p_int_part (NilEmpty.string_of_uint (Pos.to_uint p) +++ s) =
  Some (NilEmpty.string_of_uint (Pos.to_uint p), s).
Proof.
  intros Hs%num_end_digit. unfold p_int_part.
  rewrite take_while_all by (done || apply uint_digits).
  pose proof (pos_uint_head p). destruct (Pos.to_uint p); done.
Qed.
Lemma p_number_int K z s : num_end s = true -> p_number K (str_of_Z z +++ s) = Some (VInt z, s).
Proof.
  intros Hs. pose proof (num_end_scan _ Hs) as [Hf He]. unfold str_of_Z, p_number.
  destruct z as [|p|p]; simpl Z.to_int.
  - assert (E : p_int_part (String "0" s) = Some ("0", s)).
    { unfold p_int_part. change (String "0" s) with ("0" +++ s).
      rewrite take_while_all by (done || by apply num_end_digit). done. }
    cbn -[p_int_part scan_frac scan_exp]. rewrite E. cbn -[scan_frac scan_exp].
    by rewrite Hf, He.
  - assert (Hn : NilZero.string_of_uint (Pos.to_uint p) = NilEmpty.string_of_uint (Pos.to_uint p)).
    { pose proof (pos_uint_head p). by destruct (Pos.to_uint p). }
    unfold NilZero.string_of_int. rewrite Hn.
    destruct (NilEmpty.string_of_uint (Pos.to_uint p) +++ s) as [|c r] eqn:E.
    { pose proof (pos_uint_head p). by destruct (Pos.to_uint p). }
    assert (Ascii.eqb c "-"%char = false) as ->.
    { pose proof (pos_uint_head p). destruct (Pos.to_uint p); try done; by injection E as <-. }
    rewrite <- E, p_pos by done. rewrite Hf, He, digits_val_uint0, Unsigned.of_to. done.
  - assert (Hn : NilZero.string_of_uint (Pos.to_uint p) = NilEmpty.string_of_uint (Pos.to_uint p)).
    { pose proof (pos_uint_head p). by destruct (Pos.to_uint p). }
    unfold NilZero.string_of_int. rewrite Hn. simpl.
    rewrite p_pos by done. rewrite Hf, He, digits_val_uint0, Unsigned.of_to. done.
Qed.

(** ** Values *)
Record sep_ok (o : opts) : Prop := {
  sep_item : exists n, item_sep o = "," +++ spaces n;
  sep_key : exists n, key_sep o = ":" +++ spaces n;
  sep_indent : indent o = None;
  sep_sort : sort_keys o = false;
}.
Lemma default_sep_ok : sep_ok default_opts.
Proof. split; [by exists 1%nat|by exists 1%nat|done|done]. Qed.
Lemma compact_sep_ok : sep_ok compact_opts.
Proof. split; [by exists 0%nat|by exists 0%nat|done|done]. Qed.

Lemma dict_of_id d : NoDup (dkeys d) -> dict_of d = d.
Proof.
  intros H. unfold dict_of, dmerge.
  enough (E : forall a, NoDup (dkeys (a ++ d)) ->
    fold_left (fun acc kv => dset (fst kv) (snd kv) acc) d a = a ++ d) by (by apply E).
  induction d as [|[k v] d IH]; intros a Ha; simpl; [by rewrite List.app_nil_r|].
  inversion H; subst.
  assert (Hk : dset k v a = a ++ [(k, v)]).
  { assert (Hn : k ∉ dkeys a).
    { unfold dkeys in Ha. rewrite map_app in Ha. apply NoDup_app in Ha as (_ & Hd & _).
      intros Hin. apply (Hd k Hin). simpl. left. }
    clear -Hn. induction a as [|[k0 v0] a IH]; simpl in *; [done|].
    destruct (String.eqb_spec k k0); [set_solver|]. f_equal. apply IH. set_solver. }
  rewrite Hk, IH; [by rewrite <- List.app_assoc|done|by rewrite <- List.app_assoc].
Qed.

Section Roundtrip.
Context (o : opts) (Ho : sep_ok o).
(** Hooks that keep objects with distinct keys. *)
Context (K : hooks) (HK : forall d, NoDup (dkeys d) -> on_object K d = Some d).

Definition text_ok (s : string) : bool := negb (ensure_ascii o) || utf8_ok s.
(** Distinct keys at every level, no floats, printable texts. *)
Fixpoint json_ok (v : value) : bool :=
  match v with
  | VFloat _ => false
  | VStr s => text_ok s
  | VList l => forallb json_ok l
  | VDict d => bool_decide (NoDup (dkeys d)) &&
               forallb (fun kv => text_ok (fst kv) && json_ok (snd kv)) d
  | _ => true
  end.
Fixpoint vsize (v : value) : nat :=
  match v with
  | VList l => S (fold_right (fun x n => S (vsize x) + n)%nat O l)
  | VDict d => S (fold_right (fun kv n => S (vsize (snd kv)) + n)%nat O d)
  | _ => 1%nat
  end.

Lemma skip_ws_spaces n s : skip_ws (spaces n +++ s) = skip_ws s.
Proof. induction n; simpl; [done|]. exact IHn. Qed.
Lemma p_string_quote s r : text_ok s = true ->
  exists q, quote o s = String dq q /\ p_string (q +++ r) = Some (s, r).
Proof.
  unfold text_ok, quote. intros H. eexists. split; [reflexivity|].
  rewrite append_assoc. simpl. destruct (ensure_ascii o); [by apply p_string_ascii|].
  apply p_string_raw.
Qed.

Lemma uint_head p : exists c t, NilEmpty.string_of_uint (Pos.to_uint p) = String c t /\ is_digit c = true.
Proof. pose proof (pos_uint_head p). destruct (Pos.to_uint p); try done; simpl; eauto. Qed.
Lemma digit_value c t n : is_digit c = true ->
  p_value K (S n) (String c t) = p_number K (String c t).
Proof.
  intros H. simpl. unfold p_keyword.
  destruct c as [[] [] [] [] [] [] [] []]; try discriminate H; reflexivity.
Qed.
Lemma minus_digit_value c t n : is_digit c = true ->
  p_value K (S n) (String "-" (String c t)) = p_number K (String "-" (String c t)).
Proof.
  intros H. simpl. unfold p_keyword.
  destruct c as [[] [] [] [] [] [] [] []]; try discriminate H; reflexivity.
Qed.
Lemma str_of_Z_shape z : exists c t, is_digit c = true /\
  (str_of_Z z = String c t \/ str_of_Z z = String "-" (String c t)).
Proof.
  unfold str_of_Z. destruct z as [|p|p]; simpl.
  - exists "0"%char, "". auto.
  - destruct (uint_head p) as (c & t & E & Hc). exists c, t. split; [done|]. left.
    pose proof (pos_uint_head p). destruct (Pos.to_uint p); done.
  - destruct (uint_head p) as (c & t & E & Hc). exists c, t. split; [done|]. right.
    rewrite <- E. pose proof (pos_uint_head p). destruct (Pos.to_uint p); done.
Qed.
Lemma p_value_int z n s : num_end s = true -> p_value K (S n) (str_of_Z z +++ s) = Some (VInt z, s).
Proof.
  intros Hs. rewrite <- (p_number_int K z s Hs).
  destruct (str_of_Z_shape z) as (c & t & Hc & [-> | ->]); cbn [String.append].
  - by apply digit_value. - by apply minus_digit_value.
Qed.

(** The first character of a printed value. *)
Definition value_head (s : string) : Prop :=
  exists c t, s = String c t /\ is_json_ws c = false /\ c <> "]"%char /\ c <> "}"%char.
Lemma digit_head c : is_digit c = true -> is_json_ws c = false /\ c <> "]"%char /\ c <> "}"%char.
Proof. destruct c as [[] [] [] [] [] [] [] []]; intros H; try discriminate H; done. Qed.
Lemma bracket_head lvl l r items c t : l = String c t ->
  exists u, bracket o lvl l r items = String c u.
Proof.
  intros ->. unfold bracket. rewrite (sep_indent _ Ho). destruct items; simpl; eauto.
Qed.
Lemma dumps_head lvl v : json_ok v = true -> value_head (dumps_at o lvl v).
Proof.
  intros H. unfold value_head. destruct v as [|b|z|f|s|l|d]; simpl in *; try done.
  - by eexists _, _.
  - destruct b; by eexists _, _.
  - destruct (str_of_Z_shape z) as (c & t & Hc & [-> | ->]); eexists _, _; split; try done.
    by apply digit_head.
  - unfold quote. by eexists _, _.
  - edestruct (bracket_head lvl "[" "]") as [u ->]; [done|]. by eexists _, _.
  - rewrite (sep_sort _ Ho). edestruct (bracket_head lvl "{" "}") as [u ->]; [done|]. by eexists _, _.
Qed.
Lemma value_head_skip s r : value_head s -> skip_ws (s +++ r) = s +++ r.
Proof. intros (c & t & -> & H & _). unfold skip_ws. simpl. by rewrite H. Qed.

Definition parses (v : value) : Prop := forall lvl fuel rest,
  json_ok v = true -> (vsize v <= fuel)%nat -> num_end rest = true ->
  p_value K fuel (dumps_at o lvl v +++ rest) = Some (v, rest).

Definition lsize (l : list value) : nat := fold_right (fun x n => S (vsize x) + n)%nat O l.
Definition dsize (d : dict) : nat := fold_right (fun kv n => S (vsize (snd kv)) + n)%nat O d.

Lemma p_items_step fuel v s t : p_value K fuel s = Some (v, "," +++ t) ->
  p_items K (S fuel) s = match p_items K fuel (skip_ws t) with
                       | Some (l, r) => Some (v :: l, r) | None => None end.
Proof. intros H. cbn [p_items]. rewrite H. reflexivity. Qed.
Lemma p_items_last fuel v s t : p_value K fuel s = Some (v, "]" +++ t) ->
  p_items K (S fuel) s = Some ([v], t).
Proof. intros H. cbn [p_items]. rewrite H. reflexivity. Qed.
Lemma p_members_step fuel k v s t u :
  p_string s = Some (k, ":" +++ t) -> p_value K fuel (skip_ws t) = Some (v, "," +++ u) ->
  p_members K (S fuel) (String dq s) = match p_members K fuel (skip_ws u) with
                                     | Some (l, r) => Some ((k, v) :: l, r) | None => None end.
Proof.
  intros H1 H2. cbn [p_members]. rewrite Ascii.eqb_refl, H1.
  change (skip_ws (":" +++ t)) with (String ":" t). cbn -[skip_ws p_value p_members].
  rewrite H2. reflexivity.
Qed.
Lemma p_members_last fuel k v s t u :
  p_string s = Some (k, ":" +++ t) -> p_value K fuel (skip_ws t) = Some (v, "}" +++ u) ->
  p_members K (S fuel) (String dq s) = Some ([(k, v)], u).
Proof.
  intros H1 H2. cbn [p_members]. rewrite Ascii.eqb_refl, H1.
  change (skip_ws (":" +++ t)) with (String ":" t). cbn -[skip_ws p_value p_members].
  rewrite H2. reflexivity.
Qed.

Lemma join_cons sep x y l : join sep (x :: y :: l) = x +++ sep +++ join sep (y :: l).
Proof. reflexivity. Qed.
Lemma join_head sep x l : value_head x -> value_head (join sep (x :: l)).
Proof.
  intros (c & t & -> & Hc). destruct l as [|y l]; [by eexists _, _|].
  rewrite join_cons. by eexists _, _.
Qed.

Lemma p_items_ok lvl l fuel rest :
  Forall parses l -> l <> [] -> forallb json_ok l = true -> (lsize l <= fuel)%nat ->
  p_items K fuel (join (item_sep o) (map (dumps_at o lvl) l) +++ "]" +++ rest) = Some (l, rest).
Proof.
  revert fuel. induction l as [|x l IH]; intros fuel HF Hne Hok Hf; [done|].
  inversion HF as [|?? Hx Hl]; subst. cbn [forallb] in Hok. cbn [lsize fold_right] in Hf.
  fold (lsize l) in Hf. bool_prop. destruct fuel as [|fuel]; [lia|].
  destruct l as [|y l]; cbn [map] in *.
  { apply p_items_last. apply Hx; [done|lia|done]. }
  destruct (sep_item _ Ho) as [n Hn].
  rewrite join_cons, !append_assoc. rewrite Hn at 1. rewrite append_assoc.
  erewrite p_items_step by (apply Hx; [done|lia|done]).
  rewrite skip_ws_spaces, value_head_skip.
  - by rewrite IH by (done || lia).
  - apply join_head, dumps_head. cbn [forallb] in *. by bool_prop.
Qed.

Definition member lvl (kv : string * value) : string :=
  quote o (fst kv) +++ key_sep o +++ dumps_at o lvl (snd kv).
Lemma member_head lvl kv : value_head (member lvl kv).
Proof. unfold member, quote. by eexists _, _. Qed.

Lemma p_members_ok lvl d fuel rest :
  Forall (fun kv => parses (snd kv)) d -> d <> [] ->
  forallb (fun kv => text_ok (fst kv) && json_ok (snd kv)) d = true -> (dsize d <= fuel)%nat ->
  p_members K fuel (join (item_sep o) (map (member lvl) d) +++ "}" +++ rest) = Some (d, rest).
Proof.
  revert fuel. induction d as [|[k x] d IH]; intros fuel HF Hne Hok Hf; [done|].
  inversion HF as [|?? Hx Hl]; subst. cbn [forallb fst snd] in *. cbn [dsize fold_right snd] in Hf.
  fold (dsize d) in Hf. bool_prop. destruct fuel as [|fuel]; [lia|].
  assert (Hval : forall t, num_end t = true -> exists q u,
    member lvl (k, x) +++ t = String dq q /\ p_string q = Some (k, ":" +++ u) /\
    p_value K fuel (skip_ws u) = Some (x, t)).
  { intros t Ht. unfold member. cbn [fst snd]. rewrite !append_assoc.
    destruct (sep_key _ Ho) as [n Hn]. destruct (p_string_quote k
      (key_sep o +++ dumps_at o lvl x +++ t) ltac:(done)) as (q & Hq & Hp).
    rewrite Hq. exists (q +++ key_sep o +++ dumps_at o lvl x +++ t), (spaces n +++ dumps_at o lvl x +++ t).
    split; [reflexivity|]. split.
    - rewrite Hp, Hn, append_assoc. done.
    - rewrite skip_ws_spaces, value_head_skip by (by apply dumps_head).
      apply Hx; [done|lia|done]. }
  destruct d as [|y d]; cbn [map] in *.
  { destruct (Hval ("}" +++ rest) eq_refl) as (q & u & E & Hs & Hv). cbn [join String.concat].
    rewrite E. by eapply p_members_last. }
  destruct (sep_item _ Ho) as [n Hn].
  rewrite join_cons, !append_assoc. rewrite Hn at 1. rewrite append_assoc.
  edestruct (Hval ("," +++ spaces n +++ join (item_sep o) (member lvl y :: map (member lvl) d) +++
    "}" +++ rest) eq_refl) as (q & u & E & Hs & Hv).
  rewrite E. erewrite p_members_step by done.
  rewrite skip_ws_spaces, value_head_skip by (apply join_head, member_head).
  by rewrite IH by (done || lia).
Qed.

Theorem parses_all v : parses v.
Proof.
  induction v as [|b|z|f|s|l IH|d IH] using value_ind; intros lvl fuel rest Hok Hf Hr;
    (destruct fuel as [|fuel]; [simpl in Hf; lia|]); cbn [json_ok vsize] in *; try done.
  - by destruct b.
  - by apply p_value_int.
  - destruct (p_string_quote s rest Hok) as (q & Hq & Hp). cbn [dumps_at]. rewrite Hq.
    cbn [String.append p_value]. by rewrite Ascii.eqb_refl, Hp.
  - cbn [dumps_at]. unfold bracket. rewrite (sep_indent _ Ho).
    destruct l as [|x l]; [done|]. cbn [map]. rewrite !append_assoc. cbn [String.append].
    assert (Hh : value_head (join (item_sep o) (map (dumps_at o (S lvl)) (x :: l)))).
    { apply join_head, dumps_head. cbn [forallb] in Hok. by bool_prop. }
    pose proof (p_items_ok (S lvl) (x :: l) fuel rest IH ltac:(done) Hok (le_S_n _ _ Hf)) as Hi.
    destruct Hh as (c & t & E & Hc & Hb & _). cbn [map] in *. rewrite E in *. cbn [String.append] in *.
    cbn [p_value]. unfold skip_ws. cbn [lstrip_chars]. rewrite Hc.
    apply Ascii.eqb_neq in Hb. rewrite Hb. by rewrite Hi.
  - cbn [dumps_at]. unfold bracket. rewrite (sep_indent _ Ho), (sep_sort _ Ho).
    destruct d as [|x d]; [done|]. apply andb_true_iff in Hok as [Hnd%bool_decide_eq_true_1 Hok].
    rewrite map_map. change (map _ (x :: d)) with (map (member (S lvl)) (x :: d)). cbn [map].
    rewrite !append_assoc. cbn [String.append].
    assert (Hh : value_head (join (item_sep o) (map (member (S lvl)) (x :: d)))).
    { apply join_head, member_head. }
    pose proof (p_members_ok (S lvl) (x :: d) fuel rest IH ltac:(done) Hok (le_S_n _ _ Hf)) as Hi.
    destruct Hh as (c & t & E & Hc & _ & Hb). cbn [map] in *. rewrite E in *. cbn [String.append] in *.
    cbn [p_value]. unfold skip_ws. cbn [lstrip_chars]. rewrite Hc.
    apply Ascii.eqb_neq in Hb. rewrite Hb. rewrite Hi. by rewrite HK.
Qed.

(** The parser's fuel, twice the length of the text, always suffices. *)
Lemma length_app_str a b : String.length (a +++ b) = (String.length a + String.length b)%nat.
Proof. induction a; simpl; lia. Qed.
Lemma join_length sep l : (0 < String.length sep)%nat ->
  (fold_right (fun x n => String.length x + n)%nat O l + length l <=
   String.length (join sep l) + 1)%nat.
Proof.
  intros Hs. induction l as [|x l IH]; simpl; [lia|]. destruct l as [|y l]; [simpl; lia|].
  change (String.concat sep (x :: y :: l)) with (x +++ sep +++ join sep (y :: l)).
  rewrite !length_app_str. simpl in *. lia.
Qed.
Lemma vsize_bound lvl v : json_ok v = true -> (vsize v <= 2 * String.length (dumps_at o lvl v))%nat.
Proof.
  revert lvl. induction v as [|b|z|f|s|l IH|d IH] using value_ind; intros lvl Hok;
    cbn [vsize dumps_at]; [simpl; lia|destruct b; simpl; lia| |done|unfold quote; simpl; lia|..].
  - destruct (str_of_Z_shape z) as (c & t & _ & [-> | ->]); simpl; lia.
  - unfold bracket. rewrite (sep_indent _ Ho). destruct l as [|x l]; [simpl; lia|].
    cbn [map]. rewrite !length_app_str. destruct (sep_item _ Ho) as [n Hn].
    pose proof (join_length (item_sep o) (map (dumps_at o (S lvl)) (x :: l))
      ltac:(rewrite Hn; simpl; lia)) as Hj. cbn [map] in Hj.
    enough (fold_right (fun x n => S (vsize x) + n)%nat O (x :: l) <=
      2 * fold_right (fun x n => String.length x + n)%nat O (map (dumps_at o (S lvl)) (x :: l))
      + length (x :: l))%nat by
      (cbn [map length String.length] in *; rewrite length_map in Hj;
       match goal with H : (?a <= 2 * ?g + _)%nat |- (S ?b <= _)%nat =>
         change b with a; revert H Hj; generalize a, g; intros; lia end).
    clear Hj. revert Hok IH. generalize (x :: l) as m. cbn [json_ok].
    induction m as [|y m IHm]; intros Hok HF; cbn [fold_right map length]; [lia|]. cbn [forallb] in Hok.
    inversion HF as [|?? Hy Hm]; subst. bool_prop.
    specialize (Hy (S lvl) ltac:(done)). specialize (IHm ltac:(done) Hm). lia.
  - unfold bracket. rewrite (sep_indent _ Ho), (sep_sort _ Ho). destruct d as [|x d]; [simpl; lia|].
    rewrite map_map. change (map _ (x :: d)) with (map (member (S lvl)) (x :: d)).
    cbn [map]. rewrite !length_app_str. destruct (sep_item _ Ho) as [n Hn].
    pose proof (join_length (item_sep o) (map (member (S lvl)) (x :: d))
      ltac:(rewrite Hn; simpl; lia)) as Hj. cbn [map] in Hj.
    enough (fold_right (fun kv n => S (vsize (snd kv)) + n)%nat O (x :: d) <=
      2 * fold_right (fun x n => String.length x + n)%nat O (map (member (S lvl)) (x :: d))
      + length (x :: d))%nat by
      (cbn [map length String.length] in *; rewrite length_map in Hj;
       match goal with H : (?a <= 2 * ?g + _)%nat |- (S ?b <= _)%nat =>
         change b with a; revert H Hj; generalize a, g; intros; lia end).
    clear Hj. revert Hok IH. generalize (x :: d) as m. cbn [json_ok].
    intros m Hok. apply andb_true_iff in Hok as [_ Hok]. revert Hok.
    induction m as [|y m IHm]; intros Hok HF; cbn [fold_right map length]; [lia|]. cbn [forallb] in Hok.
    inversion HF as [|?? Hy Hm]; subst. bool_prop.
    specialize (Hy (S lvl) ltac:(done)). specialize (IHm ltac:(done) Hm).
    unfold member at 1, quote. rewrite !length_app_str. cbn [String.length]. lia.
Qed.

Theorem loads_with_dumps v : json_ok v = true -> loads_with K (dumps_with o v) = Ok v.
Proof.
  intros Hok. unfold loads_with, dumps_with.
  pose proof (parses_all v 0%nat (parse_fuel (dumps_at o 0 v)) "" Hok) as H.
  rewrite append_nil_r in H.
  pose proof (value_head_skip _ "" (dumps_head 0 v Hok)) as Hs. rewrite append_nil_r in Hs.
  rewrite Hs, H; [done| |done]. unfold parse_fuel. pose proof (vsize_bound 0 v Hok). lia.
Qed.
End Roundtrip.
Lemma plain_keeps d : NoDup (dkeys d) -> on_object plain d = Some d.
Proof. intros H. cbn. by rewrite dict_of_id. Qed.
Theorem loads_dumps_with o v : sep_ok o -> json_ok o v = true -> loads (dumps_with o v) = Ok v.
Proof. intros Ho Hok. apply loads_with_dumps; [done|apply plain_keeps|done]. Qed.

Abbreviation storable := (json_ok default_opts).
Lemma loads_dumps v : storable v = true -> loads (dumps v) = Ok v.
Proof. apply loads_dumps_with, default_sep_ok. Qed.
#[export] Hint Resolve loads_dumps : daedalus.

(** ** JSON with sorted keys

    [json.dumps(..., sort_keys=True)] writes the value with the items of every
    object in key order, and so canonical JSON is read back as that value and
    canonical forms are fixed points. *)
Definition item_leb {A} (a b : string * A) : bool :=
  match String.compare (fst a) (fst b) with Gt => false | _ => true end.
Fixpoint sort_value (v : value) : value :=
  match v with
  | VList l => VList (map sort_value l)
  | VDict d => VDict (stable_sort item_leb (map (fun kv => (fst kv, sort_value (snd kv))) d))
  | _ => v
  end.
Definition sort_dict (d : dict) : dict :=
  stable_sort item_leb (map (fun kv => (fst kv, sort_value (snd kv))) d).
(** The same layout, keys in their own order. *)
Definition unsorted (o : opts) : opts := Opts (ensure_ascii o) (item_sep o) (key_sep o) false (indent o).

(** ** The order of keys *)
Lemma string_lt_compare a b : String_as_OT.lt a b <-> String.compare a b = Lt.
Proof. reflexivity. Qed.
Lemma item_leb_total {A} (x y : string * A) : item_leb x y = true \/ item_leb y x = true.
Proof.
  unfold item_leb. rewrite (String.compare_antisym (fst x) (fst y)).
  destruct (String.compare (fst y) (fst x)); cbn; auto.
Qed.
Lemma item_leb_le {A} (x y : string * A) :
  item_leb x y = true <-> String_as_OT.lt (fst x) (fst y) \/ fst x = fst y.
Proof.
  unfold item_leb. rewrite string_lt_compare. destruct (String.compare (fst x) (fst y)) eqn:E.
  - apply String.compare_eq_iff in E. naive_solver.
  - naive_solver.
  - split; [done|]. intros [H|H]; [done|]. rewrite H in E.
    pose proof (String.compare_antisym (fst y) (fst y)) as C. rewrite E in C. discriminate C.
Qed.
Lemma item_leb_trans {A} (x y z : string * A) :
  item_leb x y = true -> item_leb y z = true -> item_leb x z = true.
Proof.
  rewrite !item_leb_le. intros [H1|H1] [H2|H2]; [left|left; congruence|left; congruence|right; congruence].
  destruct String_as_OT.lt_strorder as [_ T]. by apply (T _ (fst y)).
Qed.

(** ** Sorting commutes with what keeps the keys *)
Section Map.
Context {A B : Type} (f : A -> B).
Let g (kv : string * A) : string * B := (fst kv, f (snd kv)).
Lemma insert_map x l : insert_sorted item_leb (g x) (map g l) = map g (insert_sorted item_leb x l).
Proof. induction l as [|y l IH]; simpl; [done|]. unfold item_leb in *. simpl. by destruct (String.compare _ _); simpl; rewrite ?IH. Qed.
Lemma stable_sort_map l : stable_sort item_leb (map g l) = map g (stable_sort item_leb l).
Proof. induction l as [|x l IH]; simpl; [done|]. by rewrite IH, insert_map. Qed.
End Map.
Lemma stable_sort_sorted_id {A} (l : list (string * A)) :
  StronglySorted (fun x y => item_leb x y = true) l -> stable_sort item_leb l = l.
Proof.
  induction 1 as [|x l Hs IH Hf]; simpl; [done|]. rewrite IH. destruct Hf as [|y l Hy]; simpl; [done|]. by rewrite Hy.
Qed.
Lemma stable_sort_idem {A} (l : list (string * A)) :
  stable_sort item_leb (stable_sort item_leb l) = stable_sort item_leb l.
Proof. apply stable_sort_sorted_id, stable_sort_sorted; [apply item_leb_total|apply item_leb_trans]. Qed.

(** ** Writing *)
Lemma bracket_unsorted o lvl l r items : bracket (unsorted o) lvl l r items = bracket o lvl l r items.
Proof. done. Qed.
Lemma dumps_sorted o v : sort_keys o = true ->
  forall lvl, dumps_at o lvl v = dumps_at (unsorted o) lvl (sort_value v).
Proof.
  intros Ho. induction v as [| | | | |l IH|d IH] using value_ind; intros lvl; try done; cbn [sort_value dumps_at].
  - rewrite bracket_unsorted. f_equal. induction IH as [|x l Hx _ IHl]; [done|]. cbn. by rewrite Hx, IHl.
  - rewrite bracket_unsorted, Ho. cbn [unsorted sort_keys]. f_equal.
    change (fun kv : string * string => quote (unsorted o) (fst kv) +++ key_sep (unsorted o) +++ snd kv)
      with (fun kv : string * string => quote o (fst kv) +++ key_sep o +++ snd kv).
    change (fun kv : string * value => (fst kv, dumps_at (unsorted o) (S lvl) (snd kv)))
      with (fun kv : string * value => (fst kv, (dumps_at (unsorted o) (S lvl)) (snd kv))).
    rewrite <- stable_sort_map, map_map. cbn [fst snd]. f_equal. unfold key_leb, item_leb. f_equal.
    induction IH as [|kv d Hx _ IHl]; [done|]. cbn. by rewrite Hx, IHl.
Qed.

(** ** Reading back *)
Lemma keys_map {A B} (f : A -> B) (l : list (string * A)) :
  map fst (map (fun kv => (fst kv, f (snd kv))) l) = map fst l.
Proof. rewrite map_map. done. Qed.
Lemma dkeys_sort (d : dict) : dkeys (stable_sort item_leb d) ≡ₚ dkeys d.
Proof. unfold dkeys. apply Permutation_map, stable_sort_perm. Qed.
Lemma forallb_perm {A} (f : A -> bool) l l' : l ≡ₚ l' -> forallb f l = forallb f l'.
Proof.
  induction 1 as [|x l l' _ IH|x y l|]; cbn; [done|by rewrite IH| |congruence].
  rewrite !andb_assoc. f_equal. apply andb_comm.
Qed.
Lemma json_ok_sort o v : json_ok o v = true -> json_ok o (sort_value v) = true.
Proof.
  induction v as [| | | | |l IH|d IH] using value_ind; intros H; try done; cbn [sort_value json_ok] in *.
  - induction IH as [|x l Hx _ IHl]; [done|]. cbn in *. bool_prop. rewrite Hx, IHl; done.
  - apply andb_true_iff in H as [Hn H]. apply andb_true_iff. split.
    + bool_prop. apply bool_decide_eq_true_2. rewrite dkeys_sort. unfold dkeys. by rewrite keys_map.
    + rewrite (forallb_perm _ _ _ (stable_sort_perm item_leb _)). clear Hn.
      induction IH as [|[k x] d Hx _ IHl]; [done|]. cbn in *. bool_prop. rewrite Hx, IHl by done.
      by rewrite andb_true_r, andb_true_iff.
Qed.
Lemma json_ok_unsorted o v : json_ok (unsorted o) v = json_ok o v.
Proof. done. Qed.
Lemma loads_sorted o v : sort_keys o = true -> sep_ok (unsorted o) -> json_ok o v = true ->
  loads (dumps_with o v) = Ok (sort_value v).
Proof.
  intros Hs Ho Hv. unfold dumps_with. rewrite dumps_sorted by done. apply loads_dumps_with; [done|].
  rewrite json_ok_unsorted. by apply json_ok_sort.
Qed.
Lemma canonical_sep : sep_ok (unsorted canonical_opts).
Proof. split; [by exists 0%nat|by exists 0%nat|done|done]. Qed.

(** ** Canonical forms *)
Lemma map_sort_id (d : dict) : Forall (fun kv => sort_value (snd kv) = snd kv) d ->
  map (fun kv => (fst kv, sort_value (snd kv))) d = d.
Proof. induction 1 as [|[k x] d Hx _ IH]; [done|]. cbn in *. by rewrite Hx, IH. Qed.
Lemma sort_value_idem v : sort_value (sort_value v) = sort_value v.
Proof.
  induction v as [| | | | |l IH|d IH] using value_ind; try done; cbn [sort_value].
  - f_equal. induction IH as [|x l Hx _ IHl]; [done|]. cbn. by rewrite Hx, IHl.
  - f_equal. rewrite map_sort_id; [apply stable_sort_idem|].
    rewrite (stable_sort_perm item_leb). induction IH as [|[k x] d Hx _ IHl]; cbn; [constructor|by constructor].
Qed.
Lemma dumps_sort o v : sort_keys o = true -> dumps_with o (sort_value v) = dumps_with o v.
Proof.
  intros H. unfold dumps_with. rewrite (dumps_sorted o (sort_value v)), (dumps_sorted o v) by done.
  by rewrite sort_value_idem.
Qed.
