(* ===== verification/Redis.v ===== *)
(** * Redis as the program uses it

    The server is outside the repository: [RedisServer] is the interface the
    Python code relies on.  [spec] is the documented effect of each command on
    the logical keyspace (expired keys are simply absent), the class laws say
    that a server follows it, and that EXEC only runs while the watched keys
    are unmodified.  [eff] is the state-and-exception monad of the code that
    talks to it: every round trip is preceded by whatever other clients do,
    [interf]. *)
From S2P Require Import Prelude PyStr PyFloat PyVal Json JsonRoundtrip.
#[local] Open Scope Z_scope.

(** A value RedisJSON keeps exactly: it survives a JSON round trip, its numbers
    are finite and its integers fit 64 bits. *)
Fixpoint json_plain (v : value) : bool :=
  match v with
  | VInt z => (- 2 ^ 63 <=? z) && (z <? 2 ^ 63)
  | VFloat (S754_nan | S754_infinity _) => false
  | VList l => forallb json_plain l
  | VDict d => forallb (fun kv => json_plain (snd kv)) d
  | _ => true
  end.
Definition json_exact (v : value) : bool := storable v && json_plain v.

(** ** Keyspace *)
Inductive rval :=
| RStr (s : string)
| RJson (v : value)
| RList (l : list string)
| RHash (h : gmap string string).
Record entry := Entry { e_val : rval; e_ttl : option Z }.
Abbreviation keys_t := (gmap string entry).

Inductive cmd :=
| GET (k : string)
| SET (k v : string)
| SETEX (k : string) (ttl : Z) (v : string)
| SETNXEX (k v : string) (ttl : Z)
| DEL (k : string)
| GETDEL (k : string)
| EXPIRE (k : string) (ttl : Z)
| TYPE (k : string)
| JSONGET (k : string)
| JSONSET (k text : string)
| LPUSH (k v : string)
| LLEN (k : string)
| LRANGE (k : string) (start stop : Z)
| LINDEX0 (k : string)
| LPOP (k : string)
| LREM1 (k v : string)
| LMOVE_LR (src dst : string)
| RPOPLPUSH (src dst : string)
| HGET (k f : string)
| HSET (k f v : string)
| HDEL (k f : string)
| HGETALL (k : string)
| PUBLISH (ch msg : string).

Inductive reply :=
| RNil
| RInt (z : Z)
| RText (s : string)
| RMany (l : list string)
| RMap (h : gmap string string).

Definition wrongtype {A} : result A :=
  raise ResponseError "WRONGTYPE Operation against a key holding the wrong kind of value".
Definition json_wrongtype {A} : result A :=
  raise ResponseError "Existing key has wrong Redis type".
Definition no_json {A} : result A :=
  raise ResponseError "unknown command 'JSON.GET'".

Definition kval (k : string) (m : keys_t) : option rval := e_val <$> m !! k.
(** The list stored at a key, [[]] when the key is absent. *)
Definition klist (k : string) (m : keys_t) : result (list string) :=
  match kval k m with Some (RList l) => Ok l | None => Ok [] | _ => wrongtype end.
Definition khash (k : string) (m : keys_t) : result (gmap string string) :=
  match kval k m with Some (RHash h) => Ok h | None => Ok ∅ | _ => wrongtype end.
Definition kstr (k : string) (m : keys_t) : result (option string) :=
  match kval k m with Some (RStr s) => Ok (Some s) | None => Ok None | _ => wrongtype end.
(** Writing a list or hash: the key keeps its expiry and disappears when the
    collection becomes empty. *)
Definition kttl (k : string) (m : keys_t) : option Z :=
  match m !! k with Some e => e_ttl e | None => None end.
Definition put_list (k : string) (l : list string) (m : keys_t) : keys_t :=
  match l with [] => delete k m | _ => <[k := Entry (RList l) (kttl k m)]> m end.
Definition put_hash (k : string) (h : gmap string string) (m : keys_t) : keys_t :=
  if decide (h = ∅) then delete k m else <[k := Entry (RHash h) (kttl k m)]> m.

Fixpoint remove_first (v : string) (l : list string) : list string :=
  match l with
  | [] => []
  | x :: xs => if (x =? v)%string then xs else x :: remove_first v xs
  end.
Definition of_opt (o : option string) : reply := match o with Some s => RText s | None => RNil end.
(** The elements of LRANGE; negative indices count from the end. *)
Definition lrange (a b : Z) (l : list string) : list string :=
  let n := Z.of_nat (length l) in
  let a := Z.max 0 (if a <? 0 then n + a else a) in
  let b := if b <? 0 then n + b else b in
  firstn (Z.to_nat (b - a + 1)) (skipn (Z.to_nat a) l).

Section Spec.
Context (render : value -> string) (json_module : bool).

Definition spec (c : cmd) (m : keys_t) : result reply * keys_t :=
  match c with
  | GET k => (x ← kstr k m; Ok (of_opt x), m)
  | SET k v => (Ok (RText "OK"), <[k := Entry (RStr v) None]> m)
  | SETEX k ttl v => (Ok (RText "OK"), <[k := Entry (RStr v) (Some ttl)]> m)
  | SETNXEX k v ttl =>
      match m !! k with
      | Some _ => (Ok RNil, m)
      | None => (Ok (RText "OK"), <[k := Entry (RStr v) (Some ttl)]> m)
      end
  | DEL k => (Ok (RInt (match m !! k with Some _ => 1 | None => 0 end)), delete k m)
  | GETDEL k =>
      match kstr k m with
      | Ok (Some s) => (Ok (RText s), delete k m)
      | Ok None => (Ok RNil, m)
      | Raise e => (Raise e, m)
      end
  | EXPIRE k ttl =>
      match m !! k with
      | Some e => (Ok (RInt 1), <[k := Entry (e_val e) (Some ttl)]> m)
      | None => (Ok (RInt 0), m)
      end
  | TYPE k =>
      (Ok (RText (match kval k m with
                  | None => "none" | Some (RStr _) => "string" | Some (RJson _) => "ReJSON-RL"
                  | Some (RList _) => "list" | Some (RHash _) => "hash" end)), m)
  | JSONGET k =>
      (if json_module then
         match kval k m with
         | None => Ok RNil | Some (RJson v) => Ok (RText (render v)) | _ => json_wrongtype end
       else no_json, m)
  | JSONSET k t =>
      if json_module then
        match kval k m with
        | None | Some (RJson _) =>
            match loads t with
            | Ok v => if json_plain v then (Ok (RText "OK"), <[k := Entry (RJson v) (kttl k m)]> m)
                      else (raise ResponseError "number out of range", m)
            | Raise _ => (raise ResponseError "expected value", m)
            end
        | _ => (json_wrongtype, m)
        end
      else (no_json, m)
  | LPUSH k v =>
      match klist k m with
      | Ok l => (Ok (RInt (Z.of_nat (length l) + 1)), put_list k (v :: l) m)
      | Raise e => (Raise e, m)
      end
  | LLEN k => (l ← klist k m; Ok (RInt (Z.of_nat (length l))), m)
  | LRANGE k a b => (l ← klist k m; Ok (RMany (lrange a b l)), m)
  | LINDEX0 k => (l ← klist k m; Ok (of_opt (head l)), m)
  | LPOP k =>
      match klist k m with
      | Ok (x :: l) => (Ok (RText x), put_list k l m)
      | Ok [] => (Ok RNil, m)
      | Raise e => (Raise e, m)
      end
  | LREM1 k v =>
      match klist k m with
      | Ok l => (Ok (RInt (if decide (v ∈ l) then 1 else 0)), put_list k (remove_first v l) m)
      | Raise e => (Raise e, m)
      end
  | LMOVE_LR src dst =>
      match klist src m, klist dst m with
      | Ok (x :: l), Ok _ =>
          let m1 := put_list src l m in
          match klist dst m1 with
          | Ok l2 => (Ok (RText x), put_list dst (l2 ++ [x]) m1)
          | Raise e => (Raise e, m)
          end
      | Ok [], _ => (Ok RNil, m)
      | Raise e, _ | _, Raise e => (Raise e, m)
      end
  | RPOPLPUSH src dst =>
      match klist src m, klist dst m with
      | Ok l, Ok _ =>
          match last l with
          | None => (Ok RNil, m)
          | Some x =>
              let m1 := put_list src (removelast l) m in
              match klist dst m1 with
              | Ok l2 => (Ok (RText x), put_list dst (x :: l2) m1)
              | Raise e => (Raise e, m)
              end
          end
      | Raise e, _ | _, Raise e => (Raise e, m)
      end
  | HGET k f => (h ← khash k m; Ok (of_opt (h !! f)), m)
  | HSET k f v =>
      match khash k m with
      | Ok h => (Ok (RInt (match h !! f with Some _ => 0 | None => 1 end)),
                 put_hash k (<[f := v]> h) m)
      | Raise e => (Raise e, m)
      end
  | HDEL k f =>
      match khash k m with
      | Ok h => (Ok (RInt (match h !! f with Some _ => 1 | None => 0 end)),
                 put_hash k (delete f h) m)
      | Raise e => (Raise e, m)
      end
  | HGETALL k => (h ← khash k m; Ok (RMap h), m)
  | PUBLISH _ _ => (Ok (RInt 0), m)
  end.
End Spec.

(** ** The interface of a server

    [later r r'] says that the server evolves from [r] to [r'], by commands or
    by keys expiring; WATCH is sound for every state in between. *)
Class RedisServer (R : Type) := {
  keyspace : R -> keys_t;
  json_module : bool;
  json_render : value -> string;
  run : cmd -> R -> result reply * R;
  later : R -> R -> Prop;
  watch_t : Type;
  watch : string -> R -> watch_t;
  exec_ok : watch_t -> R -> bool;
  run_reply : forall c r, fst (run c r) = fst (spec json_render json_module c (keyspace r));
  run_keys : forall c r, keyspace (snd (run c r)) =
                         snd (spec json_render json_module c (keyspace r));
  run_later : forall c r, later r (snd (run c r));
  later_refl : forall r, later r r;
  later_trans : forall r1 r2 r3, later r1 r2 -> later r2 r3 -> later r1 r3;
  render_loads : forall v, json_exact v = true -> loads (json_render v) = Ok v;
  watch_fresh : forall k r, exec_ok (watch k r) r = true;
  watch_sound : forall k r r1 r2, later r r1 -> later r1 r2 -> exec_ok (watch k r) r2 = true ->
                                  keyspace r1 !! k = keyspace r !! k;
  watch_live : forall k r c r1, exec_ok (watch k r) r1 = true ->
    snd (spec json_render json_module c (keyspace r1)) = keyspace r1 ->
    exec_ok (watch k r) (snd (run c r1)) = true;
}.

#[export] Instance rval_eq_dec : EqDecision rval.
Proof. solve_decision. Defined.
#[export] Instance entry_eq_dec : EqDecision entry.
Proof. solve_decision. Defined.

(** A reference server, with or without RedisJSON: the keyspace and its
    history, newest first; a watched key must be constant since WATCH. *)
Record ref_redis := RefRedis { ref_now : keys_t; ref_past : list keys_t }.
Definition ref_states (r : ref_redis) : list keys_t := ref_now r :: ref_past r.
Definition ref_later (r r' : ref_redis) : Prop := exists l, ref_states r' = l ++ ref_states r.
Definition ref_run (json : bool) (c : cmd) (r : ref_redis) : result reply * ref_redis :=
  let '(x, m) := spec dumps json c (ref_now r) in (x, RefRedis m (ref_states r)).
(** The states since the history had [n] entries, that one included. *)
Definition ref_since (n : nat) (r : ref_redis) : list keys_t :=
  firstn (length (ref_states r) - n + 1) (ref_states r).
Definition ref_watch (k : string) (r : ref_redis) : string * nat * option entry :=
  (k, length (ref_states r), ref_now r !! k).
Definition ref_exec_ok (t : string * nat * option entry) (r : ref_redis) : bool :=
  let '(k, n, v) := t in forallb (fun m => bool_decide (m !! k = v)) (ref_since n r).

Lemma ref_watch_sound k r r1 r2 : ref_later r r1 -> ref_later r1 r2 ->
  ref_exec_ok (ref_watch k r) r2 = true -> ref_now r1 !! k = ref_now r !! k.
Proof.
  intros [l1 H1] [l2 H2]. unfold ref_exec_ok, ref_watch, ref_since. intros H.
  rewrite forallb_forall in H. specialize (H (ref_now r1)).
  apply bool_decide_eq_true_1 in H; [done|]. rewrite H2.
  apply list_elem_of_In. unfold ref_states at 3. rewrite firstn_app.
  apply elem_of_app. right. rewrite !length_app, H1, !length_app.
  match goal with |- _ ∈ firstn ?n _ => destruct n eqn:E end; [lia|].
  apply list_elem_of_here.
Qed.
#[export] Program Instance ref_server (json : bool) : RedisServer ref_redis := {|
  keyspace := ref_now;
  json_module := json;
  json_render := dumps;
  run := ref_run json;
  later := ref_later;
  watch_t := string * nat * option entry;
  watch := ref_watch;
  exec_ok := ref_exec_ok;
|}.
Next Obligation. intros json c r. unfold ref_run. by destruct (spec _ _ _ _). Qed.
Next Obligation. intros json c r. unfold ref_run. by destruct (spec _ _ _ _). Qed.
Next Obligation. intros json c r. unfold ref_run. destruct (spec _ _ _ _) as [x m]. by exists [m]. Qed.
Next Obligation. intros _ r. by exists []. Qed.
Next Obligation.
  intros _ r1 r2 r3 [a Ha] [b Hb]. exists (b ++ a). by rewrite Hb, Ha, List.app_assoc.
Qed.
Next Obligation.
  intros _ v H. apply loads_dumps. unfold json_exact in H. by bool_prop.
Qed.
Next Obligation.
  intros _ k r. unfold ref_exec_ok, ref_watch, ref_since. rewrite Nat.sub_diag. simpl.
  rewrite bool_decide_eq_true_2 by done. done.
Qed.
Next Obligation. intros _. apply ref_watch_sound. Qed.
Next Obligation.
  intros json k r c r1. unfold ref_exec_ok, ref_watch, ref_since, ref_run. intros H Hs.
  destruct (spec dumps json c (ref_now r1)) as [x m]. simpl in Hs. subst m. cbn [snd ref_now ref_past].
  rewrite forallb_forall in *. intros m Hm. apply H.
  unfold ref_states in *. cbn [ref_now ref_past length] in *.
  rewrite Nat.add_1_r in *. cbn [firstn] in *.
  destruct Hm as [->|Hm]; [by left|].
  match type of Hm with In _ (firstn ?a _) => destruct a as [|p] eqn:Ep end; [done|].
  cbn [firstn] in Hm. destruct Hm as [->|Hm]; [by left|right].
  match goal with |- In _ (firstn ?b _) => replace b with p by lia end. done.
Qed.

(** ** Effects

    [eff W A]: code that reads and writes a world [W], returns or raises.  A
    raised exception keeps the state reached so far, as in Python. *)
Definition eff (W A : Type) : Type := W -> result A * W.
#[export] Instance eff_ret W : MRet (eff W) := fun A a w => (Ok a, w).
#[export] Instance eff_bind W : MBind (eff W) := fun A B f m w =>
  match m w with (Ok a, w') => f a w' | (Raise e, w') => (Raise e, w') end.
#[export] Instance eff_fmap W : FMap (eff W) := fun A B f m w =>
  match m w with (Ok a, w') => (Ok (f a), w') | (Raise e, w') => (Raise e, w') end.

Section Eff.
Context {W : Type}.
Definition lift {A} (r : result A) : eff W A := fun w => (r, w).
Definition throw {A} (c : exn_class) (msg : string) : eff W A := lift (raise c msg).
Definition rethrow {A} (e : exn) : eff W A := lift (Raise e).
Definition gets {A} (f : W -> A) : eff W A := fun w => (Ok (f w), w).
Definition modify (f : W -> W) : eff W unit := fun w => (Ok tt, f w).
(** [try: m except cs as e: h e]. *)
Definition catch {A} (m : eff W A) (cs : list exn_class) (h : exn -> eff W A) : eff W A :=
  fun w => match m w with
           | (Raise e, w') => if exn_in e cs then h e w' else (Raise e, w')
           | r => r
           end.
(** [try: m finally: f]; an exception of [f] replaces the result of [m]. *)
Definition finally {A} (m : eff W A) (f : eff W unit) : eff W A :=
  fun w => let '(r, w1) := m w in
           match f w1 with (Ok _, w2) => (r, w2) | (Raise e, w2) => (Raise e, w2) end.
(** [with contextlib.suppress(cs): m]. *)
Definition suppress (cs : list exn_class) (m : eff W unit) : eff W unit :=
  catch m cs (fun _ => mret tt).
Definition when (b : bool) (m : eff W unit) : eff W unit := if b then m else mret tt.
Fixpoint mapE {A B} (f : A -> eff W B) (l : list A) : eff W (list B) :=
  match l with
  | [] => mret []
  | x :: xs => y ← f x; ys ← mapE f xs; mret (y :: ys)
  end.
Fixpoint iterE {A} (f : A -> eff W unit) (l : list A) : eff W unit :=
  match l with [] => mret tt | x :: xs => _ ← f x; iterE f xs end.

Lemma bind_inv {A B} (m : eff W A) (f : A -> eff W B) w r w' :
  (x ← m; f x) w = (r, w') ->
  (exists a w1, m w = (Ok a, w1) /\ f a w1 = (r, w')) \/ (exists e, m w = (Raise e, w') /\ r = Raise e).
Proof. unfold mbind, eff_bind. destruct (m w) as [[a|e] w1]; naive_solver. Qed.
Lemma bind_run {A B} (m : eff W A) (f : A -> eff W B) w a w1 :
  m w = (Ok a, w1) -> (x ← m; f x) w = f a w1.
Proof. intros E. unfold mbind, eff_bind. by rewrite E. Qed.
Lemma bind_fail {A B} (m : eff W A) (f : A -> eff W B) w e w1 :
  m w = (Raise e, w1) -> (x ← m; f x) w = (Raise e, w1).
Proof. intros E. unfold mbind, eff_bind. by rewrite E. Qed.
Lemma bind_Ok {A B} (m : eff W A) (f : A -> eff W B) w b w' :
  (x ← m; f x) w = (Ok b, w') <-> exists a w1, m w = (Ok a, w1) /\ f a w1 = (Ok b, w').
Proof. unfold mbind, eff_bind. destruct (m w) as [[a|e] w1]; naive_solver. Qed.
Lemma bind_Raise {A B} (m : eff W A) (f : A -> eff W B) w e w' :
  (x ← m; f x) w = (Raise e, w') <->
  m w = (Raise e, w') \/ exists a w1, m w = (Ok a, w1) /\ f a w1 = (Raise e, w').
Proof. unfold mbind, eff_bind. destruct (m w) as [[a|e'] w1]; naive_solver. Qed.
Lemma catch_inv {A} (m : eff W A) cs hd w r w' : catch m cs hd w = (r, w') ->
  (exists a, m w = (Ok a, w') /\ r = Ok a) \/
  (exists e w1, m w = (Raise e, w1) /\ ((exn_in e cs = true /\ hd e w1 = (r, w')) \/ (exn_in e cs = false /\ r = Raise e /\ w1 = w'))).
Proof.
  unfold catch. destruct (m w) as [[a|e] w1]; [intros [= <- <-]; left; by eexists|]. destruct (exn_in e cs) eqn:E; intros H; right; exists e, w1.
  - split; [done|]. by left.
  - split; [done|]. right. by injection H as <- <-.
Qed.
End Eff.

(** Step through a monadic equation [(m) w = (r, w')] in a hypothesis. *)
Ltac inv_eff H :=
  first
  [ apply bind_Ok in H; destruct H as (? & ? & ? & H)
  | apply bind_Raise in H; destruct H as [H | (? & ? & ? & H)] ].
(** Split a monadic equation at its first step, naming it [E]. *)
Ltac step H a w E :=
  apply bind_inv in H; destruct H as [(a & w & E & H)|(?e & E & H)];
  [|try (match type of H with ?v = _ => is_var v; subst v end)].
