(* ===== verification/PyUrl.v ===== *)
(** * [urllib.parse] as the program uses it

    [urlsplit] with its [hostname] and [port], [parse_qsl], [urlencode] and
    [urlunsplit], on UTF-8 text.  [base64.b64decode]
    with [validate=True] is here too.  The compatibility-normalisation check of
    non-ASCII network locations is not modelled: such hosts are accepted. *)
From S2P Require Import Prelude PyStr PyFloat PyVal Json.
#[local] Open Scope Z_scope.

(** ** base64 ([base64.b64decode(s, validate=True)]) *)
Definition sextet (c : ascii) : option Z :=
  if is_upper c then Some (byte_of c - 65)
  else if is_lower c then Some (byte_of c - 71)
  else if is_digit c then Some (byte_of c + 4)
  else if char_is "+" c then Some 62 else if char_is "/" c then Some 63 else None.
Definition b64_pad (c : ascii) : bool := char_is "=" c.
(** Quartets of the alphabet; the last one may be padded. *)
Fixpoint b64decode (s : string) : option string :=
  match s with
  | EmptyString => Some ""
  | String a (String b (String c (String d rest))) =>
      match sextet a, sextet b, sextet c, sextet d with
      | Some x, Some y, Some z, Some t =>
          let n := ((x * 64 + y) * 64 + z) * 64 + t in
          tail ← b64decode rest;
          Some (String (chr (n / 65536)) (String (chr (n / 256 mod 256)) (String (chr (n mod 256)) tail)))
      | Some x, Some y, Some z, None =>
          if b64_pad d && (rest =? "")%string
          then let n := (x * 64 + y) * 64 + z in
               Some (String (chr (n / 1024)) (String (chr (n / 4 mod 256)) ""))
          else None
      | Some x, Some y, None, None =>
          if b64_pad c && b64_pad d && (rest =? "")%string then Some (String (chr ((x * 64 + y) / 16)) "") else None
      | _, _, _, _ => None
      end
  | _ => None
  end.


Record split_result := Split {
  u_scheme : string; u_netloc : string; u_path : string; u_query : string; u_fragment : string }.

Fixpoint filter_chars (f : ascii -> bool) (s : string) : string :=
  match s with
  | EmptyString => EmptyString
  | String c s' => if f c then String c (filter_chars f s') else filter_chars f s'
  end.
Definition is_alpha (c : ascii) : bool := is_lower c || is_upper c.
Definition scheme_char (c : ascii) : bool :=
  is_alpha c || is_digit c || char_is "+" c || char_is "-" c || char_is "." c.

(** Dotted-quad and IPv6 literals, for the bracketed hosts [urlsplit] checks. *)
Definition octet_ok (s : string) : bool :=
  all_digits s && (blen s <=? 3) && (digits_val 0 s <=? 255) &&
  ((blen s =? 1) || negb (startswith s "0")).
Definition ipv4_ok (s : string) : bool :=
  let parts := split_char "." s in Nat.eqb (length parts) 4 && forallb octet_ok parts.
Definition hextet_ok (s : string) : bool :=
  match s with
  | EmptyString => false
  | _ => (blen s <=? 4) && all_chars (fun c => match hex_val c with Some _ => true | None => false end) s
  end.
Definition ipv6_ok (s : string) : bool :=
  let '(addr, zone) := match cut s "%" with Some (a, z) => (a, Some z) | None => (s, None) end in
  let zone_ok := match zone with
                 | None => true
                 | Some z => negb (z =? "")%string && negb (contains z "%") end in
  let raw := split_char ":" addr in
  let lastp := default ""%string (last raw) in
  let v4 := contains lastp "." in
  let parts := if v4 then removelast raw ++ ["0"; "0"] else raw in
  let n := length parts in
  let inner := match parts with [] => [] | _ :: t => removelast t end in
  let gaps := length (List.filter (fun p => (p =? "")%string) inner) in
  let first := default ""%string (head parts) in
  let final := default ""%string (last parts) in
  let nonempty := List.filter (fun p => negb (p =? "")%string) parts in
  zone_ok && (3 <=? Z.of_nat (length raw)) && (if v4 then ipv4_ok lastp else true) &&
  (Z.of_nat n <=? 9) && forallb hextet_ok nonempty &&
  match gaps with
  | O => Nat.eqb n 8 && negb (first =? "")%string && negb (final =? "")%string
  | S O =>
      (* a leading or trailing empty part is only allowed next to the gap *)
      (negb (first =? "")%string || (nth 1 parts "x" =? "")%string) &&
      (negb (final =? "")%string || (nth (n - 2) parts "x" =? "")%string) &&
      (Z.of_nat (length nonempty) <? 8)
  | _ => false
  end.
Definition bracketed_host_ok (h : string) : bool :=
  if startswith h "v" then
    let '(hx, r) := take_while (fun c => match hex_val c with Some _ => true | None => false end)
                               (removeprefix h "v") in
    negb (hx =? "")%string && startswith r "." && negb (removeprefix r "." =? "")%string
  else ipv6_ok h.
Definition bracketed_netloc_ok (netloc : string) : bool :=
  let hp := match rcut netloc "@" with Some (_, h) => h | None => netloc end in
  match cut hp "[" with
  | Some (before, bracketed) =>
      (before =? "")%string &&
      match cut bracketed "]" with
      | Some (h, port) => ((port =? "")%string || startswith port ":") && bracketed_host_ok h
      | None => bracketed_host_ok bracketed
      end
  | None => bracketed_host_ok (match cut hp ":" with Some (h, _) => h | None => hp end)
  end.

(** The network location ends at the first of "/?#". *)
Fixpoint split_netloc (s : string) : string * string :=
  match s with
  | EmptyString => (EmptyString, EmptyString)
  | String c s' =>
      if char_is "/" c || char_is "?" c || char_is "#" c then (EmptyString, s)
      else let '(a, b) := split_netloc s' in (String c a, b)
  end.

Definition urlsplit (url : string) : result split_result :=
  let url := lstrip_chars (fun c => byte_of c <=? 32) url in
  let url := filter_chars (fun c => negb ((byte_of c =? 9) || (byte_of c =? 13) || (byte_of c =? 10))) url in
  let '(scheme, url) :=
    match cut url ":" with
    | Some (String c a, r) =>
        if is_alpha c && all_chars scheme_char (String c a) then (lower (String c a), r) else ("", url)
    | _ => ("", url)
    end in
  let '(netloc, url) := match strip_prefix "//" url with
                        | Some r => split_netloc r | None => ("", url) end in
  let o := contains netloc "[" in
  let c := contains netloc "]" in
  if xorb o c then raise ValueError "Invalid IPv6 URL"
  else if o && c && negb (bracketed_netloc_ok netloc)
  then raise ValueError "Invalid IPv6 URL"
  else
    let '(url, fragment) := match cut url "#" with Some p => p | None => (url, "") end in
    let '(path, query) := match cut url "?" with Some p => p | None => (url, "") end in
    Ok (Split scheme netloc path query fragment).

(** [_hostinfo]: the host text and the port text, if any. *)
Definition hostinfo (netloc : string) : string * option string :=
  let hi := match rcut netloc "@" with Some (_, h) => h | None => netloc end in
  let '(h, p) :=
    match cut hi "[" with
    | Some (_, br) =>
        let '(h, rest) := match cut br "]" with Some x => x | None => (br, "") end in
        (h, match cut rest ":" with Some (_, p) => p | None => "" end)
    | None => match cut hi ":" with Some x => x | None => (hi, "") end
    end in
  (h, if (p =? "")%string then None else Some p).
Definition hostname (u : split_result) : option string :=
  let h := fst (hostinfo (u_netloc u)) in
  if (h =? "")%string then None
  else Some (match cut h "%" with Some (a, z) => lower a +++ "%" +++ z | None => lower h end).
Definition port (u : split_result) : result (option Z) :=
  match snd (hostinfo (u_netloc u)) with
  | None => Ok None
  | Some p =>
      if all_digits p then
        let n := digits_val 0 p in
        if n <=? 65535 then Ok (Some n) else raise ValueError "Port out of range 0-65535"
      else raise ValueError "Port could not be cast to integer value"
  end.

(** ** Percent encoding *)
Fixpoint percent_decode (s : string) : string :=
  match s with
  | EmptyString => EmptyString
  | String c s1 =>
      if char_is "%" c then
        match s1 with
        | String h (String l s3) =>
            match hex_val h, hex_val l with
            | Some x, Some y => String (chr (16 * x + y)) (percent_decode s3)
            | _, _ => String c (percent_decode s1)
            end
        | _ => String c (percent_decode s1)
        end
      else String c (percent_decode s1)
  end.
(** Decoding bytes as UTF-8: every maximal ill-formed subsequence becomes
    [mark], U+FFFD for [errors="replace"] and nothing for [errors="ignore"]. *)
Definition second_ok (a b : ascii) : bool :=
  let x := byte_of a in
  if x =? 224 then in_range 160 191 b else if x =? 237 then in_range 128 159 b
  else if x =? 240 then in_range 144 191 b else if x =? 244 then in_range 128 143 b
  else is_cont b.
Fixpoint utf8_decode (mark s : string) : string :=
  match s with
  | EmptyString => EmptyString
  | String a s1 =>
      let x := byte_of a in
      if x <? 128 then String a (utf8_decode mark s1)
      else if (x <? 194) || (244 <? x) then mark +++ utf8_decode mark s1
      else match s1 with
           | EmptyString => mark
           | String b s2 =>
               if negb (second_ok a b) then mark +++ utf8_decode mark s1
               else if x <? 224 then String a (String b (utf8_decode mark s2))
               else match s2 with
                    | EmptyString => mark
                    | String c s3 =>
                        if negb (is_cont c) then mark +++ utf8_decode mark s2
                        else if x <? 240 then String a (String b (String c (utf8_decode mark s3)))
                        else match s3 with
                             | EmptyString => mark
                             | String d s4 =>
                                 if negb (is_cont d) then mark +++ utf8_decode mark s3
                                 else String a (String b (String c (String d (utf8_decode mark s4))))
                             end
                    end
           end
  end.
Definition utf8_replace : string -> string := utf8_decode "�".
Definition utf8_ignore : string -> string := utf8_decode "".
Definition unquote (s : string) : string := utf8_replace (percent_decode s).
Fixpoint plus_to_space (s : string) : string :=
  match s with
  | EmptyString => EmptyString
  | String c s' => String (if char_is "+" c then " "%char else c) (plus_to_space s')
  end.

(** [parse_qsl(query, keep_blank_values=True)]. *)
Definition parse_qsl (q : string) : list (string * string) :=
  if (q =? "")%string then [] else
  map (fun nv => let '(n, v) := match cut nv "=" with Some p => p | None => (nv, "") end in
                 (unquote (plus_to_space n), unquote (plus_to_space v)))
      (List.filter (fun nv => negb (nv =? "")%string) (split_char "&" q)).

Definition unreserved (c : ascii) : bool :=
  is_alpha c || is_digit c || char_is "_" c || char_is "." c || char_is "-" c || char_is "~" c.
Definition upper_hex (d : Z) : ascii := if d <? 10 then chr (48 + d) else chr (55 + d).
Fixpoint quote_with (safe : ascii -> bool) (s : string) : string :=
  match s with
  | EmptyString => EmptyString
  | String c s' =>
      (if unreserved c || safe c then String c ""
       else String "%" (String (upper_hex (byte_of c / 16)) (String (upper_hex (byte_of c mod 16)) "")))
      +++ quote_with safe s'
  end.
Fixpoint quote_plus (s : string) : string :=
  match s with
  | EmptyString => EmptyString
  | String c s' =>
      (if char_is " " c then "+" else quote_with (fun _ => false) (String c "")) +++ quote_plus s'
  end.
Definition urlencode (kvs : list (string * string)) : string :=
  join "&" (map (fun kv => quote_plus (fst kv) +++ "=" +++ quote_plus (snd kv)) kvs).

(** [urlunsplit(("", netloc, path, query, ""))]. *)
Definition urlunsplit (netloc path query : string) : string :=
  let url := if (netloc =? "")%string then path
             else "//" +++ netloc +++
                  (if (path =? "")%string || startswith path "/" then path else "/" +++ path) in
  if (query =? "")%string then url else url +++ "?" +++ query.

Example urlsplit_ex :
  urlsplit "HTTPS://user:pw@Example.COM:8443/a/b?x=1&y=%C3%A9#frag" =
  Ok (Split "https" "user:pw@Example.COM:8443" "/a/b" "x=1&y=%C3%A9" "frag").
Proof. vm_compute. reflexivity. Qed.
Example qsl_ex : urlencode (parse_qsl "b=2&a=%C3%A9+x&&c&d=%ff") = "b=2&a=%C3%A9+x&c=&d=%EF%BF%BD".
Proof. vm_compute. reflexivity. Qed.
Example ipv6_ex : map ipv6_ok ["::1"; "::ffff:1.2.3.4"; "1:2"; "1::2::3"; "2001:db8::"] =
  [true; true; false; false; true].
Proof. vm_compute. reflexivity. Qed.
