(* ===== verification/Sha.v ===== *)
(** * SHA-1 and SHA-256 of text ([hashlib], FIPS 180-4) *)
From S2P Require Import Prelude PyStr PyFloat PyVal Json JsonRoundtrip.
#[local] Open Scope Z_scope.

Definition m32 (z : Z) : Z := Z.land z 4294967295.
Definition rotl (n x : Z) : Z := m32 (Z.lor (Z.shiftl x n) (Z.shiftr x (32 - n))).
Definition rotr (n x : Z) : Z := rotl (32 - n) x.
Fixpoint bytes_of (s : string) : list Z :=
  match s with EmptyString => [] | String c s' => byte_of c :: bytes_of s' end.

Definition be_bytes (n : nat) (z : Z) : list Z :=
  rev (map (fun i => Z.land (Z.shiftr z (8 * Z.of_nat i)) 255) (seq 0 n)).
Definition pad (msg : list Z) : list Z :=
  let len := Z.of_nat (length msg) in
  let k := (55 - len) mod 64 in
  msg ++ [128] ++ repeat 0 (Z.to_nat k) ++ be_bytes 8 (8 * len).
Fixpoint words (fuel : nat) (l : list Z) : list Z :=
  match fuel, l with
  | S n, a :: b :: c :: d :: r =>
      (Z.shiftl a 24 + Z.shiftl b 16 + Z.shiftl c 8 + d) :: words n r
  | _, _ => []
  end.
Fixpoint blocks (fuel : nat) (l : list Z) : list (list Z) :=
  match fuel, l with
  | S n, _ :: _ => firstn 16 l :: blocks n (skipn 16 l)
  | _, _ => []
  end.
Definition message_blocks (s : string) : list (list Z) :=
  let p := pad (bytes_of s) in let w := words (length p) p in blocks (length w) w.

(** Message schedules are kept newest first. *)
Fixpoint schedule (step : list Z -> Z) (n : nat) (w : list Z) : list Z :=
  match n with O => w | S m => schedule step m (step w :: w) end.
Definition at_ (w : list Z) (i : nat) : Z := nth i w 0.

Definition sha1_step (w : list Z) : Z :=
  rotl 1 (Z.lxor (Z.lxor (at_ w 2) (at_ w 7)) (Z.lxor (at_ w 13) (at_ w 15))).
Definition sha1_f (t b c d : Z) : Z * Z :=
  if t <? 20 then (Z.lor (Z.land b c) (Z.land (m32 (Z.lnot b)) d), 1518500249)
  else if t <? 40 then (Z.lxor b (Z.lxor c d), 1859775393)
  else if t <? 60 then (Z.lor (Z.land b c) (Z.lor (Z.land b d) (Z.land c d)), 2400959708)
  else (Z.lxor b (Z.lxor c d), 3395469782).
Definition sha1_round (st : Z * (Z * Z * Z * Z * Z)) (w : Z) :=
  let '(t, (a, b, c, d, e)) := st in
  let '(f, k) := sha1_f t b c d in
  (t + 1, (m32 (rotl 5 a + f + e + k + w), a, rotl 30 b, c, d)).
Definition sha1_block (h : Z * Z * Z * Z * Z) (blk : list Z) :=
  let w := rev (schedule sha1_step 64 (rev blk)) in
  let '(_, (a, b, c, d, e)) := fold_left sha1_round w (0, h) in
  let '(h0, h1, h2, h3, h4) := h in
  (m32 (h0 + a), m32 (h1 + b), m32 (h2 + c), m32 (h3 + d), m32 (h4 + e)).
Definition hex8 (z : Z) : string :=
  fold_right (fun b acc => hex2 b +++ acc) "" (be_bytes 4 z).
(** [hashlib.sha1(s.encode("utf-8")).hexdigest()]. *)
Definition sha1_hex (s : string) : string :=
  let '(a, b, c, d, e) := fold_left sha1_block (message_blocks s)
    (1732584193, 4023233417, 2562383102, 271733878, 3285377520) in
  hex8 a +++ hex8 b +++ hex8 c +++ hex8 d +++ hex8 e.

Definition k256 : list Z :=
  [1116352408;1899447441;3049323471;3921009573;961987163;1508970993;2453635748;2870763221;
   3624381080;310598401;607225278;1426881987;1925078388;2162078206;2614888103;3248222580;
   3835390401;4022224774;264347078;604807628;770255983;1249150122;1555081692;1996064986;
   2554220882;2821834349;2952996808;3210313671;3336571891;3584528711;113926993;338241895;
   666307205;773529912;1294757372;1396182291;1695183700;1986661051;2177026350;2456956037;
   2730485921;2820302411;3259730800;3345764771;3516065817;3600352804;4094571909;275423344;
   430227734;506948616;659060556;883997877;958139571;1322822218;1537002063;1747873779;
   1955562222;2024104815;2227730452;2361852424;2428436474;2756734187;3204031479;3329325298].
Definition sha256_step (w : list Z) : Z :=
  let s0 := let x := at_ w 14 in Z.lxor (rotr 7 x) (Z.lxor (rotr 18 x) (Z.shiftr x 3)) in
  let s1 := let x := at_ w 1 in Z.lxor (rotr 17 x) (Z.lxor (rotr 19 x) (Z.shiftr x 10)) in
  m32 (at_ w 15 + s0 + at_ w 6 + s1).
Definition sha256_round (st : list Z) (kw : Z * Z) : list Z :=
  match st with
  | [a; b; c; d; e; f; g; h] =>
      let s1 := Z.lxor (rotr 6 e) (Z.lxor (rotr 11 e) (rotr 25 e)) in
      let ch := Z.lxor (Z.land e f) (Z.land (m32 (Z.lnot e)) g) in
      let t1 := h + s1 + ch + fst kw + snd kw in
      let s0 := Z.lxor (rotr 2 a) (Z.lxor (rotr 13 a) (rotr 22 a)) in
      let mj := Z.lxor (Z.land a b) (Z.lxor (Z.land a c) (Z.land b c)) in
      [m32 (t1 + s0 + mj); a; b; c; m32 (d + t1); e; f; g]
  | _ => st
  end.
Definition sha256_block (h : list Z) (blk : list Z) : list Z :=
  let w := rev (schedule sha256_step 48 (rev blk)) in
  zip_with (fun x y => m32 (x + y)) h (fold_left sha256_round (combine k256 w) h).
Definition sha256_init : list Z :=
  [1779033703;3144134277;1013904242;2773480762;1359893119;2600822924;528734635;1541459225].
(** [hashlib.sha256(s.encode("utf-8")).hexdigest()]. *)
Definition sha256_hex (s : string) : string :=
  fold_right (fun x acc => hex8 x +++ acc) "" (fold_left sha256_block (message_blocks s) sha256_init).

Example sha1_abc : sha1_hex "abc" = "a9993e364706816aba3e25717850c26c9cd0d89d".
Proof. vm_compute. reflexivity. Qed.
Example sha256_abc : sha256_hex "abc" =
  "ba7816bf8f01cfea414140de5dae2223b00361a396177a9cb410ff61f20015ad".
Proof. vm_compute. reflexivity. Qed.
Example sha256_two_blocks :
  sha256_hex "abcdbcdecdefdefgefghfghighijhijkijkljklmklmnlmnomnopnopq" =
  "248d6a61d20638b8e5c026930c3e6039a33ce45964ff2167f6ecedd419db06c1".
Proof. vm_compute. reflexivity. Qed.

(** ** Digests are plain text

    A hexadecimal digest is ASCII, so it survives encoding. *)
(** ** Hexadecimal text *)
Lemma utf8_cons_ascii c s : byte_of c <? 128 = true -> utf8_ok (String c s) = utf8_ok s.
Proof. intros H. cbn [utf8_ok]. by rewrite H. Qed.
Lemma hex_digit_ascii n : byte_of (hex_digit (n mod 16)) <? 128 = true.
Proof.
  pose proof (Z.mod_pos_bound n 16 ltac:(lia)) as H. remember (n mod 16) as m eqn:E. clear E.
  assert (C : m = 0 \/ m = 1 \/ m = 2 \/ m = 3 \/ m = 4 \/ m = 5 \/ m = 6 \/ m = 7 \/ m = 8 \/ m = 9 \/
    m = 10 \/ m = 11 \/ m = 12 \/ m = 13 \/ m = 14 \/ m = 15) by lia.
  repeat destruct C as [->|C]; try subst m; reflexivity.
Qed.
Lemma utf8_hex2 b s : 0 <= b < 256 -> utf8_ok (hex2 b +++ s) = utf8_ok s.
Proof.
  intros H. unfold hex2. cbn [String.append].
  rewrite utf8_cons_ascii; [|by rewrite <- (Z.mod_small (b / 16) 16) by (split; [apply Z.div_pos|apply Z.div_lt_upper_bound]; lia); apply hex_digit_ascii].
  by rewrite utf8_cons_ascii by apply hex_digit_ascii.
Qed.
Lemma utf8_hex8 z s : utf8_ok (hex8 z +++ s) = utf8_ok s.
Proof.
  unfold hex8. assert (F : Forall (fun b => 0 <= b < 256) (be_bytes 4 z)).
  { unfold be_bytes. apply Forall_rev, Forall_map, Forall_true. intros i. cbn.
    change 255 with (Z.ones 8). rewrite Z.land_ones by lia. apply Z.mod_pos_bound. lia. }
  induction F as [|b l Hb _ IH]; [done|]. cbn [fold_right]. by rewrite append_assoc, utf8_hex2.
Qed.
Lemma utf8_sha256_hex s : utf8_ok (sha256_hex s) = true.
Proof.
  unfold sha256_hex. generalize (fold_left sha256_block (message_blocks s) sha256_init) as l.
  induction l as [|x l IH]; [done|]. cbn [fold_right]. by rewrite utf8_hex8.
Qed.

(** ** A digest has 64 characters *)
Lemma round_length st kw : length (sha256_round st kw) = length st.
Proof.
  unfold sha256_round. do 8 (destruct st as [|? st]; [reflexivity|]). destruct st; reflexivity.
Qed.
Lemma rounds_length l : forall h, length (fold_left sha256_round l h) = length h.
Proof. induction l as [|x l IH]; intros h; [done|]. cbn [fold_left]. by rewrite IH, round_length. Qed.
Lemma block_length h blk : length (sha256_block h blk) = length h.
Proof.
  unfold sha256_block. cbv zeta. rewrite length_zip_with, rounds_length. apply Nat.min_id.
Qed.
Lemma length_append a b : String.length (a +++ b) = (String.length a + String.length b)%nat.
Proof. induction a as [|c a IH]; [done|]. cbn. by rewrite IH. Qed.
Lemma hex8_length z : String.length (hex8 z) = 8%nat.
Proof. done. Qed.
Lemma sha256_hex_length s : String.length (sha256_hex s) = 64%nat.
Proof.
  unfold sha256_hex. set (l := fold_left sha256_block (message_blocks s) sha256_init).
  assert (E : length l = 8%nat).
  { unfold l. generalize (message_blocks s) as bs. assert (length sha256_init = 8%nat) as E by done. revert E.
    generalize sha256_init as h. intros h E bs. revert h E. induction bs as [|b bs IH]; intros h E; [done|].
    cbn. apply IH. by rewrite block_length. }
  clearbody l. assert (F : String.length (fold_right (fun x acc => hex8 x +++ acc) "" l) = (8 * length l)%nat).
  { clear E. induction l as [|x l IH]; [done|]. cbn [fold_right length]. rewrite length_append, IH, hex8_length. lia. }
  rewrite F, E. done.
Qed.
(** Equal texts that end in texts of the same length end alike. *)
Lemma append_inj_length (a b c d : string) :
  a +++ b = c +++ d -> String.length b = String.length d -> b = d.
Proof.
  revert c. induction a as [|x a IH]; intros [|y c] H L; cbn in H.
  - done.
  - subst b. cbn in L. rewrite length_append in L. lia.
  - subst d. cbn in L. rewrite length_append in L. lia.
  - injection H as _ H. by eapply IH.
Qed.
