(* ===== verification/Dedupe.v ===== *)
(** * Feed de-duplication ([autonomous_agent/dedupe.py])

    URL and text normalisation, thread keys, the duplicate/update/fresh
    classification, stamping, and the prompt digest.  Feed items are
    dictionaries; a field of an unexpected type makes the same exception
    escape as in the source. *)
From S2P Require Import Prelude PyStr PyFloat PyVal Json PyUrl Sha.
#[local] Open Scope Z_scope.

Definition TITLE_SIMILARITY : float := dec_to_float false 6 (-1).
Definition CONTENT_SIMILARITY : float := dec_to_float false 5 (-1).
Definition DEFAULT_WINDOW_DAYS : Z := 14.
Definition MIN_WINDOW_DAYS : Z := 1.
Definition MAX_WINDOW_DAYS : Z := 90.
Definition MS_PER_DAY : Z := 86400000.

Definition TRACKING_PREFIXES : list string := ["utm_"; "mc_"; "mkt_"; "ga_"; "_hs"; "hsa_"].
Definition TRACKING_PARAMS : list string :=
  ["fbclid"; "gclid"; "gclsrc"; "dclid"; "msclkid"; "igshid"; "ref"; "ref_src"; "ref_url";
   "source"; "spm"; "cmpid"; "campaign"; "yclid"; "_ga"].
Definition str_in (s : string) (l : list string) : bool := existsb (String.eqb s) l.

(** [not _TRACKING_PARAM_RE.match(k) and k.lower() not in _TRACKING_PARAMS]. *)
Definition kept_param (k : string) : bool :=
  negb (str_in (lower k) TRACKING_PARAMS) &&
  negb (existsb (fun p => startswith (lower k) p) TRACKING_PREFIXES).

Definition str_leb (a b : string) : bool :=
  match String.compare a b with Gt => false | _ => true end.
Definition pair_leb (a b : string * string) : bool :=
  match String.compare (fst a) (fst b) with
  | Lt => true | Gt => false | Eq => str_leb (snd a) (snd b) end.

(** ** URLs *)
(** The scheme is added before splitting, and dropped from the result. *)
Definition with_scheme (text : string) : string :=
  if startswith text "//" then "https:" +++ text
  else if contains text "://" then text else "https://" +++ text.
Definition normalize_host (host : string) (p : option Z) : option string :=
  if (host =? "")%string || any_space host then None
  else if negb (host =? "localhost")%string && negb (contains host ".") then None
  else
    let host := removeprefix host "www." in
    Some (match p with
          | Some n => if negb (n =? 0) && negb ((n =? 80) || (n =? 443))
                      then host +++ ":" +++ str_of_Z n else host
          | None => host
          end).
Definition normalize_query (q : string) : string :=
  urlencode (stable_sort pair_leb (List.filter (fun kv => kept_param (fst kv)) (parse_qsl q))).
Definition normalize_url_text (raw : string) : string :=
  let text := strip raw in
  if (text =? "")%string then "" else
  match urlsplit (with_scheme text) with
  | Raise _ => ""
  | Ok parts =>
      match port parts with
      | Raise _ => ""
      | Ok p =>
          if (u_netloc parts =? "")%string then "" else
          match normalize_host (lower (default "" (hostname parts))) p with
          | None => ""
          | Some host =>
              urlunsplit host (rstrip_chars (char_is "/") (u_path parts))
                (normalize_query (u_query parts))
          end
      end
  end.
Definition normalize_url (raw : value) : string :=
  match raw with VStr s => normalize_url_text s | _ => "" end.

Definition url_domain (raw : value) : result string :=
  let n := normalize_url raw in
  if (n =? "")%string then Ok "" else u ← urlsplit n; Ok (u_netloc u).

(** ** Text *)
Definition words_of (s : string) : list string := runs is_alnum_lower (lower s).
Definition normalize_text (raw : value) : string :=
  match raw with VStr s => join " " (words_of s) | _ => "" end.
(** [(raw or "").lower()] fails on a truthy value that is not text. *)
Definition tokens (raw : value) : result (gset string) :=
  match vor raw (VStr "") with
  | VStr s => Ok (list_to_set (words_of s))
  | _ => raise AttributeError "object has no attribute 'lower'"
  end.
Definition jaccard (a b : gset string) : float :=
  if bool_decide (a = ∅) || bool_decide (b = ∅) then f_of_Z 0
  else
    let i := size (a ∩ b) in
    if (i =? 0)%nat then f_of_Z 0
    else f_div (f_of_Z (Z.of_nat i)) (f_of_Z (Z.of_nat (size (a ∪ b)))).

(** ** Fields *)
Definition str_or_empty (v : value) : string := py_str (vor v (VStr "")).
Definition item_text (item : dict) (keys : list string) : string :=
  join " " (List.filter (fun p => negb (p =? "")%string)
              (map (fun k => str_or_empty (dget k item)) keys)).
Definition source_url (item : dict) : string :=
  strip (str_or_empty (vor (dget "sourceUrl" item) (dget "source_url" item))).
Definition update_target (item : dict) : string :=
  strip (str_or_empty (vor (dget "updateOfFeedItemId" item) (dget "update_of" item))).
Definition change_summary (item : dict) : string :=
  strip (str_or_empty (vor (dget "changeSummary" item) (dget "change_summary" item))).

Definition normalize_thread_key (raw : value) : string :=
  match raw with
  | VStr s =>
      let text := strip s in
      if (text =? "")%string then "" else
      match strip_prefix "url:" text with
      | Some u => let n := normalize_url (VStr u) in
                  if (n =? "")%string then "" else "url:" +++ n
      | None =>
          let n := normalize_text (VStr (removeprefix text "thread:")) in
          if (n =? "")%string then "" else "thread:" +++ n
      end
  | _ => ""
  end.
Definition feed_thread_key (item : dict) : string :=
  let explicit := normalize_thread_key (vor (dget "threadKey" item) (dget "thread_key" item)) in
  if negb (explicit =? "")%string then explicit
  else
    let fingerprint := strip (str_or_empty (dget "fingerprint" item)) in
    if startswith fingerprint "url:" then fingerprint
    else let u := normalize_url (VStr (source_url item)) in
         if (u =? "")%string then "" else "url:" +++ u.

Definition similarities (candidate existing : dict) : result (float * float) :=
  ct ← tokens (dget "title" candidate);
  et ← tokens (dget "title" existing);
  cb ← tokens (VStr (item_text candidate ["bluf"; "body"]));
  eb ← tokens (VStr (item_text existing ["bluf"; "body"]));
  Ok (jaccard ct et, jaccard cb eb).

Definition numbered (parts : list string) : list string := List.filter (any_char is_digit) parts.
Definition same_event (a b : list string) : bool :=
  let '(shorter, longer) := if (length a <=? length b)%nat then (a, b) else (b, a) in
  (3 <=? length shorter)%nat &&
  bool_decide (firstn (length shorter) longer = shorter) &&
  bool_decide (numbered shorter = numbered longer).
Definition same_thread (candidate existing : dict) : bool :=
  let c := feed_thread_key candidate in
  let e := feed_thread_key existing in
  if (c =? "")%string || (e =? "")%string then false
  else if (c =? e)%string then true
  else match strip_prefix "thread:" c, strip_prefix "thread:" e with
       | Some cp, Some ep => same_event (split_ws cp) (split_ws ep)
       | _, _ => false
       end.
Definition same_source (candidate existing : dict) : bool :=
  let c := normalize_url (VStr (source_url candidate)) in
  let e := normalize_url (VStr (source_url existing)) in
  negb (c =? "")%string && negb (e =? "")%string && (c =? e)%string.
Definition flagged_update (item : dict) : bool :=
  is_true (dget "isUpdate" item) || is_true (dget "is_update" item).
Definition has_update_details (item : dict) : bool :=
  flagged_update item && negb (update_target item =? "")%string &&
  (20 <=? ulen (normalize_text (VStr (change_summary item)))) &&
  negb (normalize_url (VStr (source_url item)) =? "")%string.
(** [target and target == existing.get("id")]. *)
Definition targets (target : string) (existing : dict) : bool :=
  negb (target =? "")%string && py_eq (VStr target) (dget "id" existing).

Definition feed_fingerprint (item : dict) : string :=
  let u := normalize_url (VStr (source_url item)) in
  if negb (u =? "")%string then "url:" +++ u
  else "txt:" +++ utake 16 (sha1_hex (normalize_text (VStr (item_text item ["title"; "bluf"; "body"])))).

(** ** Classification *)
Definition is_duplicate (candidate existing : dict) : result bool :=
  '(title_sim, content_sim) ← similarities candidate existing;
  Ok (if same_source candidate existing || same_thread candidate existing ||
         targets (update_target candidate) existing
      then negb (has_update_details candidate) || f_leb CONTENT_SIMILARITY content_sim ||
           (negb (change_summary candidate =? "")%string &&
            (normalize_text (VStr (change_summary candidate)) =?
             normalize_text (VStr (change_summary existing)))%string)
      else f_leb TITLE_SIMILARITY title_sim && f_leb CONTENT_SIMILARITY content_sim).

Definition within_window (item : dict) (now window_ms : Z) : result bool :=
  if window_ms <=? 0 then Ok true
  else let created := dget "createdAt" item in
       if is_number created then c ← py_int created; Ok (now - c <=? window_ms)
       else Ok false.

Inductive classification := Duplicate | LinkedUpdate | Fresh.
#[export] Instance classification_eq_dec : EqDecision classification.
Proof. solve_decision. Defined.

Definition related (candidate existing : dict) : bool :=
  same_source candidate existing || same_thread candidate existing ||
  targets (update_target candidate) existing.

(** The scan of retained items: the first duplicate found, or the last item
    the candidate names as the one it updates. *)
Fixpoint scan_existing (candidate : dict) (items : list dict) (target : option dict)
    (now window_ms : Z) : result (option dict + option dict) :=
  match items with
  | [] => Ok (inr target)
  | e :: es =>
      let target := if targets (update_target candidate) e then Some e else target in
      in_scope ← (if related candidate e then Ok true else within_window e now window_ms);
      dup ← (if (in_scope : bool) then is_duplicate candidate e else Ok false);
      if (dup : bool) then Ok (inl (Some e)) else scan_existing candidate es target now window_ms
  end.

Definition dicts (l : list value) : list dict :=
  flat_map (fun v => match v with VDict d => [d] | _ => [] end) l.

Definition classify_feed_item (candidate : value) (existing_items : list value) (now window_ms : Z)
  : result (classification * option dict * string) :=
  match candidate with
  | VDict c =>
      scan ← scan_existing c (dicts existing_items) None now window_ms;
      match scan with
      | inl e => Ok (Duplicate, e, "Repeated finding or undocumented change.")
      | inr target =>
          if flagged_update c || negb (update_target c =? "")%string ||
             negb (change_summary c =? "")%string
          then match target with
               | Some t => if has_update_details c then Ok (LinkedUpdate, target, change_summary c)
                           else Ok (Duplicate, target, "Update needs a retained prior item and sourced change.")
               | None => Ok (Duplicate, None, "Update needs a retained prior item and sourced change.")
               end
          else Ok (Fresh, None, "")
      end
  | _ => Ok (Duplicate, None, "Invalid feed item.")
  end.

(** [update_of] is used only when it is a nonempty dictionary. *)
Definition stamp_feed_item (item : dict) (update_of : option dict) (update_reason : string) : dict :=
  let upd := default [] update_of in
  let tk := let k := feed_thread_key upd in if (k =? "")%string then feed_thread_key item else k in
  let item := if (tk =? "")%string then item else dset "threadKey" (VStr tk) item in
  let item := dsetdefault "fingerprint" (VStr (feed_fingerprint item)) item in
  match upd with
  | [] => item
  | _ =>
      let update_id := strip (str_or_empty (dget "id" upd)) in
      let update_title := strip (str_or_empty (dget "title" upd)) in
      let item := if (update_id =? "")%string then item
                  else dset "updateOfFeedItemId" (VStr update_id) item in
      let item := if (update_title =? "")%string then item
                  else dset "updateOfTitle" (VStr update_title) item in
      if (update_reason =? "")%string then item else dset "updateReason" (VStr update_reason) item
  end.

Definition window_ms_for_days (days : value) : result Z :=
  value ← try_except (py_int days) [TypeError; ValueError] (fun _ => Ok DEFAULT_WINDOW_DAYS);
  let value := if value <=? 0 then DEFAULT_WINDOW_DAYS else value in
  Ok (Z.max MIN_WINDOW_DAYS (Z.min MAX_WINDOW_DAYS value) * MS_PER_DAY).

(** The batch loop.  Kept items are stamped in place, so the third component
    is the caller's list as it looks afterwards. *)
Fixpoint dedupe_go (items kept dropped after existing_items : list value) (now window_ms : Z)
  : result (list value * list value * list value) :=
  match items with
  | [] => Ok (kept, dropped, after)
  | v :: rest =>
      match v with
      | VDict c =>
          '(cls, matched, reason) ← classify_feed_item v (kept ++ existing_items) now window_ms;
          match cls with
          | Duplicate =>
              dedupe_go rest kept (dropped ++ [v]) (after ++ [v]) existing_items now window_ms
          | LinkedUpdate =>
              let s := VDict (stamp_feed_item c matched reason) in
              dedupe_go rest (kept ++ [s]) dropped (after ++ [s]) existing_items now window_ms
          | Fresh =>
              let s := VDict (stamp_feed_item c None "") in
              dedupe_go rest (kept ++ [s]) dropped (after ++ [s]) existing_items now window_ms
          end
      | _ => dedupe_go rest kept dropped (after ++ [v]) existing_items now window_ms
      end
  end.
Definition dedupe_feed_items (new_items existing_items : list value) (now window_ms : Z)
  : result (list value * list value * list value) :=
  dedupe_go new_items [] [] [] existing_items now window_ms.

(** ** Prompt digest *)
Definition ELLIPSIS : string := "…".
(** [f"{s[: n - 1].rstrip()}…"] when the text is longer than [n]. *)
Definition clip (n : Z) (s : string) : string :=
  if n <? ulen s then rstrip (utake (n - 1) s) +++ ELLIPSIS else s.

Record digest_limits := Limits {
  limit : Z; title_chars : Z; bluf_chars : Z; source_chars : Z; thread_key_chars : Z;
  include_older : bool }.

Section Digest.
(** [time.strftime("%Y-%m-%d", time.localtime(seconds))] depends on the
    host's time zone; [None] is an [OverflowError], [OSError] or [ValueError]. *)
Context (local_day : float -> option string).

Definition format_day (created : value) : string :=
  if is_number created then
    match py_int created with
    | Ok z => default "unknown"%string (local_day (f_div (f_of_Z z) (f_of_Z 1000)))
    | Raise _ => "unknown"
    end
  else "unknown".

(** The digest row of one item, [None] when it is skipped. *)
Definition digest_row (lim : digest_limits) (now window_ms : Z) (item : dict)
  : result (option dict) :=
  keep ← (if include_older lim then Ok true else within_window item now window_ms);
  if negb (keep : bool) then Ok None else
  let title := strip (str_or_empty (dget "title" item)) in
  if (title =? "")%string then Ok None else
  source ← url_domain (vor (dget "sourceUrl" item) (dget "source_url" item));
  Ok (Some [("id", VStr (utake 128 (str_or_empty (dget "id" item))));
            ("date", VStr (format_day (dget "createdAt" item)));
            ("title", VStr (clip (title_chars lim) title));
            ("bluf", VStr (clip (bluf_chars lim) (strip (str_or_empty (dget "bluf" item)))));
            ("source", VStr (clip (source_chars lim) source));
            ("threadKey", VStr (clip (thread_key_chars lim) (feed_thread_key item)))]).

Fixpoint summarize_go (lim : digest_limits) (now window_ms : Z) (items : list value)
    (digest : list dict) : result (list dict) :=
  match items with
  | [] => Ok digest
  | VDict item :: rest =>
      row ← digest_row lim now window_ms item;
      match row with
      | None => summarize_go lim now window_ms rest digest
      | Some r =>
          let digest := digest ++ [r] in
          if limit lim <=? Z.of_nat (length digest) then Ok digest
          else summarize_go lim now window_ms rest digest
      end
  | _ :: rest => summarize_go lim now window_ms rest digest
  end.
Definition summarize_recent_feed (lim : digest_limits) (now window_ms : Z) (items : list value)
  : result (list dict) := summarize_go lim now window_ms items [].
End Digest.

(** ** Laws of words *)
Definition word_ok (f : ascii -> bool) (w : string) : Prop := w <> "" /\ all_chars f w = true.

Lemma runs_ok f s : Forall (word_ok f) (runs f s).
Proof.
  induction s as [|c s IH]; [constructor|]. cbn [runs]. destruct (f c) eqn:Fc; [|done].
  assert (Hone : word_ok f (String c "")) by (split; simpl; [done|by rewrite Fc]).
  destruct s as [|d s]; [by apply Forall_singleton|]. destruct (f d); [|by constructor].
  destruct (runs f (String d s)) as [|w ws]; [by apply Forall_singleton|].
  inversion IH as [|?? [_ Hw] Hws]; subst. constructor; [|done].
  split; [done|]. simpl. by rewrite Fc.
Qed.
Lemma runs_cons2 f c d s : f c = true -> f d = true ->
  runs f (String c (String d s)) =
  match runs f (String d s) with w :: ws => String c w :: ws | [] => [String c ""] end.
Proof. intros Hc Hd. cbn [runs]. by rewrite Hc, Hd. Qed.
Lemma runs_cons1 f c t : f c = true ->
  (match t with EmptyString => true | String c _ => negb (f c) end) = true ->
  runs f (String c t) = String c "" :: runs f t.
Proof.
  intros Hc Ht. destruct t as [|d t]; cbn [runs]; rewrite Hc; [done|].
  apply negb_true_iff in Ht. by rewrite Ht.
Qed.
Lemma runs_word f w t : word_ok f w ->
  (match t with EmptyString => true | String c _ => negb (f c) end) = true ->
  runs f (w +++ t) = w :: runs f t.
Proof.
  intros [Hne Hw] Ht. induction w as [|c w IH]; [done|]. cbn [all_chars] in Hw. bool_prop.
  destruct w as [|d w]; [by apply runs_cons1|].
  pose proof H0 as Hd. cbn [all_chars] in Hd. bool_prop. cbn [String.append] in *.
  rewrite runs_cons2 by done. by rewrite IH.
Qed.
Lemma runs_join f ws : f " "%char = false -> Forall (word_ok f) ws -> runs f (join " " ws) = ws.
Proof.
  intros Hsp. induction 1 as [|w ws Hw Hws IH]; [done|].
  destruct ws as [|v ws].
  - cbn [join String.concat]. rewrite <- (append_nil_r w) at 1. by rewrite runs_word.
  - change (join " " (w :: v :: ws)) with (w +++ " " +++ join " " (v :: ws)).
    rewrite runs_word by (done || by simpl; rewrite Hsp).
    f_equal. cbn [String.append]. cbn [runs]. by rewrite Hsp.
Qed.

(** Lower-case ASCII letters, digits and spaces are fixed by [lower]. *)
Definition plain (c : ascii) : bool := is_alnum_lower c || char_is " " c.
Lemma plain_low c : plain c = true -> lower_ascii c = c /\ byte_of c < 128.
Proof. destruct c as [[] [] [] [] [] [] [] []]; intros H; try discriminate H; done. Qed.
Lemma lower_plain s : all_chars plain s = true -> lower s = s.
Proof.
  induction s as [|a s IH]; [done|]. intros H. cbn [all_chars] in H. bool_prop.
  destruct (plain_low a) as [Ha Hb]; [done|]. cbn [lower].
  destruct s as [|b s]; [by rewrite Ha|].
  destruct (Z.eqb_spec (byte_of a) 195); [lia|]. cbn [andb]. by rewrite Ha, IH.
Qed.
Lemma join_plain ws : Forall (word_ok is_alnum_lower) ws -> all_chars plain (join " " ws) = true.
Proof.
  assert (Hw : forall w, word_ok is_alnum_lower w -> all_chars plain w = true).
  { intros w [_ H]. eapply all_chars_impl; [|done]. intros c Hc. unfold plain. by rewrite Hc. }
  induction 1 as [|w ws Hok Hws IH]; [done|]. destruct ws as [|v ws]; [by apply Hw|].
  change (join " " (w :: v :: ws)) with (w +++ " " +++ join " " (v :: ws)).
  by rewrite !all_chars_app, Hw, IH.
Qed.
Lemma words_of_join ws : Forall (word_ok is_alnum_lower) ws -> words_of (join " " ws) = ws.
Proof. intros H. unfold words_of. rewrite lower_plain by by apply join_plain. by apply runs_join. Qed.

Lemma normalize_text_idem v : normalize_text (VStr (normalize_text v)) = normalize_text v.
Proof.
  destruct v as [| | | |s| |]; try done. cbn [normalize_text].
  by rewrite words_of_join by apply runs_ok.
Qed.

Lemma graph_of_alnum c : is_alnum_lower c = true -> ascii_graph c = true.
Proof. destruct c as [[] [] [] [] [] [] [] []]; intros H; try discriminate H; done. Qed.
Lemma ends_graph_app a b : b <> "" -> ends_graph (a +++ b) = ends_graph b.
Proof.
  intros Hb. induction a as [|c a IH]; [done|]. cbn [String.append].
  destruct (a +++ b) as [|d u] eqn:E; [|done]. by destruct a, b.
Qed.
Lemma ends_graph_join ws : Forall (word_ok is_alnum_lower) ws -> ends_graph (join " " ws) = true.
Proof.
  assert (Hw : forall w, word_ok is_alnum_lower w -> ends_graph w = true).
  { intros w [Hne H]. induction w as [|c w IH]; [done|]. simpl in H. bool_prop.
    destruct w as [|d w]; [by apply graph_of_alnum|]. by apply IH. }
  induction 1 as [|w ws Hok Hws IH]; [done|]. destruct ws as [|v ws]; [by apply Hw|].
  change (join " " (w :: v :: ws)) with (w +++ " " +++ join " " (v :: ws)).
  inversion Hws as [|?? [Hv _] _]; subst.
  assert (join " " (v :: ws) <> "") by (destruct v, ws; done).
  rewrite !ends_graph_app; [done|done|by destruct (join " " (v :: ws))].
Qed.
