(* ===== verification/DedupeLaws.v ===== *)
(** * What the feed de-duplication guarantees

    Theorems about [Dedupe]: every published item is novel against everything
    retained before it, a linked update names a retained item and a sourced
    change, nothing is lost or invented, and keys are stable. *)
From S2P Require Import Prelude PyStr PyFloat PyVal Json PyUrl Sha Dedupe.
#[local] Open Scope Z_scope.

(** ** Specification *)
Definition claims_update (c : dict) : bool :=
  flagged_update c || negb (update_target c =? "")%string || negb (change_summary c =? "")%string.
Definition in_scope (c : dict) (now window_ms : Z) (e : dict) : Prop :=
  related c e = true \/ within_window e now window_ms = Ok true.
(** No retained item in scope makes [c] a duplicate. *)
Definition novel (c : dict) (known : list value) (now window_ms : Z) : Prop :=
  forall e, e ∈ dicts known -> in_scope c now window_ms e -> is_duplicate c e = Ok false.

Lemma dicts_app a b : dicts (a ++ b) = dicts a ++ dicts b.
Proof. unfold dicts. apply flat_map_app. Qed.
Lemma elem_of_dicts d l : d ∈ dicts l <-> VDict d ∈ l.
Proof.
  induction l as [|v l IH]; [set_solver|]. destruct v; cbn [dicts flat_map];
    fold (dicts l); cbn [app]; rewrite !elem_of_cons, IH; intuition congruence.
Qed.

(** ** The scan *)
Lemma scan_existing_spec c now w items target r :
  scan_existing c items target now w = Ok r ->
  match r with
  | inl m => exists e, m = Some e /\ e ∈ items /\ in_scope c now w e /\ is_duplicate c e = Ok true
  | inr t => (forall e, e ∈ items -> in_scope c now w e -> is_duplicate c e = Ok false) /\
             match t with
             | Some t' => target = Some t' \/ t' ∈ items /\ targets (update_target c) t' = true
             | None => target = None /\ forall e, e ∈ items -> targets (update_target c) e = false
             end
  end.
Proof.
  revert target. induction items as [|e items IH]; intros target H; simpl in H.
  - injection H as <-. split; [set_solver|]. destruct target; [by left|set_solver].
  - apply bind_ok in H as (s & Hs & H). apply bind_ok in H as (d & Hd & H).
    assert (Hin : in_scope c now w e <-> s = true).
    { unfold in_scope. destruct (related c e) eqn:R; [naive_solver|]. rewrite Hs. naive_solver. }
    destruct d.
    + injection H as <-. exists e. destruct s; [|discriminate]. set_solver.
    + apply IH in H. destruct r as [m|t].
      * destruct H as (e' & ? & ? & ?). exists e'. set_solver.
      * destruct H as [Hn Ht]. split.
        -- intros e' [->|He']%elem_of_cons Hsc; [|by apply Hn].
           apply Hin in Hsc as ->. done.
        -- destruct t as [t'|]; destruct (targets (update_target c) e) eqn:T.
           ++ destruct Ht as [[= ->]|[??]]; right; set_solver.
           ++ destruct Ht as [?|[??]]; [by left|right; set_solver].
           ++ destruct Ht as [? _]; discriminate.
           ++ destruct Ht as [? Ht]. split; [done|]. intros e' [->|?]%elem_of_cons; auto.
Qed.

(** What each verdict of [classify_feed_item] means. *)
Definition verdict_ok (c : dict) (known : list value) (now w : Z)
    (cls : classification) (m : option dict) (reason : string) : Prop :=
  match cls with
  | Duplicate =>
      (exists e, m = Some e /\ e ∈ dicts known /\ in_scope c now w e /\ is_duplicate c e = Ok true) \/
      (novel c known now w /\ claims_update c = true /\
       (has_update_details c = false \/
        forall e, e ∈ dicts known -> targets (update_target c) e = false))
  | LinkedUpdate =>
      novel c known now w /\ claims_update c = true /\ has_update_details c = true /\
      reason = change_summary c /\
      exists t, m = Some t /\ t ∈ dicts known /\ targets (update_target c) t = true
  | Fresh => novel c known now w /\ claims_update c = false /\ m = None /\ reason = ""
  end.

Lemma classify_spec c known now w cls m reason :
  classify_feed_item (VDict c) known now w = Ok (cls, m, reason) ->
  verdict_ok c known now w cls m reason.
Proof.
  unfold classify_feed_item. intros H. apply bind_ok in H as (s & Hs & H).
  apply scan_existing_spec in Hs. destruct s as [e|t].
  - injection H as <- <- <-. by left.
  - destruct Hs as [Hn Ht]. fold (claims_update c) in H.
    destruct (claims_update c) eqn:U.
    + destruct t as [t|].
      * destruct Ht as [?|[??]]; [done|].
        destruct (has_update_details c) eqn:D; injection H as <- <- <-; simpl; [naive_solver|].
        right. auto.
      * injection H as <- <- <-. right. naive_solver.
    + injection H as <- <- <-. done.
Qed.

(** ** The batch *)
(** The loop as a relation: what is already kept, the remaining items, and the
    items kept, dropped and left in the caller's list. *)
Section Batch.
Context (existing : list value) (now w : Z).

Inductive batch : list value -> list value -> list value -> list value -> list value -> Prop :=
| b_nil kept : batch kept [] [] [] []
| b_skip kept v items k d a :
    is_dict v = false -> batch kept items k d a -> batch kept (v :: items) k d (v :: a)
| b_drop kept c m reason items k d a :
    verdict_ok c (kept ++ existing) now w Duplicate m reason ->
    batch kept items k d a -> batch kept (VDict c :: items) k (VDict c :: d) (VDict c :: a)
| b_keep kept c cls m reason x items k d a :
    cls <> Duplicate -> verdict_ok c (kept ++ existing) now w cls m reason ->
    x = VDict (stamp_feed_item c m reason) ->
    batch (kept ++ [x]) items k d a ->
    batch kept (VDict c :: items) (x :: k) d (x :: a).

Lemma dedupe_go_batch items kept dropped after kept' dropped' after' :
  dedupe_go items kept dropped after existing now w = Ok (kept', dropped', after') ->
  exists k d a, kept' = kept ++ k /\ dropped' = dropped ++ d /\ after' = after ++ a /\
    batch kept items k d a.
Proof.
  revert kept dropped after. induction items as [|v items IH]; intros kept dropped after H.
  { injection H as <- <- <-. exists [], [], []. rewrite !List.app_nil_r. auto using b_nil. }
  destruct v as [| | | | | |c]; cbn [dedupe_go] in H;
    try (apply IH in H as (k & d & a & -> & -> & -> & H); rewrite <- ?List.app_assoc;
         eexists _, _, _; by eauto using b_skip).
  apply bind_ok in H as ([[cls m] reason] & Hc & H). apply classify_spec in Hc.
  destruct cls; apply IH in H as (k & d & a & -> & -> & -> & H); rewrite <- ?List.app_assoc.
  - eexists _, _, _. eauto using b_drop.
  - eexists _, _, _. repeat split. by eapply (b_keep _ _ LinkedUpdate).
  - eexists _, _, _. repeat split. eapply (b_keep _ _ Fresh); eauto.
    by destruct Hc as (_ & _ & -> & ->).
Qed.

Lemma batch_counts kept items k d a : batch kept items k d a ->
  length a = length items /\ (length k + length d = length (dicts items))%nat /\
  k `sublist_of` a /\ d `sublist_of` items.
Proof.
  induction 1 as [|kept v items k d a Hv _ (?&?&?&?)|kept c m r items k d a _ _ (?&?&?&?)
                 |kept c cls m r x items k d a _ _ _ _ (?&?&?&?)].
  - by repeat constructor.
  - destruct v; try done; simpl; repeat split; auto using sublist_cons.
  - simpl; repeat split; [lia|lia|by apply sublist_cons|by apply sublist_skip].
  - simpl; repeat split; [lia|lia|by apply sublist_skip|by apply sublist_cons].
Qed.

(** [x] is what the batch published for some item of [new]. *)
Definition published (new known : list value) (x : value) : Prop :=
  exists c m reason, VDict c ∈ new /\ x = VDict (stamp_feed_item c m reason) /\
    novel c known now w /\
    match m with
    | None => claims_update c = false
    | Some t => t ∈ dicts known /\ targets (update_target c) t = true /\
                has_update_details c = true /\ reason = change_summary c
    end.

Lemma published_mono new new' known x :
  (forall v, v ∈ new -> v ∈ new') -> published new known x -> published new' known x.
Proof. intros H (c & m & r & Hin & ?). exists c, m, r. auto. Qed.

Lemma verdict_published c known cls m reason new :
  cls <> Duplicate -> verdict_ok c known now w cls m reason -> VDict c ∈ new ->
  published new known (VDict (stamp_feed_item c m reason)).
Proof.
  intros Hne Hv Hin. exists c, m, reason. repeat split; try done;
    destruct cls; try done; simpl in Hv.
  - apply Hv.
  - apply Hv.
  - destruct Hv as (_ & _ & ? & -> & t & -> & ?). naive_solver.
  - by destruct Hv as (_ & ? & -> & _).
Qed.

Lemma batch_published kept items k d a : batch kept items k d a ->
  forall j x, k !! j = Some x -> published items (kept ++ take j k ++ existing) x.
Proof.
  induction 1 as [|kept v items k d a Hv _ IH|kept c m r items k d a _ _ IH
                 |kept c cls m r x items k d a Hne Hv -> _ IH]; intros j y Hj.
  - done.
  - eapply published_mono; [|by apply IH]. set_solver.
  - eapply published_mono; [|by apply IH]. set_solver.
  - destruct j as [|j]; [injection Hj as <-|].
    + eapply verdict_published; eauto. set_solver.
    + eapply published_mono; [|specialize (IH j y Hj); rewrite <- List.app_assoc in IH; exact IH].
      set_solver.
Qed.

(** A dropped item was a duplicate of something retained, or an update claim
    without a retained prior item and a sourced change. *)
Lemma batch_dropped kept items k d a : batch kept items k d a ->
  forall x, x ∈ d -> exists c j m reason,
    x = VDict c /\ verdict_ok c (kept ++ take j k ++ existing) now w Duplicate m reason.
Proof.
  induction 1 as [|kept v items k d a Hv _ IH|kept c m r items k d a Hv _ IH
                 |kept c cls m r y items k d a Hne Hv Hy _ IH]; intros x Hx.
  - set_solver.
  - eauto.
  - apply elem_of_cons in Hx as [->|Hx]; [|eauto]. exists c, 0%nat, m, r. done.
  - destruct (IH x Hx) as (c' & j & m' & r' & -> & H). exists c', (S j), m', r'.
    rewrite <- List.app_assoc in H. done.
Qed.
End Batch.

(** C38: De-duplication never publishes a repeat: each published item is the
    stamped form of an input item that no retained item in scope (stored
    before, or published earlier in the same batch) makes a duplicate; and an
    item that claims to be an update is only published when it names a
    retained prior item and carries a sourced change. *)
Theorem dedupe_published_novel new existing now w kept dropped after :
  dedupe_feed_items new existing now w = Ok (kept, dropped, after) ->
  forall j x, kept !! j = Some x -> published now w new (take j kept ++ existing) x.
Proof.
  intros H. apply dedupe_go_batch in H as (k & d & a & -> & -> & -> & H).
  intros j x Hj. by apply (batch_published _ _ _ [] _ _ _ _ H).
Qed.

(** De-duplication neither loses nor invents items: dropped items are
    input items in their order, the published ones appear in order in the
    caller's list as it is left afterwards (same length), and every dictionary
    of the batch is either published or dropped. *)
Theorem dedupe_conserves new existing now w kept dropped after :
  dedupe_feed_items new existing now w = Ok (kept, dropped, after) ->
  length after = length new /\ (length kept + length dropped = length (dicts new))%nat /\
  kept `sublist_of` after /\ dropped `sublist_of` new.
Proof.
  intros H. apply dedupe_go_batch in H as (k & d & a & -> & -> & -> & H).
  by apply (batch_counts _ _ _ _ _ _ _ _ H).
Qed.

(** A dropped item is justified: some item retained at that point makes it
    a duplicate, or it claims an update it does not document. *)
Theorem dedupe_dropped_justified new existing now w kept dropped after :
  dedupe_feed_items new existing now w = Ok (kept, dropped, after) ->
  forall x, x ∈ dropped -> exists c j m reason,
    x = VDict c /\ verdict_ok c (take j kept ++ existing) now w Duplicate m reason.
Proof.
  intros H. apply dedupe_go_batch in H as (k & d & a & -> & -> & -> & H).
  intros x Hx. by apply (batch_dropped _ _ _ [] _ _ _ _ H).
Qed.

(** A finding from the source or thread of a retained item, without a named
    prior item and a sourced change, is classified as a duplicate. *)
Theorem repeat_is_duplicate c e known now w cls m reason :
  VDict e ∈ known -> related c e = true -> has_update_details c = false ->
  classify_feed_item (VDict c) known now w = Ok (cls, m, reason) -> cls = Duplicate.
Proof.
  intros He Hr Hd H. apply classify_spec in H. apply elem_of_dicts in He.
  assert (Hno : ~ novel c known now w).
  { intros Hn. assert (is_duplicate c e = Ok false) by (apply Hn; [done|by left]).
    unfold is_duplicate, related in *. destruct (similarities c e) as [[? ?]|]; [|done].
    cbn [mbind result_bind] in *. rewrite Hr, Hd in *. done. }
  destruct cls; [done| |]; destruct H as (? & _); contradiction.
Qed.

(** ** Keys *)
Lemma normalize_text_starts v : normalize_text v <> "" ->
  ends_graph (normalize_text v) = true.
Proof.
  destruct v as [| | | |s| |]; try done. intros _. cbn [normalize_text].
  apply ends_graph_join, runs_ok.
Qed.
Lemma thread_not_url t : strip_prefix "url:" ("thread:" +++ t) = None.
Proof. done. Qed.
Lemma thread_key_fixed n : n <> "" -> normalize_text (VStr n) = n ->
  normalize_thread_key (VStr ("thread:" +++ n)) = "thread:" +++ n.
Proof.
  intros Hne Hn. unfold normalize_thread_key.
  assert (Hs : strip ("thread:" +++ n) = "thread:" +++ n).
  { apply strip_graph; [done|]. rewrite ends_graph_app by done. rewrite <- Hn.
    apply normalize_text_starts. by rewrite Hn. }
  rewrite Hs. cbv zeta. destruct (String.eqb_spec ("thread:" +++ n) ""); [done|].
  rewrite thread_not_url, removeprefix_app, Hn.
  by destruct (String.eqb_spec n "").
Qed.

(** Reading an explicit (non-URL) thread key back is stable: normalising an
    already stamped key gives the key itself, it never gains a second
    namespace. *)
Theorem thread_key_idempotent raw :
  strip_prefix "url:" (normalize_thread_key raw) = None ->
  normalize_thread_key (VStr (normalize_thread_key raw)) = normalize_thread_key raw.
Proof.
  destruct raw as [| | | |s| |]; try done. unfold normalize_thread_key at 1 3 4.
  cbv zeta. destruct (strip s =? "")%string; [done|].
  destruct (strip_prefix "url:" (strip s)) as [u|].
  - destruct (normalize_url (VStr u) =? "")%string eqn:E; [done|].
    by rewrite strip_prefix_app.
  - set (n := normalize_text _). destruct (String.eqb_spec n ""); [done|]. intros _.
    apply thread_key_fixed; [done|]. apply normalize_text_idem.
Qed.

(** The de-duplication window of a stored configuration value always lies
    between one and ninety days; only an infinite float makes it raise. *)
Theorem window_ms_bounds days :
  match window_ms_for_days days with
  | Ok ms => MS_PER_DAY <= ms <= 90 * MS_PER_DAY
  | Raise e => exn_cls e = OverflowError /\ exists s, days = VFloat (S754_infinity s)
  end.
Proof.
  unfold window_ms_for_days.
  assert (B : forall v : Z, MS_PER_DAY <=
    Z.max MIN_WINDOW_DAYS (Z.min MAX_WINDOW_DAYS v) * MS_PER_DAY <= 90 * MS_PER_DAY).
  { intros v. unfold MS_PER_DAY, MIN_WINDOW_DAYS, MAX_WINDOW_DAYS. lia. }
  destruct (py_int days) as [v|e] eqn:E; simpl; [apply B|].
  destruct (py_int_exn _ _ E) as [H|[H|H]]; unfold exn_in; rewrite H; simpl; try apply B.
  split; [done|]. destruct days as [| | |f| | |]; simpl in E; unfold raise in E;
    repeat case_hyp E; try discriminate E; injection E as <-; simpl in H; try discriminate H; eauto.
Qed.

(** Fields the classification can read without failing. *)
Definition item_typed (d : dict) : bool :=
  (negb (truthy (dget "title" d)) || is_str (dget "title" d)) &&
  match dget "createdAt" d with
  | VFloat (S754_infinity _ | S754_nan) => false
  | _ => true
  end.

Lemma tokens_total v : negb (truthy v) || is_str v = true -> exists t, tokens v = Ok t.
Proof.
  unfold tokens, vor. destruct (truthy v); [|eauto]. destruct v; simpl; intros; try done. eauto.
Qed.
Lemma similarities_total a b :
  item_typed a = true -> item_typed b = true -> exists p, similarities a b = Ok p.
Proof.
  unfold item_typed. intros Ha Hb. bool_prop. unfold similarities.
  edestruct (tokens_total (dget "title" a)) as [? ->]; [done|].
  edestruct (tokens_total (dget "title" b)) as [? ->]; [done|].
  edestruct (tokens_total (VStr (item_text a ["bluf"; "body"]))) as [? ->]; [by rewrite orb_true_r|].
  edestruct (tokens_total (VStr (item_text b ["bluf"; "body"]))) as [? ->]; [by rewrite orb_true_r|].
  eexists. reflexivity.
Qed.
Lemma is_duplicate_total a b :
  item_typed a = true -> item_typed b = true -> exists r, is_duplicate a b = Ok r.
Proof.
  intros Ha Hb. unfold is_duplicate. destruct (similarities_total a b Ha Hb) as [[t c] ->].
  eexists. reflexivity.
Qed.
Lemma within_window_total d now w : item_typed d = true -> exists r, within_window d now w = Ok r.
Proof.
  unfold item_typed, within_window. intros H. bool_prop. destruct (w <=? 0); [eauto|].
  destruct (dget "createdAt" d) as [| | |f| | |]; cbn [is_number py_int mbind result_bind]; eauto.
  destruct f; try discriminate; unfold f_trunc; cbn [float_frac mbind result_bind]; [eauto|].
  destruct (0 <=? e); cbn [mbind result_bind]; eauto.
Qed.
Lemma scan_existing_total c items target now w :
  item_typed c = true -> forallb item_typed items = true ->
  exists r, scan_existing c items target now w = Ok r.
Proof.
  intros Hc. revert target. induction items as [|e items IH]; intros target H; [simpl; eauto|].
  cbn [forallb] in H. bool_prop. cbn [scan_existing].
  assert (exists s, (if related c e then Ok true else within_window e now w) = Ok s) as [s ->].
  { destruct (related c e); [eauto|]. by apply within_window_total. }
  cbn [mbind result_bind].
  assert (exists b, (if s then is_duplicate c e else Ok false) = Ok b) as [b ->].
  { destruct s; [by apply is_duplicate_total|eauto]. }
  cbn [mbind result_bind]. destruct b; eauto.
Qed.
Lemma stamp_typed d m reason : item_typed d = true -> item_typed (stamp_feed_item d m reason) = true.
Proof.
  assert (S : forall k v x, k <> "title" -> k <> "createdAt" -> item_typed x = true ->
    item_typed (dset k v x) = true).
  { intros k v x H1 H2 H. unfold item_typed. by rewrite !dget_dset_ne. }
  intros H. unfold stamp_feed_item, dsetdefault. cbv zeta.
  repeat case_goal; repeat apply S; done.
Qed.

(** De-duplication is total on well-typed items: when every title is text
    (or falsy) and no creation time is an infinite or NaN float, the batch is
    classified without an exception. *)
Theorem dedupe_total new existing now w :
  forallb item_typed (dicts new) = true -> forallb item_typed (dicts existing) = true ->
  exists r, dedupe_feed_items new existing now w = Ok r.
Proof.
  unfold dedupe_feed_items. intros Hn He.
  assert (Hk : forallb item_typed (dicts []) = true) by done. revert Hn Hk.
  generalize (@nil value) at 1 2 as kept. generalize (@nil value) at 1 as dropped.
  generalize (@nil value) as after.
  induction new as [|v new IH]; intros after dropped kept Hn Hk; [simpl; eauto|].
  destruct v as [| | | | | |c]; cbn [dedupe_go]; try (by apply IH).
  cbn [dicts flat_map app forallb] in Hn. fold (dicts new) in Hn. bool_prop.
  unfold classify_feed_item.
  destruct (scan_existing_total c (dicts (kept ++ existing)) None now w) as [r ->]; [done| |].
  { by rewrite dicts_app, forallb_app, Hk, He. }
  cbn [mbind result_bind].
  assert (K : forall m reason,
    forallb item_typed (dicts (kept ++ [VDict (stamp_feed_item c m reason)])) = true).
  { intros. rewrite dicts_app, forallb_app, Hk. simpl. by rewrite stamp_typed. }
  destruct r as [e|t]; cbn [mbind result_bind]; [by apply IH|].
  destruct (_ || _ || _); [|cbn [mbind result_bind]; by apply IH, K].
  destruct t as [t|]; [|cbn [mbind result_bind]; by apply IH].
  destruct (has_update_details c); cbn [mbind result_bind]; [by apply IH, K|by apply IH].
Qed.

(** ** Concrete runs *)
Definition ex_old : dict :=
  [("id", VStr "f1"); ("title", VStr "NVIDIA ships chip"); ("bluf", VStr "A new part.");
   ("sourceUrl", VStr "https://www.example.com/x/?utm_source=q&b=1"); ("createdAt", VInt 1000)].
Definition ex_repeat : dict :=
  [("title", VStr "Chip news"); ("bluf", VStr "Again."); ("sourceUrl", VStr "http://example.com/x?b=1")].
Definition ex_fresh : dict :=
  [("title", VStr "Fusion result"); ("bluf", VStr "Net energy."); ("threadKey", VStr "Fusion energy!")].
Definition ex_update : dict :=
  [("title", VStr "Chip recalled"); ("bluf", VStr "Units withdrawn worldwide today");
   ("sourceUrl", VStr "https://example.com/x?b=1"); ("isUpdate", VBool true);
   ("updateOfFeedItemId", VStr "f1"); ("changeSummary", VStr "The vendor recalled every unit sold.")].
Definition ex_batch : list value := [VDict ex_repeat; VInt 3; VDict ex_fresh; VDict ex_update].

Definition ex_outcome : list value * list value * list value :=
  Eval vm_compute in
  match dedupe_feed_items ex_batch [VDict ex_old] 2000 604800000 with Ok r => r | Raise _ => ([], [], []) end.
Lemma ex_runs : dedupe_feed_items ex_batch [VDict ex_old] 2000 604800000
  = Ok (fst (fst ex_outcome), snd (fst ex_outcome), snd ex_outcome).
Proof. vm_compute. reflexivity. Qed.

Lemma dedupe_published_novel_witness : exists x,
  fst (fst ex_outcome) !! 1%nat = Some x /\
  published 2000 604800000 ex_batch (take 1 (fst (fst ex_outcome)) ++ [VDict ex_old]) x.
Proof.
  eexists. split; [reflexivity|].
  exact (dedupe_published_novel _ _ _ _ _ _ _ ex_runs 1%nat _ eq_refl).
Defined.
Lemma dedupe_conserves_witness :
  length (snd ex_outcome) = 4%nat /\ snd (fst ex_outcome) `sublist_of` ex_batch.
Proof.
  destruct (dedupe_conserves _ _ _ _ _ _ _ ex_runs) as (_ & _ & _ & H).
  split; [reflexivity|exact H].
Defined.
Lemma dedupe_dropped_justified_witness : exists c j m reason,
  VDict ex_repeat = VDict c /\
  verdict_ok c (take j (fst (fst ex_outcome)) ++ [VDict ex_old]) 2000 604800000 Duplicate m reason.
Proof.
  apply (dedupe_dropped_justified _ _ _ _ _ _ _ ex_runs).
  apply list_elem_of_here.
Defined.
Lemma repeat_is_duplicate_witness :
  classify_feed_item (VDict ex_repeat) [VDict ex_old] 2000 604800000
    = Ok (Duplicate, Some ex_old, "Repeated finding or undocumented change.") /\ Duplicate = Duplicate.
Proof.
  assert (H : classify_feed_item (VDict ex_repeat) [VDict ex_old] 2000 604800000
    = Ok (Duplicate, Some ex_old, "Repeated finding or undocumented change."))
    by (vm_compute; reflexivity).
  split; [exact H|].
  apply (repeat_is_duplicate ex_repeat ex_old _ _ _ _ _ _ (list_elem_of_here _ _)
           ltac:(vm_compute; reflexivity) ltac:(vm_compute; reflexivity) H).
Defined.
Lemma thread_key_idempotent_witness :
  normalize_thread_key (VStr (normalize_thread_key (VStr " Thread safety! "))) = "thread:thread safety".
Proof. rewrite thread_key_idempotent by (vm_compute; reflexivity). vm_compute. reflexivity. Defined.
Lemma dedupe_total_witness :
  exists r, dedupe_feed_items ex_batch [VDict ex_old] 2000 604800000 = Ok r.
Proof. apply dedupe_total; vm_compute; reflexivity. Defined.

(** The canonical URL form is not a fixed point for a doubled [www.] label. *)
Example normalize_url_www :
  normalize_url (VStr "http://www.www.a.com") = "//www.a.com" /\
  normalize_url (VStr "//www.a.com") = "//a.com".
Proof. vm_compute. done. Qed.
