(* ===== verification/World.v ===== *)
(** * Record shapes of the autonomous worker ([autonomous_agent/models.py])

    The constructors of configuration, run, event and feed records.  The clock
    reading [ts] and the random identifier [uid] are arguments, [World] draws
    them from the host in the order of the source. *)
From S2P Require Import Prelude PyStr PyFloat PyVal Json JsonRoundtrip Redis.
#[local] Open Scope Z_scope.

Definition new_id (prefix uid : string) : string := prefix +++ "_" +++ uid.

Definition default_config (ts : Z) (user_id : string) : dict :=
  [("enabled", VBool true);
   ("userId", VStr user_id);
   ("mode", VStr "hybrid");
   ("runtime", VStr "dedicated_worker");
   ("actionPolicy", VStr "broad_autonomy");
   ("intervalSeconds", VInt 14400);
   ("maxRunsStored", VInt 100);
   ("maxFeedItems", VInt 200);
   ("feedDedupeEnabled", VBool true);
   ("feedDedupeWindowDays", VInt 14);
   ("sourcePolicy", VDict
      [("disabledSources", VList []); ("enabledSources", VList []);
       ("maxResearchToolCalls", VInt 6); ("requirePlanApproval", VBool false)]);
   ("lastScheduledRunAt", VNone);
   ("createdAt", VInt ts);
   ("updatedAt", VInt ts)].

Definition new_run (ts : Z) (uid user_id : string) (trigger goal_id prompt requested_by : value) : dict :=
  [("id", VStr (new_id "run" uid));
   ("userId", VStr user_id);
   ("trigger", trigger);
   ("goalId", goal_id);
   ("prompt", prompt);
   ("requestedBy", requested_by);
   ("status", VStr "queued");
   ("summary", VStr "");
   ("error", VStr "");
   ("feedItemIds", VList []);
   ("metrics", VDict []);
   ("createdAt", VInt ts);
   ("startedAt", VNone);
   ("completedAt", VNone);
   ("updatedAt", VInt ts)].

Definition new_event (ts : Z) (uid : string) (run_id : value) (event_type message level : string)
    (data : dict) : dict :=
  [("id", VStr (new_id "evt" uid));
   ("runId", run_id);
   ("type", VStr event_type);
   ("level", VStr level);
   ("message", VStr message);
   ("data", VDict data);
   ("createdAt", VInt ts)].

Definition new_feed_item (ts : Z) (uid : string) (run_id : value) (lane title bluf body source_url
    thread_key : string) (is_update : bool) (update_of change_summary confidence
    confidence_reason : string) : dict :=
  let item :=
    [("id", VStr (new_id "feed" uid));
     ("runId", run_id);
     ("lane", VStr lane);
     ("title", VStr title);
     ("bluf", VStr bluf);
     ("body", VStr body);
     ("sourceUrl", VStr source_url);
     ("confidence", VStr confidence);
     ("confidenceReason", VStr confidence_reason);
     ("createdAt", VInt ts)] in
  let item := if (thread_key =? "")%string then item else dset "threadKey" (VStr thread_key) item in
  let item := if is_update then dset "isUpdate" (VBool true) item else item in
  let item := if (update_of =? "")%string then item
              else dset "updateOfFeedItemId" (VStr update_of) item in
  if (change_summary =? "")%string then item
  else dset "changeSummary" (VStr change_summary) item.

(** ** The process around the code: host, Redis round trips, scripts, transactions

    A [world] is one worker process together with the server it talks to.
    Every round trip first lets other clients act ([others]), may be lost on
    the way there or back ([link]), and is recorded in the log [w_log], which
    the theorems use to say what was done, in which server state. *)
Inductive link_state := Up | RequestLost | ReplyLost.

(** What the process gets from outside, by the number of the request. *)
Record host (R : Type) := Host {
  clock : nat -> Z;
  uuid4_hex : nat -> string;
  getenv : string -> option string;
  getpid : Z;
  others : nat -> R -> R;
  link : nat -> link_state;
}.
Arguments Host {R}. Arguments clock {R}. Arguments uuid4_hex {R}. Arguments getenv {R}.
Arguments getpid {R}. Arguments others {R}. Arguments link {R}.

(** One round trip. *)
Inductive trip_kind :=
| TCmd (c : cmd)
| TWatch (k : string)
| TScript (name : string) (argv : list string)
| TExec (cs : list cmd).
Record trip := Trip { t_kind : trip_kind; t_before : keys_t; t_after : keys_t }.

Record world (R : Type) := World {
  srv : R;
  trips : nat;
  ticks : nat;
  uuids : nat;
  lease_tokens : gmap string string;
  lease_ttls : gmap string Z;
  inflight : gmap string string;
  json_flag : option bool;
  w_log : list trip;
}.
Arguments World {R}. Arguments srv {R}. Arguments trips {R}. Arguments ticks {R}. Arguments uuids {R}.
Arguments lease_tokens {R}. Arguments lease_ttls {R}. Arguments inflight {R}.
Arguments json_flag {R}. Arguments w_log {R}.

Section World.
Context {R : Type} `{RS : RedisServer R} (h : host R).
Abbreviation W := (world R).

Definition set_srv (r : R) (w : W) : W :=
  World r (trips w) (ticks w) (uuids w) (lease_tokens w) (lease_ttls w) (inflight w) (json_flag w) (w_log w).
Definition set_tokens (m : gmap string string) (w : W) : W :=
  World (srv w) (trips w) (ticks w) (uuids w) m (lease_ttls w) (inflight w) (json_flag w) (w_log w).
Definition set_ttls (m : gmap string Z) (w : W) : W :=
  World (srv w) (trips w) (ticks w) (uuids w) (lease_tokens w) m (inflight w) (json_flag w) (w_log w).
Definition set_inflight (m : gmap string string) (w : W) : W :=
  World (srv w) (trips w) (ticks w) (uuids w) (lease_tokens w) (lease_ttls w) m (json_flag w) (w_log w).
Definition set_json_flag (b : option bool) (w : W) : W :=
  World (srv w) (trips w) (ticks w) (uuids w) (lease_tokens w) (lease_ttls w) (inflight w) b (w_log w).

(** [now_ms()] and [uuid.uuid4().hex]. *)
Definition now_ms : eff W Z := fun w =>
  (Ok (clock h (ticks w)),
   World (srv w) (trips w) (S (ticks w)) (uuids w) (lease_tokens w) (lease_ttls w) (inflight w)
     (json_flag w) (w_log w)).
Definition uuid4 : eff W string := fun w =>
  (Ok (uuid4_hex h (uuids w)),
   World (srv w) (trips w) (ticks w) (S (uuids w)) (lease_tokens w) (lease_ttls w) (inflight w)
     (json_flag w) (w_log w)).

(** A round trip whose work on the server is [f]. *)
Definition round_trip {A} (k : trip_kind) (f : eff R A) : eff W A := fun w =>
  let r0 := others h (trips w) (srv w) in
  let w' r1 := World r1 (S (trips w)) (ticks w) (uuids w) (lease_tokens w) (lease_ttls w)
                 (inflight w) (json_flag w) (Trip k (keyspace r0) (keyspace r1) :: w_log w) in
  match link h (trips w) with
  | RequestLost => (raise ConnectionError_ "Connection lost", w' r0)
  | ReplyLost => (raise ConnectionError_ "Connection lost", w' (snd (f r0)))
  | Up => let '(x, r1) := f r0 in (x, w' r1)
  end.

(** A command; a script (atomic, raises where a call of it fails). *)
Definition call (c : cmd) : eff R reply := run c.
Definition redis (c : cmd) : eff W reply := round_trip (TCmd c) (call c).
Definition eval {A} (name : string) (argv : list string) (f : eff R A) : eff W A :=
  round_trip (TScript name argv) f.

(** [pipe.watch(k)] and [pipe.execute()]: EXEC runs every queued command, then
    the client raises the first error reply. *)
Definition watch_key (k : string) : eff W watch_t :=
  round_trip (TWatch k) (fun r => (Ok (watch k r), r)).
Fixpoint run_all (cs : list cmd) (err : option exn) : eff R unit := fun r =>
  match cs with
  | [] => match err with Some e => (Raise e, r) | None => (Ok tt, r) end
  | c :: cs =>
      let '(x, r') := run c r in
      run_all cs (match err, x with None, Raise e => Some e | _, _ => err end) r'
  end.
Definition execute (watched : list watch_t) (cs : list cmd) : eff W unit :=
  round_trip (TExec cs) (fun r =>
    if forallb (fun t => exec_ok t r) watched then run_all cs None r
    else (raise WatchError "Watched variable changed.", r)).

(** ** Framing *)
Lemma round_trip_frame {A} k (f : eff R A) w x w' :
  round_trip k f w = (x, w') ->
  lease_tokens w' = lease_tokens w /\ lease_ttls w' = lease_ttls w /\
  inflight w' = inflight w /\ json_flag w' = json_flag w /\
  exists t, w_log w' = t :: w_log w /\ t_kind t = k.
Proof.
  unfold round_trip. intros H. destruct (link h (trips w));
    [destruct (f (others h (trips w) (srv w)))| |]; injection H as <- <-; simpl; eauto 10.
Qed.
End World.

(** A host where nobody else acts and no message is lost. *)
Definition quiet_host {R : Type} (now : Z) : host R := {|
  clock n := now + Z.of_nat n;
  uuid4_hex n := "u" +++ str_of_Z (Z.of_nat n);
  getenv _ := None;
  getpid := 7;
  others _ r := r;
  link _ := Up;
|}.
Definition fresh_world {R : Type} (r : R) : world R := World r 0 0 0 ∅ ∅ ∅ None [].
