(* ===== verification/Store.v ===== *)
(** * The Redis state store of the autonomous worker ([autonomous_agent/store.py])

    Every method of [RedisStore] as an effectful program over [World.world],
    the Lua scripts as atomic server functions, and optimistic transactions
    with their retries and lease fence.  The client always exposes
    [pipeline], so the plain fallback for test fakes is left out. *)
From S2P Require Import Prelude PyStr PyFloat PyVal Json JsonRoundtrip Redis PyUrl Sha Dedupe World.
#[local] Open Scope Z_scope.

Definition DEFAULT_SCHEDULE_INTERVAL_SECONDS : Z := 14400.
Definition MIN_SCHEDULE_INTERVAL_SECONDS : Z := 300.
Definition MAX_SCHEDULE_INTERVAL_SECONDS : Z := 7 * 24 * 60 * 60.

(** [None] of [_text] for a reply that is not text. *)
Definition text (x : reply) : option string := match x with RText s => Some s | _ => None end.
Definition text_or_empty (x : reply) : string := default "" (text x).
Definition is_text (s : string) (x : reply) : bool :=
  match x with RText t => (t =? s)%string | _ => false end.
Definition reply_int (x : reply) : Z := match x with RInt n => n | _ => 0 end.
Definition reply_list (x : reply) : list string := match x with RMany l => l | _ => [] end.
Definition reply_map (x : reply) : gmap string string := match x with RMap m => m | _ => ∅ end.

Definition _bounded (v : value) (def maximum : Z) : result Z :=
  match py_int v with
  | Ok n => Ok (Z.max 1 (Z.min n maximum))
  | Raise e => if exn_in e [TypeError; ValueError] then Ok def else Raise e
  end.

Definition key (user_id name : string) : string := "autonomy:" +++ user_id +++ ":" +++ name.

Definition schedule_interval_seconds (v : value) : Z :=
  let v := if is_bool v then VNone else v in
  let interval :=
    match py_int v with Ok n => n | Raise _ => DEFAULT_SCHEDULE_INTERVAL_SECONDS end in
  let interval := if interval <=? 0 then DEFAULT_SCHEDULE_INTERVAL_SECONDS else interval in
  Z.max MIN_SCHEDULE_INTERVAL_SECONDS (Z.min MAX_SCHEDULE_INTERVAL_SECONDS interval).

Definition _is_wrong_type_error (e : exn) : bool :=
  let m := lower (exn_msg e) in
  contains m "wrongtype" || contains m "wrong redis type" || contains m "wrong kind of value".
Definition _redis_type_name (x : reply) : string :=
  lower (match x with RText s => if (s =? "")%string then "none" else s | _ => "none" end).
Definition _is_redis_json_type (t : string) : bool := (t =? "json")%string || contains t "rejson".

(** [type(empty())] of an atomic update. *)
Inductive container := AList | ADict.
Definition empty_of (c : container) : value := match c with AList => VList [] | ADict => VDict [] end.
Definition has_type (c : container) (v : value) : bool :=
  match c with AList => is_list v | ADict => is_dict v end.

(** ** Lua scripts: atomic on the server *)
Section Scripts.
Context {R : Type} `{RS : RedisServer R}.

Definition lua_set_text (lease k token v : string) : eff R bool :=
  g ← call (GET lease);
  if negb (is_text token g) then mret false else
  _ ← call (SET k v); mret true.

Definition lua_mark_backend_started (lease state token raw : string) : eff R bool :=
  g ← call (GET lease);
  if negb (is_text token g) then mret false else
  p ← call (HGET state raw);
  if negb (is_text "claimed" p) then mret false else
  _ ← call (HSET state raw "started"); mret true.

Definition lua_complete (lease processing state token raw : string) : eff R bool :=
  g ← call (GET lease);
  if negb (is_text token g) then mret false else
  _ ← call (LREM1 processing raw);
  _ ← call (HDEL state raw); mret true.

Definition lua_clear_state (lease processing state token : string) : eff R bool :=
  g ← call (GET lease);
  if negb (is_text token g) then mret false else
  n ← call (LLEN processing);
  _ ← (if reply_int n =? 0 then (_ ← call (DEL state); mret tt) else mret tt);
  mret true.

(** The claim loop: oldest claims stay first, started and unknown ones are
    removed.  Each iteration shortens the processing list. *)
Fixpoint lua_reclaim_loop (fuel : nat) (processing queue state : string) (moved : list string)
  : eff R (list string) :=
  match fuel with
  | O => mret moved
  | S fuel =>
      v ← call (LINDEX0 processing);
      match v with
      | RText x =>
          p ← call (HGET state x);
          _ ← (if is_text "claimed" p then call (LMOVE_LR processing queue)
               else call (LPOP processing));
          _ ← call (HDEL state x);
          lua_reclaim_loop fuel processing queue state (moved ++ [x])
      | _ => mret moved
      end
  end.
Definition reclaim_fuel (processing : string) (r : R) : nat :=
  match klist processing (keyspace r) with Ok l => S (length l) | Raise _ => 1%nat end.
Definition lua_reclaim (lease processing queue state token : string) : eff R (option (list string)) :=
  g ← call (GET lease);
  if negb (is_text token g) then mret None else
  fuel ← gets (reclaim_fuel processing);
  moved ← lua_reclaim_loop fuel processing queue state [];
  _ ← call (DEL state);
  mret (Some moved).

Definition lua_refresh (lease token : string) (ttl : Z) : eff R bool :=
  g ← call (GET lease);
  if is_text token g then (n ← call (EXPIRE lease ttl); mret (negb (reply_int n =? 0)))
  else mret false.

Definition lua_release (lease token : string) : eff R unit :=
  g ← call (GET lease);
  if is_text token g then (_ ← call (DEL lease); mret tt) else mret tt.
End Scripts.

Section Store.
Context {R : Type} `{RS : RedisServer R} (h : host R).
Abbreviation W := (world R).
Abbreviation redis := (redis h).
Abbreviation eval := (eval h).
Abbreviation now_ms := (now_ms h).
Abbreviation uuid4 := (uuid4 h).

(** ** JSON values *)
Definition _supports_json (redis_key : string) : eff W bool :=
  f ← gets json_flag;
  match f with
  | Some b => mret b
  | None =>
      b ← catch (_ ← redis (JSONGET redis_key); mret true) [Exception_] (fun e =>
            if _is_wrong_type_error e then mret true
            else if contains (lower (exn_msg e)) "unknown command" then mret false
            else rethrow e);
      _ ← modify (set_json_flag (Some b)); mret b
  end.

Definition json_get (redis_key : string) (fallback : value) : eff W value :=
  j ← _supports_json redis_key;
  raw ← (if (j : bool) then
           catch (redis (JSONGET redis_key)) [Exception_] (fun e =>
             if _is_wrong_type_error e then redis (GET redis_key) else rethrow e)
         else redis (GET redis_key));
  if (text_or_empty raw =? "")%string then mret fallback
  else lift (try_except (loads (text_or_empty raw)) [JSONDecodeError; TypeError]
               (fun _ => Ok fallback)).

Definition json_set (redis_key : string) (v : value) : eff W unit :=
  let serialized := dumps v in
  j ← _supports_json redis_key;
  done ← (if (j : bool) then
            catch (_ ← redis (JSONSET redis_key serialized); mret true) [Exception_] (fun e =>
              if _is_wrong_type_error e then mret false else rethrow e)
          else mret false);
  if (done : bool) then mret tt else _ ← redis (SET redis_key serialized); mret tt.

(** ** Optimistic transactions *)
Definition LEASE_LOST : string := "Worker lease was lost before persisting output.".

(** A mutation only reads the clock: it maps its own state and the current
    value to the new value ([None] is [UNCHANGED]) and a result.  Its state is
    kept across retries, as the closures of the source keep theirs. *)
Definition mutation (S A : Type) : Type := S -> value -> eff nat (S * option value * A).
Definition tick : eff nat Z := fun n => (Ok (clock h n), (n + 1)%nat).
Definition with_ticks {A} (m : eff nat A) : eff W A := fun w =>
  let '(x, n) := m (ticks w) in
  (x, World (srv w) (trips w) n (uuids w) (lease_tokens w) (lease_ttls w) (inflight w)
        (json_flag w) (w_log w)).

Section Atomic.
Context {St A : Type} (redis_key : string) (mutate : mutation St A) (kind : container)
  (also : A -> list cmd).

Definition decode_current (raw : reply) : value :=
  if (text_or_empty raw =? "")%string then empty_of kind
  else match loads (text_or_empty raw) with
       | Ok v => if has_type kind v then v else empty_of kind
       | Raise _ => empty_of kind
       end.

(** WATCH the lease too and verify its owner. *)
Definition watch_lease (lease : option (string * string)) : eff W (list watch_t) :=
  match lease with
  | None => mret []
  | Some (lease_key, token) =>
      t ← watch_key h lease_key;
      g ← redis (GET lease_key);
      if is_text token g then mret [t] else throw WorkerLeaseLost LEASE_LOST
  end.

(** One WATCH / read / MULTI / EXEC round; [inr] when EXEC was refused. *)
Definition attempt (lease : option (string * string)) (json_supported : bool) (st : St)
  : eff W (A + St * exn) :=
  t ← watch_key h redis_key;
  ts ← watch_lease lease;
  ty ← redis (TYPE redis_key);
  let redis_type := _redis_type_name ty in
  let is_string := (redis_type =? "string")%string in
  let is_json := _is_redis_json_type redis_type in
  let is_missing := (redis_type =? "none")%string in
  if negb (is_string || is_json || is_missing) then
    throw RuntimeError ("Atomic JSON update for " +++ repr_str redis_key +++
                        " cannot use Redis type " +++ repr_str redis_type)
  else
  let write_as_json := is_json || (is_missing && json_supported) in
  raw ← (if is_json then redis (JSONGET redis_key)
         else if is_string then redis (GET redis_key) else mret RNil);
  '(st', new_value, res) ← with_ticks (mutate st (decode_current raw));
  match new_value with
  | None => mret (inl res)
  | Some v =>
      let serialized := dumps v in
      let write := if write_as_json then JSONSET redis_key serialized else SET redis_key serialized in
      catch (_ ← execute h (t :: ts) (write :: also res); mret (inl res)) [WatchError]
        (fun e => mret (inr (st', e)))
  end.

Fixpoint attempts (n : nat) (lease : option (string * string)) (json_supported : bool) (st : St)
    (last_watch_error : option exn) : eff W A :=
  match n with
  | O => match last_watch_error with
         | None => throw RuntimeError ("Atomic update for " +++ repr_str redis_key +++ " did not complete")
         | Some e => rethrow e
         end
  | S n =>
      r ← attempt lease json_supported st;
      match r with
      | inl a => mret a
      | inr (st', e) => attempts n lease json_supported st' (Some e)
      end
  end.

(** The lease key and token of a fenced update. *)
Definition lease_fence (lease_user : option string) : eff W (option (string * string)) :=
  tokens ← gets lease_tokens;
  match lease_user with
  | None => mret None
  | Some u => let token := default "" (tokens !! u) in
              if (token =? "")%string then throw WorkerLeaseLost LEASE_LOST
              else mret (Some (key u "lease", token))
  end.
Definition atomic_update (lease_user : option string) (retries : Z) (st : St) : eff W A :=
  lease ← lease_fence lease_user;
  json_supported ← _supports_json redis_key;
  attempts (Z.to_nat (Z.max 1 retries)) lease json_supported st None.
End Atomic.

(** A mutation without state of its own. *)
Definition stateless {A} (f : value -> eff nat (option value * A)) : mutation unit A :=
  fun st v => '(n, a) ← f v; mret (st, n, a).
Definition no_also {A} (_ : A) : list cmd := [].
Definition update {A} (redis_key : string) (kind : container) (lease_user : option string)
    (f : value -> eff nat (option value * A)) : eff W A :=
  atomic_update redis_key (stateless f) kind no_also lease_user 5 tt.

(** ** Text, notifications *)
Definition get_text (redis_key : string) : eff W (option string) :=
  x ← redis (GET redis_key); mret (text x).

Definition token_of (user_id : string) : eff W string :=
  m ← gets lease_tokens; mret (default "" (m !! user_id)).

Definition set_text (redis_key v : string) (lease_user : option string) : eff W unit :=
  match lease_user with
  | None => _ ← redis (SET redis_key v); mret tt
  | Some u =>
      token ← token_of u;
      ok ← (if (token =? "")%string then mret false
            else eval "set_text" [redis_key; token] (lua_set_text (key u "lease") redis_key token v));
      if (ok : bool) then mret tt else throw WorkerLeaseLost LEASE_LOST
  end.

Definition publish (user_id event_type : string) (data : dict) : eff W unit :=
  ts ← now_ms;
  let event := VDict [("type", VStr event_type); ("timestamp", VInt ts); ("data", VDict data)] in
  _ ← redis (PUBLISH ("user:" +++ user_id +++ ":updates") (dumps event)); mret tt.
End Store.
