(* ===== verification/StoreOps.v ===== *)
(** * Records, queue and leases of the store ([autonomous_agent/store.py])

    The second half of [RedisStore]: configuration, goals, runs, events, feed,
    the reliable queue with its claim phases, the worker lease and the
    scheduled enqueue, written with the primitives of [Store]. *)
From S2P Require Import Prelude PyStr PyFloat PyVal Json JsonRoundtrip Redis PyUrl Sha Dedupe World Store.
#[local] Open Scope Z_scope.

(** [value.isdigit()] for ASCII digits. *)
Definition isdigit (s : string) : bool := negb (s =? "")%string && all_chars is_digit s.
Definition as_dict (v : value) : dict := match v with VDict d => d | _ => [] end.
Definition as_list (v : value) : list value := match v with VList l => l | _ => [] end.

(** ** The pure parts of the mutations *)
Definition goals_marked (goal_id : value) (timestamp : Z) (current : list value) : list value * bool :=
  fold_right (fun goal acc =>
    match goal with
    | VDict d => if py_eq (dget "id" d) goal_id
                 then (VDict (dset "lastRunAt" (VInt timestamp) d) :: fst acc, true)
                 else (goal :: fst acc, snd acc)
    | _ => (goal :: fst acc, snd acc)
    end) ([], false) current.

(** [[r for r in current if r.get("id") != run.get("id")]]; a record that is
    not a dictionary has no [get]. *)
Fixpoint runs_without (run_id : value) (current : list value) : result (list value) :=
  match current with
  | [] => Ok []
  | r :: rs =>
      i ← attr_get r "id";
      rest ← runs_without run_id rs;
      Ok (if py_eq i run_id then rest else r :: rest)
  end.
Definition runs_upserted (run : dict) (max_runs : Z) (current : list value) : result (list value) :=
  runs ← runs_without (dget "id" run) current;
  Ok (py_take max_runs (VDict run :: runs)).

Definition running (v : value) : bool :=
  match v with VDict d => py_eq (dget "status" d) (VStr "running") | _ => false end.
Definition aborted_run (summary : string) (ts : Z) (d : dict) : dict :=
  dmerge d [("status", VStr "aborted"); ("summary", VStr summary);
            ("completedAt", VInt ts); ("updatedAt", VInt ts)].
Definition closed (summary : string) (ts : Z) (r : value) : option dict :=
  match r with VDict d => if running r then Some (aborted_run summary ts d) else None | _ => None end.
Definition runs_aborted (summary : string) (ts : Z) (current : list value) : list value * list dict :=
  (map (fun r => match closed summary ts r with Some d => VDict d | None => r end) current,
   omap (closed summary ts) current).

(** The closure of [append_feed_items]: [items] are stamped in place, so a
    retry starts from the stamped items. *)
Definition feed_merged (dedupe_enabled : bool) (window_ms max_items now : Z) (items feed : list value)
  : result (list value * option value * list value) :=
  '(items', kept) ←
    (if dedupe_enabled then
       '(kept, _, after) ← dedupe_feed_items items feed now window_ms; Ok (after, kept)
     else
       let after := map (fun v => match v with
                                  | VDict d => VDict (stamp_feed_item d None "") | _ => v end) items in
       Ok (after, List.filter is_dict after));
  match kept with
  | [] => Ok (items', Some (VList feed), [])
  | _ => Ok (items', Some (VList (py_take max_items (kept ++ feed))), py_take max_items kept)
  end.

(** [due(config)] of [maybe_enqueue_scheduled]. *)
Definition due (current : Z) (config : dict) : bool :=
  if negb (truthy (dget_or "enabled" (VBool true) config)) then false
  else
    let interval := schedule_interval_seconds (dget "intervalSeconds" config) in
    let last := match py_int (vor (dget "lastScheduledRunAt" config) (VInt 0)) with
                | Ok n => n | Raise _ => 0 end in
    (last =? 0) || (interval * 1000 <=? current - last).

Section Ops.
Context {R : Type} `{RS : RedisServer R} (h : host R).
Abbreviation W := (world R).
Abbreviation redis := (redis h).
Abbreviation eval := (eval h).
Abbreviation now_ms := (now_ms h).
Abbreviation uuid4 := (uuid4 h).
Abbreviation json_get := (json_get h).
Abbreviation publish := (publish h).

(** ** Configuration and goals *)
Definition config_created (user_id : string) (stored : value) : eff nat (option value * value) :=
  if truthy stored then mret (None, stored)
  else
    ts ← tick h;
    let created := default_config ts user_id in
    let interval := default "" (getenv h "AUTONOMY_INTERVAL_SECONDS") in
    let created :=
      if isdigit interval
      then dset "intervalSeconds" (VInt (schedule_interval_seconds (VStr interval))) created
      else created in
    mret (Some (VDict created), VDict created).

Definition get_config (user_id : string) : eff W dict :=
  config ← json_get (key user_id "config") VNone;
  match config with
  | VDict d => ts ← now_ms; mret (dmerge (default_config ts user_id) d)
  | _ =>
      stored ← update h (key user_id "config") ADict None (config_created user_id);
      ts ← now_ms; mret (dmerge (default_config ts user_id) (as_dict stored))
  end.

Definition list_of (name user_id : string) : eff W (list value) :=
  v ← json_get (key user_id name) (VList []); mret (as_list v).
Definition list_goals : string -> eff W (list value) := list_of "goals".
Definition list_runs : string -> eff W (list value) := list_of "runs".
Definition list_feed (user_id : string) (limit : option Z) : eff W (list value) :=
  feed ← list_of "feed" user_id;
  mret (match limit with Some n => py_take n feed | None => feed end).

Definition lease_if (b : bool) (user_id : string) : option string := if b then Some user_id else None.

Definition mark_goal_run (user_id : string) (goal_id : value) (timestamp : Z) (require_lease : bool)
  : eff W unit :=
  changed ← update h (key user_id "goals") AList (lease_if require_lease user_id) (fun current =>
    let '(goals, changed) := goals_marked goal_id timestamp (as_list current) in
    mret (Some (VList goals), changed));
  if (changed : bool) then publish user_id "autonomy_status" [("goalsUpdated", VBool true)] else mret tt.

(** ** Runs and events; [run] is mutated, the updated record is returned. *)
Definition upsert_run (user_id : string) (run : dict) : eff W dict :=
  ts ← now_ms;
  let run := dset "updatedAt" (VInt ts) run in
  config ← get_config user_id;
  max_runs ← lift (_bounded (dget "maxRunsStored" config) 100 1000);
  _ ← update h (key user_id "runs") AList None (fun current =>
        runs ← lift (runs_upserted run max_runs (as_list current)); mret (Some (VList runs), tt));
  _ ← publish user_id "autonomy_status" [("run", VDict run)];
  mret run.

Definition append_event (user_id : string) (event : dict) : eff W unit :=
  _ ← update h (key user_id "events") AList None (fun events =>
        mret (Some (VList (py_take 500 (VDict event :: as_list events))), tt));
  publish user_id "autonomy_run_event" event.

Definition log_event (user_id : string) (run_id : value) (event_type message level : string)
    (data : dict) : eff W unit :=
  uid ← uuid4;
  ts ← now_ms;
  append_event user_id (new_event ts uid run_id event_type message level data).

(** ** Feed *)
Definition append_feed_items (user_id : string) (items : list value) (require_lease : bool)
  : eff W (list value) :=
  match items with
  | [] => mret []
  | _ =>
      config ← get_config user_id;
      let dedupe_enabled := truthy (dget_or "feedDedupeEnabled" (VBool true) config) in
      window_ms ← lift (window_ms_for_days (dget "feedDedupeWindowDays" config));
      max_items ← lift (_bounded (dget "maxFeedItems" config) 200 2000);
      stored ← atomic_update h (key user_id "feed")
        (fun items feed =>
           now ← (if dedupe_enabled then tick h else mret 0);
           lift (feed_merged dedupe_enabled window_ms max_items now items (as_list feed)))
        AList no_also (lease_if require_lease user_id) 5 items;
      _ ← match stored with
          | [] => mret tt
          | _ => publish user_id "autonomy_feed_updated" [("items", VList stored)]
          end;
      mret stored
  end.

(** ** Lease *)
Definition drop_lease (user_id : string) : eff W unit :=
  _ ← modify (fun w => set_tokens (delete user_id (lease_tokens w)) w);
  modify (fun w => set_ttls (delete user_id (lease_ttls w)) w).

Definition acquire_lease (user_id : string) (ttl_seconds : Z) : eff W bool :=
  uid ← uuid4;
  let token := str_of_Z (getpid h) +++ ":" +++ uid in
  let ttl := Z.max 1 ttl_seconds in
  x ← redis (SETNXEX (key user_id "lease") token ttl);
  match x with
  | RNil => mret false
  | _ =>
      _ ← modify (fun w => set_tokens (<[user_id := token]> (lease_tokens w)) w);
      _ ← modify (fun w => set_ttls (<[user_id := ttl]> (lease_ttls w)) w);
      mret true
  end.

Definition owns_lease (user_id : string) : eff W bool :=
  token ← token_of user_id;
  if (token =? "")%string then mret false
  else x ← redis (GET (key user_id "lease")); mret (is_text token x).

Definition refresh_lease (user_id : string) (ttl_seconds : Z) : eff W bool :=
  token ← token_of user_id;
  if (token =? "")%string then mret false
  else
    let ttl := Z.max 1 ttl_seconds in
    ok ← eval "refresh_lease" [token] (lua_refresh (key user_id "lease") token ttl);
    if (ok : bool) then
      _ ← modify (fun w => set_ttls (<[user_id := ttl]> (lease_ttls w)) w); mret true
    else _ ← drop_lease user_id; mret false.

Definition release_lease (user_id : string) : eff W unit :=
  token ← token_of user_id;
  _ ← drop_lease user_id;
  if (token =? "")%string then mret tt
  else eval "release_lease" [token] (lua_release (key user_id "lease") token).

Definition cancel_requested (user_id run_id : string) : eff W bool :=
  x ← redis (GET (key user_id ("cancel:" +++ run_id)));
  mret (negb (text_or_empty x =? "")%string).

(** ** Queue *)
Definition queue_length (user_id : string) : eff W Z :=
  x ← redis (LLEN (key user_id "queue")); mret (reply_int x).

Fixpoint parse_requests (raws : list string) : result (list dict) :=
  match raws with
  | [] => Ok []
  | raw :: rest =>
      v ← try_except (loads raw) [JSONDecodeError] (fun _ => Ok VNone);
      ds ← parse_requests rest;
      Ok (match v with VDict d => d :: ds | _ => ds end)
  end.
Definition queue_snapshot (user_id : string) (limit : Z) : eff W (list dict) :=
  x ← redis (LRANGE (key user_id "queue") (- limit) (-1));
  lift (parse_requests (reverse (reply_list x))).

Definition parse_request (raw : string) : option dict :=
  match loads raw with Ok (VDict d) => Some d | _ => None end.

Definition dequeue (user_id : string) : eff W (option dict) :=
  owns ← owns_lease user_id;
  if negb (owns : bool) then throw RuntimeError "cannot dequeue without owning the worker lease" else
  let queue_key := key user_id "queue" in
  let processing_key := key user_id "processing" in
  x ← redis (RPOPLPUSH queue_key processing_key);
  let raw := text_or_empty x in
  if (raw =? "")%string then mret None else
  _ ← redis (HSET (key user_id "processing_state") raw "claimed");
  ttls ← gets lease_ttls;
  ok ← refresh_lease user_id (default 60 (ttls !! user_id));
  if negb (ok : bool) then throw RuntimeError "worker lease was lost while dequeuing a request" else
  match parse_request raw with
  | None =>
      _ ← suppress [Exception_] (
            _ ← redis (LREM1 processing_key raw);
            _ ← redis (HDEL (key user_id "processing_state") raw); mret tt);
      mret None
  | Some d =>
      _ ← modify (fun w => set_inflight (<[user_id := raw]> (inflight w)) w);
      mret (Some d)
  end.

Definition mark_backend_started (user_id : string) : eff W unit :=
  raws ← gets inflight;
  token ← token_of user_id;
  ok ← match raws !! user_id with
       | Some raw =>
           if (token =? "")%string then mret false
           else eval "mark_backend_started" [token; raw]
                  (lua_mark_backend_started (key user_id "lease") (key user_id "processing_state")
                     token raw)
       | None => mret false
       end;
  if (ok : bool) then mret tt
  else throw WorkerLeaseLost "Worker no longer owns an undispatched request.".

Definition complete (user_id : string) : eff W bool :=
  raws ← gets inflight;
  _ ← modify (fun w => set_inflight (delete user_id (inflight w)) w);
  match raws !! user_id with
  | None => mret false
  | Some raw =>
      token ← token_of user_id;
      if (token =? "")%string then mret false
      else eval "complete" [token; raw]
             (lua_complete (key user_id "lease") (key user_id "processing")
                (key user_id "processing_state") token raw)
  end.

Definition abort_summary (requeued : bool) : string :=
  if requeued then
    "Run was interrupted before its request reached the backend. The request was queued again and runs under a new record."
  else "Run was interrupted before it finished. Work that may have reached the backend will not be retried automatically.".

Definition _abort_interrupted_runs (user_id : string) (requeued : bool) : eff W unit :=
  runs ← list_runs user_id;
  if negb (existsb running runs) then mret tt else
  timestamp ← now_ms;
  let summary := abort_summary requeued in
  aborted ← update h (key user_id "runs") AList (Some user_id) (fun current =>
    let '(runs, aborted) := runs_aborted summary timestamp (as_list current) in
    mret (match aborted with [] => None | _ => Some (VList runs) end, aborted));
  iterE (fun run =>
    _ ← publish user_id "autonomy_status" [("run", VDict run)];
    run_id ← lift (dgetitem "id" run);
    log_event user_id run_id "run_aborted" summary "warn" []) aborted.

Definition RECLAIM_LOST : string := "cannot reclaim processing work after losing the lease".

Definition reclaim_processing (user_id : string) : eff W Z :=
  token ← token_of user_id;
  if (token =? "")%string
  then throw RuntimeError "cannot reclaim processing work without owning the lease" else
  let processing_key := key user_id "processing" in
  let queue_key := key user_id "queue" in
  let state_key := key user_id "processing_state" in
  let lease_key := key user_id "lease" in
  n ← redis (LLEN processing_key);
  if reply_int n =? 0 then
    _ ← eval "clear_state" [token] (lua_clear_state lease_key processing_key state_key token);
    mret 0
  else
  st ← redis (HGETALL state_key);
  raws ← redis (LRANGE processing_key 0 (-1));
  let requeued := forallb (fun raw => bool_decide (reply_map st !! raw = Some "claimed"))
                    (reply_list raws) in
  _ ← catch (_abort_interrupted_runs user_id requeued) [WorkerLeaseLost] (fun _ =>
        _ ← drop_lease user_id; throw RuntimeError RECLAIM_LOST);
  moved ← eval "reclaim_processing" [token]
            (lua_reclaim lease_key processing_key queue_key state_key token);
  match moved with
  | None => _ ← drop_lease user_id; throw RuntimeError RECLAIM_LOST
  | Some moved =>
      local ← gets inflight;
      _ ← (match local !! user_id with
           | Some raw => if bool_decide (raw ∈ moved)
                         then modify (fun w => set_inflight (delete user_id (inflight w)) w)
                         else mret tt
           | None => mret tt
           end);
      mret (Z.of_nat (length moved))
  end.

(** ** Scheduled runs *)
Definition scheduled_request (current : Z) : dict :=
  [("id", VStr ("scheduled-" +++ str_of_Z current)); ("trigger", VStr "scheduled");
   ("requestedBy", VStr "worker"); ("createdAt", VInt current)].

Definition mark_due (user_id : string) (current : Z) (stored : value)
  : eff nat (option value * option dict) :=
  ts ← tick h;
  let stored := as_dict stored in
  let config := dmerge (default_config ts user_id) stored in
  if bool_decide (stored = []) || negb (due current config) then mret (None, None)
  else
    let updated := dmerge stored [("lastScheduledRunAt", VInt current); ("updatedAt", VInt current)] in
    mret (Some (VDict updated), Some (dmerge config updated)).

Definition enqueue (user_id : string) (request : dict) (scheduled : option dict) : list cmd :=
  match scheduled with
  | Some _ => [LPUSH (key user_id "queue") (dumps (VDict request))]
  | None => []
  end.

Definition maybe_enqueue_scheduled (user_id : string) : eff W (option dict) :=
  current ← now_ms;
  config ← get_config user_id;
  if negb (due current config) then mret None else
  let request := scheduled_request current in
  scheduled ← atomic_update h (key user_id "config") (stateless (mark_due user_id current)) ADict
                (enqueue user_id request) None 5 tt;
  match scheduled with
  | None => mret None
  | Some config =>
      _ ← publish user_id "autonomy_status" [("queued", VDict request)];
      _ ← publish user_id "autonomy_status" [("config", VDict config)];
      mret (Some request)
  end.
End Ops.
