(* ===== verification/Trace.v ===== *)
(** * Reasoning about round trips

    Which trips a program emits ([emits]), how one trip moves the server, and
    the steps between which a watched key cannot have changed. *)
From S2P Require Import Prelude PyStr PyFloat PyVal Json JsonRoundtrip Redis World.
#[local] Open Scope Z_scope.

(** ** Commands on the keyspace *)
Definition read_only (c : cmd) : bool :=
  match c with
  | GET _ | TYPE _ | JSONGET _ | LLEN _ | LRANGE _ _ _ | LINDEX0 _ | HGET _ _ | HGETALL _
  | PUBLISH _ _ => true
  | _ => false
  end.
(** The keys a command can modify. *)
Definition writes (c : cmd) : list string :=
  match c with
  | SET k _ | SETEX k _ _ | SETNXEX k _ _ | DEL k | GETDEL k | EXPIRE k _ | JSONSET k _
  | LPUSH k _ | LPOP k | LREM1 k _ | HSET k _ _ | HDEL k _ => [k]
  | LMOVE_LR a b | RPOPLPUSH a b => [a; b]
  | _ => []
  end.

Section Spec.
Context {R : Type} `{RS : RedisServer R}.

Abbreviation sem := (spec json_render json_module).

Lemma read_only_spec c m : read_only c = true -> snd (sem c m) = m.
Proof. destruct c; intros H; try discriminate; reflexivity. Qed.

Lemma put_list_ne k k' l m : k' <> k -> put_list k l m !! k' = m !! k'.
Proof. intros. unfold put_list. destruct l; [by rewrite lookup_delete_ne|by rewrite lookup_insert_ne]. Qed.
Lemma put_hash_ne k k' x m : k' <> k -> put_hash k x m !! k' = m !! k'.
Proof. intros. unfold put_hash. case_decide; [by rewrite lookup_delete_ne|by rewrite lookup_insert_ne]. Qed.

Lemma spec_frame c m k : k ∉ writes c -> snd (sem c m) !! k = m !! k.
Proof.
  destruct c; cbn [writes spec]; intros H; repeat case_goal; cbn [snd]; try done;
    rewrite ?put_list_ne, ?put_hash_ne, ?lookup_insert_ne, ?lookup_delete_ne by set_solver; done.
Qed.

(** Commands run one after the other, as EXEC and scripts do. *)
Definition run_seq (cs : list cmd) (m : keys_t) : keys_t :=
  fold_left (fun m c => snd (sem c m)) cs m.
Lemma run_seq_frame cs m k : (forall c, c ∈ cs -> k ∉ writes c) -> run_seq cs m !! k = m !! k.
Proof.
  unfold run_seq. revert m. induction cs as [|c cs IH]; intros m H; simpl; [done|].
  rewrite IH by set_solver. apply spec_frame. set_solver.
Qed.
Lemma run_all_keys cs err r : keyspace (snd (run_all cs err r)) = run_seq cs (keyspace r).
Proof.
  unfold run_seq. revert err r. induction cs as [|c cs IH]; intros err r; simpl; [by destruct err|].
  destruct (run c r) as [x r'] eqn:E. rewrite IH. pose proof (run_keys c r) as H.
  rewrite E in H. simpl in H. by rewrite H.
Qed.
Lemma run_all_later cs err r : later r (snd (run_all cs err r)).
Proof.
  revert err r. induction cs as [|c cs IH]; intros err r; simpl; [destruct err; apply later_refl|].
  destruct (run c r) as [x r'] eqn:E. eapply later_trans; [|apply IH].
  pose proof (run_later c r) as H. by rewrite E in H.
Qed.
Ltac exn_cases H :=
  unfold wrongtype, json_wrongtype, no_json, raise in H;
  repeat (case_hyp H; cbn [fst] in H); try discriminate H; try (injection H as <-; reflexivity).
Lemma klist_exn k m e : klist k m = Raise e -> exn_cls e = ResponseError.
Proof. unfold klist. intros H. exn_cases H. Qed.
Lemma khash_exn k m e : khash k m = Raise e -> exn_cls e = ResponseError.
Proof. unfold khash. intros H. exn_cases H. Qed.
Lemma kstr_exn k m e : kstr k m = Raise e -> exn_cls e = ResponseError.
Proof. unfold kstr. intros H. exn_cases H. Qed.
(** A command only fails with an error reply. *)
Lemma spec_exn c m e : fst (sem c m) = Raise e -> exn_cls e = ResponseError.
Proof.
  destruct c; cbn [spec fst]; unfold mbind, result_bind; intros H; exn_cases H;
    injection H as ->; eauto using klist_exn, khash_exn, kstr_exn.
Qed.
Lemma run_all_exn cs err r e : (forall e', err = Some e' -> exn_cls e' = ResponseError) ->
  fst (run_all cs err r) = Raise e -> exn_cls e = ResponseError.
Proof.
  revert err r. induction cs as [|c cs IH]; intros err r He H; simpl in H.
  - destruct err; [|done]. injection H as <-. by apply He.
  - destruct (run c r) as [x r'] eqn:E. apply IH in H; [done|]. intros e' H'.
    destruct err; [by apply He|]. destruct x; [done|]. injection H' as ->.
    apply (spec_exn c (keyspace r)). rewrite <- run_reply. by rewrite E.
Qed.
Lemma run_eq c r : exists r', run c r = (fst (sem c (keyspace r)), r') /\
  keyspace r' = snd (sem c (keyspace r)) /\ later r r'.
Proof.
  exists (snd (run c r)). rewrite <- run_reply. split; [by destruct (run c r)|].
  split; [apply run_keys|apply run_later].
Qed.
End Spec.

Definition quiet (t : trip) : Prop := t_after t = t_before t.

Section Trace.
Context {R : Type} `{RS : RedisServer R} (h : host R).
Abbreviation W := (world R).
Abbreviation sem := (spec json_render json_module).

(** ** Emitted trips *)
Definition emits {A} (P : trip -> Prop) (m : eff W A) : Prop :=
  forall w x w', m w = (x, w') -> exists l, w_log w' = l ++ w_log w /\ Forall P l.

Lemma emits_nil {A} P (m : eff W A) :
  (forall w x w', m w = (x, w') -> w_log w' = w_log w) -> emits P m.
Proof. intros H w x w' E. exists []. by rewrite (H _ _ _ E). Qed.
Lemma emits_ret {A} P (a : A) : emits P (mret a).
Proof. apply emits_nil. intros ??? E. by injection E as _ <-. Qed.
Lemma emits_lift {A} P (r : result A) : emits P (lift r).
Proof. apply emits_nil. intros ??? E. by injection E as _ <-. Qed.
Lemma emits_gets {A} P (f : W -> A) : emits P (gets f).
Proof. apply emits_nil. intros ??? E. by injection E as _ <-. Qed.
Lemma emits_modify P (f : W -> W) : (forall w, w_log (f w) = w_log w) -> emits P (modify f).
Proof. intros H. apply emits_nil. intros ??? E. injection E as _ <-. apply H. Qed.
Lemma emits_now P : emits P (now_ms h).
Proof. apply emits_nil. intros ??? E. by injection E as _ <-. Qed.
Lemma emits_uuid P : emits P (uuid4 h).
Proof. apply emits_nil. intros ??? E. by injection E as _ <-. Qed.
Lemma emits_bind {A B} P (m : eff W A) (f : A -> eff W B) :
  emits P m -> (forall a, emits P (f a)) -> emits P (x ← m; f x).
Proof.
  intros Hm Hf w x w' E. unfold mbind, eff_bind in E. destruct (m w) as [[a|e] w1] eqn:Em.
  - destruct (Hm _ _ _ Em) as (l1 & H1 & F1). destruct (Hf a _ _ _ E) as (l2 & H2 & F2).
    exists (l2 ++ l1). rewrite H2, H1, List.app_assoc. split; [done|]. by apply Forall_app_2.
  - injection E as _ <-. by apply (Hm _ _ _ Em).
Qed.
Lemma emits_catch {A} P (m : eff W A) cs f :
  emits P m -> (forall e, emits P (f e)) -> emits P (catch m cs f).
Proof.
  intros Hm Hf w x w' E. unfold catch in E. destruct (m w) as [[a|e] w1] eqn:Em.
  - injection E as _ <-. by apply (Hm _ _ _ Em).
  - destruct (exn_in e cs).
    + destruct (Hm _ _ _ Em) as (l1 & H1 & F1). destruct (Hf e _ _ _ E) as (l2 & H2 & F2).
      exists (l2 ++ l1). rewrite H2, H1, List.app_assoc. split; [done|]. by apply Forall_app_2.
    + injection E as _ <-. by apply (Hm _ _ _ Em).
Qed.
Lemma emits_iter {A} P (f : A -> eff W unit) l : (forall a, emits P (f a)) -> emits P (iterE f l).
Proof. intros H. induction l; simpl; [apply emits_ret|]. apply emits_bind; auto. Qed.
Lemma emits_impl {A} (P Q : trip -> Prop) (m : eff W A) :
  (forall t, P t -> Q t) -> emits P m -> emits Q m.
Proof. intros H Hm w x w' E. destruct (Hm _ _ _ E) as (l & ? & ?). eauto using Forall_impl. Qed.

Lemma emits_trip {A} (P : trip -> Prop) k (f : eff R A) :
  (forall r, P (Trip k (keyspace r) (keyspace r))) ->
  (forall r, P (Trip k (keyspace r) (keyspace (snd (f r))))) -> emits P (round_trip h k f).
Proof.
  intros H1 H2 w x w' E. unfold round_trip in E.
  specialize (H2 (others h (trips w) (srv w))).
  destruct (link h (trips w)); [destruct (f _) as [y r1]| |]; injection E as _ <-;
    simpl; eexists [_]; by repeat constructor.
Qed.
Lemma emits_redis (P : trip -> Prop) c :
  (forall m, P (Trip (TCmd c) m m)) ->
  (forall m, P (Trip (TCmd c) m (snd (sem c m)))) -> emits P (redis h c).
Proof.
  intros H1 H2. apply emits_trip; [auto|]. intros r. unfold call. rewrite run_keys. auto.
Qed.
Lemma emits_read c : read_only c = true -> emits quiet (redis h c).
Proof. intros H. apply emits_redis; intros m; unfold quiet; simpl; by rewrite ?read_only_spec. Qed.

(** ** One trip *)
Hypothesis others_later : forall n r, later r (others h n r).

Lemma round_trip_inv {A} k (f : eff R A) w x w' :
  (forall r, later r (snd (f r))) -> round_trip h k f w = (x, w') ->
  exists r0, later (srv w) r0 /\ later r0 (srv w') /\ ticks w' = ticks w /\
    w_log w' = Trip k (keyspace r0) (keyspace (srv w')) :: w_log w /\
    (f r0 = (x, srv w') \/
     x = raise ConnectionError_ "Connection lost" /\ (srv w' = r0 \/ srv w' = snd (f r0))).
Proof.
  intros Hf E. unfold round_trip in E. exists (others h (trips w) (srv w)).
  specialize (Hf (others h (trips w) (srv w))).
  split; [apply others_later|].
  destruct (link h (trips w)); [destruct (f _) as [y r1]| |]; injection E as <- <-; simpl in *;
    auto 10 using later_refl.
Qed.
Lemma redis_inv c w x w' : redis h c w = (x, w') ->
  exists r0, later (srv w) r0 /\ later r0 (srv w') /\ ticks w' = ticks w /\
    w_log w' = Trip (TCmd c) (keyspace r0) (keyspace (srv w')) :: w_log w /\
    (x = fst (sem c (keyspace r0)) /\ keyspace (srv w') = snd (sem c (keyspace r0)) \/
     x = raise ConnectionError_ "Connection lost" /\
       (keyspace (srv w') = keyspace r0 \/ keyspace (srv w') = snd (sem c (keyspace r0)))).
Proof.
  intros E. apply round_trip_inv in E as (r0 & H1 & H2 & Ht & Hl & H); [|intros; apply run_later].
  exists r0. repeat split; auto. destruct (run_eq c r0) as (r' & Hr & Hk & _).
  unfold call in H. rewrite Hr in H. destruct H as [[= <- <-]|(-> & [->| ->])]; auto.
Qed.
(** A read leaves the server's keys alone and answers about the state it
    leaves, unless the connection was lost. *)
Lemma read_inv c w x w' : read_only c = true -> redis h c w = (x, w') ->
  later (srv w) (srv w') /\ ticks w' = ticks w /\
  (exists t, w_log w' = t :: w_log w /\ quiet t) /\
  (x = fst (sem c (keyspace (srv w'))) \/ x = raise ConnectionError_ "Connection lost").
Proof.
  intros Hc E. apply redis_inv in E as (r0 & H1 & H2 & Ht & Hl & H).
  assert (Hk : keyspace (srv w') = keyspace r0).
  { rewrite (read_only_spec c) in H by done. destruct H as [[_ ->]|[_ [->| ->]]]; done. }
  split; [by eapply later_trans|]. split; [done|]. split.
  - eexists. split; [exact Hl|]. done.
  - rewrite Hk. destruct H as [[-> _]|[-> _]]; auto.
Qed.
(** The same for WATCH: the token watches the key as it is then. *)
Lemma watch_inv k w x w' : watch_key h k w = (x, w') ->
  later (srv w) (srv w') /\ ticks w' = ticks w /\
  (exists t, w_log w' = t :: w_log w /\ quiet t) /\
  (x = Ok (watch k (srv w')) \/ x = raise ConnectionError_ "Connection lost").
Proof.
  intros E. apply round_trip_inv in E as (r0 & H1 & H2 & Ht & Hl & H); [|intros; apply later_refl].
  cbn beta in H. cbn [snd] in H.
  assert (Hr : srv w' = r0) by (destruct H as [H|[_ [H|H]]]; congruence).
  rewrite Hr in *. split; [done|]. split; [done|]. split; [by eexists|].
  destruct H as [H|[-> _]]; [left; congruence|by right].
Qed.
Lemma exec_inv watched cs w x w' : execute h watched cs w = (x, w') ->
  exists r0, later (srv w) r0 /\ later r0 (srv w') /\ ticks w' = ticks w /\
    w_log w' = Trip (TExec cs) (keyspace r0) (keyspace (srv w')) :: w_log w /\
    (keyspace (srv w') = keyspace r0 \/
     forallb (fun t => exec_ok t r0) watched = true /\
     keyspace (srv w') = run_seq cs (keyspace r0)) /\
    (x = Ok tt -> forallb (fun t => exec_ok t r0) watched = true /\
                  keyspace (srv w') = run_seq cs (keyspace r0)) /\
    (forall e, x = Raise e -> exn_cls e = WatchError -> keyspace (srv w') = keyspace r0).
Proof.
  intros E. apply round_trip_inv in E as (r0 & H1 & H2 & Ht & Hl & H).
  - exists r0. split; [done|]. split; [done|]. split; [done|]. split; [done|].
    cbn beta in H. pose proof (run_all_keys cs None r0) as K.
    assert (X : forall e, fst (run_all cs None r0) = Raise e -> exn_cls e <> WatchError).
    { intros e He. apply run_all_exn in He; [|done]. by rewrite He. }
    destruct (forallb _ watched) eqn:Ew.
    + destruct (run_all cs None r0) as [y r1] eqn:E2. cbn [fst snd] in H, K, X.
      destruct H as [H|(-> & [Hs|Hs])]; [injection H as Hy Hr; rewrite <- Hr|rewrite Hs..];
        (split; [by auto|]); unfold raise; (split; [naive_solver|]); intros e He Hc;
        try (injection He as <-; discriminate Hc); try done; subst; by destruct (X e).
    + cbn [snd] in H. unfold raise in *.
      destruct H as [H|(-> & [Hs|Hs])]; [injection H as Hy Hr; rewrite <- Hr|rewrite Hs..];
        (split; [by auto|]); unfold raise; (split; [naive_solver|]); intros e He Hc;
        try (injection He as <-; discriminate Hc); try done; subst; by destruct (X e).
  - intros r. destruct (forallb _ _); [apply run_all_later|apply later_refl].
Qed.
End Trace.
