(* ===== verification/StoreLaws.v ===== *)
(** * Optimistic transactions are atomic and lease-fenced

    [atomic_update] against any interleaving of other clients and any lost
    message: what a committed EXEC did ([commit]), in which server state, and
    that a fenced write only commits while the lease key holds the worker's
    token. *)
From S2P Require Import Prelude PyStr PyFloat PyVal Json JsonRoundtrip Redis World Store Trace.
#[local] Open Scope Z_scope.

Section Atomic.
Context {R : Type} `{RS : RedisServer R} (h : host R).
Abbreviation W := (world R).
Abbreviation sem := (spec json_render json_module).
Hypothesis others_later : forall n r, later r (others h n r).

Context {St A : Type} (redis_key : string) (mutate : mutation St A) (kind : container)
  (also : A -> list cmd).

(** The value a transaction reads in keyspace [m]. *)
Definition stored (m : keys_t) : option value :=
  match kval redis_key m with
  | None => Some (empty_of kind)
  | Some (RStr s) => Some (decode_current kind (RText s))
  | Some (RJson v) => Some (decode_current kind (RText (json_render v)))
  | _ => None
  end.
(** The write command fits the stored type. *)
Definition write_cmd (js : bool) (m : keys_t) (v : value) : cmd :=
  let as_json := match kval redis_key m with
                 | Some (RJson _) => true | None => js | _ => false end in
  if as_json then JSONSET redis_key (dumps v) else SET redis_key (dumps v).
Definition held (lease : option (string * string)) (m : keys_t) : Prop :=
  match lease with None => True | Some (k, token) => kval k m = Some (RStr token) end.

(** [t] applied the mutation to the stored value, atomically, with its extra
    commands, while the lease was held. *)
Inductive commit (lease : option (string * string)) (js : bool) (st : St) (n : nat) (a : A)
  : trip -> Prop :=
| Commit m cur st' v n' :
    held lease m -> stored m = Some cur -> mutate st cur n = (Ok (st', Some v, a), n') ->
    commit lease js st n a
      (Trip (TExec (write_cmd js m v :: also a)) m (run_seq (write_cmd js m v :: also a) m)).

(** What one attempt can do. *)
Inductive attempted (lease : option (string * string)) (js : bool) (st : St) (n : nat)
  : result (A + St * exn) -> list trip -> Prop :=
| at_unchanged m cur st' a n' l :
    Forall quiet l -> stored m = Some cur ->
    mutate st cur n = (Ok (st', None, a), n') -> attempted lease js st n (Ok (inl a)) l
| at_commit a t x l :
    Forall quiet l -> commit lease js st n a t -> (x = Ok (inl a) \/ exists e, x = Raise e) ->
    attempted lease js st n x (t :: l)
| at_refused m cur st' v a n' e l :
    Forall quiet l -> stored m = Some cur -> mutate st cur n = (Ok (st', Some v, a), n') ->
    exn_cls e = WatchError -> attempted lease js st n (Ok (inr (st', e))) l
| at_raise e l : Forall quiet l -> attempted lease js st n (Raise e) l.

(** A run of trips that left the keys alone. *)
Definition quiet_run (w w' : W) : Prop :=
  later (srv w) (srv w') /\ ticks w' = ticks w /\
  exists l, w_log w' = l ++ w_log w /\ Forall quiet l.
Lemma quiet_run_refl w : quiet_run w w.
Proof. split; [apply later_refl|]. split; [done|]. by exists []. Qed.
Lemma quiet_run_trans w1 w2 w3 : quiet_run w1 w2 -> quiet_run w2 w3 -> quiet_run w1 w3.
Proof.
  intros (L1 & T1 & l1 & E1 & F1) (L2 & T2 & l2 & E2 & F2). split; [by eapply later_trans|].
  split; [congruence|]. exists (l2 ++ l1). rewrite E2, E1, List.app_assoc.
  split; [done|]. by apply Forall_app_2.
Qed.
Lemma read_quiet c w x w' : read_only c = true -> redis h c w = (x, w') ->
  quiet_run w w' /\ (x = fst (sem c (keyspace (srv w'))) \/ exists e, x = Raise e).
Proof.
  intros Hc E. apply (read_inv h others_later) in E as (L & T & (t & Hl & Ht) & H); [|done].
  split; [split; [done|]; split; [done|]; exists [t]; auto|].
  destruct H as [->| ->]; [by left|right; by eexists].
Qed.
Lemma watch_quiet k w x w' : watch_key h k w = (x, w') ->
  quiet_run w w' /\ (x = Ok (watch k (srv w')) \/ exists e, x = Raise e).
Proof.
  intros E. apply (watch_inv h others_later) in E as (L & T & (t & Hl & Ht) & H).
  split; [split; [done|]; split; [done|]; exists [t]; auto|].
  destruct H as [->| ->]; [by left|right; by eexists].
Qed.
(** [ts] certifies that keys in [ks] do not change until EXEC. *)
Definition guards (ts : list watch_t) (k : string) (r : R) : Prop :=
  forall r1 r2, later r r1 -> later r1 r2 -> forallb (fun t => exec_ok t r2) ts = true ->
    keyspace r1 !! k = keyspace r !! k.
Lemma guards_watch ts k r : watch k r ∈ ts -> guards ts k r.
Proof.
  intros Hin r1 r2 L1 L2 H. rewrite forallb_forall in H.
  eapply watch_sound; [exact L1|exact L2|]. by apply H, list_elem_of_In.
Qed.

Lemma watch_lease_spec lease w x w' : watch_lease h lease w = (x, w') ->
  quiet_run w w' /\
  match x with
  | Ok ts => held lease (keyspace (srv w')) /\
             forall r' ts', later (srv w') r' -> ts ⊆ ts' ->
               forallb (fun t => exec_ok t r') ts' = true -> held lease (keyspace r')
  | Raise _ => True
  end.
Proof.
  destruct lease as [[lk tok]|]; cbn [watch_lease].
  2:{ intros [= <- <-]. split; [apply quiet_run_refl|done]. }
  intros E. step E t w1 E1; apply watch_quiet in E1 as [Q1 H1]; [|done].
  step E g w2 E2; apply read_quiet in E2 as [Q2 H2]; try done;
    pose proof (quiet_run_trans _ _ _ Q1 Q2) as Q; [|done].
  destruct H1 as [[= ->]|[? ?]]; [|done]. destruct H2 as [H2|[? ?]]; [|done].
  destruct (is_text tok g) eqn:Eg; [|injection E as <- <-; done].
  injection E as <- <-. split; [done|].
  assert (Hh : kval lk (keyspace (srv w2)) = Some (RStr tok)).
  { cbn [spec fst] in H2. apply eq_sym, bind_ok in H2 as (o & Ho & Hg). injection Hg as <-.
    unfold kstr in Ho. unfold is_text in Eg.
    destruct (kval lk (keyspace (srv w2))) as [[]|]; unfold wrongtype, raise in Ho; try done;
      injection Ho as <-; simpl in Eg; [|done]. by apply String.eqb_eq in Eg as ->. }
  split; [done|]. intros r' ts' L Hts Hx. simpl. unfold kval.
  assert (G : guards ts' lk (srv w1)) by (apply guards_watch; set_solver).
  rewrite (G r' r'), <- (G (srv w2) r'); auto using later_refl; try apply Q2.
  eapply later_trans; [apply Q2|done].
Qed.
Lemma stored_get m raw : fst (sem (GET redis_key) m) = Ok raw ->
  stored m = Some (decode_current kind raw).
Proof.
  cbn [spec fst]. intros H. apply bind_ok in H as (o & Ho & [= <-]). unfold kstr in Ho.
  unfold stored. destruct (kval redis_key m) as [[]|]; unfold wrongtype, raise in Ho;
    try done; by injection Ho as <-.
Qed.
Lemma stored_jsonget m raw : fst (sem (JSONGET redis_key) m) = Ok raw ->
  stored m = Some (decode_current kind raw).
Proof.
  cbn [spec fst]. unfold stored, json_wrongtype, no_json, raise.
  destruct json_module; [|done].
  destruct (kval redis_key m) as [[]|]; try done; by intros [= <-].
Qed.

(** What [TYPE] answered, and the value then read. *)
Inductive typed (m : keys_t) (js : bool) : reply -> bool -> Prop :=
| ty_none : kval redis_key m = None -> typed m js (RText "none") js
| ty_str s : kval redis_key m = Some (RStr s) -> typed m js (RText "string") false
| ty_json v : kval redis_key m = Some (RJson v) -> typed m js (RText "ReJSON-RL") true
| ty_other t : t = "list" \/ t = "hash" -> typed m js (RText t) false.
Lemma typed_of m js ty : fst (sem (TYPE redis_key) m) = Ok ty -> exists b, typed m js ty b.
Proof.
  cbn [spec fst]. intros [= <-]. destruct (kval redis_key m) as [[]|] eqn:E;
    eexists; first [by eapply ty_str|by eapply ty_json|by eapply ty_none|by apply ty_other; auto].
Qed.
(** The value read after TYPE: still the stored one at that moment. *)
Definition read_value (ty : reply) : eff W reply :=
  let t := _redis_type_name ty in
  if _is_redis_json_type t then redis h (JSONGET redis_key)
  else if (t =? "string")%string then redis h (GET redis_key) else mret RNil.
Lemma read_value_spec m js ty b w x w' :
  typed m js ty b -> keyspace (srv w) = m -> read_value ty w = (x, w') ->
  quiet_run w w' /\ match x with
                    | Ok raw => ty = RText "list" \/ ty = RText "hash" \/
                                stored (keyspace (srv w')) = Some (decode_current kind raw)
                    | Raise _ => True end.
Proof.
  intros Ht Hm. destruct Ht; unfold read_value; cbv zeta; cbn -[redis]; intros E.
  - injection E as <- <-. split; [apply quiet_run_refl|]. do 2 right. unfold stored.
    by rewrite Hm, H.
  - apply read_quiet in E as [Q E]; [|done]. split; [done|].
    destruct E as [E|[e ->]]; [|done]. destruct x; [|done]. do 2 right. by apply stored_get.
  - apply read_quiet in E as [Q E]; [|done]. split; [done|].
    destruct E as [E|[e ->]]; [|done]. destruct x; [|done]. do 2 right. by apply stored_jsonget.
  - destruct H as [->| ->]; cbn -[redis] in E; injection E as <- <-;
      (split; [apply quiet_run_refl|auto]).
Qed.
Lemma with_ticks_inv {B} (m : eff nat B) (w : W) (x : result B) (w' : W) : with_ticks m w = (x, w') ->
  srv w' = srv w /\ w_log w' = w_log w /\ m (ticks w) = (x, ticks w').
Proof. unfold with_ticks. destruct (m (ticks w)) as [y n]. intros H. injection H as <- <-. done. Qed.

(** The last step: EXEC, or nothing to write. *)
Definition finish (ts : list watch_t) (as_json : bool) (st' : St) (nv : option value) (res : A)
  : eff W (A + St * exn) :=
  match nv with
  | None => mret (inl res)
  | Some v =>
      let write := if as_json then JSONSET redis_key (dumps v) else SET redis_key (dumps v) in
      catch (_ ← execute h ts (write :: also res); mret (inl res)) [WatchError]
        (fun e => mret (inr (st', e)))
  end.
Lemma watch_error_isa e : exn_in e [WatchError] = true -> exn_cls e = WatchError.
Proof. destruct e as [[] ?]; done. Qed.
Lemma finish_spec lease js st n n' cur raw ts b st' nv res w x w' t0 :
  (forall r' ts', later (srv w) r' -> ts ⊆ ts' ->
     forallb (fun t => exec_ok t r') ts' = true -> held lease (keyspace r')) ->
  (forall r', later (srv w) r' -> exec_ok t0 r' = true ->
     keyspace r' !! redis_key = keyspace (srv w) !! redis_key /\
     b = match kval redis_key (keyspace r') with Some (RJson _) => true | None => js | _ => false end) ->
  cur = decode_current kind raw -> stored (keyspace (srv w)) = Some cur ->
  mutate st cur n = (Ok (st', nv, res), n') ->
  finish (t0 :: ts) b st' nv res w = (x, w') ->
  later (srv w) (srv w') /\ exists l, w_log w' = l ++ w_log w /\ attempted lease js st n x l.
Proof.
  intros Hg Hk -> Hs Hm. unfold finish. destruct nv as [v|].
  2:{ intros [= <- <-]. split; [apply later_refl|]. exists []. split; [done|].
      eapply at_unchanged; eauto. }
  set (cmds := _ :: also res). unfold catch. intros E.
  destruct ((_ ← execute h (t0 :: ts) cmds; mret (inl res)) w) as [y w1] eqn:E1.
  assert (Hc : forall r0, later (srv w) r0 -> forallb (fun t => exec_ok t r0) (t0 :: ts) = true ->
    commit lease js st n res (Trip (TExec cmds) (keyspace r0) (run_seq cmds (keyspace r0)))).
  { intros r0 L Hx. cbn [forallb] in Hx. bool_prop. destruct (Hk r0) as [Hk0 Hb]; [done..|].
    assert (cmds = write_cmd js (keyspace r0) v :: also res) as ->
      by (subst cmds; unfold write_cmd; by rewrite <- Hb).
    eapply Commit; [eapply Hg; eauto; set_solver| |done].
    rewrite <- Hs. unfold stored, kval. by rewrite Hk0. }
  step E1 u w2 Ex; apply (exec_inv h others_later) in Ex as (r0 & L1 & L2 & _ & Hl & Hcase & Hok & Hwe).
  - injection E1 as <- <-. injection E as <- <-. destruct u.
    destruct (Hok eq_refl) as [Hx Hks]. split; [by eapply later_trans|].
    eexists [_]. split; [exact Hl|]. rewrite Hks. eapply at_commit; eauto.
  - destruct (exn_in e [WatchError]) eqn:Ee.
    + injection E as <- <-. split; [by eapply later_trans|]. eexists [_]. split; [exact Hl|].
      apply watch_error_isa in Ee. eapply at_refused; eauto. constructor; [|done].
      unfold quiet. simpl. by apply (Hwe e).
    + injection E as <- <-. split; [by eapply later_trans|]. eexists [_]. split; [exact Hl|].
      destruct Hcase as [Hks|[Hx Hks]]; rewrite Hks.
      * apply at_raise. by repeat constructor.
      * eapply at_commit; eauto.
Qed.

Lemma attempted_app lease js st n x l1 l2 :
  Forall quiet l2 -> attempted lease js st n x l1 -> attempted lease js st n x (l1 ++ l2).
Proof.
  intros Hq H. destruct H; simpl; econstructor; eauto; by apply Forall_app_2.
Qed.

Lemma typed_json m js ty b :
  typed m js ty b -> negb ((_redis_type_name ty =? "string")%string ||
    _is_redis_json_type (_redis_type_name ty) || (_redis_type_name ty =? "none")%string) = false ->
  _is_redis_json_type (_redis_type_name ty) || ((_redis_type_name ty =? "none")%string && js) = b /\
  b = match kval redis_key m with Some (RJson _) => true | None => js | _ => false end.
Proof.
  destruct 1 as [H|s H|v H|t [->| ->]]; intros Hn; try discriminate Hn; rewrite H; by destruct js.
Qed.

Lemma stopped lease js st (w w1 : W) (e : exn) :
  later (srv w) (srv w1) /\ (exists l, w_log w1 = l ++ w_log w /\ Forall quiet l) ->
  later (srv w) (srv w1) /\
  exists l, w_log w1 = l ++ w_log w /\ attempted lease js st (ticks w) (Raise e) l.
Proof. intros (L & l & Hl & Hq). split; [done|]. exists l. split; [done|]. by apply at_raise. Qed.
Lemma quiet_stop w w1 : quiet_run w w1 ->
  later (srv w) (srv w1) /\ (exists l, w_log w1 = l ++ w_log w /\ Forall quiet l).
Proof. by intros (? & _ & ?). Qed.

(** An attempt is atomic: it leaves the keys alone, or its EXEC committed. *)
Theorem attempt_spec lease js st w x w' :
  attempt h redis_key mutate kind also lease js st w = (x, w') ->
  later (srv w) (srv w') /\
  exists l, w_log w' = l ++ w_log w /\ attempted lease js st (ticks w) x l.
Proof.
  intros E. unfold attempt in E.
  step E t w1 E1; apply watch_quiet in E1 as [Q1 H1]; [|by apply stopped, quiet_stop].
  destruct H1 as [[= ->]|[? ?]]; [|done].
  step E ts w2 E2; apply watch_lease_spec in E2 as [Q2 H2];
    pose proof (quiet_run_trans _ _ _ Q1 Q2) as Q12; [|by apply stopped, quiet_stop].
  step E ty w3 E3; apply read_quiet in E3 as [Q3 H3]; try done;
    pose proof (quiet_run_trans _ _ _ Q12 Q3) as Q13; [|by apply stopped, quiet_stop].
  destruct H3 as [H3|[? ?]]; [|done]. symmetry in H3. apply (typed_of _ js) in H3 as [b Hty].
  cbv zeta in E.
  destruct (negb _) eqn:Eng; [injection E as <- <-; by apply stopped, quiet_stop|].
  step E raw w4 E4; apply (read_value_spec (keyspace (srv w3)) js ty b) in E4 as [Q4 H4]; try done;
    pose proof (quiet_run_trans _ _ _ Q13 Q4) as Q14; [|by apply stopped, quiet_stop].
  assert (Hst : stored (keyspace (srv w4)) = Some (decode_current kind raw)).
  { destruct H4 as [->|[->|?]]; [discriminate Eng|discriminate Eng|done]. }
  step E r w5 E5; apply with_ticks_inv in E5 as (S5 & Lg5 & M5).
  2:{ apply stopped. rewrite S5, Lg5. by apply quiet_stop. }
  destruct r as [[st' nv] res]. destruct (typed_json _ _ _ _ Hty Eng) as [Hb1 Hb2].
  change (finish (watch redis_key (srv w1) :: ts)
    (_is_redis_json_type (_redis_type_name ty) || ((_redis_type_name ty =? "none")%string && js))
    st' nv res w5 = (x, w')) in E.
  rewrite Hb1 in E. destruct Q14 as (L14 & T14 & l & Hl & Hq). rewrite T14 in M5.
  destruct H2 as [Hh2 Hg2]. destruct Q2 as (L2 & _), Q3 as (L3 & _), Q4 as (L4 & _).
  assert (L24 : later (srv w2) (srv w4)) by eauto using later_trans.
  assert (L13 : later (srv w1) (srv w3)) by eauto using later_trans.
  assert (L14' : later (srv w1) (srv w4)) by eauto using later_trans.
  assert (LX : later (srv w) (srv w') /\ exists l', w_log w' = l' ++ w_log w5 /\
            attempted lease js st (ticks w) x l').
  { eapply finish_spec in E; [|..|exact M5]; [|..|reflexivity|by rewrite S5].
    - rewrite S5 in E. destruct E as [L E]. split; [|exact E]. eauto using later_trans.
    - rewrite S5. intros r' ts' L. apply Hg2. eauto using later_trans.
    - rewrite S5. intros r' L Hx.
      assert (G : guards [watch redis_key (srv w1)] redis_key (srv w1))
        by (apply guards_watch; set_solver).
      assert (Hx' : forallb (fun t => exec_ok t r') [watch redis_key (srv w1)] = true)
        by (simpl; by rewrite Hx).
      rewrite (G r' r'), (G (srv w4) r') by eauto using later_trans, later_refl.
      split; [done|]. rewrite Hb2. unfold kval.
      by rewrite (G r' r'), (G (srv w3) r') by eauto using later_trans, later_refl. }
  destruct LX as (L & l' & Hl' & Hat). split; [done|]. exists (l' ++ l).
  rewrite Hl', Lg5, Hl, List.app_assoc. split; [done|]. by apply attempted_app.
Qed.
(** What a whole update can do: nothing, or one commit as its last trip. *)
Inductive updated (lease : option (string * string)) (x : result A) : list trip -> Prop :=
| up_quiet l :
    Forall quiet l ->
    (forall a, x = Ok a -> exists m cur st n st' n',
       stored m = Some cur /\ mutate st cur n = (Ok (st', None, a), n')) ->
    updated lease x l
| up_commit js st n a t l :
    commit lease js st n a t -> Forall quiet l -> (x = Ok a \/ exists e, x = Raise e) ->
    updated lease x (t :: l).

Lemma updated_app lease x l1 l2 :
  Forall quiet l2 -> updated lease x l1 -> updated lease x (l1 ++ l2).
Proof.
  intros Hq H. destruct H; simpl; [|eapply up_commit; eauto; by apply Forall_app_2].
  eapply up_quiet; eauto. by apply Forall_app_2.
Qed.

Lemma attempts_spec lease js fuel st last w x w' :
  attempts h redis_key mutate kind also fuel lease js st last w = (x, w') ->
  exists l, w_log w' = l ++ w_log w /\ updated lease x l.
Proof.
  revert st last w. induction fuel as [|fuel IH]; intros st last w E; simpl in E.
  - exists []. destruct last; injection E as <- <-; (split; [done|]); by apply up_quiet.
  - step E r w1 E1; apply attempt_spec in E1 as (_ & l1 & Hl1 & H1).
    + destruct r as [a|[st' e]].
      * injection E as <- <-. exists l1. split; [done|].
        inversion H1 as [m0 cur0 st0 a0 n0 l0 Hq0 Hs0 Hm0|a0 t0 x0 l0 Hq0 Hc0 Hx0|m0 cur0 st0 v0 a0 n0 e0 l0 Hq0 Hs0 Hm0 He0|e0 l0 Hq0]; subst.
        -- apply up_quiet; [done|]. intros ? [= <-]. eauto 10.
        -- eapply up_commit; eauto. destruct Hx0 as [[= ->]|[? ?]]; [by left|done].
      * apply IH in E as (l2 & Hl2 & H2). exists (l2 ++ l1). rewrite Hl2, Hl1, List.app_assoc.
        split; [done|]. apply updated_app; [|done].
        inversion H1 as [m0 cur0 st0 a0 n0 l0 Hq0 Hs0 Hm0|a0 t0 x0 l0 Hq0 Hc0 Hx0|m0 cur0 st0 v0 a0 n0 e0 l0 Hq0 Hs0 Hm0 He0|e0 l0 Hq0]; subst; [|done].
        destruct Hx0 as [?|[? ?]]; done.
    + exists l1. split; [done|]. inversion H1 as [m0 cur0 st0 a0 n0 l0 Hq0 Hs0 Hm0|a0 t0 x0 l0 Hq0 Hc0 Hx0|m0 cur0 st0 v0 a0 n0 e0 l0 Hq0 Hs0 Hm0 He0|e0 l0 Hq0]; subst;
        [|by apply up_quiet]. eapply up_commit; eauto.
Qed.

Lemma emits_supports_json k : emits quiet (_supports_json h k).
Proof.
  unfold _supports_json. apply emits_bind; [apply emits_gets|]. intros [b|]; [apply emits_ret|].
  apply emits_bind.
  - apply emits_catch; [apply emits_bind; [by apply emits_read|intros; apply emits_ret]|].
    intros e. repeat case_goal; first [apply emits_ret|apply emits_lift].
  - intros b. apply emits_bind; [by apply emits_modify|intros; apply emits_ret].
Qed.

(** The lease an update must hold. *)
Definition required (lease_user : option string) (tokens : gmap string string)
  : option (string * string) :=
  match lease_user with
  | None => None
  | Some u => Some (key u "lease", default "" (tokens !! u))
  end.

Lemma lease_fence_inv lease_user (w : W) (x : result (option (string * string))) (w' : W) :
  lease_fence lease_user w = (x, w') ->
  match x with
  | Ok lse => lse = required lease_user (lease_tokens w) /\ w' = w /\
              forall k, required lease_user (lease_tokens w) <> Some (k, "")
  | Raise _ => w' = w
  end.
Proof.
  unfold lease_fence, required, mbind, eff_bind, gets, throw, lift, mret, eff_ret.
  destruct lease_user as [u|]; cbv beta iota zeta.
  - destruct (String.eqb_spec (default "" (lease_tokens w !! u)) "") as [?|Hne];
      intros E; injection E as <- <-; [done|]. repeat split. congruence.
  - intros E. injection E as <- <-. done.
Qed.
Lemma atomic_update_spec lease_user retries st w x w' :
  atomic_update h redis_key mutate kind also lease_user retries st w = (x, w') ->
  exists l, w_log w' = l ++ w_log w /\ updated (required lease_user (lease_tokens w)) x l /\
    (forall k, required lease_user (lease_tokens w) = Some (k, "") -> l = []).
Proof.
  unfold atomic_update. intros E. set (req := required lease_user (lease_tokens w)).
  step E lse w2 E2; apply lease_fence_inv in E2; fold req in E2.
  - destruct E2 as (-> & -> & Hne).
    step E js w3 E3; apply emits_supports_json in E3 as (l1 & Hl1 & Hq1).
    + apply attempts_spec in E as (l2 & Hl2 & H2). exists (l2 ++ l1).
      rewrite Hl2, Hl1, List.app_assoc. split; [done|]. split; [by apply updated_app|].
      intros k Hk. by destruct (Hne k).
    + exists l1. split; [done|]. split; [by apply up_quiet|]. intros k Hk. by destruct (Hne k).
  - subst w'. exists []. split; [done|]. split; [by apply up_quiet|done].
Qed.

(** C31: An [atomic_update], whatever other clients do between its round trips
    and whichever replies get lost, either leaves every key alone or performs
    exactly one atomic step as its last trip: the mutation applied to the
    value stored at that instant, written in the stored type, together with
    its extra commands, and, when fenced, while the lease key holds this
    worker's token.  A returned result is the one that was committed. *)
Theorem atomic_update_atomic lease_user retries st w x w' :
  atomic_update h redis_key mutate kind also lease_user retries st w = (x, w') ->
  exists l, w_log w' = l ++ w_log w /\ updated (required lease_user (lease_tokens w)) x l.
Proof. intros E. apply atomic_update_spec in E as (l & ? & ? & _). eauto. Qed.

Lemma fenced_changes u retries st w x w' :
  atomic_update h redis_key mutate kind also (Some u) retries st w = (x, w') ->
  exists l, w_log w' = l ++ w_log w /\
    forall t, t ∈ l -> t_after t <> t_before t ->
      exists token, lease_tokens w !! u = Some token /\
                    kval (key u "lease") (t_before t) = Some (RStr token).
Proof.
  intros E. apply atomic_update_spec in E as (l & Hl & H & Hne). exists l. split; [done|].
  intros t Ht Hch. cbn [required] in *. inversion H as [l0 Hq _|js st0 n a t0 l0 Hc Hq _]; subst.
  - rewrite Forall_forall in Hq. by apply Hq in Ht.
  - apply elem_of_cons in Ht as [->|Ht]; [|rewrite Forall_forall in Hq; by apply Hq in Ht].
    destruct Hc as [m cur st' v n' Hh _ _]. simpl in Hh.
    destruct (lease_tokens w !! u) as [tok|] eqn:Etok; simpl in *; [eauto|].
    by specialize (Hne _ eq_refl).
Qed.

(** The lease fence: a transaction fenced on a user's lease modifies the
    keyspace only at an instant when the lease key holds the very token this
    worker acquired; if the lease expired or moved to another worker, at any
    point before EXEC, nothing is written. *)
Theorem fenced_update_safe u retries st w x w' :
  atomic_update h redis_key mutate kind also (Some u) retries st w = (x, w') ->
  exists l, w_log w' = l ++ w_log w /\
    forall t, t ∈ l -> t_after t <> t_before t ->
      exists token, lease_tokens w !! u = Some token /\
                    kval (key u "lease") (t_before t) = Some (RStr token).
Proof. apply fenced_changes. Qed.
End Atomic.

(** ** Runs without interference

    What a store operation returns when no other client acts in between and no
    message is lost: the functional behaviour of a transaction. *)
Section Calm.
Context {R : Type} `{RS : RedisServer R} (h : host R).
Abbreviation W := (world R).
Abbreviation sem := (spec json_render json_module).

Record calm : Prop := {
  calm_others : forall n r, others h n r = r;
  calm_link : forall n, link h n = Up;
}.
(** The process state that trips do not touch. *)
Record same_proc (w w' : W) : Prop := {
  sp_ticks : ticks w' = ticks w;
  sp_uuids : uuids w' = uuids w;
  sp_tokens : lease_tokens w' = lease_tokens w;
  sp_ttls : lease_ttls w' = lease_ttls w;
  sp_inflight : inflight w' = inflight w;
  sp_flag : json_flag w' = json_flag w;
}.
#[export] Instance same_proc_preorder : PreOrder same_proc.
Proof.
  split; [by constructor|]. intros a b c [] []. constructor; congruence.
Qed.

Lemma calm_trip {A} k (f : eff R A) w : calm ->
  exists w', round_trip h k f w = (fst (f (srv w)), w') /\ srv w' = snd (f (srv w)) /\ same_proc w w'.
Proof.
  intros [Ho Hl]. unfold round_trip. rewrite Ho, Hl. destruct (f (srv w)) as [x r].
  eexists. split; [reflexivity|]. by split.
Qed.
Lemma calm_redis c w : calm -> exists w',
  redis h c w = (fst (sem c (keyspace (srv w))), w') /\ srv w' = snd (run c (srv w)) /\
  keyspace (srv w') = snd (sem c (keyspace (srv w))) /\ same_proc w w'.
Proof.
  intros C. destruct (calm_trip (TCmd c) (call c) w C) as (w' & E & S & P).
  exists w'. unfold redis, call in *. rewrite E, run_reply, S, run_keys. done.
Qed.

(** Tokens of keys watched in state [r0] stay good across reads. *)
Definition live (r0 : R) (r : R) : Prop :=
  keyspace r = keyspace r0 /\ forall k, exec_ok (watch k r0) r = true.
Lemma live_start r : live r r.
Proof. split; [done|]. intros. apply watch_fresh. Qed.
Lemma live_read r0 c r : read_only c = true -> live r0 r -> live r0 (snd (run c r)).
Proof.
  intros Hc [K H]. assert (Hs : snd (sem c (keyspace r)) = keyspace r) by by apply read_only_spec.
  split; [by rewrite run_keys, Hs|]. intros k. by apply watch_live; [apply H|].
Qed.
Lemma calm_read c w r0 : calm -> read_only c = true -> live r0 (srv w) -> exists w',
  redis h c w = (fst (sem c (keyspace r0)), w') /\ live r0 (srv w') /\ same_proc w w'.
Proof.
  intros C Hc Hl. destruct (calm_redis c w C) as (w' & E & S & _ & P). exists w'.
  pose proof Hl as [K _]. rewrite E, K. split; [done|]. split; [|done].
  rewrite S. by apply live_read.
Qed.

(** Every command of a sequence succeeds. *)
Fixpoint seq_ok (cs : list cmd) (m : keys_t) : bool :=
  match cs with
  | [] => true
  | c :: cs => is_ok (fst (sem c m)) && seq_ok cs (snd (sem c m))
  end.
Lemma run_all_ok cs r : seq_ok cs (keyspace r) = true -> fst (run_all cs None r) = Ok tt.
Proof.
  revert r. induction cs as [|c cs IH]; intros r H; [done|]. cbn [seq_ok] in H. bool_prop.
  simpl. destruct (run c r) as [x r'] eqn:E.
  pose proof (run_reply c r) as Hx. pose proof (run_keys c r) as Hk. rewrite E in Hx, Hk.
  simpl in *. rewrite <- Hx in H. destruct x; [|done]. apply IH. by rewrite Hk.
Qed.

Lemma calm_supports_json k w : calm -> (json_flag w = None \/ json_flag w = Some json_module) ->
  exists w', _supports_json h k w = (Ok json_module, w') /\ keyspace (srv w') = keyspace (srv w) /\
    ticks w' = ticks w /\ lease_tokens w' = lease_tokens w /\ json_flag w' = Some json_module.
Proof.
  intros C Hf. unfold _supports_json, gets, catch, mbind, eff_bind.
  destruct Hf as [Hf|Hf]; rewrite Hf; [|eexists; split; [reflexivity|done]].
  clear Hf. destruct (calm_redis (JSONGET k) w C) as (w1 & E & _ & K & P).
  rewrite read_only_spec in K by done.
  rewrite E. cbn [spec fst].
  unfold no_json, json_wrongtype, raise.
  destruct json_module; [|eexists; split; [reflexivity|by destruct P; simpl]].
  destruct (kval k (keyspace (srv w))) as [[]|]; eexists; (split; [reflexivity|by destruct P; simpl]).
Qed.
Lemma calm_watch k w : calm ->
  exists w', watch_key h k w = (Ok (watch k (srv w)), w') /\ srv w' = srv w /\ same_proc w w'.
Proof. apply (calm_trip (TWatch k)). Qed.

Section Update.
Context {St A : Type} (redis_key : string) (mutate : mutation St A) (kind : container)
  (also : A -> list cmd).
Context (C : calm).

Lemma calm_watch_lease lease r0 w : srv w = r0 -> held lease (keyspace r0) ->
  exists ts w', watch_lease h lease w = (Ok ts, w') /\ same_proc w w' /\ live r0 (srv w') /\
    forall r, live r0 r -> forallb (fun t => exec_ok t r) ts = true.
Proof.
  intros Hs Hh. destruct lease as [[lk tok]|]; cbn [watch_lease].
  2:{ exists [], w. rewrite Hs. split; [done|]. split; [reflexivity|]. split; [apply live_start|done]. }
  destruct (calm_watch lk w C) as (w1 & E1 & S1 & P1).
  assert (L1 : live r0 (srv w1)) by (rewrite S1, Hs; apply live_start).
  destruct (calm_read (GET lk) w1 r0 C eq_refl L1) as (w2 & E2 & L2 & P2).
  exists [watch lk (srv w)], w2. erewrite bind_run by exact E1. simpl in Hh.
  erewrite bind_run by (rewrite E2; cbn [spec fst]; unfold kstr; rewrite Hh; reflexivity).
  cbn [of_opt is_text]. rewrite String.eqb_refl. split; [done|].
  split; [by transitivity w1|]. split; [done|].
  intros r [_ Hr]. simpl. by rewrite Hs, Hr.
Qed.

Lemma calm_finish ts t0 js (st' : St) nv res w :
  forallb (fun t => exec_ok t (srv w)) (t0 :: ts) = true ->
  seq_ok match nv with None => [] | Some v => write_cmd redis_key js (keyspace (srv w)) v :: also res end
    (keyspace (srv w)) = true ->
  exists w', finish h redis_key also (t0 :: ts)
      (match kval redis_key (keyspace (srv w)) with Some (RJson _) => true | None => js | _ => false end)
      st' nv res w = (Ok (inl res), w') /\
    keyspace (srv w') = run_seq match nv with
      | None => [] | Some v => write_cmd redis_key js (keyspace (srv w)) v :: also res end (keyspace (srv w)).
Proof.
  intros Hx Hok. unfold finish. destruct nv as [v|]; [|by eexists].
  unfold write_cmd in *. set (cmds := _ :: also res) in *. unfold catch.
  destruct (calm_trip (TExec cmds) (fun r =>
    if forallb (fun t => exec_ok t r) (t0 :: ts) then run_all cmds None r
    else (raise WatchError "Watched variable changed.", r)) w C) as (w' & E & S & P).
  rewrite Hx in E, S. rewrite run_all_ok in E by done.
  erewrite bind_run by exact E. exists w'. split; [done|].
  by rewrite S, run_all_keys.
Qed.
(** The read of an attempt, with the type it found. *)
Lemma calm_read_value js cur r0 w :
  live r0 (srv w) -> stored redis_key kind (keyspace r0) = Some cur ->
  (forall v, kval redis_key (keyspace r0) = Some (RJson v) -> json_module = true) ->
  exists ty raw w', fst (sem (TYPE redis_key) (keyspace r0)) = Ok ty /\
    read_value h redis_key ty w = (Ok raw, w') /\ live r0 (srv w') /\ same_proc w w' /\
    decode_current kind raw = cur /\
    negb ((_redis_type_name ty =? "string")%string || _is_redis_json_type (_redis_type_name ty) ||
          (_redis_type_name ty =? "none")%string) = false /\
    _is_redis_json_type (_redis_type_name ty) || ((_redis_type_name ty =? "none")%string && js) =
      match kval redis_key (keyspace r0) with Some (RJson _) => true | None => js | _ => false end.
Proof.
  intros L Hs Hj. unfold stored in Hs. cbn [spec fst].
  destruct (kval redis_key (keyspace r0)) as [[s|v|l|x]|] eqn:E; try discriminate Hs;
    injection Hs as <-; eexists.
  - destruct (calm_read (GET redis_key) w r0 C eq_refl L) as (w' & E1 & L1 & P1).
    exists (RText s), w'. split; [reflexivity|]. split; [|done].
    change (redis h (GET redis_key) w = (Ok (RText s), w')). rewrite E1. cbn [spec fst].
    unfold kstr. by rewrite E.
  - destruct (calm_read (JSONGET redis_key) w r0 C eq_refl L) as (w' & E1 & L1 & P1).
    exists (RText (json_render v)), w'. split; [reflexivity|]. split; [|done].
    change (redis h (JSONGET redis_key) w = (Ok (RText (json_render v)), w')). rewrite E1.
    cbn [spec fst]. by rewrite E, (Hj v).
  - exists RNil, w. split; [reflexivity|]. split; [done|]. split; [done|]. split; [reflexivity|].
    split; [done|]. split; [done|]. by destruct js.
Qed.

Lemma calm_attempt lease js st cur st' nv a n' w :
  held lease (keyspace (srv w)) -> stored redis_key kind (keyspace (srv w)) = Some cur ->
  (forall v, kval redis_key (keyspace (srv w)) = Some (RJson v) -> json_module = true) ->
  mutate st cur (ticks w) = (Ok (st', nv, a), n') ->
  let cmds := match nv with
    | None => [] | Some v => write_cmd redis_key js (keyspace (srv w)) v :: also a end in
  seq_ok cmds (keyspace (srv w)) = true ->
  exists w', attempt h redis_key mutate kind also lease js st w = (Ok (inl a), w') /\
    keyspace (srv w') = run_seq cmds (keyspace (srv w)).
Proof.
  intros Hh Hs Hj Hm cmds Hok. unfold attempt.
  destruct (calm_watch redis_key w C) as (w1 & E1 & S1 & P1). erewrite bind_run by exact E1.
  destruct (calm_watch_lease lease (srv w) w1 S1 Hh) as (ts & w2 & E2 & P2 & L2 & X2).
  erewrite bind_run by exact E2.
  destruct (calm_read (TYPE redis_key) w2 (srv w) C eq_refl L2) as (w3 & E3 & L3 & P3).
  destruct (calm_read_value js cur (srv w) w3 L3 Hs Hj)
    as (ty & raw & w4 & Hty & E4 & L4 & P4 & Hd & Hn & Hb).
  erewrite bind_run by (rewrite E3, Hty; reflexivity). cbv zeta. rewrite Hn.
  erewrite bind_run by exact E4. rewrite Hd.
  assert (T : ticks w4 = ticks w).
  { by rewrite (sp_ticks _ _ P4), (sp_ticks _ _ P3), (sp_ticks _ _ P2), (sp_ticks _ _ P1). }
  unfold with_ticks at 1, mbind at 1, eff_bind at 1. rewrite T, Hm, Hb.
  match goal with |- context [World ?a ?b ?c ?d ?e ?f ?g ?i ?j] =>
    set (w5 := World a b c d e f g i j) end.
  destruct (calm_finish ts (watch redis_key (srv w)) js st' nv a w5) as (w' & E & K).
  - cbn [forallb]. pose proof (proj2 L4 redis_key) as Hx. pose proof (X2 _ L4) as Hy.
    unfold w5. cbn [srv]. by rewrite Hx, Hy.
  - simpl. destruct L4 as [-> _]. exact Hok.
  - exists w'. simpl in E, K. destruct L4 as [K4 _]. rewrite K4 in E, K. by split.
Qed.
(** The worker holds the lease a fenced update asks for. *)
Definition lease_ready (lease_user : option string) (w : W) : Prop :=
  match lease_user with
  | None => True
  | Some u => exists token, token <> "" /\ lease_tokens w !! u = Some token /\
                            kval (key u "lease") (keyspace (srv w)) = Some (RStr token)
  end.
Lemma lease_ready_run lease_user (w : W) : lease_ready lease_user w ->
  exists lease, held lease (keyspace (srv w)) /\ lease_fence lease_user w = (Ok lease, w).
Proof.
  destruct lease_user as [u|]; [|by exists None]. intros (token & Hne & Ht & Hk).
  exists (Some (key u "lease", token)). split; [done|]. unfold lease_fence, gets, mbind, eff_bind, mret, eff_ret.
  cbv beta iota zeta. rewrite Ht.
  change (default "" (Some token)) with token. by destruct (String.eqb_spec token "").
Qed.

Lemma atomic_update_run lease_user retries st cur st' nv a n' w :
  (json_flag w = None \/ json_flag w = Some json_module) -> lease_ready lease_user w ->
  stored redis_key kind (keyspace (srv w)) = Some cur ->
  (forall v, kval redis_key (keyspace (srv w)) = Some (RJson v) -> json_module = true) ->
  mutate st cur (ticks w) = (Ok (st', nv, a), n') ->
  let cmds := match nv with
    | None => [] | Some v => write_cmd redis_key json_module (keyspace (srv w)) v :: also a end in
  seq_ok cmds (keyspace (srv w)) = true ->
  exists w', atomic_update h redis_key mutate kind also lease_user retries st w = (Ok a, w') /\
    keyspace (srv w') = run_seq cmds (keyspace (srv w)).
Proof.
  intros Hf Hr Hs Hj Hm cmds Hok. unfold atomic_update.
  destruct (lease_ready_run lease_user w Hr) as (lease & Hh & El).
  erewrite bind_run by exact El.
  destruct (calm_supports_json redis_key w C Hf) as (w1 & E1 & K1 & T1 & _ & _).
  erewrite bind_run by exact E1. subst cmds. rewrite <- K1 in Hh, Hs, Hj, Hok |- *. rewrite <- T1 in Hm.
  destruct (Z.to_nat (Z.max 1 retries)) as [|n] eqn:En; [lia|]. cbn [attempts].
  destruct (calm_attempt lease json_module st cur st' nv a n' w1 Hh Hs Hj Hm Hok) as (w2 & E2 & K2).
  exists w2. erewrite bind_run by exact E2. done.
Qed.

(** Progress of [atomic_update]: without interference and with the lease
    in hand, it returns the mutation's result and leaves exactly the
    mutation's effect on the keyspace, for a missing, string or RedisJSON key
    alike; retries and the fence never get in the way. *)
Theorem atomic_update_progress lease_user retries st cur st' nv a n' w :
  (json_flag w = None \/ json_flag w = Some json_module) -> lease_ready lease_user w ->
  stored redis_key kind (keyspace (srv w)) = Some cur ->
  (forall v, kval redis_key (keyspace (srv w)) = Some (RJson v) -> json_module = true) ->
  mutate st cur (ticks w) = (Ok (st', nv, a), n') ->
  let cmds := match nv with
    | None => [] | Some v => write_cmd redis_key json_module (keyspace (srv w)) v :: also a end in
  seq_ok cmds (keyspace (srv w)) = true ->
  exists w', atomic_update h redis_key mutate kind also lease_user retries st w = (Ok a, w') /\
    keyspace (srv w') = run_seq cmds (keyspace (srv w)).
Proof. apply atomic_update_run. Qed.
End Update.
End Calm.
