(* ===== verification/OpLaws.v ===== *)
(** * Laws of the stored records

    Bounds of the configuration values, what the mutations of [StoreOps] do to
    run, feed and goal lists, and the scheduled enqueue. *)
From S2P Require Import Prelude PyStr PyFloat PyVal Json JsonRoundtrip Redis PyUrl Sha Dedupe DedupeLaws.
From S2P Require Import World Store StoreOps Trace StoreLaws.
#[local] Open Scope Z_scope.

(** ** Bounds *)
Lemma schedule_interval_range v :
  MIN_SCHEDULE_INTERVAL_SECONDS <= schedule_interval_seconds v <= MAX_SCHEDULE_INTERVAL_SECONDS.
Proof.
  unfold schedule_interval_seconds, MIN_SCHEDULE_INTERVAL_SECONDS, MAX_SCHEDULE_INTERVAL_SECONDS.
  cbv zeta. repeat case_goal; lia.
Qed.
(** The effective schedule interval lies within the dashboard's bounds for
    every stored value, whatever its type, and keeps every integer that is
    already within them: no degenerate scheduling loop is possible. *)
Theorem schedule_interval_bounds v :
  MIN_SCHEDULE_INTERVAL_SECONDS <= schedule_interval_seconds v <= MAX_SCHEDULE_INTERVAL_SECONDS /\
  (forall n, v = VInt n -> MIN_SCHEDULE_INTERVAL_SECONDS <= n <= MAX_SCHEDULE_INTERVAL_SECONDS ->
     schedule_interval_seconds v = n).
Proof.
  split; [apply schedule_interval_range|]. intros n -> Hn.
  unfold schedule_interval_seconds, MIN_SCHEDULE_INTERVAL_SECONDS, MAX_SCHEDULE_INTERVAL_SECONDS in *.
  cbn [is_bool py_int]. destruct (n <=? 0) eqn:E; bool_prop; lia.
Qed.

Lemma bounded_range v def maximum n : 1 <= maximum -> 1 <= def <= maximum ->
  _bounded v def maximum = Ok n -> 1 <= n <= maximum.
Proof.
  unfold _bounded. intros Hm Hd H. repeat case_hyp H; try discriminate H; injection H as <-; lia.
Qed.

(** ** Runs *)
Lemma runs_without_spec i l out : runs_without i l = Ok out ->
  out `sublist_of` l /\ (forall r, r ∈ out <-> r ∈ l /\ exists d, r = VDict d /\ py_eq (dget "id" d) i = false).
Proof.
  revert out. induction l as [|r l IH]; intros out H; simpl in H.
  { injection H as <-. split; [constructor|]. set_solver. }
  apply bind_ok in H as (j & Hj & H). apply bind_ok in H as (rest & Hr & H).
  destruct (IH _ Hr) as [Hs Hin]. destruct r as [| | | | | |d]; try discriminate Hj.
  injection Hj as <-. destruct (py_eq (dget "id" d) i) eqn:E; injection H as <-.
  - split; [by apply sublist_cons|]. intros r. rewrite Hin, elem_of_cons.
    split; [tauto|]. intros [[->|?] (d' & Hd & He)]; [|eauto]. injection Hd as <-. congruence.
  - split; [by apply sublist_skip|]. intros r. rewrite !elem_of_cons, Hin. split; [|naive_solver].
    intros [->|?]; naive_solver.
Qed.

(** Upserting a run puts it first, keeps at most the configured number of
    records, removes every older record of the same run, and only drops other
    runs when the cap is exceeded; their order is kept. *)
Theorem upsert_keeps_runs run max_runs current out :
  1 <= max_runs -> runs_upserted run max_runs current = Ok out ->
  exists rest, out = VDict run :: rest /\ Z.of_nat (length out) <= max_runs /\
    rest `sublist_of` current /\
    (forall d, VDict d ∈ rest -> py_eq (dget "id" d) (dget "id" run) = false) /\
    (Z.of_nat (length current) < max_runs ->
     forall d, VDict d ∈ current -> py_eq (dget "id" d) (dget "id" run) = false -> VDict d ∈ rest).
Proof.
  intros Hm H. unfold runs_upserted in H. apply bind_ok in H as (runs & Hr & [= <-]).
  apply runs_without_spec in Hr as [Hs Hin].
  unfold py_take. destruct (Z.ltb_spec max_runs 0); [lia|].
  destruct (Z.to_nat max_runs) as [|k] eqn:Ek; [lia|]. cbn [firstn].
  exists (firstn k runs). split; [done|]. split; [cbn [length]; rewrite length_firstn; lia|].
  split; [etrans; [apply sublist_take|done]|]. split.
  - intros d Hd. apply elem_of_take in Hd as (i & Hi & _). apply list_elem_of_lookup_2, Hin in Hi.
    destruct Hi as (_ & d' & [= <-] & ?). done.
  - intros Hlen d Hd He. apply sublist_length in Hs. rewrite firstn_all2 by lia.
    apply Hin. split; [done|]. eauto.
Qed.

Lemma aborted_status summary ts d : dget "status" (aborted_run summary ts d) = VStr "aborted".
Proof.
  unfold aborted_run, dmerge. cbn [fold_left fst snd]. by rewrite !dget_dset_ne, dget_dset by done.
Qed.
Lemma closed_running summary ts r :
  (running r = true /\ exists d, r = VDict d /\ closed summary ts r = Some (aborted_run summary ts d)) \/
  (running r = false /\ closed summary ts r = None).
Proof.
  unfold closed. destruct (running r) eqn:E; [left|right]; destruct r; try discriminate E; eauto.
Qed.

(** Closing interrupted runs leaves no record "running", reports exactly
    the records it closed, touches no other record and keeps the order. *)
Theorem abort_closes_running summary ts current :
  let '(runs, aborted) := runs_aborted summary ts current in
  existsb running runs = false /\ length runs = length current /\
  length aborted = length (List.filter running current) /\
  (forall i r, current !! i = Some r -> running r = false -> runs !! i = Some r) /\
  (forall d, d ∈ aborted -> dget "status" d = VStr "aborted").
Proof.
  unfold runs_aborted. split; [|split; [by rewrite length_map|split; [|split]]].
  - induction current as [|r current IH]; [done|]. cbn [map existsb]. rewrite IH, orb_false_r.
    destruct (closed_running summary ts r) as [(_ & d & _ & ->)|[? ->]]; [|done].
    unfold running. by rewrite aborted_status.
  - induction current as [|r current IH]; [done|]. cbn [List.filter].
    change (omap (closed summary ts) (r :: current)) with
      (match closed summary ts r with
       | Some y => y :: omap (closed summary ts) current | None => omap (closed summary ts) current end).
    destruct (closed_running summary ts r) as [(Hr & d & _ & Hc)|[Hr Hc]];
      rewrite Hr, Hc; cbn [length]; by rewrite ?IH.
  - intros i r Hi Hr. rewrite list_lookup_fmap, Hi. simpl.
    destruct (closed_running summary ts r) as [[? _]|[_ ->]]; [congruence|done].
  - intros d Hd. apply list_elem_of_omap in Hd as (r & _ & Hr).
    destruct (closed_running summary ts r) as [(_ & d' & _ & E)|[_ E]]; rewrite E in Hr; [|done].
    injection Hr as <-. apply aborted_status.
Qed.

(** ** Feed *)
(** Appending to the feed: the stored items are a prefix of the new feed,
    the feed never exceeds its cap, the older entries keep their order behind
    them, and with de-duplication on, every stored item is novel against the
    items stored before it and the feed it was merged into. *)
Theorem feed_merge_sound enabled window_ms max_items now items feed items' feed' stored :
  1 <= max_items ->
  feed_merged enabled window_ms max_items now items feed = Ok (items', Some (VList feed'), stored) ->
  stored `prefix_of` feed' /\
  (stored <> [] -> Z.of_nat (length feed') <= max_items) /\
  (exists kept, feed' `prefix_of` kept ++ feed /\ stored `prefix_of` kept /\
     (stored = [] -> feed' = feed)) /\
  (enabled = true -> forall j x, stored !! j = Some x ->
     published now window_ms items (take j stored ++ feed) x).
Proof.
  unfold feed_merged. intros Hm H. apply bind_ok in H as ([after kept] & Hk & H).
  assert (Htk : forall A (l : list A), py_take max_items l = firstn (Z.to_nat max_items) l).
  { intros A l. unfold py_take. destruct (Z.ltb_spec max_items 0); [lia|done]. }
  destruct kept as [|k kept].
  { injection H as <- <- <-. split; [by apply prefix_nil|]. split; [done|].
    split; [|done]. exists []. split; [done|]. split; [done|done]. }
  set (ks := k :: kept) in *. injection H as <- <- <-. change (k :: kept ++ feed) with (ks ++ feed).
  rewrite !Htk.
  assert (Hp : forall (l : list value) n, firstn n l `prefix_of` l).
  { intros l n. exists (skipn n l). by rewrite firstn_skipn. }
  split; [|split; [|split]].
  - rewrite firstn_app. by apply prefix_app_r.
  - intros _. rewrite length_firstn. lia.
  - exists ks. split; [apply Hp|]. split; [apply Hp|].
    destruct (Z.to_nat max_items) eqn:E; [lia|]. done.
  - intros -> j x Hj. apply bind_ok in Hk as ([[kp dr] af] & Hd & [= -> ->]).
    apply dedupe_go_batch in Hd as (k' & d' & a' & -> & -> & -> & Hb). simpl in *.
    apply lookup_take_Some in Hj as [Hj Hlt].
    rewrite take_take, Nat.min_l by lia.
    by apply (batch_published _ _ _ [] _ _ _ _ Hb).
Qed.

(** ** Scheduled runs *)
Lemma vor_int n : n <> 0 -> vor (VInt n) (VInt 0) = VInt n.
Proof. intros H. unfold vor, truthy. by destruct (Z.eqb_spec n 0). Qed.
(** A slot is enqueued at most once: right after the marker of a scheduled
    run is committed, the same configuration is not due again for at least
    the schedule interval (never less than five minutes). *)
Theorem due_once user_id ts stored current later_ms :
  dict_wf stored -> 0 < current -> later_ms - current < MIN_SCHEDULE_INTERVAL_SECONDS * 1000 ->
  due later_ms (dmerge (default_config ts user_id)
    (dmerge stored [("lastScheduledRunAt", VInt current); ("updatedAt", VInt current)])) = false.
Proof.
  intros Hwf Hc Hl. unfold due. destruct (negb _); [done|]. cbv zeta.
  set (cfg := dmerge _ _).
  assert (E : dget "lastScheduledRunAt" cfg = VInt current).
  { subst cfg. unfold dget. rewrite dlookup_dmerge by by apply dmerge_wf.
    unfold dmerge. cbn [fold_left fst snd]. by rewrite !dlookup_dset. }
  rewrite E, vor_int by lia. cbn [py_int].
  pose proof (schedule_interval_range (dget "intervalSeconds" cfg)).
  apply orb_false_iff. split; [apply Z.eqb_neq|apply Z.leb_gt]; lia.
Qed.

(** ** What the store's operations do on the server

    Per operation: which keys its round trips can change and how, whatever
    other clients do meanwhile. *)
Lemma key_ne u a b : a <> b -> key u a <> key u b.
Proof. intros H E. unfold key in E. apply H. by apply append_inj_l, append_inj_l, append_inj_l in E. Qed.
#[export] Hint Resolve key_ne : daedalus.

(** A trip that leaves key [k] as it was. *)
Definition frame (k : string) (t : trip) : Prop := t_after t !! k = t_before t !! k.
Lemma frame_quiet k t : quiet t -> frame k t.
Proof. unfold quiet, frame. by intros ->. Qed.

Section Ops.
Context {R : Type} `{RS : RedisServer R} (h : host R).
Abbreviation W := (world R).
Hypothesis others_later : forall n r, later r (others h n r).

Lemma emits_json_get k fb : emits quiet (json_get h k fb).
Proof.
  unfold json_get. apply emits_bind; [apply emits_supports_json|]. intros j.
  apply emits_bind; [|intros; case_goal; [apply emits_ret|apply emits_lift]].
  destruct j; [|by apply emits_read].
  apply emits_catch; [by apply emits_read|]. intros e.
  case_goal; [by apply emits_read|apply emits_lift].
Qed.
Lemma emits_publish u ty d : emits quiet (publish h u ty d).
Proof.
  unfold publish. apply emits_bind; [apply emits_now|]. intros ts.
  apply emits_bind; [by apply emits_read|]. intros. apply emits_ret.
Qed.
(** The trips of an update: quiet, or a commit. *)
Lemma emits_update {St A} k (mutate : mutation St A) kind also lease retries st :
  emits (fun t => quiet t \/ exists lse js st n a, commit k mutate kind also lse js st n a t)
    (atomic_update h k mutate kind also lease retries st).
Proof.
  intros w x w' E. apply (atomic_update_spec h others_later) in E as (l & Hl & H & _).
  exists l. split; [done|]. inversion H as [l0 Hq _|js st0 n a t0 l0 Hc Hq _]; subst.
  - eapply Forall_impl; [exact Hq|]. auto.
  - constructor; [right; eauto 10|]. eapply Forall_impl; [exact Hq|]. auto.
Qed.
Lemma writes_write_cmd k js m v : writes (write_cmd k js m v) = [k].
Proof. unfold write_cmd. cbv zeta. by destruct (match kval k m with Some _ => _ | None => _ end). Qed.
Lemma commit_frame {St A} k (mutate : mutation St A) kind also lse js st n a t k' :
  k' <> k -> (forall c, c ∈ also a -> k' ∉ writes c) ->
  commit k mutate kind also lse js st n a t -> frame k' t.
Proof.
  intros Hk Ha H. destruct H. unfold frame. cbn [t_after t_before]. apply run_seq_frame.
  intros c [->|Hc]%elem_of_cons; [|by apply Ha].
  rewrite writes_write_cmd. set_solver.
Qed.
Lemma emits_update_frame {St A} k (mutate : mutation St A) kind also lease retries st k' :
  k' <> k -> (forall a c, c ∈ also a -> k' ∉ writes c) ->
  emits (frame k') (atomic_update h k mutate kind also lease retries st).
Proof.
  intros Hk Ha. eapply emits_impl; [|apply emits_update].
  intros t [Hq|(lse & js & st0 & n & a & Hc)]; [by apply frame_quiet|].
  eapply commit_frame; eauto.
Qed.
Lemma emits_get_config u k' : k' <> key u "config" -> emits (frame k') (get_config h u).
Proof.
  intros Hk. unfold get_config.
  apply emits_bind; [eapply emits_impl; [apply frame_quiet|apply emits_json_get]|].
  intros v. assert (U : emits (frame k') (
    stored ← update h (key u "config") ADict None (config_created h u);
    ts ← now_ms h; mret (dmerge (default_config ts u) (as_dict stored)))).
  { apply emits_bind; [apply emits_update_frame; [done|set_solver]|]. intros s.
    apply emits_bind; [apply emits_now|]. intros. apply emits_ret. }
  destruct v; try exact U. apply emits_bind; [apply emits_now|]. intros. apply emits_ret.
Qed.

(** ** Scheduled enqueue *)
(** The transaction that queues a scheduled run: it read the stored
    configuration, found it due, and writes the marker with the request. *)
Definition enqueued (u : string) (current : Z) (t : trip) : Prop :=
  exists d ts js,
    stored (key u "config") ADict (t_before t) = Some (VDict d) /\ d <> [] /\
    due current (dmerge (default_config ts u) d) = true /\
    t_after t = run_seq
      [write_cmd (key u "config") js (t_before t)
         (VDict (dmerge d [("lastScheduledRunAt", VInt current); ("updatedAt", VInt current)]));
       LPUSH (key u "queue") (dumps (VDict (scheduled_request current)))] (t_before t).

Lemma commit_enqueued u current lse js st n a t :
  commit (key u "config") (stateless (mark_due h u current)) ADict
    (enqueue u (scheduled_request current)) lse js st n a t ->
  enqueued u current t.
Proof.
  intros H. destruct H as [m cur st' v n' _ Hs Hm]. unfold enqueued. cbn [t_before t_after].
  unfold stateless, mark_due, tick, mret, eff_ret, mbind, eff_bind in Hm. cbv beta iota zeta in Hm.
  destruct (_ || _) eqn:Eo in Hm; [discriminate Hm|]. bool_prop.
  injection Hm as _ <- <- _.
  destruct cur as [| | | | | |d]; try (by destruct H). cbn [as_dict] in *.
  exists d, (clock h n), js. split; [done|]. split; [done|]. split; [done|]. reflexivity.
Qed.

(** Scheduling is atomic: the only round trip of [maybe_enqueue_scheduled]
    that can change the queue is one transaction that read a stored
    configuration which was due at that instant and commits the queue entry
    together with the slot marker; nothing else touches the queue. *)
Theorem scheduled_enqueue_atomic u w x w' :
  maybe_enqueue_scheduled h u w = (x, w') ->
  exists current l, w_log w' = l ++ w_log w /\
    Forall (fun t => frame (key u "queue") t \/ enqueued u current t) l.
Proof.
  intros E. unfold maybe_enqueue_scheduled in E.
  step E current w1 E1; [|done]. exists current.
  assert (Hlog : w_log w1 = w_log w) by (by injection E1 as _ <-). rewrite <- Hlog. clear E1 Hlog.
  set (P := fun t => frame (key u "queue") t \/ enqueued u current t).
  assert (L : forall t, frame (key u "queue") t -> P t) by (intros; by left).
  revert E. generalize w1 x w'. apply emits_bind.
  { eapply emits_impl; [exact L|]. apply emits_get_config. by apply key_ne. }
  intros config. case_goal; [apply emits_ret|]. cbv zeta. apply emits_bind.
  - eapply emits_impl; [|apply emits_update]. intros t [Hq|(lse & js & st & n & a & Hc)].
    + by apply L, frame_quiet.
    + right. by eapply commit_enqueued.
  - intros s. assert (Pub : forall ty d, emits P (publish h u ty d)).
    { intros. eapply emits_impl; [|apply emits_publish]. intros. by apply L, frame_quiet. }
    destruct s as [cfg|]; [|apply emits_ret].
    apply emits_bind; [apply Pub|]. intros _. apply emits_bind; [apply Pub|]. intros. apply emits_ret.
Qed.
End Ops.
