(* ===== verification/Queue.v ===== *)
(** * The reliable queue as a protocol between workers

    The queue, processing list and claim phases of one user, and the steps
    that producers and any number of workers can interleave, crashes included.
    [QueueLaws] shows that the store's commands and Lua scripts are exactly
    these steps; here: whatever the interleaving, a request reaches the
    backend at most once. *)
From S2P Require Import Prelude.
#[local] Open Scope Z_scope.

(** Both lists have their newest element first (LPUSH side). *)
Record aq := AQ { a_queue : list string; a_proc : list string; a_phase : gmap string string }.

Definition a_enqueue (raw : string) (a : aq) : aq := AQ (raw :: a_queue a) (a_proc a) (a_phase a).
(** RPOPLPUSH: the oldest request moves to the processing list. *)
Definition a_claim (a : aq) : option (string * aq) :=
  match last (a_queue a) with
  | Some raw => Some (raw, AQ (removelast (a_queue a)) (raw :: a_proc a) (a_phase a))
  | None => None
  end.
Definition a_record (raw : string) (a : aq) : aq :=
  AQ (a_queue a) (a_proc a) (<[raw := "claimed"]> (a_phase a)).
Definition a_mark (raw : string) (a : aq) : option aq :=
  if bool_decide (a_phase a !! raw = Some "claimed")
  then Some (AQ (a_queue a) (a_proc a) (<[raw := "started"]> (a_phase a))) else None.
Fixpoint drop_first (v : string) (l : list string) : list string :=
  match l with [] => [] | x :: xs => if (x =? v)%string then xs else x :: drop_first v xs end.
(** LREM and HDEL, or only one of them when the worker dies in between. *)
Definition a_remove (raw : string) (a : aq) : aq := AQ (a_queue a) (drop_first raw (a_proc a)) (a_phase a).
Definition a_forget (raw : string) (a : aq) : aq := AQ (a_queue a) (a_proc a) (delete raw (a_phase a)).
Definition a_complete (raw : string) (a : aq) : aq := a_forget raw (a_remove raw a).
(** The reclaim loop: newest claim first, undispatched ones back to the queue's
    consuming end. *)
Fixpoint requeue (l : list string) (q : list string) (phase : gmap string string) : list string :=
  match l with
  | [] => q
  | x :: l => requeue l (if bool_decide (phase !! x = Some "claimed") then q ++ [x] else q)
                (delete x phase)
  end.
Definition a_reclaim (a : aq) : aq := AQ (requeue (a_proc a) (a_queue a) (a_phase a)) [] ∅.
Definition a_clear (a : aq) : aq :=
  match a_proc a with [] => AQ (a_queue a) [] ∅ | _ => a end.

(** ** Workers *)
(** [Pending]: moved to processing, phase not recorded yet; [Ready]: claimed
    and recorded; [Started]: the phase script succeeded, the backend request is
    about to be sent. *)
Inductive wphase := Idle | Pending (raw : string) | Ready (raw : string) | Started (raw : string).
Definition worker := nat.
Record sys := Sys {
  s_q : aq;
  s_ws : worker -> wphase;
  s_seen : list string;    (* every request ever enqueued *)
  s_marked : list string;  (* requests whose dispatch was fenced *)
  s_sent : list string;    (* requests sent to the backend *)
}.
Definition upd (ws : worker -> wphase) (i : worker) (p : wphase) : worker -> wphase :=
  fun j => if Nat.eqb j i then p else ws j.

Inductive step : sys -> sys -> Prop :=
| st_enqueue raw s :
    raw ∉ s_seen s ->
    step s (Sys (a_enqueue raw (s_q s)) (s_ws s) (raw :: s_seen s) (s_marked s) (s_sent s))
| st_claim i raw a s :
    s_ws s i = Idle -> a_claim (s_q s) = Some (raw, a) ->
    step s (Sys a (upd (s_ws s) i (Pending raw)) (s_seen s) (s_marked s) (s_sent s))
| st_record i raw s :
    s_ws s i = Pending raw ->
    step s (Sys (a_record raw (s_q s)) (upd (s_ws s) i (Ready raw)) (s_seen s) (s_marked s) (s_sent s))
| st_mark i raw a s :
    s_ws s i = Ready raw -> a_mark raw (s_q s) = Some a ->
    step s (Sys a (upd (s_ws s) i (Started raw)) (s_seen s) (raw :: s_marked s) (s_sent s))
| st_send i raw s :
    s_ws s i = Started raw ->
    step s (Sys (s_q s) (upd (s_ws s) i Idle) (s_seen s) (s_marked s) (raw :: s_sent s))
| st_remove raw s :
    step s (Sys (a_remove raw (s_q s)) (s_ws s) (s_seen s) (s_marked s) (s_sent s))
| st_forget raw s :
    step s (Sys (a_forget raw (s_q s)) (s_ws s) (s_seen s) (s_marked s) (s_sent s))
| st_reclaim s :
    step s (Sys (a_reclaim (s_q s)) (s_ws s) (s_seen s) (s_marked s) (s_sent s))
| st_clear s :
    step s (Sys (a_clear (s_q s)) (s_ws s) (s_seen s) (s_marked s) (s_sent s))
| st_crash i s :
    step s (Sys (s_q s) (upd (s_ws s) i Idle) (s_seen s) (s_marked s) (s_sent s)).

Definition initial : sys := Sys (AQ [] [] ∅) (fun _ => Idle) [] [] [].
Definition reachable (s : sys) : Prop := rtc step initial s.

(** ** The invariant *)
Record inv (s : sys) : Prop := {
  inv_nodup : NoDup (a_queue (s_q s) ++ a_proc (s_q s));
  inv_seen_q : forall r, r ∈ a_queue (s_q s) ++ a_proc (s_q s) -> r ∈ s_seen s;
  inv_seen_p : forall r, is_Some (a_phase (s_q s) !! r) -> r ∈ s_seen s;
  inv_seen_w : forall i r, s_ws s i = Pending r \/ s_ws s i = Started r -> r ∈ s_seen s;
  inv_seen_m : forall r, r ∈ s_marked s -> r ∈ s_seen s;
  inv_queue : forall r, r ∈ a_queue (s_q s) ->
    a_phase (s_q s) !! r = None /\ r ∉ s_marked s /\ forall i, s_ws s i <> Pending r;
  inv_pending : forall i r, s_ws s i = Pending r ->
    a_phase (s_q s) !! r = None /\ r ∉ s_marked s;
  inv_unique : forall i j r, s_ws s i = Pending r -> s_ws s j = Pending r -> i = j;
  inv_marked : forall r, r ∈ s_marked s -> a_phase (s_q s) !! r <> Some "claimed";
  inv_once : NoDup (s_marked s);
  inv_sent : forall r, r ∈ s_sent s -> r ∈ s_marked s;
  inv_started : forall i r, s_ws s i = Started r -> r ∈ s_marked s /\ r ∉ s_sent s;
  inv_started_unique : forall i j r, s_ws s i = Started r -> s_ws s j = Started r -> i = j;
  inv_sent_once : NoDup (s_sent s);
}.

(** *** List facts *)
Lemma drop_first_sublist v l : drop_first v l `sublist_of` l.
Proof.
  induction l as [|x l IH]; simpl; [constructor|].
  destruct (x =? v)%string; [by apply sublist_cons|by apply sublist_skip].
Qed.
Lemma requeue_elem l q ph r : r ∈ requeue l q ph -> r ∈ q \/ (r ∈ l /\ ph !! r = Some "claimed").
Proof.
  revert q ph. induction l as [|x l IH]; intros q ph H; simpl in H; [by left|].
  apply IH in H as [H|[Hl Hp]].
  - case_bool_decide; [apply elem_of_app in H as [?|?]|]; set_solver.
  - right. rewrite lookup_delete_Some in Hp. set_solver.
Qed.
Lemma requeue_nodup l q ph : NoDup (q ++ l) -> NoDup (requeue l q ph).
Proof.
  revert q ph. induction l as [|x l IH]; intros q ph H; simpl; [by rewrite List.app_nil_r in H|].
  apply IH. case_bool_decide; [by rewrite <- List.app_assoc|].
  eapply sublist_NoDup; [exact H|]. apply sublist_app; [done|]. by apply sublist_cons.
Qed.
Lemma filter_same {A} (P Q : A -> Prop) `{!forall x, Decision (P x), !forall x, Decision (Q x)} (l : list A) :
  (forall x, x ∈ l -> P x <-> Q x) -> filter P l = filter Q l.
Proof.
  induction l as [|x l IH]; intros HPQ; [done|].
  rewrite !filter_cons, IH by (intros; apply HPQ; by apply list_elem_of_further).
  assert (P x <-> Q x) by (apply HPQ; apply list_elem_of_here). repeat case_decide; naive_solver.
Qed.
(** Without repetitions, the claimed entries of [l], in order. *)
Lemma requeue_filter l q ph : NoDup l ->
  requeue l q ph = q ++ filter (fun r => ph !! r = Some "claimed") l.
Proof.
  intros H. revert q ph. induction H as [|x l Hx Hl IH]; intros q ph; [by rewrite List.app_nil_r|].
  cbn [requeue]. rewrite IH.
  assert (E : filter (fun r => delete x ph !! r = Some "claimed") l =
              filter (fun r => ph !! r = Some "claimed") l).
  { apply filter_same. intros y Hy. rewrite lookup_delete_ne; [done|]. by intros ->. }
  rewrite E. rewrite filter_cons. case_bool_decide; case_decide; try done.
  by rewrite <- List.app_assoc.
Qed.
Lemma claim_spec a raw a' : a_claim a = Some (raw, a') ->
  a_queue a = a_queue a' ++ [raw] /\ a_proc a' = raw :: a_proc a /\ a_phase a' = a_phase a.
Proof.
  unfold a_claim. destruct (last (a_queue a)) as [x|] eqn:E; [|done]. intros [= <- <-]. simpl.
  split; [|done]. apply last_Some in E as [l ->]. by rewrite removelast_last.
Qed.
Lemma mark_spec a raw a' : a_mark raw a = Some a' ->
  a_phase a !! raw = Some "claimed" /\ a_queue a' = a_queue a /\ a_proc a' = a_proc a /\
  a_phase a' = <[raw := "started"]> (a_phase a).
Proof. unfold a_mark. case_bool_decide; [|done]. by intros [= <-]. Qed.

Lemma upd_eq ws i p : upd ws i p i = p.
Proof. unfold upd. by rewrite Nat.eqb_refl. Qed.
Lemma upd_cases ws i p j : upd ws i p j = p /\ j = i \/ upd ws i p j = ws j /\ j <> i.
Proof. unfold upd. destruct (Nat.eqb_spec j i); auto. Qed.
Lemma upd_other ws i p j q : p <> q -> upd ws i p j = q -> ws j = q /\ j <> i.
Proof. destruct (upd_cases ws i p j) as [[-> _]|[-> ?]]; [congruence|auto]. Qed.

(** *** Preservation *)
(** Steps that only shrink the data: same workers, fewer entries and phases. *)
Lemma inv_shrink s a :
  inv s -> (a_queue a ++ a_proc a) `sublist_of` (a_queue (s_q s) ++ a_proc (s_q s)) ->
  (forall r, r ∈ a_queue a -> r ∈ a_queue (s_q s)) ->
  a_phase a ⊆ a_phase (s_q s) ->
  inv (Sys a (s_ws s) (s_seen s) (s_marked s) (s_sent s)).
Proof.
  intros I Hs Hq Hp.
  assert (Hn : forall r, a_phase (s_q s) !! r = None -> a_phase a !! r = None).
  { intros r Hr. by eapply lookup_weaken_None. }
  destruct I. constructor; simpl; auto.
  - eapply sublist_NoDup; [exact inv_nodup0|done].
  - intros r Hr. apply inv_seen_q0. eapply elem_of_submseteq; [exact Hr|by apply sublist_submseteq].
  - intros r [v Hv]. apply inv_seen_p0. exists v. by eapply lookup_weaken.
  - intros r Hr. destruct (inv_queue0 r (Hq r Hr)) as (? & ? & ?). auto.
  - intros i r Hr. destruct (inv_pending0 i r Hr). auto.
  - intros r Hr E. apply (inv_marked0 r Hr). by eapply lookup_weaken.
Qed.
Lemma inv_reclaim s : inv s ->
  inv (Sys (a_reclaim (s_q s)) (s_ws s) (s_seen s) (s_marked s) (s_sent s)).
Proof.
  intros I. destruct I. constructor; simpl; auto.
  - rewrite List.app_nil_r. by apply requeue_nodup.
  - intros r Hr. rewrite List.app_nil_r in Hr. apply inv_seen_q0.
    apply requeue_elem in Hr. set_solver.
  - intros r [v Hv]. by rewrite lookup_empty in Hv.
  - intros r Hr. rewrite lookup_empty. apply requeue_elem in Hr as [Hr|[Hr Hp]].
    + destruct (inv_queue0 r Hr) as (_ & ? & ?). auto.
    + split; [done|]. split; [intros Hm; by apply (inv_marked0 r)|].
      intros i Hi. destruct (inv_pending0 i r Hi). congruence.
  - intros i r Hr. rewrite lookup_empty. destruct (inv_pending0 i r Hr). auto.
Qed.
Lemma inv_enqueue raw s : raw ∉ s_seen s -> inv s ->
  inv (Sys (a_enqueue raw (s_q s)) (s_ws s) (raw :: s_seen s) (s_marked s) (s_sent s)).
Proof.
  intros Hf I. destruct I. constructor; simpl; auto.
  - constructor; [|done]. intros H. by apply Hf, inv_seen_q0.
  - intros r. rewrite elem_of_cons. set_solver.
  - intros r Hr. set_solver.
  - intros i r Hr. apply list_elem_of_further. eauto.
  - set_solver.
  - intros r [->|Hr]%elem_of_cons; [|by apply inv_queue0]. split; [|split].
    + destruct (a_phase (s_q s) !! raw) eqn:E; [|done]. exfalso. apply Hf, inv_seen_p0. eauto.
    + intros Hm. by apply Hf, inv_seen_m0.
    + intros i Hi. apply Hf. eauto.
Qed.
Lemma inv_claim i raw a s : s_ws s i = Idle -> a_claim (s_q s) = Some (raw, a) -> inv s ->
  inv (Sys a (upd (s_ws s) i (Pending raw)) (s_seen s) (s_marked s) (s_sent s)).
Proof.
  intros Hi Hc I. apply claim_spec in Hc as (Hq & Hp & Hph). destruct I.
  rewrite Hq in *.
  assert (Hraw : raw ∈ a_queue a ++ [raw]) by set_solver.
  assert (P : a_queue a ++ a_proc a ≡ₚ (a_queue a ++ [raw]) ++ a_proc (s_q s)).
  { rewrite Hp, <- List.app_assoc. done. }
  destruct (inv_queue0 raw Hraw) as (Hn & Hm & Hw).
  constructor; simpl; rewrite ?Hph; auto.
  - by rewrite P.
  - intros r. rewrite P. auto.
  - intros j r H. destruct (upd_cases (s_ws s) i (Pending raw) j) as [[E ->]|[E _]]; rewrite E in H; [|eauto].
    destruct H as [[= <-]|?]; [|done]. set_solver.
  - intros r Hr. destruct (inv_queue0 r) as (? & ? & ?); [set_solver|]. split; [done|]. split; [done|].
    intros j. destruct (upd_cases (s_ws s) i (Pending raw) j) as [[-> _]|[-> _]]; [|done].
    intros [= <-]. apply NoDup_app in inv_nodup0 as (Hd & _). apply NoDup_app in Hd as (_ & Hd & _).
    by apply (Hd raw Hr), list_elem_of_here.
  - intros j r H. destruct (upd_cases (s_ws s) i (Pending raw) j) as [[E ->]|[E _]]; rewrite E in H; [|eauto].
    by injection H as <-.
  - intros j k r Hj Hk.
    destruct (upd_cases (s_ws s) i (Pending raw) j) as [[E ->]|[E ?]]; rewrite E in Hj;
      destruct (upd_cases (s_ws s) i (Pending raw) k) as [[E' ->]|[E' ?]]; rewrite E' in Hk; try done.
    + injection Hj as <-. by destruct (Hw k).
    + injection Hk as <-. by destruct (Hw j).
    + eauto.
  - intros j r H. apply upd_other in H as [H _]; [eauto|done].
  - intros j k r Hj Hk. apply upd_other in Hj as [Hj _]; [|done]. apply upd_other in Hk as [Hk _]; [|done]. eauto.
Qed.
(** Idling a worker forgets nothing the invariant needs. *)
Lemma inv_idle i s : inv s ->
  inv (Sys (s_q s) (upd (s_ws s) i Idle) (s_seen s) (s_marked s) (s_sent s)).
Proof.
  intros I. assert (K : forall j p, p <> Idle -> upd (s_ws s) i Idle j = p -> s_ws s j = p).
  { intros j p Hp H. by apply upd_other in H as [? _]. }
  destruct I. constructor; simpl; auto.
  - intros j r [H|H]; apply K in H; eauto.
  - intros r Hr. destruct (inv_queue0 r Hr) as (? & ? & Hw). split; [done|]. split; [done|].
    intros j Hj. apply K in Hj; [|done]. by destruct (Hw j).
  - intros j r H. apply K in H; eauto.
  - intros j k r Hj Hk. apply K in Hj; [|done]. apply K in Hk; [|done]. eauto.
  - intros j r H. apply K in H; eauto.
  - intros j k r Hj Hk. apply K in Hj; [|done]. apply K in Hk; [|done]. eauto.
Qed.
Lemma inv_record i raw s : s_ws s i = Pending raw -> inv s ->
  inv (Sys (a_record raw (s_q s)) (upd (s_ws s) i (Ready raw)) (s_seen s) (s_marked s) (s_sent s)).
Proof.
  intros Hi I.
  assert (K : forall j p, p <> Ready raw -> upd (s_ws s) i (Ready raw) j = p -> s_ws s j = p /\ j <> i).
  { intros j p Hp H. by apply upd_other in H. }
  destruct I. destruct (inv_pending0 i raw Hi) as [Hn Hm]. constructor; simpl; auto.
  - intros r. rewrite lookup_insert_is_Some. intros [<-|[_ ?]]; eauto.
  - intros j r [H|H]; apply K in H as [H _]; eauto.
  - intros r Hr. destruct (inv_queue0 r Hr) as (? & ? & Hw).
    destruct (decide (r = raw)) as [->|Hne]; [by destruct (Hw i)|].
    rewrite lookup_insert_ne by done. split; [done|]. split; [done|].
    intros j Hj. apply K in Hj as [Hj _]; [|done]. by destruct (Hw j).
  - intros j r H. apply K in H as [H Hj]; [|done]. destruct (decide (r = raw)) as [->|Hne].
    + exfalso. apply Hj. eauto.
    + rewrite lookup_insert_ne by done. eauto.
  - intros j k r Hj Hk. apply K in Hj as [Hj _]; [|done]. apply K in Hk as [Hk _]; [|done]. eauto.
  - intros r Hr. destruct (decide (r = raw)) as [->|Hne]; [done|].
    rewrite lookup_insert_ne by done. eauto.
  - intros j r H. apply K in H as [H _]; eauto.
  - intros j k r Hj Hk. apply K in Hj as [Hj _]; [|done]. apply K in Hk as [Hk _]; [|done]. eauto.
Qed.
Lemma inv_mark i raw a s : s_ws s i = Ready raw -> a_mark raw (s_q s) = Some a -> inv s ->
  inv (Sys a (upd (s_ws s) i (Started raw)) (s_seen s) (raw :: s_marked s) (s_sent s)).
Proof.
  intros Hi Hm I. apply mark_spec in Hm as (Hc & Hq & Hp & Hph).
  destruct I. rewrite <- ?Hq, <- ?Hp in *.
  assert (Hnew : raw ∉ s_marked s) by (intros H; by apply (inv_marked0 raw H)).
  assert (Hseen : raw ∈ s_seen s) by eauto.
  constructor; simpl; rewrite ?Hph; auto.
  - intros r. rewrite lookup_insert_is_Some. intros [<-|[_ ?]]; eauto.
  - intros j r H. destruct (upd_cases (s_ws s) i (Started raw) j) as [[E ->]|[E _]]; rewrite E in H; [|eauto].
    by destruct H as [?|[= <-]].
  - intros r [->|Hr]%elem_of_cons; auto.
  - intros r Hr. destruct (inv_queue0 r Hr) as (Hn & ? & Hw).
    assert (r <> raw) by congruence. rewrite lookup_insert_ne by done.
    split; [done|]. split; [set_solver|].
    intros j H'. apply upd_other in H' as [H' _]; [|done]. by destruct (Hw j).
  - intros j r H. apply upd_other in H as [H _]; [|done]. destruct (inv_pending0 j r H) as [Hn ?].
    assert (r <> raw) by congruence. rewrite lookup_insert_ne by done. set_solver.
  - intros j k r Hj Hk. apply upd_other in Hj as [Hj _]; [|done]. apply upd_other in Hk as [Hk _]; [|done]. eauto.
  - intros r Hr. destruct (decide (r = raw)) as [->|Hne]; [by rewrite lookup_insert_eq|].
    rewrite lookup_insert_ne by done. set_solver.
  - by constructor.
  - intros r Hr. apply list_elem_of_further. auto.
  - intros j r H. destruct (upd_cases (s_ws s) i (Started raw) j) as [[E ->]|[E _]]; rewrite E in H.
    + injection H as <-. set_solver.
    + destruct (inv_started0 j r H). set_solver.
  - intros j k r Hj Hk.
    destruct (upd_cases (s_ws s) i (Started raw) j) as [[E ->]|[E ?]]; rewrite E in Hj;
      destruct (upd_cases (s_ws s) i (Started raw) k) as [[E' ->]|[E' ?]]; rewrite E' in Hk; try done.
    + injection Hj as <-. destruct (inv_started0 k raw Hk). done.
    + injection Hk as <-. destruct (inv_started0 j raw Hj). done.
    + eauto.
Qed.
Lemma inv_send i raw s : s_ws s i = Started raw -> inv s ->
  inv (Sys (s_q s) (upd (s_ws s) i Idle) (s_seen s) (s_marked s) (raw :: s_sent s)).
Proof.
  intros Hi I. pose proof (inv_idle i s I) as J. destruct I, J. simpl in *.
  destruct (inv_started0 i raw Hi) as [Hm Hs].
  constructor; simpl; auto.
  - intros r [->|Hr]%elem_of_cons; auto.
  - intros j r H. apply upd_other in H as [H Hj]; [|done]. destruct (inv_started0 j r H).
    split; [done|]. intros [->|?]%elem_of_cons; [|done]. eauto.
  - by constructor.
Qed.

Lemma step_inv s s' : step s s' -> inv s -> inv s'.
Proof.
  destruct 1; intros I.
  - by apply inv_enqueue.
  - by eapply inv_claim.
  - by apply inv_record.
  - by eapply inv_mark.
  - by apply inv_send.
  - apply inv_shrink; simpl; auto. apply sublist_app; [done|]. apply drop_first_sublist.
  - apply inv_shrink; simpl; auto. apply delete_subseteq.
  - by apply inv_reclaim.
  - unfold a_clear. destruct (a_proc (s_q s)) eqn:E; [|by destruct s].
    apply inv_shrink; simpl; auto; [by rewrite E|apply map_empty_subseteq].
  - by apply inv_idle.
Qed.
Lemma initial_inv : inv initial.
Proof.
  constructor; simpl; try done; try apply NoDup_nil_2; intros; try set_solver.
  all: match goal with H : is_Some (∅ !! _) |- _ => destruct H as [? H]; by rewrite lookup_empty in H end.
Qed.
Lemma reachable_inv s : reachable s -> inv s.
Proof.
  unfold reachable. intros H. assert (G : forall x, rtc step x s -> inv x -> inv s).
  { clear H. intros x H. induction H as [x|x y z Hs _ IH]; [done|].
    intros I. apply IH. by eapply step_inv. }
  apply (G _ H), initial_inv.
Qed.

(** C1: At most once: under every interleaving of producers and workers,
    crashes, lost leases, reclaims and late writes included, no request is
    sent to the backend twice, and none is sent without its phase having been
    moved from "claimed" to "started" exactly once before. *)
Theorem dispatch_at_most_once s :
  reachable s -> NoDup (s_sent s) /\ NoDup (s_marked s) /\ (forall r, r ∈ s_sent s -> r ∈ s_marked s).
Proof. intros H. apply reachable_inv in H as []. auto. Qed.

(** No replay: once a request may have been dispatched it is in no queue
    any more and no phase "claimed" is left of it, so no worker can ever pick
    it up again; queue and processing list together hold no request twice. *)
Theorem dispatched_never_requeued s r :
  reachable s -> r ∈ s_marked s ->
  r ∉ a_queue (s_q s) /\ a_phase (s_q s) !! r <> Some "claimed" /\
  NoDup (a_queue (s_q s) ++ a_proc (s_q s)).
Proof.
  intros H Hr. apply reachable_inv in H as []. split; [|split; auto].
  intros Hq. by destruct (inv_queue0 r Hq) as (_ & ? & _).
Qed.
