(* ===== verification/QueueLaws.v ===== *)
(** * The store implements the queue protocol

    The Redis keys of a user's queue are an abstract queue ([view]); every
    command and Lua script of the store acts on it as the operation of
    [Queue] it stands for, and [dequeue] issues them in the protocol's order. *)
From S2P Require Import Prelude PyStr PyFloat PyVal Json JsonRoundtrip Redis PyUrl Sha Dedupe World Store.
From S2P Require Import StoreOps Trace StoreLaws OpLaws Queue.
#[local] Open Scope Z_scope.

(** ** The abstraction *)
Definition view (u : string) (m : keys_t) (a : aq) : Prop :=
  klist (key u "queue") m = Ok (a_queue a) /\
  klist (key u "processing") m = Ok (a_proc a) /\
  khash (key u "processing_state") m = Ok (a_phase a).

Lemma klist_eq k m l : klist k (put_list k l m) = Ok l.
Proof.
  unfold klist, kval, put_list. destruct l; [by rewrite lookup_delete_eq|by rewrite lookup_insert_eq].
Qed.
Lemma khash_eq k m x : khash k (put_hash k x m) = Ok x.
Proof.
  unfold khash, kval, put_hash. case_decide as H; [subst; by rewrite lookup_delete_eq|by rewrite lookup_insert_eq].
Qed.
Lemma klist_same k m m' : m' !! k = m !! k -> klist k m' = klist k m.
Proof. unfold klist, kval. by intros ->. Qed.
Lemma khash_same k m m' : m' !! k = m !! k -> khash k m' = khash k m.
Proof. unfold khash, kval. by intros ->. Qed.
Lemma view_frame u m m' a : view u m a ->
  (forall k, k = key u "queue" \/ k = key u "processing" \/ k = key u "processing_state" ->
     m' !! k = m !! k) -> view u m' a.
Proof.
  intros (Hq & Hp & Hs) H. unfold view.
  rewrite (klist_same (key u "queue") m m'), (klist_same (key u "processing") m m'),
    (khash_same (key u "processing_state") m m') by auto. done.
Qed.
Lemma remove_first_drop v l : remove_first v l = drop_first v l.
Proof. induction l; simpl; [done|]. case_goal; congruence. Qed.

Section Sem.
Context {R : Type} `{RS : RedisServer R}.
Abbreviation sem := (spec json_render json_module).
Context (u : string).
Abbreviation kq := (key u "queue").
Abbreviation kp := (key u "processing").
Abbreviation ks := (key u "processing_state").
Abbreviation kl := (key u "lease").

Lemma q_p : kq <> kp. Proof. by apply key_ne. Qed.
Lemma q_s : kq <> ks. Proof. by apply key_ne. Qed.
Lemma p_s : kp <> ks. Proof. by apply key_ne. Qed.
Hint Resolve q_p q_s p_s not_eq_sym : core.

(** Replacing one component of the view. *)
Lemma view_put_queue m a l : view u m a -> view u (put_list kq l m) (AQ l (a_proc a) (a_phase a)).
Proof.
  intros (Hq & Hp & Hs). split; [apply klist_eq|]. simpl.
  rewrite (klist_same kp m), (khash_same ks m) by (rewrite put_list_ne; auto). done.
Qed.
Lemma view_put_proc m a l : view u m a -> view u (put_list kp l m) (AQ (a_queue a) l (a_phase a)).
Proof.
  intros (Hq & Hp & Hs). unfold view. simpl. rewrite klist_eq.
  rewrite (klist_same kq m), (khash_same ks m) by (rewrite put_list_ne; auto). done.
Qed.
Lemma view_put_phase m a x : view u m a -> view u (put_hash ks x m) (AQ (a_queue a) (a_proc a) x).
Proof.
  intros (Hq & Hp & Hs). unfold view. simpl. rewrite khash_eq.
  rewrite (klist_same kq m), (klist_same kp m) by (rewrite put_hash_ne; auto). done.
Qed.
Lemma view_delete_phase m a : view u m a -> view u (delete ks m) (AQ (a_queue a) (a_proc a) ∅).
Proof.
  intros (Hq & Hp & Hs). unfold view. simpl.
  rewrite (klist_same kq m), (klist_same kp m) by (rewrite lookup_delete_ne; auto).
  split; [done|]. split; [done|]. unfold khash, kval. by rewrite lookup_delete_eq.
Qed.

(** *** Commands *)
Lemma sem_lpush m a v : view u m a -> view u (snd (sem (LPUSH kq v) m)) (a_enqueue v a).
Proof. intros H. cbn [spec]. rewrite (proj1 H). cbn [snd]. by apply view_put_queue. Qed.
Lemma sem_claim m a : view u m a ->
  match a_claim a with
  | Some (raw, a') => fst (sem (RPOPLPUSH kq kp) m) = Ok (RText raw) /\
                      view u (snd (sem (RPOPLPUSH kq kp) m)) a'
  | None => sem (RPOPLPUSH kq kp) m = (Ok RNil, m)
  end.
Proof.
  intros H. pose proof H as (Hq & Hp & Hs). unfold a_claim. cbn [spec]. rewrite Hq, Hp.
  destruct (last (a_queue a)) as [raw|]; [|done].
  pose proof (view_put_queue m a (removelast (a_queue a)) H) as V.
  rewrite (proj1 (proj2 V)). cbn [fst snd a_proc].
  split; [done|]. by apply (view_put_proc _ _ (raw :: a_proc a)) in V.
Qed.
Lemma sem_record m a raw : view u m a -> view u (snd (sem (HSET ks raw "claimed") m)) (a_record raw a).
Proof. intros H. cbn [spec]. rewrite (proj2 (proj2 H)). cbn [snd]. by apply view_put_phase. Qed.
Lemma sem_started m a raw : view u m a ->
  view u (snd (sem (HSET ks raw "started") m)) (AQ (a_queue a) (a_proc a) (<[raw := "started"]> (a_phase a))).
Proof. intros H. cbn [spec]. rewrite (proj2 (proj2 H)). cbn [snd]. by apply view_put_phase. Qed.
Lemma sem_hget m a raw : view u m a -> sem (HGET ks raw) m = (Ok (of_opt (a_phase a !! raw)), m).
Proof. intros H. cbn [spec]. by rewrite (proj2 (proj2 H)). Qed.
Lemma sem_remove m a raw : view u m a -> view u (snd (sem (LREM1 kp raw) m)) (a_remove raw a).
Proof.
  intros H. cbn [spec]. rewrite (proj1 (proj2 H)). cbn [snd]. rewrite remove_first_drop.
  by apply view_put_proc.
Qed.
Lemma sem_forget m a raw : view u m a -> view u (snd (sem (HDEL ks raw) m)) (a_forget raw a).
Proof. intros H. cbn [spec]. rewrite (proj2 (proj2 H)). cbn [snd]. by apply view_put_phase. Qed.
Lemma sem_llen m a : view u m a -> sem (LLEN kp) m = (Ok (RInt (Z.of_nat (length (a_proc a)))), m).
Proof. intros H. cbn [spec]. by rewrite (proj1 (proj2 H)). Qed.
Lemma sem_lindex m a : view u m a -> sem (LINDEX0 kp) m = (Ok (of_opt (head (a_proc a))), m).
Proof. intros H. cbn [spec]. by rewrite (proj1 (proj2 H)). Qed.
Lemma sem_lmove m a x l : view u m a -> a_proc a = x :: l ->
  fst (sem (LMOVE_LR kp kq) m) = Ok (RText x) /\
  view u (snd (sem (LMOVE_LR kp kq) m)) (AQ (a_queue a ++ [x]) l (a_phase a)).
Proof.
  intros H E. pose proof H as (Hq & Hp & Hs). cbn [spec]. rewrite Hq, Hp, E.
  pose proof (view_put_proc m a l H) as V. rewrite (proj1 V). cbn [fst snd a_queue].
  split; [done|]. by apply (view_put_queue _ _ (a_queue a ++ [x])) in V.
Qed.
Lemma sem_lpop m a x l : view u m a -> a_proc a = x :: l ->
  fst (sem (LPOP kp) m) = Ok (RText x) /\
  view u (snd (sem (LPOP kp) m)) (AQ (a_queue a) l (a_phase a)).
Proof.
  intros H E. cbn [spec]. rewrite (proj1 (proj2 H)), E. cbn [fst snd]. split; [done|].
  by apply view_put_proc.
Qed.
Lemma sem_del m a : view u m a ->
  view u (snd (sem (DEL ks) m)) (AQ (a_queue a) (a_proc a) ∅).
Proof. intros H. cbn [spec snd]. by apply view_delete_phase. Qed.

(** *** Scripts, as functions of the server *)
Lemma call_ok c (r : R) x : fst (sem c (keyspace r)) = Ok x ->
  exists r', call c r = (Ok x, r') /\ keyspace r' = snd (sem c (keyspace r)).
Proof.
  intros H. destruct (run_eq c r) as (r' & E & K & _). exists r'. unfold call. by rewrite E, H.
Qed.
(** The lease test every script starts with. *)
Lemma lease_test (r : R) token :
  (exists x r', call (GET kl) r = (Ok x, r') /\ keyspace r' = keyspace r /\
     is_text token x = bool_decide (kval kl (keyspace r) = Some (RStr token))) \/
  exists e r', call (GET kl) r = (Raise e, r') /\ keyspace r' = keyspace r.
Proof.
  destruct (run_eq (GET kl) r) as (r' & E & K & _). unfold call. rewrite E.
  cbn [spec fst snd] in *. unfold kstr. destruct (kval kl (keyspace r)) as [[s| | |]|]; simpl.
  - left. eexists _, r'. split; [done|]. split; [done|]. simpl.
    destruct (String.eqb_spec s token) as [->|]; [by rewrite bool_decide_eq_true_2|].
    rewrite bool_decide_eq_false_2; [done|congruence].
  - right. unfold wrongtype, raise. eauto.
  - right. unfold wrongtype, raise. eauto.
  - right. unfold wrongtype, raise. eauto.
  - left. eexists _, r'. split; [done|]. split; [done|]. simpl. done.
Qed.

Lemma mark_script (r : R) a token raw : view u (keyspace r) a ->
  match lua_mark_backend_started kl ks token raw r with
  | (Ok true, r') => kval kl (keyspace r) = Some (RStr token) /\
                     exists a', a_mark raw a = Some a' /\ view u (keyspace r') a'
  | (_, r') => keyspace r' = keyspace r
  end.
Proof.
  intros V. unfold lua_mark_backend_started.
  destruct (lease_test r token) as [(x & r1 & E1 & K1 & T)|(e & r1 & E1 & K1)];
    [erewrite bind_run by exact E1|by erewrite bind_fail by exact E1].
  rewrite T. case_bool_decide as Hl; [|done]. cbn [negb].
  assert (V1 : view u (keyspace r1) a) by by rewrite K1.
  destruct (call_ok (HGET ks raw) r1 (of_opt (a_phase a !! raw))) as (r2 & E2 & K2).
  { by erewrite sem_hget by exact V1. }
  erewrite bind_run by exact E2. rewrite (sem_hget _ _ _ V1) in K2. cbn [snd] in K2.
  unfold a_mark. destruct (a_phase a !! raw) as [p|] eqn:Ep; cbn [of_opt is_text negb];
    [|simpl; congruence].
  destruct (String.eqb_spec p "claimed") as [->|Hne]; cbn [negb]; [|simpl; congruence].
  assert (V2 : view u (keyspace r2) a) by by rewrite K2.
  destruct (run_eq (HSET ks raw "started") r2) as (r3 & E3 & K3 & _).
  pose proof (sem_started _ _ raw V2) as V3. rewrite <- K3 in V3.
  cbn [spec fst] in E3. rewrite (proj2 (proj2 V2)) in E3. cbn [fst] in E3.
  erewrite bind_run by exact E3. simpl. split; [done|].
  eexists. split; [reflexivity|done].
Qed.
Lemma complete_script (r : R) a token raw : view u (keyspace r) a ->
  match lua_complete kl kp ks token raw r with
  | (Ok true, r') => kval kl (keyspace r) = Some (RStr token) /\
                     view u (keyspace r') (a_complete raw a)
  | (_, r') => keyspace r' = keyspace r
  end.
Proof.
  intros V. unfold lua_complete.
  destruct (lease_test r token) as [(x & r1 & E1 & K1 & T)|(e & r1 & E1 & K1)];
    [erewrite bind_run by exact E1|by erewrite bind_fail by exact E1].
  rewrite T. case_bool_decide as Hl; [|done]. cbn [negb].
  assert (V1 : view u (keyspace r1) a) by by rewrite K1.
  destruct (run_eq (LREM1 kp raw) r1) as (r2 & E2 & K2 & _).
  pose proof (sem_remove _ _ raw V1) as V2. rewrite <- K2 in V2.
  cbn [spec fst] in E2. rewrite (proj1 (proj2 V1)) in E2. cbn [fst] in E2.
  erewrite bind_run by exact E2.
  destruct (run_eq (HDEL ks raw) r2) as (r3 & E3 & K3 & _).
  pose proof (sem_forget _ _ raw V2) as V3. rewrite <- K3 in V3.
  cbn [spec fst] in E3. rewrite (proj2 (proj2 V2)) in E3. cbn [fst] in E3.
  erewrite bind_run by exact E3. simpl. by split.
Qed.
Lemma reclaim_loop (r : R) a fuel moved : view u (keyspace r) a -> (length (a_proc a) < fuel)%nat ->
  exists r', lua_reclaim_loop fuel kp kq ks moved r = (Ok (moved ++ a_proc a), r') /\
    exists phase, view u (keyspace r') (AQ (requeue (a_proc a) (a_queue a) (a_phase a)) [] phase).
Proof.
  revert r a moved. induction fuel as [|fuel IH]; intros r a moved V Hf; [lia|].
  cbn [lua_reclaim_loop].
  destruct (call_ok (LINDEX0 kp) r (of_opt (head (a_proc a)))) as (r1 & E1 & K1).
  { by erewrite sem_lindex by exact V. }
  erewrite bind_run by exact E1. rewrite (sem_lindex _ _ V) in K1. cbn [snd] in K1.
  assert (V1 : view u (keyspace r1) a) by by rewrite K1.
  destruct (a_proc a) as [|x l] eqn:Ep; cbn [head of_opt].
  { exists r1. rewrite List.app_nil_r. split; [done|]. exists (a_phase a). simpl.
    destruct a; simpl in *. by subst. }
  destruct (call_ok (HGET ks x) r1 (of_opt (a_phase a !! x))) as (r2 & E2 & K2).
  { by erewrite sem_hget by exact V1. }
  erewrite bind_run by exact E2. rewrite (sem_hget _ _ _ V1) in K2. cbn [snd] in K2.
  assert (V2 : view u (keyspace r2) a) by by rewrite K2.
  set (q' := if bool_decide (a_phase a !! x = Some "claimed") then a_queue a ++ [x] else a_queue a).
  assert (M : exists y r3, (if is_text "claimed" (of_opt (a_phase a !! x)) then call (LMOVE_LR kp kq)
      else call (LPOP kp)) r2 = (Ok y, r3) /\ view u (keyspace r3) (AQ q' l (a_phase a))).
  { assert (T : is_text "claimed" (of_opt (a_phase a !! x)) =
                bool_decide (a_phase a !! x = Some "claimed")).
    { destruct (a_phase a !! x) as [p|]; simpl; [|done].
      destruct (String.eqb_spec p "claimed") as [->|]; [by rewrite bool_decide_eq_true_2|].
      by rewrite bool_decide_eq_false_2 by congruence. }
    rewrite T. subst q'. case_bool_decide.
    - destruct (sem_lmove _ _ _ _ V2 Ep) as [F V3]. destruct (call_ok _ _ _ F) as (r3 & E3 & K3).
      exists (RText x), r3. rewrite K3. by split.
    - destruct (sem_lpop _ _ _ _ V2 Ep) as [F V3]. destruct (call_ok _ _ _ F) as (r3 & E3 & K3).
      exists (RText x), r3. rewrite K3. by split. }
  destruct M as (y & r3 & E3 & V3). erewrite bind_run by exact E3.
  destruct (run_eq (HDEL ks x) r3) as (r4 & E4 & K4 & _).
  pose proof (sem_forget _ _ x V3) as V4. rewrite <- K4 in V4.
  cbn [spec fst] in E4. rewrite (proj2 (proj2 V3)) in E4. cbn [fst] in E4.
  erewrite bind_run by exact E4.
  destruct (IH r4 _ (moved ++ [x]) V4) as (r5 & E5 & phase & V5); [simpl in *; lia|].
  exists r5. cbn [a_forget a_proc a_queue a_phase] in *. rewrite E5, <- List.app_assoc.
  split; [done|]. exists phase. exact V5.
Qed.
Lemma reclaim_script (r : R) a token : view u (keyspace r) a ->
  match lua_reclaim kl kp kq ks token r with
  | (Ok (Some moved), r') => kval kl (keyspace r) = Some (RStr token) /\ moved = a_proc a /\
                             view u (keyspace r') (a_reclaim a)
  | (_, r') => keyspace r' = keyspace r
  end.
Proof.
  intros V. unfold lua_reclaim.
  destruct (lease_test r token) as [(x & r1 & E1 & K1 & T)|(e & r1 & E1 & K1)];
    [erewrite bind_run by exact E1|by erewrite bind_fail by exact E1].
  rewrite T. case_bool_decide as Hl; [|done]. cbn [negb].
  assert (V1 : view u (keyspace r1) a) by by rewrite K1.
  erewrite bind_run by reflexivity.
  assert (Hfuel : (length (a_proc a) < reclaim_fuel kp r1)%nat).
  { unfold reclaim_fuel. rewrite (proj1 (proj2 V1)). lia. }
  destruct (reclaim_loop r1 a _ [] V1 Hfuel) as (r2 & E2 & phase & V2).
  erewrite bind_run by exact E2.
  destruct (run_eq (DEL ks) r2) as (r3 & E3 & K3 & _).
  pose proof (sem_del _ _ V2) as V3. rewrite <- K3 in V3. cbn [spec fst] in E3.
  erewrite bind_run by exact E3. simpl. auto.
Qed.
Lemma clear_script (r : R) a token : view u (keyspace r) a ->
  match lua_clear_state kl kp ks token r with
  | (Ok true, r') => kval kl (keyspace r) = Some (RStr token) /\ view u (keyspace r') (a_clear a)
  | (_, r') => keyspace r' = keyspace r
  end.
Proof.
  intros V. unfold lua_clear_state.
  destruct (lease_test r token) as [(x & r1 & E1 & K1 & T)|(e & r1 & E1 & K1)];
    [erewrite bind_run by exact E1|by erewrite bind_fail by exact E1].
  rewrite T. case_bool_decide as Hl; [|done]. cbn [negb].
  assert (V1 : view u (keyspace r1) a) by by rewrite K1.
  destruct (call_ok (LLEN kp) r1 (RInt (Z.of_nat (length (a_proc a))))) as (r2 & E2 & K2).
  { by erewrite sem_llen by exact V1. }
  erewrite bind_run by exact E2. rewrite (sem_llen _ _ V1) in K2. cbn [snd] in K2.
  assert (V2 : view u (keyspace r2) a) by by rewrite K2.
  cbn [reply_int]. unfold a_clear. destruct (a_proc a) as [|y l] eqn:Ep; simpl length.
  - change (Z.of_nat 0 =? 0) with true. cbv iota.
    destruct (run_eq (DEL ks) r2) as (r3 & E3 & K3 & _).
    pose proof (sem_del _ _ V2) as V3. rewrite <- K3, Ep in V3. cbn [spec fst] in E3.
    erewrite bind_run by (erewrite bind_run by exact E3; reflexivity). simpl. auto.
  - destruct (Z.eqb_spec (Z.of_nat (S (length l))) 0); [lia|]. simpl. auto.
Qed.
End Sem.

(** ** Programs *)
(** One step of the protocol on the shared queue. *)
Inductive qstep : aq -> aq -> Prop :=
| qs_enqueue raw a : qstep a (a_enqueue raw a)
| qs_claim raw a a' : a_claim a = Some (raw, a') -> qstep a a'
| qs_record raw a : qstep a (a_record raw a)
| qs_mark raw a a' : a_mark raw a = Some a' -> qstep a a'
| qs_remove raw a : qstep a (a_remove raw a)
| qs_forget raw a : qstep a (a_forget raw a)
| qs_reclaim a : qstep a (a_reclaim a)
| qs_clear a : qstep a (a_clear a).
Definition obeys (u : string) (t : trip) : Prop :=
  forall a, view u (t_before t) a -> exists a', view u (t_after t) a' /\ rtc qstep a a'.

Definition queue_key (u k : string) : Prop :=
  k = key u "queue" \/ k = key u "processing" \/ k = key u "processing_state".
Lemma obeys_frame u t : (forall k, queue_key u k -> frame k t) -> obeys u t.
Proof. intros H a V. exists a. split; [|constructor]. by eapply view_frame. Qed.
Lemma obeys_quiet u t : quiet t -> obeys u t.
Proof. intros H. apply obeys_frame. intros. by apply frame_quiet. Qed.
Lemma obeys_same u k m : obeys u (Trip k m m).
Proof. by apply obeys_quiet. Qed.
Lemma obeys_one u k m m' :
  (forall a, view u m a -> exists a', view u m' a' /\ (a' = a \/ qstep a a')) -> obeys u (Trip k m m').
Proof.
  intros H a V. destruct (H a V) as (a' & V' & [->|?]); eauto using rtc_refl, rtc_once.
Qed.
Lemma not_queue_key u n : n ∉ ["queue"; "processing"; "processing_state"] -> ~ queue_key u (key u n).
Proof.
  intros H [E|[E|E]]; unfold key in E; apply append_inj_l, append_inj_l, append_inj_l in E;
    subst; apply H; set_solver.
Qed.

Section Programs.
Context {R : Type} `{RS : RedisServer R} (h : host R).
Abbreviation W := (world R).
Abbreviation sem := (spec json_render json_module).
Hypothesis others_later : forall n r, later r (others h n r).
Context (u : string).

Lemma emits_all {A} (P : string -> trip -> Prop) (K : string -> Prop) (m : eff W A) :
  (forall k, K k -> emits (P k) m) -> emits (fun _ => True) m ->
  emits (fun t => forall k, K k -> P k t) m.
Proof.
  intros H T w x w' E. destruct (T _ _ _ E) as (l & Hl & _). exists l. split; [done|].
  apply Forall_forall. intros t Ht k Hk. destruct (H k Hk _ _ _ E) as (l' & Hl' & F).
  rewrite Hl in Hl'. apply app_inv_tail in Hl' as <-. rewrite Forall_forall in F. by apply F.
Qed.
Lemma emits_frame_obeys {A} (m : eff W A) :
  (forall k, queue_key u k -> emits (frame k) m) -> emits (obeys u) m.
Proof.
  intros H. eapply emits_impl; [apply obeys_frame|]. apply emits_all; [done|].
  eapply emits_impl; [done|]. apply (H (key u "queue")). by left.
Qed.
Lemma obeys_read c : read_only c = true -> emits (obeys u) (redis h c).
Proof. intros H. eapply emits_impl; [apply obeys_quiet|]. by apply emits_read. Qed.
Lemma obeys_publish us ty d : emits (obeys u) (publish h us ty d).
Proof. eapply emits_impl; [apply obeys_quiet|]. apply emits_publish. Qed.
Lemma obeys_update {St A} k (mutate : mutation St A) kind lease retries st :
  ~ queue_key u k -> emits (obeys u) (atomic_update h k mutate kind no_also lease retries st).
Proof.
  intros Hk. apply emits_frame_obeys. intros k' Hk'.
  apply emits_update_frame; [done|congruence|set_solver].
Qed.
Lemma obeys_cmd c :
  (forall m a, view u m a -> exists a', view u (snd (sem c m)) a' /\ (a' = a \/ qstep a a')) ->
  emits (obeys u) (redis h c).
Proof.
  intros H. apply emits_redis; [intros; apply obeys_same|]. intros m. apply obeys_one. apply H.
Qed.
Lemma obeys_eval {A} name argv (f : eff R A) :
  (forall r a, view u (keyspace r) a -> exists a', view u (keyspace (snd (f r))) a' /\ rtc qstep a a') ->
  emits (obeys u) (eval h name argv f).
Proof. intros H. apply emits_trip; [intros; apply obeys_same|]. intros r a V. by apply H. Qed.

Lemma claim_step m a : view u m a -> exists a',
  view u (snd (sem (RPOPLPUSH (key u "queue") (key u "processing")) m)) a' /\ (a' = a \/ qstep a a').
Proof.
  intros V. pose proof (sem_claim u m a V) as H. destruct (a_claim a) as [[raw a']|] eqn:E.
  - destruct H as [_ V']. exists a'. split; [done|]. right. by eapply qs_claim.
  - rewrite H. exists a. auto.
Qed.
Lemma obeys_get_config : emits (obeys u) (get_config h u).
Proof.
  apply emits_frame_obeys. intros k Hk. apply (emits_get_config h others_later).
  intros ->. revert Hk. apply not_queue_key. set_solver.
Qed.
Lemma obeys_log_event rid ty msg lvl d : emits (obeys u) (log_event h u rid ty msg lvl d).
Proof.
  unfold log_event, append_event. apply emits_bind; [apply emits_uuid|]. intros.
  apply emits_bind; [apply emits_now|]. intros.
  apply emits_bind; [|intros; apply obeys_publish].
  apply obeys_update, not_queue_key. set_solver.
Qed.
Lemma obeys_abort b : emits (obeys u) (_abort_interrupted_runs h u b).
Proof.
  unfold _abort_interrupted_runs, list_runs, list_of.
  apply emits_bind; [apply emits_bind; [|intros; apply emits_ret]|].
  { eapply emits_impl; [apply obeys_quiet|]. apply emits_json_get. }
  intros runs. case_goal; [apply emits_ret|].
  apply emits_bind; [apply emits_now|]. intros ts. cbv zeta.
  apply emits_bind; [apply obeys_update, not_queue_key; set_solver|]. intros aborted.
  apply emits_iter. intros run. apply emits_bind; [apply obeys_publish|]. intros _.
  apply emits_bind; [apply emits_lift|]. intros. apply obeys_log_event.
Qed.
Lemma emits_token : forall P, emits P (token_of u : eff W string).
Proof. intros P. unfold token_of. apply emits_bind; [apply emits_gets|]. intros. apply emits_ret. Qed.
Lemma emits_drop P : emits P (drop_lease u : eff W unit).
Proof.
  unfold drop_lease. apply emits_bind; [by apply emits_modify|]. intros. by apply emits_modify.
Qed.
(** Lease scripts only touch the lease key. *)
Lemma refresh_frame token ttl (r : R) k : k <> key u "lease" ->
  keyspace (snd (lua_refresh (key u "lease") token ttl r)) !! k = keyspace r !! k.
Proof.
  intros Hk. unfold lua_refresh.
  destruct (lease_test u r token) as [(x & r1 & E1 & K1 & T)|(e & r1 & E1 & K1)];
    [erewrite bind_run by exact E1|erewrite bind_fail by exact E1; simpl; by rewrite K1].
  destruct (is_text token x); [|simpl; by rewrite K1].
  destruct (run_eq (EXPIRE (key u "lease") ttl) r1) as (r2 & E2 & K2 & _).
  destruct (fst (sem (EXPIRE (key u "lease") ttl) (keyspace r1))) as [y|e] eqn:Ey;
    [erewrite bind_run by exact E2|erewrite bind_fail by exact E2]; simpl;
    rewrite K2, spec_frame, K1; done || set_solver.
Qed.
Lemma obeys_refresh ttl : emits (obeys u) (refresh_lease h u ttl).
Proof.
  unfold refresh_lease. apply emits_bind; [apply emits_token|]. intros token.
  case_goal; [apply emits_ret|]. cbv zeta.
  apply emits_bind; [|intros []; (apply emits_bind; [|intros; apply emits_ret]);
                      [by apply emits_modify|apply emits_drop]].
  apply obeys_eval. intros r a V. exists a. split; [|constructor].
  eapply view_frame; [exact V|]. intros k Hk. apply refresh_frame.
  intros ->. revert Hk. apply (not_queue_key u "lease"). set_solver.
Qed.

Lemma obeys_dequeue : emits (obeys u) (dequeue h u).
Proof.
  unfold dequeue, owns_lease. apply emits_bind.
  { apply emits_bind; [apply emits_token|]. intros. case_goal; [apply emits_ret|].
    apply emits_bind; [by apply obeys_read|]. intros. apply emits_ret. }
  intros o. case_goal; [apply emits_lift|]. cbv zeta.
  apply emits_bind; [apply obeys_cmd, claim_step|]. intros x.
  case_goal; [apply emits_ret|]. apply emits_bind.
  { apply obeys_cmd. intros m a V. eexists. split; [by apply sem_record|]. right. constructor. }
  intros _. apply emits_bind; [apply emits_gets|]. intros ttls.
  apply emits_bind; [apply obeys_refresh|]. intros ok. case_goal; [apply emits_lift|].
  case_goal; [apply emits_bind; [by apply emits_modify|intros; apply emits_ret]|].
  apply emits_bind; [|intros; apply emits_ret]. apply emits_catch; [|intros; apply emits_ret].
  apply emits_bind; [|intros _; apply emits_bind; [|intros; apply emits_ret]]; apply obeys_cmd;
    intros m a V; eexists; (split; [first [by apply sem_remove|by apply sem_forget]|right; constructor]).
Qed.
Lemma obeys_mark : emits (obeys u) (mark_backend_started h u).
Proof.
  unfold mark_backend_started. apply emits_bind; [apply emits_gets|]. intros raws.
  apply emits_bind; [apply emits_token|]. intros token.
  apply emits_bind; [|intros; case_goal; first [apply emits_ret|apply emits_lift]].
  destruct (raws !! u) as [raw|]; [|apply emits_ret]. case_goal; [apply emits_ret|].
  apply obeys_eval. intros r a V. pose proof (mark_script u r a token raw V) as M.
  destruct (lua_mark_backend_started _ _ _ _ r) as [[[]|e] r']; simpl;
    [destruct M as (_ & a' & Hm & V'); exists a'; split; [done|]; apply rtc_once; by eapply qs_mark|..];
    exists a; (split; [by rewrite M|constructor]).
Qed.
Lemma obeys_complete : emits (obeys u) (complete h u).
Proof.
  unfold complete. apply emits_bind; [apply emits_gets|]. intros raws.
  apply emits_bind; [by apply emits_modify|]. intros _.
  destruct (raws !! u) as [raw|]; [|apply emits_ret].
  apply emits_bind; [apply emits_token|]. intros token. case_goal; [apply emits_ret|].
  apply obeys_eval. intros r a V. pose proof (complete_script u r a token raw V) as M.
  destruct (lua_complete _ _ _ _ _ r) as [[[]|e] r']; simpl;
    [destruct M as (_ & V'); eexists; split; [done|];
     eapply rtc_l; [apply qs_remove|]; apply rtc_once; apply qs_forget|..];
    exists a; (split; [by rewrite M|constructor]).
Qed.
Lemma obeys_reclaim : emits (obeys u) (reclaim_processing h u).
Proof.
  unfold reclaim_processing. apply emits_bind; [apply emits_token|]. intros token.
  case_goal; [apply emits_lift|]. cbv zeta. apply emits_bind; [by apply obeys_read|]. intros n.
  case_goal.
  - apply emits_bind; [|intros; apply emits_ret]. apply obeys_eval. intros r a V.
    pose proof (clear_script u r a token V) as M.
    destruct (lua_clear_state _ _ _ _ r) as [[[]|e] r']; simpl;
      [destruct M as (_ & V'); eexists; split; [done|]; apply rtc_once; apply qs_clear|..];
      exists a; (split; [by rewrite M|constructor]).
  - apply emits_bind; [by apply obeys_read|]. intros st. apply emits_bind; [by apply obeys_read|].
    intros raws. apply emits_bind.
    { apply emits_catch; [apply obeys_abort|]. intros e.
      apply emits_bind; [apply emits_drop|]. intros. apply emits_lift. }
    intros _. apply emits_bind.
    + apply obeys_eval. intros r a V. pose proof (reclaim_script u r a token V) as M.
      destruct (lua_reclaim _ _ _ _ _ r) as [[[moved|]|e] r']; simpl;
        [destruct M as (_ & _ & V'); eexists; split; [done|]; apply rtc_once; apply qs_reclaim|..];
        exists a; (split; [by rewrite M|constructor]).
    + intros [moved|].
      * apply emits_bind; [apply emits_gets|]. intros local. apply emits_bind; [|intros; apply emits_ret].
        repeat case_goal; first [apply emits_ret|by apply emits_modify].
      * apply emits_bind; [apply emits_drop|]. intros. apply emits_lift.
Qed.
Lemma enqueued_obeys current t : enqueued u current t -> obeys u t.
Proof.
  intros (d & ts & js & _ & _ & _ & Ha) a V.
  set (wc := write_cmd _ _ _ _) in Ha. unfold run_seq in Ha. cbn [fold_left] in Ha.
  exists (a_enqueue (dumps (VDict (scheduled_request current))) a).
  split; [|apply rtc_once; constructor]. rewrite Ha. apply sem_lpush.
  eapply view_frame; [exact V|]. intros k Hk. apply spec_frame. subst wc.
  rewrite writes_write_cmd. intros ->%list_elem_of_singleton. revert Hk.
  apply (not_queue_key u "config"). set_solver.
Qed.
Lemma obeys_schedule : emits (obeys u) (maybe_enqueue_scheduled h u).
Proof.
  unfold maybe_enqueue_scheduled. apply emits_bind; [apply emits_now|]. intros current.
  apply emits_bind; [apply obeys_get_config|]. intros config. case_goal; [apply emits_ret|].
  cbv zeta. apply emits_bind.
  - eapply emits_impl; [|apply (emits_update h others_later)].
    intros t [Hq|(lse & js & st & n & a & Hc)]; [by apply obeys_quiet|].
    eapply enqueued_obeys. by eapply commit_enqueued.
  - intros [cfg|]; [|apply emits_ret]. apply emits_bind; [apply obeys_publish|]. intros _.
    apply emits_bind; [apply obeys_publish|]. intros. apply emits_ret.
Qed.


(** *** What a successful claim and a successful fence prove *)
Lemma redis_trip c w x w' : redis h c w = (x, w') ->
  exists t, w_log w' = t :: w_log w /\ t_kind t = TCmd c /\
    lease_tokens w' = lease_tokens w /\ inflight w' = inflight w /\
    (forall y, x = Ok y -> fst (sem c (t_before t)) = Ok y /\ t_after t = snd (sem c (t_before t))).
Proof.
  intros E. pose proof (round_trip_frame h _ _ _ _ _ E) as (Ht & _ & Hi & _ & _).
  apply (redis_inv h others_later) in E as (r0 & _ & _ & _ & Hl & H).
  eexists. split; [exact Hl|]. split; [done|]. split; [done|]. split; [done|].
  intros y ->. cbn [t_before t_after]. destruct H as [[H ->]|[H _]]; [by rewrite <- H|done].
Qed.
Lemma eval_trip {A} name argv (f : eff R A) (w : W) x w' :
  (forall r, later r (snd (f r))) -> eval h name argv f w = (x, w') ->
  exists t r, w_log w' = t :: w_log w /\ t_kind t = TScript name argv /\
    t_before t = keyspace r /\ lease_tokens w' = lease_tokens w /\ inflight w' = inflight w /\
    (forall y, x = Ok y -> fst (f r) = Ok y /\ t_after t = keyspace (snd (f r))).
Proof.
  intros Hf E. pose proof (round_trip_frame h _ _ _ _ _ E) as (Ht & _ & Hi & _ & _).
  apply (round_trip_inv h others_later) in E as (r0 & _ & _ & _ & Hl & H); [|done].
  eexists _, r0. split; [exact Hl|]. split; [done|]. split; [done|]. split; [done|]. split; [done|].
  intros y ->. cbn [t_after]. destruct H as [H|[H _]]; [by rewrite H|done].
Qed.

(** Scripts only move the server forward. *)
Definition moves {A} (f : eff R A) : Prop := forall r, later r (snd (f r)).
Lemma moves_call c : moves (call c).
Proof. intros r. apply run_later. Qed.
Lemma moves_ret {A} (a : A) : moves (mret a).
Proof. intros r. apply later_refl. Qed.
Lemma moves_bind {A B} (m : eff R A) (f : A -> eff R B) :
  moves m -> (forall a, moves (f a)) -> moves (x ← m; f x).
Proof.
  intros Hm Hf r. unfold mbind, eff_bind. specialize (Hm r).
  destruct (m r) as [[a|e] r1]; simpl in *; [|done]. eapply later_trans; [exact Hm|]. apply Hf.
Qed.
Lemma moves_mark l s tok raw : moves (lua_mark_backend_started l s tok raw).
Proof.
  unfold lua_mark_backend_started. apply moves_bind; [apply moves_call|]. intros g.
  case_goal; [apply moves_ret|]. apply moves_bind; [apply moves_call|]. intros p.
  case_goal; [apply moves_ret|]. apply moves_bind; [apply moves_call|]. intros. apply moves_ret.
Qed.
Lemma moves_refresh l tok ttl : moves (lua_refresh l tok ttl).
Proof.
  unfold lua_refresh. apply moves_bind; [apply moves_call|]. intros g.
  case_goal; [|apply moves_ret]. apply moves_bind; [apply moves_call|]. intros. apply moves_ret.
Qed.

Lemma token_of_inv (w : W) x (w' : W) : token_of u w = (x, w') ->
  w' = w /\ x = Ok (default "" (lease_tokens w !! u)).
Proof. unfold token_of, gets, mbind, eff_bind, mret, eff_ret. intros H. by injection H as <- <-. Qed.

Lemma mark_fenced w w' :
  mark_backend_started h u w = (Ok tt, w') ->
  exists raw token t, inflight w !! u = Some raw /\ lease_tokens w !! u = Some token /\
    w_log w' = t :: w_log w /\ t_kind t = TScript "mark_backend_started" [token; raw] /\
    (forall a, view u (t_before t) a ->
       kval (key u "lease") (t_before t) = Some (RStr token) /\
       exists a', a_mark raw a = Some a' /\ view u (t_after t) a').
Proof.
  unfold mark_backend_started. intros E. step E raws w1 E1; [|done]. injection E1 as <- <-.
  step E token w2 E2; [|done]. apply token_of_inv in E2 as [-> [= ->]].
  step E ok w3 E3; [|done]. destruct ok; [|done]. assert (w3 = w') as <- by (injection E; done).
  destruct (inflight w !! u) as [raw|] eqn:Ei; [|done].
  destruct (String.eqb_spec (default "" (lease_tokens w !! u)) "") as [?|Hne]; [done|].
  destruct (lease_tokens w !! u) as [token|] eqn:Et; [|done]. simpl in E3.
  apply eval_trip in E3 as (t & r & Hl & Hk & Hb & _ & _ & H); [|apply moves_mark].
  destruct (H true eq_refl) as [Hf Ha]. exists raw, token, t. repeat (split; [done|]).
  intros a V. rewrite Hb in V |- *. pose proof (mark_script u r a token raw V) as M.
  destruct (lua_mark_backend_started _ _ _ _ r) as [y r']. simpl in Hf, Ha. subst y.
  destruct M as (? & a' & ? & ?). split; [done|]. exists a'. by rewrite Ha.
Qed.

(** Fenced dispatch: when [mark_backend_started] lets the worker open the
    backend request, one atomic script has, at an instant when the lease key
    held this worker's token, moved the request this worker claimed from phase
    "claimed" to "started". *)
Theorem dispatch_is_fenced w w' :
  mark_backend_started h u w = (Ok tt, w') ->
  exists raw token t, inflight w !! u = Some raw /\ lease_tokens w !! u = Some token /\
    w_log w' = t :: w_log w /\ t_kind t = TScript "mark_backend_started" [token; raw] /\
    (forall a, view u (t_before t) a ->
       kval (key u "lease") (t_before t) = Some (RStr token) /\
       exists a', a_mark raw a = Some a' /\ view u (t_after t) a').
Proof. apply mark_fenced. Qed.

Lemma owns_true (w w1 : W) : owns_lease h u w = (Ok true, w1) ->
  exists token t, lease_tokens w !! u = Some token /\ token <> "" /\ w_log w1 = t :: w_log w /\
    t_kind t = TCmd (GET (key u "lease")) /\ lease_tokens w1 = lease_tokens w.
Proof.
  unfold owns_lease. intros E. step E token w2 E2; [|done].
  apply token_of_inv in E2 as [-> [= ->]].
  destruct (String.eqb_spec (default "" (lease_tokens w !! u)) "") as [?|Hne]; [done|].
  step E x w3 E3; [|done]. injection E as _ <-.
  apply redis_trip in E3 as (t & Hl & Hk & Ht & _ & _).
  destruct (lease_tokens w !! u) as [token|]; [|done]. exists token, t. auto.
Qed.
Lemma refresh_true ttl (w w1 : W) : refresh_lease h u ttl w = (Ok true, w1) ->
  exists token t, lease_tokens w !! u = Some token /\ w_log w1 = t :: w_log w /\
    t_kind t = TScript "refresh_lease" [token] /\
    kval (key u "lease") (t_before t) = Some (RStr token) /\
    lease_tokens w1 = lease_tokens w /\ inflight w1 = inflight w.
Proof.
  unfold refresh_lease. intros E. step E token w2 E2; [|done].
  apply token_of_inv in E2 as [-> [= ->]].
  destruct (String.eqb_spec (default "" (lease_tokens w !! u)) "") as [?|Hne]; [done|].
  cbv zeta in E. step E ok w3 E3; [|done].
  destruct (lease_tokens w !! u) as [token|] eqn:Et; [|done]. simpl in E3.
  apply eval_trip in E3 as (t & r & Hl & Hk & Hb & Ht & Hi & H); [|apply moves_refresh].
  destruct ok; [|by step E y w4 E4].
  step E y w4 E4; [|done]. injection E4 as _ <-.
  match type of E with _ = (_, ?v) => assert (Hw : v = set_ttls (<[u:=Z.max 1 ttl]> (lease_ttls w3)) w3)
    by (injection E; done) end. subst w1.
  destruct (H true eq_refl) as [Hf _]. exists token, t. simpl. rewrite Ht, Hi, Hb.
  repeat (split; [done|]). split; [|done]. unfold lua_refresh in Hf.
  destruct (lease_test u r token) as [(x & r1 & E1 & K1 & T)|(e & r1 & E1 & K1)].
  - erewrite bind_run in Hf by exact E1. rewrite T in Hf. by case_bool_decide.
  - by erewrite bind_fail in Hf by exact E1.
Qed.

(** The claim order: a request returned by [dequeue] was the oldest in the
    queue and was moved to the processing list in one command; its phase
    "claimed" was recorded by the very next command, and the lease was still
    this worker's afterwards; the returned dictionary is the decoded request. *)
Theorem dequeue_claims_in_order w d w' :
  dequeue h u w = (Ok (Some d), w') ->
  exists token raw t1 t2 t3 t4,
    w_log w' = t4 :: t3 :: t2 :: t1 :: w_log w /\
    t_kind t1 = TCmd (GET (key u "lease")) /\
    t_kind t2 = TCmd (RPOPLPUSH (key u "queue") (key u "processing")) /\
    t_kind t3 = TCmd (HSET (key u "processing_state") raw "claimed") /\
    t_kind t4 = TScript "refresh_lease" [token] /\ lease_tokens w !! u = Some token /\
    (forall a, view u (t_before t2) a ->
       exists a', a_claim a = Some (raw, a') /\ view u (t_after t2) a') /\
    (forall a, view u (t_before t3) a -> view u (t_after t3) (a_record raw a)) /\
    kval (key u "lease") (t_before t4) = Some (RStr token) /\
    parse_request raw = Some d /\ inflight w' !! u = Some raw.
Proof.
  unfold dequeue. intros E. step E o w1 E1; [|done]. destruct o; [|done]. cbv zeta in E.
  apply owns_true in E1 as (token & t1 & Ht1 & _ & Hl1 & Hk1 & Hs1).
  step E x w2 E2; [|done]. apply redis_trip in E2 as (t2 & Hl2 & Hk2 & Hs2 & _ & H2).
  destruct (H2 x eq_refl) as [F2 A2].
  destruct (String.eqb_spec (text_or_empty x) "") as [?|Hne]; [done|].
  set (raw := text_or_empty x) in *.
  step E z w3 E3; [|done]. apply redis_trip in E3 as (t3 & Hl3 & Hk3 & Hs3 & _ & H3).
  destruct (H3 z eq_refl) as [_ A3].
  step E ttls w4 E4; [|done]. injection E4 as <- <-.
  step E ok w5 E5; [|done]. destruct ok; [|done].
  apply refresh_true in E5 as (token' & t4 & Ht4 & Hl4 & Hk4 & Hv4 & _ & _).
  assert (token' = token) as -> by congruence.
  cbn [negb] in E. destruct (parse_request raw) as [d'|] eqn:Ep.
  2:{ step E y w6 E6; done. }
  step E y w6 E6; [|done]. injection E6 as _ <-. injection E as <- <-.
  exists token, raw, t1, t2, t3, t4. split; [cbn [w_log set_inflight]; congruence|].
  repeat (split; [done|]). split; [|split; [|split; [done|split; [done|]]]].
  - intros a V. pose proof (sem_claim u _ a V) as C. rewrite A2.
    destruct (a_claim a) as [[raw' a']|].
    + destruct C as [Hr V']. rewrite Hr in F2. injection F2 as <-. by exists a'.
    + rewrite C in F2. injection F2 as <-. done.
  - intros a V. rewrite A3. by apply sem_record.
  - cbn [inflight set_inflight]. by rewrite lookup_insert_eq.
Qed.
End Programs.

(** Reclaiming loses nothing that is proven undispatched: every processing
    entry with a recorded "claimed" phase goes back to the consuming end of the
    queue, in the original claim order (the oldest claim is taken first), all
    others are dropped, and no phase is left behind. *)
Theorem reclaim_requeues_claimed a :
  NoDup (a_proc a) ->
  a_queue (a_reclaim a) =
    a_queue a ++ filter (fun r => a_phase a !! r = Some "claimed") (a_proc a) /\
  a_proc (a_reclaim a) = [] /\ a_phase (a_reclaim a) = ∅.
Proof. intros H. unfold a_reclaim. simpl. by rewrite requeue_filter. Qed.
