(* ===== verification/StoreExamples.v ===== *)
(** * Concrete runs of the store

    A worker against the reference server: each theorem about the store is
    applied to a run whose result is computed. *)
From S2P Require Import Prelude PyStr PyFloat PyVal Json JsonRoundtrip Redis PyUrl Sha Dedupe DedupeLaws.
From S2P Require Import World Store StoreOps Trace StoreLaws OpLaws Queue QueueLaws.
#[local] Open Scope Z_scope.

#[local] Existing Instance ref_server.
Definition json_server : RedisServer ref_redis := ref_server true.
Definition h0 : host ref_redis := quiet_host 1000000.
Lemma h0_later n r : @later _ json_server r (others h0 n r).
Proof. apply later_refl. Qed.
Lemma h0_calm : calm h0.
Proof. split; reflexivity. Qed.

(** Worker "bob" acquires his lease on an empty server with one request. *)
Definition request_text : string := dumps (VDict [("id", VStr "r1"); ("trigger", VStr "manual")]).
Definition server0 : ref_redis :=
  RefRedis (<[key "bob" "queue" := Entry (RList [request_text]) None]> ∅) [].
Definition leased : world ref_redis :=
  Eval vm_compute in snd (@acquire_lease _ json_server h0 "bob" 60 (fresh_world server0)).
Definition bump : mutation unit unit :=
  stateless (fun v => mret (Some (VList (VInt 1 :: as_list v)), tt)).
Definition bumped : result unit * world ref_redis :=
  @atomic_update _ json_server h0 _ _ "autonomy:bob:goals" bump AList no_also (Some "bob") 5 tt leased.
Lemma bumped_run :
  @atomic_update _ json_server h0 _ _ "autonomy:bob:goals" bump AList no_also (Some "bob") 5 tt leased
  = (fst bumped, snd bumped).
Proof. unfold bumped. match goal with |- ?x = _ => generalize x end. by intros []. Qed.
Lemma bumped_ok : fst bumped = Ok tt.
Proof. vm_compute. reflexivity. Qed.

Lemma atomic_update_atomic_witness :
  fst bumped = Ok tt /\
  exists l, w_log (snd bumped) = l ++ w_log leased /\
    @updated _ json_server _ _ "autonomy:bob:goals" bump AList no_also
      (required (Some "bob") (lease_tokens leased)) (fst bumped) l.
Proof.
  split; [apply bumped_ok|].
  apply (@atomic_update_atomic _ json_server h0 h0_later _ _ _ _ _ _ (Some "bob") 5 tt).
  exact bumped_run.
Defined.
Lemma fenced_update_safe_witness :
  exists l, w_log (snd bumped) = l ++ w_log leased /\
    forall t, t ∈ l -> t_after t <> t_before t ->
      exists token, lease_tokens leased !! "bob" = Some token /\
                    kval (key "bob" "lease") (t_before t) = Some (RStr token).
Proof.
  apply (@fenced_update_safe _ json_server h0 h0_later _ _ "autonomy:bob:goals" bump AList no_also
    "bob" 5 tt leased (fst bumped)). exact bumped_run.
Defined.
Lemma atomic_update_progress_witness :
  exists w', @atomic_update _ json_server h0 _ _ "autonomy:bob:goals" bump AList no_also
      (Some "bob") 5 tt leased = (Ok tt, w') /\
    @keyspace _ json_server (srv w') = @run_seq _ json_server
      [JSONSET "autonomy:bob:goals" "[1]"] (@keyspace _ json_server (srv leased)).
Proof.
  apply (@atomic_update_progress _ json_server h0 _ _ "autonomy:bob:goals" bump AList no_also h0_calm
    (Some "bob") 5 tt (VList []) tt (Some (VList [VInt 1])) tt (ticks leased) leased).
  - left. reflexivity.
  - exists "7:u0". vm_compute. repeat split; discriminate.
  - vm_compute. reflexivity.
  - intros v H. vm_compute in H. discriminate H.
  - reflexivity.
  - vm_compute. reflexivity.
Defined.

(** ** Records *)
Lemma upsert_keeps_runs_witness :
  exists rest, [VDict [("id", VStr "b"); ("status", VStr "running")]; VDict [("id", VStr "a")]] =
      VDict [("id", VStr "b"); ("status", VStr "running")] :: rest /\
    rest `sublist_of` [VDict [("id", VStr "a")]; VDict [("id", VStr "b")]; VDict [("id", VStr "c")]].
Proof.
  destruct (upsert_keeps_runs [("id", VStr "b"); ("status", VStr "running")] 2
    [VDict [("id", VStr "a")]; VDict [("id", VStr "b")]; VDict [("id", VStr "c")]]
    [VDict [("id", VStr "b"); ("status", VStr "running")]; VDict [("id", VStr "a")]])
    as (rest & H & _ & Hs & _); [lia|vm_compute; reflexivity|].
  exists rest. split; [exact H|exact Hs].
Defined.
Definition merged : list value * option value * list value :=
  Eval vm_compute in
  match feed_merged true 604800000 2 2000 ex_batch [VDict ex_old] with Ok r => r | Raise _ => ([], None, []) end.
Definition merged_feed : list value := match snd (fst merged) with Some (VList l) => l | _ => [] end.
Lemma feed_merge_sound_witness :
  length merged_feed = 2%nat /\ snd merged `prefix_of` merged_feed.
Proof.
  split; [reflexivity|].
  apply (feed_merge_sound true 604800000 2 2000 ex_batch [VDict ex_old] (fst (fst merged)) merged_feed
    (snd merged)); [lia|vm_compute; reflexivity].
Defined.
Lemma due_once_witness :
  due 1240000 (dmerge (default_config 5 "bob")
    (dmerge [("intervalSeconds", VInt 1)]
       [("lastScheduledRunAt", VInt 1000000); ("updatedAt", VInt 1000000)])) = false.
Proof.
  apply due_once; [repeat constructor; set_solver|lia|].
  unfold MIN_SCHEDULE_INTERVAL_SECONDS. lia.
Defined.

(** ** Scheduling *)
Definition scheduled_run : result (option dict) * world ref_redis :=
  @maybe_enqueue_scheduled _ json_server h0 "bob" (fresh_world (RefRedis ∅ [])).
Lemma scheduled_run_eq :
  @maybe_enqueue_scheduled _ json_server h0 "bob" (fresh_world (RefRedis ∅ []))
  = (fst scheduled_run, snd scheduled_run).
Proof. unfold scheduled_run. match goal with |- ?x = _ => generalize x end. by intros []. Qed.
Lemma scheduled_enqueue_atomic_witness :
  fst scheduled_run = Ok (Some (scheduled_request 1000000)) /\
  exists current l, w_log (snd scheduled_run) = l ++ [] /\
    Forall (fun t => frame (key "bob" "queue") t \/ @enqueued _ json_server "bob" current t) l.
Proof.
  split; [vm_compute; reflexivity|].
  exact (@scheduled_enqueue_atomic _ json_server h0 h0_later "bob" _ _ _ scheduled_run_eq).
Defined.

(** ** Queue *)
Definition claimed_world : result (option dict) * world ref_redis :=
  @dequeue _ json_server h0 "bob" leased.
Lemma claimed_eq : @dequeue _ json_server h0 "bob" leased
  = (Ok (Some [("id", VStr "r1"); ("trigger", VStr "manual")]), snd claimed_world).
Proof.
  transitivity (fst claimed_world, snd claimed_world).
  - unfold claimed_world. match goal with |- ?x = _ => generalize x end. by intros [].
  - apply (f_equal (fun x => (x, snd claimed_world))). vm_compute. reflexivity.
Qed.
Lemma dequeue_claims_in_order_witness : exists token raw,
  lease_tokens leased !! "bob" = Some token /\ inflight (snd claimed_world) !! "bob" = Some raw.
Proof.
  destruct (@dequeue_claims_in_order _ json_server h0 h0_later "bob" _ _ _ claimed_eq)
    as (token & raw & t1 & t2 & t3 & t4 & _ & _ & _ & _ & _ & Ht & _ & _ & _ & _ & Hi).
  exists token, raw. split; [exact Ht|exact Hi].
Defined.
Definition started_world : result unit * world ref_redis :=
  @mark_backend_started _ json_server h0 "bob" (snd claimed_world).
Lemma started_eq : @mark_backend_started _ json_server h0 "bob" (snd claimed_world)
  = (Ok tt, snd started_world).
Proof.
  transitivity (fst started_world, snd started_world).
  - unfold started_world. match goal with |- ?x = _ => generalize x end. by intros [].
  - apply (f_equal (fun x => (x, snd started_world))). vm_compute. reflexivity.
Qed.
Lemma dispatch_is_fenced_witness : exists raw token,
  inflight (snd claimed_world) !! "bob" = Some raw /\
  lease_tokens (snd claimed_world) !! "bob" = Some token.
Proof.
  destruct (@dispatch_is_fenced _ json_server h0 h0_later "bob" _ _ started_eq)
    as (raw & token & t & Hi & Ht & _).
  exists raw, token. split; [exact Hi|exact Ht].
Defined.
Lemma reclaim_requeues_claimed_witness :
  a_queue (a_reclaim (AQ ["q"] ["c2"; "x"; "c1"]
    (<["c1" := "claimed"]> (<["c2" := "claimed"]> (<["x" := "started"]> ∅))))) = ["q"; "c2"; "c1"].
Proof.
  destruct (reclaim_requeues_claimed (AQ ["q"] ["c2"; "x"; "c1"]
    (<["c1" := "claimed"]> (<["c2" := "claimed"]> (<["x" := "started"]> ∅))))) as [H _].
  - cbn [a_proc]. repeat (apply NoDup_cons_2; [set_solver|]). apply NoDup_nil_2.
  - rewrite H. vm_compute. reflexivity.
Defined.

(** A request that is sent, by worker 0. *)
Lemma sent_reachable : exists s, reachable s /\ s_sent s = ["r"] /\ s_marked s = ["r"].
Proof.
  eexists. split; [|split].
  - unfold reachable, initial. eapply rtc_l; [apply (st_enqueue "r"); set_solver|].
    eapply rtc_l; [apply (st_claim 0%nat "r"); reflexivity|].
    eapply rtc_l; [apply (st_record 0%nat "r"); reflexivity|].
    eapply rtc_l; [eapply (st_mark 0%nat "r"); [reflexivity|vm_compute; reflexivity]|].
    eapply rtc_l; [apply (st_send 0%nat "r"); reflexivity|]. apply rtc_refl.
  - reflexivity.
  - reflexivity.
Qed.
Lemma dispatch_at_most_once_witness : exists s, s_sent s = ["r"] /\ NoDup (s_sent s).
Proof.
  destruct sent_reachable as (s & Hr & Hs & _). exists s. split; [exact Hs|].
  apply (dispatch_at_most_once s Hr).
Defined.
Lemma dispatched_never_requeued_witness : exists s, s_marked s = ["r"] /\ "r" ∉ a_queue (s_q s).
Proof.
  destruct sent_reachable as (s & Hr & _ & Hm). exists s. split; [exact Hm|].
  apply (dispatched_never_requeued s "r" Hr). rewrite Hm. apply list_elem_of_here.
Defined.
