(* ===== verification/Exploration.v ===== *)
(** * Research rotation ([autonomous_agent/exploration.py])

    The rotation cursor is derived from the stored run history; two quiet
    attempts in a row move a familiar slot on to an exploratory one. *)
From S2P Require Import Prelude PyStr PyFloat PyVal.
#[local] Open Scope Z_scope.

Definition APPROACHES : list (string * string) :=
  [("known", "Check a meaningful change or unresolved question in a tracked interest.");
   ("adjacent", "Connect a neighboring field or technique to a concrete user interest.");
   ("known", "Explore a useful technique, explanation, or overlooked primary source.");
   ("scout", "Investigate an underexplored topic with a specific link to the user's interests.")].
Definition approach_at (step : Z) : string * string := nth (Z.to_nat step) APPROACHES ("known", "").

Definition is_completed (goal_id : value) (run : value) : bool :=
  match run with
  | VDict d => py_eq (dget "status" d) (VStr "completed") &&
               py_eq (vor (dget "goalId" d) VNone) (vor goal_id VNone)
  | _ => false
  end.
Definition scoped_completed_runs (recent_runs : list value) (goal_id : value) : list value :=
  List.filter (is_completed goal_id) recent_runs.

(** [type(v) is int]: [bool] is excluded. *)
Definition exact_int (v : value) : option Z := match v with VInt z => Some z | _ => None end.
Definition metric (name : string) (run : dict) : value :=
  match dget "metrics" run with VDict m => dget name m | _ => VNone end.
Definition stored_item_count (run : dict) : option Z :=
  match exact_int (metric "feedItemsStored" run) with
  | Some n => if 0 <=? n then Some n
              else match dget "feedItemIds" run with
                   | VList l => Some (Z.of_nat (length l)) | _ => None end
  | None => match dget "feedItemIds" run with
            | VList l => Some (Z.of_nat (length l)) | _ => None end
  end.

Definition dict_or_empty (v : value) : dict := match v with VDict d => d | _ => [] end.
(** The step after the newest completed run that recorded one. *)
Fixpoint next_step (completed : list value) : option Z :=
  match completed with
  | [] => None
  | r :: rs =>
      match exact_int (metric "explorationStep" (dict_or_empty r)) with
      | Some p => if (0 <=? p) && (p <? 4) then Some ((p + 1) mod 4) else next_step rs
      | None => next_step rs
      end
  end.

(** Set and dictionary membership need hashable values. *)
Definition hashable (v : value) : bool := match v with VList _ | VDict _ => false | _ => true end.
Definition unhashable {A} : result A := raise TypeError "unhashable type".
Record coverage := Coverage { c_known : Z; c_adjacent : Z; c_scout : Z }.
Definition cover (lane : value) (c : coverage) : coverage :=
  match lane with
  | VStr s => if (s =? "known")%string then Coverage (c_known c + 1) (c_adjacent c) (c_scout c)
              else if (s =? "adjacent")%string then Coverage (c_known c) (c_adjacent c + 1) (c_scout c)
              else if (s =? "scout")%string then Coverage (c_known c) (c_adjacent c) (c_scout c + 1)
              else c
  | _ => c
  end.
Fixpoint lane_coverage (goal_id : value) (run_ids : list value) (feed : list value) (c : coverage)
  : result coverage :=
  match feed with
  | [] => Ok c
  | VDict item :: rest =>
      skip ← (if truthy goal_id then
                if hashable (dget "runId" item)
                then Ok (negb (existsb (py_eq (dget "runId" item)) run_ids)) else unhashable
              else Ok false);
      if (skip : bool) then lane_coverage goal_id run_ids rest c
      else if hashable (dget "lane" item)
           then lane_coverage goal_id run_ids rest (cover (dget "lane" item) c)
           else unhashable
  | _ :: rest => lane_coverage goal_id run_ids rest c
  end.
(** [min((0, 1, 3), key=...)]: the keys are compared after doubling. *)
Definition least_covered (c : coverage) : Z :=
  let '(s, k) := (0, c_known c) in
  let '(s, k) := if 2 * c_adjacent c <? k then (1, 2 * c_adjacent c) else (s, k) in
  if 2 * c_scout c <? k then 3 else s.
Definition first_step (goal_id : value) (completed recent_feed : list value) : result Z :=
  let ids := map (fun r => dget "id" (dict_or_empty r)) completed in
  if negb (forallb hashable ids) then unhashable
  else c ← lane_coverage goal_id ids (py_take 60 recent_feed) (Coverage 0 0 0); Ok (least_covered c).

Fixpoint quiet_runs (completed : list value) : Z :=
  match completed with
  | [] => 0
  | r :: rs => match stored_item_count (dict_or_empty r) with
               | Some 0 => 1 + quiet_runs rs
               | _ => 0
               end
  end.

Record exploration := Exploration {
  x_step : Z; preferred_lane : string; approach : string;
  consecutive_quiet_runs : Z; change_topic : bool }.
Definition build_exploration_context (recent_runs recent_feed : list value) (goal_id : value)
  : result exploration :=
  let completed := scoped_completed_runs recent_runs goal_id in
  step ← match next_step completed with
         | Some s => Ok s
         | None => first_step goal_id completed recent_feed
         end;
  let quiet := quiet_runs (py_take 5 completed) in
  let step := if (2 <=? quiet) && (fst (approach_at step) =? "known")%string
              then (step + 1) mod 4 else step in
  Ok (Exploration step (fst (approach_at step)) (snd (approach_at step)) quiet (2 <=? quiet)).
Definition exploration_value (x : exploration) : value :=
  VDict [("step", VInt (x_step x)); ("preferred_lane", VStr (preferred_lane x));
         ("approach", VStr (approach x)); ("consecutive_quiet_runs", VInt (consecutive_quiet_runs x));
         ("change_topic", VBool (change_topic x))].

(** ** Laws *)
Lemma next_step_range l s : next_step l = Some s -> 0 <= s < 4.
Proof.
  induction l as [|r l IH]; simpl; [done|]. repeat case_goal; auto.
  intros [= <-]. apply Z.mod_pos_bound. lia.
Qed.
Lemma least_covered_in c : least_covered c = 0 \/ least_covered c = 1 \/ least_covered c = 3.
Proof. unfold least_covered. destruct (_ <? _), (_ <? _); auto. Qed.
Lemma quiet_runs_bound l : 0 <= quiet_runs l <= Z.of_nat (length l).
Proof. induction l; cbn [quiet_runs length]; [lia|]. repeat case_goal; lia. Qed.
Lemma known_steps s : 0 <= s < 4 -> (fst (approach_at s) = "known" <-> s = 0 \/ s = 2).
Proof.
  intros H. assert (s = 0 \/ s = 1 \/ s = 2 \/ s = 3) as [->|[->|[->| ->]]] by lia; vm_compute;
    (split; [intros E; try discriminate E; auto|intros [E|E]; try discriminate E; reflexivity]).
Qed.

Definition ex_runs : list value :=
  [VDict [("id", VStr "r2"); ("status", VStr "completed");
          ("metrics", VDict [("explorationStep", VInt 3); ("feedItemsStored", VInt 0)])];
   VDict [("id", VStr "r1"); ("status", VStr "completed"); ("feedItemIds", VList [])];
   VDict [("id", VStr "r0"); ("status", VStr "failed")]].
