(* ===== verification/Prompt.v ===== *)
(** * Prompt inputs and output parsing ([autonomous_agent/prompt.py])

    Bounded digests, the source policy, reasoning removal and the structured
    output contract.  pydantic is outside the repository: the declared models
    are data ([schema]) and validation is the interface [Validator], whose law
    is that an accepted value conforms to its declaration. *)
From S2P Require Import Prelude PyStr PyFloat PyVal Json World Exploration.
#[local] Open Scope Z_scope.

Definition MAX_WORKSPACE_SECTION_CHARS : Z := 2500.
Definition MAX_RECENT_RUN_FIELD_CHARS : Z := 128.
Definition MAX_RECENT_RUN_SUMMARY_CHARS : Z := 600.
Definition NL : string := String (chr 10) "".
Definition TRUNCATION_MARKER : string := NL +++ "…[truncated]…" +++ NL.

(** ** Digests *)
(** [text[-n:]] for a positive [n]. *)
Definition utail (n : Z) (s : string) : string := udrop (Z.max 0 (ulen s - n)) s.
Definition _bounded_text (v : value) (max_chars : Z) : string :=
  let text := strip (py_str (vor v (VStr ""))) in
  if ulen text <=? max_chars then text
  else if max_chars <=? ulen TRUNCATION_MARKER then utake max_chars text
  else
    let remaining := max_chars - ulen TRUNCATION_MARKER in
    let head_chars := (remaining + 1) / 2 in
    let tail_chars := remaining - head_chars in
    let tail := if tail_chars =? 0 then "" else utail tail_chars text in
    utake head_chars text +++ TRUNCATION_MARKER +++ tail.

Definition opt_int (o : option Z) : value := match o with Some n => VInt n | None => VNone end.
Definition _recent_run_digest (run : dict) : dict :=
  let completed_at := dget "completedAt" run in
  let completed_at := if is_number completed_at then completed_at
                      else VStr (_bounded_text completed_at MAX_RECENT_RUN_FIELD_CHARS) in
  let field k := VStr (_bounded_text (dget k run) MAX_RECENT_RUN_FIELD_CHARS) in
  [("id", field "id"); ("trigger", field "trigger"); ("status", field "status");
   ("goalId", field "goalId");
   ("summary", VStr (_bounded_text (dget "summary" run) MAX_RECENT_RUN_SUMMARY_CHARS));
   ("feedItemsStored", opt_int (stored_item_count run));
   ("completedAt", completed_at)].

Definition _goal_digest (goal : dict) : dict :=
  [("id", dget "id" goal); ("title", dget "title" goal);
   ("description", VStr (_bounded_text (dget "description" goal) 600));
   ("priority", dget "priority" goal); ("tags", vor (dget "tags" goal) (VList []));
   ("lastRunAt", dget "lastRunAt" goal)].

(** The elements of [for tag in v]: lists, the keys of a dictionary, the
    characters of a text; other values are not iterable. *)
Fixpoint uchars (fuel : nat) (s : string) : list value :=
  match fuel with
  | O => []
  | S fuel => match s with
              | EmptyString => []
              | _ => VStr (utake 1 s) :: uchars fuel (udrop 1 s)
              end
  end.
Definition iterate (v : value) : result (list value) :=
  match v with
  | VList l => Ok l
  | VDict d => Ok (map (fun kv => VStr (fst kv)) d)
  | VStr s => Ok (uchars (String.length s) s)
  | _ => raise TypeError "object is not iterable"
  end.
Definition PROFILE_QUERY : string :=
  "personal profile priorities interests professional role tracked projects local life sports hobbies preferences privacy boundaries and recent autonomous findings".
Definition _profile_memory_query (selected_goal : option dict) : result string :=
  match selected_goal with
  | None | Some [] => Ok PROFILE_QUERY
  | Some goal =>
      let title := strip (py_str (vor (dget "title" goal) (VStr ""))) in
      tags ← iterate (vor (dget "tags" goal) (VList []));
      Ok (strip (PROFILE_QUERY +++ "; current goal: " +++ title +++ " " +++ join " " (map py_str tags)))
  end.

Definition workspace_key (user_id name : string) : string :=
  "autonomous:" +++ user_id +++ ":workspace:" +++ name.

(** ** Source policy ([nat_helpers/source_policy_types.py] lists the ids) *)
Definition SOURCE_POLICY_IDS : list string :=
  ["curated_domains"; "curated_feeds"; "perplexity_search"; "known_url_scrape"; "nvidia_docs";
   "uploaded_documents"; "workspace_data"; "x_mcp"; "cluster_state"; "network_state";
   "repository_data"; "fantasy_data"].
Definition mem_str (s : string) (l : list string) : bool := existsb (String.eqb s) l.
Fixpoint coerce_go (raws : list value) (result : list string) : list string :=
  match raws with
  | [] => result
  | raw :: raws =>
      let source_id := lower (strip (py_str raw)) in
      if negb (mem_str source_id SOURCE_POLICY_IDS) || mem_str source_id result
      then coerce_go raws result else coerce_go raws (result ++ [source_id])
  end.
Definition _coerce_source_ids (v : value) : list string :=
  coerce_go (match v with VList l => l | _ => [] end) [].
Definition strs (l : list string) : value := VList (map VStr l).

Definition sanitize_source_policy (v : value) : result dict :=
  match v with
  | VDict d =>
      let enabled := _coerce_source_ids (dget "enabledSources" d) in
      let disabled := _coerce_source_ids (dget "disabledSources" d) in
      let policy := match enabled with [] => [] | _ => [("enabledSources", strs enabled)] end in
      let policy := match disabled with [] => policy | _ => dset "disabledSources" (strs disabled) policy end in
      let policy := if is_bool (dget "requirePlanApproval" d)
                    then dset "requirePlanApproval" (dget "requirePlanApproval" d) policy else policy in
      max_calls ← try_except (py_int (dget "maxResearchToolCalls" d)) [TypeError; ValueError]
                    (fun _ => Ok 0);
      let policy := if 0 <? max_calls
                    then dset "maxResearchToolCalls" (VInt (Z.max 1 (Z.min 20 max_calls))) policy
                    else policy in
      let notes := strip (py_str (vor (dget "notes" d) (VStr ""))) in
      Ok (if (notes =? "")%string then policy else dset "notes" (VStr (utake 500 notes)) policy)
  | _ => Ok []
  end.

Definition render_source_policy_message (policy : dict) : string :=
  match policy with
  | [] => ""
  | _ =>
      let has k := truthy (dget k policy) in
      let set k := negb (is_none (dget k policy)) in
      join NL (
        ["[SOURCE_POLICY] Per-message source policy for this autonomous run."] ++
        (if has "enabledSources" then ["enabled_source_ids=" +++ dumps (dget "enabledSources" policy)] else []) ++
        (if has "disabledSources" then ["disabled_source_ids=" +++ dumps (dget "disabledSources" policy)] else []) ++
        (if set "maxResearchToolCalls"
         then ["max_research_tool_calls=" +++ py_str (dget "maxResearchToolCalls" policy)] else []) ++
        (if set "requirePlanApproval"
         then ["require_deep_research_plan_approval=" +++ lower (py_str (dget "requirePlanApproval" policy))] ++
              (if has "requirePlanApproval"
               then ["Before broad research, present the proposed scope, report sections, sources, and estimated effort directly in chat and ask the user to approve or revise the plan. Stop before any research calls."]
               else [])
         else []) ++
        (if has "notes" then ["notes=" +++ dumps (dget "notes" policy)] else []) ++
        ["Apply this policy silently. Do not echo this source policy message or describe internal planning or reasoning to the user."])
  end.

(** ** Reasoning and fences: the two regular expressions *)
(** The text after one whitespace character, after all of it. *)
Definition space1 (s : string) : option string :=
  match s with
  | String a s1 =>
      if ws1 a then Some s1 else
      match s1 with
      | String b s2 =>
          if ws2 a b then Some s2 else
          match s2 with String c s3 => if ws3 a b c then Some s3 else None | _ => None end
      | _ => None
      end
  | EmptyString => None
  end.
(** A literal, ignoring ASCII case. *)
Fixpoint strip_prefix_ci (p s : string) : option string :=
  match p, s with
  | EmptyString, _ => Some s
  | String a p', String b s' =>
      if Ascii.eqb (lower_ascii a) (lower_ascii b) then strip_prefix_ci p' s' else None
  | _, EmptyString => None
  end.
(** An opening tag "<think", bare or followed by whitespace and attributes up
    to the next ">"; then the first closing tag, spaces allowed before its
    ">". *)
Definition think_open (s : string) : option string :=
  match strip_prefix_ci "<think" s with
  | None => None
  | Some (String ">" r) => Some r
  | Some r => match space1 r with
              | Some r' => match cut r' ">" with Some (_, r'') => Some r'' | None => None end
              | None => None
              end
  end.
Definition think_close_here (s : string) : option string :=
  match strip_prefix_ci "</think" s with
  | Some r => match lstrip r with String ">" r' => Some r' | _ => None end
  | None => None
  end.
Fixpoint think_close (s : string) : option string :=
  match think_close_here s with
  | Some r => Some r
  | None => match s with String _ s' => think_close s' | EmptyString => None end
  end.
Fixpoint drop_think (fuel : nat) (s : string) : string :=
  match fuel with
  | O => s
  | S fuel =>
      match s with
      | EmptyString => EmptyString
      | String c s' =>
          match think_open s with
          | Some r => match think_close r with
                      | Some r' => drop_think fuel r'
                      | None => String c (drop_think fuel s')
                      end
          | None => String c (drop_think fuel s')
          end
      end
  end.
Definition strip_reasoning (text : string) : string := strip (drop_think (String.length text) text).

Definition FENCE : string := "```".
(** The stripped bodies of the fenced blocks, an optional "json" tag dropped,
    left to right. *)
Fixpoint fenced (fuel : nat) (s : string) : list string :=
  match fuel with
  | O => []
  | S fuel =>
      match cut s FENCE with
      | None => []
      | Some (_, r) =>
          let r := default r (strip_prefix_ci "json" r) in
          match cut r FENCE with
          | Some (body, rest) => strip body :: fenced fuel rest
          | None => []
          end
      end
  end.
Definition candidates (cleaned : string) : list string :=
  fenced (String.length cleaned) cleaned ++ [cleaned] ++
  match cut cleaned "{", rcut cleaned "}" with
  | Some (a, _), Some (b, _) =>
      if ulen a <? ulen b then [uslice (ulen a) (ulen b + 1) cleaned] else []
  | _, _ => []
  end.

(** ** The publication contract *)
Inductive schema :=
| SText (min_length max_length : Z) (not_blank : bool)
| SBool
| SEnum (values : list string)
| SList (max_length : Z) (item : schema)
| SModel (fields : list (string * (schema * option value))).

(** Declared fields with their defaults; [None] marks a required one. *)
Definition optional (n : string) (s : schema) (v : value) : string * (schema * option value) := (n, (s, Some v)).
Definition required_field (n : string) (s : schema) : string * (schema * option value) := (n, (s, None)).
Definition text_field (n : string) (max_length : Z) : string * (schema * option value) :=
  optional n (SText 0 max_length false) (VStr "").
Definition feed_item_schema : schema := SModel
  [optional "lane" (SEnum ["known"; "adjacent"; "scout"]) (VStr "known");
   required_field "title" (SText 1 160 true);
   required_field "bluf" (SText 1 500 true);
   text_field "body" 4000;
   text_field "source_url" 2048;
   text_field "thread_key" 160;
   optional "is_update" SBool (VBool false);
   text_field "update_of" 128;
   text_field "change_summary" 500;
   optional "confidence" (SEnum ["high"; "medium"; "low"]) (VStr "medium");
   text_field "confidence_reason" 500].
Definition workspace_schema : schema := SModel
  (map (fun n => text_field n MAX_WORKSPACE_SECTION_CHARS)
     ["heartbeat"; "interests"; "user"; "inner_state"; "memory"]).
Definition workspace_default : value :=
  VDict (map (fun n => (n, VStr "")) ["heartbeat"; "interests"; "user"; "inner_state"; "memory"]).
Definition output_schema : schema := SModel
  [required_field "summary" (SText 1 2000 true);
   text_field "executive_summary" 2000;
   optional "feed_items" (SList 2 feed_item_schema) (VList []);
   optional "workspace_updates" workspace_schema workspace_default;
   text_field "self_reflection" 2000].

(** A dumped value of a declared type: every field present, in order. *)
Fixpoint conforms (s : schema) (v : value) {struct s} : bool :=
  match s, v with
  | SText lo hi nb, VStr t =>
      (lo <=? ulen t) && (ulen t <=? hi) && (negb nb || negb (is_blank t))
  | SBool, VBool _ => true
  | SEnum vs, VStr t => mem_str t vs
  | SList n i, VList l => (Z.of_nat (length l) <=? n) && forallb (conforms i) l
  | SModel fs, VDict d =>
      (fix go (fs : list (string * (schema * option value))) (d : dict) {struct fs} : bool :=
         match fs, d with
         | [], [] => true
         | (n, (s, _)) :: fs, (k, v) :: d => (n =? k)%string && conforms s v && go fs d
         | _, _ => false
         end) fs d
  | _, _ => false
  end.
(** pydantic's [Model.model_validate(v).model_dump()]; [None] is its
    [ValidationError], a [ValueError]. *)
Class Validator := {
  model_validate : schema -> value -> option value;
  validate_conforms : forall s v v', model_validate s v = Some v' -> conforms s v' = true;
}.

Definition STRUCTURED_ERROR : string := "Backend returned invalid structured output.".
Section Parse.
Context `{V : Validator}.
Fixpoint first_valid (cs : list string) : result dict :=
  match cs with
  | [] => raise StructuredOutputError STRUCTURED_ERROR
  | c :: cs =>
      match loads c with
      | Ok (VDict d) => match model_validate output_schema (VDict d) with
                        | Some (VDict out) => Ok out
                        | _ => first_valid cs
                        end
      | _ => first_valid cs
      end
  end.
Definition parse_structured_output (text : string) : result dict :=
  first_valid (candidates (strip_reasoning text)).
End Parse.

Definition str_at (k : string) (d : dict) : string := match dget k d with VStr s => s | _ => "" end.
Definition item_from_output (ts : Z) (uid : string) (run_id : value) (item : dict) : dict :=
  new_feed_item ts uid run_id (str_at "lane" item) (str_at "title" item) (str_at "bluf" item)
    (str_at "body" item) (str_at "source_url" item) (str_at "thread_key" item)
    (is_true (dget "is_update" item)) (str_at "update_of" item) (str_at "change_summary" item)
    (str_at "confidence" item) (str_at "confidence_reason" item).
