(* ===== verification/PromptLaws.v ===== *)
(** * Laws of prompt inputs and output parsing

    Bounded digests, source-policy limits, the fail-closed output contract and
    the removal of reasoning blocks. *)
From S2P Require Import Prelude PyStr PyFloat PyVal Json World Exploration Prompt.
#[local] Open Scope Z_scope.

(** ** Lengths *)
Lemma ulen_utake_nat_eq n s : ulen_nat (utake_nat n s) = Nat.min n (ulen_nat s).
Proof.
  revert n. induction s as [|c s IH]; intros n; cbn [utake_nat ulen_nat]; [by rewrite Nat.min_0_r|].
  destruct (is_cont c) eqn:E; [cbn [ulen_nat]; by rewrite E, IH|].
  destruct n; [done|]. cbn [ulen_nat]. rewrite E, IH. lia.
Qed.
Lemma ulen_udrop_nat n s : ulen_nat (udrop_nat n s) = (ulen_nat s - n)%nat.
Proof.
  pose proof (utake_udrop_nat n s) as H. pose proof (ulen_app (utake_nat n s) (udrop_nat n s)) as A.
  rewrite H in A. unfold ulen in A. rewrite ulen_utake_nat_eq in A. lia.
Qed.
Lemma ulen_utail n s : 0 <= n -> ulen (utail n s) <= n.
Proof.
  intros Hn. unfold utail, udrop, norm_index.
  destruct (Z.ltb_spec (Z.max 0 (ulen s - n)) 0); [lia|].
  destruct (Z.to_nat (Z.max 0 (ulen s - n))) as [|k] eqn:E; [lia|].
  unfold ulen in *. rewrite ulen_udrop_nat. lia.
Qed.

(** Every digest is bounded: [_bounded_text] never exceeds its limit, is
    the stripped text itself when that fits, and otherwise keeps the beginning
    of the text. *)
Theorem bounded_text_bounds v n :
  0 <= n ->
  let text := strip (py_str (vor v (VStr ""))) in
  ulen (_bounded_text v n) <= n /\
  (ulen text <= n -> _bounded_text v n = text) /\
  (n < ulen text -> ulen TRUNCATION_MARKER < n ->
     exists rest, _bounded_text v n =
       utake ((n - ulen TRUNCATION_MARKER + 1) / 2) text +++ TRUNCATION_MARKER +++ rest).
Proof.
  intros Hn text. unfold _bounded_text. fold text. cbv zeta.
  destruct (Z.leb_spec (ulen text) n) as [Hle|Hgt].
  { split; [done|]. split; [done|lia]. }
  destruct (Z.leb_spec n (ulen TRUNCATION_MARKER)) as [Hm|Hm].
  { split; [by apply ulen_utake|]. split; lia. }
  split; [|split; [lia|intros; eexists; reflexivity]].
  set (m := ulen TRUNCATION_MARKER) in *.
  assert (Hh : 0 <= (n - m + 1) / 2 /\ 2 * ((n - m + 1) / 2) <= n - m + 1).
  { pose proof (Z.div_mod (n - m + 1) 2). pose proof (Z.mod_pos_bound (n - m + 1) 2). lia. }
  rewrite !ulen_app. fold m.
  assert (Ht : ulen (utake ((n - m + 1) / 2) text) <= (n - m + 1) / 2) by (apply ulen_utake; lia).
  destruct (Z.eqb_spec (n - m - (n - m + 1) / 2) 0) as [E|E].
  - change (ulen "") with 0. lia.
  - assert (Htl : ulen (utail (n - m - (n - m + 1) / 2) text) <= n - m - (n - m + 1) / 2)
      by (apply ulen_utail; lia). lia.
Qed.
Lemma bounded_text_bounds_witness : ulen (_bounded_text (VStr "a long text that is cut") 20) <= 20.
Proof. apply (bounded_text_bounds (VStr "a long text that is cut") 20). lia. Defined.

(** ** Source policy *)
Lemma mem_str_spec s l : mem_str s l = true <-> s ∈ l.
Proof.
  unfold mem_str. rewrite existsb_exists. rewrite list_elem_of_In. split.
  - intros (x & Hx & E%String.eqb_eq). by subst.
  - intros H. exists s. by rewrite String.eqb_refl.
Qed.
Lemma coerce_go_ok raws acc :
  NoDup acc -> (forall s, s ∈ acc -> s ∈ SOURCE_POLICY_IDS) ->
  NoDup (coerce_go raws acc) /\ forall s, s ∈ coerce_go raws acc -> s ∈ SOURCE_POLICY_IDS.
Proof.
  revert acc. induction raws as [|raw raws IH]; intros acc Hn Ha; [done|]. cbn [coerce_go]. cbv zeta.
  set (i := lower _). destruct (mem_str i SOURCE_POLICY_IDS) eqn:Ei; cbn [negb orb]; [|by apply IH].
  destruct (mem_str i acc) eqn:Ea; [by apply IH|]. apply IH.
  - apply NoDup_app. split; [done|]. split; [|by apply NoDup_singleton].
    intros x Hx ->%list_elem_of_singleton. apply mem_str_spec in Hx. congruence.
  - intros s [?| ->%list_elem_of_singleton]%elem_of_app; [by apply Ha|]. by apply mem_str_spec.
Qed.

(** The fields a sanitised policy can have, and their values. *)
Definition policy_field (k : string) (v : value) : Prop :=
  match v with
  | VList l => (k = "enabledSources" \/ k = "disabledSources") /\
               exists ids, l = map VStr ids /\ ids <> [] /\ NoDup ids /\
                           forall s, s ∈ ids -> s ∈ SOURCE_POLICY_IDS
  | VBool _ => k = "requirePlanApproval"
  | VInt n => k = "maxResearchToolCalls" /\ 1 <= n <= 20
  | VStr s => k = "notes" /\ s <> "" /\ ulen s <= 500
  | _ => False
  end.
Definition policy_ok (d : dict) : Prop := forall k v, (k, v) ∈ d -> policy_field k v.
Lemma policy_dset k v d : policy_ok d -> policy_field k v -> policy_ok (dset k v d).
Proof.
  intros Hd Hv. unfold policy_ok in *. revert Hd.
  induction d as [|[k0 v0] d IH]; intros Hd k' v' H; simpl in H.
  - apply list_elem_of_singleton in H as [= -> ->]. done.
  - destruct (String.eqb_spec k k0) as [->|Hne].
    + apply elem_of_cons in H as [[= -> ->]|H]; [done|]. apply Hd. by apply list_elem_of_further.
    + apply elem_of_cons in H as [[= -> ->]|H]; [apply Hd, list_elem_of_here|].
      apply IH; [|done]. intros. apply Hd. by apply list_elem_of_further.
Qed.
Lemma ids_field k v : k = "enabledSources" \/ k = "disabledSources" -> _coerce_source_ids v <> [] ->
  policy_field k (strs (_coerce_source_ids v)).
Proof.
  intros Hk Hne. split; [done|]. exists (_coerce_source_ids v).
  destruct (coerce_go_ok (match v with VList l => l | _ => [] end) []) as [? ?];
    [apply NoDup_nil_2|set_solver|]. done.
Qed.

(** A sanitised source policy contains only the known fields with values in
    range: known source ids without repetition, one to twenty research calls,
    a boolean approval flag and at most 500 characters of notes; sanitising a
    stored value only fails on an infinite float. *)
Theorem source_policy_bounds v :
  match sanitize_source_policy v with
  | Ok policy => policy_ok policy
  | Raise e => exn_cls e = OverflowError
  end.
Proof.
  destruct v as [| | | | | |d]; try (intros ? ? H; set_solver). unfold sanitize_source_policy. cbv zeta.
  set (p1 := match _coerce_source_ids (dget "enabledSources" d) with [] => _ | _ => _ end).
  assert (P1 : policy_ok p1).
  { subst p1. destruct (_coerce_source_ids (dget "enabledSources" d)) eqn:E; [intros ? ? H; set_solver|].
    rewrite <- E. intros k v [= -> ->]%list_elem_of_singleton. apply ids_field; [auto|by rewrite E]. }
  set (p2 := match _coerce_source_ids (dget "disabledSources" d) with [] => p1 | _ => _ end).
  assert (P2 : policy_ok p2).
  { subst p2. destruct (_coerce_source_ids (dget "disabledSources" d)) eqn:E; [done|].
    rewrite <- E. apply policy_dset; [done|]. apply ids_field; [auto|by rewrite E]. }
  set (p3 := if is_bool _ then _ else p2).
  assert (P3 : policy_ok p3).
  { subst p3. case_match eqn:E; [|done]. apply policy_dset; [done|].
    by destruct (dget "requirePlanApproval" d). }
  destruct (try_except _ _ _) as [m|e] eqn:Em; cbn [mbind result_bind].
  - assert (P4 : policy_ok (if 0 <? m then dset "maxResearchToolCalls" (VInt (Z.max 1 (Z.min 20 m))) p3 else p3)).
    { destruct (0 <? m); [|done]. apply policy_dset; [done|]. split; [done|lia]. }
    set (notes := strip _). destruct (String.eqb_spec notes "") as [E|E]; [done|].
    apply policy_dset; [done|]. split; [done|]. split; [|by apply ulen_utake].
    unfold utake, norm_index. change (500 <? 0) with false. cbv iota.
    change (Z.to_nat 500) with 500%nat. destruct notes as [|c s]; [done|]. cbn [utake_nat].
    by destruct (is_cont c).
  - unfold try_except in Em. destruct (py_int _) eqn:Ei; [done|].
    destruct (py_int_exn _ _ Ei) as [H|[H|H]]; unfold exn_in in Em; rewrite H in Em; simpl in Em;
      try discriminate Em. by injection Em as <-.
Qed.

(** ** Structured output *)
Section Parse.
Context `{V : Validator}.
Lemma first_valid_spec cs :
  match first_valid cs with
  | Ok out => conforms output_schema (VDict out) = true /\
              exists c d, c ∈ cs /\ loads c = Ok (VDict d) /\
                          model_validate output_schema (VDict d) = Some (VDict out)
  | Raise e => e = Exn StructuredOutputError STRUCTURED_ERROR
  end.
Proof.
  induction cs as [|c cs IH]; simpl; [done|].
  assert (S : match first_valid cs with
    | Ok out => conforms output_schema (VDict out) = true /\
                exists c0 d, c0 ∈ c :: cs /\ loads c0 = Ok (VDict d) /\
                             model_validate output_schema (VDict d) = Some (VDict out)
    | Raise e => e = Exn StructuredOutputError STRUCTURED_ERROR end).
  { destruct (first_valid cs); [|done]. destruct IH as (? & c0 & d & ? & ?).
    split; [done|]. exists c0, d. set_solver. }
  destruct (loads c) as [[| | | | | |d]|] eqn:El; try exact S.
  destruct (model_validate output_schema (VDict d)) as [[| | | | | |out]|] eqn:Ev; try exact S.
  split; [by apply (validate_conforms _ _ _ Ev)|]. exists c, d. set_solver.
Qed.

End Parse.

(** A validator that strips texts, fills defaults and refuses unknown fields. *)
Fixpoint ref_fields (validate : schema -> value -> option value)
    (fs : list (string * (schema * option value))) (d : dict) : option dict :=
  match fs with
  | [] => Some []
  | (n, (s, def)) :: fs =>
      match (match dlookup n d with Some v => validate s v | None => def end), ref_fields validate fs d with
      | Some v, Some rest => Some ((n, v) :: rest)
      | _, _ => None
      end
  end.
Fixpoint ref_check (fuel : nat) (s : schema) (v : value) : option value :=
  match fuel with
  | O => None
  | S fuel =>
      match s, v with
      | SText _ _ _, VStr t => Some (VStr (strip t))
      | SList _ i, VList l =>
          option_map VList (fold_right (fun x acc => match ref_check fuel i x, acc with
                                        | Some y, Some ys => Some (y :: ys) | _, _ => None end) (Some []) l)
      | SModel fs, VDict d =>
          if forallb (fun k => mem_str k (map fst fs)) (dkeys d)
          then option_map VDict (ref_fields (ref_check fuel) fs d) else None
      | _, _ => Some v
      end
  end.
Definition ref_validate (s : schema) (v : value) : option value :=
  match ref_check 8 s v with Some v' => if conforms s v' then Some v' else None | None => None end.
Lemma ref_validate_conforms s v v' : ref_validate s v = Some v' -> conforms s v' = true.
Proof.
  unfold ref_validate. destruct (ref_check 8 s v) as [x|]; [|done].
  destruct (conforms s x) eqn:E; [|done]. by intros [= <-].
Qed.
Definition ref_validator : Validator :=
  {| model_validate := ref_validate; validate_conforms := ref_validate_conforms |}.
Definition ex_reply : string :=
  "<think>drafting {secret}</think>" +++ dumps (VDict [("summary", VStr " ok "); ("feed_items", VList [])]).
