(* ===== verification/Messages.v ===== *)
(** * Prompt assembly ([build_messages] of [autonomous_agent/prompt.py])

    The runtime input, the output contract and the message list.  The wall
    clock text and the calendar day of a timestamp come from the host. *)
From S2P Require Import Prelude PyStr PyFloat PyVal Json PyUrl Sha Dedupe World Exploration Prompt PromptText.
#[local] Open Scope Z_scope.

Section Messages.
Context (local_day : float -> option string).

(** [goal.get(...)] of a goal that is not a dictionary fails. *)
Definition goal_active (g : value) : result bool :=
  match g with
  | VDict d => Ok (py_eq (dget_or "status" (VStr "active") d) (VStr "active"))
  | _ => raise AttributeError "object has no attribute 'get'"
  end.
Fixpoint active_goal_digests (goals : list value) : result (list value) :=
  match goals with
  | [] => Ok []
  | g :: gs =>
      a ← goal_active g;
      rest ← active_goal_digests gs;
      Ok (if (a : bool) then VDict (_goal_digest (dict_or_empty g)) :: rest else rest)
  end.
Definition select_goal (goals : list value) (goal_id : value) : option dict :=
  if truthy goal_id then
    match List.find (fun g => py_eq (dget "id" (dict_or_empty g)) goal_id) goals with
    | Some g => Some (dict_or_empty g) | None => None end
  else None.
Definition run_digests (runs : list value) : list value :=
  flat_map (fun r => match r with VDict d => [VDict (_recent_run_digest d)] | _ => [] end) runs.

Definition feed_limits : digest_limits := Limits 60 96 140 80 96 true.

Definition bounded_section (workspace : gmap string string) (name : string) : string :=
  _bounded_text (match workspace !! name with Some s => VStr s | None => VNone end)
    MAX_WORKSPACE_SECTION_CHARS.
Definition stable_sections (workspace : gmap string string) : list string :=
  let b := bounded_section workspace in
  ["# Daedalus Autonomous Runtime"; b "identity"; b "soul"; b "schema";
   "## Curiosity Map" +++ NL +++ b "interests";
   "## Collaborator Context" +++ NL +++ b "user";
   "## Runtime Routines" +++ NL +++ b "heartbeat";
   "## Memory Index Snapshot" +++ NL +++ b "memory";
   "## Private Inner State" +++ NL +++ b "inner_state"].

Definition output_contract (x : exploration) : value := VDict
  [("summary", VStr "most important supported run result, with verification scope");
   ("executive_summary", VStr "supported consequence for the user and any decision needed");
   ("feed_items", VList [VDict
      [("lane", VStr (preferred_lane x));
       ("title", VStr "short specific title");
       ("bluf", VStr "supported conclusion or decision needing attention");
       ("body", VStr "consequence, evidence and material uncertainty; proposed next action if needed");
       ("source_url", VStr "primary source URL when available");
       ("thread_key", VStr "required canonical event/topic key, independent of publisher");
       ("is_update", VBool false);
       ("update_of", VStr "");
       ("change_summary", VStr "");
       ("confidence", VStr "medium");
       ("confidence_reason", VStr "specific reason")]]);
   ("workspace_updates", VDict
      [("heartbeat", VStr "updated routine text or empty string");
       ("interests", VStr "updated curiosity map or empty string");
       ("user", VStr "updated collaborator context or empty string");
       ("inner_state", VStr "bounded research follow-ups and retry conditions or empty string");
       ("memory", VStr "updated Memory Index on maintenance runs or empty string")]);
   ("self_reflection", VStr "quality assessment and next improvement")].

Definition runtime_input (current_time user_id action_policy : string) (source_policy request : dict)
    (goal_id : value) (active_goals : list value) (selected_goal : option dict)
    (memory_query : string) (recent_runs : list value) (x : exploration)
    (already_surfaced : list dict) : value := VDict
  [("current_time", VStr current_time);
   ("user_id", VStr user_id);
   ("action_policy", VStr action_policy);
   ("source_policy", VDict source_policy);
   ("trigger", dget_or "trigger" (VStr "scheduled") request);
   ("goal_id", goal_id);
   ("manual_prompt", dget_or "prompt" (VStr "") request);
   ("active_goals", VList active_goals);
   ("selected_goal", match selected_goal with Some g => VDict g | None => VNone end);
   ("profile_memory_query", VStr memory_query);
   ("recent_runs", VList (run_digests (py_take 5 recent_runs)));
   ("recent_objective_runs",
      VList (run_digests (py_take 5 (scoped_completed_runs recent_runs goal_id))));
   ("exploration", exploration_value x);
   ("already_surfaced", VList (map VDict already_surfaced))].

Definition message (content : string) : value :=
  VDict [("role", VStr "user"); ("content", VStr content)].
(** The stable sections come first, the overlay last. *)
Definition prompt_text (sections : list string) (overlay : string) : string :=
  join (NL +++ NL) (List.filter (fun s => negb (is_blank s)) sections) +++ NL +++ NL +++ overlay.

Definition build_messages (now : Z) (current_time user_id : string) (config : dict)
    (workspace : gmap string string) (goals recent_runs recent_feed : list value) (request : dict)
    (x : exploration) : result (list value) :=
  active_goals ← active_goal_digests goals;
  let goal_id := dget "goalId" request in
  let selected_goal := select_goal goals goal_id in
  memory_query ← _profile_memory_query selected_goal;
  window_ms ← window_ms_for_days (dget "feedDedupeWindowDays" config);
  already_surfaced ← summarize_recent_feed local_day feed_limits now window_ms recent_feed;
  let action_policy := py_str (vor (dget "actionPolicy" config) (VStr "broad_autonomy")) in
  policy ← sanitize_source_policy (dget "sourcePolicy" config);
  let policy := dset "requirePlanApproval" (VBool false) policy in
  let runtime := runtime_input current_time user_id action_policy policy request goal_id
                   active_goals selected_goal memory_query recent_runs x already_surfaced in
  let overlay := instructions memory_query action_policy (output_contract x) runtime in
  let policy_message := render_source_policy_message policy in
  Ok ([message ("[IDENTITY] username=" +++ user_id)] ++
      (if (policy_message =? "")%string then [] else [message policy_message]) ++
      [message (prompt_text (stable_sections workspace) overlay)]).
End Messages.
