(* ===== verification/Backend.v ===== *)
(** * The backend client ([autonomous_agent/backend_client.py])

    One streamed request: the SSE decoder with its terminal, error, approval
    and OAuth events, and the race between the stream, the abort flag and the
    request timeout.  httpx and asyncio are outside the repository: an
    [exchange] is what one request delivers, a [race] which tasks had finished
    when [asyncio.wait] returned. *)
From S2P Require Import Prelude PyStr PyFloat PyVal Json Prompt.
#[local] Open Scope Z_scope.

Definition MAX_RESPONSE_CHARS : Z := 4 * 1024 * 1024.
Definition DEFAULT_TIMEZONE : string := "America/New_York".

(** ** OAuth hints *)
Definition any_in (terms : list string) (s : string) : bool := existsb (contains s) terms.
Definition auth_terms : list string := ["oauth"; "authorization"; "authorize"; "authenticate"; "auth"].
Definition required_terms : list string :=
  ["required"; "needed"; "missing"; "expired"; "connect"; "login"; "unauthenticated"; "unauthorized"].
Definition _looks_like_oauth_text (text : string) : bool :=
  let lowered := lower text in any_in auth_terms lowered && any_in required_terms lowered.

(** The longest prefix without whitespace, angle brackets, a double quote or a
    closing parenthesis. *)
Definition url_stop (c : ascii) : bool :=
  char_is "<" c || char_is ">" c || char_is dq c || char_is ")" c.
Fixpoint url_body (s : string) : string * string :=
  match s with
  | EmptyString => ("", "")
  | String c s' =>
      if url_stop c then ("", s)
      else match space1 s with
           | Some _ => ("", s)
           | None => let '(body, rest) := url_body s' in (String c body, rest)
           end
  end.
(** A match of the URL expression at the head of the text, and what follows. *)
Definition url_here (s : string) : option (string * string) :=
  let scheme := if startswith s "https://" then "https://"
                else if startswith s "http://" then "http://" else "" in
  if (scheme =? "")%string then None
  else let '(body, rest) := url_body (removeprefix s scheme) in
       if (body =? "")%string then None else Some (scheme +++ body, rest).
Fixpoint url_matches (fuel : nat) (s : string) : list string :=
  match fuel with
  | O => []
  | S fuel =>
      match url_here s with
      | Some (url, rest) => url :: url_matches fuel rest
      | None => match s with EmptyString => [] | String _ s' => url_matches fuel s' end
      end
  end.
Definition trailing_mark (c : ascii) : bool := char_is "." c || char_is "," c || char_is ";" c.
Definition is_auth_url (url : string) : bool :=
  any_in ["oauth"; "auth"; "accounts.google.com"] (lower url).
Definition _extract_auth_url_from_text (text : string) : string :=
  if negb (_looks_like_oauth_text text) then ""
  else match List.find is_auth_url
               (map (rstrip_chars trailing_mark) (url_matches (String.length text) text)) with
       | Some url => url
       | None => ""
       end.

Record oauth := OAuth { auth_url : string; oauth_state : string }.
(** [str(d.get(k1) or d.get(k2) or ... or "")]. *)
Definition first_text (ks : list string) (d : dict) : string :=
  py_str (fold_right (fun k rest => vor (dget k d) rest) (VStr "") ks).
Definition oauth_of (d : dict) : oauth :=
  OAuth (first_text ["auth_url"; "authUrl"; "authorization_url"] d)
        (first_text ["oauth_state"; "oauthState"; "state"] d).
(** The first candidate with a URL, or else the last one. *)
Fixpoint scan_oauth (candidates : list dict) (acc : oauth) : oauth :=
  match candidates with
  | [] => acc
  | c :: cs => if (auth_url (oauth_of c) =? "")%string then scan_oauth cs (oauth_of c) else oauth_of c
  end.
Definition is_oauth_type (c : dict) : bool :=
  py_eq (vor (dget "event_type" c) (vor (dget "type" c) (dget "event" c))) (VStr "oauth_required").
Definition embedded_urls (c : dict) : list string :=
  flat_map (fun kv => match snd kv with
                      | VStr s => let url := _extract_auth_url_from_text s in
                                  if (url =? "")%string then [] else [url]
                      | _ => [] end) c.
Definition is_event (name : string) (event_name : option string) : bool :=
  match event_name with Some e => (e =? name)%string | None => false end.
Definition oauth_candidates (d : dict) : list dict :=
  d :: flat_map (fun k => match dget k d with VDict v => [v] | _ => [] end) ["data"; "payload"; "metadata"].
Definition extract_from_dict (event_name : option string) (d : dict) : option oauth :=
  let candidates := oauth_candidates d in
  let found := scan_oauth candidates (OAuth "" "") in
  if (is_event "oauth_required" event_name || existsb is_oauth_type candidates) &&
     negb (auth_url found =? "")%string
  then Some found
  else match flat_map embedded_urls candidates with
       | url :: _ => Some (OAuth url "")
       | [] => None
       end.
Definition extract_oauth_required_payload (event_name : option string) (parsed : value) : option oauth :=
  match parsed with
  | VDict d => extract_from_dict event_name d
  | VStr s =>
      match loads s with
      | Ok (VDict d) => extract_from_dict event_name d
      | Ok _ => None
      | Raise _ => let url := _extract_auth_url_from_text s in
                   if (url =? "")%string then None else Some (OAuth url "")
      end
  | _ => None
  end.

(** ** Reading the stream *)
Definition INVALID : string := "backend sent an invalid stream event".
Definition REPORTED : string := "backend stream reported an error".
Definition APPROVAL : string := "The backend requires user approval to continue.".
Definition OAUTH : string := "OAuth authorization is required.".
Definition ENDED : string := "backend stream ended before completion".
Definition OVERSIZE : string := "backend response exceeded " +++ str_of_Z MAX_RESPONSE_CHARS +++ " characters".

Record stream_state := Stream { parts : list string; response_chars : Z; completed : bool }.
Definition started_stream : stream_state := Stream [] 0 false.

(** One entry of ["choices"]. *)
Definition on_choice (st : stream_state) (choice : value) : result stream_state :=
  match choice with
  | VDict c =>
      let finish_reason := dget "finish_reason" c in
      let terminal := dget_or "daedalus_terminal" (VBool false) c in
      let delta := dget_or "delta" (VDict []) c in
      if (negb (is_none finish_reason) && negb (is_str finish_reason)) || negb (is_bool terminal)
         || negb (is_dict delta)
      then raise RunAbortedError INVALID
      else if py_eq finish_reason (VStr "error") then raise RunAbortedError REPORTED
      else if py_eq finish_reason (VStr "mcp_approval_required") then raise ApprovalRequiredError APPROVAL
      else
        let done := completed st || is_true terminal || truthy finish_reason in
        match dget "content" (match delta with VDict d => d | _ => [] end) with
        | VNone => Ok (Stream (parts st) (response_chars st) done)
        | VStr s => if (s =? "")%string then Ok (Stream (parts st) (response_chars st) done)
                    else Ok (Stream (parts st ++ [s]) (response_chars st + ulen s) done)
        | _ => raise RunAbortedError INVALID
        end
  | _ => raise RunAbortedError INVALID
  end.
Fixpoint on_choices (st : stream_state) (choices : list value) : result stream_state :=
  match choices with
  | [] => Ok st
  | c :: cs => st' ← on_choice st c; on_choices st' cs
  end.
(** One decoded chunk under the current event name. *)
Definition on_chunk (event : option string) (st : stream_state) (chunk : dict) : result stream_state :=
  if is_event "error" event || truthy (dget "error" chunk) then raise RunAbortedError REPORTED
  else if is_event "mcp_approval_required" event then raise ApprovalRequiredError APPROVAL
  else match extract_oauth_required_payload event (VDict chunk) with
  | Some _ => raise OAuthRequiredError OAUTH
  | None =>
      match dget_or "choices" (VList []) chunk with
      | VList choices =>
          st' ← on_choices st choices;
          if MAX_RESPONSE_CHARS <? response_chars st' then raise RunAbortedError OVERSIZE else Ok st'
      | _ => raise RunAbortedError INVALID
      end
  end.
(** The data of one SSE event. *)
Definition on_data (event : option string) (st : stream_state) (data : string) : result stream_state :=
  if (strip data =? "[DONE]")%string then Ok (Stream (parts st) (response_chars st) true)
  else match loads data with
       | Ok (VDict chunk) => on_chunk event st chunk
       | _ => raise RunAbortedError INVALID
       end.

(** What one request delivers: a failure of the connection, or a response with
    its status, its lines and what ends them (the close of the connection, or
    an exception of the transport). *)
Record response := Response { status_code : Z; rejected : bool; lines : list string; broken : option exn }.
Inductive exchange := NoConnection (e : exn) | Answered (r : response).

Definition finish (st : stream_state) : result string :=
  if completed st then Ok (String.concat "" (parts st)) else raise RunAbortedError ENDED.
Fixpoint read_lines (event : option string) (st : stream_state) (ls : list string) (broken : option exn)
  : result string :=
  match ls with
  | [] => match broken with Some e => Raise e | None => finish st end
  | line :: ls =>
      if (line =? "")%string then read_lines None st ls broken
      else if startswith line "event:"
      then read_lines (Some (strip (removeprefix line "event:"))) st ls broken
      else if negb (startswith line "data:") then read_lines event st ls broken
      else
        st' ← on_data event st (removeprefix (removeprefix line "data:") " ");
        if completed st' then finish st' else read_lines event st' ls broken
  end.
Definition _read_stream (x : exchange) : result string :=
  match x with
  | NoConnection e => Raise e
  | Answered r =>
      if rejected r then raise RunAbortedError ("backend returned HTTP " +++ str_of_Z (status_code r))
      else read_lines None started_stream (lines r) (broken r)
  end.

(** ** The request and its race with abort and timeout *)
Record backend_client := BackendClient {
  base_url : string; api_path : string; client_user : string; request_timeout : Z }.
Definition make_client (base api user : string) (timeout : Z) : backend_client :=
  BackendClient (rstrip_chars (char_is "/") base) api user timeout.

Definition _headers (getenv : string -> option string) (b : backend_client) (execution_id : string)
  : list (string * string) :=
  let token := strip (default "" (getenv "DAEDALUS_INTERNAL_API_TOKEN")) in
  [("x-user-id", client_user b); ("x-timezone", DEFAULT_TIMEZONE);
   ("x-daedalus-execution-scope", "autonomy")] ++
  (if (token =? "")%string then [] else [("x-daedalus-internal-token", token)]) ++
  (if is_blank execution_id then [] else [("x-daedalus-execution-id", strip execution_id)]).
Definition payload (schema : value) (messages : list value) : value := VDict
  [("messages", VList messages); ("stream", VBool true);
   ("stream_options", VDict [("include_usage", VBool true)]);
   ("response_mode", VStr "final_only"); ("autonomy_output_schema", schema)].
Record http_request := HttpRequest {
  url : string; json_body : value; headers : list (string * string) }.
Definition stream_request (getenv : string -> option string) (schema : value) (b : backend_client)
    (messages : list value) (execution_id : string) : http_request :=
  HttpRequest (base_url b +++ api_path b) (payload schema messages) (_headers getenv b execution_id).

(** What [asyncio.wait] saw: whether the watcher of the abort flag and the
    reader had finished; the watcher only finishes once the flag is set. *)
Record race := Race { watcher_done : bool; reader_done : bool }.
Definition ABORTED : string := "backend request aborted".
Definition _call_stream (b : backend_client) (abort_before abort_after : bool) (w : race)
    (reader : result string) : result string :=
  if abort_before then raise RunAbortedError ABORTED
  else if watcher_done w && abort_after then raise RunAbortedError ABORTED
  else if reader_done w then reader
  else raise RunAbortedError ("backend request exceeded " +++ str_of_Z (request_timeout b) +++ "s").

(** ** Laws of the streamed backend request

    The stream read line by line is related to a description of its events:
    which text a completed stream stands for, which events end or refuse it,
    and which errors a caller can see. *)
(** ** A description of the stream *)
(** An SSE event: its name and one data line. *)
Abbreviation frame := (option string * string)%type.
Fixpoint frames (event : option string) (ls : list string) : list frame :=
  match ls with
  | [] => []
  | line :: ls =>
      if (line =? "")%string then frames None ls
      else if startswith line "event:" then frames (Some (strip (removeprefix line "event:"))) ls
      else if negb (startswith line "data:") then frames event ls
      else (event, removeprefix (removeprefix line "data:") " ") :: frames event ls
  end.

Definition choice_delta (c : dict) : value := dget_or "delta" (VDict []) c.
Definition choice_text (c : value) : string :=
  match c with
  | VDict c => match choice_delta c with VDict d => str_at "content" d | _ => "" end
  | _ => ""
  end.
Definition choice_ends (c : value) : bool :=
  match c with
  | VDict c => is_true (dget_or "daedalus_terminal" (VBool false) c) || truthy (dget "finish_reason" c)
  | _ => false
  end.
Definition choice_good (c : value) : bool :=
  match c with
  | VDict c =>
      match dget "finish_reason" c with
      | VNone => true
      | VStr s => negb (s =? "error")%string && negb (s =? "mcp_approval_required")%string
      | _ => false
      end && is_bool (dget_or "daedalus_terminal" (VBool false) c) &&
      match choice_delta c with
      | VDict d => is_none (dget "content" d) || is_str (dget "content" d)
      | _ => false
      end
  | _ => false
  end.
Definition is_done (data : string) : bool := (strip data =? "[DONE]")%string.
Definition chunk_of (data : string) : option dict :=
  match loads data with Ok (VDict d) => Some d | _ => None end.
Definition choices_of (data : string) : list value :=
  match chunk_of data with
  | Some d => match dget_or "choices" (VList []) d with VList l => l | _ => [] end
  | None => []
  end.
(** The text an event carries, whether it completes the answer, and whether
    it is an event of a successful answer at all. *)
Definition frame_text (f : frame) : string :=
  if is_done (snd f) then "" else String.concat "" (map choice_text (choices_of (snd f))).
Definition frame_ends (f : frame) : bool := is_done (snd f) || existsb choice_ends (choices_of (snd f)).
Definition frame_good (f : frame) : bool :=
  is_done (snd f) ||
  match chunk_of (snd f) with
  | Some d =>
      negb (is_event "error" (fst f)) && negb (truthy (dget "error" d)) &&
      negb (is_event "mcp_approval_required" (fst f)) &&
      match extract_oauth_required_payload (fst f) (VDict d) with Some _ => false | None => true end &&
      is_list (dget_or "choices" (VList []) d) && forallb choice_good (choices_of (snd f))
  | None => false
  end.

(** ** What one event does to the state *)
Definition st_text (st : stream_state) : string := String.concat "" (parts st).
(** [st'] extends [st] by the text [t], and is complete if [e]. *)
Record extends (st st' : stream_state) (t : string) (e : bool) : Prop := Extends {
  ext_text : st_text st' = st_text st +++ t;
  ext_chars : response_chars st' = response_chars st + ulen t;
  ext_done : completed st' = completed st || e }.

Lemma concat_nil_cons s l : String.concat "" (s :: l) = s +++ String.concat "" l.
Proof. destruct l; [by rewrite append_nil_r|done]. Qed.
Lemma concat_app l1 l2 : String.concat "" (l1 ++ l2) = String.concat "" l1 +++ String.concat "" l2.
Proof.
  induction l1 as [|s l1 IH]; [done|]. rewrite <- app_comm_cons, !concat_nil_cons, IH.
  by rewrite append_assoc.
Qed.
Lemma extends_refl st : extends st st "" false.
Proof. split; [by rewrite append_nil_r|change (ulen "") with 0; lia|by rewrite orb_false_r]. Qed.
Lemma extends_trans st st1 st2 t1 t2 e1 e2 :
  extends st st1 t1 e1 -> extends st1 st2 t2 e2 -> extends st st2 (t1 +++ t2) (e1 || e2).
Proof.
  intros [A B C] [A' B' C']. split; [by rewrite A', A, append_assoc|rewrite ulen_app; lia|].
  by rewrite C', C, orb_assoc.
Qed.

(** The exceptions the stream reader raises itself: fixed texts. *)
Definition stream_errors : list exn :=
  [Exn RunAbortedError INVALID; Exn RunAbortedError REPORTED; Exn RunAbortedError OVERSIZE;
   Exn RunAbortedError ENDED; Exn ApprovalRequiredError APPROVAL; Exn OAuthRequiredError OAUTH].
Definition fails {A} (m : result A) : Prop := exists e, m = Raise e /\ e ∈ stream_errors.
Lemma fails_raise {A} c msg : Exn c msg ∈ stream_errors -> fails (A := A) (raise c msg).
Proof. intros. by eexists. Qed.
Ltac stream_fail := apply fails_raise; unfold stream_errors; set_solver.
Lemma push_text_extends st s e :
  exists st', Ok (if (s =? "")%string then Stream (parts st) (response_chars st) (completed st || e)
                  else Stream (parts st ++ [s]) (response_chars st + ulen s) (completed st || e)) = Ok st' /\
              extends st st' s e.
Proof.
  eexists. split; [reflexivity|]. destruct (String.eqb_spec s "") as [->|_]; split;
    cbn [response_chars parts completed]; try change (ulen "") with 0; rewrite ?append_nil_r;
    try done; try lia. unfold st_text. cbn [parts]. by rewrite concat_app.
Qed.
Lemma on_choice_spec st c :
  if choice_good c
  then exists st', on_choice st c = Ok st' /\ extends st st' (choice_text c) (choice_ends c)
  else fails (on_choice st c).
Proof.
  destruct c as [| | | | | |c]; try (cbn [choice_good on_choice]; stream_fail).
  unfold choice_good, on_choice, choice_text, choice_ends, str_at. cbv zeta. fold (choice_delta c).
  destruct (dget "finish_reason" c) as [| | | |fr| |] eqn:Ef;
    cbn [is_none is_str negb andb orb]; try stream_fail;
  (destruct (dget_or "daedalus_terminal" (VBool false) c) as [|t| | | | |] eqn:Et;
    cbn [is_bool negb andb orb]; rewrite ?andb_false_r; cbn [andb]; try stream_fail);
  (destruct (choice_delta c) as [| | | | | |d] eqn:Ed; cbn [is_dict negb];
    rewrite ?andb_false_r; try stream_fail).
  - change (py_eq VNone _) with false. cbv iota. cbn [truthy is_true]. rewrite !orb_false_r. 
    destruct (dget "content" d) as [| | | |s| |] eqn:Ec; cbn [is_none is_str orb andb]; try stream_fail.
    + eexists. split; [reflexivity|]. split; cbn [response_chars parts completed st_text];
        [by rewrite append_nil_r|change (ulen "") with 0; lia|done].
    + destruct (push_text_extends st s t) as (st' & E & H). exists st'. split; [|done].
      rewrite <- E. by destruct (s =? "")%string.
  - change (py_eq (VStr fr) (VStr "error")) with (fr =? "error")%string.
    change (py_eq (VStr fr) (VStr "mcp_approval_required")) with (fr =? "mcp_approval_required")%string.
    destruct (fr =? "error")%string; [stream_fail|].
    destruct (fr =? "mcp_approval_required")%string; [stream_fail|]. cbn [is_true negb andb].
    rewrite <- orb_assoc. set (e := t || truthy (VStr fr)).
    destruct (dget "content" d) as [| | | |s| |] eqn:Ec; cbn [is_none is_str orb andb]; try stream_fail.
    + eexists. split; [reflexivity|]. split; cbn [response_chars parts completed st_text];
        [by rewrite append_nil_r|change (ulen "") with 0; lia|done].
    + destruct (push_text_extends st s e) as (st' & E & H). exists st'. split; [|done].
      rewrite <- E. by destruct (s =? "")%string.
Qed.
Lemma on_choices_spec st cs :
  if forallb choice_good cs
  then exists st', on_choices st cs = Ok st' /\
         extends st st' (String.concat "" (map choice_text cs)) (existsb choice_ends cs)
  else fails (on_choices st cs).
Proof.
  revert st. induction cs as [|c cs IH]; intros st; cbn [forallb on_choices map existsb].
  { exists st. split; [done|apply extends_refl]. }
  pose proof (on_choice_spec st c) as H. destruct (choice_good c); cbn [andb].
  - destruct H as (st1 & -> & H1). cbn [mbind result_bind]. specialize (IH st1).
    destruct (forallb choice_good cs); [|done]. destruct IH as (st2 & -> & H2).
    exists st2. split; [done|]. rewrite concat_nil_cons. by eapply extends_trans.
  - destruct H as (e & -> & He). by exists e.
Qed.

(** One event: it extends the state by its text, unless it is refused or the
    answer grows beyond its limit. *)
Lemma on_data_spec st f :
  if frame_good f
  then (exists st', on_data (fst f) st (snd f) = Ok st' /\ extends st st' (frame_text f) (frame_ends f) /\
          (response_chars st <= MAX_RESPONSE_CHARS -> response_chars st' <= MAX_RESPONSE_CHARS)) \/
       (fails (on_data (fst f) st (snd f)) /\
          MAX_RESPONSE_CHARS < response_chars st + ulen (frame_text f))
  else fails (on_data (fst f) st (snd f)).
Proof.
  destruct f as [ev data]. unfold frame_good, frame_text, frame_ends, on_data, choices_of, chunk_of, is_done.
  cbn [fst snd]. destruct (strip data =? "[DONE]")%string; cbn [orb].
  { left. eexists. split; [reflexivity|]. split; [|done]. split; cbn [response_chars parts completed]; [by rewrite append_nil_r|change (ulen "") with 0; lia|].
    by rewrite orb_true_r. }
  destruct (loads data) as [[| | | | | |d]|]; try stream_fail.
  unfold on_chunk. destruct (is_event "error" ev); cbn [orb negb andb]; [stream_fail|].
  destruct (truthy (dget "error" d)); cbn [negb andb]; [stream_fail|].
  destruct (is_event "mcp_approval_required" ev); cbn [negb andb]; [stream_fail|].
  destruct (extract_oauth_required_payload ev (VDict d)); cbn [andb]; [stream_fail|].
  destruct (dget_or "choices" (VList []) d) as [| | | | |cs|]; cbn [is_list andb]; try stream_fail.
  pose proof (on_choices_spec st cs) as H. destruct (forallb choice_good cs).
  - destruct H as (st' & -> & H). cbn [mbind result_bind].
    destruct (Z.ltb_spec MAX_RESPONSE_CHARS (response_chars st')) as [L|L].
    + right. split; [stream_fail|]. destruct H as [_ H _]. lia.
    + left. exists st'. auto.
  - destruct H as (e & -> & He). by exists e.
Qed.

(** ** The whole stream *)
Fixpoint read_frames (st : stream_state) (fs : list frame) (broken : option exn) : result string :=
  match fs with
  | [] => match broken with Some e => Raise e | None => finish st end
  | f :: fs =>
      st' ← on_data (fst f) st (snd f);
      if completed st' then finish st' else read_frames st' fs broken
  end.
Lemma read_lines_frames ls : forall ev st broken,
  read_lines ev st ls broken = read_frames st (frames ev ls) broken.
Proof.
  induction ls as [|line ls IH]; intros ev st broken; [done|]. cbn [read_lines frames].
  destruct (line =? "")%string; [apply IH|]. destruct (startswith line "event:"); [apply IH|].
  destruct (startswith line "data:"); cbn [negb]; [|apply IH]. cbn [read_frames fst snd].
  destruct (on_data _ _ _) as [st'|e]; cbn [mbind result_bind]; [|done].
  destruct (completed st'); [done|apply IH].
Qed.

Definition text_of (fs : list frame) : string := String.concat "" (map frame_text fs).
(** An answer: good events up to the one that ends it. *)
Definition answer (fs : list frame) (text : string) : Prop :=
  exists pre f rest, fs = pre ++ f :: rest /\
    Forall (fun g => frame_good g = true /\ frame_ends g = false) pre /\
    frame_good f = true /\ frame_ends f = true /\ text = text_of (pre ++ [f]) /\
    ulen text <= MAX_RESPONSE_CHARS.

Lemma read_frames_ok fs : forall st broken text, completed st = false ->
  response_chars st <= MAX_RESPONSE_CHARS -> response_chars st = ulen (st_text st) ->
  read_frames st fs broken = Ok text <->
  exists pre f rest, fs = pre ++ f :: rest /\
    Forall (fun g => frame_good g = true /\ frame_ends g = false) pre /\
    frame_good f = true /\ frame_ends f = true /\ text = st_text st +++ text_of (pre ++ [f]) /\
    ulen text <= MAX_RESPONSE_CHARS.
Proof.
  induction fs as [|f fs IH]; intros st broken text Hc Hm Hl; cbn [read_frames].
  { split.
    - destruct broken; [done|]. unfold finish. by rewrite Hc.
    - intros (pre & f & rest & E & _). by destruct pre. }
  pose proof (on_data_spec st f) as H. destruct (frame_good f) eqn:Eg.
  - destruct H as [(st' & -> & [Ht Hr Hd] & Hm')|((e & -> & _) & Hov)]; cbn [mbind result_bind].
    + assert (Hl' : response_chars st' = ulen (st_text st')) by (rewrite Ht, ulen_app; lia).
      rewrite Hc in Hd. cbn [orb] in Hd. rewrite Hd. destruct (frame_ends f) eqn:Ee.
      * unfold finish. rewrite Hd. fold (st_text st'). split.
        -- intros [= <-]. exists [], f, fs. repeat (split; [done|]). specialize (Hm' Hm). lia.
        -- intros (pre & g & rest & E & Hpre & _ & _ & -> & _). destruct pre as [|p pre].
           ++ injection E as <- _. f_equal. exact Ht.
           ++ injection E as <- _. inversion Hpre as [|?? [_ ?]]; congruence.
      * rewrite (IH st' broken text) by auto. split.
        -- intros (pre & g & rest & -> & Hpre & Hg & He & -> & Hle). exists (f :: pre), g, rest.
           split; [done|]. split; [by constructor|]. split; [done|]. split; [done|].
           assert (Q : st_text st' +++ text_of (pre ++ [g]) = st_text st +++ text_of ((f :: pre) ++ [g])).
           { rewrite Ht. unfold text_of. rewrite <- app_comm_cons. cbn [map].
             by rewrite concat_nil_cons, append_assoc. }
           rewrite <- Q. done.
        -- intros (pre & g & rest & E & Hpre & Hg & He & -> & Hle). destruct pre as [|p pre].
           { injection E as <- _. congruence. }
           injection E as <- ->. inversion Hpre; subst. exists pre, g, rest.
           repeat (split; [done|]).
           assert (Q : st_text st +++ text_of ((f :: pre) ++ [g]) = st_text st' +++ text_of (pre ++ [g])).
           { rewrite Ht. unfold text_of. rewrite <- app_comm_cons. cbn [map].
             by rewrite concat_nil_cons, append_assoc. }
           rewrite <- Q. done.
    + split; [done|]. intros (pre & g & rest & E & _ & _ & _ & -> & Hle).
      assert (ulen (frame_text f) <= ulen (text_of (pre ++ [g]))).
      { unfold text_of. destruct pre; injection E as <- _; cbn [app map]; rewrite concat_nil_cons, ulen_app;
          match goal with |- _ <= _ + ulen ?x => pose proof (ulen_nonneg x) end; lia. }
      rewrite ulen_app in Hle. lia.
  - destruct H as (e & -> & _). cbn [mbind result_bind]. split; [done|].
    intros (pre & g & rest & E & Hpre & Hg & _). destruct pre; injection E as <- _; [congruence|].
    inversion Hpre as [|?? [? _]]; congruence.
Qed.
Lemma read_frames_exn fs : forall st broken e, completed st = false ->
  read_frames st fs broken = Raise e ->
  e ∈ stream_errors \/
  (broken = Some e /\ Forall (fun g => frame_good g = true /\ frame_ends g = false) fs).
Proof.
  induction fs as [|f fs IH]; intros st broken e Hc H; cbn [read_frames] in H.
  { destruct broken; [injection H as ->; auto|]. unfold finish in H. rewrite Hc in H.
    injection H as <-. left. unfold stream_errors. set_solver. }
  pose proof (on_data_spec st f) as S. destruct (frame_good f) eqn:Eg.
  - destruct S as [(st' & Es & [Ht Hr Hd] & Hm')|((e' & Es & He) & _)]; rewrite Es in H;
      cbn [mbind result_bind] in H; [|injection H as <-; by left].
    rewrite Hc in Hd. cbn [orb] in Hd. rewrite Hd in H. destruct (frame_ends f) eqn:Ee.
    + unfold finish in H. by rewrite Hd in H.
    + apply IH in H as [H|[-> H]]; [by left| |done]. right. split; [done|]. by constructor.
  - destruct S as (e' & Es & He). rewrite Es in H. injection H as <-. by left.
Qed.

(** C37: The streamed answer is complete or refused: [_read_stream] returns a
    text exactly when the response was accepted and its events are good ones
    up to an explicit end ([DONE], a terminal choice or a finish reason), the
    text then is the concatenation of all their contents within the character
    limit and whatever follows the end is never read; otherwise the exception
    is one of six fixed ones, the response's status, or the transport's own. *)
Theorem read_stream_complete r :
  match _read_stream (Answered r) with
  | Ok text => rejected r = false /\ answer (frames None (lines r)) text
  | Raise e =>
      (forall text, rejected r = false -> ~ answer (frames None (lines r)) text) /\
      (e ∈ stream_errors \/ broken r = Some e \/
       (rejected r = true /\
        e = Exn RunAbortedError ("backend returned HTTP " +++ str_of_Z (status_code r))))
  end.
Proof.
  unfold _read_stream. destruct (rejected r) eqn:Er.
  { split; [done|]. auto. }
  rewrite read_lines_frames. set (fs := frames None (lines r)).
  assert (K := fun text => read_frames_ok fs started_stream (broken r) text eq_refl).
  change (response_chars started_stream) with 0 in K. change (st_text started_stream) with "" in K.
  change (ulen "") with 0 in K. assert (0 <= MAX_RESPONSE_CHARS) by (unfold MAX_RESPONSE_CHARS; lia).
  destruct (read_frames started_stream fs (broken r)) as [text|e] eqn:E.
  - split; [done|]. by apply K.
  - split.
    + intros text _ Ha. by apply K in Ha.
    + apply read_frames_exn in E as [E|[E _]]; auto.
Qed.

Definition ex_stream : response := Response 200 false
  ["data: " +++ dumps (VDict [("choices", VList [VDict [("delta", VDict [("content", VStr "Hel")])]])]);
   ""; ": keep-alive";
   "data: " +++ dumps (VDict [("choices", VList [VDict [("delta", VDict [("content", VStr "lo")]);
                                                        ("daedalus_terminal", VBool true)]])]);
   "data: never read"] None.
Lemma read_stream_complete_witness : answer (frames None (lines ex_stream)) "Hello".
Proof.
  pose proof (read_stream_complete ex_stream) as H. revert H.
  assert (E : _read_stream (Answered ex_stream) = Ok "Hello") by (vm_compute; reflexivity).
  rewrite E. intros [_ H]. exact H.
Defined.
Example unterminated_refused :
  _read_stream (Answered (Response 200 false (firstn 1 (lines ex_stream)) None)) =
  raise RunAbortedError ENDED.
Proof. vm_compute. reflexivity. Qed.
