(* ===== verification/Goals.v ===== *)
(** * Goal selection and configuration of the worker ([autonomous_agent/worker.py])

    The pure parts of the worker: which goal a scheduled run pursues, the
    validated timing of polls, leases and requests, and log summaries. *)
From S2P Require Import Prelude PyStr PyFloat PyVal Prompt.
#[local] Open Scope Z_scope.

Definition MAX_AUTONOMOUS_REQUEST_TIMEOUT_SECONDS : Z := 6900.
Definition HOUR_MS : Z := 3600000.

Definition or_unknown (v : value) : string := py_str (vor v (VStr "unknown")).
Definition _request_summary (request : option dict) : string :=
  match request with
  | None | Some [] => "none"
  | Some r => "id=" +++ or_unknown (dget "id" r) +++ " trigger=" +++
              py_str (vor (dget "trigger" r) (VStr "manual")) +++ " createdAt=" +++
              or_unknown (dget "createdAt" r)
  end.

(** ** Cadence tags: "cadence:", digits, then "h" or "d" *)
Definition cadence_tag (tag : string) : option (Z * bool) :=
  match strip_prefix_ci "cadence:" tag with
  | None => None
  | Some r =>
      let '(digits, u) := take_while is_digit r in
      if (digits =? "")%string then None
      else if (lower u =? "h")%string then Some (digits_val 0 digits, false)
      else if (lower u =? "d")%string then Some (digits_val 0 digits, true)
      else None
  end.
Fixpoint cadence_of (tags : list value) : Z :=
  match tags with
  | [] => 24 * HOUR_MS
  | tag :: tags =>
      match cadence_tag (strip (py_str tag)) with
      | Some (n, days) => Z.max 1 n * (if days then 24 else 1) * HOUR_MS
      | None => cadence_of tags
      end
  end.
Definition _goal_cadence_ms (goal : dict) : result Z :=
  tags ← iterate (vor (dget "tags" goal) (VList [])); Ok (cadence_of tags).

(** ** Ranking *)
(** [v <= 0] for a number. *)
Definition not_positive (v : value) : bool :=
  match v with
  | VInt z => z <=? 0
  | VBool b => negb b
  | VFloat f => f_leb f (S754_zero false)
  | _ => false
  end.
(** An integer operand of a float operation. *)
Definition to_float (z : Z) : result float := py_float (VInt z).

Record rank_t := Rank { never_run : bool; overdue : float; neg_priority : float; neg_index : Z }.
Definition rank (timestamp : Z) (index : Z) (goal : dict) : result rank_t :=
  let last_run := dget "lastRunAt" goal in
  priority ← try_except (py_float (dget "priority" goal)) [TypeError; ValueError]
               (fun _ => Ok (f_of_Z 3));
  if negb (is_number last_run) || not_positive last_run
  then Ok (Rank true (S754_zero false) (f_neg priority) (- index))
  else
    last ← py_float last_run;
    now ← to_float timestamp;
    cadence ← _goal_cadence_ms goal;
    cadence ← to_float cadence;
    Ok (Rank false (f_div (f_sub now last) cadence) (f_neg priority) (- index)).
(** [a > b] of two rank tuples: the first components that differ decide. *)
Definition rank_gt (a b : rank_t) : bool :=
  if negb (Bool.eqb (never_run a) (never_run b)) then never_run a
  else if negb (f_eqb (overdue a) (overdue b)) then f_ltb (overdue b) (overdue a)
  else if negb (f_eqb (neg_priority a) (neg_priority b)) then f_ltb (neg_priority b) (neg_priority a)
  else neg_index b <? neg_index a.

Fixpoint active_goals (index : Z) (goals : list value) : list (Z * dict) :=
  match goals with
  | [] => []
  | VDict g :: gs =>
      if py_eq (dget_or "status" (VStr "active") g) (VStr "active")
      then (index, g) :: active_goals (index + 1) gs else active_goals (index + 1) gs
  | _ :: gs => active_goals (index + 1) gs
  end.
(** [max(active, key=rank)]: the first of the greatest. *)
Fixpoint max_rank (timestamp : Z) (best : dict) (best_rank : rank_t) (active : list (Z * dict))
  : result (dict * rank_t) :=
  match active with
  | [] => Ok (best, best_rank)
  | (i, g) :: rest =>
      r ← rank timestamp i g;
      if rank_gt r best_rank then max_rank timestamp g r rest
      else max_rank timestamp best best_rank rest
  end.
Definition select_scheduled_goal (goals : list value) (timestamp : Z) : result (option dict) :=
  match active_goals 0 goals with
  | [] => Ok None
  | (i, g) :: rest =>
      r ← rank timestamp i g;
      '(selected, r) ← max_rank timestamp g r rest;
      Ok (if never_run r || f_leb (f_of_Z 1) (overdue r) then Some selected else None)
  end.

(** ** Timing from the environment *)
Section Env.
Context (getenv : string -> option string).
Definition env_or (name def : string) : string := default def (getenv name).

Definition _request_timeout_seconds : result Z :=
  request_timeout ← try_except (py_int (VStr (env_or "REQUEST_TIMEOUT" "3600"))) [ValueError]
    (fun _ => raise ValueError "REQUEST_TIMEOUT must be an integer number of seconds");
  if request_timeout <=? 0 then raise ValueError "REQUEST_TIMEOUT must be greater than zero"
  else if MAX_AUTONOMOUS_REQUEST_TIMEOUT_SECONDS <? request_timeout
  then raise ValueError ("REQUEST_TIMEOUT must be at most " +++
         str_of_Z MAX_AUTONOMOUS_REQUEST_TIMEOUT_SECONDS +++
         " seconds so one run cannot wedge the worker queue")
  else Ok request_timeout.

Definition timing_value (name def : string) : result Z :=
  try_except (py_int (VStr (env_or name def))) [ValueError]
    (fun _ => raise ValueError (name +++ " must be an integer number of seconds")).
Definition _worker_timing_seconds : result (Z * Z) :=
  poll_interval ← timing_value "AUTONOMY_WORKER_POLL_INTERVAL" "10";
  lease_ttl ← timing_value "AUTONOMY_WORKER_LEASE_TTL" "60";
  if poll_interval <=? 0
  then raise ValueError "AUTONOMY_WORKER_POLL_INTERVAL must be greater than zero"
  else if lease_ttl <=? poll_interval
  then raise ValueError "AUTONOMY_WORKER_LEASE_TTL must be greater than AUTONOMY_WORKER_POLL_INTERVAL so an idle poll keeps the lease"
  else Ok (poll_interval, lease_ttl).
End Env.
(** [max(1, min(20, lease_ttl // 3 or 1))]. *)
Definition heartbeat_interval (lease_ttl : Z) : Z :=
  let third := lease_ttl / 3 in
  Z.max 1 (Z.min 20 (if third =? 0 then 1 else third)).
(** [min(max_backoff, poll_interval * 2 ** (consecutive_errors - 1))]. *)
Definition backoff (poll_interval consecutive_errors : Z) : Z :=
  Z.min (Z.max poll_interval 60) (poll_interval * 2 ^ (consecutive_errors - 1)).

(** ** Laws *)
Lemma active_goals_spec goals : forall k i g, (i, g) ∈ active_goals k goals ->
  VDict g ∈ goals /\ py_eq (dget_or "status" (VStr "active") g) (VStr "active") = true.
Proof.
  induction goals as [|v goals IH]; intros k i g H; [set_solver|]. cbn [active_goals] in H.
  destruct v as [| | | | | |d]; try (apply IH in H as [? ?]; set_solver).
  destruct (py_eq _ _) eqn:E; [|apply IH in H as [? ?]; set_solver].
  apply elem_of_cons in H as [[= -> ->]|H]; [set_solver|]. apply IH in H as [? ?]. set_solver.
Qed.
Lemma rank_gt_never a b : rank_gt a b = true -> never_run b = true -> never_run a = true.
Proof. unfold rank_gt. destruct (never_run a), (never_run b); done. Qed.
Lemma max_rank_spec ts active : forall b rb s r, max_rank ts b rb active = Ok (s, r) ->
  (s = b /\ r = rb \/ exists i, (i, s) ∈ active /\ rank ts i s = Ok r) /\
  (never_run rb = true -> never_run r = true) /\
  (forall i g rg, (i, g) ∈ active -> rank ts i g = Ok rg -> never_run rg = true -> never_run r = true).
Proof.
  induction active as [|[i g] rest IH]; intros b rb s r H; cbn [max_rank] in H.
  { injection H as <- <-. split; [by left|]. split; [done|]. set_solver. }
  apply bind_ok in H as (rg & Hr & H). destruct (rank_gt rg rb) eqn:E.
  - apply IH in H as (H1 & H2 & H3). split; [|split].
    + right. destruct H1 as [[-> ->]|(j & ? & ?)]; [exists i|exists j]; set_solver.
    + intros Hb. apply H2. by eapply rank_gt_never.
    + intros j g' rg' [[= -> ->]|Hin]%elem_of_cons Hg' Hn; [|by eapply H3].
      apply H2. congruence.
  - apply IH in H as (H1 & H2 & H3). split; [|split; [done|]].
    + destruct H1 as [?|(j & ? & ?)]; [by left|right; exists j; set_solver].
    + intros j g' rg' [[= -> ->]|Hin]%elem_of_cons Hg' Hn; [|by eapply H3].
      assert (rg' = rg) as -> by congruence. apply H2.
      unfold rank_gt in E. rewrite Hn in E. destruct (never_run rb); [done|]. discriminate E.
Qed.

(** A scheduled run only pursues a goal that is active and due: the
    selected goal is in the list, has status active and either has never run
    or is overdue by at least its own cadence, and while any active goal has
    never run such a goal is selected. *)
Theorem selected_goal_due goals ts g :
  select_scheduled_goal goals ts = Ok (Some g) ->
  exists i r, (i, g) ∈ active_goals 0 goals /\ VDict g ∈ goals /\
    py_eq (dget_or "status" (VStr "active") g) (VStr "active") = true /\ rank ts i g = Ok r /\
    (never_run r = true \/ f_leb (f_of_Z 1) (overdue r) = true) /\
    (forall j g' r', (j, g') ∈ active_goals 0 goals -> rank ts j g' = Ok r' ->
       never_run r' = true -> never_run r = true).
Proof.
  unfold select_scheduled_goal. destruct (active_goals 0 goals) as [|[i0 g0] rest] eqn:Ea; [done|].
  intros H. apply bind_ok in H as (r0 & H0 & H). apply bind_ok in H as ([s r] & Hm & H).
  case_hyp H; [|done]. injection H as ->.
  apply max_rank_spec in Hm as (H1 & H2 & H3).
  assert (Hin : exists i, (i, g) ∈ (i0, g0) :: rest /\ rank ts i g = Ok r).
  { destruct H1 as [[-> ->]|(i & ? & ?)]; [exists i0|exists i]; set_solver. }
  destruct Hin as (i & Hi & Hr). exists i, r. split; [done|].
  pose proof (active_goals_spec goals 0 i g) as S. rewrite Ea in S. destruct (S Hi) as [? ?].
  split; [done|]. split; [done|]. split; [done|]. split.
  - match goal with H : _ || _ = true |- _ => by apply orb_true_iff in H end.
  - intros j g' r' [[= -> ->]|Hj]%elem_of_cons Hr' Hn; [|by eapply H3].
    apply H2. congruence.
Qed.
Definition ex_goals : list value :=
  [VDict [("id", VStr "old"); ("lastRunAt", VInt 1000); ("priority", VInt 1)];
   VDict [("id", VStr "paused"); ("status", VStr "paused")];
   VDict [("id", VStr "daily"); ("lastRunAt", VInt 90000000); ("tags", VList [VStr "Cadence:2D"])]].
Lemma selected_goal_due_witness : exists g i,
  select_scheduled_goal ex_goals 100000000 = Ok (Some g) /\ dget "id" g = VStr "old" /\
  (i, g) ∈ active_goals 0 ex_goals.
Proof.
  eexists. assert (E : select_scheduled_goal ex_goals 100000000 =
    Ok (Some [("id", VStr "old"); ("lastRunAt", VInt 1000); ("priority", VInt 1)]))
    by (vm_compute; reflexivity).
  destruct (selected_goal_due ex_goals 100000000 _ E) as (i & r & Hi & _). exists i.
  split; [exact E|]. split; [reflexivity|exact Hi].
Defined.

(** Timing that would lose the lease or wedge the queue fails at startup:
    accepted values poll for at least a second and less than the lease lasts,
    refresh the lease within its lifetime, bound one request by 6900 seconds
    and keep every back-off between one poll and the larger of a poll and a
    minute. *)
Theorem timing_bounds getenv :
  (forall t, _request_timeout_seconds getenv = Ok t ->
     1 <= t <= MAX_AUTONOMOUS_REQUEST_TIMEOUT_SECONDS) /\
  (forall poll ttl, _worker_timing_seconds getenv = Ok (poll, ttl) ->
     1 <= poll < ttl /\ 1 <= heartbeat_interval ttl < ttl /\
     (3 <= ttl -> 3 * heartbeat_interval ttl <= ttl) /\
     (forall n, 1 <= n -> poll <= backoff poll n <= Z.max poll 60)).
Proof.
  split.
  - unfold _request_timeout_seconds. intros t H. apply bind_ok in H as (n & _ & H).
    destruct (Z.leb_spec n 0); [done|]. destruct (Z.ltb_spec MAX_AUTONOMOUS_REQUEST_TIMEOUT_SECONDS n); [done|].
    injection H as <-. lia.
  - unfold _worker_timing_seconds. intros poll ttl H.
    apply bind_ok in H as (p & _ & H). apply bind_ok in H as (l & _ & H).
    destruct (Z.leb_spec p 0); [done|]. destruct (Z.leb_spec l p); [done|]. injection H as <- <-.
    assert (D : 3 * (l / 3) <= l < 3 * (l / 3) + 3).
    { pose proof (Z.div_mod l 3). pose proof (Z.mod_pos_bound l 3). lia. }
    split; [lia|]. unfold heartbeat_interval. cbv zeta.
    split; [destruct (Z.eqb_spec (l / 3) 0); lia|].
    split; [destruct (Z.eqb_spec (l / 3) 0); lia|].
    intros n Hn. unfold backoff.
    assert (1 <= 2 ^ (n - 1)) by (apply (Z.pow_le_mono_r 2 0 (n - 1)); lia). nia.
Qed.
