(* ===== verification/WorkerOps.v ===== *)
(** * What the store calls of a run preserve

    One relation, [wstep], for everything a single run may do to the shared
    state between two points: every round trip is a step of the queue
    protocol, the claimed request stays the same, the lease token is kept or
    lost, and -- for a run under a lease -- the user's feed, goals and
    workspace only change while the lease key holds that token. *)
From S2P Require Import Prelude PyStr PyFloat PyVal Json JsonRoundtrip Redis PyUrl Sha Dedupe World Store.
From S2P Require Import StoreOps Trace StoreLaws OpLaws Queue QueueLaws Prompt.
#[local] Open Scope Z_scope.

(** ** Programs that preserve a preorder *)
Section Pres.
Context {S : Type} (Q : S -> S -> Prop) `{!PreOrder Q}.
Definition pres {A} (m : eff S A) : Prop := forall s x s', m s = (x, s') -> Q s s'.
Lemma pres_const {A} (m : eff S A) : (forall s x s', m s = (x, s') -> s' = s) -> pres m.
Proof using PreOrder0. intros H s x s' E. rewrite (H _ _ _ E). reflexivity. Qed.
Lemma pres_ret {A} (a : A) : pres (mret a).
Proof using PreOrder0. apply pres_const. intros ??? E. by injection E. Qed.
Lemma pres_lift {A} (r : result A) : pres (lift r).
Proof using PreOrder0. apply pres_const. intros ??? E. by injection E. Qed.
Lemma pres_gets {A} (f : S -> A) : pres (gets f).
Proof using PreOrder0. apply pres_const. intros ??? E. by injection E. Qed.
Lemma pres_modify (f : S -> S) : (forall s, Q s (f s)) -> pres (modify f).
Proof using. intros H s x s' E. injection E as _ <-. apply H. Qed.
Lemma pres_bind {A B} (m : eff S A) (f : A -> eff S B) :
  pres m -> (forall a, pres (f a)) -> pres (x ← m; f x).
Proof using PreOrder0.
  intros Hm Hf s x s' E. unfold mbind, eff_bind in E. destruct (m s) as [[a|e] s1] eqn:Em.
  - etransitivity; [by eapply Hm|by eapply Hf].
  - injection E as _ <-. by eapply Hm.
Qed.
Lemma pres_catch {A} (m : eff S A) cs f : pres m -> (forall e, pres (f e)) -> pres (catch m cs f).
Proof using PreOrder0.
  intros Hm Hf s x s' E. unfold catch in E. destruct (m s) as [[a|e] s1] eqn:Em.
  - injection E as _ <-. by eapply Hm.
  - destruct (exn_in e cs); [|injection E as _ <-; by eapply Hm].
    etransitivity; [by eapply Hm|by eapply Hf].
Qed.
Lemma pres_finally {A} (m : eff S A) f : pres m -> pres f -> pres (finally m f).
Proof using PreOrder0.
  intros Hm Hf s x s' E. unfold finally in E. destruct (m s) as [r s1] eqn:Em.
  destruct (f s1) as [[[]|e] s2] eqn:Ef; injection E as _ <-;
    (etransitivity; [by eapply Hm|by eapply Hf]).
Qed.
Lemma pres_iter {A} (f : A -> eff S unit) l : (forall a, pres (f a)) -> pres (iterE f l).
Proof using PreOrder0. intros H. induction l; simpl; [apply pres_ret|]. by apply pres_bind. Qed.
Lemma pres_map {A B} (f : A -> eff S B) l : (forall a, pres (f a)) -> pres (mapE f l).
Proof using PreOrder0.
  intros H. induction l; simpl; [apply pres_ret|]. apply pres_bind; [done|]. intros b.
  apply pres_bind; [done|]. intros. apply pres_ret.
Qed.
End Pres.
Lemma pres_impl {S A} (Q1 Q2 : S -> S -> Prop) (m : eff S A) :
  (forall s s', Q1 s s' -> Q2 s s') -> pres Q1 m -> pres Q2 m.
Proof. intros H Hm s x s' E. by eapply H, Hm. Qed.

(** Walk through a program by its syntax; the basic steps come from [steps],
    [walk_first] is a rule of the component that goes before the others. *)
Create HintDb steps.
Ltac walk_first := fail.
Ltac walk :=
  cbv zeta;
  first [walk_first; walk | walk_syntax]
with walk_syntax :=
  lazymatch goal with
  | |- pres _ (mret _) => apply pres_ret; exact _
  | |- pres _ (lift _) => apply pres_lift; exact _
  | |- pres _ (throw _ _) => apply pres_lift; exact _
  | |- pres _ (rethrow _) => apply pres_lift; exact _
  | |- pres _ (gets _) => apply pres_gets; exact _
  | |- pres _ (iterE _ _) => apply pres_iter; [exact _|intros ?; walk]
  | |- pres _ (mapE _ _) => apply pres_map; [exact _|intros ?; walk]
  | |- pres _ (catch _ _ _) => apply pres_catch; [exact _|walk|intros ?; walk]
  | |- pres _ (finally _ _) => apply pres_finally; [exact _|walk|walk]
  | |- pres _ (mbind _ _) => apply pres_bind; [exact _|walk|intros ?; walk]
  | |- pres _ (match ?x with _ => _ end) => destruct x; walk
  | |- pres _ (modify _) => first [solve [auto with steps nocore]|apply pres_modify; try done]
  | |- _ => try solve [auto with steps nocore]
  end.

Section Keeps.
Context {R : Type} `{RS : RedisServer R} (h : host R).
Abbreviation W := (world R).

(** The process's own memory of claim and lease is untouched. *)
Definition same_memory (w w' : W) : Prop :=
  inflight w' = inflight w /\ lease_tokens w' = lease_tokens w.
#[export] Instance same_memory_preorder : PreOrder same_memory.
Proof. split; [by intros ?|]. intros ??? [??] [??]. split; congruence. Qed.
Abbreviation keeps := (pres same_memory).

Lemma keeps_trip {A} k (f : eff R A) : keeps (round_trip h k f).
Proof. intros w x w' E. apply round_trip_frame in E as (? & _ & ? & _). by split. Qed.
Lemma keeps_now : keeps (now_ms h).
Proof. intros w x w' E. by injection E as _ <-. Qed.
Lemma keeps_uuid : keeps (uuid4 h).
Proof. intros w x w' E. by injection E as _ <-. Qed.
Lemma keeps_ticks {A} (m : eff nat A) : keeps (with_ticks m).
Proof. intros w x w' E. unfold with_ticks in E. destruct (m (ticks w)). by injection E as _ <-. Qed.
Lemma keeps_flag b : keeps (modify (set_json_flag b)).
Proof. by apply pres_modify. Qed.
Lemma keeps_redis c : keeps (redis h c).
Proof. apply keeps_trip. Qed.
Lemma keeps_eval {A} n argv (f : eff R A) : keeps (eval h n argv f).
Proof. apply keeps_trip. Qed.
#[local] Hint Resolve keeps_trip keeps_now keeps_uuid keeps_ticks keeps_flag keeps_redis keeps_eval : steps.
Lemma keeps_supports_json k : keeps (_supports_json h k).
Proof. unfold _supports_json. walk. Qed.
#[local] Hint Resolve keeps_supports_json : steps.
Lemma keeps_json_get k fb : keeps (json_get h k fb).
Proof. unfold json_get. walk. Qed.
#[local] Hint Resolve keeps_json_get : steps.
Lemma keeps_attempt {St A} k (mutate : mutation St A) kind also lease js st :
  keeps (attempt h k mutate kind also lease js st).
Proof. unfold attempt, watch_lease, watch_key, execute. walk. Qed.
#[local] Hint Resolve keeps_attempt : steps.
Lemma keeps_attempts {St A} k (mutate : mutation St A) kind also n lease js : forall st last,
  keeps (attempts h k mutate kind also n lease js st last).
Proof.
  induction n as [|n IH]; intros st last; cbn [attempts]; walk; apply IH.
Qed.
#[local] Hint Resolve keeps_attempts : steps.
Lemma keeps_update {St A} k (mutate : mutation St A) kind also lease retries st :
  keeps (atomic_update h k mutate kind also lease retries st).
Proof. unfold atomic_update, lease_fence. walk. Qed.
#[local] Hint Resolve keeps_update : steps.
Lemma keeps_publish u ty d : keeps (publish h u ty d).
Proof. unfold publish. walk. Qed.
#[local] Hint Resolve keeps_publish : steps.
Lemma keeps_get_config u : keeps (get_config h u).
Proof. unfold get_config, update. walk. Qed.
#[local] Hint Resolve keeps_get_config : steps.
Lemma keeps_log_event u rid ty msg lvl d : keeps (log_event h u rid ty msg lvl d).
Proof. unfold log_event, append_event, update. walk. Qed.
#[local] Hint Resolve keeps_log_event : steps.
Lemma keeps_upsert_run u r : keeps (upsert_run h u r).
Proof. unfold upsert_run, update. walk. Qed.
#[local] Hint Resolve keeps_upsert_run : steps.
Lemma keeps_list_of n u : keeps (list_of h n u).
Proof. unfold list_of. walk. Qed.
#[local] Hint Resolve keeps_list_of : steps.
Lemma keeps_list_feed u n : keeps (list_feed h u n).
Proof. unfold list_feed. walk. Qed.
#[local] Hint Resolve keeps_list_feed : steps.
Lemma keeps_get_text k : keeps (get_text h k).
Proof. unfold get_text. walk. Qed.
#[local] Hint Resolve keeps_get_text : steps.
Lemma keeps_set_text k v l : keeps (set_text h k v l).
Proof. unfold set_text, token_of. walk. Qed.
#[local] Hint Resolve keeps_set_text : steps.
Lemma keeps_mark_goal u g t b : keeps (mark_goal_run h u g t b).
Proof. unfold mark_goal_run, update. walk. Qed.
#[local] Hint Resolve keeps_mark_goal : steps.
Lemma keeps_append_feed u items b : keeps (append_feed_items h u items b).
Proof. unfold append_feed_items. walk. Qed.
#[local] Hint Resolve keeps_append_feed : steps.
Lemma keeps_owns u : keeps (owns_lease h u).
Proof. unfold owns_lease, token_of. walk. Qed.
#[local] Hint Resolve keeps_owns : steps.
Lemma keeps_cancel u r : keeps (cancel_requested h u r).
Proof. unfold cancel_requested. walk. Qed.
#[local] Hint Resolve keeps_cancel : steps.
Lemma keeps_mark u : keeps (mark_backend_started h u).
Proof. unfold mark_backend_started, token_of. walk. Qed.
#[local] Hint Resolve keeps_mark : steps.
End Keeps.

(** ** Keys a script leaves alone *)
Section Leaves.
Context {R : Type} `{RS : RedisServer R} (k : string).
Definition leaves {A} (f : eff R A) : Prop := forall r, keyspace (snd (f r)) !! k = keyspace r !! k.
Lemma leaves_call c : k ∉ writes c -> leaves (call c).
Proof. intros H r. unfold call. rewrite run_keys. by apply spec_frame. Qed.
Lemma leaves_ret {A} (a : A) : leaves (mret a).
Proof. by intros r. Qed.
Lemma leaves_bind {A B} (m : eff R A) (f : A -> eff R B) :
  leaves m -> (forall a, leaves (f a)) -> leaves (x ← m; f x).
Proof.
  intros Hm Hf r. unfold mbind, eff_bind. specialize (Hm r). destruct (m r) as [[a|e] r1]; [|done].
  simpl in *. by rewrite Hf.
Qed.
End Leaves.
(** Walk through a script; its writes must avoid the key. *)
Ltac leave :=
  lazymatch goal with
  | |- leaves _ (call _) => apply leaves_call; cbn [writes]; set_solver
  | |- leaves _ (mret _) => apply leaves_ret
  | |- leaves _ (mbind _ _) => apply leaves_bind; [leave|intros ?; leave]
  | |- leaves _ (if ?x then _ else _) => destruct x; leave
  end.

Section Scripts.
Context {R : Type} `{RS : RedisServer R}.
Lemma leaves_release k lease token : k <> lease -> leaves k (lua_release (R := R) lease token).
Proof. intros. unfold lua_release. leave. Qed.
Lemma leaves_mark k lease state token raw : k <> state ->
  leaves k (lua_mark_backend_started (R := R) lease state token raw).
Proof. intros. unfold lua_mark_backend_started. leave. Qed.
Lemma leaves_set_text k lease target token v : k <> target ->
  leaves k (lua_set_text (R := R) lease target token v).
Proof. intros. unfold lua_set_text. leave. Qed.
(** A fenced text write happens under the token or not at all. *)
Lemma set_text_fenced u target token v (r : R) :
  kval (key u "lease") (keyspace r) = Some (RStr token) \/
  keyspace (snd (lua_set_text (key u "lease") target token v r)) = keyspace r.
Proof.
  unfold lua_set_text. destruct (lease_test u r token) as [(x & r1 & E1 & K1 & T)|(e & r1 & E1 & K1)].
  - erewrite bind_run by exact E1. rewrite T. case_bool_decide; [by left|]. right. done.
  - erewrite bind_fail by exact E1. by right.
Qed.
End Scripts.

(** ** Round trips that leave the queue and the user's content alone *)
(** The keys whose writes a run fences with its lease. *)
Definition protected (u k : string) : Prop :=
  k = key u "feed" \/ k = key u "goals" \/ exists name, k = workspace_key u name.
Definition aloof (u : string) (t : trip) : Prop :=
  forall k, queue_key u k \/ protected u k -> frame k t.

Lemma workspace_key_ne u n u' m : workspace_key u n <> key u' m.
Proof. unfold workspace_key, key. cbn. discriminate. Qed.
Lemma content_key_ne u k m : queue_key u k \/ protected u k ->
  m ∉ ["queue"; "processing"; "processing_state"; "feed"; "goals"] -> k <> key u m.
Proof.
  intros H Hm ->. destruct H as [H|[E|[E|[n E]]]].
  - revert H. apply not_queue_key. set_solver.
  - unfold key in E. apply append_inj_l, append_inj_l, append_inj_l in E. set_solver.
  - unfold key in E. apply append_inj_l, append_inj_l, append_inj_l in E. set_solver.
  - by destruct (workspace_key_ne u n u m).
Qed.
Lemma aloof_quiet u t : quiet t -> aloof u t.
Proof. intros H k _. by apply frame_quiet. Qed.

Section Aloof.
Context {R : Type} `{RS : RedisServer R} (h : host R).
Hypothesis others_later : forall n r, later r (others h n r).
Context (u : string).
Abbreviation W := (world R).

Definition logs (T : trip -> Prop) (w w' : W) : Prop :=
  exists l, w_log w' = l ++ w_log w /\ Forall T l.
#[export] Instance logs_preorder T : PreOrder (logs T).
Proof.
  split; [intros w; by exists []|]. intros w1 w2 w3 (l1 & H1 & F1) (l2 & H2 & F2).
  exists (l2 ++ l1). rewrite H2, H1, List.app_assoc. split; [done|]. by apply Forall_app_2.
Qed.
Abbreviation aside := (pres (logs (aloof u))).

Lemma aside_emits {A} (m : eff W A) : emits (aloof u) m -> aside m.
Proof. intros H w x w' E. by apply H in E. Qed.
Lemma aside_quiet {A} (m : eff W A) : emits quiet m -> aside m.
Proof. intros H. apply aside_emits. eapply emits_impl; [apply aloof_quiet|done]. Qed.
Lemma aside_read c : read_only c = true -> aside (redis h c).
Proof. intros. apply aside_quiet; by apply emits_read. Qed.
Lemma aside_now : aside (now_ms h).
Proof. apply aside_quiet. apply emits_now. Qed.
Lemma aside_uuid : aside (uuid4 h).
Proof. apply aside_quiet. apply emits_uuid. Qed.
Lemma aside_modify (f : W -> W) : (forall w, w_log (f w) = w_log w) -> aside (modify f).
Proof. intros H. apply aside_quiet. by apply emits_modify. Qed.
Lemma aside_update {St A} n (mutate : mutation St A) kind lease retries st :
  n ∉ ["queue"; "processing"; "processing_state"; "feed"; "goals"] ->
  aside (atomic_update h (key u n) mutate kind no_also lease retries st).
Proof.
  intros Hn. apply aside_emits. apply emits_all.
  - intros k Hk. apply (emits_update_frame h others_later).
    + by apply (content_key_ne u).
    + set_solver.
  - eapply emits_impl; [done|]. apply (emits_update h others_later).
Qed.
Lemma aside_get_config : aside (get_config h u).
Proof.
  apply aside_emits. apply emits_all.
  - intros k Hk. apply (emits_get_config h others_later). apply (content_key_ne u); [done|set_solver].
  - eapply emits_impl; [done|]. apply (emits_get_config h others_later u (key u "queue")).
    apply key_ne. done.
Qed.
Lemma aside_json_get k fb : aside (json_get h k fb).
Proof. apply aside_quiet. apply emits_json_get. Qed.
Lemma aside_publish us ty d : aside (publish h us ty d).
Proof. apply aside_quiet. apply emits_publish. Qed.
Lemma aside_runs {A} kind f : aside (update h (A := A) (key u "runs") kind None f).
Proof. apply aside_update. set_solver. Qed.
Lemma aside_events {A} kind f : aside (update h (A := A) (key u "events") kind None f).
Proof. apply aside_update. set_solver. Qed.
#[local] Hint Resolve aside_now aside_uuid aside_get_config aside_json_get aside_publish aside_runs
  aside_events : steps.
#[local] Hint Extern 1 (pres _ (redis _ _)) => by apply aside_read : steps.
#[local] Hint Extern 1 (pres _ (modify _)) => by apply aside_modify : steps.

Lemma aside_log_event rid ty msg lvl d : aside (log_event h u rid ty msg lvl d).
Proof. unfold log_event, append_event. walk. Qed.
Lemma aside_upsert_run r : aside (upsert_run h u r).
Proof. unfold upsert_run. walk. Qed.
Lemma aside_list_of n : aside (list_of h n u).
Proof. unfold list_of. walk. Qed.
#[local] Hint Resolve aside_list_of : steps.
Lemma aside_list_feed n : aside (list_feed h u n).
Proof. unfold list_feed. walk. Qed.
Lemma aside_get_text k : aside (get_text h k).
Proof. unfold get_text. walk. Qed.
Lemma aside_owns : aside (owns_lease h u).
Proof. unfold owns_lease, token_of. walk. Qed.
Lemma aside_cancel r : aside (cancel_requested h u r).
Proof. unfold cancel_requested. walk. Qed.
Lemma aside_refresh ttl : aside (refresh_lease h u ttl).
Proof.
  unfold refresh_lease, token_of, drop_lease. walk.
  apply aside_emits, emits_trip; intros r; [by apply aloof_quiet|].
  intros k Hk. apply (refresh_frame h others_later). apply (content_key_ne u); [done|set_solver].
Qed.
Lemma aside_release : aside (release_lease h u).
Proof.
  unfold release_lease, token_of, drop_lease. walk.
  apply aside_emits, emits_trip; intros r; [by apply aloof_quiet|].
  intros k Hk. assert (k <> key u "lease") by (apply (content_key_ne u); [done|set_solver]).
  apply leaves_release. done.
Qed.
End Aloof.

(** ** One step of a run *)
(** The user's content only changes while the lease key holds [tok]. *)
Definition guarded (u : string) (tok : option string) (t : trip) : Prop :=
  forall k, protected u k -> t_after t !! k <> t_before t !! k ->
    exists token, tok = Some token /\ kval (key u "lease") (t_before t) = Some (RStr token).
Lemma guarded_mono u tok tok' t : (tok' = None \/ tok' = tok) -> guarded u tok' t -> guarded u tok t.
Proof. intros [->| ->] H; [|done]. intros k Hk Hc. by destruct (H k Hk Hc) as (? & ? & _). Qed.
Lemma guarded_frame u tok t : (forall k, protected u k -> frame k t) -> guarded u tok t.
Proof. intros H k Hk Hc. by destruct Hc; apply H. Qed.

Section Step.
Context {R : Type} `{RS : RedisServer R} (h : host R).
Hypothesis others_later : forall n r, later r (others h n r).
Context (u : string).
Abbreviation W := (world R).

(** [g] says whether the run is fenced. *)
Record wstep (g : bool) (w w' : W) : Prop := WStep {
  ws_log : exists l, w_log w' = l ++ w_log w /\ Forall (obeys u) l /\
             (g = true -> Forall (guarded u (lease_tokens w !! u)) l);
  ws_inflight : inflight w' = inflight w;
  ws_token : lease_tokens w' !! u = None \/ lease_tokens w' !! u = lease_tokens w !! u }.
#[export] Instance wstep_preorder g : PreOrder (wstep g).
Proof.
  split.
  - intros w. split; [exists []; repeat split; constructor|done|by right].
  - intros w1 w2 w3 [(l1 & H1 & O1 & G1) I1 T1] [(l2 & H2 & O2 & G2) I2 T2]. split.
    + exists (l2 ++ l1). rewrite H2, H1, List.app_assoc. split; [done|].
      split; [by apply Forall_app_2|]. intros Hg. apply Forall_app_2; [|by apply G1].
      eapply Forall_impl; [by apply G2|]. intros t. by apply guarded_mono.
    + congruence.
    + destruct T2 as [T2|T2], T1 as [T1|T1]; rewrite T2; auto.
Qed.

Lemma wstep_split {A} g (m : eff W A) :
  (forall w x w', m w = (x, w') -> exists l, w_log w' = l ++ w_log w /\ Forall (obeys u) l /\
             (g = true -> Forall (guarded u (lease_tokens w !! u)) l)) ->
  pres same_memory m -> pres (wstep g) m.
Proof.
  intros Hl Hk w x w' E. destruct (Hk _ _ _ E) as [Hi Ht]. split; [by eapply Hl|done|]. right. by rewrite Ht.
Qed.
Lemma aloof_obeys t : aloof u t -> obeys u t.
Proof. intros H. apply obeys_frame. intros k Hk. apply H. by left. Qed.
Lemma aloof_guarded tok t : aloof u t -> guarded u tok t.
Proof. intros H. apply guarded_frame. intros k Hk. apply H. by right. Qed.
Lemma wstep_aside {A} g (m : eff W A) : pres (logs (aloof u)) m -> pres same_memory m -> pres (wstep g) m.
Proof.
  intros Hl. apply wstep_split. intros w x w' E. destruct (Hl _ _ _ E) as (l & H & F).
  exists l. split; [done|]. split; [eapply Forall_impl; [exact F|apply aloof_obeys]|].
  intros _. eapply Forall_impl; [exact F|]. intros t. apply aloof_guarded.
Qed.
Lemma wstep_obeys {A} (m : eff W A) : emits (obeys u) m -> pres same_memory m -> pres (wstep false) m.
Proof.
  intros Hl. apply wstep_split. intros w x w' E. destruct (Hl _ _ _ E) as (l & H & F). by exists l.
Qed.

Lemma wstep_get_config g : pres (wstep g) (get_config h u).
Proof. apply wstep_aside; [by apply aside_get_config|apply keeps_get_config]. Qed.
Lemma wstep_list_of g n : pres (wstep g) (list_of h n u).
Proof. apply wstep_aside; [apply aside_list_of|apply keeps_list_of]. Qed.
Lemma wstep_list_feed g n : pres (wstep g) (list_feed h u n).
Proof. apply wstep_aside; [apply aside_list_feed|apply keeps_list_feed]. Qed.
Lemma wstep_upsert g r : pres (wstep g) (upsert_run h u r).
Proof. apply wstep_aside; [by apply aside_upsert_run|apply keeps_upsert_run]. Qed.
Lemma wstep_log_event g rid ty msg lvl d : pres (wstep g) (log_event h u rid ty msg lvl d).
Proof. apply wstep_aside; [by apply aside_log_event|apply keeps_log_event]. Qed.
Lemma wstep_get_text g k : pres (wstep g) (get_text h k).
Proof. apply wstep_aside; [apply aside_get_text|apply keeps_get_text]. Qed.
Lemma wstep_owns g : pres (wstep g) (owns_lease h u).
Proof. apply wstep_aside; [apply aside_owns|apply keeps_owns]. Qed.
Lemma wstep_cancel g r : pres (wstep g) (cancel_requested h u r).
Proof. apply wstep_aside; [apply aside_cancel|apply keeps_cancel]. Qed.
Lemma wstep_now g : pres (wstep g) (now_ms h).
Proof. apply wstep_aside; [apply aside_now|apply keeps_now]. Qed.
Lemma wstep_uuid g : pres (wstep g) (uuid4 h).
Proof. apply wstep_aside; [apply aside_uuid|apply keeps_uuid]. Qed.

(** The lease token is kept or forgotten. *)
Definition may_lose (w w' : W) : Prop :=
  inflight w' = inflight w /\ (lease_tokens w' !! u = None \/ lease_tokens w' !! u = lease_tokens w !! u).
#[export] Instance may_lose_preorder : PreOrder may_lose.
Proof.
  split; [intros w; split; auto|]. intros w1 w2 w3 [I1 T1] [I2 T2]. split; [congruence|].
  destruct T2 as [T2|T2], T1 as [T1|T1]; rewrite T2; auto.
Qed.
Lemma may_lose_refresh ttl : pres may_lose (refresh_lease h u ttl).
Proof.
  unfold refresh_lease, drop_lease, token_of. walk.
  - intros w x w' E. apply keeps_eval in E as [? E]. split; [done|]. right. by rewrite E.
  - intros w. split; [done|]. by right.
  - intros w. split; [done|]. left. apply lookup_delete_eq.
  - intros w. split; [done|]. by right.
Qed.
Lemma wstep_refresh g ttl : pres (wstep g) (refresh_lease h u ttl).
Proof.
  intros w x w' E. destruct (aside_refresh h others_later u ttl w x w' E) as (l & Hl & F).
  destruct (may_lose_refresh ttl w x w' E) as [Hi Ht]. split; [|done|done].
  exists l. split; [done|]. split; [eapply Forall_impl; [exact F|apply aloof_obeys]|].
  intros _. eapply Forall_impl; [exact F|]. intros t. apply aloof_guarded.
Qed.

(** Writes of the user's content *)
Lemma wstep_fenced {St A} g n (mutate : mutation St A) kind retries st :
  n ∈ ["feed"; "goals"] ->
  pres (wstep g) (atomic_update h (key u n) mutate kind no_also (lease_if g u) retries st).
Proof.
  intros Hn. apply wstep_split; [|apply keeps_update]. intros w x w' E.
  assert (O : emits (obeys u) (atomic_update h (key u n) mutate kind no_also (lease_if g u) retries st)).
  { apply (obeys_update h others_later). apply not_queue_key. set_solver. }
  destruct g; cbn [lease_if] in *.
  - destruct (O _ _ _ E) as (l & Hl & F). exists l. split; [done|]. split; [done|]. intros _.
    apply (fenced_changes h others_later) in E as (l' & Hl' & H). rewrite Hl in Hl'.
    apply app_inv_tail in Hl' as <-. apply Forall_forall. intros t Ht k Hk Hc.
    apply H; [done|congruence].
  - destruct (O _ _ _ E) as (l & Hl & F). by exists l.
Qed.
Lemma wstep_aside_publish g ty d : pres (wstep g) (publish h u ty d).
Proof. apply wstep_aside; [apply aside_publish|apply keeps_publish]. Qed.
#[local] Hint Resolve wstep_get_config wstep_aside_publish : steps.
Lemma wstep_mark_goal g goal t : pres (wstep g) (mark_goal_run h u goal t g).
Proof. unfold mark_goal_run. walk. apply wstep_fenced. set_solver. Qed.
Lemma wstep_append_feed g items : pres (wstep g) (append_feed_items h u items g).
Proof. unfold append_feed_items. walk. apply wstep_fenced. set_solver. Qed.
Lemma wstep_set_text g name v : pres (wstep g) (set_text h (workspace_key u name) v (lease_if g u)).
Proof.
  apply wstep_split; [|apply keeps_set_text]. intros w x w' E.
  assert (Hq : forall k, queue_key u k -> k <> workspace_key u name).
  { intros k [->|[->| ->]] H; symmetry in H; by apply workspace_key_ne in H. }
  destruct g; cbn [lease_if] in *; unfold set_text in E.
  - step E token w1 E1; [|by apply token_of_inv in E1 as [_ [=]]].
    apply token_of_inv in E1 as [-> [= ->]]. set (tok := default "" (lease_tokens w !! u)) in *.
    destruct (String.eqb_spec tok "") as [Et|Et].
    { exists []. cbn in E. injection E as <- <-. repeat split; constructor. }
    assert (Hlog : exists t, w_log w' = t :: w_log w /\ obeys u t /\ guarded u (lease_tokens w !! u) t).
    { assert (Hw : exists y, eval h "set_text" [workspace_key u name; tok]
          (lua_set_text (key u "lease") (workspace_key u name) tok v) w = (y, w')).
      { step E ok w2 E2; [exists (Ok ok)|by eexists]. destruct ok; by injection E as <- <-. }
      destruct Hw as [y Hw]. unfold eval, round_trip in Hw.
      set (r0 := others h (trips w) (srv w)) in Hw.
      pose proof (set_text_fenced u (workspace_key u name) tok v r0) as S.
      set (f := lua_set_text (key u "lease") (workspace_key u name) tok v) in *.
      assert (Hb : forall r1, (r1 = r0 \/ r1 = snd (f r0)) ->
        obeys u (Trip (TScript "set_text" [workspace_key u name; tok]) (keyspace r0) (keyspace r1)) /\
        guarded u (lease_tokens w !! u)
          (Trip (TScript "set_text" [workspace_key u name; tok]) (keyspace r0) (keyspace r1))).
      { intros r1 [->| ->]; [split; [apply obeys_same|by apply guarded_frame]|]. split.
        - apply obeys_frame. intros k Hk. apply leaves_set_text. by apply Hq.
        - intros k Hk Hc. destruct S as [S|S]; [|by rewrite <- S in Hc].
          exists tok. split; [|done]. unfold tok in Et |- *. by destruct (lease_tokens w !! u). }
      destruct (link h (trips w)); [destruct (f r0) as [z r1] eqn:Ef| |]; injection Hw as _ <-;
        cbn [w_log]; eexists; (split; [reflexivity|]); apply Hb; auto. }
    destruct Hlog as (t & Hl & Ho & Hg). exists [t]. split; [done|]. split; by repeat constructor.
  - assert (O : emits (obeys u) (_ ← redis h (SET (workspace_key u name) v); mret tt)).
    { apply emits_bind; [|intros; apply emits_ret].
      apply emits_redis; intros m; apply obeys_frame; intros k Hk; [done|].
      apply spec_frame. cbn [writes]. apply Hq in Hk. set_solver. }
    destruct (O _ _ _ E) as (l & Hl & F). by exists l.
Qed.
Lemma wstep_mark g : pres (wstep g) (mark_backend_started h u).
Proof.
  apply wstep_split; [|apply keeps_mark]. intros w x w' E.
  destruct (obeys_mark h u w x w' E) as (l & Hl & F). exists l. split; [done|].
  split; [done|]. intros _. revert E Hl.
  assert (A : forall k, protected u k -> emits (frame k) (mark_backend_started h u)).
  { intros k Hk. unfold mark_backend_started. apply emits_bind; [apply emits_gets|]. intros raws.
    apply emits_bind; [apply emits_token|]. intros token.
    apply emits_bind; [|intros; case_goal; first [apply emits_ret|apply emits_lift]].
    destruct (raws !! u) as [raw|]; [|apply emits_ret]. case_goal; [apply emits_ret|].
    apply emits_trip; intros r; [done|]. apply leaves_mark. intros ->. revert Hk.
    intros [E|[E|[n E]]]; [| |by symmetry in E; apply workspace_key_ne in E];
      unfold key in E; by apply append_inj_l, append_inj_l, append_inj_l in E. }
  intros E Hl. apply Forall_forall. intros t Ht. apply guarded_frame. intros k Hk.
  destruct (A k Hk _ _ _ E) as (l' & Hl' & F'). rewrite Hl in Hl'. apply app_inv_tail in Hl' as <-.
  rewrite Forall_forall in F'. by apply F'.
Qed.
End Step.
