(* ===== verification/Worker.v ===== *)
(** * The autonomous worker ([autonomous_agent/worker.py])

    One process: the main thread (the loop over leases and requests and
    [run_once] inside it) and the lease heartbeat thread, which shares the
    store and the abort event with it.  Before every store call of the main
    thread and while a backend request is open, the heartbeat may run any
    number of its iterations, as the environment says. *)
From S2P Require Import Prelude PyStr PyFloat PyVal Json JsonRoundtrip Redis PyUrl Sha Dedupe World Store.
From S2P Require Import StoreOps Exploration Prompt PromptText Messages Backend Goals.
#[local] Open Scope Z_scope.

(** A backend request the process opened, and the round trips before it. *)
Record bcall := BCall { c_request : http_request; c_log : list trip }.

Record proc (R : Type) := Proc {
  p_world : world R;
  p_pauses : nat;              (* how often the heartbeat got its chance *)
  p_looks : nat;               (* reads of SHUTDOWN or STOP *)
  p_abort : option bool;       (* the abort event; None without a heartbeat *)
  p_alive : bool;              (* the heartbeat thread is in its loop *)
  p_holder : string;           (* run_id_holder["id"] *)
  p_run : dict;                (* the run record of run_once *)
  p_calls : list bcall;
  p_errors : Z;                (* consecutive_errors *)
  p_sleeps : list Z;           (* sleeps of the main loop, newest first *)
}.
Arguments Proc {R}. Arguments p_world {R}. Arguments p_pauses {R}. Arguments p_looks {R}.
Arguments p_abort {R}. Arguments p_alive {R}. Arguments p_holder {R}. Arguments p_run {R}.
Arguments p_calls {R}. Arguments p_errors {R}. Arguments p_sleeps {R}.

Section Fields.
Context {R : Type}.
Implicit Types p : proc R.
Definition with_world (w : world R) p : proc R :=
  Proc w (p_pauses p) (p_looks p) (p_abort p) (p_alive p) (p_holder p) (p_run p) (p_calls p)
    (p_errors p) (p_sleeps p).
Definition with_pause p : proc R :=
  Proc (p_world p) (S (p_pauses p)) (p_looks p) (p_abort p) (p_alive p) (p_holder p) (p_run p)
    (p_calls p) (p_errors p) (p_sleeps p).
Definition with_look p : proc R :=
  Proc (p_world p) (p_pauses p) (S (p_looks p)) (p_abort p) (p_alive p) (p_holder p) (p_run p)
    (p_calls p) (p_errors p) (p_sleeps p).
(** The abort event and the heartbeat's loop. *)
Definition with_flags (a : option bool) (alive : bool) p : proc R :=
  Proc (p_world p) (p_pauses p) (p_looks p) a alive (p_holder p) (p_run p) (p_calls p)
    (p_errors p) (p_sleeps p).
Definition with_holder (s : string) p : proc R :=
  Proc (p_world p) (p_pauses p) (p_looks p) (p_abort p) (p_alive p) s (p_run p) (p_calls p)
    (p_errors p) (p_sleeps p).
Definition with_run (r : dict) p : proc R :=
  Proc (p_world p) (p_pauses p) (p_looks p) (p_abort p) (p_alive p) (p_holder p) r (p_calls p)
    (p_errors p) (p_sleeps p).
Definition with_call (c : bcall) p : proc R :=
  Proc (p_world p) (p_pauses p) (p_looks p) (p_abort p) (p_alive p) (p_holder p) (p_run p)
    (c :: p_calls p) (p_errors p) (p_sleeps p).
Definition with_errors (n : Z) p : proc R :=
  Proc (p_world p) (p_pauses p) (p_looks p) (p_abort p) (p_alive p) (p_holder p) (p_run p)
    (p_calls p) n (p_sleeps p).
Definition with_sleep (n : Z) p : proc R :=
  Proc (p_world p) (p_pauses p) (p_looks p) (p_abort p) (p_alive p) (p_holder p) (p_run p)
    (p_calls p) (p_errors p) (n :: p_sleeps p).
End Fields.

(** The rest of the process's surroundings. *)
Record env (R : Type) := Env {
  e_host : host R;
  stopping : nat -> bool;                    (* SHUTDOWN and STOP at a look *)
  beats : nat -> list bool;                  (* heartbeat iterations at a pause: refresh due? *)
  exchanges : nat -> exchange;               (* what the n-th backend request delivers *)
  races : nat -> race;
  local_time : nat -> string;                (* time.strftime("%Y-%m-%d %H:%M:%S %Z") *)
  local_day : float -> option string;
  json_schema : value;                       (* output_schema() *)
}.
Arguments Env {R}. Arguments e_host {R}. Arguments stopping {R}. Arguments beats {R}.
Arguments exchanges {R}. Arguments races {R}. Arguments local_time {R}. Arguments local_day {R}.
Arguments json_schema {R}.

(** Workspace sections a run may rewrite. *)
Definition allowed_sections : list string := ["heartbeat"; "interests"; "user"; "inner_state"; "memory"].
Definition is_set (abort : option bool) : bool := match abort with Some b => b | None => false end.
Definition has_abort (abort : option bool) : bool := match abort with Some _ => true | None => false end.

Section Worker.
Context {R : Type} `{RS : RedisServer R} `{V : Validator} (e : env R) (b : backend_client).
Abbreviation P := (proc R).
Abbreviation h := (e_host e).
Abbreviation user_id := (client_user b).

Definition on_world {A} (m : eff (world R) A) : eff P A := fun p =>
  let '(x, w) := m (p_world p) in (x, with_world w p).

(** ** The heartbeat thread *)
Definition look : eff P bool := fun p => (Ok (stopping e (p_looks p)), with_look p).
(** [abort.set()] and the end of the thread. *)
Definition set_abort : eff P unit :=
  modify (fun p => with_flags (option_map (fun _ => true) (p_abort p)) false p).
(** One iteration after [stop.wait]; [due] says whether a refresh is due. *)
Definition heartbeat (ttl : Z) (due : bool) : eff P unit :=
  alive ← gets p_alive;
  if negb alive then mret tt else
  shutdown ← look;
  if (shutdown : bool) then set_abort else
  ok ← (if due then catch (on_world (refresh_lease h user_id ttl)) [Exception_] (fun _ => mret false)
        else mret true);
  if negb (ok : bool) then set_abort else
  run_id ← gets p_holder;
  if (run_id =? "")%string then mret tt else
  cancelled ← catch (on_world (cancel_requested h user_id run_id)) [Exception_] (fun _ => mret false);
  if (cancelled : bool) then set_abort else mret tt.

(** ** Store calls of the main thread *)
Context (ttl : Z).
Definition pause : eff P unit :=
  n ← gets p_pauses;
  _ ← modify with_pause;
  iterE (heartbeat ttl) (beats e n).
Definition op {A} (m : eff (world R) A) : eff P A := _ ← pause; on_world m.

Definition run_id : eff P value := r ← gets p_run; mret (dget "id" r).
Definition set_field (k : string) (v : value) : eff P unit :=
  modify (fun p => with_run (dset k v (p_run p)) p).
Definition set_metric (k : string) (v : value) : eff P unit :=
  modify (fun p => with_run (dset "metrics" (VDict (dset k v (dict_or_empty (dget "metrics" (p_run p)))))
                               (p_run p)) p).
Definition stamp (k : string) : eff P unit := t ← on_world (now_ms h); set_field k (VInt t).
Definition save_run : eff P unit :=
  r ← gets p_run; r' ← op (upsert_run h user_id r); modify (with_run r').
Definition note_event (event message level : string) (data : dict) : eff P unit :=
  i ← run_id; op (log_event h user_id i event message level data).
Definition require_lease : eff P bool := a ← gets p_abort; mret (has_abort a).

(** ** Workspace *)
Fixpoint load_workspace (require : bool) (sections : list (string * string)) (acc : gmap string string)
  : eff P (gmap string string) :=
  match sections with
  | [] => mret acc
  | (name, seed) :: rest =>
      let k := workspace_key user_id name in
      current ← op (get_text h k);
      match current with
      | Some text => load_workspace require rest (<[name := text]> acc)
      | None =>
          _ ← (if (seed =? "")%string then mret tt
               else op (set_text h k seed (if require then Some user_id else None)));
          load_workspace require rest (<[name := seed]> acc)
      end
  end.

Fixpoint apply_updates (require : bool) (updates : dict) : eff P (list string) :=
  match updates with
  | [] => mret []
  | (name, content) :: rest =>
      match content with
      | VStr s =>
          let content := strip s in
          if negb (mem_str name allowed_sections) || (content =? "")%string
          then apply_updates require rest
          else
            let k := workspace_key user_id name in
            current ← op (get_text h k);
            if bool_decide (current = Some content) then apply_updates require rest
            else
              _ ← op (set_text h k content (if require then Some user_id else None));
              changed ← apply_updates require rest; mret (name :: changed)
      | _ => apply_updates require rest
      end
  end.
Definition apply_workspace_updates (output : dict) (require : bool) : eff P (list string) :=
  match dget "workspace_updates" output with
  | VDict updates => apply_updates require updates
  | _ => mret []
  end.

(** ** The backend request *)
Definition call (messages : list value) (execution_id : string) : eff P string :=
  before ← gets p_abort;
  if is_set before then lift (raise RunAbortedError ABORTED) else
  n ← gets (fun p => length (p_calls p));
  _ ← modify (fun p => with_call (BCall (stream_request (getenv h) (json_schema e) b messages execution_id)
                                    (w_log (p_world p))) p);
  _ ← pause;
  after ← gets p_abort;
  lift (_call_stream b (is_set before) (is_set after) (races e n) (_read_stream (exchanges e n))).

(** ** One run *)
Fixpoint goal_known (goal_id : string) (goals : list value) : result bool :=
  match goals with
  | [] => Ok false
  | g :: gs => i ← attr_get g "id";
               if py_eq i (VStr goal_id) then Ok true else goal_known goal_id gs
  end.
(** [existing.get("id") != run["id"]]. *)
Definition feed_items_from_output (i : value) (output : dict) : eff P (list dict) :=
  mapE (fun item => t ← on_world (now_ms h); uid ← on_world (uuid4 h);
                    mret (item_from_output t uid i (dict_or_empty item)))
       (as_list (dget "feed_items" output)).
Definition GOAL_GONE : string := "The selected goal is no longer available.".
Definition CANCELLED_AFTER : string := "Run cancelled after backend returned.".
Definition LOST : string := "Run aborted after losing the worker lease.".
Definition COMPLETED : string := "Autonomous run completed.".

(** Everything up to the dispatch: the messages and the execution id. *)
Definition prepare (request : dict) (invalid_goal_id : bool) (goals_snapshot : option (list value))
    (goal_id : string) : eff P (list value * string) :=
  config ← op (get_config h user_id);
  goals ← match goals_snapshot with Some g => mret g | None => op (list_goals h user_id) end;
  known ← (if invalid_goal_id then mret false
           else if (goal_id =? "")%string then mret true else lift (goal_known goal_id goals));
  if negb (known : bool) then throw ValueError GOAL_GONE else
  require ← require_lease;
  workspace ← load_workspace require DEFAULT_WORKSPACE ∅;
  runs ← op (list_runs h user_id);
  i ← run_id;
  recent_runs ← lift (runs_without i runs);
  recent_feed ← op (list_feed h user_id (Some 120));
  x ← lift (build_exploration_context recent_runs recent_feed (dget "goalId" request));
  _ ← set_metric "explorationStep" (VInt (x_step x));
  _ ← set_metric "explorationLane" (VStr (preferred_lane x));
  now ← on_world (now_ms h);
  current_time ← gets (fun p => local_time e (ticks (p_world p)));
  messages ← lift (build_messages (local_day e) now current_time user_id config workspace goals
                     recent_runs recent_feed request x);
  mret (messages, py_str (vor (dget "id" request) i)).

(** The fence, the goal's bookkeeping and the request itself. *)
Definition book_goal (goal_id : string) : eff P unit :=
  r ← gets p_run;
  require ← require_lease;
  if (goal_id =? "")%string then mret tt
  else op (mark_goal_run h user_id (VStr goal_id)
             (match dget "startedAt" r with VInt t => t | _ => 0 end) require).
Definition dispatch (goal_id : string) (messages : list value) (execution_id : string) : eff P string :=
  a ← gets p_abort;
  if is_set a then throw InterruptedBeforeDispatch "" else
  _ ← note_event "backend_call" "Calling backend workflow." "info" [];
  _ ← op (mark_backend_started h user_id);
  _ ← book_goal goal_id;
  call messages execution_id.

(** Is the lease known to be lost? *)
Definition lease_lost : eff P bool :=
  a ← gets p_abort;
  match a with
  | None => mret false
  | Some true => mret true
  | Some false =>
      owns ← catch (op (owns_lease h user_id)) [Exception_] (fun _ => mret false);
      mret (negb owns)
  end.
Definition close_run (status : string) (summary : option string) (error : option string)
    (event message level : string) : eff P unit :=
  _ ← set_field "status" (VStr status);
  _ ← match summary with Some s => set_field "summary" (VStr s) | None => mret tt end;
  _ ← match error with Some s => set_field "error" (VStr s) | None => mret tt end;
  _ ← stamp "completedAt";
  _ ← save_run;
  note_event event message level [].

Definition publish_output (output : dict) : eff P unit :=
  require ← require_lease;
  changed ← apply_workspace_updates output require;
  i ← run_id;
  feed_items ← feed_items_from_output i output;
  stored ← op (append_feed_items h user_id (map VDict feed_items) require);
  let deduped := Z.max 0 (Z.of_nat (length feed_items) - Z.of_nat (length stored)) in
  let count := VInt (Z.of_nat (length stored)) in
  ids ← lift (mapM_r (fun v => dgetitem "id" (dict_or_empty v)) stored);
  _ ← set_field "status" (VStr "completed");
  _ ← set_field "summary" (VStr (py_str (vor (dget "summary" output)
                                          (vor (dget "executive_summary" output) (VStr "")))));
  _ ← set_field "feedItemIds" (VList ids);
  _ ← set_metric "workspaceUpdated" (strs changed);
  _ ← set_metric "feedItemsStored" count;
  _ ← set_metric "feedItemsDeduped" (VInt deduped);
  _ ← stamp "completedAt";
  _ ← save_run;
  note_event "run_completed" COMPLETED "info"
    [("feedItems", count); ("feedItemsDeduped", VInt deduped); ("workspaceUpdated", strs changed)].

(** The answer of the backend, once it has returned. *)
Definition conclude (response : string) : eff P unit :=
  _ ← set_metric "responseChars" (VInt (ulen response));
  i ← run_id;
  cancelled ← op (cancel_requested h user_id (py_str i));
  if (cancelled : bool)
  then close_run "cancelled" (Some CANCELLED_AFTER) None "run_cancelled" CANCELLED_AFTER "warn"
  else
    lost ← lease_lost;
    if (lost : bool) then close_run "aborted" (Some LOST) None "run_aborted" LOST "warn"
    else output ← lift (parse_structured_output response); publish_output output.

(** ** The exception handlers, in the order of the source *)
Definition CANCELLED_BEFORE : string := "Run cancelled before its request reached the backend.".
Definition INTERRUPTED : string :=
  "Run was interrupted before its request reached the backend. The request will be queued again.".
Definition CANCELLED_OPEN : string := "Run cancelled while the backend request was open.".
Definition SHUTTING_DOWN : string :=
  "Run aborted because the worker was shutting down. Work that may have reached the backend will not be retried automatically.".
Definition STOPPED : string := "Run stopped before the backend produced an answer.".
Definition NO_APPROVAL : string := "Autonomous runs cannot request user approval.".
Definition NO_OAUTH : string := "Autonomous runs cannot use tools that require interactive OAuth.".

Definition interrupted : eff P unit :=
  i ← run_id;
  cancelled ← op (cancel_requested h user_id (py_str i));
  if (cancelled : bool)
  then close_run "cancelled" (Some CANCELLED_BEFORE) None "run_cancelled" CANCELLED_BEFORE "warn"
  else close_run "aborted" (Some INTERRUPTED) None "run_aborted" INTERRUPTED "warn".
Definition run_aborted_error (msg : string) : eff P unit :=
  i ← run_id;
  cancelled ← op (cancel_requested h user_id (py_str i));
  if (cancelled : bool)
  then close_run "cancelled" (Some CANCELLED_OPEN) None "run_cancelled" CANCELLED_OPEN "warn"
  else
    a ← gets p_abort;
    if is_set a then
      shutdown ← look;
      if (shutdown : bool)
      then close_run "aborted" (Some SHUTTING_DOWN) None "run_aborted" SHUTTING_DOWN "warn"
      else close_run "aborted" (Some LOST) None "run_aborted" LOST "warn"
    else close_run "failed" (Some STOPPED) (Some msg) "run_failed" STOPPED "error".
Definition on_run_error (x : exn) : eff P unit :=
  match exn_cls x with
  | InterruptedBeforeDispatch => interrupted
  | WorkerLeaseLost => close_run "aborted" (Some LOST) None "run_aborted" LOST "warn"
  | RunAbortedError => run_aborted_error (exn_msg x)
  | ApprovalRequiredError => close_run "failed" None (Some NO_APPROVAL) "approval_blocked" NO_APPROVAL "error"
  | OAuthRequiredError => close_run "failed" None (Some NO_OAUTH) "oauth_blocked" NO_OAUTH "error"
  | _ => close_run "failed" None (Some (exn_msg x)) "run_failed" (exn_msg x) "error"
  end.

Definition run_body (request : dict) (invalid_goal_id : bool) (goals_snapshot : option (list value))
    (goal_id : string) : eff P unit :=
  '(messages, execution_id) ← prepare request invalid_goal_id goals_snapshot goal_id;
  response ← dispatch goal_id messages execution_id;
  conclude response.

(** The goal a request names, and whether it names an unusable one. *)
Definition stripped_goal (request : dict) : dict :=
  match dget "goalId" request with
  | VStr s => dset "goalId" (VStr (strip s)) request
  | _ => request
  end.
Definition invalid_goal (request : dict) : bool :=
  match dget "goalId" request with VNone => false | VStr s => is_blank s | _ => true end.
Definition pick_goal (request : dict) (invalid_goal_id : bool)
  : eff P (dict * option (list value)) :=
  if py_eq (dget_or "trigger" (VStr "scheduled") request) (VStr "scheduled") &&
     negb (truthy (dget "goalId" request)) && negb invalid_goal_id
  then
    goals ← op (list_goals h user_id);
    t ← on_world (now_ms h);
    selected ← lift (select_scheduled_goal goals t);
    mret (match selected with
          | Some (_ :: _ as g) => dset "goalId" (dget "id" g) request
          | _ => request end, Some goals)
  else mret (request, None).
Definition begin_run (request : dict) : eff P unit :=
  uid ← on_world (uuid4 h);
  t ← on_world (now_ms h);
  let text k def := VStr (py_str (vor (dget k request) (VStr def))) in
  let run := new_run t uid user_id (text "trigger" "manual") (dget "goalId" request)
               (text "prompt" "") (text "requestedBy" "worker") in
  _ ← modify (with_run run);
  _ ← modify (with_holder (new_id "run" uid));
  _ ← set_field "status" (VStr "running");
  _ ← stamp "startedAt";
  _ ← save_run;
  note_event "run_started" "Autonomous run started." "info" [].

Definition run_once (request : dict) : eff P dict :=
  let invalid_goal_id := invalid_goal request in
  '(request, goals_snapshot) ← pick_goal (stripped_goal request) invalid_goal_id;
  _ ← begin_run request;
  run ← gets p_run;
  let goal_id := strip (py_str (vor (dget "goalId" run) (VStr ""))) in
  _ ← catch (run_body request invalid_goal_id goals_snapshot goal_id) [Exception_] on_run_error;
  gets p_run.

(** The run under its lease heartbeat; the thread ends with the run. *)
Definition stop_heartbeat : eff P unit :=
  _ ← pause; modify (fun p => with_flags (p_abort p) false p).
Definition run_with_lease_heartbeat (request : dict) : eff P dict :=
  ok ← on_world (refresh_lease h user_id ttl);
  if negb (ok : bool) then throw RuntimeError "worker lease was lost before the run started" else
  _ ← modify (with_flags (Some false) true);
  _ ← modify (with_holder "");
  finally (run_once request) stop_heartbeat.

(** ** The main loop *)
Context (poll_interval : Z) (run_once_only : bool).
Definition sleep (n : Z) : eff P unit := modify (with_sleep n).

(** The work of an iteration that holds the lease; true ends the loop. *)
Definition leased_work : eff P bool :=
  _ ← on_world (reclaim_processing h user_id);
  _ ← on_world (maybe_enqueue_scheduled h user_id);
  request ← on_world (dequeue h user_id);
  stop ← match request with
         | Some (_ :: _ as request) =>
             _ ← on_world (queue_length h user_id);
             run ← run_with_lease_heartbeat request;
             _ ← (if py_eq (dget "status" run) (VStr "aborted") then mret false
                  else on_world (complete h user_id));
             mret run_once_only
         | _ =>
             ok ← on_world (refresh_lease h user_id ttl);
             if (ok : bool) then mret false
             else throw RuntimeError "worker lease was lost while idle"
         end;
  if (stop : bool) then mret true else (_ ← modify (with_errors 0); mret false).
Definition on_loop_error : eff P bool :=
  n ← gets p_errors;
  _ ← modify (with_errors (n + 1));
  _ ← sleep (backoff poll_interval (n + 1));
  mret false.
Definition release : eff P unit := suppress [Exception_] (on_world (release_lease h user_id)).
(** [acquired] is only set by a successful [acquire_lease]. *)
Definition iteration : eff P bool :=
  acquired ← catch (x ← on_world (acquire_lease h user_id ttl); mret (Some x)) [Exception_]
               (fun _ => _ ← on_loop_error; mret None);
  match acquired with
  | Some true => finally (catch leased_work [Exception_] (fun _ => on_loop_error)) release
  | Some false => _ ← sleep poll_interval; mret false
  | None => mret false
  end.
(** [while not STOP], for at most [fuel] iterations. *)
Fixpoint main_loop (fuel : nat) : eff P unit :=
  match fuel with
  | O => mret tt
  | S fuel =>
      stop ← look;
      if (stop : bool) then mret tt else
      finished ← iteration;
      if (finished : bool) then mret tt else main_loop fuel
  end.
End Worker.

(** ** Startup and the queue monitor *)
Section Startup.
Context (getenv : string -> option string).
Definition autonomous_user : string := env_or getenv "AUTONOMOUS_USER_ID" "default-user".
Definition make_backend (user_id : string) : result backend_client :=
  timeout ← _request_timeout_seconds getenv;
  Ok (make_client (env_or getenv "BACKEND_BASE_URL" "http://daedalus-backend-default:8000")
        (env_or getenv "BACKEND_API_PATH" "/v1/chat/completions") user_id timeout).
Definition once_only : bool := (lower (env_or getenv "AUTONOMY_RUN_ONCE" "false") =? "true")%string.
End Startup.

Section Monitor.
Context {R : Type} `{RS : RedisServer R} (h : host R).
(** One round of the monitor thread: the depth it remembers and what it logs;
    an error is logged by its class. *)
Definition monitor_round (user_id : string) (last_depth : option Z)
  : eff (world R) (option Z * list string) :=
  catch
    (depth ← queue_length h user_id;
     if negb (bool_decide (last_depth = Some depth)) || (0 <? depth) then
       next ← queue_snapshot h user_id 1;
       mret (Some depth, ["queue status: depth=" +++ str_of_Z depth +++ " next=" +++
                          _request_summary (head next)])
     else mret (last_depth, []))
    [Exception_] (fun _ => mret (last_depth, ["queue monitor error"])).
End Monitor.

(** [main()]: configuration errors end it before the first iteration. *)
Definition main {R : Type} `{RS : RedisServer R} `{V : Validator} (e : env R) (fuel : nat)
  : eff (proc R) Z :=
  let getenv := getenv (e_host e) in
  '(poll_interval, lease_ttl) ← lift (_worker_timing_seconds getenv);
  b ← lift (make_backend getenv (autonomous_user getenv));
  _ ← main_loop e b lease_ttl poll_interval (once_only getenv) fuel;
  mret 0.
