(* ===== verification/WorkerLaws.v ===== *)
(** * Laws of one run of the worker

    Whatever the heartbeat, other clients and the network do meanwhile: every
    round trip of a run is a protocol step, the user's content only changes
    under the run's lease, a backend request is opened at most once and only
    behind the dispatch fence, and a run that returns has a final status. *)
From S2P Require Import Prelude PyStr PyFloat PyVal Json JsonRoundtrip Redis PyUrl Sha Dedupe World Store.
From S2P Require Import StoreOps Trace StoreLaws OpLaws Queue QueueLaws Exploration Prompt PromptText.
From S2P Require Import Messages Backend Goals WorkerOps Worker.
#[local] Open Scope Z_scope.

Section Laws.
Context {R : Type} `{RS : RedisServer R} `{V : Validator} (e : env R) (b : backend_client) (ttl : Z).
Abbreviation P := (proc R).
Abbreviation h := (e_host e).
Abbreviation u := (client_user b).
Hypothesis others_later : forall n r, later r (others h n r).

(** ** Steps of the process *)
(** A step of a run that is fenced iff [g], without a backend request. *)
Record pstep (p p' : P) (g : bool) : Prop := PStep {
  ps_world : wstep u g (p_world p) (p_world p');
  ps_abort : has_abort (p_abort p') = g;
  ps_calls : p_calls p' = p_calls p }.
Definition qstep (g : bool) (p p' : P) : Prop := has_abort (p_abort p) = g -> pstep p p' g.
#[export] Instance qstep_preorder g : PreOrder (qstep g).
Proof.
  split; [intros p Hg; split; [reflexivity|done|done]|].
  intros p1 p2 p3 H1 H2 Hg. destruct (H1 Hg) as [W1 A1 C1]. destruct (H2 A1) as [W2 A2 C2].
  split; [by etransitivity|done|congruence].
Qed.
Lemma q_world {A} g (m : eff (world R) A) : pres (wstep u g) m -> pres (qstep g) (on_world m).
Proof.
  intros H p x p' E Hg. unfold on_world in E. destruct (m (p_world p)) as [y w] eqn:Em.
  injection E as _ <-. split; [by eapply H|done|done].
Qed.
Lemma q_modify g (f : P -> P) :
  (forall p, p_world (f p) = p_world p /\ has_abort (p_abort (f p)) = has_abort (p_abort p) /\
             p_calls (f p) = p_calls p) -> pres (qstep g) (modify f).
Proof.
  intros H. apply pres_modify. intros p Hg. destruct (H p) as (Hw & Ha & Hc).
  split; [rewrite Hw; reflexivity|by rewrite Ha|done].
Qed.
Lemma q_look g : pres (qstep g) (look e).
Proof. intros p x p' E Hg. injection E as _ <-. by split. Qed.
Lemma q_require {A} g (f : bool -> eff P A) :
  pres (qstep g) (f g) -> pres (qstep g) (r ← require_lease; f r).
Proof.
  intros H p x p' E Hg. unfold require_lease, gets, mbind, eff_bind, mret, eff_ret in E.
  rewrite Hg in E. by apply (H p x p').
Qed.
Ltac walk_first ::= lazymatch goal with |- pres _ (mbind _ require_lease) => apply q_require end.
#[local] Hint Resolve q_look : steps.
#[local] Hint Extern 1 (pres (qstep _) (on_world _)) =>
  apply q_world; first
  [ by apply wstep_get_config | by apply wstep_list_of | by apply wstep_list_feed
  | by apply wstep_upsert | by apply wstep_log_event | by apply wstep_get_text
  | by apply wstep_owns | by apply wstep_cancel | by apply wstep_now | by apply wstep_uuid
  | by apply wstep_refresh | by apply wstep_mark ] : steps.
#[local] Hint Extern 1 (pres (qstep _) (modify _)) => apply q_modify; intros ?; by repeat split : steps.

Lemma q_set_abort g : pres (qstep g) set_abort.
Proof. unfold set_abort. apply q_modify. intros p. by destruct (p_abort p). Qed.
#[local] Hint Resolve q_set_abort : steps.
Lemma q_heartbeat g due : pres (qstep g) (heartbeat e b ttl due).
Proof. unfold heartbeat. walk. Qed.
#[local] Hint Resolve q_heartbeat : steps.
Lemma q_pause g : pres (qstep g) (pause e b ttl).
Proof. unfold pause. walk. Qed.
#[local] Hint Resolve q_pause : steps.
Lemma q_op {A} g (m : eff (world R) A) : pres (qstep g) (on_world m) -> pres (qstep g) (op e b ttl m).
Proof. intros H. unfold op. walk. Qed.
#[local] Hint Resolve q_op : steps.
Lemma q_save g : pres (qstep g) (save_run e b ttl).
Proof. unfold save_run. walk. Qed.
Lemma q_run_id g : pres (qstep g) run_id.
Proof. unfold run_id. walk. Qed.
Lemma q_field g k v : pres (qstep g) (set_field k v).
Proof. unfold set_field. walk. Qed.
Lemma q_metric g k v : pres (qstep g) (set_metric k v).
Proof. unfold set_metric. walk. Qed.
#[local] Hint Resolve q_save q_run_id q_field q_metric : steps.
Lemma q_stamp g k : pres (qstep g) (stamp e k).
Proof. unfold stamp. walk. Qed.
Lemma q_note g ev msg lvl d : pres (qstep g) (note_event e b ttl ev msg lvl d).
Proof. unfold note_event. walk. Qed.
#[local] Hint Resolve q_stamp q_note : steps.
Lemma q_close g st s er ev msg lvl : pres (qstep g) (close_run e b ttl st s er ev msg lvl).
Proof. unfold close_run. walk. Qed.
#[local] Hint Resolve q_close : steps.
Lemma q_set_text g name v : pres (qstep g) (op e b ttl (set_text h (workspace_key u name) v (lease_if g u))).
Proof. apply q_op, q_world. by apply wstep_set_text. Qed.
Lemma q_load g sections : forall acc, pres (qstep g) (load_workspace e b ttl g sections acc).
Proof.
  induction sections as [|[n s] sections IH]; intros acc; cbn [load_workspace]; walk;
    first [apply q_set_text|apply IH].
Qed.
Lemma q_apply g updates : pres (qstep g) (apply_updates e b ttl g updates).
Proof.
  induction updates as [|[n v] updates IH]; cbn [apply_updates]; walk; first [apply q_set_text|apply IH].
Qed.
#[local] Hint Resolve q_load q_apply : steps.
Lemma q_items g i out : pres (qstep g) (feed_items_from_output e i out).
Proof. unfold feed_items_from_output. walk. Qed.
#[local] Hint Resolve q_items : steps.
Lemma q_publish g out : pres (qstep g) (publish_output e b ttl out).
Proof.
  unfold publish_output, apply_workspace_updates. walk.
  apply q_op, q_world. by apply wstep_append_feed.
Qed.
Lemma q_lost g : pres (qstep g) (lease_lost e b ttl).
Proof. unfold lease_lost. walk. Qed.
#[local] Hint Resolve q_publish q_lost : steps.
Lemma q_conclude g response : pres (qstep g) (conclude e b ttl response).
Proof. unfold conclude. walk. Qed.
Lemma q_prepare g request inv snap goal : pres (qstep g) (prepare e b ttl request inv snap goal).
Proof.
  unfold prepare. walk.
Qed.
Lemma q_on_error g x : pres (qstep g) (on_run_error e b ttl x).
Proof. unfold on_run_error, interrupted, run_aborted_error. walk. Qed.
Lemma q_pick g request inv : pres (qstep g) (pick_goal e b ttl request inv).
Proof. unfold pick_goal. walk. Qed.
Lemma q_begin g request : pres (qstep g) (begin_run e b ttl request).
Proof. unfold begin_run. walk. Qed.
Lemma q_stop g : pres (qstep g) (stop_heartbeat e b ttl).
Proof. unfold stop_heartbeat. walk. Qed.

(** ** The request behind its fence *)
(** Before the request [c] was opened, and after [p], one script moved the
    claimed request to "started" while the lease key held this worker's token. *)
Definition fenced_call (p : P) (c : bcall) : Prop :=
  exists raw token t l l2, c_log c = l ++ t :: l2 ++ w_log (p_world p) /\
    inflight (p_world p) !! u = Some raw /\ lease_tokens (p_world p) !! u = Some token /\
    t_kind t = TScript "mark_backend_started" [token; raw] /\
    forall a, view u (t_before t) a ->
      kval (key u "lease") (t_before t) = Some (RStr token) /\
      exists a', a_mark raw a = Some a' /\ view u (t_after t) a'.
Definition at_most_one (p p' : P) : Prop :=
  p_calls p' = p_calls p \/ exists c, p_calls p' = c :: p_calls p /\ fenced_call p c.
Definition dstep (g : bool) (p p' : P) : Prop :=
  has_abort (p_abort p) = g ->
  wstep u g (p_world p) (p_world p') /\ has_abort (p_abort p') = g /\ at_most_one p p'.

Lemma q_d g p p' : qstep g p p' -> dstep g p p'.
Proof. intros H Hg. destruct (H Hg) as [Hw Ha Hc]. split; [done|]. split; [done|by left]. Qed.
Lemma fenced_before g p0 p c : pstep p0 p g -> fenced_call p c -> fenced_call p0 c.
Proof.
  intros [[(l0 & Hl0 & _) Hi Ht] _ _] (raw & token & t & l & l2 & Hlog & Hr & Hk & Hkind & H).
  exists raw, token, t, l, (l2 ++ l0). rewrite Hlog, Hl0, List.app_assoc. split; [done|].
  split; [by rewrite <- Hi|]. split; [|done]. destruct Ht as [Ht|Ht]; [congruence|by rewrite <- Ht].
Qed.
Lemma d_before g p0 p p' : qstep g p0 p -> dstep g p p' -> dstep g p0 p'.
Proof.
  intros Hq Hd Hg. pose proof (Hq Hg) as Hs. destruct Hs as [Hw Ha Hc].
  destruct (Hd Ha) as (Hw' & Ha' & Hm). split; [by etransitivity|]. split; [done|].
  destruct Hm as [Hm|(c & Hm & Hf)]; [left; congruence|right; exists c; split; [congruence|]].
  eapply fenced_before; [by apply (Hq Hg)|done].
Qed.
Lemma d_after g p p' p'' : dstep g p p' -> qstep g p' p'' -> dstep g p p''.
Proof.
  intros Hd Hq Hg. destruct (Hd Hg) as (Hw & Ha & Hm). destruct (Hq Ha) as [Hw' Ha' Hc].
  split; [by etransitivity|]. split; [done|]. unfold at_most_one. by rewrite Hc.
Qed.
Lemma d_bind_l {A B} g (m : eff P A) (f : A -> eff P B) :
  pres (qstep g) m -> (forall a, pres (dstep g) (f a)) -> pres (dstep g) (x ← m; f x).
Proof.
  intros Hm Hf p x p' E. apply bind_inv in E as [(a & p1 & E1 & E2)|(ex & E1 & _)].
  - eapply d_before; [by eapply Hm|by eapply Hf].
  - eapply q_d, Hm, E1.
Qed.
Lemma d_bind_r {A B} g (m : eff P A) (f : A -> eff P B) :
  pres (dstep g) m -> (forall a, pres (qstep g) (f a)) -> pres (dstep g) (x ← m; f x).
Proof.
  intros Hm Hf p x p' E. apply bind_inv in E as [(a & p1 & E1 & E2)|(ex & E1 & _)].
  - eapply d_after; [by eapply Hm|by eapply Hf].
  - eapply Hm, E1.
Qed.
Lemma d_catch {A} g (m : eff P A) cs f :
  pres (dstep g) m -> (forall x, pres (qstep g) (f x)) -> pres (dstep g) (catch m cs f).
Proof.
  intros Hm Hf p x p' E. unfold catch in E. destruct (m p) as [[a|ex] p1] eqn:Em.
  - injection E as _ <-. by eapply Hm.
  - destruct (exn_in ex cs); [|injection E as _ <-; by eapply Hm].
    eapply d_after; [by eapply Hm|by eapply Hf].
Qed.

(** The request itself, opened after a fence. *)
Lemma call_spec g messages i p x p' : call e b ttl messages i p = (x, p') ->
  has_abort (p_abort p) = g ->
  wstep u g (p_world p) (p_world p') /\ has_abort (p_abort p') = g /\
  (p_calls p' = p_calls p /\ (forall s, x <> Ok s) \/
   p_calls p' = BCall (stream_request (getenv h) (json_schema e) b messages i) (w_log (p_world p))
                  :: p_calls p /\
   (forall s, x = Ok s -> _read_stream (exchanges e (length (p_calls p))) = Ok s)).
Proof.
  unfold call. intros E Hg. step E before p1 E1; [|done]. injection E1 as <- <-.
  destruct (is_set (p_abort p)) eqn:Es.
  { injection E as <- <-. split; [reflexivity|]. split; [done|]. left. by split. }
  step E n p1 E1; [|done]. injection E1 as <- <-. step E v p1 E1; [|done]. injection E1 as <- <-.
  set (p1 := with_call _ p) in E.
  assert (Hg1 : has_abort (p_abort p1) = g) by done.
  step E v2 p2 E2; [|destruct (q_pause g _ _ _ E2 Hg1) as [Hw Ha Hc]; split; [done|split; [done|]];
                     right; split; [by rewrite Hc|by intros]].
  destruct (q_pause g _ _ _ E2 Hg1) as [Hw Ha Hc].
  step E after p3 E3; [|done]. injection E3 as <- <-. injection E as <- <-.
  split; [done|]. split; [done|]. right. split; [by rewrite Hc|]. intros s.
  unfold _call_stream. cbn [is_set]. destruct (_ && _); [done|]. by destruct (reader_done _).
Qed.

Lemma q_book g goal : pres (qstep g) (book_goal e b ttl goal).
Proof. unfold book_goal. walk. apply q_op, q_world. by apply wstep_mark_goal. Qed.
(** The fence, and what it proves about the state it leaves. *)
Lemma mark_op g p v p' : op e b ttl (mark_backend_started h u) p = (Ok v, p') ->
  has_abort (p_abort p) = g ->
  pstep p p' g /\ exists raw token t l, w_log (p_world p') = t :: l ++ w_log (p_world p) /\
    inflight (p_world p) !! u = Some raw /\ lease_tokens (p_world p) !! u = Some token /\
    t_kind t = TScript "mark_backend_started" [token; raw] /\
    forall a, view u (t_before t) a ->
      kval (key u "lease") (t_before t) = Some (RStr token) /\
      exists a', a_mark raw a = Some a' /\ view u (t_after t) a'.
Proof.
  intros E Hg. unfold op in E. step E v1 p1 E1; [|done].
  destruct (q_pause g _ _ _ E1 Hg) as [W1 A1 C1].
  unfold on_world in E. destruct (mark_backend_started h u (p_world p1)) as [y w2] eqn:Em.
  injection E as -> <-. destruct v. pose proof (wstep_mark h u g _ _ _ Em) as Wm.
  apply (mark_fenced h others_later u) in Em as (raw & token & t & Hi & Ht & Hl & Hk & Hf).
  split; [split; [by etransitivity|done|done]|].
  destruct W1 as [(l & Hl1 & _) Hi1 Ht1]. exists raw, token, t, l.
  cbn [p_world with_world]. rewrite Hl, Hl1. split; [done|]. split; [by rewrite <- Hi1|].
  split; [|done]. destruct Ht1 as [Ht1|Ht1]; [congruence|by rewrite <- Ht1].
Qed.
Lemma dispatch_spec g goal messages i p x p' : dispatch e b ttl goal messages i p = (x, p') ->
  has_abort (p_abort p) = g ->
  (wstep u g (p_world p) (p_world p') /\ has_abort (p_abort p') = g /\ at_most_one p p') /\
  (forall s, x = Ok s -> length (p_calls p') = S (length (p_calls p)) /\
                        _read_stream (exchanges e (length (p_calls p))) = Ok s).
Proof.
  intros E Hg. unfold dispatch in E. step E a p1 E1; [|done]. injection E1 as <- <-.
  assert (N : forall q, qstep g p q ->
    wstep u g (p_world p) (p_world q) /\ has_abort (p_abort q) = g /\ at_most_one p q)
    by (intros q Hq; by apply q_d).
  destruct (is_set (p_abort p)); [injection E as <- <-; split; [by apply N|done]|].
  step E v p1 E1; [|split; [by eapply N, q_note|done]].
  assert (Q1 : qstep g p p1) by (by eapply q_note). destruct (Q1 Hg) as [W1 A1 C1].
  step E m p2 E2.
  2:{ split; [|done]. apply N. etransitivity; [exact Q1|]. revert E2. apply q_op. auto with steps nocore. }
  apply (mark_op g) in E2 as [Q2 F2]; [|done].
  destruct Q2 as [W2 A2 C2].
  step E v2 p3 E3.
  2:{ split; [|done]. apply N. etransitivity; [exact Q1|]. etransitivity; [by intros _|].
      revert E3. by apply q_book. }
  destruct (q_book g _ _ _ _ E3 A2) as [W3 A3 C3].
  apply (call_spec g) in E as (W4 & A4 & H4); [|done].
  assert (C : p_calls p3 = p_calls p) by congruence.
  rewrite C in H4.
  split; [split; [|split; [done|]]|].
  - etransitivity; [exact W1|]. etransitivity; [exact W2|]. by etransitivity.
  - destruct H4 as [[H4 _]|[H4 _]]; [by left|right]. eexists. split; [exact H4|].
    destruct F2 as (raw & token & t & l & Hl & Hi & Ht & Hk & Hf).
    destruct W1 as [(l1 & Hl1 & _) Hi1 Ht1], W3 as [(l3 & Hl3 & _) _ _].
    exists raw, token, t, l3, (l ++ l1). cbn [c_log].
    rewrite Hl3, Hl, Hl1, <- List.app_assoc. split; [done|]. split; [by rewrite <- Hi1|].
    split; [|done]. destruct Ht1 as [Ht1|Ht1]; [congruence|by rewrite <- Ht1].
  - intros s Hs. destruct H4 as [[_ H4]|[H4 H5]]; [by destruct (H4 s)|].
    rewrite H4. split; [done|]. by apply H5.
Qed.

Lemma d_dispatch g goal messages i : pres (dstep g) (dispatch e b ttl goal messages i).
Proof. intros p x p' E Hg. by apply (dispatch_spec g) in E as [? _]. Qed.
Lemma d_run_once g request : pres (dstep g) (run_once e b ttl request).
Proof.
  unfold run_once. apply d_bind_l; [apply q_pick|]. intros [request' snap].
  apply d_bind_l; [apply q_begin|]. intros _. apply d_bind_l; [walk|]. intros run. cbv zeta.
  apply d_bind_r; [|intros; walk]. apply d_catch; [|apply q_on_error].
  unfold run_body. apply d_bind_l; [apply q_prepare|]. intros [messages i].
  apply d_bind_r; [apply d_dispatch|apply q_conclude].
Qed.
Lemma d_run request p x p' : run_with_lease_heartbeat e b ttl request p = (x, p') ->
  wstep u true (p_world p) (p_world p') /\ at_most_one p p'.
Proof.
  unfold run_with_lease_heartbeat. intros E.
  assert (S : forall y q, on_world (refresh_lease h u ttl) p = (y, q) ->
    wstep u true (p_world p) (p_world q) /\ p_calls q = p_calls p).
  { intros y q Eq. unfold on_world in Eq. destruct (refresh_lease h u ttl (p_world p)) as [z w] eqn:Er.
    injection Eq as _ <-. split; [by apply (wstep_refresh h others_later u true) in Er|done]. }
  step E ok p1 E1; apply S in E1 as [W1 C1]; [|split; [done|by left]]. clear S.
  destruct ok; cbn [negb] in E; [|injection E as _ <-; split; [done|by left]].
  step E v p2 E2; [|done]. injection E2 as _ <-. step E v2 p3 E3; [|done]. injection E3 as _ <-.
  set (p3 := with_holder "" _) in E. assert (A3 : has_abort (p_abort p3) = true) by done.
  assert (D : dstep true p3 p').
  { unfold finally in E. destruct (run_once e b ttl request p3) as [r p4] eqn:Er.
    apply (d_run_once true) in Er. destruct (stop_heartbeat e b ttl p4) as [y p5] eqn:Es.
    apply (q_stop true) in Es. destruct y as [[]|]; injection E as _ <-; by eapply d_after. }
  destruct (D A3) as (W3 & _ & M). split; [by etransitivity|].
  destruct M as [M|(c & M & raw & token & t & l & l2 & Hl & Hi & Ht & Hk)]; [left; by rewrite M|].
  right. exists c. split; [rewrite M; f_equal; exact C1|]. destruct W1 as [(l1 & Hl1 & _) Hi1 Ht1].
  exists raw, token, t, l, (l2 ++ l1). change (p_world p3) with (p_world p1) in *.
  rewrite Hl, Hl1, List.app_assoc. split; [done|]. split; [by rewrite <- Hi1|]. split; [|done].
  destruct Ht1 as [Ht1|Ht1]; [congruence|by rewrite <- Ht1].
Qed.

(** C19: One run opens at most one backend request, and only behind the fence:
    whatever the heartbeat, other clients and the network do, if a request was
    opened then earlier in the same run an atomic script, at an instant when
    the lease key held this worker's token, moved exactly the request this
    worker had claimed from phase "claimed" to "started". *)
Theorem run_dispatches_behind_fence request p x p' :
  run_with_lease_heartbeat e b ttl request p = (x, p') ->
  p_calls p' = p_calls p \/ exists c, p_calls p' = c :: p_calls p /\ fenced_call p c.
Proof. intros E. by apply d_run in E as [_ H]. Qed.

(** C20: A run is confined: all its round trips, the heartbeat's included, move
    the queue by protocol steps only, and every single change of the user's
    feed, goals or workspace notes happens at an instant when the lease key
    holds the very token this worker had when the run began; the claimed
    request stays the one it was dispatched for. *)
Theorem run_writes_fenced request p x p' :
  run_with_lease_heartbeat e b ttl request p = (x, p') ->
  inflight (p_world p') = inflight (p_world p) /\
  exists l, w_log (p_world p') = l ++ w_log (p_world p) /\ Forall (obeys u) l /\
    Forall (guarded u (lease_tokens (p_world p) !! u)) l.
Proof.
  intros E. apply d_run in E as [[(l & Hl & O & G) Hi _] _]. split; [done|].
  exists l. auto.
Qed.
End Laws.
