(* ===== verification/MainLoop.v ===== *)
(** * Laws of the worker's loop

    Final statuses of runs, and the loop around them: it survives every
    error, always gives its lease up, backs off within bounds and only makes
    protocol steps. *)
From S2P Require Import Prelude PyStr PyFloat PyVal Json JsonRoundtrip Redis PyUrl Sha Dedupe World Store.
From S2P Require Import StoreOps Trace StoreLaws OpLaws Queue QueueLaws Exploration Prompt PromptText.
From S2P Require Import Messages Backend Goals WorkerOps Worker WorkerLaws.
#[local] Open Scope Z_scope.

Lemma exception_catches_all x : exn_in x [Exception_] = true.
Proof. unfold exn_in, exn_isa. simpl. by rewrite orb_true_r. Qed.

Section Any.
Context {R : Type} `{RS : RedisServer R} `{V : Validator} (e : env R) (b : backend_client) (ttl : Z).
Abbreviation P := (proc R).
Abbreviation h := (e_host e).
Abbreviation u := (client_user b).

(** ** Relations a run preserves whatever its store calls do *)
Section Blind.
Context (Q : P -> P -> Prop) `{!PreOrder Q}.
Context (any_world : forall w p, Q p (with_world w p)) (any_pause : forall p, Q p (with_pause p))
  (any_look : forall p, Q p (with_look p)) (any_flags : forall a l p, Q p (with_flags a l p)).
Context (any_holder : forall s p, Q p (with_holder s p)) (any_run : forall r p, Q p (with_run r p))
  (any_call : forall c p, Q p (with_call c p)).
Collection Basics := R RS V e b ttl Q PreOrder0 any_world any_pause any_look any_flags.
Lemma b_world {A} (m : eff (world R) A) : pres Q (on_world m).
Proof using any_world. intros p x p' E. unfold on_world in E. destruct (m (p_world p)). injection E as _ <-. apply any_world. Qed.
Lemma b_look : pres Q (look e).
Proof using any_look. intros p x p' E. injection E as _ <-. apply any_look. Qed.
#[local] Hint Resolve b_world b_look : steps.
Lemma b_heartbeat due : pres Q (heartbeat e b ttl due).
Proof using Basics. unfold heartbeat, set_abort. walk. Qed.
#[local] Hint Resolve b_heartbeat : steps.
Lemma b_pause : pres Q (pause e b ttl).
Proof using Basics. unfold pause. walk. Qed.
#[local] Hint Resolve b_pause : steps.
Lemma b_op {A} (m : eff (world R) A) : pres Q (op e b ttl m).
Proof using Basics. unfold op. walk. Qed.
#[local] Hint Resolve b_op : steps.
Lemma b_note ev msg lvl d : pres Q (note_event e b ttl ev msg lvl d).
Proof using Basics. unfold note_event, run_id. walk. Qed.
#[local] Hint Resolve b_note : steps.
Lemma b_field k v : pres Q (set_field k v).
Proof using All. unfold set_field. walk. Qed.
Lemma b_metric k v : pres Q (set_metric k v).
Proof using All. unfold set_metric. walk. Qed.
Lemma b_save : pres Q (save_run e b ttl).
Proof using All. unfold save_run. walk. Qed.
#[local] Hint Resolve b_field b_metric b_save : steps.
Lemma b_stamp k : pres Q (stamp e k).
Proof using All. unfold stamp. walk. Qed.
#[local] Hint Resolve b_stamp : steps.
Lemma b_close st s er ev msg lvl : pres Q (close_run e b ttl st s er ev msg lvl).
Proof using All. unfold close_run. walk. Qed.
#[local] Hint Resolve b_close : steps.
Lemma b_load r sections : forall acc, pres Q (load_workspace e b ttl r sections acc).
Proof using All. induction sections as [|[n s] l IH]; intros acc; cbn [load_workspace]; walk; apply IH. Qed.
Lemma b_apply r updates : pres Q (apply_updates e b ttl r updates).
Proof using All. induction updates as [|[n s] l IH]; cbn [apply_updates]; walk; apply IH. Qed.
#[local] Hint Resolve b_load b_apply : steps.
Lemma b_publish out : pres Q (publish_output e b ttl out).
Proof using All.
  unfold publish_output, apply_workspace_updates, feed_items_from_output, run_id, require_lease. walk.
Qed.
#[local] Hint Resolve b_publish : steps.
Lemma b_prepare request inv snap goal : pres Q (prepare e b ttl request inv snap goal).
Proof using All. unfold prepare, require_lease, run_id. walk. Qed.
Lemma b_dispatch goal messages i : pres Q (dispatch e b ttl goal messages i).
Proof using All. unfold dispatch, book_goal, call, require_lease. walk. Qed.
Lemma b_conclude response : pres Q (conclude e b ttl response).
Proof using All. unfold conclude, lease_lost, run_id. walk. Qed.
Lemma b_error x : pres Q (on_run_error e b ttl x).
Proof using All. unfold on_run_error, interrupted, run_aborted_error, run_id. walk. Qed.
#[local] Hint Resolve b_prepare b_dispatch b_conclude b_error : steps.
Lemma b_run request : pres Q (run_with_lease_heartbeat e b ttl request).
Proof using All.
  unfold run_with_lease_heartbeat, run_once, run_body, pick_goal, begin_run, stop_heartbeat. walk.
Qed.
End Blind.

(** ** Final statuses *)
Definition status (p : P) : value := dget "status" (p_run p).
Definition same_status (p p' : P) : Prop := status p' = status p.
#[export] Instance same_status_preorder : PreOrder same_status.
Proof. split; [by intros ?|]. unfold same_status. intros ???. congruence. Qed.
Lemma status_op {A} (m : eff (world R) A) : pres same_status (op e b ttl m).
Proof. apply b_op; first [exact _|done]. Qed.
Lemma status_note ev msg lvl d : pres same_status (note_event e b ttl ev msg lvl d).
Proof. apply b_note; first [exact _|done]. Qed.
Lemma status_field k v : k <> "status" -> pres same_status (set_field k v).
Proof.
  intros Hk. apply pres_modify. intros p. unfold same_status, status. cbn [p_run with_run].
  apply dget_dset_ne. congruence.
Qed.
Lemma upsert_status us r w r' w' : upsert_run h us r w = (Ok r', w') -> dget "status" r' = dget "status" r.
Proof.
  unfold upsert_run. intros E. cbv zeta in E. step E ts w1 E1; [|done]. step E c w2 E2; [|done].
  step E m w3 E3; [|done]. step E v w4 E4; [|done]. step E v2 w5 E5; [|done].
  injection E as <- _. by apply dget_dset_ne.
Qed.
Lemma status_save : pres same_status (save_run e b ttl).
Proof.
  intros p x p' E. unfold save_run in E. step E r p1 E1; [|done]. injection E1 as <- <-.
  step E r' p2 E2; [|by eapply status_op].
  injection E as _ <-. unfold same_status, status. cbn [p_run with_run].
  unfold op in E2. step E2 v p3 E3; [|done].
  unfold on_world in E2. destruct (upsert_run h u (p_run p) (p_world p3)) as [y w] eqn:Eu.
  injection E2 as -> _. by apply upsert_status in Eu.
Qed.
Lemma status_stamp k : k <> "status" -> pres same_status (stamp e k).
Proof.
  intros Hk. unfold stamp. apply pres_bind; [exact _|by apply b_world|]. intros. by apply status_field.
Qed.
Lemma set_status v p x p' : set_field "status" v p = (x, p') -> status p' = v.
Proof. intros E. injection E as _ <-. apply dget_dset. Qed.
#[local] Hint Extern 1 (pres same_status _) =>
  first [by apply status_op|by apply status_note|by apply status_save|by apply status_stamp
        |by apply status_field] : steps.
Lemma close_status st s er ev msg lvl p v p' :
  close_run e b ttl st s er ev msg lvl p = (Ok v, p') -> status p' = VStr st.
Proof.
  unfold close_run. intros E. step E w p1 E1; [|done]. apply set_status in E1.
  rewrite <- E1. revert E. generalize (Ok v : result unit). intros x E.
  revert E. match goal with |- ?m p1 = _ -> _ => assert (H : pres same_status m) end; [|intros E; by apply H in E].
  walk.
Qed.
Lemma publish_status out p v p' : publish_output e b ttl out p = (Ok v, p') -> status p' = VStr "completed".
Proof.
  unfold publish_output. intros E. step E r p1 E1; [|done]. step E c p2 E2; [|done].
  step E i p3 E3; [|done]. step E fi p4 E4; [|done]. step E st p5 E5; [|done]. cbv zeta in E.
  step E ids p6 E6; [|done]. step E z p7 E7; [|done]. apply set_status in E7.
  rewrite <- E7. revert E. generalize (Ok v : result unit). intros x E.
  revert E. match goal with |- ?m p7 = _ -> _ => assert (H : pres same_status m) end; [|intros E; by apply H in E].
  unfold set_metric. walk; intros p0; unfold same_status, status; cbn [p_run with_run]; by apply dget_dset_ne.
Qed.

Definition final_statuses : list string := ["completed"; "cancelled"; "aborted"; "failed"].
Lemma error_status x p v p' : on_run_error e b ttl x p = (Ok v, p') ->
  exists st, st ∈ ["cancelled"; "aborted"; "failed"] /\ status p' = VStr st.
Proof.
  unfold on_run_error, interrupted, run_aborted_error, run_id. intros E.
  repeat first
  [ apply close_status in E; eexists; (split; [|exact E]); set_solver
  | apply bind_Ok in E as (? & ? & _ & E)
  | case_hyp E ].
Qed.
Lemma conclude_status response p v p' : conclude e b ttl response p = (Ok v, p') ->
  exists st, st ∈ final_statuses /\ status p' = VStr st /\
    (st = "completed" -> exists out, parse_structured_output response = Ok out).
Proof.
  unfold conclude, final_statuses. intros E.
  do 3 (apply bind_Ok in E as (? & ? & _ & E)).
  case_hyp E; [apply close_status in E; eexists; (split; [|split; [exact E|done]]); set_solver|].
  apply bind_Ok in E as (? & ? & _ & E).
  case_hyp E; [apply close_status in E; eexists; (split; [|split; [exact E|done]]); set_solver|].
  apply bind_Ok in E as (out & ? & Ep & E). apply publish_status in E.
  exists "completed". split; [set_solver|]. split; [done|]. intros _. exists out.
  unfold lift in Ep. by injection Ep as -> _.
Qed.

Hypothesis others_later : forall n r, later r (others h n r).
(** What a successful body of a run has behind it. *)
Lemma body_status g request inv snap goal p v p' :
  run_body e b ttl request inv snap goal p = (Ok v, p') -> has_abort (p_abort p) = g ->
  exists st, st ∈ final_statuses /\ status p' = VStr st /\
    (st = "completed" -> length (p_calls p') = S (length (p_calls p)) /\
       exists response out, _read_stream (exchanges e (length (p_calls p))) = Ok response /\
                            parse_structured_output response = Ok out).
Proof using others_later.
  unfold run_body. intros E Hg. apply bind_Ok in E as ([messages i] & p1 & E1 & E).
  destruct (q_prepare e b ttl others_later g _ _ _ _ _ _ _ E1 Hg) as [_ A1 C1].
  apply bind_Ok in E as (response & p2 & E2 & E).
  apply (dispatch_spec e b ttl others_later g) in E2 as [(_ & A2 & _) H]; [|done].
  destruct (H _ eq_refl) as [L Hr]. pose proof E as E'.
  apply (q_conclude e b ttl others_later g) in E' as Q. destruct (Q A2) as [_ _ C2].
  apply conclude_status in E as (st & Hst & Hs & Ho). exists st. split; [done|]. split; [done|].
  intros Hc. destruct (Ho Hc) as [out Hout]. rewrite C2, L, C1 in *. split; [done|]. by exists response, out.
Qed.

(** A run that returns is over: its record has one of the four final
    statuses, and it is "completed" only if exactly one backend request was
    opened, its stream completed and the answer conforms to the output
    contract. *)
Theorem run_is_final request p run p' :
  run_once e b ttl request p = (Ok run, p') ->
  exists st, st ∈ final_statuses /\ dget "status" run = VStr st /\
    (st = "completed" -> length (p_calls p') = S (length (p_calls p)) /\
       exists response out, _read_stream (exchanges e (length (p_calls p))) = Ok response /\
                            parse_structured_output response = Ok out).
Proof using others_later.
  unfold run_once. intros E. set (g := has_abort (p_abort p)).
  apply bind_Ok in E as ([request' snap] & p1 & E1 & E).
  destruct (q_pick e b ttl others_later g _ _ _ _ _ E1 eq_refl) as [_ A1 C1].
  apply bind_Ok in E as (v & p2 & E2 & E).
  destruct (q_begin e b ttl others_later g _ _ _ _ E2 A1) as [_ A2 C2].
  apply bind_Ok in E as (r & p3 & E3 & E). injection E3 as _ <-. cbv zeta in E.
  apply bind_Ok in E as (v2 & p4 & E4 & E). injection E as <- <-. fold (status p4).
  rewrite <- C1, <- C2. unfold catch in E4.
  destruct (run_body _ _ _ _ _ _ _ p2) as [[v3|x] p5] eqn:Eb.
  - injection E4 as _ <-. by apply (body_status g) in Eb.
  - rewrite exception_catches_all in E4. apply error_status in E4 as (st & Hst & Hs).
    exists st. split; [unfold final_statuses; set_solver|]. split; [done|].
    intros ->. unfold final_statuses in *. set_solver.
Qed.
End Any.

(** ** Laws of the worker's main loop

    An iteration survives every error, gives its lease up and sleeps within
    bounds; all round trips of any number of iterations are protocol steps. *)
Section Loop.
Context {R : Type} `{RS : RedisServer R} `{V : Validator} (e : env R) (b : backend_client) (ttl poll : Z)
  (once : bool).
Abbreviation P := (proc R).
Abbreviation h := (e_host e).
Abbreviation u := (client_user b).

(** ** Sleeps and the error counter *)
Definition loop_same (p p' : P) : Prop :=
  p_sleeps p' = p_sleeps p /\ (p_errors p' = p_errors p \/ p_errors p' = 0).
#[export] Instance loop_same_preorder : PreOrder loop_same.
Proof.
  split; [intros p; split; auto|]. intros p1 p2 p3 [S1 E1] [S2 E2]. split; [congruence|].
  destruct E2 as [->| ->]; auto.
Qed.
Lemma loop_world {A} (m : eff (world R) A) : pres loop_same (on_world m).
Proof. apply b_world. intros. split; auto. Qed.
Lemma loop_run request : pres loop_same (run_with_lease_heartbeat e b ttl request).
Proof. apply b_run; try exact _; intros; split; auto. Qed.
Lemma loop_work : pres loop_same (leased_work e b ttl once).
Proof.
  assert (H : forall A (m : eff (world R) A), pres loop_same (on_world m)) by (intros; apply loop_world).
  pose proof loop_run as Hr. pose proof loop_same_preorder.
  unfold leased_work. repeat first [apply H|apply Hr|walk_syntax].
  all: try (intros p; split; auto).
Qed.

(** ** One iteration *)
Lemma on_loop_error_ok (p : P) : 0 <= p_errors p ->
  on_loop_error poll p = (Ok false, with_sleep (backoff poll (p_errors p + 1))
                                      (with_errors (p_errors p + 1) p)).
Proof. done. Qed.
Lemma release_forgets (p : P) x p' : release e b p = (x, p') ->
  x = Ok tt /\ lease_tokens (p_world p') !! u = None /\ p_sleeps p' = p_sleeps p /\ p_errors p' = p_errors p.
Proof.
  unfold release, suppress, catch, on_world.
  destruct (release_lease h u (p_world p)) as [y w] eqn:E.
  assert (T : lease_tokens w !! u = None).
  { unfold release_lease, drop_lease in E. step E token w1 E1; [|by apply token_of_inv in E1 as [_ [=]]].
    apply token_of_inv in E1 as [-> _]. step E v w2 E2.
    - assert (T2 : lease_tokens w2 !! u = None).
      { step E2 v2 w3 E3; [|done]. injection E3 as _ <-. injection E2 as _ <-. apply lookup_delete_eq. }
      case_hyp E; [by injection E as _ <-|]. apply round_trip_frame in E as (-> & _). done.
    - step E2 v2 w3 E3; [|done]. done. }
  destruct y as [[]|x0]; [intros H; injection H as <- <-; done|].
  rewrite exception_catches_all. intros H. by injection H as <- <-.
Qed.

(** A sleep of the loop: a poll, or a back-off. *)
Definition slept (p p' : P) : Prop :=
  p_sleeps p' = p_sleeps p \/
  exists s, p_sleeps p' = s :: p_sleeps p /\ poll <= s <= Z.max poll 60.
Lemma backoff_range n : 1 <= poll -> 1 <= n -> poll <= backoff poll n <= Z.max poll 60.
Proof.
  intros Hp Hn. unfold backoff. assert (1 <= 2 ^ (n - 1)) by (apply (Z.pow_le_mono_r 2 0 (n - 1)); lia). nia.
Qed.
Lemma acquire_false_keeps w x w' : acquire_lease h u ttl w = (x, w') ->
  x <> Ok true -> lease_tokens w' = lease_tokens w.
Proof.
  unfold acquire_lease. intros E Hx. step E uid w1 E1; [|by injection E1 as _ <-].
  injection E1 as _ <-. cbv zeta in E. step E r w2 E2; [|by apply round_trip_frame in E2 as (-> & _)].
  apply round_trip_frame in E2 as (Ht & _). destruct r; [injection E as _ <-; by rewrite Ht| | | |];
    by destruct Hx; injection E as <- _.
Qed.


(** ** The loop and the queue protocol *)
Hypothesis others_later : forall n r, later r (others h n r).
Definition plogs (p p' : P) : Prop := logs (obeys u) (p_world p) (p_world p').
#[export] Instance plogs_preorder : PreOrder plogs.
Proof. split; [intros p; apply logs_preorder|]. intros p1 p2 p3. apply logs_preorder. Qed.
Lemma plogs_world {A} (m : eff (world R) A) : emits (obeys u) m -> pres plogs (on_world m).
Proof.
  intros H p x p' E. unfold on_world in E. destruct (m (p_world p)) as [y w] eqn:Em.
  injection E as _ <-. by apply H in Em.
Qed.
Lemma plogs_aside {A} (m : eff (world R) A) : pres (logs (aloof u)) m -> pres plogs (on_world m).
Proof.
  intros H. apply plogs_world. intros w x w' E. destruct (H _ _ _ E) as (l & Hl & F).
  exists l. split; [done|]. eapply Forall_impl; [exact F|]. apply aloof_obeys.
Qed.
Lemma aside_acquire : pres (logs (aloof u)) (acquire_lease h u ttl).
Proof.
  unfold acquire_lease. intros w x w' E.
  assert (H : emits (aloof u) (acquire_lease h u ttl)); [|by apply H in E].
  unfold acquire_lease. apply emits_bind; [apply emits_uuid|]. intros uid. cbv zeta. apply emits_bind.
  - apply emits_redis; intros m; [by apply aloof_quiet|]. intros k Hk. apply spec_frame. cbn [writes].
    assert (k <> key u "lease") by (apply (content_key_ne u); [done|set_solver]). set_solver.
  - intros r. case_goal; try apply emits_ret;
      (apply emits_bind; [by apply emits_modify|intros _]; apply emits_bind;
         [by apply emits_modify|intros _; apply emits_ret]).
Qed.
Lemma plogs_run request : pres plogs (run_with_lease_heartbeat e b ttl request).
Proof.
  intros p x p' E. apply (d_run e b ttl others_later) in E as [[(l & Hl & O & _) _ _] _]. by exists l.
Qed.
#[local] Hint Resolve plogs_run : steps.
#[local] Hint Extern 1 (pres plogs (modify _)) => apply pres_modify; intros ?; by exists [] : steps.
#[local] Hint Extern 1 (pres plogs (on_world _)) =>
  first [ apply plogs_world; first
            [ by apply obeys_reclaim | by apply obeys_schedule | by apply obeys_dequeue
            | by apply obeys_complete | by apply obeys_read ]
        | apply plogs_aside; first
            [ by apply aside_refresh | by apply aside_release | by apply aside_acquire ] ] : steps.
Lemma plogs_length : pres plogs (on_world (queue_length h u)).
Proof.
  apply plogs_world. unfold queue_length. apply emits_bind; [by apply obeys_read|]. intros. apply emits_ret.
Qed.
#[local] Hint Resolve plogs_length : steps.
Lemma plogs_iteration : pres plogs (iteration e b ttl poll once).
Proof. unfold iteration, leased_work, release, suppress, on_loop_error, sleep. walk. Qed.
Lemma plogs_look : pres plogs (look e).
Proof. intros p x p' E. injection E as _ <-. by exists []. Qed.

End Loop.
