(* ===== verification/WorkerExamples.v ===== *)
(** * A concrete run of the worker

    One worker against the reference server: it leases, claims a queued
    request, runs it under a beating heartbeat and publishes the answer. *)
From S2P Require Import Prelude PyStr PyFloat PyVal Json JsonRoundtrip Redis PyUrl Sha Dedupe World Store.
From S2P Require Import StoreOps Trace Queue QueueLaws StoreExamples Prompt PromptLaws Backend Goals.
From S2P Require Import WorkerOps Worker WorkerLaws MainLoop.
#[local] Open Scope Z_scope.

#[local] Existing Instances ref_server ref_validator.
Definition bob : backend_client := make_client "http://backend:8000/" "/v1/chat/completions" "bob" 3600.
Definition answer_text : string := dumps (VDict
  [("summary", VStr "One finding."); ("feed_items", VList [VDict [("title", VStr "T"); ("bluf", VStr "B")]]);
   ("workspace_updates", VDict [("memory", VStr "index")])]).
Definition answer_stream : exchange := Answered (Response 200 false
  ["data: " +++ dumps (VDict [("choices", VList [VDict [("delta", VDict [("content", VStr answer_text)]);
                                                        ("finish_reason", VStr "stop")]])])] None).
Definition bob_env : env ref_redis := Env h0 (fun _ => false) (fun n => [Nat.even n]) (fun _ => answer_stream)
  (fun _ => Race false true) (fun _ => "2026-01-01 00:00:00 UTC") (fun _ => Some "2026-01-01") (VDict []).
Definition idle : proc ref_redis := Proc (fresh_world server0) 0 0 None false "" [] [] 0 [].
Definition claimed : proc ref_redis :=
  Eval vm_compute in snd (on_world (@dequeue _ json_server h0 "bob") (with_world leased idle)).
Definition ran : result dict * proc ref_redis :=
  @run_with_lease_heartbeat _ json_server ref_validator bob_env bob 60
    [("id", VStr "r1"); ("trigger", VStr "manual")] claimed.
Lemma ran_eq : @run_with_lease_heartbeat _ json_server ref_validator bob_env bob 60
    [("id", VStr "r1"); ("trigger", VStr "manual")] claimed = (fst ran, snd ran).
Proof. unfold ran. match goal with |- ?x = _ => generalize x end. by intros []. Qed.
(** The run completed, with one request behind its fence and one feed item. *)
Definition ran_summary : value * nat * nat :=
  (match fst ran with Ok r => dget "status" r | _ => VNone end, length (p_calls (snd ran)),
   match fst ran with Ok r => length (as_list (dget "feedItemIds" r)) | _ => O end).
Example ran_completed : ran_summary = (VStr "completed", 1%nat, 1%nat).
Proof. vm_compute. reflexivity. Qed.

Lemma run_dispatches_behind_fence_witness :
  exists c, p_calls (snd ran) = [c] /\ @fenced_call _ bob claimed c.
Proof.
  destruct (@run_dispatches_behind_fence _ json_server ref_validator bob_env bob 60 h0_later _ _ _ _ ran_eq)
    as [H|(c & H & F)].
  - exfalso. assert (C : length (p_calls (snd ran)) = 1%nat) by (vm_compute; reflexivity).
    rewrite H in C. vm_compute in C. discriminate C.
  - exists c. split; [|exact F]. rewrite H. reflexivity.
Defined.
Lemma run_writes_fenced_witness : exists l,
  w_log (p_world (snd ran)) = l ++ w_log (p_world claimed) /\
  Forall (guarded "bob" (lease_tokens (p_world claimed) !! "bob")) l.
Proof.
  destruct (@run_writes_fenced _ json_server ref_validator bob_env bob 60 h0_later _ _ _ _ ran_eq)
    as (_ & l & Hl & _ & G).
  exists l. split; [exact Hl|exact G].
Defined.

(** The same run by itself, for its final status. *)
Definition in_run : proc ref_redis := with_holder "" (with_flags (Some false) true claimed).
Definition once : result dict * proc ref_redis :=
  @run_once _ json_server ref_validator bob_env bob 60 [("id", VStr "r1"); ("trigger", VStr "manual")] in_run.
Definition once_run : dict := match fst once with Ok r => r | Raise _ => [] end.
Lemma once_eq : @run_once _ json_server ref_validator bob_env bob 60
    [("id", VStr "r1"); ("trigger", VStr "manual")] in_run = (Ok once_run, snd once).
Proof.
  transitivity (fst once, snd once).
  - unfold once. match goal with |- ?x = _ => generalize x end. by intros [].
  - assert (S : is_ok (fst once) = true) by (vm_compute; reflexivity). revert S.
    unfold once_run. generalize (fst once) (snd once). by intros [r|x] s.
Qed.
Lemma run_is_final_witness : exists st, st ∈ final_statuses /\ dget "status" once_run = VStr st.
Proof.
  destruct (@run_is_final _ json_server ref_validator bob_env bob 60 h0_later _ _ _ _ once_eq)
    as (st & H & S & _).
  exists st. split; [exact H|exact S].
Defined.

(** Two iterations of the loop: the first runs the request, the second idles. *)
Definition start : proc ref_redis := with_world (fresh_world server0) idle.
Definition looped : result unit * proc ref_redis :=
  @main_loop _ json_server ref_validator bob_env bob 60 10 false 2 start.
Lemma looped_eq : @main_loop _ json_server ref_validator bob_env bob 60 10 false 2 start = (fst looped, snd looped).
Proof. unfold looped. match goal with |- ?x = _ => generalize x end. by intros []. Qed.
Definition iterated : result bool * proc ref_redis :=
  @iteration _ json_server ref_validator bob_env bob 60 10 false start.
Lemma iterated_eq : @iteration _ json_server ref_validator bob_env bob 60 10 false start = (fst iterated, snd iterated).
Proof. unfold iterated. match goal with |- ?x = _ => generalize x end. by intros []. Qed.
