(* ===== verification/Identity.v ===== *)
(** * Trusted identity ([nat_helpers/internal_auth.py], [nat_helpers/identity.py])

    The gate in front of every HTTP and websocket route, and the functions by
    which tools learn who is asking.  Headers reach the tools as the snapshot
    the gate forwards: text by lower-case name. *)
From S2P Require Import Prelude PyStr PyFloat PyVal Json.
#[local] Open Scope Z_scope.

Definition is_in (s : string) (l : list string) : bool := existsb (String.eqb s) l.
(** A snapshot of request headers; [None] outside a request. *)
Abbreviation header_map := (list (string * string)).
Fixpoint hlookup (name : string) (m : header_map) : option string :=
  match m with
  | [] => None
  | (k, v) :: m => if (name =? k)%string then Some v else hlookup name m
  end.
Fixpoint hset (k v : string) (m : header_map) : header_map :=
  match m with
  | [] => [(k, v)]
  | (k', v') :: m => if (k =? k')%string then (k', v) :: m else (k', v') :: hset k v m
  end.
(** [bytes.decode("latin-1")]. *)
Fixpoint latin1 (s : string) : string :=
  match s with EmptyString => EmptyString | String c s' => enc_utf8 (byte_of c) +++ latin1 s' end.

Section Identity.
Context (getenv : string -> option string).

(** ** internal_auth.py *)
Definition _PUBLIC_HTTP_PATHS : list string := ["/health"; "/health/ready"; "/auth/redirect"].
Definition configured_internal_token : string :=
  strip (default "" (getenv "DAEDALUS_INTERNAL_API_TOKEN")).
Definition allow_insecure_internal : bool :=
  is_in (lower (strip (default "" (getenv "ALLOW_INSECURE_INTERNAL")))) ["1"; "true"; "yes"].
Definition require_internal_token (x_daedalus_internal_token : option string) : result unit :=
  let expected := configured_internal_token in
  if (expected =? "")%string then
    if allow_insecure_internal then Ok tt
    else raise (HTTPException 503) "Internal API authentication is not configured"
  else
    let provided := strip (default "" x_daedalus_internal_token) in
    if (provided =? "")%string || negb (provided =? expected)%string
    then raise (HTTPException 401) "Internal API token is required" else Ok tt.
Definition require_trusted_user (x_user_id x_daedalus_internal_token : option string) : result string :=
  _ ← require_internal_token x_daedalus_internal_token;
  let user_id := strip (default "" x_user_id) in
  if (user_id =? "")%string then raise (HTTPException 401) "Authenticated user is required"
  else Ok user_id.

Inductive scope_type := Http | Websocket | OtherScope.
Record asgi_scope := Scope { s_type : scope_type; s_path : string; raw_headers : list (string * string) }.
(** What the middleware does with a connection: the application runs with a
    snapshot of headers (or without one), or it is refused. *)
Inductive verdict :=
| Forward (headers : option header_map)
| CloseSocket (code : Z) (reason : string)
| Refuse (status : Z) (body : string).
Definition normal_path (path : string) : string :=
  let p := rstrip_chars (char_is "/") (if (path =? "")%string then "/" else path) in
  if (p =? "")%string then "/" else p.
Definition is_websocket (t : scope_type) : bool := match t with Websocket => true | _ => false end.
Definition decode_headers (raw : list (string * string)) : header_map :=
  fold_left (fun m kv => hset (lower (latin1 (fst kv))) (latin1 (snd kv)) m) raw [].
Definition protected_route (s : asgi_scope) : bool :=
  is_websocket (s_type s) || negb (is_in (normal_path (s_path s)) _PUBLIC_HTTP_PATHS).
Definition middleware (s : asgi_scope) : verdict :=
  match s_type s with
  | OtherScope => Forward None
  | t =>
      if protected_route s then
        let headers := decode_headers (raw_headers s) in
        match require_trusted_user (hlookup "x-user-id" headers)
                (hlookup "x-daedalus-internal-token" headers) with
        | Ok _ => Forward (Some headers)
        | Raise e =>
            let status := match exn_cls e with HTTPException n => n | _ => 500 end in
            if is_websocket t
            then CloseSocket (if status =? 401 then 4401 else 4503) (exn_msg e)
            else Refuse status (dumps (VDict [("detail", VStr (exn_msg e))]))
        end
      else Forward None
  end.

(** ** identity.py *)
Fixpoint find_ci (name : string) (m : header_map) : string :=
  match m with
  | [] => ""
  | (k, v) :: m => if (lower k =? name)%string then strip v else find_ci name m
  end.
Definition _header_value (headers : option header_map) (name : string) : string :=
  match headers with
  | None => ""
  | Some m => match hlookup name m with Some v => strip v | None => find_ci (lower name) m end
  end.
Definition authenticated_user_id_from_headers (headers : option header_map) : result string :=
  let expected_token := configured_internal_token in
  let provided_token := _header_value headers "x-daedalus-internal-token" in
  if (if (expected_token =? "")%string then false
      else (provided_token =? "")%string || negb (provided_token =? expected_token)%string)
  then raise ValueError "valid x-daedalus-internal-token is required"
  else if (expected_token =? "")%string && negb allow_insecure_internal
  then raise ValueError "internal API authentication is not configured"
  else
    let user_id := _header_value headers "x-user-id" in
    if (user_id =? "")%string then raise ValueError "authenticated user header x-user-id is required"
    else Ok user_id.
(** The context variable's value is an argument of what reads it. *)
Definition trusted_request_header_from_context (headers : option header_map) (name : string)
  : result string :=
  _ ← authenticated_user_id_from_headers headers; Ok (_header_value headers name).
Definition request_id_from_context_or_none (headers : option header_map) : option string :=
  match trusted_request_header_from_context headers "x-daedalus-request-id" with
  | Ok s => if (s =? "")%string then None else Some s
  | Raise _ => None
  end.
Definition execution_id_from_context_or_none (headers : option header_map) : option string :=
  if negb (lower (_header_value headers "x-daedalus-execution-scope") =? "autonomy")%string then None
  else let execution_id := _header_value headers "x-daedalus-execution-id" in
       if (execution_id =? "")%string then None else Some execution_id.
Definition authenticated_user_id_from_context_or_fallback (headers : option header_map)
    (fallback_user_id : string) : result string :=
  match headers with
  | None => Ok (strip fallback_user_id)
  | Some _ => authenticated_user_id_from_headers headers
  end.
Definition resolve_authenticated_user_id (headers : option header_map) : result string :=
  authenticated ← authenticated_user_id_from_context_or_fallback headers "";
  if (authenticated =? "")%string then raise ValueError "authenticated user identity is required"
  else Ok authenticated.
(** [autonomous_llm.is_authenticated_autonomy_request]. *)
Definition is_authenticated_autonomy_request (headers : option header_map) : bool :=
  match trusted_request_header_from_context headers "x-daedalus-execution-scope" with
  | Ok s => (lower s =? "autonomy")%string
  | Raise _ => false
  end.

(** ** Laws *)
(** A caller that may be trusted for the user [u]. *)
Definition trusted (headers : header_map) (u : string) : Prop :=
  u = strip (default "" (hlookup "x-user-id" headers)) /\ u <> "" /\
  (configured_internal_token <> "" /\
     strip (default "" (hlookup "x-daedalus-internal-token" headers)) = configured_internal_token \/
   configured_internal_token = "" /\ allow_insecure_internal = true).
Lemma trusted_iff headers u :
  require_trusted_user (hlookup "x-user-id" headers) (hlookup "x-daedalus-internal-token" headers) = Ok u <->
  trusted headers u.
Proof.
  unfold require_trusted_user, require_internal_token, trusted. cbv zeta.
  destruct (String.eqb_spec configured_internal_token "") as [Ec|Ec].
  - destruct allow_insecure_internal; [|split; [done|naive_solver]]. cbn [mbind result_bind].
    destruct (String.eqb_spec (strip (default "" (hlookup "x-user-id" headers))) ""); naive_solver.
  - set (t := strip (default "" (hlookup "x-daedalus-internal-token" headers))).
    destruct (String.eqb_spec t "") as [Et|Et]; cbn [orb mbind result_bind].
    { split; [done|]. intros (_ & _ & [[_ H]|[H _]]); congruence. }
    destruct (String.eqb_spec t configured_internal_token) as [E|E]; cbn [negb mbind result_bind].
    + destruct (String.eqb_spec (strip (default "" (hlookup "x-user-id" headers))) ""); naive_solver.
    + split; [done|]. intros (_ & _ & [[_ H]|[H _]]); congruence.
Qed.
Lemma header_present m name : default "" (hlookup name m) <> "" ->
  _header_value (Some m) name = strip (default "" (hlookup name m)).
Proof. unfold _header_value. by destruct (hlookup name m). Qed.
Lemma strip_nonempty s : strip s <> "" -> s <> "".
Proof. by intros H ->. Qed.
Lemma trusted_tools headers u : trusted headers u ->
  authenticated_user_id_from_headers (Some headers) = Ok u.
Proof.
  intros (Hu & Hne & Ht). unfold authenticated_user_id_from_headers. cbv zeta.
  assert (U : _header_value (Some headers) "x-user-id" = u).
  { rewrite Hu. apply header_present, strip_nonempty. by rewrite <- Hu. }
  rewrite U. apply String.eqb_neq in Hne. rewrite Hne. destruct Ht as [[Hc Ht]|[Hc ->]].
  - assert (T : _header_value (Some headers) "x-daedalus-internal-token" = configured_internal_token).
    { rewrite <- Ht. apply header_present, strip_nonempty. congruence. }
    rewrite T. apply String.eqb_neq in Hc. rewrite Hc, String.eqb_refl. done.
  - by rewrite Hc.
Qed.
Lemma is_in_spec s l : is_in s l = true <-> s ∈ l.
Proof.
  unfold is_in. rewrite existsb_exists. setoid_rewrite String.eqb_eq. setoid_rewrite <- list_elem_of_In.
  naive_solver.
Qed.

(** C32: The gate fails closed and the tools agree with it: a connection reaches
    the application either on one of the three public paths (or outside HTTP),
    or with the internal token of the deployment -- or with no token configured
    and the explicit opt-out -- and a user id, and then the tools resolve
    exactly that user from the forwarded headers; everything refused lacked
    the token or the user. *)
Theorem gate_fails_closed s :
  match middleware s with
  | Forward (Some headers) =>
      exists u, trusted headers u /\ authenticated_user_id_from_headers (Some headers) = Ok u
  | Forward None =>
      s_type s = OtherScope \/ s_type s = Http /\ normal_path (s_path s) ∈ _PUBLIC_HTTP_PATHS
  | CloseSocket _ _ | Refuse _ _ => forall u, ~ trusted (decode_headers (raw_headers s)) u
  end.
Proof.
  unfold middleware. destruct s as [[| |] path raw]; cbn [s_type s_path raw_headers]; [| |by left];
    unfold protected_route; cbn [s_type s_path is_websocket orb].
  - destruct (is_in (normal_path path) _PUBLIC_HTTP_PATHS) eqn:E; cbn [negb];
      [right; split; [done|]; by apply is_in_spec|].
    destruct (require_trusted_user _ _) as [u|ex] eqn:Er.
    + apply trusted_iff in Er. exists u. split; [done|]. by apply trusted_tools.
    + intros u Hu. apply trusted_iff in Hu. congruence.
  - destruct (require_trusted_user _ _) as [u|ex] eqn:Er.
    + apply trusted_iff in Er. exists u. split; [done|]. by apply trusted_tools.
    + intros u Hu. apply trusted_iff in Hu. congruence.
Qed.
End Identity.
Example gate_ex :
  let getenv := fun n => if (n =? "DAEDALUS_INTERNAL_API_TOKEN")%string then Some " s3cret " else None in
  let hs := [("X-User-Id", "bob"); ("X-Daedalus-Internal-Token", "s3cret")] in
  (middleware getenv (Scope Http "/v1/chat/" hs), middleware getenv (Scope Websocket "/ws" []),
   middleware getenv (Scope Http "/health/" [])) =
  (Forward (Some [("x-user-id", "bob"); ("x-daedalus-internal-token", "s3cret")]),
   CloseSocket 4401 "Internal API token is required", Forward None).
Proof. vm_compute. reflexivity. Qed.
