(* ===== verification/Tokens.v ===== *)
(** * Approval credentials ([user_interaction/approval_tokens.py])

    Credentials for consequential actions live in Redis under a key of the
    user and a random token; a pending approval is a separate, non-executable
    record.  The client of the reading side has GETDEL. *)
From S2P Require Import Prelude PyStr PyFloat PyVal Json JsonRoundtrip Redis PyUrl Sha World Trace.
#[local] Open Scope Z_scope.

Definition DEFAULT_APPROVAL_TTL_SECONDS : Z := 300.
Definition DEFAULT_PENDING_APPROVAL_TTL_SECONDS : Z := 7 * 24 * 60 * 60.

Record ApprovalRequest := Request {
  user_id : string; action_type : string; target : string; server_name : string;
  tool_name : string; arguments_sha256 : string; canonical_arguments : string }.

(** [_norm]: of text; of a decoded value, whose [strip] may be missing. *)
Definition _norm (value fallback : string) : string :=
  let s := strip (if (value =? "")%string then fallback else value) in
  if (s =? "")%string then fallback else s.
Definition norm_value (v : value) : result string :=
  match vor v (VStr "") with
  | VStr s => Ok (_norm s "")
  | _ => raise AttributeError "object has no attribute 'strip'"
  end.
Definition safe_user (user_id : string) : string := utake 16 (sha256_hex (_norm user_id "anonymous")).
Definition approval_token_key (user_id token : string) : string :=
  "approval:" +++ safe_user user_id +++ ":" +++ token.
Definition pending_approval_key (user_id request_id : string) : string :=
  "approval-pending:" +++ safe_user user_id +++ ":" +++ _norm request_id "".

(** [hashlib.sha256(s.encode("utf-8")).hexdigest()]: a lone surrogate has no encoding. *)
Definition utf8_sha256 (s : string) : result string :=
  if utf8_ok s then Ok (sha256_hex s)
  else raise ValueError "'utf-8' codec can't encode character: surrogates not allowed".
(** Canonical JSON of an argument object and its hash. *)
Definition canonical_json (d : dict) : string := dumps_with canonical_opts (VDict d).
Definition NOT_OBJECT : string := "arguments_json must be a JSON object".
Definition canonicalize_mcp_arguments (arguments_json : string) : result (string * string) :=
  match loads arguments_json with
  | Ok (VDict arguments) =>
      let canonical := canonical_json (ddel "approval_token" arguments) in
      hash ← utf8_sha256 canonical;
      Ok (canonical, hash)
  | _ => raise ValueError NOT_OBJECT
  end.

(** ** Where Redis is *)
Section Url.
Context (getenv : string -> option string).
Definition norm_env (name fallback : string) : string := _norm (default "" (getenv name)) fallback.
(** [urlunsplit] of a split URL that has a network location. *)
Definition unsplit (scheme netloc path query fragment : string) : string :=
  scheme +++ ":" +++ "//" +++ netloc +++
  (if (path =? "")%string || startswith path "/" then path else "/" +++ path) +++
  (if (query =? "")%string then "" else "?" +++ query) +++
  (if (fragment =? "")%string then "" else "#" +++ fragment).
Definition build_redis_url (redis_url : string) : result string :=
  let explicit := _norm redis_url "" in
  if negb (explicit =? "")%string then Ok explicit else
  let env_url := norm_env "REDIS_URL" "" in
  if negb (env_url =? "")%string then
    let p := norm_env "REDIS_PORT" "" in
    parsed ← urlsplit env_url;
    if (p =? "")%string || (u_scheme parsed =? "")%string || bool_decide (hostname parsed = None)
    then Ok env_url
    else
      existing ← port parsed;
      match existing with
      | None => Ok (unsplit (u_scheme parsed) (u_netloc parsed +++ ":" +++ p) (u_path parsed)
                      (u_query parsed) (u_fragment parsed))
      | Some _ => Ok env_url
      end
  else
    let host := norm_env "REDIS_HOST" "localhost" in
    let p := norm_env "REDIS_PORT" "6379" in
    let tls := existsb (String.eqb (lower (norm_env "REDIS_TLS_ENABLED" ""))) ["1"; "true"; "yes"; "on"] in
    let credentials :=
      match getenv "REDIS_PASSWORD" with
      | Some raw =>
          if (raw =? "")%string then ""
          else quote_with (fun _ => false) (norm_env "REDIS_USERNAME" "default") +++ ":" +++
               quote_with (fun _ => false) raw +++ "@"
      | None => ""
      end in
    let authority := if contains host ":" && negb (startswith host "[") then "[" +++ host +++ "]" else host in
    let url := (if tls then "rediss" else "redis") +++ "://" +++ credentials +++ authority +++ ":" +++ p in
    let ca_file := norm_env "REDIS_TLS_CA_FILE" "" in
    Ok (if tls && negb (ca_file =? "")%string
        then url +++ "?" +++ urlencode [("ssl_ca_certs", ca_file)] else url).
End Url.

(** ** Deciding a presented credential *)
Definition MUTATION : string := "mcp_mutation".
Record presented := Presented {
  p_user : string; p_action : string; p_target : string; p_server : string; p_tool : string;
  p_hash : string }.
Definition MISSING : string := "approval_token is missing, expired, or already used".
(** The hash of what was approved, after a schema's defaults if there is one. *)
Definition approved_hash (q : presented) (normalize : option (string -> result string)) (payload : dict)
  : result (string + string) :=
  stored ← norm_value (dget "arguments_sha256" payload);
  match normalize with
  | Some f =>
      if negb (p_action q =? MUTATION)%string then Ok (inl stored) else
      match dget "canonical_arguments" payload with
      | VStr s => if (s =? "")%string then Ok (inr "approval_token canonical arguments are missing")
                  else match f s with
                       | Ok hash => Ok (inl (_norm hash ""))
                       | Raise _ => Ok (inr "approval_token canonical arguments are invalid")
                       end
      | _ => Ok (inr "approval_token canonical arguments are missing")
      end
  | None => Ok (inl stored)
  end.
Definition compare_request (q : presented) (actual : ApprovalRequest) : bool * string :=
  let differs a b := negb (a =? b)%string in
  if differs (user_id actual) (_norm (p_user q) "") then (false, "approval_token user mismatch")
  else if differs (action_type actual) (_norm (p_action q) "") then (false, "approval_token action mismatch")
  else if differs (_norm (p_action q) "") MUTATION &&
          ((_norm (p_target q) "" =? "")%string || differs (target actual) (_norm (p_target q) ""))
  then (false, "approval_token target mismatch")
  else if differs (server_name actual) (_norm (p_server q) "") then (false, "approval_token server mismatch")
  else if differs (tool_name actual) (_norm (p_tool q) "") then (false, "approval_token tool mismatch")
  else if differs (arguments_sha256 actual) (_norm (p_hash q) "")
  then (false, "approval_token arguments mismatch")
  else (true, "approved").
Definition judge (q : presented) (normalize : option (string -> result string)) (raw : string)
  : result (bool * string) :=
  match loads raw with
  | Raise _ => Ok (false, "approval_token payload is invalid")
  | Ok (VDict payload) =>
      h ← approved_hash q normalize payload;
      match h with
      | inr reason => Ok (false, reason)
      | inl hash =>
          u ← norm_value (dget "user_id" payload);
          a ← norm_value (dget "action_type" payload);
          t ← norm_value (dget "target" payload);
          s ← norm_value (dget "server_name" payload);
          o ← norm_value (dget "tool_name" payload);
          Ok (compare_request q (Request u a t s o hash ""))
      end
  | Ok _ => raise AttributeError "object has no attribute 'get'"
  end.

Section Redis.
Context {R : Type} `{RS : RedisServer R} (h : host R).
(** [secrets.token_urlsafe] by the number of the draw. *)
Context (token_urlsafe : nat -> string).
Abbreviation W := (world R).
Definition fresh_token : eff W string := fun w =>
  (Ok (token_urlsafe (uuids w)), snd (uuid4 h w)).
(** [int(time.time())]. *)
Definition unix_time : eff W Z := t ← now_ms h; mret (t / 1000).

Definition validate_approval_token (q : presented) (token : string)
    (normalize : option (string -> result string)) (consume : bool) : eff W (bool * string) :=
  if (token =? "")%string then mret (false, "approval_token is required") else
  let k := approval_token_key (p_user q) token in
  x ← redis h (if consume then GETDEL k else GET k);
  match x with
  | RText raw => if (raw =? "")%string then mret (false, MISSING) else lift (judge q normalize raw)
  | _ => mret (false, MISSING)
  end.

Definition token_payload (request : ApprovalRequest) (created_at : Z) : dict :=
  [("user_id", VStr (_norm (user_id request) "")); ("action_type", VStr (_norm (action_type request) ""));
   ("target", VStr (_norm (target request) "")); ("server_name", VStr (_norm (server_name request) ""));
   ("tool_name", VStr (_norm (tool_name request) ""));
   ("arguments_sha256", VStr (_norm (arguments_sha256 request) ""));
   ("canonical_arguments", VStr (_norm (canonical_arguments request) ""));
   ("created_at", VInt created_at)].
(** The checks before a credential may be issued. *)
Definition check_issue (request : ApprovalRequest) : result unit :=
  let blank s := (_norm s "" =? "")%string in
  if blank (user_id request) || blank (action_type request)
  then raise ValueError "approval credentials require an exact user and action"
  else if blank (target request) || (_norm (target request) "" =? "*")%string
  then raise ValueError "approval credentials cannot use a wildcard target"
  else if (_norm (action_type request) "" =? MUTATION)%string then
    if blank (server_name request) || blank (tool_name request) || blank (arguments_sha256 request) ||
       blank (canonical_arguments request)
    then raise ValueError "MCP approval credentials require an exact server, tool, canonical arguments, and argument hash"
    else
      '(_, hash) ← canonicalize_mcp_arguments (_norm (canonical_arguments request) "");
      if (hash =? _norm (arguments_sha256 request) "")%string then Ok tt
      else raise ValueError "MCP approval canonical arguments do not match hash"
  else Ok tt.
Definition issue_approval_token (request : ApprovalRequest) (ttl_seconds : Z) : eff W string :=
  _ ← lift (check_issue request);
  token ← fresh_token;
  created_at ← unix_time;
  _ ← redis h (SETEX (approval_token_key (_norm (user_id request) "") token) (Z.max 1 ttl_seconds)
                 (dumps (VDict (token_payload request created_at))));
  mret token.

Definition create_pending_mcp_approval (user action reason tgt server tool arguments_json : string)
    (ttl_seconds : Z) : eff W dict :=
  let n s := _norm s "" in
  let blank s := (n s =? "")%string in
  if blank user then throw ValueError "pending MCP approval requires an authenticated user"
  else if blank action || blank reason
  then throw ValueError "pending MCP approval requires an exact action and reason"
  else if blank tgt || (n tgt =? "*")%string
  then throw ValueError "pending MCP approval requires an exact target"
  else if blank server || blank tool
  then throw ValueError "pending MCP approval requires an exact server and tool"
  else
    '(canonical, hash) ← lift (canonicalize_mcp_arguments arguments_json);
    request_id ← fresh_token;
    created_at ← unix_time;
    let payload :=
      [("request_id", VStr request_id); ("user_id", VStr (n user)); ("action_type", VStr MUTATION);
       ("action", VStr (n action)); ("reason", VStr (n reason)); ("target", VStr (n tgt));
       ("server_name", VStr (n server)); ("tool_name", VStr (n tool));
       ("canonical_arguments", VStr canonical); ("arguments_sha256", VStr hash);
       ("created_at", VInt created_at)] in
    _ ← redis h (SETEX (pending_approval_key (n user) request_id) (Z.max 1 ttl_seconds)
                   (dumps (VDict payload)));
    mret payload.
End Redis.

(** ** Laws of approval credentials

    What an accepted credential proves, that it is spent at most once however
    the attempts interleave, and that issued credentials are accepted for
    exactly the call they were issued for. *)
Lemma norm_strip s : _norm s "" = strip s.
Proof.
  unfold _norm. destruct (String.eqb_spec s "") as [->|_]; [done|].
  destruct (String.eqb_spec (strip s) "") as [->|_]; done.
Qed.
Lemma norm_value_str s : norm_value (VStr s) = Ok (strip s).
Proof.
  unfold norm_value, vor. cbn [truthy]. destruct (String.eqb_spec s "") as [->|_]; [done|].
  cbn [negb]. by rewrite norm_strip.
Qed.

(** ** What the comparison accepts *)
Definition matches (q : presented) (r : ApprovalRequest) : Prop :=
  user_id r = strip (p_user q) /\ action_type r = strip (p_action q) /\
  (strip (p_action q) <> MUTATION -> strip (p_target q) <> "" /\ target r = strip (p_target q)) /\
  server_name r = strip (p_server q) /\ tool_name r = strip (p_tool q) /\
  arguments_sha256 r = strip (p_hash q).
Lemma compare_true q r : fst (compare_request q r) = true <-> matches q r.
Proof.
  unfold compare_request, matches. cbv zeta. rewrite !norm_strip.
  destruct (String.eqb_spec (user_id r) (strip (p_user q))); cbn [negb]; [|naive_solver].
  destruct (String.eqb_spec (action_type r) (strip (p_action q))); cbn [negb]; [|naive_solver].
  destruct (String.eqb_spec (server_name r) (strip (p_server q))) as [Es|Es];
  destruct (String.eqb_spec (tool_name r) (strip (p_tool q))) as [Et|Et];
  destruct (String.eqb_spec (arguments_sha256 r) (strip (p_hash q))) as [Eh|Eh];
  destruct (String.eqb_spec (strip (p_action q)) MUTATION) as [Em|Em]; cbn [negb andb];
  try destruct (String.eqb_spec (strip (p_target q)) "") as [E0|E0]; cbn [orb];
  try destruct (String.eqb_spec (target r) (strip (p_target q))) as [E1|E1]; cbn [negb]; naive_solver.
Qed.

(** The stored record and the hash that stands for its arguments. *)
Definition proves (q : presented) (normalize : option (string -> result string)) (raw : string) : Prop :=
  exists payload u a t s o hash,
    loads raw = Ok (VDict payload) /\
    norm_value (dget "user_id" payload) = Ok u /\ norm_value (dget "action_type" payload) = Ok a /\
    norm_value (dget "target" payload) = Ok t /\ norm_value (dget "server_name" payload) = Ok s /\
    norm_value (dget "tool_name" payload) = Ok o /\ matches q (Request u a t s o hash "") /\
    match normalize with
    | Some f => if (p_action q =? MUTATION)%string
                then exists c, dget "canonical_arguments" payload = VStr c /\ exists x, f c = Ok x /\ hash = strip x
                else norm_value (dget "arguments_sha256" payload) = Ok hash
    | None => norm_value (dget "arguments_sha256" payload) = Ok hash
    end.
Lemma judge_true q f raw msg : judge q f raw = Ok (true, msg) -> proves q f raw.
Proof.
  unfold judge. destruct (loads raw) as [[| | | | | |payload]|] eqn:El; try done. intros E.
  apply bind_ok in E as (hs & Eh & E). destruct hs as [hash|]; [|done].
  apply bind_ok in E as (u & Eu & E). apply bind_ok in E as (a & Ea & E).
  apply bind_ok in E as (t & Et & E). apply bind_ok in E as (s & Es & E).
  apply bind_ok in E as (o & Eo & E). injection E as E.
  exists payload, u, a, t, s, o, hash. repeat (split; [done|]). split.
  { apply compare_true. by rewrite E. }
  unfold approved_hash in Eh. apply bind_ok in Eh as (stored & Est & Eh).
  destruct f as [f|]; [|by injection Eh as <-].
  destruct (p_action q =? MUTATION)%string; cbn [negb] in Eh; [|by injection Eh as <-].
  destruct (dget "canonical_arguments" payload) as [| | | |c| |]; try done.
  destruct (c =? "")%string; [done|]. destruct (f c) as [x|] eqn:Ef; [|done].
  injection Eh as <-. exists c. split; [done|]. exists x. by rewrite norm_strip.
Qed.

Section Redis.
Context {R : Type} `{RS : RedisServer R} (h : host R).
Abbreviation W := (world R).
Hypothesis others_later : forall n r, later r (others h n r).
Abbreviation sem := (spec json_render json_module).

Lemma getdel_spec k m : fst (sem (GETDEL k) m) = match kstr k m with Ok o => Ok (of_opt o) | Raise e => Raise e end /\
  snd (sem (GETDEL k) m) = match kstr k m with Ok (Some _) => delete k m | _ => m end.
Proof. cbn [spec]. by destruct (kstr k m) as [[]|]. Qed.

(** An accepted credential authorises exactly this call, and is gone: when
    [validate_approval_token] approves while consuming, its only round trip
    atomically took the record from the key of this user and token, and that
    record names the presented user, action, server and tool, the target too
    unless the action is an MCP mutation, and its arguments -- normalised by
    the tool's schema where there is one -- hash to the presented hash. *)
Lemma approval_is_exact_and_spent q token f w msg w' :
  validate_approval_token h q token f true w = (Ok (true, msg), w') ->
  exists t raw, w_log w' = t :: w_log w /\ t_kind t = TCmd (GETDEL (approval_token_key (p_user q) token)) /\
    kval (approval_token_key (p_user q) token) (t_before t) = Some (RStr raw) /\
    t_after t = delete (approval_token_key (p_user q) token) (t_before t) /\ proves q f raw.
Proof.
  unfold validate_approval_token. destruct (token =? "")%string; [done|]. cbv zeta. set (k := approval_token_key _ _).
  intros E. step E x w1 E1; [|done].
  apply (redis_inv h others_later) in E1 as (r0 & _ & _ & _ & Hl & H).
  destruct H as [[Hx Hk]|[Hx _]]; [|done].
  destruct (getdel_spec k (keyspace r0)) as [F S]. rewrite F in Hx. rewrite S in Hk.
  unfold kstr in *. destruct (kval k (keyspace r0)) as [[raw| | |]|] eqn:Ek; cbn in Hx; try done;
    injection Hx as ->; [|done].
  destruct (raw =? "")%string; [done|].
  assert (w1 = w') as <- by (unfold lift in E; by injection E).
  eexists _, raw. split; [exact Hl|]. split; [done|]. cbn [t_before t_after]. split; [done|]. split; [by rewrite Hk|].
  apply (judge_true q f raw msg). unfold lift in E. by injection E.
Qed.

(** ** Attempts on one credential *)
Record attempt := Attempt { at_world : W; at_host : host R; at_request : presented;
                            at_hash : option (string -> result string) }.
Definition at_server (a : attempt) (r : R) : W := set_srv r (at_world a).
Definition approved (x : result (bool * string)) : bool := match x with Ok (b, _) => b | Raise _ => false end.
(** Attempts with one token, by any processes, one round trip after the other. *)
Fixpoint present (token : string) (as_ : list attempt) (r : R) : list bool :=
  match as_ with
  | [] => []
  | a :: rest =>
      let '(x, w) := validate_approval_token (at_host a) (at_request a) token (at_hash a) true (at_server a r) in
      approved x :: present token rest (srv w)
  end.
(** Nobody stores the credential again. *)
Definition no_reissue (k : string) (hh : host R) : Prop :=
  forall n r, keyspace r !! k = None -> keyspace (others hh n r) !! k = None.

Lemma validate_gone hh q token f w x w' :
  no_reissue (approval_token_key (p_user q) token) hh ->
  validate_approval_token hh q token f true w = (x, w') ->
  (keyspace (srv w) !! approval_token_key (p_user q) token = None -> approved x = false) /\
  (keyspace (srv w) !! approval_token_key (p_user q) token = None \/ approved x = true ->
   keyspace (srv w') !! approval_token_key (p_user q) token = None).
Proof.
  intros Hno. unfold validate_approval_token. destruct (String.eqb_spec token "") as [->|Ht].
  { intros E. injection E as <- <-. split; [done|]. intros [?|?]; [done|discriminate]. }
  cbv zeta. set (k := approval_token_key (p_user q) token) in *. intros E.
  unfold redis, round_trip, mbind, eff_bind in E. specialize (Hno (trips w) (srv w)).
  set (r0 := others hh (trips w) (srv w)) in *.
  destruct (getdel_spec k (keyspace r0)) as [F S].
  pose proof (run_reply (GETDEL k) r0) as Rr. pose proof (run_keys (GETDEL k) r0) as Rk.
  rewrite F in Rr. rewrite S in Rk. unfold call in E.
  assert (G : keyspace (srv w) !! k = None -> kstr k (keyspace r0) = Ok None).
  { intros Hn. unfold kstr, kval. by rewrite (Hno Hn). }
  assert (D : keyspace (srv w) !! k = None \/ (exists s, kstr k (keyspace r0) = Ok (Some s)) ->
              keyspace (snd (run (GETDEL k) r0)) !! k = None).
  { intros [Hn|[s Hs]]; rewrite Rk; [rewrite (G Hn); by apply Hno|rewrite Hs; apply lookup_delete_eq]. }
  destruct (link hh (trips w)).
  - destruct (run (GETDEL k) r0) as [y r1]. cbn [fst snd] in *.
    destruct (kstr k (keyspace r0)) as [[s|]|ex] eqn:Eks; subst y; cbn in E.
    + split; [intros Hn; by specialize (G Hn)|]. intros _.
      destruct (s =? "")%string; injection E as _ <-; cbn [srv]; eauto.
    + injection E as <- <-. split; [done|]. intros [Hn|[=]]. apply D. by left.
    + injection E as <- <-. split; [done|]. intros [Hn|[=]]. apply D. by left.
  - injection E as <- <-. split; [done|]. intros [Hn|[=]]. by apply Hno.
  - injection E as <- <-. split; [done|]. intros [Hn|[=]]. apply D. by left.
Qed.
Lemma present_gone token u as_ : forall r,
  (forall a, a ∈ as_ -> p_user (at_request a) = u /\ no_reissue (approval_token_key u token) (at_host a)) ->
  keyspace r !! approval_token_key u token = None ->
  forall b, b ∈ present token as_ r -> b = false.
Proof.
  induction as_ as [|a rest IH]; intros r Ha Hn b Hb; cbn [present] in Hb; [set_solver|].
  destruct (Ha a) as [<- Hno]; [set_solver|].
  destruct (validate_approval_token _ _ _ _ _ _) as [x w] eqn:E.
  apply validate_gone in E as [G1 G2]; [|done]. cbn [at_server set_srv srv] in *.
  apply elem_of_cons in Hb as [->|Hb]; [by apply G1|].
  eapply (IH (srv w)); [|by apply G2; left|exact Hb]. intros a' Ha'. apply Ha. set_solver.
Qed.

(** C3: One approval executes at most once: of any number of attempts to spend
    one user's credential, by any processes and for any calls, in whatever
    order their round trips reach Redis and whichever replies are lost, at
    most one is approved -- as long as nobody stores that credential again. *)
Theorem credential_spent_once token u as_ r :
  (forall a, a ∈ as_ -> p_user (at_request a) = u /\ no_reissue (approval_token_key u token) (at_host a)) ->
  (length (List.filter (fun b => b) (present token as_ r)) <= 1)%nat.
Proof.
  revert r. induction as_ as [|a rest IH]; intros r Ha; cbn [present List.filter length]; [lia|].
  destruct (Ha a) as [Hu Hno]; [set_solver|].
  destruct (validate_approval_token _ _ _ _ _ _) as [x w] eqn:E. rewrite <- Hu in Hno.
  apply validate_gone in E as [_ G]; [|done].
  destruct (approved x) eqn:Ex; cbn [List.filter].
  - assert (N : forall b, b ∈ present token rest (srv w) -> b = false).
    { apply (present_gone token u); [intros; apply Ha; set_solver|]. rewrite <- Hu. apply G. by right. }
    assert (Z : List.filter (fun b => b) (present token rest (srv w)) = []).
    { induction (present token rest (srv w)) as [|b l IHl]; [done|]. cbn [List.filter].
      rewrite (N b) by set_solver. apply IHl. set_solver. }
    rewrite Z. cbn. lia.
  - apply IH. intros; apply Ha; set_solver.
Qed.
End Redis.

(** ** Issuing *)
(** The call a credential is issued for. *)
Definition call_of (r : ApprovalRequest) : presented :=
  Presented (user_id r) (action_type r) (target r) (server_name r) (tool_name r) (arguments_sha256 r).
Definition texts_ok (r : ApprovalRequest) : bool :=
  forallb (fun s => utf8_ok (strip s))
    [user_id r; action_type r; target r; server_name r; tool_name r; arguments_sha256 r; canonical_arguments r].

(** Issue and validate are inverse: the record of an issued credential is
    accepted for the call it was issued for, and for a presented call exactly
    if user, action, server, tool and argument hash agree after trimming, and
    the target does where the action is not an MCP mutation. *)
Theorem issued_accepts_exactly r ts q :
  texts_ok r = true ->
  exists b msg, judge q None (dumps (VDict (token_payload r ts))) = Ok (b, msg) /\
    (b = true <->
     strip (user_id r) = strip (p_user q) /\ strip (action_type r) = strip (p_action q) /\
     (strip (p_action q) <> MUTATION -> strip (p_target q) <> "" /\ strip (target r) = strip (p_target q)) /\
     strip (server_name r) = strip (p_server q) /\ strip (tool_name r) = strip (p_tool q) /\
     strip (arguments_sha256 r) = strip (p_hash q)).
Proof.
  intros Ht. unfold judge. rewrite loads_dumps.
  - unfold approved_hash, token_payload. rewrite !norm_strip.
    assert (N : forall s, norm_value (VStr (strip s)) = Ok (strip s)).
    { intros s. by rewrite norm_value_str, strip_idem. }
    cbn [dget dlookup String.eqb Ascii.eqb Bool.eqb]. rewrite !N. cbn [mbind result_bind].
    set (cr := compare_request _ _). exists (fst cr), (snd cr). split; [by destruct cr|].
    subst cr. rewrite compare_true. unfold matches. cbn. done.
  - unfold texts_ok in Ht. cbn [forallb] in Ht. bool_prop. unfold token_payload. rewrite !norm_strip.
    cbn [json_ok forallb fst snd]. apply andb_true_iff. split; [vm_compute; reflexivity|].
    unfold text_ok. cbn [ensure_ascii default_opts negb orb].
    repeat match goal with H : utf8_ok _ = true |- _ => rewrite H; clear H end. vm_compute. reflexivity.
Qed.
