(* ===== verification/Policy.v ===== *)
(** * MCP approval policy ([daedalus_runtime/approval.py])

    Which remote tool calls an operator has authorised: the policy file with
    its inheritance, the per-group exposure and defaults, and the local
    detection of mutating calls.  Reading YAML and resolving paths are
    parameters; a mapping is a dictionary with text keys. *)
From S2P Require Import Prelude PyStr PyFloat PyVal Exploration Identity.
#[local] Open Scope Z_scope.

Definition READ_ONLY : string := "read_only".
Definition APPROVAL_REQUIRED : string := "approval_required".
Definition AUTO_APPROVE : string := "auto_approve".
Definition SUPPORTED : list string := [READ_ONLY; APPROVAL_REQUIRED; AUTO_APPROVE].
Definition _MUTATING_TOOL_FRAGMENTS : list string :=
  ["apply"; "create"; "delete"; "deletecollection"; "patch"; "replace"; "rollback"; "rollout"; "scale";
   "autoscale"; "uninstall"; "update"; "upgrade"; "cordon"; "drain"; "evict"; "taint"; "terminate";
   "destroy"; "revoke"; "restart"; "annotate"; "remove"; "disable"].
Definition _MUTATING_TOOL_TOKENS : list string :=
  ["exec"; "set"; "put"; "post"; "cp"; "edit"; "kill"; "drop"; "debug"; "expose"; "attach"; "label";
   "write"; "send"; "move"; "rename"].

(** ** Mutation detection *)
Definition _annotation_hint (annotations : option dict) (name : string) : option bool :=
  match annotations with
  | Some d => match dget name d with VBool b => Some b | _ => None end
  | None => None
  end.
Definition call_text (tool_name : string) (payload : dict) : string :=
  lower (join " " (tool_name ::
    flat_map (fun k => match dget k payload with VStr s => [s] | _ => [] end)
      ["operation"; "command"; "action"; "method"; "verb"])).
Definition _is_mutating_mcp_call (tool_name : string) (payload : dict) (annotations : option dict) : bool :=
  bool_decide (_annotation_hint annotations "destructiveHint" = Some true) ||
  let text := call_text tool_name payload in
  existsb (contains text) _MUTATING_TOOL_FRAGMENTS ||
  existsb (fun t => is_in t _MUTATING_TOOL_TOKENS) (runs is_alnum_lower text).

(** ** Group policies *)
Record group_policy := GroupPolicy {
  included : list string; excluded : list string; gdefault : string; overrides : list (string * string) }.
Definition exposed (g : group_policy) (tool_name : string) : bool :=
  match included g with
  | [] => negb (is_in tool_name (excluded g))
  | inc => is_in tool_name inc
  end.
Definition for_tool (g : group_policy) (tool_name : string) : string :=
  if exposed g tool_name then default (gdefault g) (hlookup tool_name (overrides g)) else APPROVAL_REQUIRED.

Definition fold_name (s : string) : string := casefold (strip s).
Definition err {A} : result A := raise RuntimeError "invalid MCP approval policy".
Definition tool_names (k : string) (config : dict) : result (list string) :=
  match dget_or k (VList []) config with
  | VList raw =>
      if forallb (fun v => match v with VStr s => negb (is_blank s) | _ => false end) raw
      then Ok (map (fun v => match v with VStr s => fold_name s | _ => "" end) raw) else err
  | _ => err
  end.
(** One declared override; [None] when it sets no policy. *)
Definition override_policy (inc exc : list string) (tool : string) (override : value)
  : result (option (string * string)) :=
  match override with
  | VDict o =>
      match dget "approval_policy" o with
      | VNone => Ok None
      | raw_policy =>
          let policy := fold_name (py_str raw_policy) in
          if negb (is_in policy SUPPORTED) then err else
          let tool_name := fold_name tool in
          match inc with
          | _ :: _ => if negb (is_in tool_name inc) then err else Ok tt
          | [] => if is_in tool_name exc then err else Ok tt
          end ≫= fun _ : unit =>
          if (policy =? READ_ONLY)%string && _is_mutating_mcp_call tool [] None then err
          else Ok (Some (tool_name, policy))
      end
  | _ => Ok None
  end.
Fixpoint parse_overrides (inc exc : list string) (raw : dict) (acc : list (string * string))
  : result (list (string * string)) :=
  match raw with
  | [] => Ok acc
  | (tool, o) :: raw =>
      p ← override_policy inc exc tool o;
      parse_overrides inc exc raw (match p with Some (t, pol) => hset t pol acc | None => acc end)
  end.
Definition _parse_mcp_group_approval_policy (config : dict) : result group_policy :=
  inc ← tool_names "include" config;
  exc ← tool_names "exclude" config;
  let gdefault := fold_name (py_str (dget_or "approval_policy" (VStr APPROVAL_REQUIRED) config)) in
  if negb (is_in gdefault [APPROVAL_REQUIRED; AUTO_APPROVE]) then err else
  match vor (dget_or "tool_overrides" (VDict []) config) (VDict []) with
  | VDict raw => ov ← parse_overrides inc exc raw []; Ok (GroupPolicy inc exc gdefault ov)
  | _ => err
  end.

(** ** The policy file and its bases *)
(** Child over base; mappings on both sides are merged key by key. *)
Fixpoint deep_merge (base : value) (child : value) {struct child} : value :=
  match child with
  | VDict c =>
      match base with
      | VDict b =>
          VDict ((fix go (c : dict) (acc : dict) {struct c} : dict :=
            match c with
            | [] => acc
            | (k, v) :: c =>
                go c (dset k (match dlookup k b, v with
                              | Some (VDict b'), VDict _ => deep_merge (VDict b') v
                              | _, _ => v
                              end) acc)
            end) c b)
      | _ => child
      end
  | _ => child
  end.
Section Load.
Context (read_yaml : string -> result value) (resolve : string -> string)
  (sibling : string -> string -> string).
Definition _MAX_POLICY_BASE_DEPTH : nat := 5.
(** [depth] counts the files that may still be read. *)
Fixpoint load_policy (depth : nat) (path : string) (seen : list string) : result dict :=
  let resolved := resolve path in
  match depth with
  | O => err
  | S depth =>
      if is_in resolved seen then err else
      raw ← try_except (read_yaml resolved) [OSError; YAMLError] (fun _ => err);
      match raw with
      | VDict d =>
          let base := dget "base" d in
          let own := ddel "base" d in
          if negb (truthy base) then Ok own
          else
            b ← load_policy depth (sibling resolved (py_str base)) (resolved :: seen);
            Ok (match deep_merge (VDict b) (VDict own) with VDict m => m | _ => own end)
      | _ => err
      end
  end.
Definition _load_policy_config (path : string) : result dict :=
  load_policy _MAX_POLICY_BASE_DEPTH path [].
End Load.

(** ** [os.path.expandvars] *)
Definition word_char (c : ascii) : bool :=
  is_alnum_lower c || is_upper c || char_is "_" c.
Fixpoint expandvars (fuel : nat) (getenv : string -> option string) (s : string) : string :=
  match fuel with
  | O => s
  | S fuel =>
      match s with
      | EmptyString => EmptyString
      | String c s' =>
          if negb (char_is "$" c) then String c (expandvars fuel getenv s') else
          let keep := String c (expandvars fuel getenv s') in
          match s' with
          | String "{" r =>
              match cut r "}" with
              | Some (name, rest) =>
                  match getenv name with
                  | Some v => v +++ expandvars fuel getenv rest
                  | None => "${" +++ name +++ "}" +++ expandvars fuel getenv rest
                  end
              | None => keep
              end
          | _ =>
              let '(name, rest) := take_while word_char s' in
              if (name =? "")%string then keep
              else match getenv name with
                   | Some v => v +++ expandvars fuel getenv rest
                   | None => String c (name +++ expandvars fuel getenv rest)
                   end
          end
      end
  end.

(** ** The registry *)
Record registry := Registry {
  read_only_tools : list (string * list string);
  groups : list (string * group_policy);
  endpoints : header_map;
  configured : bool }.
Definition empty_registry : registry := Registry [] [] [] false.
(** Configured endpoints and the ambiguous ones. *)
Definition _bind_configured_mcp_endpoint (physical logical : string) (st : header_map * list string)
  : header_map * list string :=
  let '(m, ambiguous) := st in
  if (physical =? "")%string || is_in physical ambiguous then st else
  match hlookup physical m with
  | Some previous =>
      if negb (previous =? "")%string && negb (previous =? logical)%string
      then (List.filter (fun kv => negb (fst kv =? physical)%string) m, physical :: ambiguous)
      else (hset physical logical m, ambiguous)
  | None => (hset physical logical m, ambiguous)
  end.
Fixpoint assoc_set {A} (k : string) (v : A) (m : list (string * A)) : list (string * A) :=
  match m with
  | [] => [(k, v)]
  | (k', v') :: m => if (k =? k')%string then (k', v) :: m else (k', v') :: assoc_set k v m
  end.
Fixpoint assoc {A} (k : string) (m : list (string * A)) : option A :=
  match m with [] => None | (k', v) :: m => if (k =? k')%string then Some v else assoc k m end.

Section Configure.
Context (getenv : string -> option string) (authentication : dict).
Definition server_endpoint (server : dict) : option string :=
  let transport := strip (py_str (vor (dget "transport" server) (VStr "streamable-http"))) in
  let url := strip (py_str (vor (dget "url" server) (VStr ""))) in
  let endpoint := expandvars (S (String.length url)) getenv url in
  if (endpoint =? "")%string || contains endpoint "${" then None
  else Some (transport +++ ":" +++ endpoint).
Fixpoint configure_groups (raw : dict) (reg : registry) (ambiguous : list string) : result registry :=
  match raw with
  | [] => Ok reg
  | (raw_group_name, VDict raw_group) :: raw =>
      let type := dget "_type" raw_group in
      if negb (hashable type) then unhashable else
      if negb (py_eq type (VStr "mcp_client") || py_eq type (VStr "per_user_mcp_client"))
      then configure_groups raw reg ambiguous
      else
        let group_name := casefold raw_group_name in
        policy ← _parse_mcp_group_approval_policy raw_group;
        let tools := map fst (List.filter (fun kv => (snd kv =? READ_ONLY)%string) (overrides policy)) in
        let ro := match tools with [] => read_only_tools reg
                  | _ => assoc_set group_name tools (read_only_tools reg) end in
        st ← match dget_or "server" (VDict []) raw_group with
             | VDict server =>
                 if negb (hashable (dget "auth_provider" server)) then unhashable else
                 Ok (match server_endpoint server with
                     | Some physical =>
                         _bind_configured_mcp_endpoint physical raw_group_name (endpoints reg, ambiguous)
                     | None => (endpoints reg, ambiguous)
                     end)
             | _ => Ok (endpoints reg, ambiguous)
             end;
        configure_groups raw
          (Registry ro (assoc_set group_name policy (groups reg)) (fst st) true) (snd st)
  | _ :: raw => configure_groups raw reg ambiguous
  end.
End Configure.
Definition configure_mcp_approval_policy (getenv : string -> option string) (load : result dict)
  : result registry :=
  raw_config ← load;
  match dget_or "function_groups" (VDict []) raw_config, dget_or "authentication" (VDict []) raw_config with
  | VDict function_groups, VDict authentication =>
      reg ← configure_groups getenv function_groups empty_registry [];
      Ok (Registry (read_only_tools reg) (groups reg) (endpoints reg) true)
  | _, _ => err
  end.

(** ** Looking a tool up *)
Definition _mcp_policy_target (reg : registry) (server_name tool_name : string) : string * string :=
  let logical_server := casefold (default server_name (hlookup server_name (endpoints reg))) in
  let tool := fold_name tool_name in
  let tool := if startswith tool (logical_server +++ ".") then removeprefix tool (logical_server +++ ".")
              else if startswith tool (logical_server +++ "::") then removeprefix tool (logical_server +++ "::")
              else tool in
  (logical_server, tool).
Definition _has_local_read_only_evidence (reg : registry) (server_name tool_name : string) : bool :=
  let '(server, tool) := _mcp_policy_target reg server_name tool_name in
  is_in tool (default [] (assoc server (read_only_tools reg))).
(** The policy of a call: nothing is authorised without a configured group. *)
Definition policy_of (reg : registry) (server_name tool_name : string) : string :=
  let '(server, tool) := _mcp_policy_target reg server_name tool_name in
  match assoc server (groups reg) with Some g => for_tool g tool | None => APPROVAL_REQUIRED end.
