(* ===== verification/Gate.v ===== *)
(** * The MCP approval gate ([daedalus_runtime/approval.py])

    Every remote tool call passes [_validate_mcp_approval]: the operator's
    policy, the local detection of mutations, a call whose credential was
    consumed by the execute route, or a credential presented with the request
    allow it; otherwise an approval request is recorded for the user, or the
    call is refused.  [nat_helpers/approval_context.py] remembers which
    markers the gate itself issued in this request. *)
From S2P Require Import Prelude PyStr PyFloat PyVal Json JsonRoundtrip Redis PyUrl Sha World Trace.
From S2P Require Import Exploration Identity Tokens Policy.
#[local] Open Scope Z_scope.

Definition BACKGROUND_APPROVAL_REFUSAL : string :=
  "This action needs the user's approval, which a background run cannot request. The call was not executed; leave it for an interactive chat.".
Definition READ_ONLY_CONFLICT : string :=
  "MCP read-only policy conflicts with destructive tool metadata or arguments. The call was not executed; this source is unavailable until its configuration is corrected.".
Definition NO_IDENTITY : string :=
  "authenticated approval context is required before an execution credential can be created".
Definition INVALID_IDENTITY : string := "authenticated approval context is invalid".
Definition UNAVAILABLE : string := "approval validation is unavailable".
Definition MISMATCH : string := "approval credential does not match this operation".
Definition CREATION_UNAVAILABLE : string := "protected approval creation is unavailable".
Definition APPROVED : string := "approved".

(** ** Markers *)
(** [base64.urlsafe_b64encode], without its padding. *)
Definition b64_char (n : Z) : ascii :=
  if n <? 26 then chr (65 + n) else if n <? 52 then chr (97 + (n - 26))
  else if n <? 62 then chr (48 + (n - 52)) else if n =? 62 then "-"%char else "_"%char.
Fixpoint b64_url (l : list Z) : string :=
  let c n := b64_char (Z.land n 63) in
  match l with
  | [] => ""
  | [a] => String (c (Z.shiftr a 2)) (String (c (Z.shiftl a 4)) "")
  | [a; b] => String (c (Z.shiftr a 2)) (String (c (Z.lor (Z.shiftl a 4) (Z.shiftr b 4)))
                (String (c (Z.shiftl b 2)) ""))
  | a :: b :: d :: rest =>
      String (c (Z.shiftr a 2)) (String (c (Z.lor (Z.shiftl a 4) (Z.shiftr b 4)))
        (String (c (Z.lor (Z.shiftl b 2) (Z.shiftr d 6))) (String (c d) (b64_url rest))))
  end.
Definition MARKER_PREFIX : string := "<!--daedalus-mcp-approval:".
Definition MARKER_SUFFIX : string := "-->".
Definition _encode_mcp_approval_marker (payload : dict) : string :=
  MARKER_PREFIX +++
  b64_url (bytes_of (dumps_with (Opts true "," ":" true None) (VDict payload))) +++ MARKER_SUFFIX.

(** The markers of this request ([None] outside an [approval_marker_scope]). *)
Abbreviation markers := (option (list string)).
Definition approval_marker_scope (new_request : bool) (current : markers) : markers :=
  match current with
  | Some _ => if new_request then Some [] else current
  | None => Some []
  end.
Definition register_approval_marker (marker : string) (current : markers) : markers :=
  match current with
  | Some l => Some (if is_in marker l then l else marker :: l)
  | None => None
  end.
Definition is_trusted_approval_marker (marker : string) (current : markers) : bool :=
  match current with Some l => is_in marker l | None => false end.

(** ** The canonical form of a call *)
(** A schema validates the arguments and dumps them. *)
Abbreviation schema := (option (dict -> result dict)).
Definition _canonical_mcp_call (payload : dict) (input_schema : schema) : result (string * string) :=
  let p := ddel "approval_token" payload in
  p ← match input_schema with Some f => f p | None => Ok p end;
  let canonical_arguments := canonical_json p in
  hash ← utf8_sha256 canonical_arguments;
  Ok (canonical_arguments, hash).

Definition TARGET_KEYS : list string :=
  ["documentId"; "document_id"; "calendarId"; "calendar_id"; "eventId"; "event_id"; "namespace"; "name"; "id"].
(** [isinstance(value, (str, int))]. *)
Definition identifier (v : value) : option string :=
  match v with
  | VStr _ | VInt _ | VBool _ => if is_blank (py_str v) then None else Some (strip (py_str v))
  | _ => None
  end.
Fixpoint identifiers (arguments : dict) (keys : list string) (acc : list string) : list string :=
  match keys with
  | [] => acc
  | k :: keys =>
      identifiers arguments keys
        (match identifier (dget k arguments) with
         | Some s => if is_in s acc then acc else acc ++ [s]
         | None => acc
         end)
  end.
Definition _mcp_approval_target (arguments : dict) (arguments_sha256 : string) : string :=
  let label := join "/" (firstn 3 (identifiers arguments TARGET_KEYS [])) in
  if (label =? "")%string then "arguments:" +++ utake 16 arguments_sha256 else label.
Definition payload_kib (canonical_arguments : string) : Z := Z.max 1 ((blen canonical_arguments + 1023) / 1024).
Definition _mcp_approval_summary (server_name tool_name target canonical_arguments : string) : string :=
  let size := " (" +++ str_of_Z (payload_kib canonical_arguments) +++ " KiB payload)" in
  if (server_name =? "docs_mcp_server")%string && (tool_name =? "update_doc")%string
  then "Update Google document " +++ target +++ size
  else "Run " +++ server_name +++ "." +++ tool_name +++ " on " +++ target +++ size.

(** One call already paid for: user, server, tool, argument hash. *)
Abbreviation consumed_t := (option (string * string * string * string)).
Definition consumed_execution_scope (reg : registry) (user_id server_name tool_name : string)
    (arguments : dict) : result consumed_t :=
  let '(server, tool) := _mcp_policy_target reg server_name tool_name in
  '(_, hash) ← _canonical_mcp_call arguments None;
  Ok (Some (user_id, server, tool, hash)).

Section Gate.
Context {R : Type} `{RS : RedisServer R} (h : host R).
(** [secrets.token_urlsafe]; redis-py's check of a URL, which connects later. *)
Context (token_urlsafe : nat -> string) (from_url : string -> result unit).
Abbreviation W := (world R).

Definition make_redis_client (redis_url : option string) : result unit :=
  url ← build_redis_url (getenv h) (default "" redis_url); from_url url.
Definition approval_client : eff W unit := lift (make_redis_client (getenv h "APPROVAL_REDIS_URL")).

Definition _create_mcp_approval_marker (user_id server_name tool_name canonical_arguments
    arguments_sha256 : string) : eff W string :=
  arguments ← lift (loads canonical_arguments);
  let target := _mcp_approval_target (match arguments with VDict d => d | _ => [] end) arguments_sha256 in
  let summary := _mcp_approval_summary server_name tool_name target canonical_arguments in
  _ ← approval_client;
  pending ← create_pending_mcp_approval h token_urlsafe user_id summary
              "This MCP operation changes external data." target server_name tool_name
              canonical_arguments DEFAULT_PENDING_APPROVAL_TTL_SECONDS;
  mret (_encode_mcp_approval_marker
    [("version", VInt 1); ("requestId", dget "request_id" pending); ("serverName", VStr server_name);
     ("toolName", VStr tool_name); ("target", VStr target); ("summary", VStr summary);
     ("argumentsSha256", VStr arguments_sha256)]).

Definition _normalized_approved_hash (input_schema : schema) (approved_arguments : string) : result string :=
  v ← loads approved_arguments;
  match v with
  | VDict d => '(_, hash) ← _canonical_mcp_call d input_schema; Ok hash
  | _ => raise ValueError "approved MCP arguments must be an object"
  end.
(** What is presented when a credential is spent on a call. *)
Definition mcp_presented (user_id server_name tool_name arguments_sha256 : string) : presented :=
  Presented user_id MUTATION "" server_name tool_name arguments_sha256.
(** The two ways on for a protected call of an authenticated user without a
    consumed execution: spend a credential, or ask for one. *)
Definition spend_credential (user_id tool_name : string) (payload : dict) (server_name token : string)
    (input_schema : schema) : eff W (bool * string) :=
  v ← (catch
    ('(_, arguments_sha256) ← lift (_canonical_mcp_call payload input_schema);
     _ ← approval_client;
     validate_approval_token h (mcp_presented user_id server_name tool_name arguments_sha256) token
       (Some (_normalized_approved_hash input_schema)) true)
    [Exception_] (fun _ => mret (false, UNAVAILABLE)) : eff W (bool * string));
  mret (if fst v : bool then (true, APPROVED)
        else (false, replace "approval_token" "approval credential" (snd v))).
Definition ask_approval (user_id tool_name : string) (payload : dict) (server_name : string)
    (input_schema : schema) (ms : markers) : eff W (bool * string * markers) :=
  catch
    ('(canonical_arguments, arguments_sha256) ← lift (_canonical_mcp_call payload input_schema);
     marker ← _create_mcp_approval_marker user_id server_name tool_name canonical_arguments arguments_sha256;
     mret (false, marker, register_approval_marker marker ms))
    [Exception_] (fun _ => mret (false, CREATION_UNAVAILABLE, ms)).
Definition match_consumed (reg : registry) (c : string * string * string * string) (user_id tool_name : string)
    (payload : dict) (server_name : string) (input_schema : schema) : bool * string :=
  let '(server, tool) := _mcp_policy_target reg server_name tool_name in
  match _canonical_mcp_call payload input_schema with
  | Raise _ => (false, UNAVAILABLE)
  | Ok (_, hash) => if bool_decide (c = (user_id, server, tool, hash)) then (true, APPROVED) else (false, MISMATCH)
  end.

(** What the policy says before anybody is asked: a verdict, or [None] for a
    protected call. *)
Definition policy_verdict (reg : registry) (tool_name : string) (payload : dict) (annotations : option dict)
    (server_name : string) : option (bool * string) :=
  let policy := policy_of reg server_name tool_name in
  if (policy =? AUTO_APPROVE)%string then Some (true, "auto-approved") else
  let is_mutating := negb (policy =? READ_ONLY)%string || _is_mutating_mcp_call tool_name payload annotations in
  if negb is_mutating then Some (true, "read-only")
  else if (policy =? READ_ONLY)%string then Some (false, READ_ONLY_CONFLICT) else None.
(** [headers], [consumed] and [ms] are the context variables. *)
Definition _validate_mcp_approval (reg : registry) (headers : option header_map) (consumed : consumed_t)
    (ms : markers) (tool_name : string) (payload : dict) (annotations : option dict) (server_name : string)
    (approval_token : option string) (input_schema : schema) : eff W (bool * string * markers) :=
  match policy_verdict reg tool_name payload annotations server_name with
  | Some v => mret (v, ms)
  | None =>
      match authenticated_user_id_from_context_or_fallback (getenv h) headers "" with
      | Raise _ => mret (false, INVALID_IDENTITY, ms)
      | Ok user_id =>
          if (user_id =? "")%string then mret (false, NO_IDENTITY, ms) else
          match consumed with
          | Some c => mret (match_consumed reg c user_id tool_name payload server_name input_schema, ms)
          | None =>
              let token := strip (default "" approval_token) in
              if (token =? "")%string then
                if is_authenticated_autonomy_request (getenv h) headers
                then mret (false, BACKGROUND_APPROVAL_REFUSAL, ms)
                else ask_approval user_id tool_name payload server_name input_schema ms
              else
                v ← spend_credential user_id tool_name payload server_name token input_schema;
                mret (v, ms)
          end
      end
  end.
End Gate.

(** ** Results *)
Inductive tool_result := Structured (isError : value) | Plain (v : value).
Definition error_envelope (d : dict) : bool :=
  is_true (dget "isError" d) ||
  truthy (dget "error" d) && is_str (dget "server" d) && is_str (dget "tool" d) && is_bool (dget "retryable" d).
Definition _mcp_result_is_error (result : tool_result) : bool :=
  match result with
  | Structured e => is_true e
  | Plain (VStr s) =>
      if startswith (lstrip s) "MCPToolClient tool call failed:" then true
      else if contains s MARKER_PREFIX then true
      else match loads s with Ok (VDict d) => error_envelope d | _ => false end
  | Plain (VDict d) => error_envelope d
  | Plain _ => false
  end.
Example marker_ex : _encode_mcp_approval_marker [("version", VInt 1); ("a", VStr "x")] =
  "<!--daedalus-mcp-approval:eyJhIjoieCIsInZlcnNpb24iOjF9-->".
Proof. vm_compute. reflexivity. Qed.

(** ** Laws of the MCP approval gate

    A remote call runs only with an authorisation, and what each refusal
    leaves behind. *)
(** [except Exception] catches everything raised. *)
Lemma catch_any {W A} (m : eff W A) hd w r w' :
  catch m [Exception_] hd w = (r, w') ->
  (exists a, m w = (Ok a, w') /\ r = Ok a) \/ exists e w1, m w = (Raise e, w1) /\ hd e w1 = (r, w').
Proof.
  unfold catch. destruct (m w) as [[a|e] w1] eqn:E; [intros H; injection H as <- <-; eauto|].
  assert (exn_in e [Exception_] = true) as ->.
  { unfold exn_in, existsb, exn_isa. by rewrite orb_true_r. }
  eauto.
Qed.

(** ** Canonical arguments *)
Lemma ddel_absent k (d : dict) : dlookup k d = None -> ddel k d = d.
Proof.
  induction d as [|[k' v] d IH]; [done|]. cbn. destruct (String.eqb_spec k k'); [done|]. intros H. by rewrite IH.
Qed.
Lemma dlookup_none k (d : dict) : dlookup k d = None <-> k ∉ dkeys d.
Proof.
  induction d as [|[k' v] d IH]; cbn; [set_solver|].
  destruct (String.eqb_spec k k') as [->|]; [set_solver|]. rewrite IH. set_solver.
Qed.
Lemma ddel_keys k (d : dict) : NoDup (dkeys d) -> k ∉ dkeys (ddel k d).
Proof.
  induction d as [|[k' v] d IH]; cbn; [set_solver|]. intros H. inversion H; subst.
  destruct (String.eqb_spec k k') as [->|]; [done|]. cbn. set_solver.
Qed.
Lemma ddel_subkeys x k (d : dict) : x ∈ dkeys (ddel k d) -> x ∈ dkeys d.
Proof.
  induction d as [|[k' v] d IH]; cbn; [done|]. destruct (String.eqb_spec k k'); cbn; set_solver.
Qed.
Lemma ddel_nodup k (d : dict) : NoDup (dkeys d) -> NoDup (dkeys (ddel k d)).
Proof.
  induction d as [|[k' v] d IH]; cbn; [done|]. intros H. inversion H as [|?? Hni Hnd]; subst.
  destruct (String.eqb_spec k k'); [done|]. cbn. constructor; [|auto].
  contradict Hni. by eapply ddel_subkeys.
Qed.
Lemma json_ok_ddel o k d : json_ok o (VDict d) = true -> json_ok o (VDict (ddel k d)) = true.
Proof.
  cbn [json_ok]. rewrite !andb_true_iff, !bool_decide_eq_true. intros [Hn H]. split; [by apply ddel_nodup|].
  clear Hn. induction d as [|[k' v] d IH]; [done|]. cbn [ddel forallb fst snd] in *.
  apply andb_true_iff in H as [H1 H2]. destruct (String.eqb_spec k k'); [done|].
  cbn [forallb fst snd]. by rewrite H1, IH.
Qed.
Lemma canonical_read p hash : json_ok canonical_opts (VDict p) = true -> dlookup "approval_token" p = None ->
  utf8_sha256 (canonical_json p) = Ok hash ->
  loads (canonical_json p) = Ok (VDict (sort_dict p)) /\ ddel "approval_token" (sort_dict p) = sort_dict p /\
  canonical_json (sort_dict p) = canonical_json p.
Proof.
  intros Hp Hk Hh. split_and!.
  - apply (loads_sorted canonical_opts (VDict p)); [done|apply canonical_sep|done].
  - apply ddel_absent, dlookup_none. unfold sort_dict. rewrite dkeys_sort. unfold dkeys.
    rewrite keys_map. by apply dlookup_none.
  - apply (dumps_sort canonical_opts (VDict p)). done.
Qed.


(** ** The policy *)
Lemma policy_of_exposed reg server tool :
  policy_of reg server tool <> APPROVAL_REQUIRED ->
  exists g, assoc (fst (_mcp_policy_target reg server tool)) (groups reg) = Some g /\
    exposed g (snd (_mcp_policy_target reg server tool)) = true /\
    policy_of reg server tool =
      default (gdefault g) (hlookup (snd (_mcp_policy_target reg server tool)) (overrides g)).
Proof.
  unfold policy_of. destruct (_mcp_policy_target reg server tool) as [s t]. cbn [fst snd].
  destruct (assoc s (groups reg)) as [g|]; [|done]. unfold for_tool.
  destruct (exposed g t) eqn:E; [|done]. eauto.
Qed.
Lemma policy_verdict_true reg tool payload ann server msg :
  policy_verdict reg tool payload ann server = Some (true, msg) ->
  policy_of reg server tool = AUTO_APPROVE \/
  policy_of reg server tool = READ_ONLY /\ _is_mutating_mcp_call tool payload ann = false.
Proof.
  unfold policy_verdict. destruct (String.eqb_spec (policy_of reg server tool) AUTO_APPROVE); [by left|].
  destruct (String.eqb_spec (policy_of reg server tool) READ_ONLY); cbn [negb orb].
  - destruct (_is_mutating_mcp_call tool payload ann); cbn [negb]; [done|]. by right.
  - done.
Qed.

Section Gate.
Context {R : Type} `{RS : RedisServer R} (h : host R).
Context (token_urlsafe : nat -> string) (from_url : string -> result unit).
Hypothesis others_later : forall n r, later r (others h n r).
Abbreviation W := (world R).
Abbreviation user_of := (authenticated_user_id_from_context_or_fallback (getenv h)).

(** The credential [token] of [u] was taken from Redis for the call [q]. *)
Definition spent_on (token : string) (q : presented) (f : string -> result string) (w w' : W) : Prop :=
  exists t raw, w_log w' = t :: w_log w /\ t_kind t = TCmd (GETDEL (approval_token_key (p_user q) token)) /\
    kval (approval_token_key (p_user q) token) (t_before t) = Some (RStr raw) /\
    t_after t = delete (approval_token_key (p_user q) token) (t_before t) /\ proves q (Some f) raw.
(** What may authorise a call. *)
Definition authorised (reg : registry) (headers : option header_map) (consumed : consumed_t) (tool : string)
    (payload : dict) (ann : option dict) (server : string) (token : option string) (sch : schema)
    (w w' : W) : Prop :=
  (exists g, assoc (fst (_mcp_policy_target reg server tool)) (groups reg) = Some g /\
     exposed g (snd (_mcp_policy_target reg server tool)) = true /\
     (policy_of reg server tool = AUTO_APPROVE \/
      policy_of reg server tool = READ_ONLY /\ _is_mutating_mcp_call tool payload ann = false)) \/
  (exists u canonical hash, user_of headers "" = Ok u /\ u <> "" /\
     _canonical_mcp_call payload sch = Ok (canonical, hash) /\
     (consumed = Some (u, fst (_mcp_policy_target reg server tool),
                       snd (_mcp_policy_target reg server tool), hash) \/
      consumed = None /\
      spent_on (strip (default "" token)) (mcp_presented u server tool hash)
        (_normalized_approved_hash sch) w w')).

Lemma spend_true u tool payload server token sch w msg w' :
  spend_credential h from_url u tool payload server token sch w = (Ok (true, msg), w') ->
  exists canonical hash, _canonical_mcp_call payload sch = Ok (canonical, hash) /\
    spent_on token (mcp_presented u server tool hash) (_normalized_approved_hash sch) w w'.
Proof.
  unfold spend_credential. intros E. step E v w1 E1; [|done].
  destruct v as [ok reason]. cbn [fst snd] in E. destruct ok; [|done]. injection E as _ <-.
  apply catch_any in E1 as [(v & E1 & Hv)|(e & w2 & _ & E1)]; [injection Hv as <-|done].
  step E1 c w2 E2; [|done]. destruct c as [canonical hash]. injection E2 as Ec <-.
  exists canonical, hash. split; [done|]. step E1 x w3 E3; [|done].
  unfold approval_client, lift in E3. injection E3 as _ <-.
  exact (approval_is_exact_and_spent h others_later _ _ _ _ _ _ E1).
Qed.
Lemma ask_refuses u tool payload server sch ms w x w' :
  ask_approval h token_urlsafe from_url u tool payload server sch ms w = (Ok x, w') -> fst (fst x) = false.
Proof.
  unfold ask_approval. intros E. apply catch_any in E as [(a & E & Ha)|(e & w1 & _ & E)]; [|by injection E as <- _].
  injection Ha as <-. step E c w1 E1; [|done]. destruct c. step E m w3 E3; [|done]. by injection E as <- _.
Qed.

Lemma gate_authorised reg headers consumed ms tool payload ann server token sch w msg ms' w' :
  _validate_mcp_approval h token_urlsafe from_url reg headers consumed ms tool payload ann server token sch w
    = (Ok (true, msg, ms'), w') ->
  ms' = ms /\ authorised reg headers consumed tool payload ann server token sch w w'.
Proof.
  unfold _validate_mcp_approval. destruct (policy_verdict _ _ _ _ _) as [[ok m]|] eqn:Ep.
  { intros E. injection E as -> -> <- <-. split; [done|]. left. apply policy_verdict_true in Ep.
    destruct (policy_of_exposed reg server tool) as (g & ? & ? & _); [destruct Ep as [->|[-> _]]; done|]. eauto. }
  destruct (user_of headers "") as [u|e] eqn:Eu; [|done].
  destruct (String.eqb_spec u "") as [|Hu]; [done|]. destruct consumed as [c|].
  { unfold match_consumed. destruct (_mcp_policy_target reg server tool) as [s t] eqn:Et.
    destruct (_canonical_mcp_call payload sch) as [[canonical hash]|] eqn:Ec; [|done].
    case_bool_decide as Hc; [|done]. intros E. injection E as _ <- _. split; [done|].
    right. exists u, canonical, hash. rewrite Et. cbn [fst snd]. subst c. eauto 10. }
  destruct (strip (default "" token) =? "")%string.
  { destruct (is_authenticated_autonomy_request _ _); [done|]. intros E. by apply ask_refuses in E. }
  intros E. step E v w1 E1; [|done]. injection E as -> <- <-.
  apply spend_true in E1 as (canonical & hash & Hc & Hs). split; [done|]. right. exists u, canonical, hash. eauto 10.
Qed.

(** C2: Nothing runs unauthorised: when the gate allows a remote call, either the
    tool is exposed by a configured group whose policy for it is auto-approve,
    or read-only with no sign of a mutation in its name, arguments or
    destructive hint; or the request's trusted user is known and the call's
    canonical arguments hash to what the execute route already paid for; or
    this call just took a stored credential of that user out of Redis which
    names exactly this server, tool and argument hash. *)
Theorem gate_allows_only_authorised reg headers consumed ms tool payload ann server token sch w msg ms' w' :
  _validate_mcp_approval h token_urlsafe from_url reg headers consumed ms tool payload ann server token sch w
    = (Ok (true, msg, ms'), w') ->
  ms' = ms /\ authorised reg headers consumed tool payload ann server token sch w w'.
Proof. apply gate_authorised. Qed.
End Gate.

(** ** Asking *)
Section Ask.
Context {R : Type} `{RS : RedisServer R} (h : host R).
Context (token_urlsafe : nat -> string) (from_url : string -> result unit).
Abbreviation W := (world R).
(** A pending approval is not a credential. *)
Lemma pending_not_credential u r u' t : pending_approval_key u r <> approval_token_key u' t.
Proof. unfold pending_approval_key, approval_token_key. cbn. discriminate. Qed.

(** A round trip that leaves no credential behind that was not there. *)
Definition grants_none (t : trip) : Prop :=
  forall u tok, t_after t !! approval_token_key u tok = t_before t !! approval_token_key u tok \/
                t_after t !! approval_token_key u tok = None.
Definition spends_only (t : trip) : Prop := exists key, t_kind t = TCmd (GETDEL key).
Definition gate_trip (background : bool) (t : trip) : Prop :=
  grants_none t /\ (background = true -> spends_only t).

Lemma emits_getdel b key : emits (gate_trip b) (redis h (GETDEL key)).
Proof.
  apply emits_redis; intros m; (split; [|by eexists]); intros u tok; cbn [t_after t_before]; [by left|].
  destruct (getdel_spec key m) as [_ ->]. destruct (kstr key m) as [[s|]|]; [|by left|by left].
  destruct (decide (key = approval_token_key u tok)) as [->|]; [right; apply lookup_delete_eq|left].
  by apply lookup_delete_ne.
Qed.
Lemma emits_pending u r ttl v : emits (gate_trip false) (redis h (SETEX (pending_approval_key u r) ttl v)).
Proof.
  apply emits_redis; intros m; (split; [|done]); intros u' tok; cbn [t_after t_before spec snd]; left; [done|].
  apply lookup_insert_ne, pending_not_credential.
Qed.
Lemma emits_spend b u tool payload server token sch :
  emits (gate_trip b) (spend_credential h from_url u tool payload server token sch).
Proof.
  apply emits_bind; [|intros; apply emits_ret]. apply emits_catch; [|intros; apply emits_ret].
  apply emits_bind; [apply emits_lift|intros [c hash]]. apply emits_bind; [apply emits_lift|intros _].
  unfold validate_approval_token. case_goal; [apply emits_ret|]. cbv zeta.
  apply emits_bind; [apply emits_getdel|]. intros r. repeat case_goal; try apply emits_ret. apply emits_lift.
Qed.
Lemma emits_create user action reason tgt server tool args ttl :
  emits (gate_trip false) (create_pending_mcp_approval h token_urlsafe user action reason tgt server tool args ttl).
Proof.
  unfold create_pending_mcp_approval. cbv zeta. repeat (case_goal; [apply emits_lift|]).
  apply emits_bind; [apply emits_lift|intros [c hash]].
  apply emits_bind; [apply emits_nil; intros ??? E; by injection E as _ <-|intros rid].
  apply emits_bind; [apply emits_bind; [apply emits_now|intros; apply emits_ret]|intros ts].
  apply emits_bind; [apply emits_pending|]. intros. apply emits_ret.
Qed.
Lemma emits_ask u tool payload server sch ms :
  emits (gate_trip false) (ask_approval h token_urlsafe from_url u tool payload server sch ms).
Proof.
  apply emits_catch; [|intros; apply emits_ret]. apply emits_bind; [apply emits_lift|intros [c hash]].
  apply emits_bind; [|intros; apply emits_ret]. unfold _create_mcp_approval_marker.
  apply emits_bind; [apply emits_lift|intros args]. cbv zeta. apply emits_bind; [apply emits_lift|intros _].
  apply emits_bind; [apply emits_create|intros; apply emits_ret].
Qed.

(** The gate spends and asks, it never grants: whatever it decides, no round
    trip of it puts a credential into Redis -- a pending approval is stored
    under a key no credential has -- and in an authenticated background run it
    only ever takes credentials out, so no approval is recorded that nobody
    could answer. *)
Theorem gate_creates_no_credential reg headers consumed ms tool payload ann server token sch :
  emits (gate_trip (is_authenticated_autonomy_request (getenv h) headers))
    (_validate_mcp_approval h token_urlsafe from_url reg headers consumed ms tool payload ann server token sch).
Proof.
  unfold _validate_mcp_approval. destruct (policy_verdict _ _ _ _ _); [apply emits_ret|].
  destruct (authenticated_user_id_from_context_or_fallback _ _ _) as [u|]; [|apply emits_ret].
  case_goal; [apply emits_ret|]. destruct consumed; [apply emits_ret|]. cbv zeta. case_goal.
  - destruct (is_authenticated_autonomy_request _ _); [apply emits_ret|apply emits_ask].
  - apply emits_bind; [apply emits_spend|]. intros. apply emits_ret.
Qed.

(** Asking for an approval stores exactly the call: the gate refuses, and
    either says that no request could be made and registers nothing, or its
    last round trip wrote, for seven days under a key of this user, a record
    of this server, tool and the canonical arguments, and the answer is the
    registered marker of that record. *)
Theorem asking_records_the_call u tool payload server sch ms w ok msg ms' w' :
  ask_approval h token_urlsafe from_url u tool payload server sch ms w = (Ok (ok, msg, ms'), w') ->
  ok = false /\
  (msg = CREATION_UNAVAILABLE /\ ms' = ms \/
   exists canonical hash canonical' hash' p t,
     _canonical_mcp_call payload sch = Ok (canonical, hash) /\
     canonicalize_mcp_arguments canonical = Ok (canonical', hash') /\
     ms' = register_approval_marker msg ms /\ w_log w' = t :: w_log w /\
     t_kind t = TCmd (SETEX (pending_approval_key (strip u) (token_urlsafe (uuids w))) 604800 (dumps (VDict p))) /\
     dget "user_id" p = VStr (strip u) /\ dget "server_name" p = VStr (strip server) /\
     dget "tool_name" p = VStr (strip tool) /\ dget "canonical_arguments" p = VStr canonical' /\
     dget "arguments_sha256" p = VStr hash').
Proof.
  unfold ask_approval. intros E. apply catch_any in E as [(a & E & Ha)|(e & w1 & _ & E)].
  2:{ injection E as <- <- <- _. auto. }
  injection Ha as <-. step E c w1 E1; [|done]. destruct c as [canonical hash]. injection E1 as Ec <-.
  step E m w2 E2; [|done]. injection E as <- <- <- <-. split; [done|]. right.
  unfold _create_mcp_approval_marker in E2. step E2 args w3 E3; [|done]. injection E3 as _ <-. cbv zeta in E2.
  step E2 x w3 E3; [|done]. unfold approval_client, lift in E3. injection E3 as _ <-.
  step E2 p w3 E3; [|done]. injection E2 as _ <-.
  unfold create_pending_mcp_approval in E3. cbv beta zeta in E3.
  repeat match type of E3 with (if ?b then _ else _) _ = _ => destruct b; [done|] end.
  step E3 c w1 E1; [|done]. destruct c as [canonical' hash']. injection E1 as Ec' <-.
  step E3 rid w1 E1; [|done]. injection E1 as <- <-. step E3 ts w1 E1; [|done].
  step E3 r w4 E4; [|done]. injection E3 as <- <-.
  apply round_trip_frame in E4 as (_ & _ & _ & _ & t & El & Ek). injection E1 as _ <-.
  eexists canonical, hash, canonical', hash', _, t. split; [done|]. split; [done|]. split; [done|].
  split; [exact El|]. rewrite !norm_strip in Ek. split; [exact Ek|]. unfold dget. cbn. done.
Qed.
End Ask.
