(* ===== verification/Mcp.v ===== *)
(** * Remote tool calls ([daedalus_runtime/mcp.py])

    The manager keeps one connection per configured service and user, exposes
    the tools the configuration exposes, and sends a call to the service only
    through the approval gate.  The SDK's transport, the JSON schema check and
    the access token of [oauth.py] are arguments.  A lock per service and user
    serialises the calls on one connection. *)
From S2P Require Import Prelude PyStr PyFloat PyVal Json JsonRoundtrip Redis PyUrl Sha World Exploration.
From S2P Require Import Identity Tokens Policy Gate.
#[local] Open Scope Z_scope.

Record tool := Tool { t_name : string; t_description : option string; t_schema : value;
                      t_annotations : option dict }.
(** A ready transport; [c_id] tells connections apart. *)
Record connection := Conn { c_id : nat; c_tools : list tool }.
Inductive opening := Opened (tools : list tool) | OpenFailed | OpenCancelled.
Inductive remote_outcome := RemoteDone (isError : value) (json : string) | RemoteFailed | RemoteCancelled.
(** The SDK, by the number of the request to it. *)
Record sdk := Sdk {
  open : nat -> value -> option dict -> opening;
  transport_closed : nat -> connection -> bool;
  session_ready : nat -> connection -> bool;
  call_tool : nat -> string -> dict -> remote_outcome }.

Record remote_call := Remote { r_group : string; r_user : string; r_tool : string; r_arguments : dict }.
Record mcp_state (R : Type) := McpState {
  m_world : world R; connections : list ((string * string) * (string * connection));
  m_markers : markers; m_next : nat; m_sent : list remote_call }.
Arguments McpState {R}. Arguments m_world {R}. Arguments connections {R}. Arguments m_markers {R}.
Arguments m_next {R}. Arguments m_sent {R}.

(** ** Exposure *)
Definition no_attr {A} (name : string) : result A :=
  raise AttributeError ("object has no attribute '" +++ name +++ "'").
Definition as_names (v : value) : result (list string) :=
  match v with
  | VList l => mapM_r (fun x => match x with VStr s => Ok (fold_name s)
                                | _ => raise AttributeError "object has no attribute 'strip'" end) l
  | _ => raise TypeError "object is not iterable"
  end.
Definition tool_exposed (include exclude : list string) (name : string) : bool :=
  let normalized := fold_name name in
  negb ((match include with [] => false | _ => negb (is_in normalized include) end) ||
        (match include with [] => is_in normalized exclude | _ => false end)).
Definition description_of (group : dict) (t : tool) : result string :=
  match dget_or "tool_overrides" (VDict []) group with
  | VDict o =>
      match dget_or (t_name t) (VDict []) o with
      | VDict override =>
          match vor (dget "description" override) (VStr "") with
          | VStr s => Ok (if is_blank s then strip (default "" (t_description t)) else strip s)
          | _ => no_attr "strip"
          end
      | _ => no_attr "get"
      end
  | _ => no_attr "get"
  end.
Fixpoint schemas_of (name : string) (group : dict) (include exclude : list string) (tools : list tool)
  : result (list dict) :=
  match tools with
  | [] => Ok []
  | t :: tools =>
      if negb (tool_exposed include exclude (t_name t)) then schemas_of name group include exclude tools else
      description ← description_of group t;
      if (description =? "")%string
      then raise ValueError "MCP tool requires a description or configured override"
      else
        rest ← schemas_of name group include exclude tools;
        Ok ([("name", VStr (name +++ "__" +++ t_name t)); ("description", VStr description);
             ("parameters", t_schema t)] :: rest)
  end.
Definition _schemas (name : string) (group : dict) (tools : list tool) : result (list dict) :=
  include ← as_names (vor (dget "include" group) (VList []));
  exclude ← as_names (vor (dget "exclude" group) (VList []));
  schemas_of name group include exclude tools.
Definition schema_name (d : dict) : string := py_str (dget "name" d).
Definition find_tool (name : string) (tools : list tool) : option tool :=
  List.find (fun t => (t_name t =? name)%string) tools.

Section Manager.
Context {R : Type} `{RS : RedisServer R} (h : host R).
Context (token_urlsafe : nat -> string) (from_url : string -> result unit).
Context (reg : registry) (config : dict) (headers : option header_map) (consumed : consumed_t) (net : sdk).
Context (jsonschema_validate : dict -> value -> result unit).
(** The flag says that the user can be asked to authorise. *)
Context (access_token : bool -> string -> dict -> eff (world R) (option string))
  (invalidate_access : string -> dict -> string -> eff (world R) unit).
Abbreviation S_ := (mcp_state R).

Definition groups_of : dict := match dget_or "function_groups" (VDict []) config with VDict d => d | _ => [] end.
Definition group_of (name : string) : result dict :=
  g ← dgetitem name groups_of;
  match g with VDict d => Ok d | _ => raise TypeError "group is not a mapping" end.
Definition server_of (name : string) : result dict :=
  g ← group_of name; s ← dgetitem "server" g;
  match s with VDict d => Ok d | _ => no_attr "get" end.
Definition _auth (name : string) : result dict :=
  server ← server_of name;
  match dget_or "authentication" (VDict []) config, dget "auth_provider" server with
  | VDict auth, VStr p => match dget_or p (VDict []) auth with
                          | VDict d => Ok d | _ => no_attr "get" end
  | VDict _, v => if hashable v then Ok [] else unhashable
  | _, _ => no_attr "get"
  end.
Definition bump : S_ -> S_ := fun s =>
  McpState (m_world s) (connections s) (m_markers s) (S (m_next s)) (m_sent s).
Definition set_connections (l : list ((string * string) * (string * connection))) : S_ -> S_ := fun s =>
  McpState (m_world s) l (m_markers s) (m_next s) (m_sent s).
(** Asking the SDK for something: the answer by the number of the request. *)
Definition ask {A} (f : nat -> A) : eff S_ A := fun s => (Ok (f (m_next s)), bump s).
Definition on_mcp_world {A} (m : eff (world R) A) : eff S_ A := fun s =>
  let '(x, w) := m (m_world s) in
  (x, McpState w (connections s) (m_markers s) (m_next s) (m_sent s)).

Definition _headers (emit : bool) (name user : string) : eff S_ (option dict) :=
  auth ← lift (_auth name);
  server ← lift (server_of name);
  hs ← lift (match dget_or "custom_headers" (VDict []) server with
             | VDict d => Ok d | _ => raise TypeError "object is not iterable" end);
  if py_eq (dget "_type" auth) (VStr "mcp_oauth2") then
    token ← on_mcp_world (access_token emit user auth);
    mret (match token with
          | Some t => if (t =? "")%string then None
                      else Some (dset "Authorization" (VStr ("Bearer " +++ t)) hs)
          | None => None
          end)
  else if py_eq (dget "_type" auth) (VStr "api_key") then
    let key := dget_or "raw_key" (VStr "") auth in
    if negb (truthy key) then throw RuntimeError "MCP credential is not configured" else
    match dget_or "custom_header_name" (VStr "Authorization") auth with
    | VStr header =>
        let prefix := py_str (dget_or "custom_header_prefix" (VStr "Bearer") auth) in
        mret (Some (dset header (VStr (strip (prefix +++ " " +++ py_str key))) hs))
    | _ => throw TypeError "header names are text"
    end
  else match auth with
       | [] => mret (Some hs)
       | _ => throw ValueError "Unsupported MCP authentication provider"
       end.

(** ** Connections *)
Definition key_eqb (a b : string * string) : bool := ((fst a =? fst b) && (snd a =? snd b))%string.
Fixpoint conn_get (k : string * string) (l : list ((string * string) * (string * connection)))
  : option (string * connection) :=
  match l with [] => None | (k', c) :: l => if key_eqb k k' then Some c else conn_get k l end.
Definition conn_pop (k : string * string) (l : list ((string * string) * (string * connection))) :=
  List.filter (fun kc => negb (key_eqb k (fst kc))) l.
Definition pop (k : string * string) : eff S_ unit := modify (fun s => set_connections (conn_pop k (connections s)) s).
Definition CAPACITY : nat := 256.
Definition UNAVAILABLE_CONNECTION : string := "MCP connection is unavailable".
(** [None] when the caller was cancelled while the transport started. *)
Definition _connection (name user : string) (hs : option dict) : eff S_ (option connection) :=
  let k := (name, user) in
  digest ← lift (utf8_sha256 (dumps_with (Opts true ", " ": " true None)
                              (match hs with Some d => VDict d | None => VNone end)));
  conns ← gets connections;
  cached ← (match conn_get k conns with
            | Some (d, c) =>
                closed ← ask (fun n => transport_closed net n c);
                if negb (d =? digest)%string || closed then _ ← pop k; mret None else mret (Some c)
            | None => mret None
            end : eff S_ (option connection));
  match cached with
  | Some c =>
      ready ← ask (fun n => session_ready net n c);
      if ready : bool then mret (Some c) else _ ← pop k; throw RuntimeError UNAVAILABLE_CONNECTION
  | None =>
      conns ← gets connections;
      if (CAPACITY <=? length conns)%nat then throw RuntimeError "MCP connection capacity reached" else
      server ← lift (server_of name);
      if negb (py_eq (dget_or "transport" (VStr "streamable-http") server) (VStr "streamable-http"))
      then throw ValueError "Only MCP Streamable HTTP is supported" else
      url ← lift (dgetitem "url" server);
      group ← lift (group_of name);
      _ ← lift (py_float (dget_or "tool_call_timeout" (VInt 120) group));
      id ← gets m_next;
      o ← ask (fun n => open net n url hs);
      match o with
      | Opened tools =>
          let c := Conn id tools in
          _ ← modify (fun s => set_connections (connections s ++ [(k, (digest, c))]) s);
          mret (Some c)
      | OpenFailed => throw RuntimeError UNAVAILABLE_CONNECTION
      | OpenCancelled => mret None
      end
  end.

(** ** The catalogue *)
Definition _connect_schema (name : string) (deferred_names : option (list string)) : result dict :=
  group ← group_of name;
  names ← match deferred_names with
          | Some l => Ok l
          | None => match dget_or "include" (VList []) group with
                    | VList l => mapM_r (fun v => match v with VStr s => Ok s | _ => raise TypeError "sequence item" end) l
                    | _ => raise TypeError "can only join an iterable"
                    end
          end;
  let listed := join ", " names in
  let capability := dget_or "discovery_description" (VStr "") group in
  Ok [("name", VStr (name +++ "__connect"));
      ("description", VStr ((if truthy capability then py_str capability +++ " " else "") +++
         "Connect to " +++ name +++ " and discover its tools before using them. " +++
         "The discovered tools remain available for this request; use their " +++
         "returned names and schemas for subsequent calls. Complete browser " +++
         "authorization if requested. " +++
         "Use tools already exposed directly. Discover the appropriate " +++
         "operation before substituting other tools for unavailable functionality. " +++
         "Operations available after connecting include: " +++
         (if (listed =? "")%string then "the configured service operations" else listed) +++ "."));
      ("parameters", VDict [("type", VStr "object"); ("properties", VDict []);
                            ("additionalProperties", VBool false)])].
Definition initial_names (name : string) (v : value) : result (list string) :=
  match v with
  | VList l => Ok (map (fun t => name +++ "__" +++ py_str t) l)
  | _ => raise TypeError "object is not iterable"
  end.
(** The schemas of one group; a failure leaves its connect operation, and
    nobody is asked to authorise. *)
Inductive found := Found (schemas : list dict) | NotFound | FindCancelled.
Definition discovered (name user : string) (deferred : bool) (initial_tools : value)
  : eff S_ found :=
  hs ← _headers false name user;
  match hs with
  | None => mret NotFound
  | Some _ =>
      c ← _connection name user hs;
      match c with
      | None => mret FindCancelled
      | Some c =>
          group ← lift (group_of name);
          schemas ← lift (_schemas name group (c_tools c));
          if negb deferred then mret (Found schemas) else
          initial ← lift (initial_names name initial_tools);
          let kept := List.filter (fun s => is_in (schema_name s) initial) schemas in
          let rest := map schema_name (List.filter (fun s => negb (is_in (schema_name s) initial)) schemas) in
          connect ← lift (_connect_schema name (Some rest));
          mret (Found (kept ++ [connect]))
      end
  end.
Definition discover (user : string) (initial : bool) (name : string) : eff S_ (option (list dict)) :=
  group ← lift (group_of name);
  let deferred := initial && truthy (dget_or "defer_discovery" (VBool false) group) in
  let initial_tools := dget_or "initial_tools" (VList []) group in
  if deferred && negb (truthy initial_tools) then s ← lift (_connect_schema name None); mret (Some [s]) else
  f ← catch (discovered name user deferred initial_tools) [Exception_] (fun _ => mret NotFound);
  match f with
  | Found schemas => mret (Some schemas)
  | NotFound => s ← lift (_connect_schema name None); mret (Some [s])
  | FindCancelled => mret None
  end.
Definition catalogue (names : list string) (user : string) (initial : bool)
  : eff S_ (option (list dict)) :=
  l ← mapE (discover user initial) names; mret (@concat dict <$> mapM (fun x => x) l).

(** ** Calling *)
Inductive call_result := Answer (d : dict) | CallCancelled.
Definition UNCONFIRMED : string :=
  "MCP call did not return a confirmed result. Its remote outcome may be unknown; check the current state before repeating a change.".
Definition refused (reason : string) (terminal : bool) : dict :=
  [("content", VStr reason); ("is_error", VBool true); ("terminal", VBool terminal);
   ("terminal_reason", VStr (if terminal then "mcp_approval_required" else ""))].
(** The gate, on the world and markers of the manager's request. *)
Definition gate (name tool_name : string) (arguments : dict) (t : tool) (token : string)
  : eff S_ (bool * string) := fun s =>
  match _validate_mcp_approval h token_urlsafe from_url reg headers consumed (m_markers s) tool_name
          arguments (t_annotations t) name (Some token) None (m_world s) with
  | (Ok (v, ms), w) => (Ok v, McpState w (connections s) ms (m_next s) (m_sent s))
  | (Raise e, w) => (Raise e, McpState w (connections s) (m_markers s) (m_next s) (m_sent s))
  end.
(** [session.call_tool]: the request goes out, whatever comes back. *)
Definition send (name user tool_name : string) (arguments : dict) : eff S_ remote_outcome := fun s =>
  (Ok (call_tool net (m_next s) tool_name arguments),
   McpState (m_world s) (connections s) (m_markers s) (S (m_next s))
     (Remote name user tool_name arguments :: m_sent s)).
Definition run_remote (name user tool_name : string) (arguments : dict) (c : connection) (hs : option dict)
  : eff S_ call_result :=
  ready ← ask (fun n => session_ready net n c);
  if negb ready then throw RuntimeError UNAVAILABLE_CONNECTION else
  o ← send name user tool_name arguments;
  match o with
  | RemoteDone isError json =>
      mret (Answer [("content", VStr json); ("is_error", VBool (_mcp_result_is_error (Structured isError)))])
  | RemoteFailed => _ ← pop (name, user);
                    auth ← lift (_auth name);
                    _ ← when (py_eq (dget "_type" auth) (VStr "mcp_oauth2"))
                          (suppress [Exception_]
                             (on_mcp_world (invalidate_access user auth
                             (udrop 7 (py_str (dget "Authorization" (default [] hs)))))));
                    mret (Answer [("content", VStr UNCONFIRMED); ("is_error", VBool true)])
  | RemoteCancelled => _ ← pop (name, user); mret CallCancelled
  end.
Definition gated (name user tool_name : string) (arguments : dict) (t : tool) (c : connection)
    (hs : option dict) : eff S_ call_result :=
  token ← lift (trusted_request_header_from_context (getenv h) headers "x-daedalus-approval-token");
  v ← gate name tool_name arguments t token;
  if negb (fst v) then
    ms ← gets m_markers;
    mret (Answer (refused (snd v) (is_trusted_approval_marker (snd v) ms)))
  else run_remote name user tool_name arguments c hs.
Definition CONNECTED : string := "Connected. The discovered tools are now available.".
Definition call (full_name : string) (arguments : dict) (user : string) : eff S_ call_result :=
  match cut full_name "__" with
  | None => throw ValueError "Unknown MCP tool"
  | Some (name, tool_name) =>
      if negb (dmem name groups_of) then throw ValueError "Unknown MCP tool" else
      hs ← _headers true name user;
      c ← _connection name user hs;
      match c with
      | None => mret CallCancelled
      | Some c =>
          group ← lift (group_of name);
          schemas ← lift (_schemas name group (c_tools c));
          if (tool_name =? "connect")%string then
            match arguments with
            | [] => mret (Answer [("content", VStr CONNECTED); ("tools", VList (map VDict schemas))])
            | _ => throw ValueError "Connect does not accept arguments"
            end
          else if negb (is_in full_name (map schema_name schemas))
          then throw ValueError "MCP tool is not exposed by local configuration"
          else
            match find_tool tool_name (c_tools c) with
            | None => throw KeyError (repr_str tool_name)
            | Some t =>
                _ ← lift (jsonschema_validate arguments (t_schema t));
                gated name user tool_name arguments t c hs
            end
      end
  end.
End Manager.

(** ** Laws of remote tool calls

    Which requests leave for a remote service. *)
Create HintDb silent.
Section Silent.
Context {R : Type}.
Abbreviation S_ := (mcp_state R).
(** Programs that send nothing to a service. *)
Definition silent {A} (m : eff S_ A) : Prop := forall s x s', m s = (x, s') -> m_sent s' = m_sent s.
Lemma silent_ret {A} (a : A) : silent (mret a).
Proof. intros s x s' E. by injection E as _ <-. Qed.
Lemma silent_lift {A} (r : result A) : silent (lift r).
Proof. intros s x s' E. by injection E as _ <-. Qed.
Lemma silent_throw {A} c msg : silent (@throw S_ A c msg).
Proof. apply silent_lift. Qed.
Lemma silent_gets {A} (f : S_ -> A) : silent (gets f).
Proof. intros s x s' E. by injection E as _ <-. Qed.
Lemma silent_ask {A} (f : nat -> A) : silent (ask (R := R) f).
Proof. intros s x s' E. by injection E as _ <-. Qed.
Lemma silent_world {A} (m : eff (world R) A) : silent (on_mcp_world m).
Proof. intros s x s' E. unfold on_mcp_world in E. destruct (m (m_world s)). by injection E as _ <-. Qed.
Lemma silent_conns f : silent (modify (fun s : S_ => set_connections (f (connections s)) s)).
Proof. intros s x s' E. by injection E as _ <-. Qed.
Lemma silent_bind {A B} (m : eff S_ A) (f : A -> eff S_ B) :
  silent m -> (forall a, silent (f a)) -> silent (x ← m; f x).
Proof.
  intros Hm Hf s x s' E. step E a s1 E1; [|by apply Hm in E1]. apply Hm in E1. apply Hf in E. congruence.
Qed.
Lemma silent_catch {A} (m : eff S_ A) cs f : silent m -> (forall e, silent (f e)) -> silent (catch m cs f).
Proof.
  intros Hm Hf s x s' E. unfold catch in E. destruct (m s) as [[a|e] s1] eqn:E1; apply Hm in E1.
  - by injection E as _ <-.
  - destruct (exn_in e cs); [apply Hf in E; congruence|by injection E as _ <-].
Qed.
Lemma silent_when b (m : eff S_ unit) : silent m -> silent (when b m).
Proof. destruct b; [done|]. intros _. apply silent_ret. Qed.
Lemma silent_suppress cs (m : eff S_ unit) : silent m -> silent (suppress cs m).
Proof. intros H. apply silent_catch; [done|]. intros. apply silent_ret. Qed.
End Silent.
#[export] Hint Resolve silent_ret silent_lift silent_throw silent_gets silent_ask silent_world silent_conns
  silent_when silent_suppress : silent.
(** Walk through a program that sends nothing. *)
Ltac silently :=
  repeat (cbv zeta; first
    [ solve [eauto with silent] | apply silent_bind; [|intros] | apply silent_catch; [|intros] | case_goal ]).

Section Manager.
Context {R : Type} `{RS : RedisServer R} (h : host R).
Context (token_urlsafe : nat -> string) (from_url : string -> result unit).
Context (reg : registry) (config : dict) (headers : option header_map) (consumed : consumed_t) (net : sdk).
Context (jsonschema_validate : dict -> value -> result unit).
Context (access_token : bool -> string -> dict -> eff (world R) (option string))
  (invalidate_access : string -> dict -> string -> eff (world R) unit).
Hypothesis others_later : forall n r, later r (others h n r).
Abbreviation S_ := (mcp_state R).
Abbreviation call_ := (call h token_urlsafe from_url reg config headers consumed net jsonschema_validate
                         access_token invalidate_access).

Lemma silent_pop k : silent (R := R) (pop k).
Proof. apply silent_conns. Qed.
#[local] Hint Resolve silent_pop : silent.
Lemma silent_headers emit name user : silent (_headers config access_token emit name user).
Proof. unfold _headers. silently. Qed.
Lemma silent_connection name user hs : silent (R := R) (_connection config net name user hs).
Proof.
  unfold _connection. silently.
  match goal with |- silent (modify (fun s => set_connections (connections s ++ ?l) s)) =>
    exact (silent_conns (fun c => c ++ l)) end.
Qed.
Lemma silent_gate name tool args t token :
  silent (gate h token_urlsafe from_url reg headers consumed name tool args t token).
Proof.
  intros s x s' E. unfold gate in E. destruct (_validate_mcp_approval _ _ _ _ _ _ _ _ _ _ _ _ _ _) as [[[v ms]|e] w];
    by injection E as _ <-.
Qed.
#[local] Hint Resolve silent_headers silent_connection silent_gate : silent.

(** A call leaves for the service at most once. *)
Lemma run_remote_sent name user tool args c hs s x s' :
  run_remote config net invalidate_access name user tool args c hs s = (x, s') ->
  m_sent s' = m_sent s \/ m_sent s' = Remote name user tool args :: m_sent s.
Proof.
  unfold run_remote. intros E. step E ready s1 E1; [|left; apply silent_ask in E1; congruence].
  apply silent_ask in E1. destruct ready; cbn [negb] in E; [|left; apply silent_throw in E; congruence].
  step E o s2 E2; [|by unfold send in E2]. right. unfold send in E2. injection E2 as _ <-.
  assert (G : forall k : eff S_ call_result, silent k -> k {| m_world := m_world s1; connections := connections s1;
    m_markers := m_markers s1; m_next := S (m_next s1); m_sent := Remote name user tool args :: m_sent s1 |} = (x, s') ->
    m_sent s' = Remote name user tool args :: m_sent s).
  { intros k Hk Ek. apply Hk in Ek. cbn [m_sent] in Ek. congruence. }
  eapply G; [|exact E]. destruct o; silently.
Qed.
(** What a call to [name]__[tool] that left for the service had to pass. *)
Definition passed (name tool : string) (args : dict) (full_name : string) : Prop :=
  exists c t group schemas token w0 w1,
    group_of config name = Ok group /\ _schemas name group (c_tools c) = Ok schemas /\
    full_name ∈ map schema_name schemas /\
    find_tool tool (c_tools c) = Some t /\ jsonschema_validate args (t_schema t) = Ok tt /\
    trusted_request_header_from_context (getenv h) headers "x-daedalus-approval-token" = Ok token /\
    authorised h reg headers consumed tool args (t_annotations t) name (Some token) None w0 w1.

Lemma gated_sent name user tool args t c hs s x s' :
  gated h token_urlsafe from_url reg config headers consumed net invalidate_access name user tool args t c hs s
    = (x, s') ->
  m_sent s' = m_sent s \/
  m_sent s' = Remote name user tool args :: m_sent s /\ exists token w0 w1,
    trusted_request_header_from_context (getenv h) headers "x-daedalus-approval-token" = Ok token /\
    authorised h reg headers consumed tool args (t_annotations t) name (Some token) None w0 w1.
Proof.
  unfold gated. intros E. step E token s1 E1; [|left; apply silent_lift in E1; congruence]. injection E1 as Et <-.
  step E v s2 E2; [|left; apply silent_gate in E2; congruence]. pose proof (silent_gate _ _ _ _ _ _ _ _ E2) as Hs.
  destruct v as [ok reason]. destruct ok; cbn [fst snd negb] in E.
  - apply run_remote_sent in E as [E|E]; [left; congruence|right]. split; [congruence|].
    unfold gate in E2. destruct (_validate_mcp_approval _ _ _ _ _ _ _ _ _ _ _ _ _ _) as [[[v ms]|e] w] eqn:Ev;
      [|done]. injection E2 as -> _.
    destruct (gate_authorised h token_urlsafe from_url others_later _ _ _ _ _ _ _ _ _ _ _ _ _ _ Ev) as [_ A].
    eauto.
  - left. assert (G : silent (ms ← gets m_markers;
      mret (Answer (refused reason (is_trusted_approval_marker reason ms))) : eff S_ call_result)) by silently.
    apply G in E. congruence.
Qed.

End Manager.
