(* ===== verification/ApprovalApi.v ===== *)
(** * Executing an approved call ([mcp_approval_api.py], [daedalus_runtime/executions.py])

    The execute route spends the credential of one pending approval and starts
    the call as a background execution whose record only its owner can read.
    Monotonic time is counted in milliseconds. *)
From S2P Require Import Prelude PyStr PyFloat PyVal Json JsonRoundtrip Redis PyUrl Sha World Trace.
From S2P Require Import Exploration Identity Tokens Policy Gate.
#[local] Open Scope Z_scope.

(** ** executions.py *)
Record execution := Execution {
  x_user : string; execution_id : string; status : string; created : Z;
  auth_url : value; oauth_state : value; x_result : option dict; x_error : option string;
  task_done : bool; first_outcome : bool }.
Definition set_status (st : string) (x : execution) : execution :=
  Execution (x_user x) (execution_id x) st (created x) (auth_url x) (oauth_state x) (x_result x)
    (x_error x) (task_done x) (first_outcome x).
Definition new_execution (user id : string) (now : Z) : execution :=
  Execution user id "running" now VNone VNone None None false false.
Definition payload (initial : bool) (x : execution) : dict :=
  [("executionId", VStr (execution_id x)); ("status", VStr (status x))] ++
  (if (status x =? "oauth_required")%string
   then [((if initial then "authUrl" else "auth_url"), auth_url x);
         ((if initial then "oauthState" else "oauth_state"), oauth_state x)] else []) ++
  match x_result x with Some r => [("result", VDict r)] | None => [] end ++
  match x_error x with Some e => if (e =? "")%string then [] else [("error", VStr e)] | None => [] end.

(** The records by execution id, oldest first. *)
Abbreviation records := (list (string * execution)).
Definition EXECUTION_TTL : Z := 3600 * 1000.
Definition EXECUTION_CAPACITY : nat := 1024.
Definition kept (now : Z) (x : execution) : bool := negb (task_done x) || (now - created x <? EXECUTION_TTL).
(** The outcome and the table, which keeps the pruning when it is full. *)
Definition start (user id : string) (now : Z) (rs : records) : result execution * records :=
  let rs := List.filter (fun kx => kept now (snd kx)) rs in
  if (EXECUTION_CAPACITY <=? length rs)%nat then (raise RuntimeError "Execution capacity reached", rs)
  else let x := new_execution user id now in (Ok x, assoc_set id x rs).

(** What the background task does to its record. *)
Inductive run_event :=
| Emitted (event : string) (data : dict)
| Called (outcome : dict)
| CallFailed
| Cancelled.
Definition CANCELLED_ERROR : string :=
  "The approved MCP operation was cancelled before it confirmed success. Check its current state before retrying.".
Definition FAILED_ERROR : string :=
  "The approved MCP operation did not confirm success. Check its current state before retrying.".
Definition ended (st : string) (r : option dict) (e : option string) (x : execution) : execution :=
  Execution (x_user x) (execution_id x) st (created x) (auth_url x) (oauth_state x)
    (match r with Some _ => r | None => x_result x end) (match e with Some _ => e | None => x_error x end)
    true true.
Definition receipt (server_name tool_name arguments_sha256 : string) (outcome : dict) : dict :=
  [("status", VStr "completed"); ("serverName", VStr server_name); ("toolName", VStr tool_name);
   ("argumentsSha256", VStr arguments_sha256); ("content", dget_or "content" (VStr "") outcome)].
Definition _run_step (server_name tool_name arguments_sha256 : string) (ev : run_event) (x : execution)
  : execution :=
  let failed := ended "failed" None (Some FAILED_ERROR) in
  if task_done x then x else
  match ev with
  | Emitted event data =>
      if negb (event =? "oauth_required")%string then x else
      let x := set_status "oauth_required" x in
      match dlookup "auth_url" data, dlookup "oauth_state" data with
      | Some a, Some o => Execution (x_user x) (execution_id x) (status x) (created x) a o (x_result x)
                            (x_error x) false true
      | _, _ => failed x
      end
  | Called outcome =>
      if truthy (dget "is_error" outcome) || truthy (dget "terminal" outcome) then failed x
      else ended "completed" (Some (receipt server_name tool_name arguments_sha256 outcome)) None x
  | CallFailed => failed x
  | Cancelled => ended "cancelled" None (Some CANCELLED_ERROR) x
  end.

(** ** The execute route *)
Record execute_body := Body {
  b_server : string; b_tool : string; b_arguments : string; b_sha256 : string }.
Definition is_hex (c : ascii) : bool := is_digit c || in_range 97 102 c.
(** The declared bounds, before the route runs. *)
Definition body_ok (b : execute_body) : bool :=
  (1 <=? ulen (b_server b)) && (ulen (b_server b) <=? 128) &&
  (1 <=? ulen (b_tool b)) && (ulen (b_tool b) <=? 128) &&
  (2 <=? ulen (b_arguments b)) && (ulen (b_arguments b) <=? 4000000) &&
  (blen (b_sha256 b) =? 64) && all_chars is_hex (b_sha256 b).
Definition http {A} (code : Z) (msg : string) : result A := raise (HTTPException code) msg.
Definition invalid_credential {A} : result A := http 409 "Exact MCP approval credential is missing or invalid".
(** The checks that need no credential. *)
Definition precheck (reg : registry) (groups : dict) (request_id : string) (b : execute_body) : result dict :=
  if (request_id =? "")%string || (128 <? ulen request_id) then http 400 "Invalid approval request ID" else
  match loads (b_arguments b) with
  | Raise _ => http 400 "Canonical MCP arguments are invalid"
  | Ok (VDict arguments) =>
      hash ← utf8_sha256 (b_arguments b);
      if negb (hash =? b_sha256 b)%string then http 409 "MCP arguments do not match their approved hash"
      else if _has_local_read_only_evidence reg (b_server b) (b_tool b)
      then http 409 "Direct execution is limited to approval-gated operations"
      else if contains (b_server b) "__" || (b_tool b =? "connect")%string || negb (dmem (b_server b) groups)
      then invalid_credential
      else Ok arguments
  | Ok _ => http 400 "MCP arguments must be an object"
  end.
Definition http_status (x : execution) : Z :=
  if (status x =? "completed")%string then 200 else if (status x =? "failed")%string then 422 else 202.

Section Route.
Context {R : Type} `{RS : RedisServer R} (h : host R).
Context (from_url : string -> result unit) (reg : registry) (groups : dict).
Abbreviation W := (world R).
Record started := Started { e_execution : execution; e_consumed : consumed_t; e_arguments : dict }.

Definition presented_for (user : string) (b : execute_body) : presented :=
  Presented user MUTATION "" (b_server b) (b_tool b) (b_sha256 b).
Definition check (user : string) (b : execute_body) (token : string) (consume : bool) : eff W bool :=
  v ← validate_approval_token h (presented_for user b) token None consume; mret (fst v).
(** Up to the start of the task, with the table of executions. *)
Definition authorize (headers : option header_map) (request_id : string) (b : execute_body) (token : string)
  : eff W (string * dict * consumed_t) :=
  user ← lift (authenticated_user_id_from_headers (getenv h) headers);
  arguments ← lift (precheck reg groups request_id b);
  _ ← approval_client h from_url;
  seen ← check user b token false;
  if negb seen then lift invalid_credential else
  spent ← check user b token true;
  if negb spent then lift invalid_credential else
  scope ← lift (consumed_execution_scope reg user (b_server b) (b_tool b) arguments);
  mret (user, arguments, scope).
Definition execute (headers : option header_map) (request_id : string) (b : execute_body) (token : string)
    (id : string) (now : Z) (rs : records) : eff W (started * records) :=
  '(user, arguments, scope) ← authorize headers request_id b token;
  let '(x, rs) := start user id now rs in
  x ← lift x;
  mret (Started x scope arguments, rs).
(** The reply once the first outcome, or 130 seconds, have passed. *)
Definition execute_reply (x : execution) : Z * dict := (http_status x, payload true x).
Definition get_execution (headers : option header_map) (rs : records) (id : string) : result dict :=
  match assoc id rs with
  | None => http 404 "Execution not found"
  | Some x =>
      user ← authenticated_user_id_from_headers (getenv h) headers;
      if (x_user x =? user)%string then Ok (payload false x) else http 404 "Execution not found"
  end.
End Route.

(** ** Laws of approved executions

    An execution starts only on a spent credential, for the call it approves;
    records move forward only. *)
(** ** The name of the executed operation *)
Lemma startswith_two c s : startswith (String c s) "__" = true <-> c = "_"%char /\ startswith s "_" = true.
Proof.
  unfold startswith. cbn [strip_prefix]. destruct (Ascii.eqb_spec "_"%char c) as [<-|Hc]; [|naive_solver].
  destruct (strip_prefix "_" s); naive_solver.
Qed.
(** The task calls ["{server}__{tool}"], which the manager splits again. *)
Lemma cut_underscores server tool :
  contains server "__" = false -> endswith server "_" = false ->
  cut (server +++ "__" +++ tool) "__" = Some (server, tool).
Proof.
  induction server as [|c s IH]; intros Hc He; [done|].
  cbn [contains] in Hc. apply orb_false_iff in Hc as [Hs Hc]. cbn [endswith] in He. apply orb_false_iff in He as [H1 He].
  change (String c s +++ "__" +++ tool) with (String c (s +++ "__" +++ tool)). cbn [cut]. rewrite (IH Hc He).
  assert (N : startswith (String c (s +++ "__" +++ tool)) "__" = false).
  { apply not_true_iff_false. intros [-> H]%startswith_two. destruct s as [|d s]; [done|].
    cbn in H. apply not_true_iff_false in Hs. apply Hs, startswith_two. split; [done|].
    unfold startswith in *. cbn [strip_prefix] in *. destruct (Ascii.eqb "_" d); done. }
  unfold startswith in N. by destruct (strip_prefix "__" _).
Qed.
(** A trailing underscore moves to the tool. *)
Example cut_trailing : cut ("docs_" +++ "__" +++ "get") "__" = Some ("docs", "_get").
Proof. vm_compute. reflexivity. Qed.

Section Route.
Context {R : Type} `{RS : RedisServer R} (h : host R).
Context (from_url : string -> result unit) (reg : registry) (groups : dict).
Hypothesis others_later : forall n r, later r (others h n r).
Abbreviation W := (world R).

(** [GETDEL] took, in the last round trip, a record that proves [q]. *)
Definition spent_last (token : string) (q : presented) (w' : W) : Prop :=
  exists t raw rest, w_log w' = t :: rest /\ t_kind t = TCmd (GETDEL (approval_token_key (p_user q) token)) /\
    kval (approval_token_key (p_user q) token) (t_before t) = Some (RStr raw) /\
    t_after t = delete (approval_token_key (p_user q) token) (t_before t) /\ proves q None raw.
Lemma check_spent user b token w w' :
  check h user b token true w = (Ok true, w') -> spent_last token (presented_for user b) w'.
Proof.
  unfold check. intros E. step E v w1 E1; [|done]. destruct v as [ok msg]. injection E as Hok <-.
  cbn [fst] in Hok. subst ok. apply (approval_is_exact_and_spent h others_later) in E1 as (t & raw & ? & ? & ? & ? & ?).
  exists t, raw, (w_log w). auto.
Qed.
Lemma precheck_ok request_id b args :
  precheck reg groups request_id b = Ok args ->
  loads (b_arguments b) = Ok (VDict args) /\ utf8_sha256 (b_arguments b) = Ok (b_sha256 b) /\
  _has_local_read_only_evidence reg (b_server b) (b_tool b) = false /\
  contains (b_server b) "__" = false /\ b_tool b <> "connect" /\ dmem (b_server b) groups = true.
Proof.
  unfold precheck. destruct (_ || _)%bool; [done|].
  destruct (loads (b_arguments b)) as [[| | | | | |d]|]; try done. intros E. apply bind_ok in E as (hash & Eh & E).
  destruct (String.eqb_spec hash (b_sha256 b)) as [<-|]; [cbn [negb] in E|done].
  destruct (_has_local_read_only_evidence _ _ _); [done|].
  destruct (contains (b_server b) "__"); [done|]. destruct (String.eqb_spec (b_tool b) "connect"); [done|].
  destruct (dmem (b_server b) groups); [|done]. cbn in E. injection E as ->. auto 10.
Qed.
Lemma authorize_ok headers request_id b token w user args scope w' :
  authorize h from_url reg groups headers request_id b token w = (Ok (user, args, scope), w') ->
  authenticated_user_id_from_headers (getenv h) headers = Ok user /\
  precheck reg groups request_id b = Ok args /\ spent_last token (presented_for user b) w' /\
  consumed_execution_scope reg user (b_server b) (b_tool b) args = Ok scope.
Proof.
  unfold authorize. intros E. step E u w1 E1; [|done]. injection E1 as Eu <-.
  step E a w1 E1; [|done]. injection E1 as Ea <-. step E c w1 E1; [|done]. step E seen w2 E2; [|done].
  destruct seen; [|done]. cbn [negb] in E. step E spent w3 E3; [|done]. destruct spent; [|done]. cbn [negb] in E.
  unfold mbind, eff_bind, lift in E. destruct (consumed_execution_scope _ _ _ _ _) as [sc|] eqn:Es; [|done].
  injection E as <- <- <- <-.
  split_and!; [done..| |done]. by eapply check_spent.
Qed.

(** C21: An execution starts only for the call that was approved: when the route
    starts one, its caller is the trusted user, its last round trip atomically
    took that user's credential -- the record proves user, server, tool and the
    hash of the argument text sent -- the operation is not a read-only one, and
    the scope under which the call runs lets the gate approve exactly these
    arguments of this tool on this server; the name the task calls splits into
    that server and tool again unless the server ends in an underscore. *)
Theorem execution_spends_its_credential headers request_id b token id now rs w st rs' w' :
  execute h from_url reg groups headers request_id b token id now rs w = (Ok (st, rs'), w') ->
  exists user canonical hash,
    authenticated_user_id_from_headers (getenv h) headers = Ok user /\
    x_user (e_execution st) = user /\ loads (b_arguments b) = Ok (VDict (e_arguments st)) /\
    utf8_sha256 (b_arguments b) = Ok (b_sha256 b) /\ spent_last token (presented_for user b) w' /\
    _has_local_read_only_evidence reg (b_server b) (b_tool b) = false /\
    _canonical_mcp_call (e_arguments st) None = Ok (canonical, hash) /\
    e_consumed st = Some (user, fst (_mcp_policy_target reg (b_server b) (b_tool b)),
                          snd (_mcp_policy_target reg (b_server b) (b_tool b)), hash) /\
    (endswith (b_server b) "_" = false ->
       cut (b_server b +++ "__" +++ b_tool b) "__" = Some (b_server b, b_tool b)) /\
    forall c, e_consumed st = Some c ->
      match_consumed reg c user (b_tool b) (e_arguments st) (b_server b) None = (true, APPROVED).
Proof.
  unfold execute. intros E. step E a w1 E1; [|done]. destruct a as [[user args] scope].
  apply authorize_ok in E1 as (Hu & Hp & Hs & Hc). unfold start in E. cbv zeta in E.
  destruct (EXECUTION_CAPACITY <=? _)%nat; [by step E x w2 E2|]. step E x w2 E2; [|done].
  injection E2 as <- <-. injection E as <- _ <-. cbn [e_execution e_arguments e_consumed].
  apply precheck_ok in Hp as (? & ? & ? & Hn & _). unfold consumed_execution_scope in Hc.
  destruct (_mcp_policy_target reg (b_server b) (b_tool b)) as [srv tl] eqn:Et.
  apply bind_ok in Hc as ([canonical hash] & Ec & Hc). injection Hc as <-.
  exists user, canonical, hash. split_and!; try done; [by apply cut_underscores|]. intros c [= <-]. unfold match_consumed.
  rewrite Et, Ec, bool_decide_eq_true_2; done.
Qed.
End Route.

(** ** Records *)
Definition run_events (server tool hash : string) (evs : list run_event) (x : execution) : execution :=
  fold_left (fun x ev => _run_step server tool hash ev x) evs x.
Definition confirms (outcome : dict) : Prop :=
  truthy (dget "is_error" outcome) = false /\ truthy (dget "terminal" outcome) = false.
(** What the events so far have made of a record. *)
Definition sound_record (server tool hash : string) (evs : list run_event) (x : execution) : Prop :=
  (task_done x = false /\ (status x = "running" \/ status x = "oauth_required") /\
     x_result x = None /\ x_error x = None) \/
  (task_done x = true /\ first_outcome x = true /\
     ((status x = "completed" /\ x_error x = None /\ exists outcome, Called outcome ∈ evs /\ confirms outcome /\
         x_result x = Some (receipt server tool hash outcome)) \/
      (status x = "failed" /\ x_result x = None /\ x_error x = Some FAILED_ERROR) \/
      (status x = "cancelled" /\ x_result x = None /\ x_error x = Some CANCELLED_ERROR))).
Lemma run_events_done server tool hash evs x : task_done x = true -> run_events server tool hash evs x = x.
Proof.
  intros H. induction evs as [|ev evs IH]; [done|]. cbn. unfold _run_step at 2. cbv zeta. by rewrite H.
Qed.
Lemma step_sound server tool hash evs ev x :
  sound_record server tool hash evs x -> sound_record server tool hash (evs ++ [ev]) (_run_step server tool hash ev x).
Proof.
  intros [(Hd & Hs & Hr & He)|(Hd & Hf & Hs)]; unfold _run_step; cbv zeta; rewrite Hd.
  2:{ right. split_and!; [done..|]. destruct Hs as [(? & ? & o & ? & ? & ?)|Hs]; [left|by right].
      split_and!; [done..|]. exists o. set_solver. }
  assert (F : forall e, sound_record server tool hash e (ended "failed" None (Some FAILED_ERROR) x)).
  { intros e. right. cbn. rewrite Hr. auto 10. }
  destruct ev as [event data|outcome| |].
  - case_goal; [by left|]. repeat case_goal; [|by apply F..]. left. cbn. auto.
  - destruct (truthy (dget "is_error" outcome)) eqn:E1; [apply F|].
    destruct (truthy (dget "terminal" outcome)) eqn:E2; [apply F|]. cbn [orb]. right. cbn. split_and!; [done..|].
    left. split_and!; [done..|]. exists outcome. split; [set_solver|]. done.
  - apply F.
  - right. cbn. rewrite Hr. auto 10.
Qed.

Lemma step_owner server tool hash ev x :
  x_user (_run_step server tool hash ev x) = x_user x /\
  execution_id (_run_step server tool hash ev x) = execution_id x.
Proof. unfold _run_step. repeat case_goal; done. Qed.
Lemma run_owner server tool hash evs x :
  x_user (run_events server tool hash evs x) = x_user x /\
  execution_id (run_events server tool hash evs x) = execution_id x.
Proof.
  revert x. induction evs as [|ev evs IH]; intros x; [done|]. cbn.
  destruct (IH (_run_step server tool hash ev x)) as [H1 H2], (step_owner server tool hash ev x) as [H3 H4].
  unfold run_events in *. split; congruence.
Qed.

(** Records tell the truth and end once: whatever a background task does,
    its record is running or waiting for the user without a result or error,
    or finished for good -- as completed only when the call returned an outcome
    that is neither an error nor terminal, and then with that outcome's
    receipt; as failed or cancelled with the matching text and no result. *)
Theorem execution_record_sound server tool hash user id now evs more :
  let x := run_events server tool hash evs (new_execution user id now) in
  sound_record server tool hash evs x /\
  x_user x = user /\ execution_id x = id /\
  (task_done x = true -> run_events server tool hash (evs ++ more) (new_execution user id now) = x).
Proof.
  cbv zeta. destruct (run_owner server tool hash evs (new_execution user id now)) as [Hu Hi].
  split_and!; [|done|done|].
  - induction evs as [|ev evs IH] using rev_ind; [by left; auto|].
    unfold run_events in *. rewrite fold_left_app. cbn [fold_left]. apply step_sound, IH;
      by destruct (run_owner server tool hash evs (new_execution user id now)).
  - intros H. unfold run_events. rewrite fold_left_app. by apply run_events_done.
Qed.
