(* ===== verification/Idempotency.v ===== *)
(** * Idempotency of autonomous writes ([nat_helpers/idempotency.py], [redis_url.py])

    A local write of an autonomous run is reserved in Redis before its side
    effect: the first caller for one user, execution, operation and arguments
    owns it, everybody else gets the stored receipt.  Redis's own JSON decoder
    is a parameter. *)
From S2P Require Import Prelude PyStr PyFloat PyVal Json JsonRoundtrip Redis PyUrl Sha World Trace Identity.
From S2P Require Import Tokens.
#[local] Open Scope Z_scope.

(** ** redis_url.py *)
Definition DEFAULT_REDIS_URL : string := "redis://daedalus-redis.daedalus.svc.cluster.local".
(** The schemes Redis accepts have no path parameters, so [urlparse] splits as [urlsplit]. *)
Definition redis_url_from_env (getenv : string -> option string) : result string :=
  let raw := strip (default DEFAULT_REDIS_URL (getenv "REDIS_URL")) in
  let p := strip (default "" (getenv "REDIS_PORT")) in
  parsed ← urlsplit raw;
  if (p =? "")%string || (u_scheme parsed =? "")%string || bool_decide (hostname parsed = None) then Ok raw else
  existing ← port parsed;
  Ok (match existing with
      | None => unsplit (u_scheme parsed) (u_netloc parsed +++ ":" +++ p) (u_path parsed) (u_query parsed)
                  (u_fragment parsed)
      | Some _ => raw
      end).

(** ** Keys *)
Definition canonical_arguments_sha256 (arguments : value) : result string :=
  utf8_sha256 (dumps_with canonical_opts arguments).
Definition operation_key (user_id execution_id operation arguments_sha256 : string) : result string :=
  u ← utf8_sha256 user_id;
  e ← utf8_sha256 execution_id;
  o ← utf8_sha256 operation;
  Ok ("daedalus:idempotency:v1:" +++ u +++ ":" +++ e +++ ":" +++ o +++ ":" +++ arguments_sha256).

Record Reservation := Reserve {
  r_key : string; owner_token : option string; state : string; stored_result : option string;
  r_contract : option string }.
Definition acquired (r : Reservation) : bool :=
  match owner_token r with Some _ => (state r =? "in_progress")%string | None => false end.
Definition refuse (key st : string) (stored : option string) : Reservation := Reserve key None st stored None.

Definition compact : opts := Opts true "," ":" true None.
Definition pending_record (owner hash : string) (contract : option string) : dict :=
  [("state", VStr "in_progress"); ("owner", VStr owner); ("arguments_sha256", VStr hash)] ++
  match contract with Some c => [("contract", VStr c)] | None => [] end.
Definition completed_record (result : string) (contract : option string) : dict :=
  [("state", VStr "completed"); ("result", VStr result)] ++
  match contract with Some c => [("contract", VStr c)] | None => [] end.
(** A stored receipt for another caller. *)
Definition receipt_of (key : string) (existing : dict) : Reservation :=
  refuse key (py_str (vor (dget "state" existing) (VStr "invalid")))
    (match dget "result" existing with VStr s => Some s | _ => None end).

Section Operations.
Context {R : Type} `{RS : RedisServer R} (h : host R).
Context (token_urlsafe : nat -> string) (from_url : string -> result unit).
(** [cjson.decode] in a script; it raises on what it cannot read. *)
Context (cjson_decode : string -> result value).
Abbreviation W := (world R).

Definition _ttl_seconds : result Z :=
  z ← py_int (VStr (default "604800" (getenv h "AUTONOMY_IDEMPOTENCY_TTL_SECONDS"))); Ok (Z.max 3600 z).
Definition redis_client : eff W unit := lift (url ← redis_url_from_env (getenv h); from_url url).

(** The script that checks an old receipt and reserves: whether it reserved,
    the key that decided and what that key holds. *)
Definition lua_reserve (key legacy_key payload legacy_raw : string) (ttl : Z) (marked : bool)
  : eff R (bool * string * string) :=
  current ← call (GET key);
  match current with
  | RText c => mret (false, key, c)
  | _ =>
      legacy ← call (GET legacy_key);
      match legacy with
      | RText l =>
          if negb marked || negb (l =? legacy_raw)%string then mret (false, legacy_key, l)
          else _ ← call (SETEX key ttl payload); mret (true, key, "")
      | _ => _ ← call (SETEX key ttl payload); mret (true, key, "")
      end
  end.
(** One attempt: whether it acquired, the deciding key, what it holds. *)
Definition reserve_attempt (key : string) (legacy_key : option string) (payload : string)
    (contract : option string) : eff W (bool * string * option string) :=
  match legacy_key with
  | Some lk =>
      raw ← redis h (GET lk);
      let legacy_raw := match raw with RText s => s | _ => "" end in
      let marked := match loads legacy_raw, contract with
                    | Ok (VDict d), Some c => py_eq (dget "contract" d) (VStr c)
                    | _, _ => false
                    end in
      ttl ← lift _ttl_seconds;
      '(ok, k, raw) ← eval h "reserve" [payload; legacy_raw]
                        (lua_reserve key lk payload legacy_raw ttl marked);
      mret (ok, k, Some raw)
  | None =>
      ttl ← lift _ttl_seconds;
      x ← redis h (SETNXEX key payload ttl);
      match x with
      | RNil => y ← redis h (GET key); mret (false, key, match y with RText s => Some s | _ => None end)
      | _ => mret (true, key, None)
      end
  end.
(** What an attempt's answer means; [None] asks for another attempt. *)
Definition attempt_result (key owner : string) (contract : option string)
    (a : bool * string * option string) : result (option Reservation) :=
  let '(ok, existing_key, raw) := a in
  if ok : bool then Ok (Some (Reserve key (Some owner) "in_progress" None contract)) else
  match raw with
  | None => Ok None
  | Some s =>
      if (s =? "")%string then Ok None else
      match loads s with
      | Raise _ => Ok (Some (refuse existing_key "invalid" None))
      | Ok (VDict existing) =>
          if negb (existing_key =? key)%string &&
             py_eq (dget "contract" existing) (match contract with Some c => VStr c | None => VNone end)
          then Ok None else Ok (Some (receipt_of existing_key existing))
      | Ok _ => raise AttributeError "object has no attribute 'get'"
      end
  end.
Fixpoint reserve_loop (n : nat) (key owner : string) (legacy_key : option string) (payload : string)
    (contract : option string) : eff W Reservation :=
  match n with
  | O => mret (refuse key "in_progress" None)
  | S n =>
      a ← reserve_attempt key legacy_key payload contract;
      r ← lift (attempt_result key owner contract a);
      match r with Some r => mret r | None => reserve_loop n key owner legacy_key payload contract end
  end.
Definition reserve_operation (user_id execution_id operation : string) (arguments : value)
    (contract : option string) (legacy_arguments : option value) : eff W Reservation :=
  hash ← lift (canonical_arguments_sha256 arguments);
  key ← lift (operation_key user_id execution_id operation hash);
  owner ← fresh_token h token_urlsafe;
  legacy_key ← lift (match legacy_arguments with
                     | None => Ok None
                     | Some l =>
                         if (default "" contract =? "")%string
                         then raise ValueError "A legacy reservation requires a contract marker"
                         else lh ← canonical_arguments_sha256 l;
                              k ← operation_key user_id execution_id operation lh; Ok (Some k)
                     end);
  _ ← redis_client;
  reserve_loop 2 key owner legacy_key (dumps_with compact (VDict (pending_record owner hash contract))) contract.

(** Completion is by the owner only. *)
Definition lua_complete_operation (key owner completed : string) (ttl : Z) : eff R bool :=
  current ← call (GET key);
  match current with
  | RText c =>
      decoded ← lift (cjson_decode c);
      match decoded with
      | VDict d =>
          if negb (py_eq (dget "state" d) (VStr "in_progress")) || negb (py_eq (dget "owner" d) (VStr owner))
          then mret false
          else _ ← call (SETEX key ttl completed); mret true
      | VList _ => mret false
      | _ => throw ResponseError "attempt to index a non-table value"
      end
  | _ => mret false
  end.
Definition complete_operation (r : Reservation) (result : string) : eff W bool :=
  match owner_token r with
  | Some owner =>
      if negb (acquired r) || (owner =? "")%string then mret false else
      _ ← redis_client;
      ttl ← lift _ttl_seconds;
      let completed := dumps_with compact (VDict (completed_record result (r_contract r))) in
      eval h "complete" [owner; completed] (lua_complete_operation (r_key r) owner completed ttl)
  | None => mret false
  end.
End Operations.

(** ** Laws of idempotent writes

    At most one caller owns a reservation, an old receipt blocks a corrected
    request unless it is the marked default, and a completed write answers
    every later caller with its receipt. *)
Section Server.
Context {R : Type} `{RS : RedisServer R}.
Abbreviation W := (world R).
Abbreviation sem := (spec json_render json_module).

Definition held (k : string) (r : R) : Prop := keyspace r !! k <> None.
(** The receipt neither expires nor is deleted by others. *)
Definition stays (k : string) (h : host R) : Prop := forall n r, held k r -> held k (others h n r).

Lemma rt_ok h {A} kd (f : eff R A) w a w' :
  round_trip h kd f w = (Ok a, w') -> exists r0, r0 = others h (trips w) (srv w) /\ f r0 = (Ok a, srv w').
Proof.
  unfold round_trip. destruct (link h (trips w)); [|done..].
  destruct (f (others h (trips w) (srv w))) as [y r1] eqn:E. intros H. injection H as -> <-. eauto.
Qed.
(** A round trip whose work keeps the key, in a world where others keep it. *)
Lemma rt_stays h {A} k kd (f : eff R A) w x w' :
  stays k h -> (forall r, held k r -> held k (snd (f r))) ->
  round_trip h kd f w = (x, w') -> held k (srv w) -> held k (srv w').
Proof.
  intros Hs Hf E Hp. apply (Hs (trips w)) in Hp. unfold round_trip in E.
  destruct (link h (trips w)).
  - specialize (Hf _ Hp). destruct (f _) as [y r1]. injection E as _ <-. done.
  - injection E as _ <-. done.
  - injection E as _ <-. cbn. by apply Hf.
Qed.
Lemma set_present k ttl v m : snd (sem (SETEX k ttl v) m) !! k <> None.
Proof. cbn. by rewrite lookup_insert_eq. Qed.
Lemma get_keeps c r : read_only c = true -> keyspace (snd (run c r)) = keyspace r.
Proof. intros H. rewrite run_keys. by apply read_only_spec. Qed.
Lemma setnx_present k v ttl m : snd (sem (SETNXEX k v ttl) m) !! k <> None.
Proof. cbn. destruct (m !! k) eqn:E; cbn; [congruence|]. by rewrite lookup_insert_eq. Qed.
Lemma setnx_other k k' v ttl m : m !! k <> None -> snd (sem (SETNXEX k' v ttl) m) !! k <> None.
Proof.
  intros H. cbn. destruct (m !! k') eqn:E; cbn; [done|].
  destruct (decide (k' = k)) as [->|]; [by rewrite lookup_insert_eq|by rewrite lookup_insert_ne].
Qed.
Lemma setex_other k k' v ttl m : m !! k <> None -> snd (sem (SETEX k' ttl v) m) !! k <> None.
Proof.
  intros H. cbn. destruct (decide (k' = k)) as [->|]; [by rewrite lookup_insert_eq|by rewrite lookup_insert_ne].
Qed.

(** ** The reserving script *)
Lemma get_run k r : run (GET k) r = (x ← kstr k (keyspace r); Ok (of_opt x), snd (run (GET k) r)) /\
  keyspace (snd (run (GET k) r)) = keyspace r.
Proof.
  pose proof (run_reply (GET k) r) as H. split; [|by apply get_keeps].
  destruct (run (GET k) r) as [x r']. cbn in H. by subst x.
Qed.
Lemma kstr_absent k m : kstr k m = Ok None -> m !! k = None.
Proof. unfold kstr, kval. destruct (m !! k) as [[[]]|]; done. Qed.
(** The script acquires exactly when the key is free and the old receipt is
    absent or the very one that was read and marked. *)
Definition may_reserve (key legacy_key legacy_raw : string) (marked : bool) (m : keys_t) : Prop :=
  m !! key = None /\
  (m !! legacy_key = None \/ marked = true /\ kval legacy_key m = Some (RStr legacy_raw)).
Lemma lua_reserve_spec key lk payload legacy_raw ttl marked r x r' :
  lua_reserve key lk payload legacy_raw ttl marked r = (x, r') ->
  (exists k, x = Ok (true, key, k) /\ may_reserve key lk legacy_raw marked (keyspace r) /\
     keyspace r' = <[key := Entry (RStr payload) (Some ttl)]> (keyspace r)) \/
  ((forall k c, x <> Ok (true, k, c)) /\ keyspace r' = keyspace r).
Proof.
  unfold lua_reserve. intros E. destruct (get_run key r) as [G1 K1].
  assert (Sx : forall r1 z, keyspace r1 = keyspace r ->
    ((_ ← call (SETEX key ttl payload); mret (true, key, "")) : eff R (bool * string * string)) r1 = (x, z) ->
    x = Ok (true, key, "") /\ keyspace z = <[key := Entry (RStr payload) (Some ttl)]> (keyspace r)).
  { intros r1 z Hk Ez. unfold call, mbind, eff_bind in Ez. pose proof (run_reply (SETEX key ttl payload) r1) as Hr.
    pose proof (run_keys (SETEX key ttl payload) r1) as Hks. destruct (run (SETEX key ttl payload) r1) as [y r2].
    cbn in Hr, Hks. subst y. injection Ez as <- <-. by rewrite Hks, Hk. }
  step E c r1 E1; unfold call in E1.
  2:{ right. split; [done|]. rewrite G1 in E1. injection E1 as _ <-. done. }
  rewrite G1 in E1. injection E1 as Ec Er. rewrite Er in K1. clear G1.
  destruct (kstr key (keyspace r)) as [[cur|]|] eqn:Ek; cbn in Ec; try done; injection Ec as <-; cbn [of_opt] in E.
  { injection E as <- <-. right. split; [intros ? ? [=]|done]. }
  apply kstr_absent in Ek. step E l r2 E2; destruct (get_run lk r1) as [G2 K2]; unfold call in E2; rewrite G2 in E2.
  2:{ right. split; [done|]. injection E2 as _ <-. by rewrite K2. }
  injection E2 as El Er2. rewrite Er2, K1 in K2.
  rewrite K1 in El. destruct (kstr lk (keyspace r)) as [[lv|]|] eqn:Elk; cbn in El; try done; injection El as <-;
    cbn [of_opt] in E.
  - destruct marked; cbn [negb orb] in E; [|injection E as <- <-; right; split; [intros ? ? [=]|done]].
    destruct (String.eqb_spec lv legacy_raw) as [->|]; cbn [negb] in E;
      [|injection E as <- <-; right; split; [intros ? ? [=]|done]].
    apply Sx in E as [-> Hk]; [|done]. left. eexists. split; [done|]. split; [|done]. split; [done|]. right.
    split; [done|]. unfold kstr in Elk. destruct (kval lk (keyspace r)) as [[]|]; naive_solver.
  - apply Sx in E as [-> Hk]; [|done]. left. eexists. split; [done|]. split; [|done]. split; [done|]. left.
    by apply kstr_absent.
Qed.

(** ** Winning a key

    [guards key h m won]: where others keep the key, [m] keeps it and has no
    winning result once it is there; a winning result leaves it there. *)
Definition guards {A} (key : string) (h : host R) (m : eff W A) (won : A -> bool) : Prop :=
  forall w x w', m w = (x, w') ->
    (stays key h -> held key (srv w) -> held key (srv w') /\ forall a, x = Ok a -> won a = false) /\
    (forall a, x = Ok a -> won a = true -> held key (srv w')).
Abbreviation nobody := (fun _ => false).

Lemma guards_lift {A} key h (r : result A) won :
  (forall a, r = Ok a -> won a = false) -> guards key h (lift r) won.
Proof. intros H w x w' E. injection E as <- <-. split; [by auto|]. intros a Ha Hw. rewrite H in Hw; done. Qed.
Lemma guards_ret {A} key h (a : A) won : won a = false -> guards key h (mret a) won.
Proof. intros H. apply (guards_lift key h (Ok a)). by intros ? [= <-]. Qed.
Lemma guards_bind {A B} key h (m : eff W A) (f : A -> eff W B) won1 won :
  guards key h m won1 -> (forall a, won1 a = true -> exists b, f a = mret b) ->
  (forall a, won1 a = false -> guards key h (f a) won) -> guards key h (x ← m; f x) won.
Proof.
  intros Hm Hw Hf w x w' E. step E a w1 E1.
  2:{ apply Hm in E1 as [H1 _]. split; [|done]. intros Hs Hp. split; [by apply H1|done]. }
  apply Hm in E1 as [H1 H2]. destruct (won1 a) eqn:Ea.
  - destruct (Hw a Ea) as [b Hb]. rewrite Hb in E. injection E as <- <-. specialize (H2 a eq_refl Ea).
    split; [|done]. intros Hs Hp. destruct (H1 Hs Hp) as [_ Hn]. by rewrite (Hn a eq_refl) in Ea.
  - apply Hf in E as [E F]; [|done]. split; [|done]. intros Hs Hp. apply E; [done|]. by apply H1.
Qed.
Lemma guards_then {A B} key h (m : eff W A) (f : A -> eff W B) won :
  guards key h m nobody -> (forall a, guards key h (f a) won) -> guards key h (x ← m; f x) won.
Proof. intros Hm Hf. eapply guards_bind; [exact Hm|done|]. intros a _. apply Hf. Qed.
Lemma guards_trip {A} key h kd (f : eff R A) won :
  (forall r, held key r -> held key (snd (f r)) /\ forall a, fst (f r) = Ok a -> won a = false) ->
  (forall r a r', f r = (Ok a, r') -> won a = true -> held key r') ->
  guards key h (round_trip h kd f) won.
Proof.
  intros Hp Hw w x w' E. split.
  - intros Hs Hk. split; [eapply rt_stays; [exact Hs| |exact E|done]; intros r Hr; by apply Hp|].
    intros a ->. apply rt_ok in E as (r0 & -> & Ef). apply (Hs (trips w)) in Hk. apply Hp in Hk as [_ Hk].
    apply Hk. by rewrite Ef.
  - intros a -> Ha. apply rt_ok in E as (r0 & _ & Ef). by eapply Hw.
Qed.
Lemma guards_read key h c : read_only c = true -> guards key h (redis h c) nobody.
Proof.
  intros Hc. apply guards_trip; [|done]. intros r Hr. unfold held, call. by rewrite get_keeps.
Qed.

(** ** Attempts *)
Lemma guards_setnx key h payload ttl :
  guards key h (redis h (SETNXEX key payload ttl)) (fun y => match y with RNil => false | _ => true end).
Proof.
  apply guards_trip.
  - intros r Hr. split; [unfold held, call; rewrite run_keys; by apply setnx_other|].
    intros y. unfold call. rewrite run_reply. cbn. unfold held in Hr.
    destruct (keyspace r !! key); [|done]. by intros [= <-].
  - intros r y r' E _. pose proof (run_keys (SETNXEX key payload ttl) r) as Hk. unfold call in E. rewrite E in Hk.
    unfold held. cbn [snd] in Hk. rewrite Hk. apply setnx_present.
Qed.
Lemma guards_script key h name argv lk payload raw ttl marked :
  guards key h (eval h name argv (lua_reserve key lk payload raw ttl marked)) (fun v => fst (fst v)).
Proof.
  apply guards_trip.
  - intros r Hr. destruct (lua_reserve key lk payload raw ttl marked r) as [x r'] eqn:E.
    apply lua_reserve_spec in E as [(? & _ & [Hf _] & _)|[Hn H]]; [done|].
    unfold held. cbn [fst snd]. rewrite H. split; [done|]. intros [[[] k] c] ->; [by destruct (Hn k c)|done].
  - intros r [[ok k] c] r' E Hok. cbn in Hok. subst ok.
    apply lua_reserve_spec in E as [(? & _ & _ & H)|[Hn _]]; [|by destruct (Hn k c)].
    unfold held. rewrite H. by rewrite lookup_insert_eq.
Qed.
Lemma guards_attempt key h lk payload contract :
  guards key h (reserve_attempt h key lk payload contract) (fun v => fst (fst v)).
Proof.
  unfold reserve_attempt. destruct lk as [lk|].
  - apply guards_then; [by apply guards_read|]. intros raw. cbv zeta.
    apply guards_then; [by apply guards_lift|]. intros ttl.
    eapply guards_bind; [apply guards_script| |].
    + intros [[ok k] c] _. eauto.
    + intros [[ok k] c] Hok. cbn in Hok. subst ok. by apply guards_ret.
  - apply guards_then; [by apply guards_lift|]. intros ttl.
    eapply guards_bind; [apply guards_setnx| |].
    + intros [] Hy; try done; eauto.
    + intros [] Hy; try done. apply guards_then; [by apply guards_read|]. intros y. by apply guards_ret.
Qed.
(** Only an acquiring attempt makes an acquired reservation. *)
Lemma attempt_result_acquired key owner contract a r :
  attempt_result key owner contract a = Ok (Some r) -> acquired r = true -> fst (fst a) = true.
Proof.
  destruct a as [[[] k] c]; [done|]. unfold attempt_result. intros E Hr.
  repeat case_hyp E; try discriminate E; injection E as <-; discriminate Hr.
Qed.
Lemma attempt_result_total key owner contract a :
  fst (fst a) = true -> exists r, attempt_result key owner contract a = Ok (Some r).
Proof. destruct a as [[[] k] c]; [|done]. cbn. eauto. Qed.
Lemma guards_loop key h n owner lk payload contract :
  guards key h (reserve_loop h n key owner lk payload contract) acquired.
Proof.
  induction n as [|n IH]; cbn [reserve_loop]; [by apply guards_ret|].
  eapply guards_bind; [apply guards_attempt| |].
  - intros a Ha. destruct (attempt_result_total key owner contract a Ha) as [r ->]. by exists r.
  - intros a Ha. destruct (attempt_result key owner contract a) as [[r|]|] eqn:Er.
    + apply (guards_ret key h r). apply not_true_iff_false. intros Hr.
      apply (attempt_result_acquired key owner contract a r) in Hr; [congruence|done].
    + apply IH.
    + by apply (guards_lift key h (Raise e)).
Qed.
(** The key of an operation. *)
Definition key_of (user execution operation : string) (arguments : value) : result string :=
  hash ← canonical_arguments_sha256 arguments; operation_key user execution operation hash.
Lemma guards_reserve key h token_urlsafe from_url user execution operation arguments contract legacy :
  key_of user execution operation arguments = Ok key ->
  guards key h (reserve_operation h token_urlsafe from_url user execution operation arguments contract legacy)
    acquired.
Proof.
  intros Hk. unfold key_of in Hk. apply bind_ok in Hk as (hash & Eh & Ek).
  intros w x w' E. unfold reserve_operation in E. rewrite Eh in E. step E hh w1 E1; [|done].
  injection E1 as <- <-. rewrite Ek in E. step E kk w1 E1; [|done]. injection E1 as <- <-. revert w x w' E.
  match goal with |- forall w x w', ?m w = _ -> _ => change (guards key h m acquired) end.
  apply guards_then; [by intros w x w' [= <- <-]|]. intros owner. apply guards_then; [by apply guards_lift|].
  intros lk. apply guards_then; [by apply guards_lift|]. intros _. apply guards_loop.
Qed.

(** ** Reservations of one operation *)
(** One caller, with its own clock, messages, tokens and contract marker. *)
Record reserver := Reserver {
  v_world : W; v_host : host R; v_tokens : nat -> string; v_from_url : string -> result unit;
  v_contract : option string; v_legacy : option value }.
Definition won (x : result Reservation) : bool := match x with Ok r => acquired r | Raise _ => false end.
Fixpoint reserve_all (user execution operation : string) (arguments : value) (l : list reserver) (r : R)
  : list bool :=
  match l with
  | [] => []
  | a :: l =>
      let '(x, w) := reserve_operation (v_host a) (v_tokens a) (v_from_url a) user execution operation arguments
                       (v_contract a) (v_legacy a) (set_srv r (v_world a)) in
      won x :: reserve_all user execution operation arguments l (srv w)
  end.

Section Operation.
Context (user execution operation key : string) (arguments : value).
Hypothesis Hkey : key_of user execution operation arguments = Ok key.
Abbreviation reservations := (reserve_all user execution operation arguments).

Lemma reserve_all_lost l : forall r, held key r -> (forall a, a ∈ l -> stays key (v_host a)) ->
  Forall (fun b => b = false) (reservations l r).
Proof.
  induction l as [|a l IH]; intros r Hp Hs; cbn [reserve_all]; [constructor|].
  destruct (reserve_operation _ _ _ _ _ _ _ _ _ _) as [x w] eqn:E.
  apply (guards_reserve key) in E as [E _]; [|done]. destruct E as [E1 E2]; [apply Hs; set_solver|done|].
  constructor; [destruct x; [by apply E2|done]|]. apply IH; [done|]. set_solver.
Qed.
End Operation.

(** ** Receipts *)
(** Others leave the receipt alone, and no message is lost. *)
Definition undisturbed (key : string) (h : host R) : Prop :=
  (forall n r, keyspace (others h n r) !! key = keyspace r !! key) /\ forall n, link h n = Up.
Lemma undisturbed_trip key h {A} kd (f : eff R A) w : undisturbed key h ->
  exists r0 w', round_trip h kd f w = (fst (f r0), w') /\ srv w' = snd (f r0) /\ uuids w' = uuids w /\
    keyspace r0 !! key = keyspace (srv w) !! key.
Proof.
  intros [Ho Hl]. unfold round_trip. rewrite Hl. exists (others h (trips w) (srv w)).
  destruct (f _) as [x r1]. eexists. split; [reflexivity|]. split; [done|]. split; [done|]. apply Ho.
Qed.
Lemma run_entry c r x m key : fst (sem c (keyspace r)) = x -> snd (sem c (keyspace r)) = m ->
  exists r', run c r = (x, r') /\ keyspace r' !! key = m !! key.
Proof.
  intros <- <-. exists (snd (run c r)). rewrite <- run_reply, run_keys. split; [by destruct (run c r)|done].
Qed.
Abbreviation stored s t := (Some (Entry (RStr s) t)).
Lemma kstr_stored key s t (m : keys_t) : m !! key = stored s t -> kstr key m = Ok (Some s).
Proof. intros H. unfold kstr, kval. by rewrite H. Qed.
Lemma kstr_free key (m : keys_t) : m !! key = None -> kstr key m = Ok None.
Proof. intros H. unfold kstr, kval. by rewrite H. Qed.

Lemma attempt_acquires key h payload contract w v w' : undisturbed key h ->
  reserve_attempt h key None payload contract w = (Ok v, w') -> fst (fst v) = true ->
  v = (true, key, None) /\ exists ttl, keyspace (srv w') !! key = stored payload (Some ttl) /\
    _ttl_seconds h = Ok ttl.
Proof.
  intros Hu E Hv. unfold reserve_attempt in E. step E ttl w1 E1; [|done]. injection E1 as Et <-.
  step E y w2 E2; [|done]. apply rt_ok in E2 as (r0 & _ & E2). unfold call in E2.
  destruct (keyspace r0 !! key) as [e|] eqn:Ek.
  - destruct (run_entry (SETNXEX key payload ttl) r0 (Ok RNil) (keyspace r0) key) as (r' & Er & _);
      [cbn; by rewrite Ek..|]. rewrite Er in E2. injection E2 as <- _. step E z w3 E3; [|done]. by injection E as <- _.
  - destruct (run_entry (SETNXEX key payload ttl) r0 (Ok (RText "OK"))
      (<[key := Entry (RStr payload) (Some ttl)]> (keyspace r0)) key) as (r' & Er & Hk); [cbn; by rewrite Ek..|].
    rewrite Er in E2. injection E2 as <- ->. injection E as <- <-. split; [done|]. exists ttl.
    rewrite Hk. split; [apply lookup_insert_eq|done].
Qed.
Lemma loop_acquires key h n owner payload contract : undisturbed key h -> forall w r w',
  reserve_loop h n key owner None payload contract w = (Ok r, w') -> acquired r = true ->
  r = Reserve key (Some owner) "in_progress" None contract /\
  exists ttl, keyspace (srv w') !! key = stored payload (Some ttl) /\ _ttl_seconds h = Ok ttl.
Proof.
  intros Hu. induction n as [|n IH]; intros w r w' E Hr; cbn [reserve_loop] in E; [by injection E as <- _|].
  step E a w1 E1; [|done]. unfold mbind, eff_bind, lift in E.
  destruct (attempt_result key owner contract a) as [[r'|]|] eqn:Ea; [|by apply IH in E|done].
  injection E as -> ->. pose proof (attempt_result_acquired _ _ _ _ _ Ea Hr) as Hv.
  apply attempt_acquires in E1 as [-> E1]; [|done..]. cbn in Ea. injection Ea as <-. done.
Qed.

Lemma compact_sep : sep_ok (unsorted compact).
Proof. split; [by exists 0%nat|by exists 0%nat|done|done]. Qed.
Definition texts (o : option string) : bool := match o with Some c => utf8_ok c | None => true end.
Lemma json_ok_texts o (d : dict) :
  bool_decide (NoDup (dkeys d)) = true ->
  forallb (fun kv => text_ok o (fst kv) && match snd kv with VStr s => text_ok o s | _ => false end) d = true ->
  json_ok o (VDict d) = true.
Proof.
  intros Hn Hd. cbn [json_ok]. rewrite Hn. cbn [andb]. clear Hn.
  induction d as [|[k v] d IH]; [done|]. cbn [forallb fst snd] in *. bool_prop. rewrite IH by done.
  destruct v; try done. cbn [json_ok]. by rewrite H, H1.
Qed.
Lemma loads_pending owner hash contract : utf8_ok owner = true -> utf8_ok hash = true -> texts contract = true ->
  exists d, loads (dumps_with compact (VDict (pending_record owner hash contract))) = Ok (VDict d) /\
    Forall (fun kv => is_str (snd kv) = true) d /\
    dget "state" d = VStr "in_progress" /\ dget "owner" d = VStr owner.
Proof.
  intros Ho Hh Hc. rewrite (loads_sorted compact); [|done|apply compact_sep|].
  - eexists. split; [reflexivity|]. destruct contract; (split; [repeat constructor|done]).
  - apply json_ok_texts; [by destruct contract|].
    destruct contract as [c|]; cbn [texts pending_record app forallb fst snd] in *;
      unfold text_ok; cbn [compact ensure_ascii negb orb]; rewrite Ho, Hh, ?Hc; reflexivity.
Qed.
Lemma loads_completed result contract : utf8_ok result = true -> texts contract = true ->
  exists d, loads (dumps_with compact (VDict (completed_record result contract))) = Ok (VDict d) /\
    dget "state" d = VStr "completed" /\ dget "result" d = VStr result.
Proof.
  intros Hr Hc. rewrite (loads_sorted compact); [|done|apply compact_sep|].
  - eexists. split; [reflexivity|]. by destruct contract.
  - unfold completed_record. destruct contract as [c|]; cbn in *; rewrite Hr, ?Hc; reflexivity.
Qed.
Lemma dumps_record_nonempty d : dumps_with compact (VDict d) <> "".
Proof. unfold dumps_with. cbn. unfold bracket. cbn. by destruct (map _ _). Qed.

Section Receipt.
Context (cjson_decode : string -> result value).
(** Redis reads a record of texts as Python does. *)
Hypothesis cjson_texts : forall s d, loads s = Ok (VDict d) -> Forall (fun kv => is_str (snd kv) = true) d ->
  cjson_decode s = Ok (VDict d).

Lemma lua_complete_owner key owner hash contract completed ttl t r :
  utf8_ok owner = true -> utf8_ok hash = true -> texts contract = true ->
  keyspace r !! key = stored (dumps_with compact (VDict (pending_record owner hash contract))) t ->
  exists r', lua_complete_operation cjson_decode key owner completed ttl r = (Ok true, r') /\
    keyspace r' !! key = stored completed (Some ttl).
Proof.
  intros Ho Hh Hc Hk. destruct (loads_pending owner hash contract Ho Hh Hc) as (d & El & Ft & Es & Eo).
  unfold lua_complete_operation. destruct (get_run key r) as [G K].
  rewrite (kstr_stored _ _ _ _ Hk) in G. cbn [mbind result_bind of_opt] in G.
  rewrite (bind_run (call (GET key)) _ r _ _ G).
  rewrite (bind_run (lift (cjson_decode _)) _ _ (VDict d) (snd (run (GET key) r))) by
    (unfold lift; by rewrite (cjson_texts _ d El Ft)).
  rewrite Es, Eo. cbn [py_eq num_eq].
  rewrite !String.eqb_refl. cbn [negb orb].
  destruct (run_entry (SETEX key ttl completed) (snd (run (GET key) r)) (Ok (RText "OK"))
    (<[key := Entry (RStr completed) (Some ttl)]> (keyspace (snd (run (GET key) r)))) key) as (r' & Er & Hr); [done..|].
  exists r'. unfold call, mbind, eff_bind. rewrite Er. split; [done|]. rewrite Hr. apply lookup_insert_eq.
Qed.
Lemma complete_ok key h from_url owner hash contract result t ttl w : undisturbed key h ->
  redis_client h from_url w = (Ok tt, w) -> _ttl_seconds h = Ok ttl ->
  owner <> "" -> utf8_ok owner = true -> utf8_ok hash = true -> texts contract = true ->
  keyspace (srv w) !! key = stored (dumps_with compact (VDict (pending_record owner hash contract))) t ->
  exists w', complete_operation h from_url cjson_decode (Reserve key (Some owner) "in_progress" None contract) result w
      = (Ok true, w') /\
    keyspace (srv w') !! key = stored (dumps_with compact (VDict (completed_record result contract))) (Some ttl).
Proof.
  intros Hu Hurl Httl Hne Ho Hh Hc Hk. unfold complete_operation. cbn [owner_token acquired state r_contract r_key].
  rewrite String.eqb_refl. apply String.eqb_neq in Hne. rewrite Hne. cbn [negb orb].
  rewrite (bind_run _ _ w tt w Hurl).
  rewrite (bind_run _ _ w ttl w) by (unfold lift; by rewrite Httl). cbv zeta.
  set (completed := dumps_with compact (VDict (completed_record result contract))).
  destruct (undisturbed_trip key h (TScript "complete" [owner; completed])
    (lua_complete_operation cjson_decode key owner completed ttl) w Hu) as (r0 & w' & E & Es & _ & Hr0).
  rewrite Hk in Hr0. destruct (lua_complete_owner key owner hash contract completed ttl t r0) as (r1 & El & Hr1); [done..|].
  exists w'. unfold eval. rewrite E, Es, El. done.
Qed.
(** Whoever comes later gets the receipt. *)
Lemma receipt_answers key h token_urlsafe from_url user execution operation arguments contract contract' result t w r w' :
  undisturbed key h -> key_of user execution operation arguments = Ok key ->
  utf8_ok result = true -> texts contract = true ->
  keyspace (srv w) !! key = stored (dumps_with compact (VDict (completed_record result contract))) t ->
  reserve_operation h token_urlsafe from_url user execution operation arguments contract' None w = (Ok r, w') ->
  r = refuse key "completed" (Some result).
Proof.
  intros Hu Hkey Hr Hc Hk E. destruct (loads_completed result contract Hr Hc) as (d & El & Es & Er).
  unfold key_of in Hkey. apply bind_ok in Hkey as (hash & Eh & Ek).
  unfold reserve_operation in E. rewrite Eh in E. step E hh w1 E1; [|done]. injection E1 as <- <-. rewrite Ek in E.
  step E kk w1 E1; [|done]. injection E1 as <- <-. step E owner w1 E1; [|done]. injection E1 as _ <-.
  step E lk w2 E2; [|done]. injection E2 as <- <-. step E u w2 E2; [|done]. injection E2 as _ <-.
  cbn [reserve_loop] in E. step E a w3 E3; [|done]. unfold reserve_attempt in E3.
  step E3 ttl w4 E4; [|done]. injection E4 as _ <-.
  set (payload := dumps_with compact (VDict (pending_record owner hash contract'))) in *. clearbody payload.
  match type of E3 with mbind _ _ ?s = _ => set (w5 := s) in *; assert (Hw5 : keyspace (srv w5) !! key = keyspace (srv w) !! key) by done end.
  clearbody w5. step E3 y w6 E6; [|done].
  destruct (undisturbed_trip key h (TCmd (SETNXEX key payload ttl)) (call (SETNXEX key payload ttl)) w5 Hu)
    as (r0 & w7 & F & Fs & _ & Fk). unfold redis in E6. rewrite F in E6. injection E6 as Ey <-. rewrite Hw5, Hk in Fk.
  destruct (run_entry (SETNXEX key payload ttl) r0 (Ok RNil) (keyspace r0) key) as (r1 & Er1 & Hr1);
    [cbn; by rewrite Fk..|]. unfold call in Ey, Fs. rewrite Er1 in Ey, Fs. cbn [fst snd] in Ey, Fs. injection Ey as <-.
  step E3 z w8 E8; [|done]. injection E3 as <- <-.
  destruct (undisturbed_trip key h (TCmd (GET key)) (call (GET key)) w7 Hu) as (r2 & w9 & G & Gs & _ & Gk).
  unfold redis in E8. rewrite G in E8. injection E8 as Ez <-. rewrite Fs, Hr1, Fk in Gk.
  destruct (get_run key r2) as [G2 _]. rewrite (kstr_stored _ _ _ _ Gk) in G2. unfold call in Ez. rewrite G2 in Ez.
  cbn [fst mbind result_bind of_opt] in Ez. injection Ez as <-.
  cbn [attempt_result] in E. pose proof (dumps_record_nonempty (completed_record result contract)) as Hne.
  apply String.eqb_neq in Hne. rewrite Hne, El in E. rewrite String.eqb_refl in E. cbn [negb andb] in E.
  injection E as <- _. unfold receipt_of. rewrite Es, Er. done.
Qed.

End Receipt.
End Server.
