(* ===== verification/ApprovalExamples.v ===== *)
(** * Concrete approvals

    A deployment with one service, whose user approves one call: the theorems
    about the gate, credentials, executions and idempotent writes at runs whose
    results are computed. *)
From S2P Require Import Prelude PyStr PyFloat PyVal Json JsonRoundtrip Redis PyUrl Sha World Trace.
From S2P Require Import StoreExamples Identity Tokens Policy Gate Mcp ApprovalApi Idempotency.
#[local] Open Scope Z_scope.
#[local] Existing Instance json_server.

Definition env (n : string) : option string :=
  if (n =? "DAEDALUS_INTERNAL_API_TOKEN")%string then Some "s3cret" else None.
Definition h1 : host ref_redis := Host (clock h0) (uuid4_hex h0) env 7 (fun _ r => r) (fun _ => Up).
Lemma h1_later n r : later r (others h1 n r).
Proof. apply later_refl. Qed.
Definition urlsafe (n : nat) : string := "tok" +++ str_of_Z (Z.of_nat n).
Definition any_url (_ : string) : result unit := Ok tt.
Definition request_headers : header_map :=
  [("x-user-id", "bob"); ("x-daedalus-internal-token", "s3cret")].
Definition docs_config : dict :=
  [("function_groups", VDict [("docs", VDict
      [("_type", VStr "mcp_client"); ("server", VDict [("url", VStr "http://docs/mcp")]);
       ("tool_overrides", VDict [("get_doc", VDict [("approval_policy", VStr "read_only")]);
                                 ("search", VDict [("approval_policy", VStr "auto_approve")])])])])].
Definition docs_registry : registry :=
  Eval vm_compute in match configure_mcp_approval_policy env (Ok docs_config) with
                     | Ok r => r | Raise _ => empty_registry end.
Definition edit : dict := [("documentId", VStr "d1"); ("text", VStr "hi")].
Definition w_empty : world ref_redis := fresh_world (RefRedis ∅ []).

(** ** Credentials *)
Definition edit_hash : string := Eval vm_compute in
  match _canonical_mcp_call edit None with Ok (_, hash) => hash | Raise _ => "" end.
Definition edit_text : string := Eval vm_compute in canonical_json edit.
Definition edit_request : ApprovalRequest :=
  Request "bob" MUTATION "d1" "docs" "update_doc" edit_hash edit_text.
Lemma issued_accepts_exactly_witness :
  texts_ok edit_request = true /\
  exists b msg, judge (call_of edit_request) None (dumps (VDict (token_payload edit_request 7))) = Ok (b, msg) /\
    (b = true <->
     strip "bob" = strip "bob" /\ strip MUTATION = strip MUTATION /\
     (strip MUTATION <> MUTATION -> strip "d1" <> "" /\ strip "d1" = strip "d1") /\
     strip "docs" = strip "docs" /\ strip "update_doc" = strip "update_doc" /\ strip edit_hash = strip edit_hash).
Proof. split; [vm_compute; reflexivity|]. apply (issued_accepts_exactly edit_request 7 (call_of edit_request)). vm_compute. reflexivity. Defined.

(** The credential ["t"] of the call, and two processes that spend it. *)
Definition granted : ref_redis := Eval vm_compute in
  RefRedis (<[approval_token_key "bob" "t" :=
    Entry (RStr (dumps (VDict (token_payload edit_request 7)))) (Some 300)]> ∅) [].
Definition spender : attempt := Attempt w_empty h1 (call_of edit_request) None.
Example one_of_two : present "t" [spender; spender] granted = [true; false].
Proof. vm_compute. reflexivity. Qed.
Lemma credential_spent_once_witness :
  (forall a, a ∈ [spender; spender] -> p_user (at_request a) = "bob" /\
     no_reissue (approval_token_key "bob" "t") (at_host a)) /\
  (length (List.filter (fun b => b) (present "t" [spender; spender] granted)) <= 1)%nat.
Proof.
  assert (H : forall a, a ∈ [spender; spender] -> p_user (at_request a) = "bob" /\
     no_reissue (approval_token_key "bob" "t") (at_host a)).
  { intros a Ha. repeat (apply elem_of_cons in Ha as [->|Ha]); [split; [done|by intros n r H]..|].
    by apply not_elem_of_nil in Ha. }
  split; [exact H|]. exact (credential_spent_once h1 h1_later "t" "bob" [spender; spender] granted H).
Defined.

(** ** The gate *)
Lemma gate_allows_only_authorised_witness :
  exists msg w', _validate_mcp_approval h1 urlsafe any_url docs_registry (Some request_headers) None None
      "update_doc" edit None "docs" (Some "t") None (set_srv granted w_empty)
    = (Ok (true, msg, None), w') /\
  (None : markers) = None /\
  authorised h1 docs_registry (Some request_headers) None "update_doc" edit None "docs" (Some "t") None
    (set_srv granted w_empty) w'.
Proof.
  destruct (_validate_mcp_approval h1 urlsafe any_url docs_registry (Some request_headers) None None
      "update_doc" edit None "docs" (Some "t") None (set_srv granted w_empty)) as [r w'] eqn:E.
  assert (Hr : r = Ok (true, APPROVED, None)).
  { change r with (fst (r, w')). rewrite <- E. vm_compute. reflexivity. }
  subst r. exists APPROVED, w'. split; [reflexivity|].
  exact (gate_allows_only_authorised h1 urlsafe any_url h1_later _ _ _ _ _ _ _ _ _ _ _ _ _ _ E).
Defined.
Lemma asking_records_the_call_witness :
  exists ok msg ms' w', ask_approval h1 urlsafe any_url "bob" "update_doc" edit "docs" None (Some []) w_empty
      = (Ok (ok, msg, ms'), w') /\
  ok = false /\
  (msg = CREATION_UNAVAILABLE /\ ms' = Some [] \/
   exists canonical hash canonical' hash' p t,
     _canonical_mcp_call edit None = Ok (canonical, hash) /\
     canonicalize_mcp_arguments canonical = Ok (canonical', hash') /\
     ms' = register_approval_marker msg (Some []) /\ w_log w' = t :: w_log w_empty /\
     t_kind t = TCmd (SETEX (pending_approval_key (strip "bob") (urlsafe (uuids w_empty))) 604800 (dumps (VDict p))) /\
     dget "user_id" p = VStr (strip "bob") /\ dget "server_name" p = VStr (strip "docs") /\
     dget "tool_name" p = VStr (strip "update_doc") /\ dget "canonical_arguments" p = VStr canonical' /\
     dget "arguments_sha256" p = VStr hash').
Proof.
  destruct (ask_approval h1 urlsafe any_url "bob" "update_doc" edit "docs" None (Some []) w_empty) as [r w'] eqn:E.
  assert (Hr : exists ok msg ms', r = Ok (ok, msg, ms')).
  { change r with (fst (r, w')). rewrite <- E. vm_compute. eauto. }
  destruct Hr as (ok & msg & ms' & ->). exists ok, msg, ms', w'. split; [reflexivity|].
  exact (asking_records_the_call h1 urlsafe any_url _ _ _ _ _ _ _ _ _ _ _ E).
Defined.

(** ** The manager *)
Definition search_tool : tool := Tool "search" (Some "Search documents") (VDict []) None.
Definition docs_sdk : sdk := Sdk (fun _ _ _ => Opened [search_tool]) (fun _ _ => false) (fun _ _ => true)
  (fun _ _ _ => RemoteDone (VBool false) "{}").
Definition no_schema (_ : dict) (_ : value) : result unit := Ok tt.
Definition no_token (_ : bool) (_ : string) (_ : dict) : eff (world ref_redis) (option string) := mret None.
Definition no_invalidate (_ : string) (_ : dict) (_ : string) : eff (world ref_redis) unit := mret tt.
Definition idle : mcp_state ref_redis := McpState w_empty [] None 0 [].

(** ** The execute route *)
Definition edit_body : execute_body := Body "docs" "update_doc" edit_text edit_hash.
Lemma execution_spends_its_credential_witness :
  exists st rs' w', execute h1 any_url docs_registry (groups_of docs_config) (Some request_headers) "req1" edit_body
      "t" "e1" 5 [] (set_srv granted w_empty) = (Ok (st, rs'), w') /\
  exists user canonical hash,
    authenticated_user_id_from_headers (getenv h1) (Some request_headers) = Ok user /\
    x_user (e_execution st) = user /\ loads (b_arguments edit_body) = Ok (VDict (e_arguments st)) /\
    utf8_sha256 (b_arguments edit_body) = Ok (b_sha256 edit_body) /\
    spent_last "t" (presented_for user edit_body) w' /\
    _has_local_read_only_evidence docs_registry (b_server edit_body) (b_tool edit_body) = false /\
    _canonical_mcp_call (e_arguments st) None = Ok (canonical, hash) /\
    e_consumed st = Some (user, fst (_mcp_policy_target docs_registry (b_server edit_body) (b_tool edit_body)),
                          snd (_mcp_policy_target docs_registry (b_server edit_body) (b_tool edit_body)), hash) /\
    (endswith (b_server edit_body) "_" = false ->
       cut (b_server edit_body +++ "__" +++ b_tool edit_body) "__" = Some (b_server edit_body, b_tool edit_body)) /\
    forall c, e_consumed st = Some c ->
      match_consumed docs_registry c user (b_tool edit_body) (e_arguments st) (b_server edit_body) None
        = (true, APPROVED).
Proof.
  destruct (execute h1 any_url docs_registry (groups_of docs_config) (Some request_headers) "req1" edit_body
      "t" "e1" 5 [] (set_srv granted w_empty)) as [r w'] eqn:E.
  assert (Hr : exists st rs', r = Ok (st, rs')).
  { change r with (fst (r, w')). rewrite <- E. vm_compute. eauto. }
  destruct Hr as (st & rs' & ->). exists st, rs', w'. split; [reflexivity|].
  exact (execution_spends_its_credential h1 any_url docs_registry (groups_of docs_config) h1_later
    _ _ _ _ _ _ _ _ _ _ _ E).
Defined.

(** ** Idempotent writes *)
Definition write_args : value := VDict [("text", VStr "hi")].
Definition write_key : string := Eval vm_compute in
  match key_of "bob" "run1" "remember" write_args with Ok k => k | Raise _ => "" end.
Lemma write_key_ok : key_of "bob" "run1" "remember" write_args = Ok write_key.
Proof. vm_compute. reflexivity. Qed.
Definition writer : reserver := Reserver w_empty h1 urlsafe any_url None None.
Example first_writer_wins :
  reserve_all "bob" "run1" "remember" write_args [writer; writer] (RefRedis ∅ []) = [true; false].
Proof. vm_compute. reflexivity. Qed.
Lemma h1_undisturbed key : undisturbed key h1.
Proof. split; reflexivity. Qed.
Definition one_token (_ : nat) : string := "owner".
Lemma loads_texts s d : loads s = Ok (VDict d) -> Forall (fun kv => is_str (snd kv) = true) d ->
  loads s = Ok (VDict d).
Proof. done. Qed.
