(* ===== verification/Collections.v ===== *)
(** * Private collections and documents ([nat_nv_ingest/nat_nv_ingest.py])

    How a user's name becomes the name of the vector collection and the object
    key that hold that user's documents, which collections a caller may write,
    and how much of a stored document is read.  Object storage and base64 are
    parameters. *)
From S2P Require Import Prelude PyStr PyFloat PyVal Json JsonRoundtrip Sha Identity Tokens.
#[local] Open Scope Z_scope.

(** ** Name parts *)
Definition word_byte (c : ascii) : bool := is_alnum_lower c || is_upper c || char_is "_" c.
(** [re.sub("[^..]+", "_", s)]: every maximal run of characters outside [f]. *)
Fixpoint sub_runs (f : ascii -> bool) (in_run : bool) (s : string) : string :=
  match s with
  | EmptyString => ""
  | String c s =>
      if f c then String c (sub_runs f false s)
      else if in_run then sub_runs f true s else String "_" (sub_runs f true s)
  end.
(** [re.sub("_+", "_", s)]. *)
Definition collapse_underscores (s : string) : string := sub_runs (fun c => negb (char_is "_" c)) false s.
Definition strip_underscores (s : string) : string :=
  rstrip_chars (char_is "_") (lstrip_chars (char_is "_") s).
(** A name before it is cut to length. *)
Definition normalized_name (value : option string) (fallback : string) : string :=
  let stripped := strip (default "" value) in
  let raw := if (stripped =? "")%string then fallback else stripped in
  let n := lower (strip_underscores (collapse_underscores (sub_runs word_byte false raw))) in
  let n := if (n =? "")%string then fallback else n in
  match n with
  | String c _ => if is_digit c then "u_" +++ n else n
  | EmptyString => n
  end.
Definition normalize_collection_part (value : option string) (fallback : string) : string :=
  utake 64 (normalized_name value fallback).
Definition normalize_collection_name (value : option string) (fallback : string) : string :=
  utake 255 (normalized_name value fallback).

Definition ANONYMOUS : string := "anonymous".
Definition USER_UPLOADS : string := "user_uploads".
Definition subject_of (username : option string) : string :=
  let s := strip (default "" username) in if (s =? "")%string then ANONYMOUS else s.
Definition private_user_collection_part (username : option string) : result string :=
  let subject := subject_of username in
  let readable := utake 24 (normalize_collection_part (Some subject) ANONYMOUS) in
  subject_hash ← utf8_sha256 subject;
  Ok (readable +++ "_" +++ subject_hash).
Definition legacy_user_upload_collection_name (username base_collection_name : option string) : string :=
  let base := normalize_collection_part base_collection_name USER_UPLOADS in
  let user := normalize_collection_part username ANONYMOUS in
  if (base =? user)%string || endswith base ("_" +++ user) then base else base +++ "_" +++ user.
Definition user_upload_collection_name (username base_collection_name : option string) : result string :=
  let base := normalize_collection_part base_collection_name USER_UPLOADS in
  user_part ← private_user_collection_part username;
  Ok (base +++ "_" +++ user_part).
Definition user_collection_migration_names (username base_collection_name : option string)
  : result (string * string) :=
  let legacy := legacy_user_upload_collection_name username base_collection_name in
  current ← user_upload_collection_name username base_collection_name;
  Ok (legacy, current).
Fixpoint plan_go (subjects : list string) (base : option string) (plan : list (string * string))
  : result (list (string * string)) :=
  match subjects with
  | [] => Ok plan
  | subject :: rest =>
      names ← user_collection_migration_names (Some subject) base;
      let '(legacy, current) := names in
      match hlookup legacy plan with
      | Some existing =>
          if negb (existing =? current)%string
          then raise ValueError ("legacy collection '" +++ legacy +++ "' maps to multiple subjects; " +++
                                 "ownership must be resolved before migration")
          else plan_go rest base (hset legacy current plan)
      | None => plan_go rest base (hset legacy current plan)
      end
  end.
Definition plan_user_collection_migrations (subjects : list string) (base : option string)
  : result (list (string * string)) := plan_go subjects base [].

Definition SHARED_COLLECTION_NAMES : list string :=
  ["kubernetes"; "mentalhealth"; "nvidia"; "semianalysis"; "vetpartner"].
(** [s[:-len(suffix)]] of a text that ends in [suffix]. *)
Definition drop_suffix (s suffix : string) : string := utake (ulen s - ulen suffix) s.
Definition resolve_user_collection_name (collection_name username default_collection_name : option string)
  : result string :=
  if (default "" collection_name =? "")%string
  then user_upload_collection_name username default_collection_name else
  let collection := normalize_collection_name collection_name USER_UPLOADS in
  user_part ← private_user_collection_part username;
  let legacy_user := normalize_collection_part username ANONYMOUS in
  if is_in collection SHARED_COLLECTION_NAMES then Ok collection
  else if (collection =? user_part)%string || endswith collection ("_" +++ user_part) then Ok collection
  else if (collection =? legacy_user)%string then user_upload_collection_name username (Some collection)
  else if endswith collection ("_" +++ legacy_user)
  then user_upload_collection_name username (Some (drop_suffix collection ("_" +++ legacy_user)))
  else user_upload_collection_name username (Some collection).
Inductive scope := SharedScope | UserScope.
Definition scope_name (s : scope) : string := match s with SharedScope => "shared" | UserScope => "user" end.
Definition classify_collection_scope (collection_name : option string) : scope :=
  if is_in (normalize_collection_name collection_name "") SHARED_COLLECTION_NAMES then SharedScope else UserScope.
Definition validate_collection_scope (collection_name : string) (requested_scope : option string)
  : result scope :=
  let actual := classify_collection_scope (Some collection_name) in
  let requested := default "" requested_scope in
  if (requested =? "")%string then Ok actual else
  let normalized := lower (strip requested) in
  if negb (is_in normalized ["shared"; "user"])
  then raise ValueError "collection_scope must be 'shared' or 'user'."
  else if negb (normalized =? scope_name actual)%string
  then raise ValueError ("collection_scope '" +++ normalized +++ "' does not match collection '" +++
                         collection_name +++ "' (" +++ scope_name actual +++ ").")
  else Ok actual.
Definition validate_user_collection_write_scope (collection_name : string) (requested_scope : option string)
  : result scope :=
  actual ← validate_collection_scope collection_name requested_scope;
  match actual with
  | SharedScope => raise ValueError "Shared collection writes are not permitted through user-facing document ingestion. Ingest into your private collection instead."
  | UserScope => Ok UserScope
  end.
Definition _can_access_stored_document (document_record : dict) (username : option string) : bool :=
  let document_user_id := strip (py_str (vor (dget "userId" document_record) (VStr ""))) in
  let requester := strip (default "" username) in
  if negb (document_user_id =? "")%string then (document_user_id =? requester)%string
  else (requester =? "")%string || (lower requester =? ANONYMOUS)%string.

(** ** Bounded texts and sizes *)
Definition _truncate_error (text : string) (limit : Z) : string :=
  if ulen text <=? limit then text else utake limit text +++ "...".
Definition OMITTED : string :=
  String (chr 10) (String (chr 10) "[... middle omitted to fit inline document limit ...]") +++
  String (chr 10) (String (chr 10) "").
Definition _apply_char_limit (raw_md : string) (char_limit : option Z) : string * bool :=
  match char_limit with
  | None => (raw_md, false)
  | Some limit =>
      if ulen raw_md <=? limit then (raw_md, false)
      else if limit <=? ulen OMITTED then (utake limit raw_md, true)
      else
        let remaining := limit - ulen OMITTED in
        let head_chars := (remaining + 1) / 2 in
        let tail_chars := remaining - head_chars in
        let tail := if tail_chars =? 0 then "" else udrop (ulen raw_md - tail_chars) raw_md in
        (utake head_chars raw_md +++ OMITTED +++ tail, true)
  end.
Definition _estimated_decoded_size (document_base64 : string) : Z :=
  (ulen (rstrip_chars (char_is "=") (strip document_base64)) * 3) / 4.
Definition size_error (max_bytes : Z) : string :=
  "Error: Document exceeds the maximum allowed size (" +++ str_of_Z max_bytes +++
  " bytes). Please upload a smaller file.".
Definition _document_size_error (document_base64 : string) (max_bytes : Z) : option string :=
  if max_bytes <? _estimated_decoded_size document_base64 then Some (size_error max_bytes) else None.

Definition DEFAULT_DOCUMENT_INGEST_MAX_SIZE_BYTES : Z := 200 * 1024 * 1024.
Definition safe_ref_char (c : ascii) : bool :=
  is_alnum_lower c || is_upper c || char_is "." c || char_is "_" c || char_is "-" c.
(** [_SAFE_DOCUMENT_REF_RE.fullmatch]. *)
Definition safe_ref (s : string) : bool := (1 <=? blen s) && (blen s <=? 128) && all_chars safe_ref_char s.
Definition storage_error {A} (msg : string) : result A := raise DocumentStorageError ("Error: " +++ msg).

Section Documents.
Context (getenv : string -> option string).
Definition env_text (name : string) : string := strip (default "" (getenv name)).
Definition env_default (name fallback : string) : string :=
  let v := default "" (getenv name) in strip (if (v =? "")%string then fallback else v).
Definition document_ingest_max_size_bytes : Z :=
  let raw := env_text "DOCUMENT_INGEST_MAX_SIZE_BYTES" in
  if (raw =? "")%string then DEFAULT_DOCUMENT_INGEST_MAX_SIZE_BYTES else
  match parse_int raw with
  | Some value => if 0 <? value then value else DEFAULT_DOCUMENT_INGEST_MAX_SIZE_BYTES
  | None => DEFAULT_DOCUMENT_INGEST_MAX_SIZE_BYTES
  end.
(** In milliseconds; the source divides by 1000. *)
Definition document_object_request_timeout_ms : result Z :=
  match parse_int (env_default "DOCUMENT_OBJECT_REQUEST_TIMEOUT_MS" "300000") with
  | Some t => if (100 <=? t) && (t <=? 900000) then Ok t
              else storage_error "Document object storage request timeout is invalid."
  | None => storage_error "Document object storage request timeout is invalid."
  end.
Record object_settings := ObjectSettings {
  endpoint : string; access_key : string; secret_key : string; session_token : option string;
  bucket : string; secure : bool; region : string }.
Definition DOCUMENT_OBJECT_PREFIX : string := "DOCUMENT_OBJECT_PREFIX".
Definition document_prefix : string := env_default DOCUMENT_OBJECT_PREFIX "daedalus-documents".
Definition _document_object_settings : result object_settings :=
  let endpoint := env_text "DOCUMENT_OBJECT_ENDPOINT" in
  let access_key := env_text "DOCUMENT_OBJECT_ACCESS_KEY" in
  let secret_key := env_text "DOCUMENT_OBJECT_SECRET_KEY" in
  let session := env_text "DOCUMENT_OBJECT_SESSION_TOKEN" in
  let bucket := env_text "DOCUMENT_OBJECT_BUCKET" in
  let blank s := (s =? "")%string in
  if blank endpoint || blank access_key || blank secret_key || blank bucket
  then storage_error "Document object storage is not configured."
  else if negb (safe_ref document_prefix) then storage_error "Document object storage prefix is invalid."
  else
    let secure := startswith endpoint "https://" in
    let host := rstrip_chars (char_is "/")
      (if secure then removeprefix endpoint "https://" else removeprefix endpoint "http://") in
    if blank host || contains host "/" then storage_error "Document object storage endpoint is invalid."
    else Ok (ObjectSettings host access_key secret_key (if blank session then None else Some session)
               bucket secure (env_default "DOCUMENT_OBJECT_REGION" "us-east-1")).
Definition _expected_document_object_key (prefix username session_id document_id : string) : result string :=
  if negb (safe_ref session_id) || negb (safe_ref document_id)
  then storage_error "Document reference is invalid."
  else
    hash ← utf8_sha256 username;
    Ok (prefix +++ "/" +++ utake 32 hash +++ "/" +++ session_id +++ "/" +++ document_id).

(** An opened object: each read of at most [n] bytes returns a chunk, [""] at
    the end, or fails. *)
Definition CHUNK : Z := 1024 * 1024.
Fixpoint read_object (fuel : nat) (read : nat -> Z -> result string) (n : nat) (max_bytes total : Z)
    (chunks : string) : result (Z * string) :=
  match fuel with
  | O => Ok (total, chunks)
  | S fuel =>
      chunk ← read n (Z.min CHUNK (max_bytes - total + 1));
      if (chunk =? "")%string then Ok (total, chunks) else
      let total := total + blen chunk in
      if max_bytes <? total then raise DocumentStorageError (size_error max_bytes)
      else read_object fuel read (S n) max_bytes total (chunks +++ chunk)
  end.
(** [expires_at <= time.time() * 1000] for a number. *)
Definition expired (expires_at : value) (now_ms : float) : bool :=
  let at_least z := match f_cmp_Z now_ms z with Some Lt | None => false | Some _ => true end in
  match expires_at with
  | VInt z => at_least z
  | VBool b => at_least (Z_of_bool b)
  | VFloat f => f_leb f now_ms
  | _ => false
  end.
Definition UNAVAILABLE_STORAGE : string :=
  "Error accessing document object storage. Please upload the document again.".
(** [get_object]: what opening and reading an object of a bucket gives. *)
Context (get_object : object_settings -> string -> result (nat -> Z -> result string)).
Definition _read_document_object (document_record : dict) (document_id session_id username : string)
    (max_bytes : Z) (now_ms : float) : result string :=
  settings ← _document_object_settings;
  let object_key := py_str (vor (dget "objectKey" document_record) (VStr "")) in
  let object_bucket := py_str (vor (dget "objectBucket" document_record) (VStr "")) in
  expected ← _expected_document_object_key document_prefix username session_id document_id;
  if negb (object_bucket =? bucket settings)%string || negb (object_key =? expected)%string
  then storage_error "Stored document object reference is invalid." else
  match dget "size" document_record with
  | VInt declared =>
      if declared <=? 0 then storage_error "Retrieved document data is empty."
      else if max_bytes <? declared then raise DocumentStorageError (size_error max_bytes)
      else if expired (dget "expiresAt" document_record) now_ms
      then storage_error "Document has expired. Please upload the document again."
      else
        _ ← document_object_request_timeout_ms;
        let body :=
          read ← get_object settings object_key;
          body ← read_object (S (Z.to_nat max_bytes)) read 0 max_bytes 0 "";
          if negb (fst body =? declared)
          then storage_error "Stored document length doesn't match its metadata." else Ok (snd body) in
        try_except body [Exception_] (fun e =>
          if exn_isa (exn_cls e) DocumentStorageError then Raise e
          else raise DocumentStorageUnavailableError UNAVAILABLE_STORAGE)
  | _ => storage_error "Stored document size is invalid."
  end.
End Documents.
