(* ===== verification/CollectionLaws.v ===== *)
(** * Laws of private collections

    A user's documents stay in collections of that user: names determine the
    digest of the subject, are valid names of bounded length, and a legacy
    name is never a private one. *)
From S2P Require Import Prelude PyStr PyFloat PyVal Json JsonRoundtrip Sha Identity Tokens Collections.
#[local] Open Scope Z_scope.

(** ** ASCII names *)
Definition name_char (c : ascii) : bool := is_alnum_lower c || char_is "_" c.
Lemma name_char_ascii c : name_char c = true -> is_cont c = false.
Proof.
  unfold name_char, is_alnum_lower, is_lower, is_digit, in_range, is_cont, char_is. intros H.
  apply not_true_iff_false. intros C. bool_prop. apply orb_true_iff in H as [H|H].
  - apply orb_true_iff in H as [H|H]; bool_prop; lia.
  - apply Ascii.eqb_eq in H. subst c. by cbn in *.
Qed.
Lemma name_ulen s : all_chars name_char s = true -> ulen_nat s = String.length s.
Proof.
  induction s as [|c s IH]; [done|]. cbn. intros H. bool_prop. rewrite name_char_ascii by done. by rewrite IH.
Qed.
Lemma name_utake n s : all_chars name_char s = true ->
  all_chars name_char (utake_nat n s) = true /\ String.length (utake_nat n s) = Nat.min n (String.length s).
Proof.
  revert n. induction s as [|c s IH]; intros n H; [by rewrite Nat.min_0_r|]. cbn in *. bool_prop.
  rewrite name_char_ascii by done. destruct n as [|n]; [done|]. destruct (IH n) as [E1 E2]; [done|].
  cbn. rewrite E1, E2. by rewrite andb_true_r.
Qed.
Lemma utake_name n s : 0 <= n -> all_chars name_char s = true ->
  all_chars name_char (utake n s) = true /\ blen (utake n s) = Z.min n (blen s).
Proof.
  intros Hn H. unfold utake, norm_index, blen. destruct (Z.ltb_spec n 0); [lia|].
  destruct (name_utake (Z.to_nat n) s H) as [E1 E2]. split; [done|]. rewrite E2. lia.
Qed.

(** ** The normal form *)
Lemma sub_runs_chars f b s : all_chars (fun c => f c || char_is "_" c) (sub_runs f b s) = true.
Proof.
  revert b. induction s as [|c s IH]; intros b; [done|]. cbn. destruct (f c) eqn:E; cbn; [by rewrite E, IH|].
  destruct b; [apply IH|]. cbn. rewrite IH. by rewrite orb_true_r.
Qed.
Lemma sub_runs_keeps f g b s : all_chars g s = true -> g "_"%char = true -> all_chars g (sub_runs f b s) = true.
Proof.
  intros H Hg. revert b. induction s as [|c s IH]; intros b; [done|]. cbn in *. bool_prop.
  destruct (f c); cbn; [by rewrite H, IH|]. destruct b; [by apply IH|]. cbn. by rewrite Hg, IH.
Qed.
Lemma lstrip_keeps f g s : all_chars g s = true -> all_chars g (lstrip_chars f s) = true.
Proof. induction s as [|c s IH]; [done|]. cbn. intros H. destruct (f c); [|done]. apply IH. by bool_prop. Qed.
Lemma rstrip_keeps f g s : all_chars g s = true -> all_chars g (rstrip_chars f s) = true.
Proof.
  induction s as [|c s IH]; [done|]. cbn [all_chars rstrip_chars]. intros H. bool_prop.
  destruct (f c && all_chars f s); [done|]. cbn [all_chars]. by rewrite H, IH.
Qed.
Lemma word_lower c : word_byte c = true -> byte_of c <? 128 = true /\ name_char (lower_ascii c) = true.
Proof. destruct c as [[] [] [] [] [] [] [] []]; vm_compute; intros; split; congruence. Qed.
Lemma lower_cons c s : byte_of c <? 128 = true -> lower (String c s) = String (lower_ascii c) (lower s).
Proof.
  intros H. cbn [lower]. destruct s as [|b s]; [done|]. destruct (Z.eqb_spec (byte_of c) 195); [|done].
  apply Z.ltb_lt in H. lia.
Qed.
Lemma lower_word s : all_chars word_byte s = true -> all_chars name_char (lower s) = true.
Proof.
  induction s as [|c s IH]; [done|]. cbn [all_chars]. intros H. bool_prop. destruct (word_lower c) as [H1 H2]; [done|].
  rewrite lower_cons by done. cbn [all_chars]. by rewrite H2, IH.
Qed.
(** A name that starts with a letter. *)
Definition valid_name (s : string) : bool :=
  all_chars name_char s && match s with String c _ => is_lower c | EmptyString => false end.
Lemma strip_head s : match strip_underscores s with String c _ => c <> "_"%char | EmptyString => True end.
Proof.
  unfold strip_underscores. assert (H : match lstrip_chars (char_is "_") s with String c _ => c <> "_"%char | _ => True end).
  { induction s as [|c s IH]; [done|]. cbn [lstrip_chars]. unfold char_is at 1. destruct (Ascii.eqb_spec "_"%char c); [done|congruence]. }
  destruct (lstrip_chars (char_is "_") s) as [|c t]; [done|]. cbn [rstrip_chars].
  destruct (all_chars (char_is "_") (String c t)); done.
Qed.
Lemma name_head c : word_byte c = true -> c <> "_"%char ->
  is_digit (lower_ascii c) = false -> is_lower (lower_ascii c) = true.
Proof. destruct c as [[] [] [] [] [] [] [] []]; vm_compute; congruence. Qed.
Lemma normalized_valid value fallback : valid_name fallback = true -> valid_name (normalized_name value fallback) = true.
Proof.
  intros Hf. unfold normalized_name. cbv zeta. set (raw := if (strip (default "" value) =? "")%string then fallback else strip (default "" value)). clearbody raw.
  set (t := strip_underscores (collapse_underscores (sub_runs word_byte false raw))).
  assert (Hw : all_chars word_byte t = true).
  { apply rstrip_keeps, lstrip_keeps. apply sub_runs_keeps; [|done].
    eapply all_chars_impl; [|apply sub_runs_chars]. intros c. unfold word_byte.
    intros H. apply orb_true_iff in H as [H|H]; [done|]. by rewrite H, orb_true_r. }
  pose proof (strip_head (collapse_underscores (sub_runs word_byte false raw))) as Hh. fold t in Hh. clearbody t.
  destruct t as [|c t]; [cbn|].
  - unfold valid_name in *. destruct fallback as [|c f]; [by rewrite andb_false_r in Hf|].
    destruct (is_digit c) eqn:Ed; [|done]. exfalso. bool_prop. clear -H0 Ed.
    destruct c as [[] [] [] [] [] [] [] []]; vm_compute in *; congruence.
  - pose proof (lower_word _ Hw) as Hl. cbn [all_chars] in Hw. bool_prop. destruct (word_lower c) as [Hc1 Hc2]; [done|].
    rewrite lower_cons in * by done. cbn [String.eqb]. unfold valid_name.
    destruct (is_digit (lower_ascii c)) eqn:Ed.
    + cbn [String.append all_chars] in *. by rewrite Hl.
    + rewrite Hl. cbn [andb]. by apply name_head.
Qed.
Lemma valid_chars s : valid_name s = true -> all_chars name_char s = true.
Proof. unfold valid_name. intros H. by bool_prop. Qed.
Lemma valid_utake n s : 0 < n -> valid_name s = true ->
  valid_name (utake n s) = true /\ blen (utake n s) = Z.min n (blen s).
Proof.
  intros Hn H. destruct (utake_name n s) as [E1 E2]; [lia|by apply valid_chars|]. split; [|done].
  unfold valid_name in *. rewrite E1. destruct s as [|c s]; [done|]. bool_prop.
  unfold utake, norm_index. destruct (Z.ltb_spec n 0); [lia|]. destruct (Z.to_nat n) as [|m] eqn:Em; [lia|].
  cbn [utake_nat]. cbn [all_chars] in H. bool_prop. by rewrite name_char_ascii.
Qed.

(** ** A digest closes every private name *)
Lemma all_name_app a b : all_chars name_char a = true -> all_chars name_char b = true ->
  all_chars name_char (a +++ b) = true.
Proof. intros Ha Hb. by rewrite all_chars_app, Ha, Hb. Qed.
Lemma valid_app a b : valid_name a = true -> all_chars name_char b = true -> valid_name (a +++ b) = true.
Proof.
  intros H Hb. unfold valid_name. rewrite all_name_app by (done || by apply valid_chars).
  unfold valid_name in H. bool_prop. by destruct a.
Qed.
Lemma hex_digit_name n : name_char (hex_digit (n mod 16)) = true.
Proof.
  pose proof (Z.mod_pos_bound n 16 ltac:(lia)) as H. remember (n mod 16) as m eqn:E. clear E.
  assert (C : m = 0 \/ m = 1 \/ m = 2 \/ m = 3 \/ m = 4 \/ m = 5 \/ m = 6 \/ m = 7 \/ m = 8 \/ m = 9 \/
    m = 10 \/ m = 11 \/ m = 12 \/ m = 13 \/ m = 14 \/ m = 15) by lia.
  repeat destruct C as [->|C]; try subst m; reflexivity.
Qed.
Lemma hex2_name b : 0 <= b < 256 -> all_chars name_char (hex2 b) = true.
Proof.
  intros H. unfold hex2. cbn [all_chars].
  rewrite <- (Z.mod_small (b / 16) 16) by (split; [apply Z.div_pos|apply Z.div_lt_upper_bound]; lia).
  by rewrite !hex_digit_name.
Qed.
Lemma hex8_name z : all_chars name_char (hex8 z) = true.
Proof.
  unfold hex8. assert (F : Forall (fun b => 0 <= b < 256) (be_bytes 4 z)).
  { unfold be_bytes. apply Forall_rev, Forall_map, Forall_true. intros i. cbn.
    change 255 with (Z.ones 8). rewrite Z.land_ones by lia. apply Z.mod_pos_bound. lia. }
  induction F as [|b l Hb _ IH]; [done|]. cbn [fold_right]. apply all_name_app; [by apply hex2_name|done].
Qed.
Lemma hex_name s : all_chars name_char (sha256_hex s) = true.
Proof.
  unfold sha256_hex. generalize (fold_left sha256_block (message_blocks s) sha256_init) as l.
  induction l as [|x l IH]; [done|]. cbn [fold_right]. apply all_name_app; [apply hex8_name|done].
Qed.
Lemma part_valid v fb : valid_name fb = true ->
  valid_name (normalize_collection_part v fb) = true /\ 0 < blen (normalize_collection_part v fb) <= 64.
Proof.
  intros H. pose proof (normalized_valid v fb H) as Hv. unfold normalize_collection_part.
  destruct (valid_utake 64 _ ltac:(lia) Hv) as [H1 H2]. split; [done|]. rewrite H2.
  destruct (normalized_name v fb) as [|c s] eqn:E; [done|].
  unfold blen. cbn [String.length]. lia.
Qed.
Lemma readable_valid v : valid_name (utake 24 (normalize_collection_part v ANONYMOUS)) = true /\
  0 < blen (utake 24 (normalize_collection_part v ANONYMOUS)) <= 24.
Proof.
  destruct (part_valid v ANONYMOUS eq_refl) as [H1 H2].
  destruct (valid_utake 24 _ ltac:(lia) H1) as [H3 H4]. split; [done|]. lia.
Qed.
Lemma blen_app a b : blen (a +++ b) = blen a + blen b.
Proof. unfold blen. rewrite length_append. lia. Qed.
Lemma utf8_sha256_ok s h : utf8_sha256 s = Ok h -> h = sha256_hex s.
Proof. unfold utf8_sha256. intros H. case_hyp H; [|done]. by injection H as <-. Qed.

(** [private_name n h]: a name that the digest [h] closes. *)
Definition private_name (n h : string) : Prop := exists p, n = p +++ "_" +++ h.
Lemma private_part_shape u part : private_user_collection_part u = Ok part ->
  part = utake 24 (normalize_collection_part (Some (subject_of u)) ANONYMOUS) +++ "_" +++ sha256_hex (subject_of u).
Proof.
  unfold private_user_collection_part. intros H. apply bind_ok in H as (h & Hh & H). injection H as <-.
  by rewrite (utf8_sha256_ok _ _ Hh).
Qed.
Lemma private_part_valid u part : private_user_collection_part u = Ok part ->
  valid_name part = true /\ 66 <= blen part <= 89.
Proof.
  intros ->%private_part_shape. destruct (readable_valid (Some (subject_of u))) as [H1 H2]. split.
  - apply valid_app; [done|]. apply all_name_app; [done|apply hex_name].
  - rewrite !blen_app. pose proof (sha256_hex_length (subject_of u)) as E. unfold blen at 2 3 5 6. rewrite E.
    cbn [String.length]. lia.
Qed.
Lemma upload_name_shape u base n : user_upload_collection_name u base = Ok n ->
  exists part, private_user_collection_part u = Ok part /\
    n = normalize_collection_part base USER_UPLOADS +++ "_" +++ part.
Proof.
  unfold user_upload_collection_name. intros H. apply bind_ok in H as (part & Hp & H). injection H as <-. eauto.
Qed.
Lemma upload_name_private u base n : user_upload_collection_name u base = Ok n ->
  private_name n (sha256_hex (subject_of u)).
Proof.
  intros (part & ->%private_part_shape & ->)%upload_name_shape.
  eexists. rewrite <- !append_assoc. reflexivity.
Qed.
Lemma upload_name_valid u base n : user_upload_collection_name u base = Ok n ->
  valid_name n = true /\ 68 <= blen n <= 154.
Proof.
  intros (part & Hp & ->)%upload_name_shape. destruct (part_valid base USER_UPLOADS eq_refl) as [H1 H2].
  destruct (private_part_valid _ _ Hp) as [H3 H4]. split.
  - apply valid_app; [done|]. apply all_name_app; [done|by apply valid_chars].
  - rewrite !blen_app. cbn [blen]. change (blen "_") with 1. lia.
Qed.
Lemma endswith_split s p : endswith s p = true -> exists q, s = q +++ p.
Proof.
  induction s as [|c s IH]; cbn [endswith]; intros H; apply orb_true_iff in H as [H|H].
  - apply String.eqb_eq in H. by exists "".
  - done.
  - apply String.eqb_eq in H. by exists "".
  - destruct (IH H) as [q ->]. by exists (String c q).
Qed.
Lemma private_suffix part u q : private_user_collection_part u = Ok part ->
  private_name (q +++ part) (sha256_hex (subject_of u)).
Proof. intros ->%private_part_shape. eexists. rewrite <- append_assoc. reflexivity. Qed.

(** ** What a caller's name resolves to *)
Lemma resolved_shape c u d n : resolve_user_collection_name c u d = Ok n ->
  valid_name n = true /\ blen n <= 255 /\
  (is_in n SHARED_COLLECTION_NAMES = true \/ private_name n (sha256_hex (subject_of u))).
Proof.
  assert (Hup : forall b, user_upload_collection_name u b = Ok n -> valid_name n = true /\ blen n <= 255 /\
    (is_in n SHARED_COLLECTION_NAMES = true \/ private_name n (sha256_hex (subject_of u)))).
  { intros b H. destruct (upload_name_valid _ _ _ H). split_and!; [done|lia|right; by eapply upload_name_private]. }
  unfold resolve_user_collection_name. destruct (_ =? "")%string; [apply Hup|]. intros H.
  assert (Hc : valid_name (normalize_collection_name c USER_UPLOADS) = true /\
    blen (normalize_collection_name c USER_UPLOADS) <= 255).
  { destruct (valid_utake 255 _ ltac:(lia) (normalized_valid c USER_UPLOADS eq_refl)) as [H1 H2].
    unfold normalize_collection_name. split; [done|]. lia. }
  apply bind_ok in H as (part & Hp & H). set (col := normalize_collection_name c USER_UPLOADS) in *.
  destruct Hc as [Hv Hl]. destruct (is_in col _) eqn:Es; [injection H as <-; eauto|].
  destruct ((col =? part)%string || endswith col ("_" +++ part)) eqn:Ep.
  - injection H as <-. split_and!; [done..|right]. apply orb_true_iff in Ep as [Ep|Ep].
    + apply String.eqb_eq in Ep. rewrite Ep. by apply (private_suffix _ _ "").
    + destruct (endswith_split _ _ Ep) as [q ->]. rewrite <- append_assoc. by eapply private_suffix.
  - repeat case_hyp H; by eapply Hup.
Qed.
Lemma private_name_digest n h1 h2 : private_name n h1 -> private_name n h2 ->
  String.length h1 = String.length h2 -> h1 = h2.
Proof.
  intros [p ->] [q E]. rewrite <- !append_assoc in E. intros L. exact (append_inj_length _ _ _ _ E L).
Qed.
Lemma shared_scope n : is_in n SHARED_COLLECTION_NAMES = true -> classify_collection_scope (Some n) = SharedScope.
Proof.
  intros H. cbn [is_in existsb SHARED_COLLECTION_NAMES] in H.
  repeat (apply orb_true_iff in H as [H|H]; [apply String.eqb_eq in H; subst n; vm_compute; reflexivity|]). done.
Qed.
Lemma write_scope_user n s r : validate_user_collection_write_scope n s = Ok r ->
  is_in n SHARED_COLLECTION_NAMES = false.
Proof.
  intros H. destruct (is_in n SHARED_COLLECTION_NAMES) eqn:E; [|done]. exfalso.
  unfold validate_user_collection_write_scope in H. apply bind_ok in H as (a & Ha & H).
  unfold validate_collection_scope in Ha. rewrite (shared_scope n E) in Ha.
  cbv zeta in Ha. repeat case_hyp Ha; first [discriminate Ha|injection Ha as <-; discriminate H].
Qed.

(** C5: A collection that one caller may write is named after that caller
    alone: whatever names the two callers ask for, if a name that resolves
    for the first passes the write check and resolves for the second as well,
    the digests of their subjects are equal; and the name is a valid
    identifier of at most 255 bytes. *)
Theorem private_writes_isolated c1 u1 d1 c2 u2 d2 requested n r :
  resolve_user_collection_name c1 u1 d1 = Ok n ->
  validate_user_collection_write_scope n requested = Ok r ->
  resolve_user_collection_name c2 u2 d2 = Ok n ->
  r = UserScope /\ sha256_hex (subject_of u1) = sha256_hex (subject_of u2) /\
  private_name n (sha256_hex (subject_of u1)) /\ valid_name n = true /\ blen n <= 255.
Proof.
  intros H1 Hw H2. pose proof (write_scope_user _ _ _ Hw) as Hs.
  destruct (resolved_shape _ _ _ _ H1) as (Hv & Hl & [C|P1]); [congruence|].
  destruct (resolved_shape _ _ _ _ H2) as (_ & _ & [C|P2]); [congruence|].
  split_and!; try done.
  - unfold validate_user_collection_write_scope in Hw. apply bind_ok in Hw as (a & _ & Hw).
    destruct a; [discriminate Hw|by destruct r].
  - apply (private_name_digest n); [done..|]. by rewrite !sha256_hex_length.
Qed.

(** ** Migration plans *)
Definition legacy_of (base : option string) (s : string) : string := legacy_user_upload_collection_name (Some s) base.
Definition current_of (base : option string) (s : string) : result string := user_upload_collection_name (Some s) base.
Lemma legacy_short base s : blen (legacy_of base s) <= blen (normalize_collection_part base USER_UPLOADS) + 65.
Proof.
  unfold legacy_of, legacy_user_upload_collection_name. cbv zeta.
  destruct (part_valid (Some s) ANONYMOUS eq_refl) as [_ H]. destruct (_ || _); [lia|].
  rewrite !blen_app. change (blen "_") with 1. lia.
Qed.
Lemma current_long base s n : current_of base s = Ok n -> blen (normalize_collection_part base USER_UPLOADS) + 67 <= blen n.
Proof.
  intros (part & Hp & ->)%upload_name_shape. destruct (private_part_valid _ _ Hp) as [_ H].
  rewrite !blen_app. change (blen "_") with 1. lia.
Qed.
Lemma legacy_not_current base s t n : current_of base t = Ok n -> legacy_of base s <> n.
Proof. intros H E. pose proof (legacy_short base s). pose proof (current_long _ _ _ H). subst n. lia. Qed.
(** [plan] maps the legacy name of each of [ss] to its current name and holds nothing else. *)
Definition plan_for (base : option string) (ss : list string) (plan : list (string * string)) : Prop :=
  (forall s, s ∈ ss -> exists n, current_of base s = Ok n /\ hlookup (legacy_of base s) plan = Some n) /\
  (forall l n, hlookup l plan = Some n -> exists s, s ∈ ss /\ legacy_of base s = l /\ current_of base s = Ok n).
Definition distinct_owners (base : option string) (ss : list string) : Prop :=
  forall s t, s ∈ ss -> t ∈ ss -> legacy_of base s = legacy_of base t -> current_of base s = current_of base t.

Lemma hlookup_hset k v m k' : hlookup k' (hset k v m) = if (k' =? k)%string then Some v else hlookup k' m.
Proof.
  induction m as [|[k1 v1] m IH]; cbn; [by destruct (k' =? k)%string|].
  destruct (String.eqb_spec k k1) as [->|Hn]; cbn; [by destruct (k' =? k1)%string|].
  rewrite IH. destruct (String.eqb_spec k' k1) as [->|]; [|done].
  by destruct (String.eqb_spec k1 k) as [E|]; [rewrite E in Hn|].
Qed.
Lemma plan_step base dn plan s n : plan_for base dn plan -> current_of base s = Ok n ->
  (forall e, hlookup (legacy_of base s) plan = Some e -> e = n) ->
  plan_for base (dn ++ [s]) (hset (legacy_of base s) n plan).
Proof.
  intros [H1 H2] Hn He. split.
  - intros t [Ht| ->%list_elem_of_singleton]%elem_of_app; rewrite hlookup_hset.
    + destruct (H1 _ Ht) as (m & Hm & Hl). exists m. split; [done|].
      destruct (String.eqb_spec (legacy_of base t) (legacy_of base s)) as [E|]; [|done].
      rewrite E in Hl. by rewrite (He _ Hl).
    + exists n. by rewrite String.eqb_refl.
  - intros l m. rewrite hlookup_hset. destruct (String.eqb_spec l (legacy_of base s)) as [->|].
    + intros [= <-]. exists s. set_solver.
    + intros (t & Ht & E)%H2. exists t. set_solver.
Qed.
Lemma plan_go_sound base rest : forall dn plan plan', plan_for base dn plan ->
  plan_go rest base plan = Ok plan' -> plan_for base (dn ++ rest) plan'.
Proof.
  induction rest as [|s rest IH]; intros dn plan plan' Hp H; cbn [plan_go] in H.
  { injection H as <-. by rewrite app_nil_r. }
  apply bind_ok in H as ([l n] & Hn & H). apply bind_ok in Hn as (n' & Hn & E). injection E as <- <-.
  assert (forall e, hlookup (legacy_of base s) plan = Some e -> e = n') as He.
  { intros e Ee. unfold legacy_of in Ee. rewrite Ee in H. destruct (String.eqb_spec e n'); [done|]. discriminate H. }
  assert (plan_go rest base (hset (legacy_of base s) n' plan) = Ok plan') as H'.
  { unfold legacy_of in *. destruct (hlookup _ plan) as [e|] eqn:Ee; [|done].
    rewrite (He e eq_refl), String.eqb_refl in H. done. }
  rewrite (cons_middle s dn rest), app_assoc. eapply IH; [|exact H']. by apply plan_step.
Qed.
Lemma plan_go_complete base rest : forall dn plan, plan_for base dn plan ->
  (forall s, s ∈ rest -> is_ok (current_of base s) = true) -> distinct_owners base (dn ++ rest) ->
  is_ok (plan_go rest base plan) = true.
Proof.
  induction rest as [|s rest IH]; intros dn plan Hp Hok Hd; cbn [plan_go]; [done|].
  unfold user_collection_migration_names.
  destruct (user_upload_collection_name (Some s) base) as [n|e] eqn:En; cbn.
  2:{ pose proof (Hok s ltac:(set_solver)) as Hs. unfold current_of in Hs. by rewrite En in Hs. }
  assert (forall e, hlookup (legacy_of base s) plan = Some e -> e = n) as He.
  { intros e (t & Ht & E1 & E2)%(proj2 Hp). rewrite (Hd t s) in E2; [|set_solver..|done].
    unfold current_of in E2. congruence. }
  assert (is_ok (plan_go rest base (hset (legacy_of base s) n plan)) = true) as Hk.
  { apply (IH (dn ++ [s])); [by apply plan_step|set_solver|by rewrite <- app_assoc]. }
  unfold legacy_of in *. destruct (hlookup _ plan) as [e|] eqn:Ee; [|done].
  by rewrite (He e eq_refl), String.eqb_refl.
Qed.
Lemma plan_for_nil base : plan_for base [] [].
Proof. split; [set_solver|done]. Qed.

(** The migration plan is built exactly when no legacy collection has two
    owners: it then maps the legacy name of every subject to the subject's
    current name and holds no other entry, and no collection it reads from is
    one it writes to. *)
Theorem migration_plan_unambiguous ss base :
  (forall s, s ∈ ss -> is_ok (current_of base s) = true) ->
  (is_ok (plan_user_collection_migrations ss base) = true <-> distinct_owners base ss) /\
  (forall plan, plan_user_collection_migrations ss base = Ok plan ->
     plan_for base ss plan /\
     (forall l n l' n', hlookup l plan = Some n -> hlookup l' plan = Some n' -> l <> n')).
Proof.
  intros Hok. unfold plan_user_collection_migrations. split; [split|].
  - intros H. destruct (plan_go ss base []) as [plan|] eqn:E; [|done].
    destruct (plan_go_sound _ _ [] _ _ (plan_for_nil base) E) as [H1 _]. intros s t Hs Ht El.
    destruct (H1 _ Hs) as (n & -> & Hn), (H1 _ Ht) as (m & -> & Hm). rewrite El in Hn. congruence.
  - intros Hd. by apply (plan_go_complete base ss [] [] (plan_for_nil base)).
  - intros plan E. pose proof (plan_go_sound _ _ [] _ _ (plan_for_nil base) E) as Hp. split; [done|].
    intros l n l' n' (s & _ & <- & _)%(proj2 Hp) (t & _ & _ & Ht)%(proj2 Hp). by apply (legacy_not_current base s t).
Qed.

(** ** Reading a stored object *)
Section Read.
Context (read : nat -> Z -> result string).
Lemma read_object_bounded fuel n max total chunks t b : blen chunks = total -> total <= max ->
  read_object fuel read n max total chunks = Ok (t, b) -> blen b = t /\ t <= max.
Proof.
  revert n total chunks. induction fuel as [|fuel IH]; intros n total chunks Hc Ht H; cbn [read_object] in H.
  { injection H as <- <-. done. }
  apply bind_ok in H as (c & _ & H). destruct (c =? "")%string; [injection H as <- <-; done|].
  cbv zeta in H. destruct (Z.ltb_spec max (total + blen c)); [done|].
  eapply IH; [|exact H0|exact H]. rewrite blen_app. lia.
Qed.
(** The fuel never ends a read: one more than the bytes still allowed is enough. *)
Lemma read_object_fuel k fuel n max total chunks : total <= max -> (Z.to_nat (max - total) < fuel)%nat ->
  read_object (k + fuel) read n max total chunks = read_object fuel read n max total chunks.
Proof.
  revert n total chunks. induction fuel as [|fuel IH]; intros n total chunks Ht Hf; [lia|].
  rewrite Nat.add_succ_r. cbn [read_object]. destruct (read n _) as [c|e]; [|done]. cbn.
  destruct (String.eqb_spec c "") as [|Hn]; [done|]. destruct (Z.ltb_spec max (total + blen c)); [done|].
  apply IH; [done|]. enough (0 < blen c) by lia. unfold blen. destruct c; [done|]. cbn [String.length]. lia.
Qed.
End Read.

(** A document that is read from object storage is the owner's and
    intact: its key is made of the digest of the caller's name and the
    session and document of the request, its record's bucket is the configured one,
    it has not expired, and its length is the declared one, positive and
    within the limit. *)
Theorem document_read_sound getenv get_object record doc session user max_bytes now body :
  _read_document_object getenv get_object record doc session user max_bytes now = Ok body ->
  exists settings, _document_object_settings getenv = Ok settings /\
    py_str (vor (dget "objectBucket" record) (VStr "")) = bucket settings /\
    py_str (vor (dget "objectKey" record) (VStr "")) =
      document_prefix getenv +++ "/" +++ utake 32 (sha256_hex user) +++ "/" +++ session +++ "/" +++ doc /\
    safe_ref session = true /\ safe_ref doc = true /\ expired (dget "expiresAt" record) now = false /\
    dget "size" record = VInt (blen body) /\ 0 < blen body <= max_bytes.
Proof.
  unfold _read_document_object. intros H. apply bind_ok in H as (settings & Hs & H). exists settings.
  cbv zeta in H. apply bind_ok in H as (key & Hk & H).
  assert (key = document_prefix getenv +++ "/" +++ utake 32 (sha256_hex user) +++ "/" +++ session +++ "/" +++ doc /\
    safe_ref session = true /\ safe_ref doc = true) as (-> & Hses & Hdoc).
  { unfold _expected_document_object_key in Hk. destruct (_ || _) eqn:Er; [done|]. bool_prop.
    apply bind_ok in Hk as (h & Hh & Hk). injection Hk as <-. by rewrite (utf8_sha256_ok _ _ Hh). }
  destruct (_ || _) eqn:Er; [done|]. bool_prop.
  destruct (dget "size" record) as [| |declared| | | |] eqn:Ed; try done.
  destruct (Z.leb_spec declared 0); [done|]. destruct (Z.ltb_spec max_bytes declared); [done|].
  destruct (expired _ now) eqn:Ex; [done|]. apply bind_ok in H as (_ & _ & H).
  assert (forall m h, try_except m [Exception_] h = Ok body -> (forall e b, h e <> Ok b) -> m = Ok body) as Htry.
  { intros m h Hm Hh. destruct m as [b|e]; [done|]. cbn in Hm. destruct (orb _ _); [by apply Hh in Hm|done]. }
  apply Htry in H; [|intros e b; by destruct (exn_isa _ _)].
  apply bind_ok in H as (read & _ & H). apply bind_ok in H as ([t b] & Hr & H). cbn [fst snd] in H.
  destruct (Z.eqb_spec t declared) as [->|]; [|done]. injection H as <-.
  assert (0 <= max_bytes) as Hm by lia.
  destruct (read_object_bounded _ _ _ _ 0 "" _ _ eq_refl Hm Hr) as [<- Hb].
  split_and!; try done.
Qed.
Lemma ulen_of_udrop_nat n s : ulen_nat (udrop_nat n s) = (ulen_nat s - n)%nat.
Proof.
  revert n. induction s as [|c s IH]; intros n; [done|]. cbn. destruct (is_cont c) eqn:E; [apply IH|].
  destruct n; cbn; [by rewrite E|]. apply IH.
Qed.
Lemma ulen_udrop n s : 0 <= n -> ulen (udrop n s) <= Z.max 0 (ulen s - n).
Proof.
  intros Hn. unfold udrop, norm_index, ulen. destruct (Z.ltb_spec n 0); [lia|].
  destruct (Z.to_nat n) as [|m] eqn:E; [lia|]. rewrite ulen_of_udrop_nat. lia.
Qed.
(** A shortened text never exceeds its limit. *)
Lemma char_limit_bound s limit : 0 <= limit ->
  ulen (fst (_apply_char_limit s (Some limit))) <= limit.
Proof.
  intros Hl. unfold _apply_char_limit. destruct (Z.leb_spec (ulen s) limit); [done|].
  destruct (Z.leb_spec limit (ulen OMITTED)); [by apply ulen_utake|]. cbv zeta. cbn [fst].
  remember (limit - ulen OMITTED) as r eqn:Er. rewrite !ulen_app. pose proof (ulen_nonneg OMITTED).
  
  assert (0 <= (r + 1) / 2 <= r) as Hh by (split; [apply Z.div_pos; lia|apply Z.div_le_upper_bound; lia]).
  pose proof (ulen_utake ((r + 1) / 2) s ltac:(lia)).
  destruct (Z.eqb_spec (r - (r + 1) / 2) 0); [change (ulen "") with 0; lia|].
  pose proof (ulen_udrop (ulen s - (r - (r + 1) / 2)) s ltac:(lia)). lia.
Qed.
