(* ===== verification/Markdown.v ===== *)
(** * From extraction results to Markdown ([nat_nv_ingest/nat_nv_ingest.py])

    The text cleaners, the table repair, the removal of near-duplicate
    entries and the page-by-page assembly.  [html.unescape] and the Unicode
    data behind [str.isalnum] and [\w] are parameters. *)
From S2P Require Import Prelude PyStr PyFloat PyVal Json Dedupe.
#[local] Open Scope Z_scope.

Definition NL : string := String (chr 10) "".
(** ** Regular expressions *)
(** [re.sub(p, new, s)] for a pattern that never matches the empty text:
    [m] gives what follows a match at the start of a text. *)
Fixpoint re_sub (fuel : nat) (m : string -> option string) (new s : string) : string :=
  match fuel, s with
  | O, _ | _, EmptyString => s
  | S fuel, String c s' =>
      match m s with
      | Some rest => new +++ re_sub fuel m new rest
      | None => String c (re_sub fuel m new s')
      end
  end.
Definition sub (m : string -> option string) (new s : string) : string := re_sub (String.length s) m new s.
Definition _BR_RE (s : string) : option string :=
  match strip_prefix "<br" s with
  | Some r => strip_prefix ">" (removeprefix (lstrip r) "/")
  | None => None
  end.
Definition _HTML_TAG_RE (s : string) : option string :=
  match strip_prefix "<" s with
  | Some r =>
      let r := removeprefix r "/" in
      if existsb (startswith r) ["span"; "div"; "p"; "font"]
      then match cut r ">" with Some (_, rest) => Some rest | None => None end else None
  | None => None
  end.
Definition blank_char (c : ascii) : bool := char_is " " c || char_is (chr 9) c.
Definition _WS_RE (s : string) : option string :=
  match s with String c r => if blank_char c then Some (lstrip_chars blank_char r) else None | _ => None end.
Definition _SPACE_NL_RE (s : string) : option string :=
  if startswith s " " then strip_prefix NL (lstrip_chars (char_is " ") s) else None.
Definition _NL_COLLAPSE_RE (s : string) : option string :=
  match strip_prefix (NL +++ NL +++ NL) s with Some r => Some (lstrip_chars (char_is (chr 10)) r) | None => None end.
Definition collapse_newlines (s : string) : string := sub _NL_COLLAPSE_RE (NL +++ NL) s.

(** The continuation bytes of a character, and what follows them. *)
Fixpoint conts (s : string) : string * string :=
  match s with
  | EmptyString => ("", "")
  | String c r => if is_cont c then let '(a, b) := conts r in (String c a, b) else ("", s)
  end.
Fixpoint chars_go (fuel : nat) (s : string) : list string :=
  match fuel, s with
  | O, _ | _, EmptyString => []
  | S fuel, String c r => let '(a, b) := conts r in String c a :: chars_go fuel b
  end.
(** The characters of a text. *)
Definition chars (s : string) : list string := chars_go (String.length s) s.
Definition ascii_alnum (c : ascii) : bool := is_alnum_lower c || is_upper c.

Section Cleaners.
Context (html_unescape : string -> string).
(** [str.isalnum] and [\w] of a character outside ASCII. *)
Context (wide_alnum wide_word : string -> bool).

Definition is_word_char (ch : string) : bool :=
  match ch with
  | String c EmptyString => ascii_alnum c || char_is "_" c
  | EmptyString => false
  | _ => wide_word ch
  end.
(** [_DEHYPHEN_RE.sub(r"\1\2", s)], on the characters of [s]. *)
Fixpoint dehyphen (l : list string) : list string :=
  match l with
  | a :: (h :: n :: b :: rest) as tail =>
      if is_word_char a && (h =? "-")%string && (n =? NL)%string && is_word_char b
      then a :: b :: dehyphen rest else a :: dehyphen tail
  | a :: tail => a :: dehyphen tail
  | [] => []
  end.

Definition replacements : list (string * string) :=
  (* U+00A0, U+200B, U+200C, U+200D, U+FEFF, U+2028, U+2029 *)
  [(String (chr 194) (String (chr 160) ""), " ");
   (String (chr 226) (String (chr 128) (String (chr 139) "")), "");
   (String (chr 226) (String (chr 128) (String (chr 140) "")), "");
   (String (chr 226) (String (chr 128) (String (chr 141) "")), "");
   (String (chr 239) (String (chr 187) (String (chr 191) "")), "");
   (String (chr 226) (String (chr 128) (String (chr 168) "")), NL);
   (String (chr 226) (String (chr 128) (String (chr 169) "")), NL);
   ("‘", "'"); ("’", "'"); ("“", String dq ""); ("”", String dq "");
   ("–", "-"); ("—", "--"); ("…", "...")].
Definition clean_markdown (text : string) : string :=
  if (text =? "")%string then text else
  let text := sub _HTML_TAG_RE "" (sub _BR_RE NL (html_unescape text)) in
  let text := fold_left (fun t r => replace (fst r) (snd r) t) replacements text in
  let text := String.concat "" (dehyphen (chars text)) in
  strip (collapse_newlines (sub _SPACE_NL_RE NL (sub _WS_RE " " text))).

(** ** Tables *)
Definition drop_char (d : ascii) (s : string) : string := String.concat "" (split_char d s).
Definition empty_row (line : string) : bool :=
  match strip_prefix "|" line with Some r => is_blank (drop_char "|" r) | None => false end.
(** [while lines and _EMPTY_ROW_RE.match(lines[-1]): lines.pop()]. *)
Fixpoint pop_empty_rows (lines : list string) : list string :=
  match lines with
  | [] => []
  | l :: ls =>
      match pop_empty_rows ls with
      | [] => if empty_row l then [] else [l]
      | ls => l :: ls
      end
  end.
Definition strip_pipes (s : string) : string := rstrip_chars (char_is "|") (lstrip_chars (char_is "|") s).
Definition dashes (c : string) : bool := (replace "-" "" (strip c) =? "")%string.
Definition repaired_cells (first_body : bool) (header_cols : Z) (line : string) : list string :=
  let cells := split_char "|" (strip_pipes (strip line)) in
  if first_body && forallb dashes cells then repeat " --- " (Z.to_nat header_cols)
  else if Z.of_nat (length cells) <? header_cols
  then cells ++ repeat "" (Z.to_nat (header_cols - Z.of_nat (length cells)))
  else if header_cols <? Z.of_nat (length cells) then py_take header_cols cells else cells.
Definition table_row (cells : list string) : string := "| " +++ join " | " (map strip cells) +++ " |".
Definition repaired_line (header_cols : Z) (i : nat) (line : string) : string :=
  if startswith (strip line) "|" then table_row (repaired_cells (i =? 1)%nat header_cols line) else line.
Definition clean_table_markdown (text : string) : string :=
  if (text =? "")%string then text else
  let text := replace (String (chr 194) (String (chr 160) "")) " " (sub _HTML_TAG_RE "" (html_unescape text)) in
  match pop_empty_rows (split_char (chr 10) (strip text)) with
  | [] => text
  | (header :: _) as lines =>
      let header_cols := count header "|" - 1 in
      if header_cols <? 1 then join NL lines else join NL (imap (repaired_line header_cols) lines)
  end.

(** ** Near-duplicates *)
Definition space_char (ch : string) : bool := negb (ch =? "")%string && is_blank ch.
Definition alnum_char (ch : string) : bool :=
  match ch with String c EmptyString => ascii_alnum c | _ => wide_alnum ch end.
Definition _text_quality_score (text : string) : float :=
  if (text =? "")%string then f_of_Z 0 else
  f_div (f_of_Z (Z.of_nat (length (List.filter (fun c => alnum_char c || space_char c) (chars text)))))
        (f_of_Z (ulen text)).
Definition dedup_char (ch : string) : bool :=
  match ch with String c EmptyString => is_alnum_lower c | _ => false end || space_char ch.
Definition _normalize_for_dedup (text : string) : gset string :=
  list_to_set (split_ws (String.concat "" (List.filter dedup_char (chars (lower text))))).

(** An entry in its page's group: position, content and words. *)
Record candidate := Candidate { c_idx : nat; c_text : string; c_words : gset string }.
Definition HALF : float := dec_to_float false 5 (-1).
Definition near_duplicate (a b : candidate) : bool :=
  let union := c_words a ∪ c_words b in
  f_leb HALF (if bool_decide (union = ∅) then f_of_Z 0 else
              f_div (f_of_Z (Z.of_nat (size (c_words a ∩ c_words b)))) (f_of_Z (Z.of_nat (size union)))).
Definition loser (a b : candidate) : nat :=
  if f_leb (_text_quality_score (c_text b)) (_text_quality_score (c_text a)) then c_idx b else c_idx a.
Fixpoint drop_against (a : candidate) (rest : list candidate) (drop : list nat) : list nat :=
  match rest with
  | [] => drop
  | b :: rest =>
      if bool_decide (c_idx b ∈ drop) then drop_against a rest drop
      else if near_duplicate a b then drop_against a rest (loser a b :: drop)
      else drop_against a rest drop
  end.
Fixpoint drop_group (group : list candidate) (drop : list nat) : list nat :=
  match group with
  | [] => drop
  | a :: rest =>
      if bool_decide (c_idx a ∈ drop) then drop_group rest drop
      else drop_group rest (drop_against a rest drop)
  end.
Fixpoint add_to_page (page : value) (c : candidate) (groups : list (value * list candidate))
  : list (value * list candidate) :=
  match groups with
  | [] => [(page, [c])]
  | (p, g) :: rest => if py_eq p page then (p, g ++ [c]) :: rest else (p, g) :: add_to_page page c rest
  end.
(** [v.get(k, default)] and [v.strip()] of a value that may be anything. *)
Definition get_or (v : value) (k : string) (def : value) : result value :=
  match v with VDict d => Ok (dget_or k def d) | _ => raise AttributeError "object has no attribute 'get'" end.
Definition str_strip (v : value) : result string :=
  match v with VStr s => Ok (strip s) | _ => raise AttributeError "object has no attribute 'strip'" end.
Definition hash_key (v : value) : result value :=
  match v with VList _ | VDict _ => raise TypeError "unhashable type" | _ => Ok v end.
(** The page and the group member an entry gives, if any. *)
Definition candidate_of (idx : nat) (entry : value) : result (option (value * candidate)) :=
  doc_type ← get_or entry "document_type" (VStr "");
  if negb (py_eq doc_type (VStr "text")) then Ok None else
  meta ← get_or entry "metadata" (VDict []);
  content_meta ← get_or meta "content_metadata" (VDict []);
  page ← get_or content_meta "page_number" (VInt (-1));
  raw ← get_or meta "content" (VStr "");
  content ← str_strip raw;
  if (content =? "")%string then Ok None else
  let words := _normalize_for_dedup content in
  if bool_decide (words = ∅) then Ok None else
  page ← hash_key page;
  Ok (Some (page, Candidate idx content words)).
Fixpoint group_entries (idx : nat) (entries : list value) (groups : list (value * list candidate))
  : result (list (value * list candidate)) :=
  match entries with
  | [] => Ok groups
  | entry :: rest =>
      c ← candidate_of idx entry;
      group_entries (S idx) rest (match c with Some (page, c) => add_to_page page c groups | None => groups end)
  end.
Definition drop_indices (groups : list (value * list candidate)) : list nat :=
  fold_left (fun drop g => drop_group (snd g) drop) groups [].
Fixpoint keep_entries (idx : nat) (drop : list nat) (entries : list value) : list value :=
  match entries with
  | [] => []
  | e :: rest => if bool_decide (idx ∈ drop) then keep_entries (S idx) drop rest
                 else e :: keep_entries (S idx) drop rest
  end.
Definition _dedup_entries (entries : list value) : result (list value) :=
  match entries with
  | [] | [_] => Ok entries
  | _ => groups ← group_entries 0 entries []; Ok (keep_entries 0 (drop_indices groups) entries)
  end.
End Cleaners.

(** ** Laws of the Markdown conversion

    What the removal of near-duplicates leaves, and the width of a repaired
    table. *)
(** ** Near-duplicates *)
Section Dedup.
Context (wide_alnum : string -> bool).
Abbreviation against := (drop_against wide_alnum).
Abbreviation group_drop := (drop_group wide_alnum).
Lemma drop_against_mono a rest drop : drop ⊆ against a rest drop.
Proof.
  revert drop. induction rest as [|b rest IH]; intros drop; cbn [drop_against]; [done|].
  case_bool_decide; [apply IH|]. destruct (near_duplicate a b); [|apply IH]. etrans; [|apply IH]. set_solver.
Qed.
Lemma drop_against_pair a b rest drop : b ∈ rest -> c_idx a ∉ against a rest drop -> c_idx b ∉ against a rest drop ->
  near_duplicate a b = false.
Proof.
  revert drop. induction rest as [|x rest IH]; intros drop Hb Ha Hn; [by apply not_elem_of_nil in Hb|].
  cbn [drop_against] in Ha, Hn. apply elem_of_cons in Hb as [<-|Hb].
  - case_bool_decide as Hd; [by destruct Hn; apply drop_against_mono|].
    destruct (near_duplicate a b) eqn:E; [|done]. exfalso.
    assert (loser wide_alnum a b ∈ against a rest (loser wide_alnum a b :: drop)) as Hl
      by (apply drop_against_mono; set_solver).
    revert Hl. unfold loser at 1. by destruct (f_leb _ _).
  - case_bool_decide; [by eapply IH|]. destruct (near_duplicate a x); by eapply IH.
Qed.
Lemma drop_group_mono g drop : drop ⊆ group_drop g drop.
Proof.
  revert drop. induction g as [|a g IH]; intros drop; cbn [drop_group]; [done|].
  case_bool_decide; [apply IH|]. etrans; [apply drop_against_mono|apply IH].
Qed.
Lemma drop_group_pair g1 a g2 b drop : b ∈ g2 ->
  c_idx a ∉ group_drop (g1 ++ a :: g2) drop -> c_idx b ∉ group_drop (g1 ++ a :: g2) drop ->
  near_duplicate a b = false.
Proof.
  revert drop. induction g1 as [|x g1 IH]; intros drop Hb Ha Hn; cbn [app drop_group] in Ha, Hn.
  - case_bool_decide as Hd; [by destruct Ha; apply drop_group_mono|].
    apply (drop_against_pair a b g2 drop Hb); intros H; [destruct Ha|destruct Hn]; by apply drop_group_mono.
  - case_bool_decide; by eapply IH.
Qed.
Lemma drop_indices_mono (groups : list (value * list candidate)) drop g : g ∈ groups -> exists d,
  group_drop (snd g) d ⊆ fold_left (fun drop g => group_drop (snd g) drop) groups drop.
Proof.
  assert (M : forall (gs : list (value * list candidate)) d, d ⊆ fold_left (fun drop g => group_drop (snd g) drop) gs d).
  { intros gs. induction gs as [|x gs IH]; intros d; cbn [fold_left]; [done|]. etrans; [apply drop_group_mono|apply IH]. }
  revert drop. induction groups as [|x groups IH]; intros drop H; [by apply not_elem_of_nil in H|].
  apply elem_of_cons in H as [<-|H]; cbn; [exists drop; apply M|by apply IH].
Qed.
Lemma keep_entries_sublist idx drop entries : sublist (keep_entries idx drop entries) entries.
Proof.
  revert idx. induction entries as [|e entries IH]; intros idx; cbn; [done|].
  case_bool_decide; [by apply sublist_cons|by apply sublist_skip].
Qed.
(** The kept entries are some of the entries in their order, and no two texts
    of one page that are both kept share half of their words. *)
Lemma dedup_leaves_no_near_duplicates e1 e2 entries groups kept :
  group_entries 0 (e1 :: e2 :: entries) [] = Ok groups ->
  _dedup_entries wide_alnum (e1 :: e2 :: entries) = Ok kept ->
  sublist kept (e1 :: e2 :: entries) /\
  kept = keep_entries 0 (drop_indices wide_alnum groups) (e1 :: e2 :: entries) /\
  forall page g1 a g2 b, (page, g1 ++ a :: g2) ∈ groups -> b ∈ g2 ->
    c_idx a ∉ drop_indices wide_alnum groups -> c_idx b ∉ drop_indices wide_alnum groups ->
    near_duplicate a b = false.
Proof.
  intros Hg H. unfold _dedup_entries in H. rewrite Hg in H.
  assert (kept = keep_entries 0 (drop_indices wide_alnum groups) (e1 :: e2 :: entries)) as -> by (cbn [mbind result_bind] in H; congruence).
  split; [apply keep_entries_sublist|].
  split; [done|]. intros page g1 a g2 b Hin Hb Ha Hn. destruct (drop_indices_mono groups [] _ Hin) as [d Hd].
  apply (drop_group_pair g1 a g2 b d Hb); intros C; [destruct Ha|destruct Hn]; by apply Hd.
Qed.
End Dedup.

(** Two entries may be dropped for each other's sake: the second text is
    replaced by the first, which the third replaces, although the third has
    little of the second. *)
Definition text_entry (s : string) : value :=
  VDict [("document_type", VStr "text");
         ("metadata", VDict [("content", VStr s); ("content_metadata", VDict [("page_number", VInt 1)])])].
Definition entry_a : value := text_entry "one two three four.".
Definition entry_b : value := text_entry "one two three nine".
Definition entry_c : value := text_entry "one two, four. eight.".
Example dropped_without_replacement :
  _dedup_entries (fun _ => true) [entry_a; entry_b; entry_c] = Ok [entry_b] /\
  _dedup_entries (fun _ => true) [entry_b; entry_c] = Ok [entry_b; entry_c].
Proof. split; vm_compute; reflexivity. Qed.

(** ** Tables *)
Lemma repaired_width first_body cols line : 1 <= cols -> Z.of_nat (length (repaired_cells first_body cols line)) = cols.
Proof.
  intros Hc. unfold repaired_cells. cbv zeta. set (cells := split_char _ _).
  destruct (_ && _); [rewrite repeat_length; lia|].
  destruct (Z.ltb_spec (Z.of_nat (length cells)) cols); [rewrite length_app, repeat_length; lia|].
  destruct (Z.ltb_spec cols (Z.of_nat (length cells))); [|lia].
  unfold py_take. destruct (Z.ltb_spec cols 0); [lia|]. rewrite length_firstn. lia.
Qed.
Example repaired_table :
  clean_table_markdown (fun s => s) ("| a | b |" +++ NL +++ "|---|" +++ NL +++ "| 1 | 2 | 3 |" +++ NL +++ "| | |") =
  "| a | b |" +++ NL +++ "| --- | --- |" +++ NL +++ "| 1 | 2 |".
Proof. vm_compute. reflexivity. Qed.
