(* ===== verification/Extraction.v ===== *)
(** * Assembling and reporting extraction results ([nat_nv_ingest/nat_nv_ingest.py])

    Reading order, the Markdown of a whole document, and the texts in which
    single, extracted and batched documents are reported. *)
From S2P Require Import Prelude PyStr PyFloat PyVal Json Dedupe Collections Markdown.
#[local] Open Scope Z_scope.

(** ** Ordering of Python values *)
Definition as_int (v : value) : option Z :=
  match v with VInt z => Some z | VBool b => Some (Z_of_bool b) | _ => None end.
Definition not_ordered {A} : result A := raise TypeError "'<' not supported between instances".
(** [a < b]; numbers with numbers, texts with texts, lists with lists. *)
Fixpoint py_lt (a b : value) {struct a} : result bool :=
  match a, b with
  | VFloat f, VFloat g => Ok (f_ltb f g)
  | VFloat f, (VInt _ | VBool _) =>
      Ok (match as_int b with Some z => match f_cmp_Z f z with Some Lt => true | _ => false end | None => false end)
  | (VInt _ | VBool _), VFloat g =>
      Ok (match as_int a with Some z => match f_cmp_Z g z with Some Gt => true | _ => false end | None => false end)
  | (VInt _ | VBool _), (VInt _ | VBool _) =>
      Ok (match as_int a, as_int b with Some x, Some y => x <? y | _, _ => false end)
  | VStr s, VStr t => Ok (str_leb s t && negb (s =? t)%string)
  | VList l, VList m =>
      (fix go l m := match l, m with
         | _, [] => Ok false
         | [], _ :: _ => Ok true
         | x :: xs, y :: ys => if py_eq x y then go xs ys else py_lt x y
         end) l m
  | _, _ => not_ordered
  end.

(** ** Reading order *)
Definition _sort_key (entry : value) : result value :=
  meta ← get_or entry "metadata" (VDict []);
  content_meta ← get_or meta "content_metadata" (VDict []);
  let content_meta := vor content_meta (VDict []) in
  page ← get_or content_meta "page_number" (VInt 0);
  hierarchy ← get_or content_meta "hierarchy" (VDict []);
  let hierarchy := vor hierarchy (VDict []) in
  x0 ← get_or hierarchy "x0" (VInt 0);
  y0 ← get_or hierarchy "y0" (VInt 0);
  Ok (VList [page; y0; x0]).
(** [a < b or b < a] can be asked of any two keys. *)
Definition comparable (a b : value) : bool := is_ok (py_lt a b) && is_ok (py_lt b a).
Definition key_le (a b : value * value) : bool :=
  match py_lt (fst b) (fst a) with Ok b => negb b | Raise _ => true end.
(** [sorted(entries, key=_sort_key)]: stable; it fails when two keys are not comparable. *)
Definition sorted_entries (entries : list value) : result (list value) :=
  keys ← mapM_r _sort_key entries;
  if forallb (fun a => forallb (comparable a) keys) keys
  then Ok (map snd (stable_sort key_le (zip keys entries))) else not_ordered.
Definition in_reading_order (entries : list value) : result (list value) :=
  try_except (sorted_entries entries) [TypeError; KeyError] (fun _ => Ok entries).

(** ** The document *)
Record page_state := PageState { md_parts : list string; current_page : value; seen_pages : gset Z }.
Definition put (l : list string) (st : page_state) : page_state :=
  PageState (md_parts st ++ l) (current_page st) (seen_pages st).
Definition see_page (page_num : value) (st : page_state) : page_state :=
  let seen := match as_int page_num with Some z => {[z]} ∪ seen_pages st | None => seen_pages st end in
  if negb (is_none page_num) && negb (py_eq page_num (current_page st)) then
    let sep := if is_none (current_page st) then [] else [""; "---"; ""] in
    PageState (md_parts st ++ sep) page_num seen
  else PageState (md_parts st) (current_page st) seen.

Section Assembly.
Context (html_unescape : string -> string) (wide_alnum wide_word : string -> bool).
(** [meta.get(outer, {}).get(inner, "").strip()]. *)
Definition nested_text (meta : value) (outer inner : string) : result string :=
  m ← get_or meta outer (VDict []);
  t ← get_or m inner (VStr "");
  str_strip t.
Definition entry_part (doc_type : value) (meta : value) : result string :=
  if py_eq doc_type (VStr "text") then
    raw ← get_or meta "content" (VStr "");
    t ← str_strip raw; Ok (clean_markdown html_unescape wide_word t)
  else if py_eq doc_type (VStr "structured") then
    t ← nested_text meta "table_metadata" "table_content";
    Ok (clean_table_markdown html_unescape t)
  else if py_eq doc_type (VStr "image") then
    t ← nested_text meta "image_metadata" "caption";
    Ok (if (t =? "")%string then "" else "*[Image: " +++ t +++ "]*")
  else if py_eq doc_type (VStr "audio") then
    t ← nested_text meta "audio_metadata" "audio_transcript";
    Ok (if (t =? "")%string then "" else "> " +++ t)
  else Ok "".
(** A table whose text is not empty is kept even if its repair is. *)
Definition entry_kept (doc_type : value) (meta : value) (part : string) : result bool :=
  if py_eq doc_type (VStr "structured") then
    t ← nested_text meta "table_metadata" "table_content"; Ok (negb (t =? "")%string)
  else Ok (negb (part =? "")%string).
Definition add_entry (st : page_state) (entry : value) : result page_state :=
  meta ← get_or entry "metadata" (VDict []);
  doc_type ← get_or entry "document_type" (VStr "");
  content_meta ← get_or meta "content_metadata" (VDict []);
  page_num ← get_or content_meta "page_number" VNone;
  let st := see_page page_num st in
  part ← entry_part doc_type meta;
  kept ← entry_kept doc_type meta part;
  Ok (if (kept : bool) then put [part; ""] st else st).
Fixpoint add_entries (st : page_state) (entries : list value) : result page_state :=
  match entries with
  | [] => Ok st
  | e :: rest => st ← add_entry st e; add_entries st rest
  end.
Definition results_to_markdown (results : list (list value)) : result (string * Z) :=
  match results with
  | [] | [] :: _ => Ok ("", 0)
  | entries :: _ =>
      _ ← mapM_r (fun e => t ← get_or e "document_type" (VStr "unknown"); hash_key t) entries;
      entries ← in_reading_order entries;
      entries ← _dedup_entries wide_alnum entries;
      st ← add_entries (PageState [] VNone ∅) entries;
      Ok (collapse_newlines (strip (join NL (md_parts st))), Z.of_nat (size (seen_pages st)))
  end.
End Assembly.

(** ** Results *)
Inductive ingest_status := Success | Partial | Failure.
Record IngestResult := Ingested {
  i_status : ingest_status; i_filename : value; i_chunks : Z; i_failures : Z; i_pages : Z;
  i_collection : string; i_markdown : string; i_error : string }.
Inductive error_kind := NoKind | Forbidden | Unavailable.
Record ExtractResult := Extracted {
  x_ok : bool; x_filename : value; x_pages : Z; x_markdown : string; x_truncated : bool;
  x_original_chars : Z; x_error : string; x_kind : error_kind }.

Definition format_single_doc_response (r : IngestResult) : string :=
  let pages := str_of_Z (i_pages r) in
  let chunks := str_of_Z (i_chunks r) in
  let name := py_str (i_filename r) in
  match i_status r with
  | Failure => i_error r
  | status =>
      if negb (i_markdown r =? "")%string then
        i_markdown r +++ NL +++ NL +++ "---" +++ NL +++ NL +++ "*1 document indexed • " +++ pages +++ " pages • " +++
        chunks +++ " chunks in collection '" +++ i_collection r +++ "'*"
      else match status with
           | Success =>
               "✅ Successfully processed document '" +++ name +++ "'" +++ NL +++ NL +++
               "- 1 document indexed" +++ NL +++ "- " +++ pages +++ " pages" +++ NL +++
               "- " +++ chunks +++ " text chunks" +++ NL +++
               "- Stored in collection '" +++ i_collection r +++ "'" +++ NL +++ NL +++
               "The document is now searchable in your knowledge base!"
           | _ =>
               "⚠️ Partially processed document '" +++ name +++ "'" +++ NL +++ NL +++
               "- 1 document indexed" +++ NL +++ "- " +++ pages +++ " pages" +++ NL +++
               "- " +++ chunks +++ " chunks successful, " +++ str_of_Z (i_failures r) +++ " failed" +++ NL +++
               "- Stored in collection '" +++ i_collection r +++ "'" +++ NL +++ NL +++
               "Some content may be missing from the search index."
           end
  end.
Definition EXTRACT_ENVELOPE_PREFIX : string := "<<<DAEDALUS_EXTRACT_JSON>>>".
Definition EXTRACT_ENVELOPE_SUFFIX : string := "<<<END>>>".
Definition extract_payload (r : ExtractResult) : dict :=
  [("filename", x_filename r); ("pages", VInt (x_pages r)); ("markdown", VStr (x_markdown r));
   ("truncated", VBool (x_truncated r)); ("original_chars", VInt (x_original_chars r))].
Definition format_extract_response (r : ExtractResult) : string :=
  if x_ok r then EXTRACT_ENVELOPE_PREFIX +++ dumps (VDict (extract_payload r)) +++ EXTRACT_ENVELOPE_SUFFIX
  else x_error r.

(** A batch's documents, indexed and failed. *)
Record indexed := Indexed { d_id : value; d_chunks : Z; d_pages : Z; d_status : ingest_status }.
Record failed := Failed { f_id : value; f_error : string }.
Definition indexed_line (d : indexed) : string :=
  "- " +++ py_str (d_id d) +++ " (" +++ str_of_Z (d_chunks d) +++ " chunks, " +++ str_of_Z (d_pages d) +++ " pages)" +++ NL.
Definition failed_line (d : failed) : string := "- " +++ py_str (f_id d) +++ ": " +++ utake 100 (f_error d) +++ "..." +++ NL.
Definition lines_of {A} (f : A -> string) (l : list A) : string := String.concat "" (map f l).
Definition few {A} (l : list A) : bool := (length l <=? 10)%nat.
Definition format_batch_response (total : Z) (ok : list indexed) (bad : list failed)
    (total_chunks total_pages : Z) (collection_name : string) (chunk_size chunk_overlap : Z) : string :=
  let success_count := str_of_Z (Z.of_nat (length ok)) in
  let failure_count := str_of_Z (Z.of_nat (length bad)) in
  match bad, ok with
  | [], _ =>
      "✅ Successfully processed all " +++ str_of_Z total +++ " documents" +++ NL +++ NL +++
      "📄 **Summary:**" +++ NL +++ "- " +++ str_of_Z total +++ " documents indexed" +++ NL +++
      "- " +++ str_of_Z total_pages +++ " pages" +++ NL +++
      "- Total chunks indexed: " +++ str_of_Z total_chunks +++ NL +++
      "- Collection: '" +++ collection_name +++ "'" +++ NL +++
      "- Chunk size: " +++ str_of_Z chunk_size +++ " with " +++ str_of_Z chunk_overlap +++ " overlap" +++ NL +++ NL +++
      (if few ok then "📋 **Processed files:**" +++ NL +++ lines_of indexed_line ok else "") +++
      NL +++ "All documents are now searchable in your knowledge base!"
  | _, _ :: _ =>
      "⚠️ Partially completed batch processing" +++ NL +++ NL +++
      "📄 **Summary:**" +++ NL +++
      "- Successfully processed: " +++ success_count +++ "/" +++ str_of_Z total +++ " documents" +++ NL +++
      "- " +++ success_count +++ " documents indexed" +++ NL +++
      "- " +++ str_of_Z total_pages +++ " pages" +++ NL +++
      "- Failed: " +++ failure_count +++ " documents" +++ NL +++
      "- Total chunks indexed: " +++ str_of_Z total_chunks +++ NL +++
      "- Collection: '" +++ collection_name +++ "'" +++ NL +++ NL +++
      (if few ok then "✅ **Successfully processed:**" +++ NL +++ lines_of indexed_line ok +++ NL else "") +++
      (if few bad then "❌ **Failed documents:**" +++ NL +++ lines_of failed_line bad else "") +++
      NL +++ "Successfully processed documents are searchable in your knowledge base."
  | _, [] =>
      "❌ Failed to process any documents" +++ NL +++ NL +++
      "📄 **Summary:**" +++ NL +++ "- Attempted: " +++ str_of_Z total +++ " documents" +++ NL +++
      "- All failed" +++ NL +++ NL +++
      (if few bad then "**Errors:**" +++ NL +++ lines_of failed_line bad else "") +++
      NL +++ "Please check the documents and try again."
  end.
(** What a search over the user's documents returned. *)
Record passage := Passage { p_content : string; p_text : string; p_metadata : dict }.
Fixpoint passage_parts (idx : Z) (docs : list passage) : list string :=
  match docs with
  | [] => []
  | d :: rest =>
      let content := if (p_content d =? "")%string then p_text d else p_content d in
      let meta k := dget k (p_metadata d) in
      let source := vor (meta "filename") (vor (meta "source") (vor (meta "document_id") (meta "title"))) in
      let bits := [str_of_Z idx +++ "."] ++ (if truthy source then [py_str source] else []) ++
                  (if is_none (meta "distance") then [] else ["distance=" +++ py_str (meta "distance")]) in
      (NL +++ join " " bits +++ NL +++ content) :: passage_parts (idx + 1) rest
  end.
Definition format_user_document_search_results (docs : list passage) (collection_name : string) : string :=
  match docs with
  | [] => "No matching uploaded-document passages found in " +++ collection_name +++ "."
  | _ => join NL (["Collection: " +++ collection_name; "Passages: " +++ str_of_Z (Z.of_nat (length docs))] ++
                  passage_parts 1 docs)
  end.
