(* ===== verification/Documents.v ===== *)
(** * Stored documents ([nat_nv_ingest/nat_nv_ingest.py])

    How an uploaded document is loaded, the identity under which its ingestion
    is reserved, and the pipeline the ingestion SDK is given. *)
From S2P Require Import Prelude PyStr PyFloat PyVal Json JsonRoundtrip Redis PyUrl Sha Dedupe World Identity.
From S2P Require Import Tokens Collections Markdown Extraction.
#[local] Open Scope Z_scope.

(** ** Loading *)
Definition str_or (v : value) (fallback : string) : string := if truthy v then py_str v else fallback.
Section Loading.
Context (getenv : string -> option string).
Context (get_object : object_settings -> string -> result (nat -> Z -> result string)).
Definition _load_document_bytes (document_record : dict) (document_id session_id username : string)
    (now_ms : float) : result (string * string) :=
  let filename := str_or (dget "filename" document_record) (document_id +++ ".bin") in
  let max_bytes := document_ingest_max_size_bytes getenv in
  let from_object :=
    if negb (py_eq (dget "storage" document_record) (VStr "object-v1"))
    then storage_error "Retrieved document data is empty."
    else
      body ← _read_document_object getenv get_object document_record document_id session_id username
               max_bytes now_ms;
      Ok (body, filename) in
  match dget "data" document_record with
  | VStr data =>
      if (data =? "")%string then from_object else
      match _document_size_error data max_bytes with
      | Some msg => raise DocumentStorageError msg
      | None =>
          let unpadded := rstrip_chars (char_is "=") data in
          let data := if negb (unpadded =? "")%string && (ulen unpadded mod 4 =? 0) then unpadded else data in
          match b64decode data with
          | Some body => Ok (body, filename)
          | None => storage_error "Retrieved document data is invalid."
          end
      end
  | _ => from_object
  end.

(** ** Immutable identities *)
Definition is_ascii (s : string) : bool := all_chars (fun c => byte_of c <? 128) s.
Definition encode_ascii (s : string) : result string :=
  if is_ascii s then Ok s else raise ValueError "'ascii' codec can't encode character".
Definition document_key (session_id document_id : string) : string :=
  "document:" +++ session_id +++ ":" +++ document_id.
Definition safe_ids (ref : value) : result (string * string) :=
  match ref with
  | VDict r =>
      match dget "documentId" r, dget "sessionId" r with
      | VStr document_id, VStr session_id =>
          if negb (safe_ref document_id) || negb (safe_ref session_id)
          then storage_error "Document reference is invalid." else Ok (document_id, session_id)
      | _, _ => storage_error "Document reference must contain documentId and sessionId."
      end
  | _ => storage_error "Invalid document reference provided."
  end.
(** The identity of one record found under [document_key]. *)
Definition identity_of (username document_id session_id : string) (record : value) : result dict :=
  match record with
  | VDict record =>
      if negb (_can_access_stored_document record (Some username))
      then storage_error "You do not have access to this document." else
      let identity := [("documentId", VStr document_id); ("sessionId", VStr session_id);
                       ("size", dget "size" record)] in
      if py_eq (dget "storage" record) (VStr "object-v1") then
        match dget "objectKey" record, dget "objectBucket" record with
        | VStr object_key, VStr object_bucket =>
            settings ← _document_object_settings getenv;
            expected ← _expected_document_object_key (document_prefix getenv) username session_id document_id;
            if negb (object_bucket =? bucket settings)%string || negb (object_key =? expected)%string
            then storage_error "Stored document object reference is invalid."
            else Ok (identity ++ [("storage", VStr "object-v1"); ("objectKey", VStr object_key);
                                  ("objectBucket", VStr object_bucket); ("etag", dget "etag" record)])
        | _, _ => storage_error "Stored document object reference is invalid."
        end
      else match dget "data" record with
           | VStr data =>
               if (data =? "")%string then storage_error "Retrieved document data is empty." else
               bytes ← encode_ascii data;
               Ok (identity ++ [("storage", VStr "legacy-base64"); ("payloadSha256", VStr (sha256_hex bytes))])
           | _ => storage_error "Retrieved document data is empty."
           end
  | _ => storage_error "You do not have access to this document."
  end.
End Loading.

(** [_dedup_document_refs]; a document id that is a list or a dictionary cannot be looked up. *)
Definition ref_id (ref : value) : value := match ref with VDict r => dget "documentId" r | _ => VNone end.
Fixpoint dedup_refs (seen : list value) (refs : list value) : result (list value) :=
  match refs with
  | [] => Ok []
  | ref :: rest =>
      let doc_id := ref_id ref in
      if negb (truthy doc_id) then kept ← dedup_refs seen rest; Ok (ref :: kept) else
      _ ← hash_key doc_id;
      if existsb (py_eq doc_id) seen then dedup_refs seen rest
      else kept ← dedup_refs (doc_id :: seen) rest; Ok (ref :: kept)
  end.
Definition _dedup_document_refs (refs : list value) : result (list value) := dedup_refs [] refs.

(** ** The SDK's pipeline *)
Record ingest_config := IngestConfig {
  redis_url : string; milvus_uri : string; milvus_username : option string; milvus_password : option string;
  milvus_token : option string; minio_endpoint : string; minio_access_key : string; minio_secret_key : string;
  minio_bucket : string; g_chunk_size : Z; g_chunk_overlap : Z; embedder_dim : Z; tokenizer : string;
  recreate_collection : bool; default_collection_name : string; extract_method : string; use_v2_api : bool;
  pdf_pages_per_chunk : Z; enable_image_filter : bool; enable_captioning : bool;
  caption_model_name : option string; caption_endpoint_url : option string; caption_api_key : option string;
  batch_concurrency : Z; max_documents_per_batch : Z; ingest_max_retries : Z; ingest_timeout_seconds : float;
  vector_field : string }.
(** [config.model_copy(update={"recreate_collection": False})]. *)
Definition appending (c : ingest_config) : ingest_config := {|
  redis_url := redis_url c; milvus_uri := milvus_uri c; milvus_username := milvus_username c;
  milvus_password := milvus_password c; milvus_token := milvus_token c; minio_endpoint := minio_endpoint c;
  minio_access_key := minio_access_key c; minio_secret_key := minio_secret_key c; minio_bucket := minio_bucket c;
  g_chunk_size := g_chunk_size c; g_chunk_overlap := g_chunk_overlap c; embedder_dim := embedder_dim c;
  tokenizer := tokenizer c; recreate_collection := false; default_collection_name := default_collection_name c;
  extract_method := extract_method c; use_v2_api := use_v2_api c; pdf_pages_per_chunk := pdf_pages_per_chunk c;
  enable_image_filter := enable_image_filter c; enable_captioning := enable_captioning c;
  caption_model_name := caption_model_name c; caption_endpoint_url := caption_endpoint_url c;
  caption_api_key := caption_api_key c; batch_concurrency := batch_concurrency c;
  max_documents_per_batch := max_documents_per_batch c; ingest_max_retries := ingest_max_retries c;
  ingest_timeout_seconds := ingest_timeout_seconds c; vector_field := vector_field c |}.

Definition _clean_optional_secret (v : option string) : option string :=
  match v with Some s => let t := strip s in if (t =? "")%string then None else Some t | None => None end.
Definition _milvus_auth_token (c : ingest_config) : option string :=
  match _clean_optional_secret (milvus_token c) with
  | Some t => Some t
  | None =>
      match _clean_optional_secret (milvus_username c), _clean_optional_secret (milvus_password c) with
      | None, None => None
      | u, p => Some (default "" u +++ ":" +++ default "" p)
      end
  end.
Definition _milvus_client_kwargs (c : ingest_config) : list (string * string) :=
  ("uri", milvus_uri c) :: match _milvus_auth_token c with Some t => [("token", t)] | None => [] end.
Definition _milvus_vdb_auth_kwargs (c : ingest_config) : list (string * string) :=
  let username := _clean_optional_secret (milvus_username c) in
  let password := _clean_optional_secret (milvus_password c) in
  let both := match username, password with Some _, Some _ => true | _, _ => false end in
  let '(username, password) :=
    if both then (username, password) else
    match _clean_optional_secret (milvus_token c) with
    | Some t =>
        match cut t ":" with
        | Some (u, p) => (Some (default u username), Some (default p password))
        | None => (username, password)
        end
    | None => (username, password)
    end in
  match username with Some u => [("username", u)] | None => [] end ++
  match password with Some p => [("password", p)] | None => [] end.

Record upload := Upload {
  u_collection : string; u_chunk_size : Z; u_chunk_overlap : Z; u_tokenizer : string; u_milvus_uri : string;
  u_dense_dim : Z; u_recreate : bool; u_minio_endpoint : string; u_bucket : string; u_access_key : string;
  u_secret_key : string; u_auth : list (string * string) }.
Record pipeline := Pipeline {
  p_filename : string; p_bytes : string; p_pages_per_chunk : option Z; p_extract : dict; p_filter : bool;
  p_caption : option (list (string * string)); p_upload : option upload }.

Definition ends_in_any (s : string) (l : list string) : bool := existsb (endswith s) l.
Definition extract_kwargs (c : ingest_config) (lower_name : string) : dict :=
  [("extract_text", VBool true); ("extract_tables", VBool false); ("extract_charts", VBool false);
   ("extract_images", VBool false)] ++
  if ends_in_any lower_name [".txt"; ".md"; ".html"; ".json"] then [] else
  [("table_output_format", VStr "markdown"); ("text_depth", VStr "page");
   ("extract_method", VStr (if ends_in_any lower_name [".docx"; ".pptx"] then "render_as_pdf"
                            else extract_method c))].
(** A truthy optional text. *)
Definition given (v : option string) : option string :=
  match v with Some s => if (s =? "")%string then None else Some s | None => None end.
Definition caption_of (c : ingest_config) : option (list (string * string)) :=
  if negb (enable_captioning c) then None else
  match given (caption_endpoint_url c), given (caption_model_name c) with
  | Some url, Some model =>
      Some ([("endpoint_url", url); ("model_name", model)] ++
            match given (caption_api_key c) with Some k => [("api_key", k)] | None => [] end)
  | _, _ => None
  end.
Definition pipeline_of (c : ingest_config) (filename bytes : string) (up : option upload) : pipeline :=
  let lower_name := lower filename in
  {| p_filename := filename; p_bytes := bytes;
     p_pages_per_chunk := if endswith lower_name ".pdf" && use_v2_api c
                          then Some (Z.max 1 (Z.min 128 (pdf_pages_per_chunk c))) else None;
     p_extract := extract_kwargs c lower_name; p_filter := enable_image_filter c;
     p_caption := caption_of c; p_upload := up |}.
Definition upload_of (c : ingest_config) (collection : string) (chunk_size chunk_overlap : Z) : upload :=
  {| u_collection := collection; u_chunk_size := chunk_size; u_chunk_overlap := chunk_overlap;
     u_tokenizer := tokenizer c; u_milvus_uri := milvus_uri c; u_dense_dim := embedder_dim c;
     u_recreate := recreate_collection c; u_minio_endpoint := minio_endpoint c; u_bucket := minio_bucket c;
     u_access_key := minio_access_key c; u_secret_key := minio_secret_key c;
     u_auth := _milvus_vdb_auth_kwargs c |}.

(** ** The embedding dimension *)
Fixpoint dense_dim_of (fields : list value) (field_name : string) (fallback : option Z) : result (option Z) :=
  match fields with
  | [] => Ok fallback
  | VDict field :: rest =>
      dim ← attr_get (vor (dget "params" field) (VDict [])) "dim";
      if is_none dim then dense_dim_of rest field_name fallback else
      match py_int dim with
      | Raise e => if exn_in e [TypeError; ValueError] then dense_dim_of rest field_name fallback else Raise e
      | Ok n =>
          if py_eq (dget "name" field) (VStr field_name) then Ok (Some n)
          else dense_dim_of rest field_name (match fallback with None => Some n | _ => fallback end)
      end
  | _ :: rest => dense_dim_of rest field_name fallback
  end.
Definition _extract_dense_dim (collection_desc : value) (field_name : string) : result (option Z) :=
  fields ← attr_get (vor collection_desc (VDict [])) "fields";
  match vor fields (VList []) with
  | VList l => dense_dim_of l field_name None
  | VDict _ | VStr _ => Ok None
  | _ => raise TypeError "object is not iterable"
  end.
(** [probe]: the description of the collection, [None] if it does not exist. *)
Definition _validate_embedding_dimension (c : ingest_config) (collection : string)
    (probe : result (option value)) : result unit :=
  match probe with
  | Ok (Some desc) =>
      actual ← _extract_dense_dim desc (vector_field c);
      match actual with
      | Some dim =>
          if negb (embedder_dim c =? 0) && negb (dim =? embedder_dim c)
          then raise ValueError ("Embedding dimension mismatch for Milvus collection '" +++ collection +++
                 "': existing dim=" +++ str_of_Z dim +++ ", configured embedder_dim=" +++ str_of_Z (embedder_dim c) +++
                 ". Re-ingesting would corrupt retrieval; use a matching embedder or a different collection.")
          else Ok tt
      | None => Ok tt
      end
  | _ => Ok tt
  end.
