(* ===== verification/Ingest.v ===== *)
(** * The ingestion runner ([nat_nv_ingest/nat_nv_ingest.py])

    One document, a batch, the extract-only path and the tool in front of
    them.  The SDK that extracts and writes to the vector store, the store's
    probe and the time a piece of blocking work takes are a [service]; every
    run of the SDK is recorded.  The documents of one concurrent group run one
    after the other in an order the service picks. *)
From S2P Require Import Prelude PyStr PyFloat PyVal Json JsonRoundtrip Redis Sha Dedupe World Identity Tokens.
From S2P Require Import Idempotency Collections Markdown Extraction Documents.
#[local] Open Scope Z_scope.

(** ** The service and the world *)
(** When the waiter for a piece of blocking work gives up: before the work got
    the collection's lock, while it runs, or not at all. *)
Inductive timing := NotStarted | Late | InTime.
Abbreviation sdk_results := (list (list value) * list (list value))%type.
Record service := Service {
  (** [redis.from_url] and [NvIngestClient(...)]. *)
  sv_redis : result unit;
  sv_nv_client : nat -> result unit;
  sv_time_ms : nat -> float;
  sv_object : nat -> object_settings -> string -> result (nat -> Z -> result string);
  sv_locked : nat -> bool;
  sv_timing : nat -> timing;
  sv_probe : nat -> string -> result (option value);
  (** One run: whether the vector writer was started, and what the run gave. *)
  sv_run : nat -> pipeline -> bool * result sdk_results;
  (** The order in which the [n] documents of a concurrent group are run. *)
  sv_schedule : nat -> nat -> list nat }.
Record sdk_run := SdkRun { s_pipeline : pipeline; s_wrote : bool; s_ok : bool; s_timing : timing }.
(** What the process's log says of the work done, newest first. *)
Inductive sdk_event := Run (r : sdk_run) | Completed (collection : string) (chunks failures pages : Z).
Record iworld (R : Type) := IWorld {
  i_redis : world R; i_uses : nat; i_runs : list sdk_event; i_events : list dict; i_connected : bool }.
Arguments IWorld {R}. Arguments i_redis {R}. Arguments i_uses {R}. Arguments i_runs {R}.
Arguments i_events {R}. Arguments i_connected {R}.

(** [f"{x:.0f}"]. *)
Definition format0 (f : float) : string :=
  match float_frac f with
  | Some (n, d) =>
      let q := n / d in
      let twice := 2 * (n - q * d) in
      let r := if twice <? d then q else if d <? twice then q + 1 else if Z.even q then q else q + 1 in
      (if r =? 0 then (if n <? 0 then "-0" else "0") else str_of_Z r)
  | None => "inf"
  end.
Definition redis_errors : list exn_class := [ConnectionError_; ResponseError; WatchError].
Definition INLINE_MARKDOWN_CHAR_LIMIT : Z := 50000.

Section Ingest.
Context {R : Type} `{RS : RedisServer R} (h : host R) (sv : service) (cfg : ingest_config).
Context (html_unescape : string -> string) (wide_alnum wide_word : string -> bool).
Abbreviation W := (iworld R).
Abbreviation markdown_of := (results_to_markdown html_unescape wide_alnum wide_word).

Definition bump_uses (w : W) : W := IWorld (i_redis w) (S (i_uses w)) (i_runs w) (i_events w) (i_connected w).
Definition use {A} (f : nat -> A) : eff W A := fun w => (Ok (f (i_uses w)), bump_uses w).
Definition use_r {A} (f : nat -> result A) : eff W A := r ← use f; lift r.
Definition on_redis {A} (m : eff (world R) A) : eff W A := fun w =>
  let '(r, w1) := m (i_redis w) in (r, IWorld w1 (i_uses w) (i_runs w) (i_events w) (i_connected w)).
Definition record_event (x : sdk_event) : eff W unit :=
  modify (fun w => IWorld (i_redis w) (i_uses w) (x :: i_runs w) (i_events w) (i_connected w)).
Definition push_event (d : dict) : eff W unit :=
  modify (fun w => IWorld (i_redis w) (i_uses w) (i_runs w) (d :: i_events w) (i_connected w)).

(** ** Clients *)
Definition _get_redis : eff W unit := lift (sv_redis sv).
Definition _get_nv_client : eff W unit :=
  connected ← gets i_connected;
  if (connected : bool) then mret tt else
  _ ← use_r (sv_nv_client sv);
  modify (fun w => IWorld (i_redis w) (i_uses w) (i_runs w) (i_events w) true).

(** ** Progress *)
Abbreviation callback := (option (dict -> eff W unit)).
(** The callback's own exceptions are swallowed. *)
Definition _emit_stage (progress : callback) (phase : string) (filename : value) (message : string) (extra : dict)
  : eff W unit :=
  match progress with
  | None => mret tt
  | Some f =>
      let payload := [("phase", VStr phase)] ++ (if is_none filename then [] else [("current", filename)]) ++
                     (if (message =? "")%string then [] else [("message", VStr message)]) in
      suppress [Exception_] (f (dmerge payload extra))
  end.

(** ** Fetching *)
Definition NOT_FOUND : string :=
  "Error: Document not found in storage. The file may have expired or the session may be invalid. Please try uploading the document again.".
Definition NO_ACCESS : string :=
  "Error: You do not have access to this document. Please upload the document again from your account.".
(** What a fetch gave; a refusal carries the file name and the kind reported to the caller. *)
Inductive fetched :=
| Loaded (filename bytes : string)
| Refused (error : string) (filename : value) (kind : error_kind).
Definition fetch (document_id session_id : value) (username : string) : eff W fetched :=
  _ ← _get_redis;
  x ← on_redis (redis h (JSONGET (document_key (py_str session_id) (py_str document_id))));
  match x with
  | RText text =>
      if (text =? "")%string then mret (Refused NOT_FOUND VNone NoKind) else
      record ← lift (loads text);
      match record with
      | VDict record =>
          if negb (_can_access_stored_document record (Some username))
          then mret (Refused NO_ACCESS VNone Forbidden) else
          now_ms ← use (sv_time_ms sv);
          get_object ← use (sv_object sv);
          let document := _load_document_bytes (getenv h) get_object record (py_str document_id)
                            (py_str session_id) username now_ms in
          match document with
          | Ok (bytes, filename) => mret (Loaded filename bytes)
          | Raise e =>
              if exn_isa (exn_cls e) DocumentStorageError
              then mret (Refused (exn_msg e) (VStr (str_or (dget "filename" record) (py_str document_id +++ ".bin")))
                           (if exn_isa (exn_cls e) DocumentStorageUnavailableError then Unavailable else NoKind))
              else rethrow e
          end
      | _ => throw AttributeError "object has no attribute 'get'"
      end
  | _ => mret (Refused NOT_FOUND VNone NoKind)
  end.
Definition initial_filename (ref : value) : value :=
  match ref with VDict r => dget_or "filename" (VStr "") r | _ => VStr "" end.

(** ** Extraction only *)
Definition extract_failure (ref : value) (error : string) (filename : value) (kind : error_kind) : ExtractResult :=
  Extracted false (vor filename (initial_filename ref)) 0 "" false 0 error kind.
Definition ingest_timeout : float :=
  if f_ltb (f_of_Z 1) (ingest_timeout_seconds cfg) then ingest_timeout_seconds cfg else f_of_Z 1.
(** A run of the SDK for a pipeline, and its Markdown. *)
Definition run_extract (filename bytes : string) (t : timing) : eff W (string * Z) :=
  let p := pipeline_of cfg filename bytes None in
  '(wrote, r) ← use (fun n => sv_run sv n p);
  _ ← record_event (Run (SdkRun p wrote (is_ok r) t));
  results ← lift r;
  lift (markdown_of (fst results)).
(** [asyncio.wait_for(asyncio.to_thread(f), timeout)]: the thread goes on after a timeout. *)
Definition in_thread {A} (f : timing -> eff W A) : eff W A :=
  t ← use (sv_timing sv);
  match t with
  | InTime => f InTime
  | _ => _ ← (fun w => (Ok tt, snd (f Late w)) : result unit * W); throw TimeoutError_ ""
  end.
Definition extract_loaded (ref : value) (filename bytes : string) (char_limit : option Z) : eff W ExtractResult :=
  _ ← _get_nv_client;
  outcome ← catch (r ← in_thread (run_extract filename bytes); mret (inl r)) [Exception_] (fun e =>
    mret (inr ("Error extracting document with NvIngest: " +++
               if exn_isa (exn_cls e) TimeoutError_
               then "timed out after " +++ format0 ingest_timeout +++ " seconds." else exn_msg e)));
  match outcome with
  | inr error => mret (extract_failure ref error (VStr filename) NoKind)
  | inl (raw_md, page_count) =>
      let '(markdown, truncated) := _apply_char_limit raw_md char_limit in
      mret (Extracted true (VStr filename) page_count markdown truncated (ulen raw_md) "" NoKind)
  end.
Definition _extract_document_to_markdown (ref : value) (username : string) (char_limit : option Z)
  : eff W ExtractResult :=
  let fail error kind := mret (extract_failure ref error VNone kind) in
  catch
    match ref with
    | VDict ((_ :: _) as r) =>
        let document_id := dget "documentId" r in
        let session_id := dget "sessionId" r in
        if negb (truthy document_id) || negb (truthy session_id)
        then fail "Error: Document reference must contain documentId and sessionId." NoKind
        else if (username =? "")%string
        then fail "Error: Valid username required for document extraction." NoKind else
        document ← catch (d ← fetch document_id session_id username; mret (inl d)) redis_errors (fun e =>
          mret (inr ("Error accessing document storage: " +++ exn_msg e)));
        match document with
        | inr error => fail error Unavailable
        | inl (Refused error filename kind) => mret (extract_failure ref error filename kind)
        | inl (Loaded filename bytes) => extract_loaded ref filename bytes char_limit
        end
    | _ => fail "Error: Invalid document reference provided." NoKind
    end
    [Exception_] (fun e => fail ("An unexpected error occurred: " +++ exn_msg e) NoKind).

(** ** Ingestion of one document *)
(** [run_ingest_with_postproc]: Markdown, pages, chunks and failures. *)
Definition emit_thread (progress : callback) (phase : string) (filename message : string) (extra : dict) : eff W unit :=
  _emit_stage progress phase (VStr filename) message extra.
Definition first_length (l : list (list value)) : Z :=
  match l with x :: _ => Z.of_nat (length x) | [] => 0 end.
(** [_build_ingestor], with the check of the collection's dimension. *)
Definition _build_ingestor (c : ingest_config) (filename bytes collection : string) (chunk_size chunk_overlap : Z)
  : eff W pipeline :=
  desc ← use (fun n => sv_probe sv n collection);
  _ ← lift (_validate_embedding_dimension c collection desc);
  mret (pipeline_of c filename bytes (Some (upload_of c collection chunk_size chunk_overlap))).
Definition ingest_run (progress : callback) (p : pipeline) (filename : string) (t : timing) : eff W sdk_results :=
  _ ← emit_thread progress "processing" filename "NV-Ingest is extracting, chunking, and embedding the document" [];
  '(wrote, r) ← use (fun n => sv_run sv n p);
  _ ← record_event (Run (SdkRun p wrote (is_ok r) t));
  _ ← when wrote (emit_thread progress "indexing" filename
                    "NV-Ingest extraction finished; writing chunks to Milvus" []);
  match r with
  | Ok x => mret x
  | Raise e => if (wrote : bool) then throw UncertainVectorWriteError (exn_msg e) else rethrow e
  end.
Definition run_ingest_with_postproc (progress : callback) (c : ingest_config) (filename bytes collection : string)
    (chunk_size chunk_overlap : Z) (t : timing) : eff W (string * Z * Z * Z) :=
  _ ← emit_thread progress "preparing" filename "Building NV-Ingest extraction and Milvus upload pipeline" [];
  p ← _build_ingestor c filename bytes collection chunk_size chunk_overlap;
  '(results, failures) ← ingest_run progress p filename t;
  _ ← emit_thread progress "postprocessing" filename "Converting extracted content to Markdown" [];
  '(md, page_count) ← lift (markdown_of results);
  let success_count := first_length results in
  let failure_count := first_length failures in
  _ ← emit_thread progress "postprocessed" filename
        ("Prepared " +++ str_of_Z success_count +++ " chunks from " +++ str_of_Z page_count +++ " pages")
        [("chunks", VInt success_count); ("pages", VInt page_count); ("failures", VInt failure_count)];
  mret (md, page_count, success_count, failure_count).
(** [run_with_thread_ownership]: a waiter that gives up before the lock is
    taken cancels the work; afterwards the work goes on and keeps the lock. *)
Definition run_with_thread_ownership {A} (f : timing -> eff W A) : eff W A :=
  t ← use (sv_timing sv);
  match t with
  | InTime => f InTime
  | NotStarted => throw TimeoutError_ ""
  | Late => _ ← (fun w => (Ok tt, snd (f Late w)) : result unit * W); throw TimeoutError_ ""
  end.

Inductive attempts_end :=
| Payload (p : string * Z * Z * Z)
| TimedOut
| Exhausted (last_exc : string).
(** What an exception of one attempt means. *)
Inductive attempt_end := Done (p : string * Z * Z * Z) | GaveUp | Uncertain (msg : string) | Retry (msg : string).
Definition attempt_once (progress : callback) (c : ingest_config) (filename bytes collection : string)
    (chunk_size chunk_overlap attempt : Z) : eff W attempt_end :=
  catch
    (locked ← use (sv_locked sv);
     _ ← when locked (_emit_stage progress "waiting" (VStr filename) "Waiting for the collection write lock"
                        [("attempt", VInt (attempt + 1))]);
     _ ← _emit_stage progress "submitting" (VStr filename) "Submitting document to NV-Ingest"
           [("attempt", VInt (attempt + 1))];
     r ← run_with_thread_ownership (run_ingest_with_postproc progress c filename bytes collection
                                      chunk_size chunk_overlap);
     mret (Done r))
    [Exception_] (fun e => mret (if exn_isa (exn_cls e) TimeoutError_ then GaveUp
                                 else if exn_isa (exn_cls e) UncertainVectorWriteError then Uncertain (exn_msg e)
                                 else Retry (exn_msg e))).
(** [n] attempt_loop are left, the next one is number [attempt]. *)
Fixpoint attempt_loop (n : nat) (progress : callback) (c : ingest_config) (filename bytes collection : string)
    (chunk_size chunk_overlap attempt : Z) (last_exc : string) : eff W attempts_end :=
  match n with
  | O => mret (Exhausted last_exc)
  | S n =>
      x ← attempt_once progress c filename bytes collection chunk_size chunk_overlap attempt;
      match x with
      | Done p => mret (Payload p)
      | GaveUp => mret TimedOut
      | Uncertain msg => mret (Exhausted msg)
      | Retry msg =>
          _ ← when (attempt <? ingest_max_retries c)
                (_emit_stage progress "retrying" (VStr filename)
                   ("NV-Ingest attempt " +++ str_of_Z (attempt + 1) +++ "/" +++
                    str_of_Z (ingest_max_retries c + 1) +++ " failed; retrying") [("attempt", VInt (attempt + 1))]);
          attempt_loop n progress c filename bytes collection chunk_size chunk_overlap (attempt + 1) msg
      end
  end.

Definition ingest_failure (ref : value) (collection error : string) (filename : value) : IngestResult :=
  Ingested Failure (vor filename (initial_filename ref)) 0 0 0 collection "" error.
Definition ingest_loaded (progress : callback) (c : ingest_config) (ref : value) (filename bytes collection : string)
    (chunk_size chunk_overlap : Z) : eff W IngestResult :=
  _ ← _emit_stage progress "fetched" (VStr filename)
        ("Fetched " +++ filename +++ " from document storage (" +++ str_of_Z (blen bytes) +++ " bytes)") [];
  _ ← _emit_stage progress "preparing" (VStr filename) "Preparing NV-Ingest pipeline" [];
  _ ← _get_nv_client;
  x ← attempt_loop (Z.to_nat (ingest_max_retries c + 1)) progress c filename bytes collection chunk_size chunk_overlap
        0 "None";
  match x with
  | Payload (md, pages, chunks, failures) =>
      _ ← record_event (Completed collection chunks failures pages);
      mret (Ingested (if failures =? 0 then Success else Partial) (VStr filename) chunks failures pages collection md "")
  | TimedOut =>
      mret (ingest_failure ref collection
        ("Error processing document with NvIngest: timed out after " +++ format0 ingest_timeout +++
         " seconds. The SDK operation may still be running; collection ownership is retained until it finishes. Do not retry blindly.")
        (VStr filename))
  | Exhausted msg =>
      mret (ingest_failure ref collection ("Error processing document with NvIngest: " +++ msg) (VStr filename))
  end.
(** The requested sizes, by default the configured ones. *)
Definition chunk_size_of (v : option Z) : Z := match v with Some 0 | None => g_chunk_size cfg | Some n => n end.
Definition chunk_overlap_of (v : option Z) : Z := default (g_chunk_overlap cfg) v.
Definition process_resolved (progress : callback) (c : ingest_config) (ref : value) (username collection : string)
    (scope_error : option string) (chunk_size chunk_overlap : Z) : eff W IngestResult :=
  let fail error := mret (ingest_failure ref collection error VNone) in
  match scope_error, ref with
  | Some e, _ => fail ("Error: " +++ e)
  | None, VDict ((_ :: _) as r) =>
      let document_id := dget "documentId" r in
      let session_id := dget "sessionId" r in
      if negb (truthy document_id) || negb (truthy session_id)
      then fail "Error: Document reference must contain documentId and sessionId."
      else if (username =? "")%string then fail "Error: Valid username required for document processing."
      else if (collection =? "")%string then fail "Error: Collection name must be specified." else
      _ ← _emit_stage progress "fetching" (vor (initial_filename ref) document_id)
            "Fetching upload from session storage" [];
      document ← catch (d ← fetch document_id session_id username; mret (inl d)) [Exception_] (fun e =>
        mret (inr ((if exn_in e redis_errors then "Error accessing document storage: "
                    else "Error processing document data: ") +++ exn_msg e)));
      match document with
      | inr error => fail error
      | inl (Refused error filename _) => mret (ingest_failure ref collection error filename)
      | inl (Loaded filename bytes) => ingest_loaded progress c ref filename bytes collection chunk_size chunk_overlap
      end
  | None, _ => fail "Error: Invalid document reference provided."
  end.
Definition process_document (ref : value) (username : string) (collection_name collection_scope : option string)
    (chunk_size chunk_overlap : option Z) (progress : callback) (append_to_collection : bool) : eff W IngestResult :=
  let c := if append_to_collection then appending cfg else cfg in
  collection ← lift (resolve_user_collection_name collection_name (Some username) (Some (default_collection_name c)));
  scope_error ← lift (match validate_user_collection_write_scope collection collection_scope with
                      | Ok _ => Ok None
                      | Raise e => if exn_isa (exn_cls e) ValueError then Ok (Some (exn_msg e)) else Raise e
                      end);
  catch (process_resolved progress c ref username collection scope_error (chunk_size_of chunk_size)
           (chunk_overlap_of chunk_overlap))
    [Exception_] (fun e => mret (ingest_failure ref collection ("An unexpected error occurred: " +++ exn_msg e) VNone)).
Definition extract_document (ref : value) (username : string) : eff W ExtractResult :=
  _extract_document_to_markdown ref username (Some INLINE_MARKDOWN_CHAR_LIMIT).
End Ingest.
