(* ===== verification/Batch.v ===== *)
(** * Batches of documents and the document tool ([nat_nv_ingest/nat_nv_ingest.py])

    Several documents of one request, the once-only wrapper around autonomous
    ingestion and the tool that a model calls. *)
From S2P Require Import Prelude PyStr PyFloat PyVal Json JsonRoundtrip Redis Sha Dedupe World Identity Tokens.
From S2P Require Import Idempotency Collections Markdown Extraction Documents Ingest.
#[local] Open Scope Z_scope.

(** ** Progress *)
Definition _PROGRESS_PHASE_WEIGHTS : list (string * Z) :=
  [("queued", 0); ("fetching", 4); ("fetched", 8); ("waiting", 12); ("preparing", 16); ("submitting", 24);
   ("processing", 42); ("indexing", 70); ("postprocessing", 86); ("postprocessed", 94); ("retrying", 20)].
Definition phase_weight (phase : string) : float :=
  match List.find (fun p => (fst p =? phase)%string) _PROGRESS_PHASE_WEIGHTS with
  | Some (_, hundredths) => dec_to_float false hundredths (-2)
  | None => f_of_Z 0
  end.
Definition _percent_for (total completed : Z) (phase : string) : Z :=
  if total <=? 0 then 0 else if total <=? completed then 100 else
  let ratio := f_div (f_add (f_of_Z completed) (phase_weight phase)) (f_of_Z total) in
  Z.max 0 (Z.min 99 (default 0 (f_trunc (f_mul ratio (f_of_Z 100))))).

(** ** The state of a batch *)
Record batch_state := BatchState { b_ok : list indexed; b_bad : list failed; b_chunks : Z; b_pages : Z }.
Definition empty_batch : batch_state := BatchState [] [] 0 0.
Definition _completed_count (b : batch_state) : Z := Z.of_nat (length (b_ok b) + length (b_bad b)).
Definition outcome := result IngestResult.
Definition add_bad (id : value) (error : string) (b : batch_state) : batch_state :=
  BatchState (b_ok b) (b_bad b ++ [Failed id error]) (b_chunks b) (b_pages b).
Record status_event := Status { e_filename : value; e_phase : string; e_message : string; e_metrics : dict }.
Definition _accumulate (ref_filename : value) (o : outcome) (b : batch_state) : batch_state * status_event :=
  match o with
  | Raise e =>
      (add_bad ref_filename (exn_msg e) b,
       Status ref_filename "failed" ("Failed " +++ py_str ref_filename +++ ": " +++ _truncate_error (exn_msg e) 100) [])
  | Ok r =>
      let filename := vor (i_filename r) ref_filename in
      match i_status r with
      | Failure =>
          (add_bad filename (i_error r) b,
           Status filename "failed" ("Failed " +++ py_str filename +++ ": " +++ _truncate_error (i_error r) 100) [])
      | status =>
          (BatchState (b_ok b ++ [Indexed filename (i_chunks r) (i_pages r) status]) (b_bad b)
             (b_chunks b + i_chunks r) (b_pages b + i_pages r),
           Status filename "completed"
             ("Indexed " +++ py_str filename +++ ": " +++ str_of_Z (i_chunks r) +++ " chunks, " +++
              str_of_Z (i_pages r) +++ " pages")
             [("chunks", VInt (i_chunks r)); ("pages", VInt (i_pages r)); ("failures", VInt (i_failures r))])
      end
  end.
Definition _is_timeout_failure (o : outcome) : bool :=
  match o with
  | Raise e => exn_isa (exn_cls e) TimeoutError_
  | Ok r => match i_status r with Failure => contains (lower (i_error r)) "timed out" | _ => false end
  end.
(** [ref.get("filename", ref.get("documentId", f"Document_{idx}"))]. *)
Definition ref_filename_of (idx : Z) (ref : value) : result value :=
  match ref with
  | VDict r => Ok (dget_or "filename" (dget_or "documentId" (VStr ("Document_" +++ str_of_Z idx)) r) r)
  | _ => raise AttributeError "object has no attribute 'get'"
  end.
Definition SKIPPED : string :=
  "Skipped because a prior document ingest timed out; NV-Ingest or Milvus may be unavailable.".
Fixpoint _mark_skipped_due_to_timeout (skipped : list (Z * value)) (b : batch_state) : result batch_state :=
  match skipped with
  | [] => Ok b
  | (idx, ref) :: rest =>
      name ← ref_filename_of idx ref;
      _mark_skipped_due_to_timeout rest (add_bad name SKIPPED b)
  end.
(** A valid order of the positions below [k] from any proposal. *)
Definition order (k : nat) (proposal : list nat) : list nat :=
  let p := remove_dups (List.filter (fun i => (i <? k)%nat) proposal) in
  p ++ List.filter (fun i => negb (bool_decide (i ∈ p))) (seq 0 k).

Section Batch.
Context {R : Type} `{RS : RedisServer R} (h : host R) (sv : service) (cfg : ingest_config).
Context (html_unescape : string -> string) (wide_alnum wide_word : string -> bool).
Abbreviation W := (iworld R).
Abbreviation callback := (option (dict -> eff W unit)).
Abbreviation process := (process_document h sv cfg html_unescape wide_alnum wide_word).

(** What the documents of one batch share. *)
Record request := Request {
  q_total : Z; q_username : string; q_collection : string; q_scope : scope; q_chunk_size : option Z;
  q_chunk_overlap : option Z; q_progress : callback }.
Section Requested.
Context (q : request).
Definition _emit_progress (current_filename : value) (phase : string) (current_index : option Z) (message : string)
    (b : batch_state) (extra : dict) : eff W unit :=
  match q_progress q with
  | None => mret tt
  | Some f =>
      let completed := _completed_count b in
      let payload :=
        [("completed", VInt completed); ("total", VInt (q_total q)); ("current", current_filename);
         ("percent", VInt (_percent_for (q_total q) completed phase)); ("phase", VStr phase)] ++
        match current_index with Some i => [("currentIndex", VInt i)] | None => [] end ++
        (if (message =? "")%string then [] else [("message", VStr message)]) in
      suppress [Exception_] (f (dmerge payload extra))
  end.
Definition own_keys : list string :=
  ["completed"; "total"; "current"; "currentIndex"; "percent"; "phase"; "message"].
Definition _doc_progress (idx : Z) (ref_filename : value) (b : batch_state) (stage : dict) : eff W unit :=
  let extra := List.filter (fun kv => negb (is_in (fst kv) own_keys)) stage in
  let phase := vor (dget "phase" stage) (VStr "processing") in
  let message := match dget "message" stage with VStr m => m | _ => "" end in
  _emit_progress (vor (dget "current" stage) ref_filename) (py_str phase) (Some idx) message b extra.
(** One document; its failure is an outcome, a reference without [get] ends the batch. *)
Definition _one (b : batch_state) (idx : Z) (ref : value) : eff W (value * outcome) :=
  ref_filename ← lift (ref_filename_of idx ref);
  o ← catch
        (_ ← _emit_progress ref_filename "queued" (Some idx)
               ("Starting document " +++ str_of_Z idx +++ " of " +++ str_of_Z (q_total q)) b [];
         r ← process ref (q_username q) (Some (q_collection q)) (Some (scope_name (q_scope q))) (q_chunk_size q)
               (q_chunk_overlap q) (Some (_doc_progress idx ref_filename b))
               (match b_ok b with [] => false | _ => true end);
         mret (Ok r))
        [Exception_] (fun e => mret (Raise e));
  mret (ref_filename, o).
Definition report (b : batch_state) (idx : Z) (e : status_event) : eff W unit :=
  _emit_progress (e_filename e) (e_phase e) (Some idx) (e_message e) b (e_metrics e).
Definition skip_rest (rest : list (Z * value)) (b : batch_state) : eff W batch_state :=
  b' ← lift (_mark_skipped_due_to_timeout rest b);
  _ ← _emit_progress VNone "skipped" None
        ("Skipped " +++ str_of_Z (Z.of_nat (length rest)) +++ " remaining documents after timeout") b' [];
  mret b'.
(** One document in turn, and whether its ingestion timed out. *)
Definition serial_step (b : batch_state) (idx : Z) (ref : value) : eff W (batch_state * bool) :=
  '(ref_filename, o) ← _one b idx ref;
  let '(b, e) := _accumulate ref_filename o b in
  _ ← report b idx e;
  mret (b, _is_timeout_failure o).
(** The serial prefix: until a document was written into a collection to be
    created anew.  Gives the rest and the batch. *)
Fixpoint prefix_loop (refs : list (Z * value)) (b : batch_state) : eff W (list (Z * value) * batch_state) :=
  match refs with
  | [] => mret ([], b)
  | (idx, ref) :: rest =>
      if recreate_collection cfg && match b_ok b with [] => true | _ => false end then
        '(b, timed_out) ← serial_step b idx ref;
        if (timed_out : bool) then b ← skip_rest rest b; mret (rest, b) else prefix_loop rest b
      else mret (refs, b)
  end.
(** A group one after the other; [later] follows it.  Also whether the rest was skipped. *)
Fixpoint serial_group (group later : list (Z * value)) (b : batch_state) : eff W (batch_state * bool) :=
  match group with
  | [] => mret (b, false)
  | (idx, ref) :: rest =>
      '(b, timed_out) ← serial_step b idx ref;
      if (timed_out : bool) then b ← skip_rest (rest ++ later) b; mret (b, true) else serial_group rest later b
  end.
(** [asyncio.gather]: every document runs, then the first failure is raised. *)
Fixpoint run_group (positions : list nat) (group : list (Z * value)) (b : batch_state)
    (done : gmap nat (result (value * outcome))) : eff W (gmap nat (result (value * outcome))) :=
  match positions with
  | [] => mret done
  | i :: rest =>
      match group !! i with
      | Some (idx, ref) =>
          r ← (fun w => let '(r, w') := _one b idx ref w in (Ok r, w') : result _ * W);
          run_group rest group b (<[i := r]> done)
      | None => run_group rest group b done
      end
  end.
Fixpoint collect (i : nat) (group : list (Z * value)) (done : gmap nat (result (value * outcome)))
  : result (list (Z * (value * outcome))) :=
  match group with
  | [] => Ok []
  | (idx, _) :: rest =>
      r ← match done !! i with Some r => r | None => raise RuntimeError "not run" end;
      rs ← collect (S i) rest done;
      Ok ((idx, r) :: rs)
  end.
Definition gather (group : list (Z * value)) (b : batch_state) : eff W (list (Z * (value * outcome))) :=
  proposal ← use (fun n => sv_schedule sv n (length group));
  done ← run_group (order (length group) proposal) group b ∅;
  lift (collect 0 group done).
Fixpoint settle_group (outcomes : list (Z * (value * outcome))) (later : list (Z * value)) (b : batch_state)
    (skipped : bool) : eff W (batch_state * bool) :=
  match outcomes with
  | [] => mret (b, skipped)
  | (idx, (ref_filename, o)) :: rest =>
      let '(b, e) := _accumulate ref_filename o b in
      _ ← report b idx e;
      if _is_timeout_failure o && negb skipped
      then b ← skip_rest later b; settle_group rest later b true
      else settle_group rest later b skipped
  end.
Definition max_batch : nat := Z.to_nat (Z.max 1 (max_documents_per_batch cfg)).
Fixpoint groups_loop (fuel : nat) (refs : list (Z * value)) (b : batch_state) (skipped : bool) : eff W batch_state :=
  match fuel, refs with
  | O, _ | _, [] => mret b
  | S fuel, _ =>
      if (skipped : bool) then mret b else
      let group := firstn max_batch refs in
      let later := skipn max_batch refs in
      '(b, skipped) ← (if Z.max 1 (batch_concurrency cfg) =? 1 then serial_group group later b
                       else outcomes ← gather group b; settle_group outcomes later b false);
      groups_loop fuel later b skipped
  end.
Definition run_batch (refs : list (Z * value)) : eff W batch_state :=
  '(rest, b) ← prefix_loop refs empty_batch;
  groups_loop (length rest) rest b (q_total q <=? _completed_count b).
End Requested.

Definition number (refs : list value) : list (Z * value) := imap (fun i r => (Z.of_nat i + 1, r)) refs.
Definition INVALID_REFS : string :=
  "Error: Invalid document references provided. Expected a list of document references.".
Definition process_batch (refs : list value) (username : string) (collection_name collection_scope : option string)
    (chunk_size chunk_overlap : option Z) (progress : callback) : eff W (string * batch_state) :=
  refs ← lift (_dedup_document_refs refs);
  collection ← lift (resolve_user_collection_name collection_name (Some username) (Some (default_collection_name cfg)));
  match validate_user_collection_write_scope collection collection_scope with
  | Raise e => if exn_isa (exn_cls e) ValueError then mret ("Error: " +++ exn_msg e, empty_batch) else rethrow e
  | Ok scope =>
      let total := Z.of_nat (length refs) in
      let q := Request total username collection scope chunk_size chunk_overlap progress in
      _ ← _emit_progress q VNone "queued" None
            ("Queued " +++ str_of_Z total +++ " document" +++ (if total =? 1 then "" else "s") +++ " for ingestion")
            empty_batch [];
      b ← run_batch q (number refs);
      _ ← _emit_progress q VNone "finalizing" None ("Finalizing ingestion summary for " +++ collection) b [];
      mret (format_batch_response total (b_ok b) (b_bad b) (b_chunks b) (b_pages b) collection
              (chunk_size_of cfg chunk_size) (chunk_overlap_of cfg chunk_overlap), b)
  end.
Definition process_multiple_documents (refs : value) (username : string)
    (collection_name collection_scope : option string) (chunk_size chunk_overlap : option Z) (progress : callback)
  : eff W string :=
  match refs with
  | VList ((_ :: _) as l) =>
      if (username =? "")%string then mret "Error: Valid username required for document processing." else
      r ← process_batch l username collection_name collection_scope chunk_size chunk_overlap progress;
      mret (fst r)
  | _ => mret INVALID_REFS
  end.
End Batch.
