(* ===== verification/DocumentTool.v ===== *)
(** * The user's document tool ([nat_nv_ingest/nat_nv_ingest.py])

    The once-only wrapper around ingestion of an autonomous run, search,
    listing, and the tool that dispatches to them.  The vector store's listing
    and the retriever are parameters. *)
From S2P Require Import Prelude PyStr PyFloat PyVal Json JsonRoundtrip Redis Sha Dedupe World Identity Tokens.
From S2P Require Import Idempotency Collections Markdown Extraction Documents Ingest Batch.
#[local] Open Scope Z_scope.

(** What a search is asked for. *)
Record search_request := SearchRequest {
  se_query : string; se_collection : string; se_top_k : Z; se_filters : option string }.
(** The arguments of the tool. *)
Record tool_input := ToolInput {
  t_operation : string; t_query : string; t_collection : option string; t_ref : option dict;
  t_refs : option (list dict); t_top_k : option Z; t_filters : option string; t_chunk_size : option Z;
  t_chunk_overlap : option Z }.

Section Tool.
Context {R : Type} `{RS : RedisServer R} (h : host R) (sv : service) (cfg : ingest_config).
Context (html_unescape : string -> string) (wide_alnum wide_word : string -> bool).
Context (token_urlsafe : nat -> string) (from_url : string -> result unit)
  (cjson_decode : string -> result value).
(** The vector store's collections and the retriever, by use. *)
Context (list_all : nat -> result (list string)) (retrieve : nat -> search_request -> result (list passage)).
Context (default_top_k : Z).
Abbreviation W := (iworld R).
Abbreviation no_callback := (None : option (dict -> eff W unit)).

(** ** Listing and searching *)
Definition visible (username : string) (collections : list string) : result (list string) :=
  private ← resolve_user_collection_name None (Some username) (Some (default_collection_name cfg));
  Ok (stable_sort str_leb (List.filter (fun c => is_in c SHARED_COLLECTION_NAMES || (c =? private)%string) collections)).
Definition list_collections (username : string) : eff W string :=
  catch
    (all ← use_r list_all;
     names ← lift (visible username all);
     mret (match names with
           | [] => "No collections found."
           | _ => "Available collections:" +++ NL +++ join NL names
           end))
    [Exception_] (fun _ => mret "Error listing Milvus collections.").
Definition search_documents (query username : string) (collection_name : option string) (top_k : option Z)
    (filters : option string) : eff W string :=
  collection ← lift (resolve_user_collection_name collection_name (Some username) (Some (default_collection_name cfg)));
  let stripped := strip query in
  let q := if (stripped =? "")%string then "summary of the document" else stripped in
  let k := match top_k with Some 0 | None => default_top_k | Some k => k end in
  docs ← use_r (fun n => retrieve n (SearchRequest q collection k filters));
  mret (format_user_document_search_results docs collection).

(** ** Ingestion at most once per autonomous run *)
Definition identity_at (username : string) (ref : value) : eff W dict :=
  '(document_id, session_id) ← lift (safe_ids ref);
  x ← on_redis (redis h (JSONGET (document_key session_id document_id)));
  match x with
  | RText text =>
      if (text =? "")%string then lift (storage_error "Document not found in storage. Please upload it again.")
      else record ← lift (loads text); lift (identity_of (getenv h) username document_id session_id record)
  | _ => lift (storage_error "Document not found in storage. Please upload it again.")
  end.
Definition _immutable_document_references (refs : list value) (username : string) : eff W (list dict) :=
  _ ← _get_redis sv;
  mapE (identity_at username) refs.
Definition OPERATION : string := "ingest_user_documents".
Definition CONTRACT : string := "document-overlap-v2".
Definition ingest_arguments (collection : string) (refs : list dict) (chunk_size : option Z) (overlap : Z) : dict :=
  [("collection", VStr collection); ("documents", VList (map VDict refs));
   ("chunkSize", VInt (chunk_size_of cfg chunk_size)); ("chunkOverlap", VInt overlap)].
(** Before the marker existed an overlap of zero was recorded as the configured one. *)
Definition legacy_ingest_arguments (collection : string) (refs : list dict) (chunk_size chunk_overlap : option Z)
  : option value :=
  match chunk_overlap with
  | Some 0 => if g_chunk_overlap cfg =? 0 then None
              else Some (VDict (ingest_arguments collection refs chunk_size (g_chunk_overlap cfg)))
  | _ => None
  end.
Definition reserve_ingest (refs : list value) (username execution_id collection : string)
    (chunk_size chunk_overlap : option Z) : eff W Reservation :=
  immutable ← _immutable_document_references refs username;
  on_redis (reserve_operation h token_urlsafe from_url username execution_id OPERATION
    (VDict (ingest_arguments collection immutable chunk_size (chunk_overlap_of cfg chunk_overlap)))
    (Some CONTRACT) (legacy_ingest_arguments collection immutable chunk_size chunk_overlap)).
Definition NOT_REPEATED : string :=
  "Document ingest wasn't repeated because the same autonomous operation has an existing or ambiguous execution record.".
Definition stored_answer (r : Reservation) : string :=
  match stored_result r with
  | Some s => if (state r =? "completed")%string && negb (s =? "")%string then s else NOT_REPEATED
  | None => NOT_REPEATED
  end.
Definition complete_ingest (r : Reservation) (result : string) : eff W unit :=
  suppress [Exception_] (_ ← on_redis (complete_operation h from_url cjson_decode r result); mret tt).
Definition _run_idempotent_ingest (execution_id : option string) (refs : list value) (username : string)
    (collection_name : option string) (chunk_size chunk_overlap : option Z) (run : eff W string) : eff W string :=
  match given execution_id with
  | None => run
  | Some execution_id =>
      collection ← lift (resolve_user_collection_name collection_name (Some username)
                           (Some (default_collection_name cfg)));
      reservation ← catch (r ← reserve_ingest refs username execution_id collection chunk_size chunk_overlap; mret (inl r))
        [Exception_] (fun e => mret (inr ("Error: document ingest idempotency unavailable: " +++ exn_msg e +++ ".")));
      match reservation with
      | inr error => mret error
      | inl r =>
          if negb (acquired r) then mret (stored_answer r) else
          result ← run;
          _ ← complete_ingest r result;
          mret result
      end
  end.

(** ** The tool *)
Definition ingest (headers : option header_map) (username : string) (t : tool_input) : eff W string :=
  let once refs := _run_idempotent_ingest (execution_id_from_context_or_none headers) refs username (t_collection t)
                     (t_chunk_size t) (t_chunk_overlap t) in
  match t_refs t, t_ref t with
  | Some ((_ :: _) as refs), _ =>
      let refs := map VDict refs in
      once refs (process_multiple_documents h sv cfg html_unescape wide_alnum wide_word (VList refs) username
                   (t_collection t) None (t_chunk_size t) (t_chunk_overlap t) no_callback)
  | _, Some ((_ :: _) as ref) =>
      once [VDict ref]
        (r ← process_document h sv cfg html_unescape wide_alnum wide_word (VDict ref) username (t_collection t) None
               (t_chunk_size t) (t_chunk_overlap t) no_callback false;
         mret (format_single_doc_response r))
  | _, _ => mret "Error: documentRef or documentRefs is required for ingestion."
  end.
Definition extract (username : string) (t : tool_input) : eff W string :=
  match t_refs t, t_ref t with
  | Some (_ :: _), _ =>
      mret "Error: extract operation only accepts a single documentRef; use operation='ingest' for multi-document batches."
  | _, Some ((_ :: _) as ref) =>
      r ← extract_document h sv cfg html_unescape wide_alnum wide_word (VDict ref) username;
      mret (format_extract_response r)
  | _, _ => mret "Error: documentRef is required for extraction."
  end.
Definition user_document_tool (headers : option header_map) (t : tool_input) : eff W string :=
  let op := lower (strip (if (t_operation t =? "")%string then "search" else t_operation t)) in
  if negb (is_in op ["ingest"; "extract"; "search"; "list_collections"])
  then mret "Error: operation must be one of ingest, extract, search, list_collections."
  else match resolve_authenticated_user_id (getenv h) headers with
  | Raise e => if exn_isa (exn_cls e) ValueError
               then mret ("Error: user document request denied: " +++ exn_msg e +++ ".") else rethrow e
  | Ok username =>
      if (op =? "search")%string
      then search_documents (t_query t) username (t_collection t) (t_top_k t) (t_filters t)
      else if (op =? "ingest")%string then ingest headers username t
      else if (op =? "extract")%string then extract username t
      else list_collections username
  end.
End Tool.
