(* ===== verification/IngestLaws.v ===== *)
(** * Laws of document ingestion

    What the log of the extraction SDK says of a document and of a batch:
    where rows are written, when a collection is made anew, and that a write
    whose end is unknown is not replayed. *)
From S2P Require Import Prelude PyStr PyFloat PyVal Json JsonRoundtrip Redis Sha Dedupe World Identity Tokens.
From S2P Require Import Idempotency Collections CollectionLaws Markdown Extraction Documents Ingest Batch.
From S2P Require Import DocumentTool.
#[local] Open Scope Z_scope.

(** ** What a computation logs *)
Section Grows.
Context {R : Type} `{RS : RedisServer R}.
Abbreviation W := (iworld R).
(** [m] appends a piece [l] to the log and ends with [r], as [Q] says. *)
Definition grows {A} (Q : list sdk_event -> result A -> Prop) (m : eff W A) : Prop :=
  forall w r w', m w = (r, w') -> exists l, i_runs w' = l ++ i_runs w /\ Q l r.
Definition adds {A} (P : sdk_event -> Prop) (m : eff W A) : Prop := grows (fun l _ => Forall P l) m.
Definition idle {A} (m : eff W A) : Prop := forall w r w', m w = (r, w') -> i_runs w' = i_runs w.

Lemma grows_impl {A} (Q Q' : list sdk_event -> result A -> Prop) m :
  (forall l r, Q l r -> Q' l r) -> grows Q m -> grows Q' m.
Proof. intros H Hm w r w' E. destruct (Hm _ _ _ E) as (l & H1 & H2). eauto. Qed.
Lemma idle_grows {A} (Q : list sdk_event -> result A -> Prop) m :
  idle m -> (forall r, Q [] r) -> grows Q m.
Proof. intros Hm HQ w r w' E. exists []. by rewrite (Hm _ _ _ E). Qed.
Lemma adds_idle {A} P (m : eff W A) : idle m -> adds P m.
Proof. intros H. by apply idle_grows. Qed.
Lemma grows_bind {A B} (Q1 : list sdk_event -> result A -> Prop) (Q : list sdk_event -> result B -> Prop)
    (m : eff W A) (f : A -> eff W B) :
  grows Q1 m -> (forall l e, Q1 l (Raise e) -> Q l (Raise e)) ->
  (forall a l1, Q1 l1 (Ok a) -> grows (fun l2 r => Q (l2 ++ l1) r) (f a)) -> grows Q (x ← m; f x).
Proof.
  intros Hm He Hf w r w' E. unfold mbind, eff_bind in E. destruct (m w) as [[a|e] w1] eqn:Em.
  - destruct (Hm _ _ _ Em) as (l1 & H1 & F1). destruct (Hf a l1 F1 _ _ _ E) as (l2 & H2 & F2).
    exists (l2 ++ l1). by rewrite H2, H1, List.app_assoc.
  - injection E as <- <-. destruct (Hm _ _ _ Em) as (l1 & H1 & F1). exists l1. auto.
Qed.
Lemma grows_after {A B} (Q : list sdk_event -> result B -> Prop) (m : eff W A) (f : A -> eff W B) :
  idle m -> (forall e, Q [] (Raise e)) -> (forall a, grows Q (f a)) -> grows Q (x ← m; f x).
Proof.
  intros Hm He Hf. eapply (grows_bind (fun l _ => l = [])); [by apply idle_grows|by intros l e ->|].
  intros a l ->. eapply grows_impl; [|apply Hf]. intros l r. by rewrite app_nil_r.
Qed.
(** The same, remembering what the first step gave. *)
Lemma grows_after_eq {A B} (Q : list sdk_event -> result B -> Prop) (m : eff W A) (f : A -> eff W B) :
  idle m -> (forall e, Q [] (Raise e)) -> (forall a w w', m w = (Ok a, w') -> grows Q (f a)) -> grows Q (x ← m; f x).
Proof.
  intros Hm He Hf w r w' E. apply bind_inv in E as [(a & w1 & E1 & E)|(e & E1 & ->)].
  - rewrite <- (Hm _ _ _ E1). by apply (Hf a w w1 E1).
  - exists []. by rewrite (Hm _ _ _ E1).
Qed.
Lemma idle_grows_eq {A} (Q : list sdk_event -> result A -> Prop) m :
  idle m -> (forall w w' r, m w = (r, w') -> Q [] r) -> grows Q m.
Proof. intros Hm HQ w r w' E. exists []. rewrite (Hm _ _ _ E). split; [done|]. by apply (HQ w w'). Qed.
Lemma grows_catch {A} (Q1 Q : list sdk_event -> result A -> Prop) (m : eff W A) cs f :
  grows Q1 m -> (forall l a, Q1 l (Ok a) -> Q l (Ok a)) ->
  (forall l e, exn_in e cs = false -> Q1 l (Raise e) -> Q l (Raise e)) ->
  (forall e l1, exn_in e cs = true -> Q1 l1 (Raise e) -> grows (fun l2 r => Q (l2 ++ l1) r) (f e)) ->
  grows Q (catch m cs f).
Proof.
  intros Hm Ha He Hf w r w' E. unfold catch in E. destruct (m w) as [[a|e] w1] eqn:Em;
    destruct (Hm _ _ _ Em) as (l1 & H1 & F1).
  - injection E as <- <-. exists l1. auto.
  - destruct (exn_in e cs) eqn:Ec.
    + destruct (Hf e l1 Ec F1 _ _ _ E) as (l2 & H2 & F2). exists (l2 ++ l1). by rewrite H2, H1, List.app_assoc.
    + injection E as <- <-. exists l1. auto.
Qed.
Lemma adds_bind {A B} P (m : eff W A) (f : A -> eff W B) :
  adds P m -> (forall a, adds P (f a)) -> adds P (x ← m; f x).
Proof.
  intros Hm Hf. eapply grows_bind; [exact Hm|done|]. intros a l1 H1. eapply grows_impl; [|apply Hf].
  intros l2 r H2. by apply Forall_app_2.
Qed.
Lemma adds_catch {A} P (m : eff W A) cs f : adds P m -> (forall e, adds P (f e)) -> adds P (catch m cs f).
Proof.
  intros Hm Hf. eapply grows_catch; [exact Hm|done|done|]. intros e l1 _ H1. eapply grows_impl; [|apply Hf].
  intros l2 r H2. by apply Forall_app_2.
Qed.

Lemma idle_ret {A} (a : A) : idle (mret a).
Proof. intros ??? E. by injection E as _ <-. Qed.
Lemma idle_lift {A} (r : result A) : idle (lift r).
Proof. intros ??? E. by injection E as _ <-. Qed.
Lemma idle_gets {A} (f : W -> A) : idle (gets f).
Proof. intros ??? E. by injection E as _ <-. Qed.
Lemma idle_use {A} (f : nat -> A) : idle (use f).
Proof. intros ??? E. by injection E as _ <-. Qed.
Lemma idle_on_redis {A} (m : eff (world R) A) : idle (on_redis m).
Proof. intros w r w' E. unfold on_redis in E. destruct (m _) in E. by injection E as _ <-. Qed.
Lemma idle_modify (f : W -> W) : (forall w, i_runs (f w) = i_runs w) -> idle (modify f).
Proof. intros H ??? E. injection E as _ <-. apply H. Qed.
Lemma idle_bind {A B} (m : eff W A) (f : A -> eff W B) :
  idle m -> (forall a, idle (f a)) -> idle (x ← m; f x).
Proof.
  intros Hm Hf w r w' E. unfold mbind, eff_bind in E. destruct (m w) as [[a|e] w1] eqn:Em.
  - rewrite (Hf a _ _ _ E). by apply (Hm _ _ _ Em).
  - injection E as _ <-. by apply (Hm _ _ _ Em).
Qed.
Lemma idle_catch {A} (m : eff W A) cs f : idle m -> (forall e, idle (f e)) -> idle (catch m cs f).
Proof.
  intros Hm Hf w r w' E. unfold catch in E. destruct (m w) as [[a|e] w1] eqn:Em.
  - injection E as _ <-. by apply (Hm _ _ _ Em).
  - destruct (exn_in e cs); [rewrite (Hf e _ _ _ E)|injection E as _ <-]; by apply (Hm _ _ _ Em).
Qed.
Lemma adds_log (P : sdk_event -> Prop) x : P x -> adds P (record_event x : eff W unit).
Proof. intros H w r w' E. injection E as _ <-. exists [x]. split; [done|]. by constructor. Qed.
(** Work whose result nobody waits for. *)
Lemma adds_forget {A} P (m : eff W A) : adds P m -> adds P ((fun w => (Ok tt, snd (m w))) : eff W unit).
Proof. intros H w r w' E. injection E as _ <-. destruct (m w) as [r0 w1] eqn:Em. by apply (H _ _ _ Em). Qed.
End Grows.

#[export] Hint Resolve idle_ret idle_lift idle_gets idle_use idle_on_redis : ingest.
(** Walk through a computation whose pieces leave the log alone. *)
Ltac idles :=
  repeat first
    [ progress intros
    | apply idle_bind
    | apply idle_catch
    | solve [auto with ingest]
    | apply idle_modify; reflexivity
    | match goal with
      | |- idle (match ?x with _ => _ end) => destruct x
      | |- idle (let '(_, _) := ?x in _) => destruct x
      end ].
Ltac logs :=
  repeat first
    [ progress intros
    | solve [apply adds_idle; idles]
    | apply adds_bind
    | apply adds_catch
    | solve [auto with ingest]
    | match goal with
      | |- adds _ (match ?x with _ => _ end) => destruct x
      | |- adds _ (let '(_, _) := ?x in _) => destruct x
      end ].

Section Laws.
Context {R : Type} `{RS : RedisServer R} (h : host R) (sv : service) (cfg : ingest_config).
Context (html_unescape : string -> string) (wide_alnum wide_word : string -> bool).
Abbreviation W := (iworld R).
(** A caller's callback has no part in the SDK's work. *)
Definition calm_callback (progress : option (dict -> eff W unit)) : Prop :=
  match progress with Some f => forall d, idle (f d) | None => True end.
Lemma idle_emit_stage progress phase filename message extra : calm_callback progress ->
  idle (_emit_stage progress phase filename message extra).
Proof.
  unfold _emit_stage. destruct progress as [f|]; [|intros; apply idle_ret].
  intros H. unfold suppress. by idles.
Qed.
Lemma idle_emit_thread progress phase filename message extra : calm_callback progress ->
  idle (emit_thread progress phase filename message extra).
Proof. apply idle_emit_stage. Qed.
#[local] Hint Resolve idle_emit_stage idle_emit_thread : ingest.
Lemma idle_fetch d s u : idle (fetch h sv d s u).
Proof. unfold fetch, _get_redis, rethrow, throw. idles. Qed.
Lemma idle_nv : idle (_get_nv_client sv : eff W unit).
Proof. unfold _get_nv_client, use_r. idles. Qed.
#[local] Hint Resolve idle_fetch idle_nv : ingest.

(** ** One document *)
(** A run that writes into [coll], as [c] says. *)
Definition own_run (c : ingest_config) (coll : string) (e : sdk_event) : Prop :=
  match e with
  | Run r => exists up, p_upload (s_pipeline r) = Some up /\ u_collection up = coll /\
                        u_recreate up = recreate_collection c
  | Completed _ _ _ _ => False
  end.
(** Nobody knows what a run did to the collection. *)
Definition uncertain (r : sdk_run) : Prop :=
  s_timing r <> InTime \/ s_wrote r = true /\ s_ok r = false.
(** After an uncertain run there is no other. *)
Definition no_replay (l : list sdk_event) : Prop :=
  forall newer r older, l = newer ++ Run r :: older -> uncertain r -> newer = [].
Definition one_run {A} (c : ingest_config) (coll : string) (t : timing) (l : list sdk_event) (res : result A) : Prop :=
  l = [] \/ exists r, l = [Run r] /\ own_run c coll (Run r) /\ s_timing r = t /\
    (s_wrote r = true -> s_ok r = false -> exists msg, res = raise UncertainVectorWriteError msg).

Lemma ingest_run_grows progress c name bytes coll size overlap filename t : calm_callback progress ->
  grows (one_run c coll t)
    (ingest_run sv progress (pipeline_of c name bytes (Some (upload_of c coll size overlap))) filename t : eff W _).
Proof.
  intros Hc. unfold ingest_run. set (p := pipeline_of _ _ _ _).
  apply grows_after; [by apply idle_emit_thread|by left|]. intros _.
  apply grows_after; [apply idle_use|by left|]. intros [wrote r].
  set (x := SdkRun p wrote (is_ok r) t).
  assert (Hx : own_run c coll (Run x)) by (eexists; split; [reflexivity|done]).
  eapply grows_bind with (Q1 := fun l res => l = [Run x] /\ res = Ok tt).
  { intros w0 res w' E. injection E as <- <-. by exists [Run x]. }
  { by intros l e [_ ?]. }
  intros _ l1 [-> _].
  assert (idle (when wrote (emit_thread progress "indexing" filename
            "NV-Ingest extraction finished; writing chunks to Milvus" []))) as Hw
    by (unfold when; destruct wrote; auto with ingest).
  intros w0 res w' E. exists []. apply bind_inv in E.
  assert (forall wr, (match r with
                     | Ok x0 => mret x0
                     | Raise e => if wrote then throw UncertainVectorWriteError (exn_msg e) else rethrow e
                     end : eff W sdk_results) wr = (res, w') ->
          i_runs w' = i_runs wr /\ (wrote = true -> is_ok r = false -> exists msg, res = raise UncertainVectorWriteError msg)) as Hr.
  { intros wr Er. destruct r as [v|e]; [injection Er as <- <-; by split|].
    destruct wrote; injection Er as <- <-; split; try done. intros _ _. eauto. }
  destruct E as [([] & w1 & E1 & E2)|(e & E1 & ->)].
  - destruct (Hr _ E2) as [H1 H2]. rewrite H1, (Hw _ _ _ E1). split; [done|]. right. by exists x.
  - exfalso. revert E1. unfold when, emit_thread, _emit_stage. destruct wrote; [|done].
    destruct progress as [f|]; [|done]. unfold suppress, catch. destruct (f _ w0) as [[]]; [done|].
    by destruct (exn_in _ _) eqn:Ex; [|destruct e0 as [[]]].
Qed.

Lemma one_run_nil {A} c coll t (res : result A) : one_run c coll t [] res.
Proof. by left. Qed.
#[local] Hint Resolve one_run_nil : ingest.
Lemma one_run_raise {A B} c coll t l e : one_run c coll t l (Raise e : result A) -> one_run c coll t l (Raise e : result B).
Proof.
  intros [->|(r & -> & H1 & H2 & H3)]; [by left|]. right. exists r. split_and!; try done.
  intros Hw Ho. destruct (H3 Hw Ho) as [msg [= ->]]. by exists msg.
Qed.
Lemma one_run_ok {A} c coll t l (a : A) {B} (res : result B) : one_run c coll t l (Ok a) -> one_run c coll t l res.
Proof.
  intros [->|(r & -> & H1 & H2 & H3)]; [by left|]. right. exists r. split_and!; try done.
  intros Hw Ho. by destruct (H3 Hw Ho) as [msg ?].
Qed.
(** What follows a run leaves the log alone. *)
Lemma grows_then_idle {A B} c coll t (m : eff W A) (f : A -> eff W B) :
  grows (one_run c coll t) m -> (forall a, idle (f a)) -> grows (one_run c coll t) (x ← m; f x).
Proof.
  intros Hm Hf. eapply grows_bind; [exact Hm|intros l e; apply one_run_raise|]. intros a l1 H1.
  apply idle_grows; [apply Hf|]. intros r. by eapply one_run_ok.
Qed.
Lemma postproc_grows progress c filename bytes coll size overlap t : calm_callback progress ->
  grows (one_run c coll t)
    (run_ingest_with_postproc sv html_unescape wide_alnum wide_word progress c filename bytes coll size overlap t : eff W _).
Proof.
  intros Hc. unfold run_ingest_with_postproc, _build_ingestor.
  apply grows_after; [by apply idle_emit_thread|auto with ingest|]. intros _.
  eapply (grows_bind (fun l r => l = [] /\ (forall p, r = Ok p ->
            p = pipeline_of c filename bytes (Some (upload_of c coll size overlap))))).
  { intros w r w' E. exists []. apply bind_inv in E as [(d & w1 & E1 & E)|(e & E1 & ->)].
    - apply bind_inv in E as [([] & w2 & E2 & E)|(e & E2 & ->)].
      + injection E as <- <-. rewrite (idle_lift _ _ _ _ E2), (idle_use _ _ _ _ E1). split; [done|]. split; [done|].
        by intros p [= <-].
      + rewrite (idle_lift _ _ _ _ E2), (idle_use _ _ _ _ E1). done.
    - by rewrite (idle_use _ _ _ _ E1). }
  { intros l e [-> _]. by left. }
  intros p l1 [-> Hp]. rewrite (Hp p eq_refl). eapply grows_impl; [|apply grows_then_idle].
  { intros l r. by rewrite app_nil_r. }
  - by apply ingest_run_grows.
  - intros [results failures]. idles; by apply idle_emit_thread.
Qed.
Lemma ownership_grows {A} c coll (f : timing -> eff W A) : (forall t, grows (one_run c coll t) (f t)) ->
  grows (fun l res => l = [] \/ exists r, l = [Run r] /\ own_run c coll (Run r) /\
           (uncertain r -> exists e, res = Raise e /\ (exn_cls e = TimeoutError_ \/ exn_cls e = UncertainVectorWriteError)))
    (run_with_thread_ownership sv f).
Proof.
  intros Hf. unfold run_with_thread_ownership. apply grows_after; [apply idle_use|by left|].
  intros [| |]; intros w res w' E.
  - injection E as <- <-. exists []. split; [done|by left].
  - apply bind_inv in E as [([] & w1 & E1 & E)|(e & E1 & ->)]; [|by destruct (f Late w)].
    injection E as <- <-. injection E1 as <-. destruct (f Late w) as [r0 w1] eqn:Ef.
    destruct (Hf Late _ _ _ Ef) as (l & H1 & [->|(r & -> & H2 & _)]); eexists; (split; [exact H1|]); [by left|].
    right. exists r. split_and!; try done. intros _. eexists. split; [reflexivity|by left].
  - destruct (Hf InTime _ _ _ E) as (l & H1 & [->|(r & -> & H2 & Ht & H3)]); eexists; (split; [exact H1|]); [by left|].
    right. exists r. split_and!; try done. intros [Hu|[Hu1 Hu2]]; [done|]. destruct (H3 Hu1 Hu2) as [msg ->].
    eexists. split; [reflexivity|by right].
Qed.
(** An attempt after which another one follows left nothing uncertain. *)
Definition ended_with (c : ingest_config) (coll : string) (l : list sdk_event) (res : result attempt_end) : Prop :=
  l = [] \/ exists r, l = [Run r] /\ own_run c coll (Run r) /\
    (uncertain r -> res = Ok GaveUp \/ exists msg, res = Ok (Uncertain msg)).
Lemma attempt_once_grows progress c filename bytes coll size overlap n : calm_callback progress ->
  grows (ended_with c coll)
    (attempt_once sv html_unescape wide_alnum wide_word progress c filename bytes coll size overlap n : eff W _).
Proof.
  intros Hc. unfold attempt_once.
  eapply (grows_catch (fun l res => l = [] \/ exists r, l = [Run r] /\ own_run c coll (Run r) /\
     (uncertain r -> exists e, res = Raise e /\ (exn_cls e = TimeoutError_ \/ exn_cls e = UncertainVectorWriteError)))).
  - apply grows_after; [apply idle_use|by left|]. intros locked.
    apply grows_after; [unfold when; destruct locked; by auto using idle_emit_stage with ingest|by left|]. intros _.
    apply grows_after; [by apply idle_emit_stage|by left|]. intros _.
    eapply grows_bind.
    + apply ownership_grows. intros t. by apply postproc_grows.
    + intros l e [->|(r & -> & H1 & H2)]; [by left|]. right. exists r. split_and!; try done.
      intros Hu. destruct (H2 Hu) as (e' & [= ->] & H). eauto.
    + intros a l1 [->|(r & -> & H1 & H2)]; apply idle_grows; try apply idle_ret; intros res; [by left|].
      right. exists r. split_and!; try done. intros Hu. by destruct (H2 Hu) as (e' & ? & _).
  - intros l a [->|(r & -> & H1 & H2)]; [by left|]. right. exists r. split_and!; try done.
    intros Hu. by destruct (H2 Hu) as (e' & ? & _).
  - intros l e Hx. exfalso. destruct e as [[]]; discriminate Hx.
  - intros e l1 _ H1. intros w res w' E. injection E as <- <-. exists []. split; [done|]. cbn [app].
    destruct H1 as [->|(r & -> & H1 & H2)]; [by left|]. right. exists r. split_and!; try done.
    intros Hu. destruct (H2 Hu) as (e' & [= <-] & [Hx|Hx]); rewrite Hx; [by left|right; eexists; reflexivity].
Qed.

Lemma no_replay_app r l : no_replay l -> (forall newer x older, l = newer ++ Run x :: older -> ~ uncertain x) ->
  no_replay (r :: l).
Proof.
  intros Hl Hc newer x older E Hu. destruct newer as [|y newer]; [done|]. injection E as -> E.
  by destruct (Hc newer x older E).
Qed.
Definition certain (l : list sdk_event) : Prop := forall newer x older, l = newer ++ Run x :: older -> ~ uncertain x.
Lemma certain_no_replay l : certain l -> no_replay l.
Proof. intros H newer x older E Hu. by destruct (H newer x older E). Qed.
Lemma certain_cons x l : ~ uncertain x -> certain l -> certain (Run x :: l).
Proof.
  intros Hx Hl newer y older E. destruct newer as [|z newer]; [by injection E as <- <-|].
  injection E as _ E. eauto.
Qed.
Lemma no_replay_cons x l : certain l -> no_replay (Run x :: l).
Proof. intros H. apply no_replay_app; [by apply certain_no_replay|exact H]. Qed.
Lemma certain_nil : certain [].
Proof. intros newer x older E. by destruct newer. Qed.
Lemma attempts_grow n progress c filename bytes coll size overlap : calm_callback progress ->
  forall k last l0, certain l0 ->
  grows (fun l _ => Forall (own_run c coll) l /\ no_replay (l ++ l0))
    (attempt_loop sv html_unescape wide_alnum wide_word n progress c filename bytes coll size overlap k last : eff W _).
Proof.
  intros Hc. induction n as [|n IH]; intros k last l0 H0; cbn [attempt_loop].
  { apply idle_grows; [apply idle_ret|]. intros _. split; [done|by apply certain_no_replay]. }
  eapply grows_bind; [apply attempt_once_grows, Hc| |].
  { intros l e [->|(r & -> & H1 & _)]; (split; [by repeat constructor|]); [by apply certain_no_replay|].
    by apply no_replay_cons. }
  intros x l1 H1.
  assert (Forall (own_run c coll) l1 /\ no_replay (l1 ++ l0)) as [Ho Hn].
  { destruct H1 as [->|(r & -> & H1 & _)]; (split; [by repeat constructor|]); [by apply certain_no_replay|].
    by apply no_replay_cons. }
  destruct x as [p| |msg|msg]; try (apply idle_grows; [apply idle_ret|by intros _]).
  assert (Hce : certain (l1 ++ l0)).
  { destruct H1 as [->|(r & -> & _ & Hu)]; [done|]. apply certain_cons; [|done].
    intros U. destruct (Hu U) as [?|[m ?]]; discriminate. }
  apply grows_after.
  - unfold when. case_match; auto using idle_emit_stage with ingest.
  - intros _. by rewrite app_nil_l.
  - intros _. eapply grows_impl; [|by apply (IH _ _ (l1 ++ l0))]. intros l r [F1 F2].
    split; [by apply Forall_app_2|]. by rewrite <- List.app_assoc.
Qed.

(** What one document adds to the log: runs, and at the end that it is done exactly when it was indexed. *)
Definition document_log (c : ingest_config) (coll : string) (l : list sdk_event) (res : result IngestResult) : Prop :=
  exists runs, Forall (own_run c coll) runs /\ no_replay runs /\
    (l = runs /\ (forall i, res = Ok i -> i_status i = Failure) \/
     exists chunks failures pages i, l = Completed coll chunks failures pages :: runs /\ res = Ok i /\
       i_status i <> Failure /\ i_collection i = coll).
Lemma document_log_nil c coll e : document_log c coll [] (Raise e).
Proof. exists []. split_and!; [done|apply certain_no_replay, certain_nil|]. by left. Qed.
Lemma document_log_failure c coll i : i_status i = Failure -> document_log c coll [] (Ok i).
Proof. exists []. split_and!; [done|apply certain_no_replay, certain_nil|]. left. split; [done|]. by intros ? [= <-]. Qed.
#[local] Hint Resolve document_log_nil : ingest.
Lemma failure_grows c coll i : i_status i = Failure -> grows (document_log c coll) (mret i : eff W IngestResult).
Proof.
  intros H w r w' E. injection E as <- <-. exists []. split; [done|]. by apply document_log_failure.
Qed.
Lemma ingest_loaded_grows progress c ref filename bytes coll size overlap : calm_callback progress ->
  grows (document_log c coll)
    (ingest_loaded sv cfg html_unescape wide_alnum wide_word progress c ref filename bytes coll size overlap : eff W _).
Proof.
  intros Hc. unfold ingest_loaded. do 2 (apply grows_after; [by apply idle_emit_stage|auto with ingest|]; intros _).
  apply grows_after; [apply idle_nv|auto with ingest|]. intros _.
  eapply grows_bind; [apply (attempts_grow _ _ _ _ _ _ _ _ Hc _ _ [] certain_nil)| |].
  { intros l e [H1 H2]. exists l. rewrite app_nil_r in H2. split_and!; [done..|]. by left. }
  intros x l1 [H1 H2]. rewrite app_nil_r in H2.
  destruct x as [[[[md pages] chunks] failures]| |msg].
  - intros w r w' E. injection E as <- <-. eexists [_]. split; [reflexivity|]. exists l1.
    split_and!; [done..|]. right. do 4 eexists. split; [reflexivity|]. split; [reflexivity|].
    split; [cbn; by destruct (failures =? 0)|done].
  - intros w r w' E. injection E as <- <-. exists []. split; [done|]. exists l1. split_and!; [done..|].
    left. split; [done|]. by intros i [= <-].
  - intros w r w' E. injection E as <- <-. exists []. split; [done|]. exists l1. split_and!; [done..|].
    left. split; [done|]. by intros i [= <-].
Qed.

Abbreviation config_for append := (if append : bool then appending cfg else cfg).
Lemma process_resolved_grows progress c ref username coll scope_error size overlap : calm_callback progress ->
  grows (fun l res => document_log c coll l res /\ (scope_error <> None -> l = []))
    (process_resolved h sv cfg html_unescape wide_alnum wide_word progress c ref username coll scope_error size overlap
     : eff W _).
Proof.
  intros Hc. unfold process_resolved. cbv zeta.
  assert (Hf : forall i, i_status i = Failure ->
    grows (fun l res => document_log c coll l res /\ (scope_error <> None -> l = [])) (mret i : eff W IngestResult)).
  { intros i Hi w r w' E. injection E as <- <-. exists []. split; [done|]. split; [by apply document_log_failure|done]. }
  destruct scope_error as [e|]; [by apply Hf|].
  destruct ref as [| | | | | |r0]; try (by apply Hf). destruct r0 as [|kv r0]; [by apply Hf|].
  repeat match goal with |- grows _ (if ?b then _ else _) => destruct b; [by apply Hf|] end.
  assert (forall m, grows (document_log c coll) (m : eff W IngestResult) ->
    grows (fun l res => document_log c coll l res /\ (None <> (None : option string) -> l = [])) m) as Hn.
  { intros m Hm. eapply grows_impl; [|exact Hm]. intros l r H. by split. }
  apply Hn. apply grows_after; [by apply idle_emit_stage|auto with ingest|]. intros _.
  apply grows_after; [apply idle_catch; [apply idle_bind; [apply idle_fetch|]|]; intros; apply idle_ret|auto with ingest|].
  intros [[name bytes|error name kind]|error]; [by apply ingest_loaded_grows|by apply failure_grows..].
Qed.

Lemma document_runs ref username name scope size overlap progress append w res w' :
  calm_callback progress ->
  process_document h sv cfg html_unescape wide_alnum wide_word ref username name scope size overlap progress append w
    = (res, w') ->
  exists l, i_runs w' = l ++ i_runs w /\
    (l = [] \/ exists coll,
       resolve_user_collection_name name (Some username) (Some (default_collection_name cfg)) = Ok coll /\
       private_name coll (sha256_hex (subject_of (Some username))) /\
       document_log (config_for append) coll l res).
Proof.
  intros Hc E. unfold process_document in E.
  assert (Ed : default_collection_name (config_for append) = default_collection_name cfg) by by destruct append.
  rewrite Ed in E. apply bind_inv in E as [(coll & w1 & E1 & E)|(e & E1 & ->)];
    [|exists []; rewrite (idle_lift _ _ _ _ E1); by split; [|left]].
  apply bind_inv in E as [(se & w2 & E2 & E)|(e & E2 & ->)];
    [|exists []; rewrite (idle_lift _ _ _ _ E2), (idle_lift _ _ _ _ E1); by split; [|left]].
  rewrite <- (idle_lift _ _ _ _ E1), <- (idle_lift _ _ _ _ E2).
  injection E1 as Er <-. injection E2 as Es <-.
  assert (Hg : grows (fun l res => document_log (config_for append) coll l res /\ (se <> None -> l = []))
    (catch (process_resolved h sv cfg html_unescape wide_alnum wide_word progress (config_for append) ref username coll se
              (chunk_size_of cfg size) (chunk_overlap_of cfg overlap)) [Exception_]
       (fun e => mret (ingest_failure ref coll ("An unexpected error occurred: " +++ exn_msg e) VNone)) : eff W _)).
  { eapply grows_catch; [by apply process_resolved_grows|done|done|].
    intros e l1 _ [H1 H2] w0 r w1 E1. injection E1 as <- <-. exists []. split; [done|]. split; [|exact H2]. cbn [app].
    destruct H1 as (runs & F1 & F2 & [[-> _]|(c1 & c2 & c3 & i & _ & ? & _)]); [|done].
    exists runs. split_and!; [done..|]. left. split; [done|]. by intros i [= <-]. }
  destruct (Hg _ _ _ E) as (l & H1 & H2 & H3). exists l. split; [exact H1|].
  destruct l as [|x l]; [by left|right]. exists coll. split_and!; [done| |done].
  destruct se as [e|]; [by discriminate (H3 ltac:(done))|].
  destruct (validate_user_collection_write_scope coll scope) as [sc|e] eqn:Ev; [|by destruct (exn_isa (exn_cls e) ValueError)].
  pose proof (write_scope_user _ _ _ Ev) as Hs.
  by destruct (resolved_shape _ _ _ _ Er) as (_ & _ & [C|P]); [congruence|].
Qed.

(** Every run of one document's ingestion writes into the collection the
    request resolves to, which is private to the caller, and makes it anew
    only if the configuration asks for it and the document isn't appended.
    After a run that may have written and failed, or that outlived its
    waiter, there is no other run.  The log says the document is done exactly
    when the caller is told that it was indexed. *)
Theorem document_runs_disciplined ref username name scope size overlap progress append w res w' :
  calm_callback progress ->
  process_document h sv cfg html_unescape wide_alnum wide_word ref username name scope size overlap progress append w
    = (res, w') ->
  exists l, i_runs w' = l ++ i_runs w /\
    (l = [] \/ exists coll,
       resolve_user_collection_name name (Some username) (Some (default_collection_name cfg)) = Ok coll /\
       private_name coll (sha256_hex (subject_of (Some username))) /\
       document_log (config_for append) coll l res).
Proof. apply document_runs. Qed.
End Laws.
