(* ===== verification/BatchLaws.v ===== *)
(** * Laws of document batches

    A batch that makes a collection anew does so before it has indexed
    anything, and accounts for every document of the request. *)
From S2P Require Import Prelude PyStr PyFloat PyVal Json JsonRoundtrip Redis Sha Dedupe World Identity Tokens.
From S2P Require Import Idempotency Collections CollectionLaws Markdown Extraction Documents Ingest Batch.
From S2P Require Import DocumentTool IngestLaws.
#[local] Open Scope Z_scope.

Definition renews (e : sdk_event) : Prop :=
  match e with
  | Run r => exists up, p_upload (s_pipeline r) = Some up /\ u_recreate up = true
  | Completed _ _ _ _ => False
  end.
Definition finishes (e : sdk_event) : Prop := match e with Completed _ _ _ _ => True | Run _ => False end.
(** No run makes the collection anew after a document was indexed. *)
Definition renewed_first (l : list sdk_event) : Prop :=
  forall newer e older, l = newer ++ e :: older -> renews e -> Forall (fun f => ~ finishes f) older.
Definition still (l : list sdk_event) : Prop := Forall (fun e => ~ renews e) l.

Lemma finished_dec l : {Forall (fun f => ~ finishes f) l} + {~ Forall (fun f => ~ finishes f) l}.
Proof. apply Forall_dec. intros [r|? ? ? ?]; [left; by intros []|right; by intros []]. Defined.
Lemma first_nil : renewed_first [].
Proof. by intros [|? ?] ? ? ?. Qed.
Lemma still_nil : still [].
Proof. by constructor. Qed.
Lemma still_first l l0 : still l -> renewed_first l0 -> renewed_first (l ++ l0).
Proof.
  intros Hs H0 newer e older E Hr. induction Hs as [|x l Hx Hs IH] in newer, E |- *; [by apply (H0 newer e)|].
  destruct newer as [|y newer]; [by injection E as -> _|]. injection E as _ E. by apply (IH newer).
Qed.
Lemma unfinished_first l l0 : renewed_first l -> Forall (fun f => ~ finishes f) l0 -> renewed_first (l ++ l0).
Proof.
  intros Hl H0 newer e older E Hr.
  assert (renewed_first l0) as H0'.
  { intros n x o E' _. rewrite E' in H0. by apply Forall_app in H0 as [_ H0%Forall_cons_1%proj2]. }
  induction l as [|x l IH] in newer, E, Hl |- *; [by apply (H0' newer e)|].
  destruct newer as [|y newer].
  - injection E as -> <-. apply Forall_app_2; [|done]. by apply (Hl [] e l).
  - injection E as _ E. refine (IH _ newer E). intros n z o E' Hz. apply (Hl (x :: n) z o); [by rewrite E'|done].
Qed.
Lemma own_unfinished c coll l : Forall (own_run c coll) l -> Forall (fun f => ~ finishes f) l.
Proof. intros F. eapply Forall_impl; [exact F|]. intros [r|? ? ? ?] Ho; [by intros []|by destruct Ho]. Qed.
Lemma unfinished_renewed l : Forall (fun f => ~ finishes f) l -> renewed_first l.
Proof. intros F newer e older -> _. by apply Forall_app in F as [_ F%Forall_cons_1%proj2]. Qed.
(** A document's log: runs, then perhaps its end. *)
Lemma document_first c coll l res : document_log c coll l res -> renewed_first l.
Proof.
  intros (runs & F & _ & [[-> _]|(n1 & n2 & n3 & i & -> & _)]); [by eapply unfinished_renewed, own_unfinished|].
  apply (still_first [Completed coll n1 n2 n3] runs); [by constructor; [intros []|]|]. by eapply unfinished_renewed, own_unfinished.
Qed.
Lemma document_still c coll l res : recreate_collection c = false -> document_log c coll l res -> still l.
Proof.
  intros Hc (runs & F & _ & H). assert (still runs) as Hs.
  { eapply Forall_impl; [exact F|]. intros [r|? ? ? ?] Ho; [|by destruct Ho]. destruct Ho as (up & E1 & _ & E2).
    intros (up' & E3 & E4). rewrite E1 in E3. injection E3 as <-. congruence. }
  destruct H as [[-> _]|(? & ? & ? & i & -> & _)]; [done|]. constructor; [by intros []|done].
Qed.
Lemma document_finished c coll l res : document_log c coll l res -> ~ Forall (fun f => ~ finishes f) l ->
  exists i, res = Ok i /\ i_status i <> Failure.
Proof.
  intros (runs & F & _ & [[-> _]|(? & ? & ? & i & -> & -> & H & _)]) Hn; [|by exists i].
  destruct Hn. by eapply own_unfinished.
Qed.

(** ** Counting *)
Definition sum_by {A} (f : A -> Z) (l : list A) : Z := fold_right (fun x s => f x + s) 0 l.
Lemma sum_by_snoc {A} (f : A -> Z) l x : sum_by f (l ++ [x]) = sum_by f l + f x.
Proof. unfold sum_by. induction l as [|y l IH]; cbn; [lia|]. rewrite IH. lia. Qed.
(** [n] documents are accounted for, and the totals are those of the indexed ones. *)
Definition tally (b : batch_state) (n : nat) : Prop :=
  (length (b_ok b) + length (b_bad b) = n)%nat /\
  b_chunks b = sum_by d_chunks (b_ok b) /\ b_pages b = sum_by d_pages (b_ok b).
Lemma tally_bad id error b n : tally b n -> tally (add_bad id error b) (S n).
Proof. intros (H1 & H2 & H3). split_and!; [|done..]. cbn. rewrite length_app. cbn. lia. Qed.
Lemma tally_accumulate name o b n : tally b n -> tally (fst (_accumulate name o b)) (S n).
Proof.
  intros H. unfold _accumulate. destruct o as [i|e]; [|by apply tally_bad].
  destruct (i_status i); [| |by apply tally_bad]; destruct H as (H1 & H2 & H3);
    (unfold tally; cbn [fst b_ok b_bad b_chunks b_pages]; rewrite length_app, !sum_by_snoc, H2, H3; cbn [length]; split_and!; [lia|done..]).
Qed.
Lemma accumulate_ok name o b : b_ok b <> [] -> b_ok (fst (_accumulate name o b)) <> [].
Proof. unfold _accumulate. destruct o as [i|]; [destruct (i_status i)|]; cbn; try done; by destruct (b_ok b). Qed.
Lemma accumulate_indexed name i b : i_status i <> Failure -> b_ok (fst (_accumulate name (Ok i) b)) <> [].
Proof. unfold _accumulate. destruct (i_status i); cbn; try done; by destruct (b_ok b). Qed.
Lemma mark_tally skipped b b' n : _mark_skipped_due_to_timeout skipped b = Ok b' -> tally b n ->
  tally b' (n + length skipped) /\ b_ok b' = b_ok b.
Proof.
  revert b n. induction skipped as [|[idx ref] skipped IH]; intros b n H Ht; cbn in H.
  { injection H as <-. rewrite Nat.add_0_r. done. }
  apply bind_ok in H as (name & _ & H). destruct (IH _ (S n) H) as [H1 H2]; [by apply tally_bad|].
  cbn [length]. rewrite Nat.add_succ_r. done.
Qed.
Lemma completed_tally b n : tally b n -> _completed_count b = Z.of_nat n.
Proof. intros (H & _). unfold _completed_count. by rewrite H. Qed.
Lemma max_batch_pos cfg : (0 < max_batch cfg)%nat.
Proof. unfold max_batch. lia. Qed.
Lemma collect_length i group done rs : collect i group done = Ok rs -> length rs = length group.
Proof.
  revert i rs. induction group as [|[idx ref] group IH]; intros i rs H; cbn in H; [by injection H as <-|].
  apply bind_ok in H as (r & _ & H). apply bind_ok in H as (rs' & H' & H). injection H as <-. cbn. by rewrite (IH _ _ H').
Qed.

Abbreviation config_for c append := (if append : bool then appending c else c).
Section Laws.
Context {R : Type} `{RS : RedisServer R} (h : host R) (sv : service) (cfg : ingest_config).
Context (html_unescape : string -> string) (wide_alnum wide_word : string -> bool).
Abbreviation W := (iworld R).
Context (q : request) (Hq : calm_callback (R := R) (q_progress q)).
(** Runs no longer make the collection anew: the configuration doesn't ask
    for it, or something was indexed. *)
Definition safe (b : batch_state) : Prop := recreate_collection cfg = false \/ b_ok b <> [].

Lemma idle_progress cur ph ix msg b extra : idle (_emit_progress q cur ph ix msg b extra : eff W unit).
Proof using Hq. unfold _emit_progress, suppress. destruct (q_progress q) as [f|]; [|apply idle_ret]. cbn in Hq. by idles. Qed.
Lemma idle_doc_progress idx name b st : idle (_doc_progress q idx name b st : eff W unit).
Proof using Hq. apply idle_progress. Qed.
Definition one_log (b : batch_state) (l : list sdk_event) (res : result (value * outcome)) : Prop :=
  renewed_first l /\ (safe b -> still l) /\
  (~ Forall (fun f => ~ finishes f) l -> exists name i, res = Ok (name, Ok i) /\ i_status i <> Failure).
Lemma one_log_nil b res : one_log b [] res.
Proof. split_and!; [apply first_nil|intros; apply still_nil|]. intros H. by destruct H. Qed.
Lemma one_grows b idx ref : grows (one_log b) (_one h sv cfg html_unescape wide_alnum wide_word q b idx ref : eff W _).
Proof using Hq.
  unfold _one. apply grows_after; [apply idle_lift|intros; apply one_log_nil|]. intros name.
  set (append := match b_ok b with [] => false | _ => true end).
  eapply (grows_bind (fun l res => renewed_first l /\ (safe b -> still l) /\
    (~ Forall (fun f => ~ finishes f) l -> exists i, res = Ok (Ok i) /\ i_status i <> Failure))).
  - eapply (grows_catch (fun l res => renewed_first l /\ (safe b -> still l) /\
      (~ Forall (fun f => ~ finishes f) l -> exists i, res = Ok (Ok i) /\ i_status i <> Failure))).
    + apply grows_after; [apply idle_progress|..].
      { intros e. split_and!; [apply first_nil|intros; apply still_nil|]. intros H. by destruct H. }
      intros _.
      assert (Hp : grows (fun l res => l = [] \/ exists coll, document_log (config_for cfg append) coll l res)
        (process_document h sv cfg html_unescape wide_alnum wide_word ref (q_username q) (Some (q_collection q))
           (Some (scope_name (q_scope q))) (q_chunk_size q) (q_chunk_overlap q) (Some (_doc_progress q idx name b))
           append : eff W _)).
      { intros w r w' E.
        apply document_runs in E as (l & H1 & [->|(coll & _ & _ & H2)]); [| |intros d; apply idle_doc_progress];
          eexists; (split; [exact H1|]); [by left|right; by exists coll]. }
      assert (Hr : forall l res, l = [] \/ (exists coll, document_log (config_for cfg append) coll l res) ->
        renewed_first l /\ (safe b -> still l) /\
        (~ Forall (fun f => ~ finishes f) l -> exists i, res = Ok i /\ i_status i <> Failure)).
      { intros l res [->|(coll & H)].
        - split_and!; [apply first_nil|intros; apply still_nil|]. intros H. by destruct H.
        - split_and!; [by eapply document_first| |by eapply document_finished].
          intros Hs. eapply document_still; [|exact H]. unfold append. destruct Hs as [Hs|Hs].
          + by destruct (b_ok b).
          + by destruct (b_ok b). }
      eapply grows_bind; [eapply grows_impl; [exact Hr|exact Hp]| |].
      * intros l e (H1 & H2 & H3). split_and!; [done..|]. intros Hf. by destruct (H3 Hf) as (i & ? & _).
      * intros i l1 (H1 & H2 & H3) w r w' E. injection E as <- <-. exists []. split; [done|]. split_and!; [done..|].
        intros Hf. destruct (H3 Hf) as (j & [= <-] & Hj). by exists i.
    + intros l a H. exact H.
    + intros l e Hx. exfalso. destruct e as [[]]; discriminate Hx.
    + intros e l1 _ (H1 & H2 & H3) w r w' E. injection E as <- <-. exists []. split; [done|]. split_and!; [done..|].
      intros Hf. by destruct (H3 Hf) as (j & ? & Hj).
  - intros l e (H1 & H2 & H3). split_and!; [done..|]. intros Hf. by destruct (H3 Hf) as (j & ? & Hj).
  - intros o l1 (H1 & H2 & H3) w r w' E. injection E as <- <-. exists []. split; [done|]. split_and!; [done..|].
    intros Hf. destruct (H3 Hf) as (j & [= ->] & Hj). by exists name, j.
Qed.
Lemma safe_more b b' : safe b -> (b_ok b <> [] -> b_ok b' <> []) -> safe b'.
Proof. intros [H|H] Hb; [by left|right; auto]. Qed.

(** ** In turn *)
(** A finished document in [l0] shows in [b]. *)
Definition shows (b : batch_state) (l0 : list sdk_event) : Prop :=
  renewed_first l0 /\ (safe b \/ Forall (fun f => ~ finishes f) l0).
Definition step_log (n : nat) (b : batch_state) (l0 l : list sdk_event) (res : result (batch_state * bool)) : Prop :=
  renewed_first (l ++ l0) /\ (safe b -> still l) /\
  forall b' t, res = Ok (b', t) -> shows b' (l ++ l0) /\ (tally b n -> tally b' (S n)) /\ (safe b -> safe b').
Lemma serial_step_grows n b idx ref l0 : shows b l0 ->
  grows (step_log n b l0) (serial_step h sv cfg html_unescape wide_alnum wide_word q b idx ref : eff W _).
Proof using Hq.
  intros [Hf Hs]. unfold serial_step.
  assert (Ho : forall l res, one_log b l res -> renewed_first (l ++ l0)).
  { intros l res (H1 & H2 & _). destruct Hs as [Hs|Hs]; [apply still_first; auto|by apply unfinished_first]. }
  eapply grows_bind; [apply one_grows| |].
  { intros l e H. split_and!; [by eapply Ho|by apply H|done]. }
  intros [name o] l1 H1. destruct (_accumulate name o b) as [b1 e] eqn:Ea.
  eapply grows_bind; [apply idle_grows with (Q := fun l _ => l = []); [apply idle_progress|done]| |].
  { intros l e' ->. cbn [app]. split_and!; [by eapply Ho|by apply H1|done]. }
  intros _ l2 -> w r w' E. injection E as <- <-. exists []. split; [done|]. cbn [app].
  assert (Eb : b1 = fst (_accumulate name o b)) by by rewrite Ea.
  split_and!; [by eapply Ho|by apply H1|]. intros b' t [= -> <-].
  assert (Hsafe : safe b -> safe b').
  { intros H. apply (safe_more b); [done|]. rewrite Eb. apply accumulate_ok. }
  split_and!; [split; [by eapply Ho|]|rewrite Eb; apply tally_accumulate|done].
  destruct Hs as [Hs|Hs]; [by left; auto|].
  destruct (finished_dec l1) as [Hn|Hn]; [right; by apply Forall_app_2|left].
  destruct H1 as (_ & _ & H1). destruct (H1 Hn) as (name' & i & [= -> ->] & Hi). right. rewrite Eb.
  by apply accumulate_indexed.
Qed.
Lemma idle_skip_rest rest b : idle (skip_rest q rest b : eff W batch_state).
Proof using Hq. unfold skip_rest. apply idle_bind; [apply idle_lift|]. intros b'.
  apply idle_bind; [apply idle_progress|]. intros _. apply idle_ret.
Qed.
Lemma skip_rest_ok n rest b (w : W) b' w' : skip_rest q rest b w = (Ok b', w') -> tally b n ->
  tally b' (n + length rest) /\ b_ok b' = b_ok b.
Proof.
  unfold skip_rest. intros E Hn. apply bind_Ok in E as (b1 & w1 & E1 & E). apply bind_Ok in E as (u & w2 & E2 & E).
  injection E as <- _. injection E1 as E1 _. by apply (mark_tally rest b).
Qed.
Lemma skip_rest_safe {rest} b (w : W) b' w' : safe b -> skip_rest q rest b w = (Ok b', w') -> safe b'.
Proof.
  intros Hs E. apply bind_Ok in E as (b1 & w1 & E1 & E). apply bind_Ok in E as (u & w2 & E2 & E). injection E as <- _.
  injection E1 as E1 _. apply (safe_more b); [done|]. clear -E1. revert b E1.
  induction rest as [|[ix rf] rest IH]; intros b E1 H; cbn in E1; [by injection E1 as <-|].
  apply bind_ok in E1 as (nm & _ & E1). by apply (IH (add_bad nm SKIPPED b)).
Qed.
Lemma prefix_grows n refs b l0 : shows b l0 ->
  grows (fun l res => renewed_first (l ++ l0) /\ forall rest b', res = Ok (rest, b') ->
           tally b n -> exists m, tally b' m /\
             ((m = n + length refs)%nat \/ (m + length rest = n + length refs)%nat /\ safe b') /\
             renewed_first (l ++ l0))
    (prefix_loop h sv cfg html_unescape wide_alnum wide_word q refs b : eff W _).
Proof using Hq.
  revert n b l0. induction refs as [|[idx ref] refs IH]; intros n b l0 Hs; cbn [prefix_loop].
  { intros w r w' E. injection E as <- <-. exists []. split; [done|]. split; [by apply Hs|].
    intros rest b' [= <- <-] Hn. exists n. split_and!; [done| |by apply Hs]. left. cbn. lia. }
  destruct (recreate_collection cfg && _) eqn:Er.
  2:{ intros w r w' E. injection E as <- <-. exists []. split; [done|]. split; [by apply Hs|].
      intros rest b' [= <- <-] Hn. exists n. split_and!; [done| |by apply Hs]. right. split; [done|].
      apply andb_false_iff in Er as [Er|Er]; [by left|right; by destruct (b_ok b)]. }
  eapply grows_bind; [by apply (serial_step_grows n)| |].
  { intros l e (H1 & _). split; [done|]. done. }
  intros [b1 timed_out] l1 (H1 & _ & H2). destruct (H2 b1 timed_out eq_refl) as (Hs1 & Ht1 & _).
  destruct timed_out.
  - intros w r w' E. exists []. cbn [app]. apply bind_inv in E as [(b2 & w1 & E1 & E)|(e & E1 & ->)].
    + injection E as <- <-. rewrite (idle_skip_rest _ _ _ _ _ E1). split; [done|]. split; [done|].
      intros rest b' [= <- <-] Hn. destruct (skip_rest_ok _ _ _ _ _ _ E1 (Ht1 Hn)) as [H3 _].
      eexists. split_and!; [exact H3| |done]. left. cbn [length]. lia.
    + rewrite (idle_skip_rest _ _ _ _ _ E1). by split.
  - eapply grows_impl; [|apply (IH (S n) b1 _ Hs1)]. intros l r [F1 F2]. rewrite <- List.app_assoc. split; [done|].
    intros rest b' Hr Hn. destruct (F2 _ _ Hr (Ht1 Hn)) as (m & G1 & G2 & G3). exists m. split_and!; [done| |done].
    cbn [length]. destruct G2 as [G2|[G2 G4]]; [left; lia|right; split; [lia|done]].
Qed.

(** ** Groups *)
(** Nothing is made anew any more; [k] documents were handled, or the rest was skipped. *)
Definition group_log (n k : nat) (later : list (Z * value)) (b : batch_state) (l : list sdk_event)
    (res : result (batch_state * bool)) : Prop :=
  still l /\ forall b' sk, res = Ok (b', sk) ->
    safe b' /\ (tally b n -> tally b' (if sk : bool then n + k + length later else n + k)%nat).
Lemma serial_group_grows group later : forall n b, safe b ->
  grows (group_log n (length group) later b)
    (serial_group h sv cfg html_unescape wide_alnum wide_word q group later b : eff W _).
Proof using Hq.
  induction group as [|[idx ref] group IH]; intros n b Hs; cbn [serial_group].
  { intros w r w' E. injection E as <- <-. exists []. split; [done|]. split; [apply still_nil|].
    intros b' sk [= <- <-]. by rewrite Nat.add_0_r. }
  assert (Hsh : shows b []) by (split; [apply first_nil|by left]).
  eapply grows_bind; [by apply (serial_step_grows n b idx ref [])| |].
  { intros l e (_ & H & _). split; [by apply H|done]. }
  intros [b1 timed_out] l1 (_ & Hl & H2). specialize (Hl Hs).
  destruct (H2 b1 timed_out eq_refl) as (_ & Ht1 & Hs1). specialize (Hs1 Hs). destruct timed_out.
  - intros w r w' E. exists []. cbn [app]. apply bind_inv in E as [(b2 & w1 & E1 & E)|(e & E1 & ->)].
    + injection E as <- <-. rewrite (idle_skip_rest _ _ _ _ _ E1). split; [done|]. split; [done|].
      intros b' sk [= <- <-]. split; [by eapply skip_rest_safe|]. intros Hn.
      destruct (skip_rest_ok _ _ _ _ _ _ E1 (Ht1 Hn)) as [H3 _]. rewrite length_app in H3. cbn [length].
      by replace (n + S (length group) + length later)%nat with (S n + (length group + length later))%nat by lia.
    + rewrite (idle_skip_rest _ _ _ _ _ E1). by split.
  - eapply grows_impl; [|apply (IH (S n) b1 Hs1)]. intros l r [F1 F2]. split; [by apply Forall_app_2|].
    intros b' sk Hr. destruct (F2 _ _ Hr) as [G1 G2]. split; [done|]. intros Hn. specialize (G2 (Ht1 Hn)).
    cbn [length]. destruct sk; rewrite <- ?Nat.add_succ_comm; done.
Qed.
Lemma run_group_still positions group b : safe b -> forall done,
  adds (fun e => ~ renews e) (run_group h sv cfg html_unescape wide_alnum wide_word q positions group b done : eff W _).
Proof using Hq.
  intros Hs. induction positions as [|i positions IH]; intros done; cbn [run_group]; [by apply adds_idle, idle_ret|].
  destruct (group !! i) as [[idx ref]|]; [|apply IH]. apply adds_bind; [|intros r; apply IH].
  intros w r w' E. destruct (_one h sv cfg html_unescape wide_alnum wide_word q b idx ref w) as [r1 w1] eqn:E1.
  injection E as <- <-. destruct (one_grows b idx ref w r1 w1 E1) as (l & H1 & _ & H2 & _). exists l. split; [done|].
  by apply H2.
Qed.
Lemma gather_grows group b : safe b ->
  grows (fun l res => still l /\ forall os, res = Ok os -> length os = length group)
    (gather h sv cfg html_unescape wide_alnum wide_word q group b : eff W _).
Proof using Hq.
  intros Hs. unfold gather. apply grows_after; [apply idle_use|by split; [apply still_nil|]|]. intros proposal.
  eapply grows_bind; [by apply run_group_still|by split|]. intros done l1 H1.
  intros w r w' E. injection E as <- <-. exists []. split; [done|]. split; [done|]. intros os Ho.
  by apply (collect_length 0 group done).
Qed.
Lemma settle_group_ok outcomes later : forall n b skipped,
  safe b -> grows (fun l res => still l /\ forall b' sk, res = Ok (b', sk) ->
    safe b' /\ (skipped = true -> sk = true) /\
    (tally b n -> tally b' (if sk && negb skipped then n + length outcomes + length later
                            else n + length outcomes)%nat))
  (settle_group q outcomes later b skipped : eff W _).
Proof using Hq.
  induction outcomes as [|[idx [name o]] outcomes IH]; intros n b skipped Hs; cbn [settle_group].
  { intros w r w' E. injection E as <- <-. exists []. split; [done|]. split; [apply still_nil|].
    intros b' sk [= <- <-]. rewrite Nat.add_0_r. split_and!; try done. by destruct skipped. }
  destruct (_accumulate name o b) as [b1 e] eqn:Ea.
  assert (Eb : b1 = fst (_accumulate name o b)) by by rewrite Ea.
  assert (Hs1 : safe b1) by (apply (safe_more b); [done|rewrite Eb; apply accumulate_ok]).
  assert (Ht1 : tally b n -> tally b1 (S n)) by (rewrite Eb; apply tally_accumulate).
  apply grows_after; [apply idle_progress|by split; [apply still_nil|]|]. intros _.
  destruct (_is_timeout_failure o && negb skipped) eqn:Et.
  - apply andb_true_iff in Et as [_ Et]. destruct skipped; [done|]. intros w r w' E.
    apply bind_inv in E as [(b2 & w1 & E1 & E)|(e1 & E1 & ->)].
    2:{ exists []. rewrite (idle_skip_rest _ _ _ _ _ E1). by split; [|split; [apply still_nil|]]. }
    rewrite <- (idle_skip_rest _ _ _ _ _ E1).
    destruct (IH (S n + length later)%nat b2 true) with (w := w1) (r := r) (w' := w') as (l & G1 & G2 & G3); [|done|].
    { by eapply skip_rest_safe. }
    exists l. split; [done|]. split; [done|]. intros b' sk Hr. destruct (G3 _ _ Hr) as (K1 & K2 & K3).
    rewrite (K2 eq_refl) in *. split_and!; [done..|]. intros Hn.
    destruct (skip_rest_ok _ _ _ _ _ _ E1 (Ht1 Hn)) as [H3 _]. specialize (K3 H3).
    cbn [negb andb length] in *.
    by replace (n + S (length outcomes) + length later)%nat with (S n + length later + length outcomes)%nat by lia.
  - eapply grows_impl; [|apply (IH (S n) b1 skipped Hs1)]. intros l r [F1 F2]. split; [done|].
    intros b' sk Hr. destruct (F2 _ _ Hr) as (G1 & G2 & G3). split_and!; [done..|]. intros Hn.
    specialize (G3 (Ht1 Hn)). cbn [length]. destruct (sk && negb skipped); by rewrite <- ?Nat.add_succ_comm.
Qed.
Lemma groups_loop_grows fuel : forall n refs b (skipped : bool), (length refs <= fuel)%nat -> safe b ->
  grows (fun l res => still l /\ forall b', res = Ok b' -> tally b n ->
    tally b' (if skipped then n else n + length refs)%nat)
  (groups_loop h sv cfg html_unescape wide_alnum wide_word q fuel refs b skipped : eff W _).
Proof using Hq.
  assert (Hret : forall n refs b (skipped : bool), (refs = [] \/ skipped = true) ->
    grows (fun l res => still l /\ forall b', res = Ok b' -> tally b n ->
      tally b' (if skipped then n else n + @length (Z * value) refs)%nat) (mret b : eff W batch_state)).
  { intros n refs b skipped H w r w' E. injection E as <- <-. exists []. split; [done|]. split; [apply still_nil|].
    intros b' [= <-] Hn. destruct H as [->| ->]; [|done]. rewrite Nat.add_0_r. by destruct skipped. }
  induction fuel as [|fuel IH]; intros n refs b skipped Hf Hs; cbn [groups_loop].
  { destruct refs; [apply (Hret n []); by left|cbn in Hf; lia]. }
  destruct refs as [|x refs]; [apply (Hret n []); by left|]. set (l0 := x :: refs) in *.
  destruct skipped; [apply (Hret n l0 b true); by right|].
  pose proof (max_batch_pos cfg) as Hm.
  set (group := firstn (max_batch cfg) l0). set (later := skipn (max_batch cfg) l0).
  assert (Hlen : length l0 = (length group + length later)%nat).
  { unfold group, later. rewrite length_firstn, length_skipn. lia. }
  assert (Hg : (0 < length group)%nat) by (unfold group; rewrite length_firstn; cbn [length l0]; lia).
  assert (Hstep : grows (group_log n (length group) later b)
    (if Z.max 1 (batch_concurrency cfg) =? 1
     then serial_group h sv cfg html_unescape wide_alnum wide_word q group later b
     else outcomes ← gather h sv cfg html_unescape wide_alnum wide_word q group b;
          settle_group q outcomes later b false : eff W _)).
  { destruct (_ =? 1); [by apply serial_group_grows|].
    eapply grows_bind; [by apply gather_grows|by split; [apply H|]|].
    intros os l1 [H1 H2]. eapply grows_impl; [|by apply (settle_group_ok os later n b false)].
    intros l r [F1 F2]. split; [by apply Forall_app_2|]. intros b' sk Hr.
    destruct (F2 _ _ Hr) as (G1 & _ & G2). rewrite andb_true_r, (H2 os eq_refl) in G2. done. }
  eapply grows_bind; [exact Hstep|by intros l e [H _]; split|].
  intros [b1 sk] l1 [H1 H2]. destruct (H2 b1 sk eq_refl) as [Hs1 Ht1].
  eapply grows_impl; [|apply (IH (if sk then n + length group + length later else n + length group)%nat later b1 sk);
                        [lia|done]].
  intros l r [F1 F2]. split; [by apply Forall_app_2|]. intros b' Hr Hn. specialize (F2 _ Hr (Ht1 Hn)). rewrite Hlen.
  destruct sk; by rewrite Nat.add_assoc.
Qed.

(** ** The whole batch *)
Lemma run_batch_grows refs : q_total q = Z.of_nat (length refs) ->
  grows (fun l res => renewed_first l /\ forall b, res = Ok b -> tally b (length refs))
    (run_batch h sv cfg html_unescape wide_alnum wide_word q refs : eff W _).
Proof using Hq.
  intros Ht. unfold run_batch.
  assert (Hs0 : shows empty_batch []) by (split; [apply first_nil|by right]).
  eapply grows_bind; [by apply (prefix_grows 0 refs empty_batch [])| |].
  { intros l e [H _]. rewrite app_nil_r in H. by split. }
  intros [rest b] l1 [H1 H2]. rewrite app_nil_r in H1. destruct (H2 rest b eq_refl) as (m & Hm & Hc & _); [done|].
  rewrite (completed_tally b m Hm), Ht. destruct Hc as [->|[Hc Hs]].
  - rewrite Z.leb_refl. intros w r w' E. exists []. split; [|split; [done|]].
    + destruct rest; cbn [groups_loop length] in E; by injection E as <- <-.
    + intros b' ->. destruct rest; cbn [groups_loop length] in E; injection E as <- <-; exact Hm.
  - eapply grows_impl; [|by apply (groups_loop_grows (length rest) m rest b)].
    intros l r [F1 F2]. split; [by apply still_first|]. intros b' Hr. specialize (F2 _ Hr Hm).
    destruct (Z.leb_spec (Z.of_nat (length refs)) (Z.of_nat m)).
    + by replace (length refs) with m by lia.
    + by replace (length refs) with (m + length rest)%nat by lia.
Qed.
End Laws.

Section Theorems.
Context {R : Type} `{RS : RedisServer R} (h : host R) (sv : service) (cfg : ingest_config).
Context (html_unescape : string -> string) (wide_alnum wide_word : string -> bool).
Abbreviation W := (iworld R).
Lemma batch_grows refs username name scope size overlap progress : calm_callback progress ->
  grows (fun l res => renewed_first l /\ forall text b, res = Ok (text, b) ->
      (exists why, text = "Error: " +++ why /\ l = []) \/
      exists kept coll,
        _dedup_document_refs refs = Ok kept /\
        resolve_user_collection_name name (Some username) (Some (default_collection_name cfg)) = Ok coll /\
        tally b (length kept) /\
        text = format_batch_response (Z.of_nat (length kept)) (b_ok b) (b_bad b) (b_chunks b) (b_pages b) coll
                 (chunk_size_of cfg size) (chunk_overlap_of cfg overlap))
    (process_batch h sv cfg html_unescape wide_alnum wide_word refs username name scope size overlap progress
     : eff W _).
Proof.
  intros Hc. unfold process_batch.
  apply grows_after_eq; [apply idle_lift|by intros; split; [apply first_nil|]|]. intros kept w0 w1 [= Ek _].
  apply grows_after_eq; [apply idle_lift|by intros; split; [apply first_nil|]|]. intros coll w2 w3 [= Er _].
  destruct (validate_user_collection_write_scope coll scope) as [sc|e].
  2:{ destruct (exn_isa (exn_cls e) ValueError); (apply idle_grows_eq; [first [apply idle_ret|apply idle_lift]|]).
      - intros w4 w5 r [= <- _]. split; [apply first_nil|]. intros text b [= <- <-]. left. by exists (exn_msg e).
      - intros w4 w5 r [= <- _]. by split; [apply first_nil|]. }
  cbv zeta. set (q := Request _ _ _ _ _ _ _). assert (Hq : calm_callback (q_progress q)) by exact Hc.
  apply grows_after; [by apply idle_progress|by intros; split; [apply first_nil|]|]. intros _.
  eapply grows_bind; [apply (run_batch_grows h sv cfg html_unescape wide_alnum wide_word q Hq (number kept))| |].
  { cbn [q_total q]. unfold number. by rewrite length_imap. }
  { intros l e [H _]. by split. }
  intros b l1 [H1 H2]. specialize (H2 b eq_refl). unfold number in H2. rewrite length_imap in H2.
  eapply (grows_bind (fun l _ => l = [])); [apply idle_grows; [by apply idle_progress|done]|by intros l e ->; split|].
  intros _ l2 -> w4 r w5 [= <- <-]. exists []. split; [done|]. split; [done|]. intros text b' [= <- <-]. right.
  by exists kept, coll.
Qed.

(** C23: A batch that makes the collection anew does so only before it has
    indexed a document; and when it answers, every document of the request
    (repetitions left out) is counted once, as indexed or as failed, with the
    totals of the indexed ones in the answer. *)
Theorem batch_discipline refs username name scope size overlap progress w res w' :
  calm_callback progress ->
  process_batch h sv cfg html_unescape wide_alnum wide_word refs username name scope size overlap progress w = (res, w') ->
  exists l, i_runs w' = l ++ i_runs w /\ renewed_first l /\
    forall text b, res = Ok (text, b) ->
      (exists why, text = "Error: " +++ why /\ l = []) \/
      exists kept coll,
        _dedup_document_refs refs = Ok kept /\
        resolve_user_collection_name name (Some username) (Some (default_collection_name cfg)) = Ok coll /\
        tally b (length kept) /\
        text = format_batch_response (Z.of_nat (length kept)) (b_ok b) (b_bad b) (b_chunks b) (b_pages b) coll
                 (chunk_size_of cfg size) (chunk_overlap_of cfg overlap).
Proof.
  intros Hc E. destruct (batch_grows refs username name scope size overlap progress Hc _ _ _ E) as (l & H1 & H2 & H3).
  eauto.
Qed.
End Theorems.
