(* ===== verification/DocumentToolLaws.v ===== *)
(** * Laws of the user's document tool

    Where the tool writes, what it reveals of the collections, and that an
    autonomous ingestion runs behind its reservation. *)
From S2P Require Import Prelude PyStr PyFloat PyVal Json JsonRoundtrip Redis Sha Dedupe World Identity Tokens.
From S2P Require Import Idempotency Collections CollectionLaws Markdown Extraction Documents Ingest Batch.
From S2P Require Import DocumentTool IngestLaws BatchLaws.
#[local] Open Scope Z_scope.

(** Work on the documents of [username] alone: extraction, or a write into a
    collection that the user's digest names. *)
Definition private_event (username : string) (e : sdk_event) : Prop :=
  let own coll := private_name coll (sha256_hex (subject_of (Some username))) in
  match e with
  | Run r => match p_upload (s_pipeline r) with Some up => own (u_collection up) | None => True end
  | Completed coll _ _ _ => own coll
  end.

Section Laws.
Context {R : Type} `{RS : RedisServer R} (h : host R) (sv : service) (cfg : ingest_config).
Context (html_unescape : string -> string) (wide_alnum wide_word : string -> bool).
Abbreviation W := (iworld R).

Lemma adds_document ref username name scope size overlap progress append : calm_callback progress ->
  adds (private_event username)
    (process_document h sv cfg html_unescape wide_alnum wide_word ref username name scope size overlap progress append
     : eff W _).
Proof.
  intros Hc w r w' E. destruct (document_runs _ _ _ _ _ _ _ _ _ _ _ _ _ _ _ _ _ Hc E) as (l & H1 & [->|(coll & _ & Hp & H2)]);
    eexists; (split; [exact H1|]); [done|].
  destruct H2 as (runs & F & _ & H2).
  assert (Forall (private_event username) runs) as Hr.
  { eapply Forall_impl; [exact F|]. intros [x|] Ho; [|done]. destruct Ho as (up & Eu & <- & _).
    unfold private_event. by rewrite Eu. }
  destruct H2 as [[-> _]|(? & ? & ? & i & -> & _)]; [done|]. by constructor.
Qed.
Section Batch.
Context (q : request) (Hq : calm_callback (R := R) (q_progress q)).
Abbreviation P := (private_event (q_username q)).
Lemma adds_one b idx ref : adds P (_one h sv cfg html_unescape wide_alnum wide_word q b idx ref : eff W _).
Proof using Hq.
  unfold _one. apply adds_bind; [apply adds_idle, idle_lift|]. intros name.
  apply adds_bind; [|intros o; apply adds_idle, idle_ret]. apply adds_catch; [|intros e; apply adds_idle, idle_ret].
  apply adds_bind; [by apply adds_idle, idle_progress|]. intros _.
  apply adds_bind; [|intros r; apply adds_idle, idle_ret]. apply adds_document. intros d. by apply idle_doc_progress.
Qed.
Lemma adds_serial b idx ref : adds P (serial_step h sv cfg html_unescape wide_alnum wide_word q b idx ref : eff W _).
Proof using Hq.
  unfold serial_step. apply adds_bind; [apply adds_one|]. intros [name o].
  destruct (_accumulate name o b) as [b' e]. apply adds_idle, idle_bind; [by apply idle_progress|intros; apply idle_ret].
Qed.
Lemma adds_skip rest b : adds P (skip_rest q rest b : eff W _).
Proof using Hq. by apply adds_idle, idle_skip_rest. Qed.
Lemma adds_settle os later : forall b skipped, adds P (settle_group q os later b skipped : eff W _).
Proof using Hq.
  induction os as [|[idx [name o]] os IH]; intros b skipped; cbn [settle_group]; [apply adds_idle, idle_ret|].
  destruct (_accumulate name o b) as [b' e]. apply adds_bind; [by apply adds_idle, idle_progress|]. intros _.
  destruct (_ && _); [|apply IH]. apply adds_bind; [apply adds_skip|intros; apply IH].
Qed.
Lemma adds_serial_group group later : forall b,
  adds P (serial_group h sv cfg html_unescape wide_alnum wide_word q group later b : eff W _).
Proof using Hq.
  induction group as [|[idx ref] group IH]; intros b; cbn [serial_group]; [apply adds_idle, idle_ret|].
  apply adds_bind; [apply adds_serial|]. intros [b' [|]]; [|apply IH].
  apply adds_bind; [apply adds_skip|intros; apply adds_idle, idle_ret].
Qed.
Lemma adds_run_group positions group b : forall done,
  adds P (run_group h sv cfg html_unescape wide_alnum wide_word q positions group b done : eff W _).
Proof using Hq.
  induction positions as [|i positions IH]; intros done; cbn [run_group]; [apply adds_idle, idle_ret|].
  destruct (group !! i) as [[idx ref]|]; [|apply IH]. apply adds_bind; [|intros r; apply IH].
  intros w r w' E. destruct (_one h sv cfg html_unescape wide_alnum wide_word q b idx ref w) as [r1 w1] eqn:E1.
  injection E as <- <-. by apply (adds_one b idx ref w r1).
Qed.
Lemma adds_groups fuel : forall refs b skipped,
  adds P (groups_loop h sv cfg html_unescape wide_alnum wide_word q fuel refs b skipped : eff W _).
Proof using Hq.
  induction fuel as [|fuel IH]; intros refs b skipped; cbn [groups_loop]; [apply adds_idle, idle_ret|].
  destruct refs as [|x refs]; [apply adds_idle, idle_ret|]. destruct skipped; [apply adds_idle, idle_ret|].
  apply adds_bind; [|intros [b' sk]; apply IH]. destruct (_ =? 1); [apply adds_serial_group|].
  apply adds_bind; [|intros; apply adds_settle]. unfold gather.
  apply adds_bind; [apply adds_idle, idle_use|]. intros p.
  apply adds_bind; [apply adds_run_group|]. intros d. apply adds_idle, idle_lift.
Qed.
Lemma adds_prefix refs : forall b, adds P (prefix_loop h sv cfg html_unescape wide_alnum wide_word q refs b : eff W _).
Proof using Hq.
  induction refs as [|[idx ref] refs IH]; intros b; cbn [prefix_loop]; [apply adds_idle, idle_ret|].
  destruct (_ && _); [|apply adds_idle, idle_ret]. apply adds_bind; [apply adds_serial|]. intros [b' [|]]; [|apply IH].
  apply adds_bind; [apply adds_skip|intros; apply adds_idle, idle_ret].
Qed.
End Batch.
Lemma adds_batch refs username name scope size overlap progress : calm_callback progress ->
  adds (private_event username)
    (process_multiple_documents h sv cfg html_unescape wide_alnum wide_word refs username name scope size overlap
       progress : eff W _).
Proof.
  intros Hc. unfold process_multiple_documents.
  destruct refs as [| | | | |l|]; try apply adds_idle, idle_ret. destruct l as [|x l]; [apply adds_idle, idle_ret|].
  destruct (_ =? "")%string; [apply adds_idle, idle_ret|]. apply adds_bind; [|intros; apply adds_idle, idle_ret].
  unfold process_batch. apply adds_bind; [apply adds_idle, idle_lift|]. intros kept.
  apply adds_bind; [apply adds_idle, idle_lift|]. intros coll.
  destruct (validate_user_collection_write_scope coll scope) as [sc|e];
    [|destruct (exn_isa _ _); [apply adds_idle, idle_ret|apply adds_idle, idle_lift]].
  cbv zeta. set (q := Request _ _ _ _ _ _ _). assert (Hq : calm_callback (q_progress q)) by exact Hc.
  apply adds_bind; [by apply adds_idle, idle_progress|]. intros _.
  apply adds_bind; [|intros b; apply adds_idle, idle_bind; [by apply idle_progress|intros; apply idle_ret]].
  change username with (q_username q). unfold run_batch.
  apply adds_bind; [by apply adds_prefix|]. intros [rest b]. by apply adds_groups.
Qed.

Lemma catch_all_ok {A} (m : eff W A) f w e w' :
  catch m [Exception_] (fun e => mret (f e)) w = (Raise e, w') -> False.
Proof.
  unfold catch. destruct (m w) as [[a|e1] w1]; [done|].
  by assert (exn_in e1 [Exception_] = true) as -> by (destruct e1 as [[]]; reflexivity).
Qed.
Lemma catch_all_inl {A B} (m : eff W A) (f : exn -> B) w a w' :
  catch (x ← m; mret (inl x)) [Exception_] (fun e => mret (inr (f e))) w = (Ok (inl a), w') -> m w = (Ok a, w').
Proof.
  unfold catch, mbind, eff_bind. destruct (m w) as [[b|e1] w1]; [by intros [= -> ->]|].
  by assert (exn_in e1 [Exception_] = true) as -> by (destruct e1 as [[]]; reflexivity).
Qed.
(** ** Extraction *)
Lemma adds_extract username ref : adds (private_event username)
  (extract_document h sv cfg html_unescape wide_alnum wide_word ref username : eff W _).
Proof.
  unfold extract_document, _extract_document_to_markdown. cbv zeta.
  apply adds_catch; [|intros; apply adds_idle, idle_ret].
  destruct ref as [| | | | | |r]; try apply adds_idle, idle_ret. destruct r as [|kv r]; [apply adds_idle, idle_ret|].
  repeat match goal with |- adds _ (if ?b then _ else _) => destruct b; [apply adds_idle, idle_ret|] end.
  apply adds_bind; [apply adds_idle, idle_catch; [apply idle_bind; [apply idle_fetch|intros; apply idle_ret]|intros; apply idle_ret]|].
  intros [[name bytes|error name kind]|error]; [|apply adds_idle, idle_ret..].
  unfold extract_loaded. apply adds_bind; [apply adds_idle, idle_nv|]. intros _.
  apply adds_bind; [|intros [[raw pages]|error]; [|apply adds_idle, idle_ret]].
  2:{ destruct (_apply_char_limit raw _). apply adds_idle, idle_ret. }
  apply adds_catch; [|intros; apply adds_idle, idle_ret]. apply adds_bind; [|intros; apply adds_idle, idle_ret].
  assert (Hrun : forall t, adds (private_event username)
    (run_extract sv cfg html_unescape wide_alnum wide_word name bytes t : eff W _)).
  { intros t. unfold run_extract. apply adds_bind; [apply adds_idle, idle_use|]. intros [wrote r0].
    apply adds_bind; [by apply adds_log|]. intros _. apply adds_idle, idle_bind; [apply idle_lift|intros; apply idle_lift]. }
  unfold in_thread. apply adds_bind; [apply adds_idle, idle_use|].
  intros [| |]; [|apply adds_bind; [by apply adds_forget|intros; apply adds_idle, idle_lift]|by apply Hrun].
  apply adds_bind; [by apply adds_forget|intros; apply adds_idle, idle_lift].
Qed.
(** An extract never fails, and what it hands out is within the limit. *)
Lemma extract_total ref username (w : W) : exists x w',
  extract_document h sv cfg html_unescape wide_alnum wide_word ref username w = (Ok x, w').
Proof.
  unfold extract_document, _extract_document_to_markdown, catch. destruct (_ w) as [[x|e] w']; [eauto|].
  assert (exn_in e [Exception_] = true) as -> by (destruct e as [[]]; reflexivity). eauto.
Qed.
End Laws.

Section Tool.
Context {R : Type} `{RS : RedisServer R} (h : host R) (sv : service) (cfg : ingest_config).
Context (html_unescape : string -> string) (wide_alnum wide_word : string -> bool).
Context (token_urlsafe : nat -> string) (from_url : string -> result unit)
  (cjson_decode : string -> result value).
Context (list_all : nat -> result (list string)) (retrieve : nat -> search_request -> result (list passage)).
Context (default_top_k : Z).
Abbreviation W := (iworld R).
Abbreviation once := (_run_idempotent_ingest h sv cfg token_urlsafe from_url cjson_decode).
Abbreviation tool := (user_document_tool h sv cfg html_unescape wide_alnum wide_word token_urlsafe from_url cjson_decode
                        list_all retrieve default_top_k).

Lemma idle_mapE {A B} (f : A -> eff W B) l : (forall a, idle (f a)) -> idle (mapE f l).
Proof.
  intros H. induction l as [|a l IH]; cbn [mapE]; [apply idle_ret|].
  apply idle_bind; [apply H|]. intros b. apply idle_bind; [apply IH|intros; apply idle_ret].
Qed.
Lemma idle_identity username ref : idle (identity_at h username ref : eff W _).
Proof. unfold identity_at. idles. Qed.
Lemma idle_reserve refs username execution_id collection size overlap :
  idle (reserve_ingest h sv cfg token_urlsafe from_url refs username execution_id collection size overlap : eff W _).
Proof.
  unfold reserve_ingest, _immutable_document_references, _get_redis. apply idle_bind; [|intros; apply idle_on_redis].
  apply idle_bind; [apply idle_lift|intros; apply idle_mapE, idle_identity].
Qed.
Lemma idle_complete r result : idle (complete_ingest h from_url cjson_decode r result : eff W _).
Proof. unfold complete_ingest, suppress. idles. Qed.
Lemma adds_once P execution_id refs username name size overlap (run : eff W string) : adds P run ->
  adds P (once execution_id refs username name size overlap run).
Proof.
  intros Hr. unfold _run_idempotent_ingest. destruct (given execution_id) as [x|]; [|done].
  apply adds_bind; [apply adds_idle, idle_lift|]. intros coll.
  apply adds_bind; [apply adds_idle, idle_catch; [apply idle_bind; [apply idle_reserve|]|]; intros; apply idle_ret|].
  intros [r|error]; [|apply adds_idle, idle_ret]. destruct (negb (acquired r)); [apply adds_idle, idle_ret|].
  apply adds_bind; [done|]. intros result. apply adds_idle, idle_bind; [apply idle_complete|intros; apply idle_ret].
Qed.

(** Whatever the tool is asked, it works for the authenticated user: every
    run of the SDK it starts either only extracts or writes into a collection
    named by that user's digest. *)
Theorem tool_writes_private headers t w res w' :
  tool headers t w = (res, w') ->
  exists l, i_runs w' = l ++ i_runs w /\
    (l = [] \/ exists username, resolve_authenticated_user_id (getenv h) headers = Ok username /\
       Forall (private_event username) l).
Proof.
  unfold user_document_tool. intros E.
  assert (Hidle : forall m : eff W string, idle m -> m w = (res, w') ->
    exists l, i_runs w' = l ++ i_runs w /\ (l = [] \/ exists username,
      resolve_authenticated_user_id (getenv h) headers = Ok username /\ Forall (private_event username) l)).
  { intros m Hm Em. exists []. split; [by rewrite (Hm _ _ _ Em)|by left]. }
  cbv zeta in E. destruct (negb (is_in _ _)); [eapply Hidle; [|exact E]; apply idle_ret|].
  destruct (resolve_authenticated_user_id (getenv h) headers) as [username|e].
  2:{ destruct (exn_isa _ _); (eapply Hidle; [|exact E]); [apply idle_ret|apply idle_lift]. }
  assert (Hadds : forall m : eff W string, adds (private_event username) m -> m w = (res, w') ->
    exists l, i_runs w' = l ++ i_runs w /\ (l = [] \/ exists user,
      Ok username = Ok user /\ Forall (private_event user) l)).
  { intros m Hm Em. destruct (Hm _ _ _ Em) as (l & H1 & H2). exists l. split; [done|]. right. by exists username. }
  destruct (_ =? "search")%string.
  { eapply Hadds; [|exact E]. unfold search_documents, use_r. apply adds_idle. idles. }
  destruct (_ =? "ingest")%string.
  { eapply Hadds; [|exact E]. unfold ingest. cbv zeta.
    destruct (t_refs t) as [[|x l]|], (t_ref t) as [[|y r]|]; try apply adds_idle, idle_ret;
      try (apply adds_once; by apply adds_batch); apply adds_once;
      (apply adds_bind; [by apply adds_document|intros; apply adds_idle, idle_ret]). }
  destruct (_ =? "extract")%string.
  { eapply Hadds; [|exact E]. unfold extract.
    destruct (t_refs t) as [[|x l]|], (t_ref t) as [[|y r]|]; try apply adds_idle, idle_ret;
      (apply adds_bind; [by apply adds_extract|intros; apply adds_idle, idle_ret]). }
  eapply Hadds; [|exact E]. unfold list_collections, use_r. apply adds_idle. idles.
Qed.

(** An autonomous ingestion runs the SDK only behind a reservation it owns. *)
Lemma once_behind_reservation x refs username name size overlap run w res w' :
  given (Some x) = Some x -> once (Some x) refs username name size overlap run w = (res, w') ->
  i_runs w' <> i_runs w ->
  exists coll r w1, resolve_user_collection_name name (Some username) (Some (default_collection_name cfg)) = Ok coll /\
    reserve_ingest h sv cfg token_urlsafe from_url refs username x coll size overlap w = (Ok r, w1) /\
    acquired r = true.
Proof.
  intros Hx E Hn. unfold _run_idempotent_ingest in E. rewrite Hx in E.
  apply bind_inv in E as [(coll & w0 & E0 & E)|(e & E0 & ->)]; [|by rewrite (idle_lift _ _ _ _ E0) in Hn].
  injection E0 as Er <-. apply bind_inv in E as [(rr & w1 & E1 & E)|(e & E1 & ->)].
  2:{ by apply catch_all_ok in E1. }
  assert (Hi : i_runs w1 = i_runs w).
  { match type of E1 with ?m w = _ => assert (Hm : idle m) end; [|by apply (Hm _ _ _ E1)].
    apply idle_catch; [apply idle_bind; [apply idle_reserve|]|]; intros; apply idle_ret. }
  destruct rr as [r|error]; [|injection E as <- <-; by rewrite Hi in Hn].
  destruct (acquired r) eqn:Ea; [|injection E as <- <-; by rewrite Hi in Hn].
  exists coll, r, w1. split_and!; [done| |done]. by apply catch_all_inl in E1.
Qed.
End Tool.
