(* ===== verification/ThreadedWork.v ===== *)
(** * Blocking work that owns a collection ([nat_helpers/threaded_work.py])

    [run_with_thread_ownership] as a transition system: every call has a task
    and a waiter; the lock belongs to the thread, not to who waits for it.
    [asyncio] (a lock handed to one task at a time, cancellation of a task that
    waits for it) is the step relation. *)
From S2P Require Import Prelude.

Inductive phase := Queued | Running | Settled | Cancelled.
Inductive waiter := Waiting | Answered | Abandoned.
#[export] Instance phase_eq_dec : EqDecision phase.
Proof. solve_decision. Defined.
#[export] Instance waiter_eq_dec : EqDecision waiter.
Proof. solve_decision. Defined.
Record job := Job { j_phase : phase; j_waiter : waiter }.
(** The calls made so far, and who holds the collection's lock. *)
Record work := Work { jobs : list job; holder : option nat }.
Definition idle_work : work := Work [] None.
Definition put (i : nat) (j : job) (h : option nat) (s : work) : work := Work (<[i := j]> (jobs s)) h.

(** [started] in the source. *)
Definition has_started (j : job) : bool := match j_phase j with Running | Settled => true | _ => false end.
(** The [except] clause: a waiter gives up, and cancels a task that hasn't has_started. *)
Definition abandon (j : job) : job := Job (if has_started j then j_phase j else Cancelled) Abandoned.

Inductive action := Submit | Acquire (i : nat) | Finish (i : nat) | GiveUp (i : nat).
Definition act (a : action) (s : work) : option work :=
  match a with
  | Submit => Some (Work (jobs s ++ [Job Queued Waiting]) (holder s))
  | Acquire i =>
      match jobs s !! i, holder s with
      | Some (Job Queued w), None => Some (put i (Job Running w) (Some i) s)
      | _, _ => None
      end
  | Finish i =>
      match jobs s !! i with
      | Some (Job Running w) =>
          Some (put i (Job Settled (match w with Waiting => Answered | w => w end)) None s)
      | _ => None
      end
  | GiveUp i =>
      match jobs s !! i with
      | Some (Job p Waiting) => Some (put i (abandon (Job p Waiting)) (holder s) s)
      | _ => None
      end
  end.
Inductive work_reachable : work -> Prop :=
| reach_start : work_reachable idle_work
| reach_step a s s' : work_reachable s -> act a s = Some s' -> work_reachable s'.

(** ** Invariant *)
Definition ok_job (i : nat) (h : option nat) (j : job) : Prop :=
  (j_phase j = Running <-> h = Some i) /\
  (j_phase j = Queued -> j_waiter j = Waiting) /\
  (j_waiter j = Answered -> j_phase j = Settled) /\
  (j_phase j = Cancelled -> j_waiter j = Abandoned).
Definition wf (s : work) : Prop :=
  (forall i j, jobs s !! i = Some j -> ok_job i (holder s) j) /\
  (forall i, holder s = Some i -> is_Some (jobs s !! i)).

Lemma put_wf i j0 j h s : wf s -> jobs s !! i = Some j0 -> ok_job i h j ->
  (forall k, k <> i -> (holder s = Some k <-> h = Some k)) -> wf (put i j h s).
Proof.
  intros [H1 H2] Hi Hj Hh. pose proof (lookup_lt_Some _ _ _ Hi) as Hlt. split; cbn.
  - intros k jk Hk. destruct (decide (k = i)) as [->|Hne].
    + rewrite list_lookup_insert_eq in Hk by done. by injection Hk as <-.
    + rewrite list_lookup_insert_ne in Hk by done. destruct (H1 _ _ Hk) as (A & B).
      split; [|exact B]. rewrite A. by apply Hh.
  - intros k Hk. destruct (decide (k = i)) as [->|Hne]; [by rewrite list_lookup_insert_eq|].
    rewrite list_lookup_insert_ne by done. by apply H2, Hh.
Qed.
Lemma act_wf a s s' : wf s -> act a s = Some s' -> wf s'.
Proof.
  intros Hw H. destruct a as [|i|i|i]; cbn in H.
  - injection H as <-. destruct Hw as [H1 H2]. split; cbn.
    + intros i j Hi. apply lookup_snoc_Some in Hi as [[_ Hi]|[-> <-]]; [by apply H1|].
      split_and!; cbn; try done. split; [done|]. intros Hh. destruct (H2 _ Hh) as [j Hj].
      apply lookup_lt_Some in Hj. lia.
    + intros i Hi. destruct (H2 _ Hi) as [j Hj]. exists j. by apply lookup_app_l_Some.
  - destruct (jobs s !! i) as [[[] w]|] eqn:Hi; try done. destruct (holder s) eqn:Eh; [done|]. injection H as <-.
    apply (put_wf i (Job Queued w)); [done..| |].
    + destruct Hw as [H1 _]. destruct (H1 _ _ Hi) as (_ & B & _). cbn in B. split_and!; cbn; try done.
      intros ->. by specialize (B eq_refl).
    + intros k Hk. rewrite Eh. split; [done|]. by intros [= ->].
  - destruct (jobs s !! i) as [[[] w]|] eqn:Hi; try done. injection H as <-.
    destruct Hw as [H1 H2]. destruct (H1 _ _ Hi) as (A & B). cbn in A.
    apply (put_wf i (Job Running w)); [done..| |].
    + split_and!; cbn; try done.
    + intros k Hk. rewrite (proj1 A eq_refl). split; [|done]. by intros [= ->].
  - destruct (jobs s !! i) as [[p []]|] eqn:Hi; try done. injection H as <-.
    destruct Hw as [H1 H2]. destruct (H1 _ _ Hi) as (A & B & C & D). cbn in A, B, C, D.
    apply (put_wf i (Job p Waiting)); [done..| |done]. unfold abandon. cbn.
    destruct p; split_and!; cbn; try done. split; [done|]. intros Hh. by apply A in Hh.
Qed.
Lemma reachable_wf s : work_reachable s -> wf s.
Proof.
  induction 1 as [|a s s' _ IH H]; [|by eapply act_wf]. split; cbn; [|done]. intros i j. by rewrite lookup_nil.
Qed.

(** ** Progress *)
(** Steps a job can still take part in. *)
Definition remaining (j : job) : nat :=
  (match j_phase j with Queued => 2 | Running => 1 | _ => 0 end + match j_waiter j with Waiting => 1 | _ => 0 end)%nat.
Definition total_rank (s : work) : nat := foldr (fun j n => (remaining j + n)%nat) 0%nat (jobs s).
Lemma sum_insert (f : job -> nat) (l : list job) i j j' : l !! i = Some j -> (f j' < f j)%nat ->
  (foldr (fun j n => (f j + n)%nat) 0%nat (<[i := j']> l) < foldr (fun j n => (f j + n)%nat) 0%nat l)%nat.
Proof.
  revert i. induction l as [|x l IH]; intros i Hi Hr; [done|]. destruct i as [|i].
  - injection Hi as ->. change (<[0%nat:=j']> (j :: l)) with (j' :: l). cbn [foldr]. lia.
  - specialize (IH i Hi Hr). change (<[S i:=j']> (x :: l)) with (x :: <[i:=j']> l). cbn [foldr]. lia.
Qed.
Definition is_submit (a : action) : bool := match a with Submit => true | _ => false end.
Lemma act_rank a s s' : is_submit a = false -> act a s = Some s' -> (total_rank s' < total_rank s)%nat.
Proof.
  intros Ha H. unfold total_rank. destruct a as [|i|i|i]; [done|..]; cbn in H;
    destruct (jobs s !! i) as [[p w]|] eqn:Hi; try done.
  - destruct p; try done. destruct (holder s); [done|]. injection H as <-. apply (sum_insert remaining _ _ _ _ Hi). destruct w; cbn; lia.
  - destruct p; try done. injection H as <-. apply (sum_insert remaining _ _ _ _ Hi). destruct w; cbn; lia.
  - destruct w; try done. injection H as <-. apply (sum_insert remaining _ _ _ _ Hi). destruct p; cbn; lia.
Qed.
(** Nothing but a new call can happen. *)
Definition quiescent (s : work) : Prop := forall a, is_submit a = false -> act a s = None.
Definition at_rest (j : job) : Prop := (j_phase j = Settled \/ j_phase j = Cancelled) /\ j_waiter j <> Waiting.
Lemma quiescent_rest s : wf s -> quiescent s -> holder s = None /\ forall i j, jobs s !! i = Some j -> at_rest j.
Proof.
  intros [H1 H2] Hq.
  assert (Hh : holder s = None).
  { destruct (holder s) as [i|] eqn:Eh; [|done]. destruct (H2 i eq_refl) as [[p w] Hi].
    destruct (H1 _ _ Hi) as [A _]. cbn in A. specialize (Hq (Finish i) eq_refl). cbn in Hq. rewrite Hi in Hq.
    by rewrite (proj2 A eq_refl) in Hq. }
  split; [done|]. intros i [p w] Hi. specialize (H1 _ _ Hi) as (A & B & C & D). cbn in *.
  pose proof (Hq (Acquire i) eq_refl) as Qa. pose proof (Hq (GiveUp i) eq_refl) as Qg. cbn in Qa, Qg.
  rewrite Hi, Hh in Qa. rewrite Hi in Qg. split; cbn.
  - destruct p; [discriminate Qa|by rewrite Hh in A; discriminate (proj1 A eq_refl)|by left|by right].
  - destruct w; [discriminate Qg|done..].
Qed.

(** ** What the caller relies on *)
(** The collection belongs to one thread at a time, whoever still waits for
    it: at most one job runs and it is the one that holds the lock, a caller is
    answered only after its job settled, and a job whose caller gave up before
    it has_started never runs. *)
Theorem one_owner s i j : work_reachable s -> jobs s !! i = Some j ->
  (j_phase j = Running <-> holder s = Some i) /\
  (j_waiter j = Answered -> j_phase j = Settled) /\
  (forall k jk, jobs s !! k = Some jk -> j_phase j = Running -> j_phase jk = Running -> k = i) /\
  (j_phase j = Cancelled -> forall a s', act a s = Some s' -> exists j', jobs s' !! i = Some j' /\ j_phase j' = Cancelled).
Proof.
  intros Hr Hi. pose proof (reachable_wf _ Hr) as [H1 H2]. destruct (H1 _ _ Hi) as (A & B & C & D).
  split_and!; [done..| |].
  - intros k jk Hk Hj Hjk. destruct (H1 _ _ Hk) as (A' & _). apply A in Hj. apply A' in Hjk. congruence.
  - intros Hc a s' Ha. destruct j as [p w]. cbn in Hc. subst p. specialize (D eq_refl). cbn in D. subst w.
    assert (Hput : forall k jk j' h, jobs s !! k = Some jk -> (k <> i) ->
      exists j0, jobs (put k j' h s) !! i = Some j0 /\ j_phase j0 = Cancelled).
    { intros k jk j' h Hk Hne. exists (Job Cancelled Abandoned). split; [|done]. cbn. by rewrite list_lookup_insert_ne. }
    destruct a as [|k|k|k]; cbn in Ha.
    + injection Ha as <-. exists (Job Cancelled Abandoned). split; [|done]. cbn. by apply lookup_app_l_Some.
    + destruct (jobs s !! k) as [[[] w]|] eqn:Hk; try done. destruct (holder s); [done|]. injection Ha as <-.
      apply (Hput k _ _ _ Hk). congruence.
    + destruct (jobs s !! k) as [[[] w]|] eqn:Hk; try done. injection Ha as <-. apply (Hput k _ _ _ Hk). congruence.
    + destruct (jobs s !! k) as [[p []]|] eqn:Hk; try done. injection Ha as <-. apply (Hput k _ _ _ Hk). congruence.
Qed.
(** Runs in which no further call is made. *)
Inductive runs_to : work -> nat -> work -> Prop :=
| run_done s : runs_to s 0 s
| run_more a s s1 n s' : is_submit a = false -> act a s = Some s1 -> runs_to s1 n s' -> runs_to s (S n) s'.
(** C34: The lock is always given back: without further calls every run is
    finite, and one that cannot go on has left the collection free, every job
    settled or cancelled and every caller answered or gone. *)
Theorem work_comes_to_rest s : work_reachable s ->
  (forall n s', runs_to s n s' -> (n <= total_rank s)%nat) /\
  (forall n s', runs_to s n s' -> quiescent s' ->
     holder s' = None /\ forall i j, jobs s' !! i = Some j -> at_rest j).
Proof.
  intros Hr. split.
  - intros n s' H. clear Hr. induction H as [|a s s1 n s' Ha H _ IH]; [lia|]. pose proof (act_rank a s s1 Ha H). lia.
  - intros n s' H Hq. apply quiescent_rest; [|done]. apply reachable_wf in Hr. clear Hq.
    induction H as [|a s s1 n s' Ha H _ IH]; [done|]. apply IH. by eapply act_wf.
Qed.
Definition two_calls : work :=
  Work [Job Running Abandoned; Job Queued Waiting] (Some 0%nat).
Lemma two_calls_reachable : work_reachable two_calls.
Proof.
  apply (reach_step (GiveUp 0) (Work [Job Running Waiting; Job Queued Waiting] (Some 0%nat))); [|reflexivity].
  apply (reach_step (Acquire 0) (Work [Job Queued Waiting; Job Queued Waiting] None)); [|reflexivity].
  apply (reach_step Submit (Work [Job Queued Waiting] None)); [|reflexivity].
  apply (reach_step Submit idle_work); [constructor|reflexivity].
Qed.
Lemma one_owner_witness : jobs two_calls !! 0%nat = Some (Job Running Abandoned) /\ holder two_calls = Some 0%nat.
Proof.
  split; [reflexivity|].
  destruct (one_owner two_calls 0 (Job Running Abandoned) two_calls_reachable eq_refl) as [H _].
  apply H. reflexivity.
Defined.
Lemma work_comes_to_rest_witness : total_rank two_calls = 4%nat /\ forall n s, runs_to two_calls n s -> (n <= 4)%nat.
Proof. split; [reflexivity|]. exact (proj1 (work_comes_to_rest two_calls two_calls_reachable)). Defined.
