(* ===== verification/DocumentExamples.v ===== *)
(** * Concrete collections

    Two users whose names look alike, and a stored document that is read. *)
From S2P Require Import Prelude PyStr PyFloat PyVal Json JsonRoundtrip Redis Sha Dedupe World StoreExamples.
From S2P Require Import Identity Tokens Idempotency Collections CollectionLaws Markdown Extraction Documents.
From S2P Require Import Ingest Batch DocumentTool IngestLaws BatchLaws DocumentToolLaws.
#[local] Open Scope Z_scope.

(** ** Names *)
Definition bob : option string := Some "Bob Smith".
Definition bob_uploads : string := Eval vm_compute in
  match user_upload_collection_name bob (Some "user_uploads") with Ok n => n | Raise _ => "" end.
Lemma private_writes_isolated_witness :
  valid_name bob_uploads = true /\ blen bob_uploads <= 255.
Proof.
  destruct (private_writes_isolated None bob (Some "user_uploads")
              (Some bob_uploads) (Some "Bob Smith ") None (Some "User") bob_uploads UserScope) as (_ & _ & _ & H).
  - vm_compute. reflexivity.
  - vm_compute. reflexivity.
  - vm_compute. reflexivity.
  - exact H.
Defined.
(** A legacy name, or another user's private name, is mapped into the caller's namespace. *)
Example legacy_request_is_private :
  resolve_user_collection_name (Some "user_uploads_bob_smith") bob None = Ok bob_uploads /\
  match resolve_user_collection_name (Some bob_uploads) (Some "eve") None with
  | Ok n => negb (n =? bob_uploads)%string && endswith n ("_" +++ sha256_hex "eve")
  | Raise _ => false
  end = true.
Proof. split; vm_compute; reflexivity. Qed.
Definition two_subjects : list string := ["bob smith"; "bob_smith"].
Lemma migration_plan_unambiguous_witness :
  is_ok (plan_user_collection_migrations ["alice"; "bob smith"; "alice"] None) = true /\
  is_ok (plan_user_collection_migrations two_subjects None) = false.
Proof.
  split; [vm_compute; reflexivity|].
  destruct (migration_plan_unambiguous two_subjects None) as [H _].
  - intros s [->|[->|[]%not_elem_of_nil]%elem_of_cons]%elem_of_cons; vm_compute; reflexivity.
  - apply not_true_iff_false. intros E.
    assert (C : current_of None "bob smith" = current_of None "bob_smith").
    { apply (proj1 H E); [by apply list_elem_of_here|by apply list_elem_of_further, list_elem_of_here|].
      vm_compute. reflexivity. }
    revert C. vm_compute. discriminate.
Defined.

(** ** A stored document *)
Definition object_env (n : string) : option string :=
  if (n =? "DOCUMENT_OBJECT_ENDPOINT")%string then Some "https://minio:9000/"
  else if is_in n ["DOCUMENT_OBJECT_ACCESS_KEY"; "DOCUMENT_OBJECT_SECRET_KEY"] then Some "k"
  else if (n =? "DOCUMENT_OBJECT_BUCKET")%string then Some "docs" else None.
Definition object_key : string := Eval vm_compute in
  match _expected_document_object_key "daedalus-documents" "bob" "s1" "d1" with Ok k => k | Raise _ => "" end.
Definition hello_record : dict :=
  [("objectKey", VStr object_key); ("objectBucket", VStr "docs"); ("size", VInt 5);
   ("expiresAt", VInt 2000)].
(** The object store hands out two chunks. *)
Definition hello_chunks (n : nat) (_ : Z) : result string :=
  Ok (match n with O => "hel" | S O => "lo" | _ => "" end).
Definition hello_store (_ : object_settings) (_ : string) : result (nat -> Z -> result string) := Ok hello_chunks.
Lemma document_read_sound_witness :
  _read_document_object object_env hello_store hello_record "d1" "s1" "bob" 10 (f_of_Z 1000) = Ok "hello" /\
  py_str (dget "objectBucket" hello_record) = "docs".
Proof.
  assert (H : _read_document_object object_env hello_store hello_record "d1" "s1" "bob" 10 (f_of_Z 1000) = Ok "hello")
    by (vm_compute; reflexivity).
  split; [exact H|].
  destruct (document_read_sound _ _ _ _ _ _ _ _ _ H) as (st & Hs & Hb & _). vm_compute in Hs. injection Hs as <-.
  exact Hb.
Defined.
Example long_document : ulen (fst (_apply_char_limit (String (chr 97) "bcdefghijklmnopqrstuvwxyz0123456789abcdefghijklmnopqrstuvwxyz0123456789") (Some 60))) = 60.
Proof. vm_compute. reflexivity. Qed.

(** ** Concrete ingestions

    A small deployment whose user ingests two documents; the theorems about
    ingestion at runs whose results are computed, and two runs that do not
    behave as their comments say. *)
#[local] Existing Instance json_server.

Definition document (data : string) : rval :=
  RJson (VDict [("userId", VStr "bob"); ("filename", VStr "notes.txt"); ("data", VStr data)]).
Definition stored : keys_t :=
  {[ "document:s1:d1" := Entry (document "aGVsbG8=") None; "document:s1:d2" := Entry (document "d29ybGQ=") None ]}.
Definition doc_env (n : string) : option string :=
  if (n =? "DAEDALUS_INTERNAL_API_TOKEN")%string then Some "s3cret" else None.
Definition doc_host : host ref_redis := Host (clock h0) (uuid4_hex h0) doc_env 7 (fun _ r => r) (fun _ => Up).
Definition start : iworld ref_redis := IWorld (fresh_world (RefRedis stored [])) 0 [] [] false.
Definition config (recreate : bool) : ingest_config := {|
  redis_url := "redis://r"; milvus_uri := "http://m"; milvus_username := None; milvus_password := None;
  milvus_token := None; minio_endpoint := ""; minio_access_key := ""; minio_secret_key := ""; minio_bucket := "b";
  g_chunk_size := 1024; g_chunk_overlap := 150; embedder_dim := 2048; tokenizer := "t";
  recreate_collection := recreate; default_collection_name := "user_uploads"; extract_method := "pdfium";
  use_v2_api := false; pdf_pages_per_chunk := 32; enable_image_filter := true; enable_captioning := false;
  caption_model_name := None; caption_endpoint_url := None; caption_api_key := None; batch_concurrency := 1;
  max_documents_per_batch := 20; ingest_max_retries := 2; ingest_timeout_seconds := f_of_Z 300;
  vector_field := "vector" |}.
Definition text_page (content : value) : value :=
  VDict [("document_type", VStr "text");
         ("metadata", VDict [("content", content); ("content_metadata", VDict [("page_number", VInt 1)])])].
(** An SDK that writes, and whose entries have the given content. *)
Definition writer (content : value) : service := {|
  sv_redis := Ok tt; sv_nv_client _ := Ok tt; sv_time_ms _ := f_of_Z 0;
  sv_object _ _ _ := raise OSError "no object store"; sv_locked _ := false; sv_timing _ := InTime;
  sv_probe _ _ := Ok None; sv_run _ _ := (true, Ok ([[text_page content]], [[]]));
  sv_schedule _ n := seq 0 n |}.
Definition unescaped (s : string) : string := s.
Definition never (_ : string) : bool := false.
Definition ref1 : dict := [("documentId", VStr "d1"); ("sessionId", VStr "s1")].
Definition ref2 : dict := [("documentId", VStr "d2"); ("sessionId", VStr "s1")].
Definition is_run (e : sdk_event) : bool := match e with Run _ => true | _ => false end.
Definition runs_of (w : iworld ref_redis) : nat := length (List.filter is_run (i_runs w)).

(** ** One document *)
Abbreviation ingest_one sv := (process_document doc_host sv (config true) unescaped never never (VDict ref1) "bob" None None
                             None None None false start).
Definition one_done : iworld ref_redis := Eval vm_compute in snd (ingest_one (writer (VStr "hello"))).
Lemma document_runs_disciplined_witness :
  runs_of one_done = 1%nat /\
  exists l, i_runs one_done = l ++ [] /\
    (l = [] \/ exists coll,
       resolve_user_collection_name None (Some "bob") (Some "user_uploads") = Ok coll /\
       private_name coll (sha256_hex (subject_of (Some "bob"))) /\
       document_log (config true) coll l (fst (ingest_one (writer (VStr "hello"))))).
Proof.
  split; [reflexivity|].
  apply (document_runs_disciplined doc_host (writer (VStr "hello")) (config true) unescaped never never (VDict ref1) "bob"
           None None None None None false start); [exact I|]. vm_compute. reflexivity.
Defined.
(** Entries that the Markdown conversion cannot read make a finished write be
    run again, although the rows of every run are kept. *)
Example finished_write_is_replayed :
  runs_of (snd (ingest_one (writer VNone))) = 3%nat /\
  forallb (fun e => match e with Run r => s_wrote r && s_ok r | _ => false end) (i_runs (snd (ingest_one (writer VNone)))) = true.
Proof. vm_compute. split; reflexivity. Qed.

(** ** A batch *)
Abbreviation ingest_two sv := (process_batch doc_host sv (config true) unescaped never never
  [VDict ref1; VDict ref2; VDict ref1] "bob" None None None None None start).
Definition batch_done : iworld ref_redis := Eval vm_compute in snd (ingest_two (writer (VStr "hello"))).
Lemma batch_discipline_witness :
  map is_run (i_runs batch_done) = [false; true; false; true] /\
  exists l, i_runs batch_done = l ++ [] /\ renewed_first l.
Proof.
  split; [reflexivity|].
  destruct (batch_discipline doc_host (writer (VStr "hello")) (config true) unescaped never never
              [VDict ref1; VDict ref2; VDict ref1] "bob" None None None None None start
              (fst (ingest_two (writer (VStr "hello")))) batch_done) as (l & H1 & H2 & _).
  - exact I.
  - vm_compute. reflexivity.
  - exists l. split; [exact H1|exact H2].
Defined.
(** A user whose readable part ends in a separator: a name that is resolved a
    second time, as a batch does, names another collection. *)
Example resolved_twice :
  match resolve_user_collection_name None (Some "abcdefghijklmnopqrstuvw xyz") (Some "user_uploads") with
  | Ok n => match resolve_user_collection_name (Some n) (Some "abcdefghijklmnopqrstuvw xyz") (Some "user_uploads") with
            | Ok m => negb (n =? m)%string
            | Raise _ => false
            end
  | Raise _ => false
  end = true.
Proof. vm_compute. reflexivity. Qed.

(** ** The tool *)
Definition doc_headers : option header_map :=
  Some [("x-user-id", "bob"); ("x-daedalus-internal-token", "s3cret")].
Definition ingest_both : tool_input :=
  ToolInput "ingest" "" None None (Some [ref1; ref2]) None None None None.
Abbreviation use_tool t := (user_document_tool doc_host (writer (VStr "hello")) (config true) unescaped never never
  (fun _ => "t") (fun _ => Ok tt) (fun _ => Ok VNone) (fun _ => Ok []) (fun _ _ => Ok []) 10 doc_headers t start).
Definition tool_done : iworld ref_redis := Eval vm_compute in snd (use_tool ingest_both).
Lemma tool_writes_private_witness :
  runs_of tool_done = 2%nat /\
  exists l, i_runs tool_done = l ++ [] /\
    (l = [] \/ exists username, resolve_authenticated_user_id doc_env doc_headers = Ok username /\
       Forall (private_event username) l).
Proof.
  split; [reflexivity|].
  apply (tool_writes_private doc_host (writer (VStr "hello")) (config true) unescaped never never
           (fun _ => "t") (fun _ => Ok tt) (fun _ => Ok VNone) (fun _ => Ok []) (fun _ _ => Ok []) 10 doc_headers
           ingest_both start (fst (use_tool ingest_both)) tool_done).
  vm_compute. reflexivity.
Defined.
