(* ===== verification/AuditLog.v ===== *)
(** * The migration's audit log ([milvus_collection_migration.py])

    A file of JSON lines, each with the hash of the one before.  The file
    system is a state of bytes; how much one [write] accepts, the clock and
    random identifiers are an [outside] record.  Locks are not modelled: one
    command runs at a time. *)
From Stdlib Require Import OrdersEx.
From S2P Require Import Prelude PyStr PyFloat PyVal Json JsonRoundtrip Redis Sha Tokens Gate Documents.
#[local] Open Scope Z_scope.

Definition _AUDIT_VERSION : Z := 1.
(** [_canonical_json], [_fingerprint]. *)
Definition _canonical_json (v : value) : string := dumps_with canonical_opts v.
Definition _fingerprint (v : value) : result string := utf8_sha256 (_canonical_json v).
(** [hmac.compare_digest] of two texts. *)
Definition compare_digest (a b : string) : result bool :=
  if is_ascii a && is_ascii b then Ok (a =? b)%string
  else raise TypeError "comparing strings with non-ASCII characters is not supported".
Fixpoint zero_hash (n : nat) : string := match n with O => "" | S n => String "0" (zero_hash n) end.
Definition NO_HASH : string := zero_hash 64.

(** ** Reading *)
(** One record against its position and the hash before it; its own hash. *)
Definition check_record (sequence : Z) (previous_hash : string) (record : dict) : result string :=
  n ← py_int (dget_or "sequence" (VInt (-1)) record);
  if negb (n =? sequence) then raise MigrationStateError "migration audit sequence is invalid"
  else if negb (py_eq (dget "previous_hash" record) (VStr previous_hash))
  then raise MigrationStateError "migration audit hash chain is invalid" else
  let claimed_hash := py_str (vor (dget "event_hash" record) (VStr "")) in
  actual_hash ← _fingerprint (VDict (ddel "event_hash" record));
  same ← compare_digest claimed_hash actual_hash;
  if (same : bool) then Ok claimed_hash else raise MigrationStateError "migration audit record was modified".
Fixpoint _validate (sequence : Z) (previous_hash : string) (records : list dict) : result unit :=
  match records with
  | [] => Ok tt
  | record :: rest => h ← check_record sequence previous_hash record; _validate (sequence + 1) h rest
  end.
(** [bytes.splitlines()]: at "\n", "\r" and "\r\n". *)
Fixpoint split_lines (s : string) : list string :=
  match s with
  | EmptyString => []
  | String c rest =>
      if char_is (chr 10) c then "" :: split_lines rest
      else if char_is (chr 13) c then
        match rest with
        | String d rest' => if char_is (chr 10) d then "" :: split_lines rest' else "" :: split_lines rest
        | EmptyString => [""]
        end
      else match split_lines rest with
           | [] => [String c ""]
           | l :: ls => String c l :: ls
           end
  end.
Definition blank_line (s : string) : bool := all_chars (fun c => in_range 9 13 c || char_is " " c) s.
(** [json.loads] of a line of bytes. *)
Definition load_line (line : string) : result value :=
  if utf8_ok line then loads line else raise ValueError "'utf-8' codec can't decode byte".
Fixpoint decode_lines (line_number : Z) (lines : list string) : result (list dict) :=
  match lines with
  | [] => Ok []
  | line :: rest =>
      if blank_line line then decode_lines (line_number + 1) rest else
      v ← try_except (load_line line) [JSONDecodeError] (fun _ =>
        raise MigrationStateError ("migration audit line " +++ str_of_Z line_number +++ " isn't valid JSON"));
      match v with
      | VDict d => ds ← decode_lines (line_number + 1) rest; Ok (d :: ds)
      | _ => raise MigrationStateError ("migration audit line " +++ str_of_Z line_number +++ " isn't an object")
      end
  end.
Definition _decode (raw : string) : result (list dict) :=
  records ← decode_lines 1 (split_lines raw);
  _ ← _validate 1 NO_HASH records;
  Ok records.

(** ** The world of a migration *)
(** [Symlink resolves]: a link, to a file that exists or not. *)
Inductive audit_path := Missing | Regular (bytes : string) | Symlink (resolves : bool).
Record outside := Outside {
  now_iso : nat -> string;
  new_uuid : nat -> string;
  (** The [k]-th [os.write] with [n] bytes pending. *)
  os_write : nat -> Z -> result Z;
  (** Time that passes before a reading of the monotonic clock, in nanoseconds. *)
  elapse : nat -> Z;
  (** Whether the operation lock could be taken. *)
  lock_free : nat -> bool }.
Record mworld (S : Type) := MWorld { m_store : S; m_file : audit_path; m_time : Z; m_uses : nat }.
Arguments MWorld {S}. Arguments m_store {S}. Arguments m_file {S}. Arguments m_time {S}. Arguments m_uses {S}.

Section Audit.
Context {S_ : Type} (o : outside).
Abbreviation W := (mworld S_).
Definition set_file (f : audit_path) (w : W) : W := MWorld (m_store w) f (m_time w) (m_uses w).
Definition ask {A} (f : nat -> A) : eff W A := fun w =>
  (Ok (f (m_uses w)), MWorld (m_store w) (m_file w) (m_time w) (S (m_uses w))).
Definition read : eff W (list dict) := fun w =>
  (match m_file w with
   | Missing | Symlink false => Ok []
   | Symlink true => raise MigrationStateError "migration audit path must not be a symlink"
   | Regular bytes => _decode bytes
   end, w).
Definition file_bytes (f : audit_path) : string := match f with Regular b => b | _ => "" end.
Definition append_bytes (s : string) : eff W unit :=
  modify (fun w => set_file (Regular (file_bytes (m_file w) +++ s)) w).
(** [while pending]: every accepted write is a nonempty prefix. *)
Fixpoint write_all (fuel : nat) (pending : string) : eff W unit :=
  match fuel with
  | O => mret tt
  | S fuel =>
      if (pending =? "")%string then mret tt else
      n ← (r ← ask (fun k => os_write o k (blen pending)); lift r);
      if n <=? 0 then throw MigrationStateError "migration audit write made no progress" else
      _ ← append_bytes (String.substring 0 (Z.to_nat n) pending);
      write_all fuel (String.substring (Z.to_nat n) (String.length pending) pending)
  end.
Definition stamped (event : dict) (sequence : Z) (previous_hash : value) (recorded_at : string) : dict :=
  dmerge event [("audit_version", VInt _AUDIT_VERSION); ("sequence", VInt sequence);
                ("previous_hash", previous_hash); ("recorded_at", VStr recorded_at)].
Definition append (event : dict) : eff W dict :=
  f ← gets m_file;
  match f with
  | Symlink _ => throw OSError "Too many levels of symbolic links"
  | _ =>
      _ ← modify (set_file (Regular (file_bytes f)));
      records ← lift (_decode (file_bytes f));
      previous_hash ← lift (match last records with
                            | Some r => dgetitem "event_hash" r
                            | None => Ok (VStr NO_HASH)
                            end);
      at_ ← ask (now_iso o);
      let record := stamped event (Z.of_nat (length records) + 1) previous_hash at_ in
      hash ← lift (_fingerprint (VDict record));
      let record := dset "event_hash" (VStr hash) record in
      let line := _canonical_json (VDict record) in
      encoded ← lift (if utf8_ok line then Ok (line +++ String (chr 10) "")
                      else raise ValueError "'utf-8' codec can't encode character");
      _ ← write_all (S (String.length encoded)) encoded;
      mret record
  end.
End Audit.

(** ** Laws of the audit log

    A record that was appended is read back, and a log cannot be rewritten
    behind its last hash without a collision of SHA-256. *)
(** ** Canonical text of permuted dictionaries *)
Abbreviation sorted_values := (map (fun kv : string * value => (fst kv, sort_value (snd kv)))).
Lemma dlookup_perm k (d d' : dict) : d ≡ₚ d' -> NoDup (dkeys d) -> dlookup k d = dlookup k d'.
Proof.
  induction 1 as [|[k0 v0] d d' _ IH|[k1 v1] [k2 v2] d|d d' d'' H1 IH1 _ IH2]; intros Hn; cbn in *; [done|..].
  - apply NoDup_cons in Hn as [_ Hn]. by rewrite IH.
  - destruct (String.eqb_spec k k1) as [->|]; [|done]. destruct (String.eqb_spec k1 k2) as [->|]; [|done].
    exfalso. apply NoDup_cons in Hn as [Hn _]. set_solver.
  - rewrite IH1 by done. apply IH2. unfold dkeys in *. by rewrite <- (Permutation_map fst H1).
Qed.
Lemma ddel_filter k (d : dict) : NoDup (dkeys d) -> ddel k d = List.filter (fun kv => negb (k =? fst kv)%string) d.
Proof.
  induction d as [|[k0 v0] d IH]; intros Hn; [done|]. cbn in *. apply NoDup_cons in Hn as [Hni Hn].
  destruct (String.eqb_spec k k0) as [->|]; cbn; [|by rewrite IH].
  clear IH Hn. induction d as [|[k1 v1] d IH]; [done|]. cbn in *.
  destruct (String.eqb_spec k0 k1) as [->|]; cbn; [set_solver|]. f_equal. apply IH. set_solver.
Qed.
Lemma filter_perm {A} (f : A -> bool) l l' : l ≡ₚ l' -> List.filter f l ≡ₚ List.filter f l'.
Proof.
  induction 1 as [|x l l' _ IH|x y l|l l' l'' _ IH1 _ IH2]; cbn; [done|by destruct (f x); rewrite IH| |by rewrite IH1].
  destruct (f x), (f y); try done. apply Permutation_swap.
Qed.
Lemma ddel_perm k (d d' : dict) : d ≡ₚ d' -> NoDup (dkeys d) -> ddel k d ≡ₚ ddel k d'.
Proof.
  intros H Hn. rewrite !ddel_filter; [by apply filter_perm| |done]. unfold dkeys in *. by rewrite <- (Permutation_map fst H).
Qed.
Lemma item_leb_antisym {A} (x y : string * A) : item_leb x y = true -> item_leb y x = true -> fst x = fst y.
Proof.
  rewrite !item_leb_le. intros [H1|H1] [H2|H2]; try done; try by symmetry.
  exfalso. destruct String_as_OT.lt_strorder as [I T]. exact (I _ (T _ _ _ H1 H2)).
Qed.
Lemma keys_determine (d : dict) x y : NoDup (dkeys d) -> x ∈ d -> y ∈ d -> fst x = fst y -> x = y.
Proof.
  intros Hn Hx Hy E. induction d as [|z d IH]; [set_solver|]. apply NoDup_cons in Hn as [Hz Hn].
  rewrite elem_of_cons in Hx, Hy. assert (Hm : forall v, v ∈ d -> fst v ∈ dkeys d).
  { intros v Hv. apply list_elem_of_fmap. eauto. }
  destruct Hx as [->|Hx], Hy as [->|Hy]; [done| | |by apply IH].
  - destruct Hz. rewrite E. by apply Hm.
  - destruct Hz. rewrite <- E. by apply Hm.
Qed.
Lemma sorted_unique (l l' : dict) : NoDup (dkeys l) ->
  StronglySorted (fun x y => item_leb x y = true) l -> StronglySorted (fun x y => item_leb x y = true) l' ->
  l ≡ₚ l' -> l = l'.
Proof.
  intros Hn Hs. revert l' Hn. induction Hs as [|x l Hs IH Hf]; intros l' Hn Hs' Hp.
  - by apply Permutation_nil in Hp.
  - destruct Hs' as [|y l' Hs' Hf']; [by apply Permutation_sym, Permutation_nil in Hp|].
    assert (x = y) as ->.
    { apply (keys_determine (x :: l)); [done|set_solver|rewrite Hp; set_solver|].
      assert (Hy : y ∈ x :: l) by (rewrite Hp; set_solver). assert (Hx : x ∈ y :: l') by (rewrite <- Hp; set_solver).
      apply elem_of_cons in Hx as [->|Hx]; [done|]. apply elem_of_cons in Hy as [->|Hy]; [done|].
      rewrite Forall_forall in Hf, Hf'. apply item_leb_antisym; auto. }
    f_equal. apply NoDup_cons in Hn as [_ Hn]. apply IH; [done|done|]. by apply Permutation_cons_inv in Hp.
Qed.
Lemma sort_perm (d d' : dict) : d ≡ₚ d' -> NoDup (dkeys d) -> stable_sort item_leb d = stable_sort item_leb d'.
Proof.
  intros Hp Hn. apply sorted_unique.
  - by rewrite dkeys_sort.
  - apply stable_sort_sorted; [apply item_leb_total|apply item_leb_trans].
  - apply stable_sort_sorted; [apply item_leb_total|apply item_leb_trans].
  - by rewrite !stable_sort_perm.
Qed.

(** ** Looking up and deleting in a sorted dictionary *)
Lemma dlookup_sorted_values k (d : dict) : dlookup k (sorted_values d) = sort_value <$> dlookup k d.
Proof. induction d as [|[k0 v0] d IH]; [done|]. cbn. by destruct (k =? k0)%string. Qed.
Lemma dkeys_sorted_values (d : dict) : dkeys (sorted_values d) = dkeys d.
Proof. apply keys_map. Qed.
Lemma dlookup_sort_dict k (d : dict) : NoDup (dkeys d) -> dlookup k (sort_dict d) = sort_value <$> dlookup k d.
Proof.
  intros Hn. unfold sort_dict. rewrite (dlookup_perm k _ (sorted_values d)).
  - apply dlookup_sorted_values.
  - apply stable_sort_perm.
  - by rewrite dkeys_sort, dkeys_sorted_values.
Qed.
Lemma ddel_sorted_values k (d : dict) : ddel k (sorted_values d) = sorted_values (ddel k d).
Proof. induction d as [|[k0 v0] d IH]; [done|]. cbn. destruct (k =? k0)%string; [done|]. cbn. by rewrite IH. Qed.
Lemma sorted_values_idem (d : dict) : sorted_values (sorted_values d) = sorted_values d.
Proof. rewrite map_map. apply map_ext. intros [k v]. cbn. by rewrite sort_value_idem. Qed.
Lemma sort_ddel k (d : dict) : NoDup (dkeys d) -> sort_dict (ddel k (sort_dict d)) = sort_dict (ddel k d).
Proof.
  intros Hn. unfold sort_dict. rewrite <- (ddel_sorted_values k d). apply sort_perm.
  - rewrite <- ddel_sorted_values. etransitivity.
    + apply ddel_perm; [apply Permutation_map, stable_sort_perm|].
      by rewrite dkeys_sorted_values, dkeys_sort, dkeys_sorted_values.
    + by rewrite sorted_values_idem.
  - rewrite dkeys_sorted_values. apply ddel_nodup. by rewrite dkeys_sort, dkeys_sorted_values.
Qed.
Lemma canonical_ddel k (d : dict) : NoDup (dkeys d) ->
  _canonical_json (VDict (ddel k (sort_dict d))) = _canonical_json (VDict (ddel k d)).
Proof.
  intros Hn. unfold _canonical_json. rewrite <- (dumps_sort canonical_opts (VDict (ddel k (sort_dict d)))) by done.
  rewrite <- (dumps_sort canonical_opts (VDict (ddel k d))) by done.
  f_equal. change (VDict (sort_dict (ddel k (sort_dict d))) = VDict (sort_dict (ddel k d))). f_equal. by apply sort_ddel.
Qed.

(** ** One line per record *)
Definition printing (c : ascii) : bool := 32 <=? byte_of c.
Definition printed (s : string) : bool := all_chars printing s.
Lemma printed_app a b : printed (a +++ b) = printed a && printed b.
Proof. apply all_chars_app. Qed.
Lemma printed_digits s : all_chars is_digit s = true -> printed s = true.
Proof.
  apply all_chars_impl. intros c. unfold is_digit, in_range, printing. intros H. bool_prop. apply Z.leb_le. lia.
Qed.
Lemma printed_uint d : printed (NilZero.string_of_uint d) = true.
Proof. apply printed_digits. unfold NilZero.string_of_uint. destruct d; try done; apply (uint_digits (_ d)). Qed.
Lemma printed_str_of_Z z : printed (str_of_Z z) = true.
Proof. unfold str_of_Z, NilZero.string_of_int. destruct (Z.to_int z); [|cbn]; apply printed_uint. Qed.
Lemma printed_hex_digit n : printing (hex_digit (n mod 16)) = true.
Proof.
  assert (0 <= n mod 16 < 16) as [H1 H2] by (apply Z.mod_pos_bound; lia). revert H1 H2. generalize (n mod 16). intros m H1 H2.
  assert (m = 0 \/ m = 1 \/ m = 2 \/ m = 3 \/ m = 4 \/ m = 5 \/ m = 6 \/ m = 7 \/ m = 8 \/ m = 9 \/ m = 10 \/
    m = 11 \/ m = 12 \/ m = 13 \/ m = 14 \/ m = 15) as H by lia. naive_solver.
Qed.
Lemma printed_esc_byte b c : printed (esc_byte b c) = true.
Proof. destruct b, c as [[] [] [] [] [] [] [] []]; vm_compute; reflexivity. Qed.
Lemma printed_esc_raw s : printed (esc_raw s) = true.
Proof. induction s as [|c s IH]; [done|]. cbn [esc_raw]. by rewrite printed_app, printed_esc_byte, IH. Qed.
Lemma printed_join sep l : printed sep = true -> Forall (fun s => printed s = true) l -> printed (join sep l) = true.
Proof.
  intros Hs. induction 1 as [|x l Hx Hl IH]; [done|]. destruct l as [|y l]; [done|].
  rewrite join_cons, !printed_app, Hx, Hs. by rewrite IH.
Qed.
Lemma printed_quote s : printed (quote canonical_opts s) = true.
Proof. unfold quote. cbn [ensure_ascii canonical_opts]. change (printed (esc_raw s +++ String dq "") = true). by rewrite printed_app, printed_esc_raw. Qed.
Lemma printed_bracket lvl l r items : printed l = true -> printed r = true -> Forall (fun s => printed s = true) items ->
  printed (bracket canonical_opts lvl l r items) = true.
Proof.
  intros Hl Hr Hi. unfold bracket. cbn [indent canonical_opts]. destruct items as [|x items]; rewrite !printed_app, ?Hl, ?Hr; [done|].
  rewrite printed_join; done.
Qed.
Lemma printed_dumps v : json_ok canonical_opts v = true -> forall lvl, printed (dumps_at canonical_opts lvl v) = true.
Proof.
  induction v as [|b|z|f|s|l IH|d IH] using value_ind; intros H lvl; cbn [dumps_at]; try done.
  - by destruct b. - apply printed_str_of_Z. - apply printed_quote.
  - apply printed_bracket; [done|done|]. apply Forall_map. cbn [json_ok] in H. apply Is_true_true, forallb_True in H.
    rewrite Forall_forall in *. intros x Hx. apply IH; [done|]. by apply Is_true_true, H.
  - apply printed_bracket; [done|done|]. cbn [sort_keys canonical_opts].
    set (items := map _ d). assert (Hi : Forall (fun kv : string * string => printed (snd kv) = true) items).
    { subst items. apply Forall_map. cbn [json_ok] in H. apply andb_true_iff in H as [_ H]. apply Is_true_true, forallb_True in H.
      rewrite Forall_forall in *. intros x Hx. cbn. apply IH; [done|]. specialize (H x Hx). apply Is_true_true, andb_true_iff in H. tauto. }
    apply Forall_map. rewrite (stable_sort_perm key_leb items). eapply Forall_impl; [exact Hi|]. intros [k t] Ht.
    change (printed (quote canonical_opts k +++ ":" +++ t) = true). rewrite !printed_app, printed_quote. exact Ht.
Qed.
Lemma printed_canonical v : json_ok canonical_opts v = true -> printed (_canonical_json v) = true.
Proof. intros H. by apply printed_dumps. Qed.

(** ** The lines of a log *)
Definition ends_line (s : string) : Prop := s = "" \/ exists t, s = t +++ String (chr 10) "".
Lemma printing_not_break c : printing c = true -> char_is (chr 10) c = false /\ char_is (chr 13) c = false.
Proof. destruct c as [[] [] [] [] [] [] [] []]; intros H; try discriminate H; done. Qed.
Lemma split_one line : line <> "" -> printed line = true -> split_lines (line +++ String (chr 10) "") = [line].
Proof.
  induction line as [|c line IH]; intros Hne H; [done|]. cbn in H. apply andb_true_iff in H as [Hc H].
  apply printing_not_break in Hc as [Hc1 Hc2]. cbn [split_lines String.append]. rewrite Hc1, Hc2.
  destruct line as [|d line]; [reflexivity|]. by rewrite IH.
Qed.
Abbreviation nl := (String (chr 10) "").
Lemma string_lt_ind (P : string -> Prop) :
  (forall s, (forall t, (String.length t < String.length s)%nat -> P t) -> P s) -> forall s, P s.
Proof.
  intros H s. assert (Hn : forall n t, (String.length t < n)%nat -> P t); [|by apply (Hn (S (String.length s))); lia].
  induction n as [|n IH]; intros t Ht; [lia|]. apply H. intros u Hu. apply IH. lia.
Qed.
Lemma split_nonempty s : s <> "" -> split_lines s <> [].
Proof.
  destruct s as [|c s]; [done|]. intros _. cbn [split_lines]. repeat case_goal; discriminate.
Qed.
Lemma split_app t s : split_lines (t +++ String (chr 10) s) = split_lines (t +++ nl) ++ split_lines s.
Proof.
  induction t as [t IH] using string_lt_ind. destruct t as [|c t]; [done|]. cbn [String.append split_lines].
  assert (Ht := IH t). cbn [String.length] in *. specialize (Ht ltac:(lia)).
  destruct (char_is (chr 10) c); [cbn [app]; by rewrite Ht|]. destruct (char_is (chr 13) c) eqn:Hc.
  - destruct t as [|d t]; [done|]. cbn [String.append] in *. cbn [String.length] in IH.
    destruct (char_is (chr 10) d) eqn:Hd; cbn [app]; [|by rewrite Ht]. f_equal. apply IH. lia.
  - rewrite Ht. destruct (split_lines (t +++ nl)) as [|l ls] eqn:E; [|done].
    exfalso. revert E. apply split_nonempty. by destruct t.
Qed.
Lemma split_ends s t : ends_line s -> split_lines (s +++ t) = split_lines s ++ split_lines t.
Proof. intros [->|[u ->]]; [done|]. rewrite <- split_app. f_equal. by rewrite append_assoc. Qed.
Lemma decode_lines_app ls ls' n : decode_lines n (ls ++ ls') =
  (ds ← decode_lines n ls; ds' ← decode_lines (n + Z.of_nat (length ls)) ls'; Ok (ds ++ ds')).
Proof.
  revert n. induction ls as [|l ls IH]; intros n; cbn [decode_lines app length].
  - rewrite Z.add_0_r. cbn. by destruct (decode_lines n ls').
  - replace (n + Z.of_nat (S (length ls))) with (n + 1 + Z.of_nat (length ls)) by lia.
    destruct (blank_line l); [apply IH|]. rewrite IH.
    destruct (try_except _ _ _) as [v|e]; [|done]. cbn. destruct v; try done.
    destruct (decode_lines (n + 1) ls) as [ds|e]; [|done]. cbn. by destruct (decode_lines _ ls').
Qed.

(** ** Validity *)
(** The hash the next record has to name. *)
Fixpoint head_hash (h : string) (rs : list dict) : string :=
  match rs with [] => h | r :: rs => head_hash (py_str (vor (dget "event_hash" r) (VStr ""))) rs end.
Lemma check_record_hash n h r c : check_record n h r = Ok c ->
  c = py_str (vor (dget "event_hash" r) (VStr "")) /\
  _fingerprint (VDict (ddel "event_hash" r)) = Ok c /\ dget "previous_hash" r = VStr h.
Proof.
  unfold check_record. intros H. apply bind_ok in H as (m & Hm & H). case_hyp H; [done|]. case_hyp H; [done|].
  apply bind_ok in H as (a & Ha & H). apply bind_ok in H as ([] & Hs & H); [|done]. injection H as H.
  unfold compare_digest in Hs. case_hyp Hs; [|done]. injection Hs as Hs. bool_prop.
  match goal with H : py_eq _ _ = true |- _ => apply py_eq_str_r in H end. split_and!; congruence.
Qed.
Lemma validate_app rs rs' n h : _validate n h (rs ++ rs') =
  (_ ← _validate n h rs; _validate (n + Z.of_nat (length rs)) (head_hash h rs) rs').
Proof.
  revert n h. induction rs as [|r rs IH]; intros n h; cbn [_validate app length head_hash].
  - by rewrite Z.add_0_r.
  - replace (n + Z.of_nat (S (length rs))) with (n + 1 + Z.of_nat (length rs)) by lia.
    destruct (check_record n h r) as [c|e] eqn:E; [|done]. cbn. rewrite IH.
    by apply check_record_hash in E as (-> & _).
Qed.

(** ** Writing *)
Lemma substring_all s : String.substring 0 (String.length s) s = s.
Proof. induction s as [|c s IH]; [done|]. cbn. by rewrite IH. Qed.
Lemma substring_nil n m : String.substring n m "" = "".
Proof. by destruct n, m. Qed.
Lemma substring_drop n s m : (String.length s <= m)%nat ->
  String.substring 0 n s +++ String.substring n m s = s.
Proof.
  revert n m. induction s as [|c s IH]; intros [|n] [|m] H; cbn in *; try done; try lia.
  - f_equal. rewrite <- (IH 0%nat m) at 2 by lia. by destruct s.
  - f_equal. apply IH. lia.
Qed.

Section Append.
Context {S_ : Type} (o : outside).
Abbreviation W := (mworld S_).
(** Part of [pending] was added to a regular file, all of it on success. *)
Definition wrote (b pending : string) (ok : bool) (w w' : W) : Prop :=
  m_store w' = m_store w /\
  exists p q, pending = p +++ q /\ m_file w' = Regular (b +++ p) /\ (ok = true -> q = "").
Lemma write_all_spec fuel : forall pending b (w : W) r w',
  m_file w = Regular b -> (String.length pending < fuel)%nat ->
  write_all o fuel pending w = (r, w') -> wrote b pending (is_ok r) w w'.
Proof.
  induction fuel as [|fuel IH]; intros pending b w r w' Hb Hf H; [lia|]. cbn [write_all] in H.
  assert (Hdone : m_store w' = m_store w -> m_file w' = m_file w -> is_ok r = false \/ pending = "" -> wrote b pending (is_ok r) w w').
  { intros Hs Hm Hr. split; [done|]. exists "", pending. rewrite append_nil_r. split_and!; [done|congruence|].
    destruct Hr as [-> | ->]; done. }
  destruct (String.eqb_spec pending "") as [Hp|Hp].
  { injection H as <- <-. apply Hdone; auto. }
  apply bind_inv in H as [(n & w1 & H1 & H)|(e & H1 & ->)].
  2:{ cbn in H1. injection H1 as _ <-. apply Hdone; auto. }
  assert (m_store w1 = m_store w /\ m_file w1 = m_file w) as [Hs1 Hm1].
  { cbn in H1. injection H1 as _ <-. done. }
  destruct (n <=? 0) eqn:En.
  { injection H as <- <-. apply Hdone; auto. }
  apply bind_inv in H as [([] & w2 & H2 & H)|(e & H2 & ->)]; [|done]. cbn in H2. injection H2 as <-.
  apply Z.leb_gt in En. set (p := String.substring 0 (Z.to_nat n) pending) in *.
  set (q := String.substring (Z.to_nat n) (String.length pending) pending) in *.
  assert (Hpq : p +++ q = pending) by (apply substring_drop; lia).
  assert (Hlen : (String.length p + String.length q = String.length pending)%nat) by (by rewrite <- length_app_str, Hpq).
  assert (0 < String.length p)%nat.
  { subst p. destruct pending as [|c t]; [done|]. destruct (Z.to_nat n) eqn:E; [lia|]. cbn. lia. }
  apply (IH _ (b +++ p)) in H as (Hs & p' & q' & Hq & Hfile & Hok); [|by cbn; rewrite Hm1, Hb|lia].
  split; [by rewrite Hs; cbn|]. exists (p +++ p'), q'. rewrite <- Hpq, Hq, Hfile, !append_assoc. done.
Qed.

(** What a call of [append] needs of the log it extends: valid, every hash a
    text, the last line finished. *)
Definition sound_log (b : string) (rs : list dict) : Prop :=
  _decode b = Ok rs /\ ends_line b /\ forall r, last rs = Some r -> exists h, dlookup "event_hash" r = Some (VStr h).
Lemma stamped_lookup event n p at_ k : NoDup (dkeys event) ->
  dlookup k (stamped event n p at_) =
  (if (k =? "audit_version")%string then Some (VInt _AUDIT_VERSION) else
   if (k =? "sequence")%string then Some (VInt n) else
   if (k =? "previous_hash")%string then Some p else
   if (k =? "recorded_at")%string then Some (VStr at_) else dlookup k event).
Proof.
  intros _. unfold stamped. rewrite dlookup_dmerge; [|by apply (bool_decide_unpack _)]. cbn. by repeat case_goal.
Qed.
Lemma json_ok_dset k v d : json_ok canonical_opts (VDict d) = true -> json_ok canonical_opts v = true ->
  json_ok canonical_opts (VDict (dset k v d)) = true.
Proof.
  cbn [json_ok]. intros H Hv. apply andb_true_iff in H as [Hn H]. apply andb_true_iff. split.
  - bool_prop. apply bool_decide_eq_true_2. by apply dset_wf.
  - clear Hn. induction d as [|[k0 v0] d IH]; cbn in *; [by rewrite Hv|].
    destruct (k =? k0)%string; cbn; bool_prop; rewrite ?Hv; [by rewrite H0|]. rewrite H, IH; done.
Qed.
Lemma json_ok_stamped event n p at_ : json_ok canonical_opts (VDict event) = true ->
  json_ok canonical_opts (VDict (stamped event n (VStr p) at_)) = true.
Proof. intros H. unfold stamped, dmerge. cbn [fold_left fst snd]. by repeat apply json_ok_dset. Qed.

Lemma head_hash_last h rs r t : last rs = Some r -> dlookup "event_hash" r = Some (VStr t) -> head_hash h rs = t.
Proof.
  revert h. induction rs as [|x rs IH]; intros h Hl Ht; [done|]. destruct rs as [|y rs].
  - injection Hl as ->. cbn. unfold dget. rewrite Ht. by destruct t.
  - exact (IH h Hl Ht).
Qed.
Lemma ddel_dset k v d : dlookup k d = None -> ddel k (dset k v d) = d.
Proof.
  induction d as [|[k0 v0] d IH]; intros H; cbn in *; [by rewrite String.eqb_refl|].
  destruct (k =? k0)%string eqn:E; [done|]. cbn. by rewrite E, IH.
Qed.
Lemma ascii_cons c s : byte_of c <? 128 = true -> is_ascii (String c s) = is_ascii s.
Proof. intros H. unfold is_ascii. cbn [all_chars]. by rewrite H. Qed.
Lemma ascii_hex2 b s : 0 <= b < 256 -> is_ascii (hex2 b +++ s) = is_ascii s.
Proof.
  intros H. unfold hex2. cbn [String.append]. rewrite <- (Z.mod_small (b / 16) 16).
  - by rewrite !ascii_cons by apply hex_digit_ascii.
  - split; [apply Z.div_pos|apply Z.div_lt_upper_bound]; lia.
Qed.
Lemma bytes_range z : Forall (fun b => 0 <= b < 256) (be_bytes 4 z).
Proof.
  unfold be_bytes. apply Forall_rev, Forall_map, Forall_true. intros i. cbn.
  change 255 with (Z.ones 8). rewrite Z.land_ones by lia. apply Z.mod_pos_bound. lia.
Qed.
Lemma ascii_hex8 z s : is_ascii (hex8 z +++ s) = is_ascii s.
Proof.
  unfold hex8. induction (bytes_range z) as [|b l Hb _ IH]; [done|]. cbn [fold_right]. by rewrite append_assoc, ascii_hex2.
Qed.
Lemma ascii_sha256_hex s : is_ascii (sha256_hex s) = true.
Proof.
  unfold sha256_hex. generalize (fold_left sha256_block (message_blocks s) sha256_init) as l.
  induction l as [|x l IH]; [done|]. cbn [fold_right]. by rewrite ascii_hex8.
Qed.

(** The record a call of [append] makes, read back, is the next valid one. *)
Section Sealed.
Context (event : dict) (n : Z) (h at_ t : string).
Context (Hj : json_ok canonical_opts (VDict event) = true) (Hf : dlookup "event_hash" event = None).
Let record := stamped event n (VStr h) at_.
Context (Ht : _fingerprint (VDict record) = Ok t).
Definition sealed : dict := dset "event_hash" (VStr t) record.
Lemma event_keys : NoDup (dkeys event).
Proof using Hj. cbn [json_ok] in Hj. bool_prop. done. Qed.
Lemma sealed_json : json_ok canonical_opts (VDict sealed) = true.
Proof using Hj. apply json_ok_dset; [by apply json_ok_stamped|done]. Qed.
Lemma sealed_keys : NoDup (dkeys sealed).
Proof using Hj. pose proof sealed_json as H. cbn [json_ok] in H. by apply andb_true_iff in H as [H%bool_decide_eq_true_1 _]. Qed.
Lemma sealed_hash : dlookup "event_hash" (sort_dict sealed) = Some (VStr t).
Proof using Hj. rewrite dlookup_sort_dict by apply sealed_keys. unfold sealed. by rewrite dlookup_dset. Qed.
Lemma sealed_lookup k : k <> "event_hash" -> dlookup k sealed = dlookup k record.
Proof using. intros Hk%String.eqb_neq. unfold sealed. by rewrite dlookup_dset, Hk. Qed.
Lemma sealed_check : check_record n h (sort_dict sealed) = Ok t.
Proof using Hj Hf Ht.
  assert (Hs : forall k v, k <> "event_hash" -> dlookup k record = Some v -> dlookup k (sort_dict sealed) = Some (sort_value v)).
  { intros k v Hk Hv. by rewrite dlookup_sort_dict, sealed_lookup, Hv by (apply sealed_keys || done). }
  unfold check_record, dget_or, dget. rewrite (Hs "sequence" (VInt n)), (Hs "previous_hash" (VStr h)), sealed_hash;
    try done; try (unfold record; by rewrite stamped_lookup by apply event_keys).
  cbn [sort_value py_int mbind result_bind]. rewrite Z.eqb_refl. cbn [negb].
  rewrite (proj2 (py_eq_str_r h (VStr h)) eq_refl). cbn [negb].
  unfold _fingerprint in *. rewrite canonical_ddel by apply sealed_keys. unfold sealed. rewrite ddel_dset.
  2:{ unfold record. rewrite stamped_lookup by apply event_keys. exact Hf. }
  rewrite Ht. cbn [mbind result_bind]. assert (t = sha256_hex (_canonical_json (VDict record))) as ->.
  { unfold utf8_sha256 in Ht. destruct (utf8_ok (_canonical_json (VDict record))); [by injection Ht as <-|done]. }
  assert (Hp : py_str (vor (VStr (sha256_hex (_canonical_json (VDict record)))) (VStr "")) = sha256_hex (_canonical_json (VDict record))).
  { generalize (sha256_hex (_canonical_json (VDict record))). by intros []. }
  rewrite Hp. unfold compare_digest. rewrite ascii_sha256_hex. cbn [andb mbind result_bind]. by rewrite String.eqb_refl.
Qed.
End Sealed.

Lemma load_canonical v : json_ok canonical_opts v = true -> utf8_ok (_canonical_json v) = true ->
  load_line (_canonical_json v) = Ok (sort_value v).
Proof. intros Hj Hu. unfold load_line. rewrite Hu. by apply loads_sorted; [|apply canonical_sep|]. Qed.
Lemma canonical_dict_head d : exists t, _canonical_json (VDict d) = String "{" t.
Proof.
  unfold _canonical_json, dumps_with. cbn [dumps_at]. generalize (map (fun kv => quote canonical_opts (fst kv) +++ key_sep canonical_opts +++ snd kv)
    (if sort_keys canonical_opts then stable_sort key_leb (map (fun kv => (fst kv, dumps_at canonical_opts 1 (snd kv))) d)
     else map (fun kv => (fst kv, dumps_at canonical_opts 1 (snd kv))) d)).
  intros [|x l]; eexists; reflexivity.
Qed.
Lemma sound_extend b rs r h t n : sound_log b rs -> json_ok canonical_opts (VDict r) = true ->
  utf8_ok (_canonical_json (VDict r)) = true -> head_hash NO_HASH rs = h -> n = 1 + Z.of_nat (length rs) ->
  check_record n h (sort_dict r) = Ok t -> dlookup "event_hash" (sort_dict r) = Some (VStr t) ->
  sound_log (b +++ _canonical_json (VDict r) +++ nl) (rs ++ [sort_dict r]).
Proof.
  intros (Hd & He & _) Hj Hu Hh -> Hc Hk. unfold _decode in Hd. apply bind_ok in Hd as (rs' & Hd & Hv).
  apply bind_ok in Hv as ([] & Hv & H). injection H as ->.
  assert (Hne : _canonical_json (VDict r) <> "") by (by destruct (canonical_dict_head r) as [u ->]).
  split_and!.
  - unfold _decode. rewrite split_ends, split_one, decode_lines_app by (done || by apply printed_canonical).
    rewrite Hd. cbn [mbind result_bind decode_lines].
    assert (blank_line (_canonical_json (VDict r)) = false) as -> by (by destruct (canonical_dict_head r) as [u ->]).
    rewrite load_canonical by done. cbn [try_except mbind result_bind sort_value].
    change (stable_sort item_leb (sorted_values r)) with (sort_dict r).
    cbn [mbind result_bind]. rewrite validate_app, Hv. cbn [mbind result_bind _validate]. by rewrite Hh, Hc.
  - right. exists (b +++ _canonical_json (VDict r)). by rewrite append_assoc.
  - intros x Hx. rewrite last_snoc in Hx. injection Hx as <-. eauto.
Qed.

(** What one call of [append] leaves behind: the collection store is untouched,
    the bytes that were there stay a prefix of the file. *)
Definition extended (w w' : W) : Prop :=
  m_store w' = m_store w /\ (m_file w' = m_file w \/ exists p, m_file w' = Regular (file_bytes (m_file w) +++ p)).
Definition append_record (event : dict) (records : list dict) : eff W dict :=
  previous_hash ← lift (match last records with Some r => dgetitem "event_hash" r | None => Ok (VStr NO_HASH) end);
  at_ ← ask (now_iso o);
  let record := stamped event (Z.of_nat (length records) + 1) previous_hash at_ in
  hash ← lift (_fingerprint (VDict record));
  let record := dset "event_hash" (VStr hash) record in
  let line := _canonical_json (VDict record) in
  encoded ← lift (if utf8_ok line then Ok (line +++ nl) else raise ValueError "'utf-8' codec can't encode character");
  _ ← write_all o (S (String.length encoded)) encoded;
  mret record.
Lemma append_record_spec event records b (w : W) r w' : m_file w = Regular b ->
  append_record event records w = (r, w') ->
  m_store w' = m_store w /\ (exists p, m_file w' = Regular (b +++ p)) /\
  forall record, r = Ok record -> exists previous_hash at_ hash,
    (match last records with Some r => dgetitem "event_hash" r | None => Ok (VStr NO_HASH) end) = Ok previous_hash /\
    _fingerprint (VDict (stamped event (Z.of_nat (length records) + 1) previous_hash at_)) = Ok hash /\
    record = dset "event_hash" (VStr hash) (stamped event (Z.of_nat (length records) + 1) previous_hash at_) /\
    utf8_ok (_canonical_json (VDict record)) = true /\
    m_file w' = Regular (b +++ _canonical_json (VDict record) +++ nl).
Proof.
  intros Hb H. unfold append_record in H.
  assert (Hstay : m_file w = Regular (b +++ "")) by (by rewrite append_nil_r).
  apply bind_inv in H as [(ph & w1 & H1 & H)|(e & H1 & ->)]; injection H1 as H1 <-; [|split_and!; [done|by exists ""|done]].
  apply bind_inv in H as [(at_ & w2 & H2 & H)|(e & H2 & ->)]; [|done]. injection H2 as <- <-. cbv zeta in H.
  apply bind_inv in H as [(hash & w3 & H3 & H)|(e & H3 & ->)]; injection H3 as H3 <-; [|split_and!; [done|by exists ""|done]].
  apply bind_inv in H as [(enc & w4 & H4 & H)|(e & H4 & ->)]; injection H4 as H4 <-; [|split_and!; [done|by exists ""|done]].
  case_hyp H4; [|done]. injection H4 as <-.
  apply bind_inv in H as [([] & w5 & H5 & H)|(e & H5 & ->)].
  - injection H as <- <-. apply (write_all_spec _ _ b) in H5 as (Hs & p & q & Hpq & Hf & Hq); [|done|lia].
    rewrite (Hq eq_refl), append_nil_r in Hpq. rewrite <- Hpq in Hf. split_and!; [done|by eexists|].
    intros record [= <-]. exists ph, (now_iso o (m_uses w)), hash. split_and!; done.
  - apply (write_all_spec _ _ b) in H5 as (Hs & p & q & Hpq & Hf & Hq); [|done|lia]. split_and!; [done|by eexists|done].
Qed.
Lemma append_open event (w : W) : append o event w =
  match m_file w with
  | Symlink _ => (raise OSError "Too many levels of symbolic links", w)
  | f => let w1 := set_file (Regular (file_bytes f)) w in
         match _decode (file_bytes f) with Ok records => append_record event records w1 | Raise e => (Raise e, w1) end
  end.
Proof.
  unfold append. unfold mbind at 1, eff_bind at 1, gets. destruct (m_file w) as [|b|y]; [| |done];
    unfold mbind at 1, eff_bind at 1, modify; unfold mbind at 1, eff_bind at 1, lift at 1; by destruct (_decode _).
Qed.
Lemma append_only event (w : W) r w' : append o event w = (r, w') -> extended w w'.
Proof.
  rewrite append_open. unfold extended. intros H. destruct (m_file w) as [|b|y] eqn:E; cbn [file_bytes] in *.
  3: injection H as _ <-; auto.
  all: destruct (_decode _) as [records|e]; [|injection H as _ <-; split; [done|]; right; exists ""; cbn; by rewrite ?append_nil_r].
  - apply (append_record_spec _ _ "") in H as (Hs & Hp & _); [|done]. split; [exact Hs|by right].
  - apply (append_record_spec _ _ b) in H as (Hs & Hp & _); [|done]. split; [exact Hs|by right].
Qed.
Lemma append_sound event b rs (w : W) record w' :
  file_bytes (m_file w) = b -> sound_log b rs -> json_ok canonical_opts (VDict event) = true ->
  dlookup "event_hash" event = None -> append o event w = (Ok record, w') ->
  m_file w' = Regular (b +++ _canonical_json (VDict record) +++ nl) /\
  sound_log (b +++ _canonical_json (VDict record) +++ nl) (rs ++ [sort_dict record]) /\
  (exists h at_ t, record = sealed event (Z.of_nat (length rs) + 1) h at_ t).
Proof.
  intros Hb Hl Hj Hf H. rewrite append_open in H.
  assert (Hr : exists w1 : W, m_file w1 = Regular b /\ append_record event rs w1 = (Ok record, w')).
  { destruct Hl as (Hd & _). destruct (m_file w) as [|b0|y]; cbn [file_bytes] in *; [| |done]; subst b;
      rewrite Hd in H; eexists; (split; [|exact H]); done. }
  clear H. destruct Hr as (w1 & Hw1 & H). apply (append_record_spec _ _ b) in H as (_ & _ & H); [|done].
  destruct (H record eq_refl) as (ph & at_ & t & Hph & Ht & Hrec & Hu & Hfile). clear H.
  assert (exists h, ph = VStr h /\ head_hash NO_HASH rs = h) as (h & -> & Hh).
  { destruct Hl as (_ & _ & Hlast). destruct (last rs) as [x|] eqn:E.
    - destruct (Hlast x eq_refl) as [h Hx]. unfold dgetitem in Hph. rewrite Hx in Hph. injection Hph as <-.
      exists h. split; [done|]. by apply (head_hash_last _ _ x).
    - apply last_None in E as ->. injection Hph as <-. by exists NO_HASH. }
  split; [done|]. split; [|by exists h, at_, t].
  rewrite Hrec in *. apply (sound_extend _ _ _ h t (Z.of_nat (length rs) + 1)); try done.
  - by apply sealed_json. - lia. - by apply sealed_check. - by apply (sealed_hash event).
Qed.

Lemma read_sound b rs (w : W) : m_file w = Regular b -> sound_log b rs -> read w = (Ok rs, w).
Proof. intros Hf (Hd & _). unfold read. by rewrite Hf, Hd. Qed.
(** recording an event in a sound audit log.  Whatever happens, the bytes
    already in the log stay and nothing else changes; a call that returns
    leaves a log that reads back as the old records and the new one, which
    has the event's own entries, and which is sound again: the next call
    extends it in the same way. *)
Theorem append_extends event rs (w : W) r w' :
  sound_log (file_bytes (m_file w)) rs -> json_ok canonical_opts (VDict event) = true ->
  dlookup "event_hash" event = None -> append o event w = (r, w') ->
  extended w w' /\
  forall record, r = Ok record ->
    read w' = (Ok (rs ++ [sort_dict record]), w') /\ sound_log (file_bytes (m_file w')) (rs ++ [sort_dict record]) /\
    forall k, k ∉ ["audit_version"; "sequence"; "previous_hash"; "recorded_at"; "event_hash"] ->
      dlookup k record = dlookup k event.
Proof.
  intros Hl Hj Hf H. split; [by apply append_only in H|]. intros record ->.
  destruct (append_sound event _ rs w record w' eq_refl Hl Hj Hf H) as (Hfile & Hs & h & at_ & t & ->).
  split_and!; [by apply (read_sound _ _ _ Hfile)|by rewrite Hfile|]. intros k Hk.
  rewrite sealed_lookup, stamped_lookup by (set_solver || by apply event_keys).
  repeat (case_goal; [match goal with H : String.eqb _ _ = true |- _ => apply String.eqb_eq in H as -> end; set_solver|]). done.
Qed.
End Append.

(** ** Rewriting a log behind its last hash *)
Definition payload (r : dict) : dict := ddel "event_hash" r.
Definition payload_text (r : dict) : string := _canonical_json (VDict (payload r)).
Definition plain_record (r : dict) : Prop := json_ok canonical_opts (VDict r) = true.
(** Two different texts of the logs with the same digest. *)
Definition collide (rs rs' : list dict) : Prop :=
  exists r r', r ∈ rs /\ r' ∈ rs' /\ payload_text r <> payload_text r' /\
    sha256_hex (payload_text r) = sha256_hex (payload_text r').
Lemma fingerprint_hash v t : _fingerprint v = Ok t -> t = sha256_hex (_canonical_json v).
Proof. unfold _fingerprint, utf8_sha256. intros H. case_hyp H; [by injection H as <-|done]. Qed.
Lemma plain_payload r : plain_record r -> plain_record (payload r).
Proof. apply json_ok_ddel. Qed.
Lemma plain_keys r : plain_record r -> NoDup (dkeys r).
Proof. unfold plain_record. cbn [json_ok]. intros H. by apply andb_true_iff in H as [H%bool_decide_eq_true_1 _]. Qed.
Lemma payload_text_inj r r' k : plain_record r -> plain_record r' -> payload_text r = payload_text r' ->
  k <> "event_hash" -> sort_value <$> dlookup k r = sort_value <$> dlookup k r'.
Proof.
  intros Hr Hr' Ht Hk. assert (E : sort_dict (payload r) = sort_dict (payload r')).
  { apply plain_payload in Hr, Hr'. apply (loads_sorted canonical_opts _ eq_refl canonical_sep) in Hr, Hr'.
    unfold payload_text, _canonical_json in Ht. rewrite Ht in Hr. rewrite Hr in Hr'. by injection Hr'. }
  apply (f_equal (dlookup k)) in E. rewrite !dlookup_sort_dict in E by (by apply plain_keys, plain_payload).
  unfold payload in E. by rewrite !dlookup_ddel_ne in E.
Qed.
Lemma py_int_sort v : py_int (sort_value v) = py_int v.
Proof. by destruct v. Qed.
Lemma same_text_position n n' h h' r r' c c' : plain_record r -> plain_record r' -> payload_text r = payload_text r' ->
  check_record n h r = Ok c -> check_record n' h' r' = Ok c' -> n = n' /\ h = h'.
Proof.
  intros Hr Hr' Ht Hc Hc'. pose proof (payload_text_inj r r' "sequence" Hr Hr' Ht ltac:(done)) as Hs.
  pose proof (payload_text_inj r r' "previous_hash" Hr Hr' Ht ltac:(done)) as Hp.
  pose proof (check_record_hash _ _ _ _ Hc) as (_ & _ & H1). pose proof (check_record_hash _ _ _ _ Hc') as (_ & _ & H2).
  unfold dget in H1, H2. split.
  - unfold check_record in Hc, Hc'. apply bind_ok in Hc as (m & Hm & Hc), Hc' as (m' & Hm' & Hc').
    case_hyp Hc; [done|]. case_hyp Hc'; [done|]. bool_prop. subst. unfold dget_or in Hm, Hm'.
    destruct (dlookup "sequence" r) as [v|], (dlookup "sequence" r') as [v'|]; cbn in Hs; try done; [|congruence].
    injection Hs as Hs. rewrite <- py_int_sort, Hs, py_int_sort in Hm. congruence.
  - destruct (dlookup "previous_hash" r) as [v|], (dlookup "previous_hash" r') as [v'|]; cbn in Hp; try done. subst. by injection Hp.
Qed.
Lemma Forall_last {A} (P : A -> Prop) l x : Forall P (l ++ [x]) -> Forall P l /\ P x.
Proof. intros H. apply Forall_app in H as [Hl Hx]. by inversion Hx. Qed.
Lemma head_hash_snoc h rs r : head_hash h (rs ++ [r]) = py_str (vor (dget "event_hash" r) (VStr "")).
Proof. revert h. induction rs as [|x rs IH]; intros h; [done|]. apply IH. Qed.
Lemma validate_snoc n h rs r : _validate n h (rs ++ [r]) = Ok tt ->
  _validate n h rs = Ok tt /\ exists c, check_record (n + Z.of_nat (length rs)) (head_hash h rs) r = Ok c.
Proof.
  rewrite validate_app. intros H. apply bind_ok in H as ([] & Hv & H). split; [done|].
  cbn [_validate] in H. apply bind_ok in H as (c & Hc & _). by exists c.
Qed.
Lemma same_head rs rs' r r' n n' h h' c c' :
  check_record n h r = Ok c -> check_record n' h' r' = Ok c' ->
  py_str (vor (dget "event_hash" r) (VStr "")) = py_str (vor (dget "event_hash" r') (VStr "")) ->
  r ∈ rs -> r' ∈ rs' -> payload_text r = payload_text r' \/ collide rs rs'.
Proof.
  intros Hc Hc' He Hr Hr'. destruct (decide (payload_text r = payload_text r')); [by left|right].
  exists r, r'. split_and!; try done.
  apply check_record_hash in Hc as (-> & Hc & _). apply check_record_hash in Hc' as (-> & Hc' & _).
  apply fingerprint_hash in Hc, Hc'. unfold payload_text, payload. congruence.
Qed.
Lemma collide_mono rs rs' l l' : collide rs rs' -> rs ⊆ l -> rs' ⊆ l' -> collide l l'.
Proof. intros (r & r' & Hr & Hr' & Hx) Hs Hs'. exists r, r'. split_and!; [by apply Hs|by apply Hs'|apply Hx|apply Hx]. Qed.
Lemma chain_determined rs rs' h : Forall plain_record rs -> Forall plain_record rs' -> length rs = length rs' ->
  _validate 1 h rs = Ok tt -> _validate 1 h rs' = Ok tt -> head_hash h rs = head_hash h rs' ->
  map payload_text rs = map payload_text rs' \/ collide rs rs'.
Proof.
  revert rs'. induction rs as [|r rs IH] using rev_ind; intros rs' Hp Hp' Hlen Hv Hv' Hh.
  - left. by destruct rs'.
  - destruct rs' as [|r' rs' _] using rev_ind; [rewrite length_app in Hlen; cbn in Hlen; lia|].
    rewrite !length_app in Hlen. cbn in Hlen. rewrite !head_hash_snoc in Hh.
    apply validate_snoc in Hv as (Hv & c & Hc), Hv' as (Hv' & c' & Hc').
    apply Forall_last in Hp as [Hp Hr], Hp' as [Hp' Hr'].
    destruct (same_head (rs ++ [r]) (rs' ++ [r']) r r' _ _ _ _ _ _ Hc Hc' Hh) as [Ht|Hx]; [set_solver|set_solver| |by right].
    destruct (same_text_position _ _ _ _ _ _ _ _ Hr Hr' Ht Hc Hc') as [_ Hhead].
    destruct (IH rs' Hp Hp' ltac:(lia) Hv Hv' Hhead) as [Hm|Hx].
    + left. rewrite !map_app, Hm. cbn [map]. by rewrite Ht.
    + right. apply (collide_mono _ _ _ _ Hx); set_solver.
Qed.
(** C33: the hash chain.  Two audit logs that read successfully and whose last
    records carry the same hash record the same events: record by record their
    canonical contents agree.  Otherwise the two logs themselves contain two
    different texts with the same SHA-256 digest. *)
Theorem audit_tamper_evident b b' rs rs' : _decode b = Ok rs -> _decode b' = Ok rs' ->
  Forall plain_record rs -> Forall plain_record rs' -> rs <> [] -> rs' <> [] ->
  head_hash NO_HASH rs = head_hash NO_HASH rs' ->
  map payload_text rs = map payload_text rs' \/ collide rs rs'.
Proof.
  intros Hd Hd' Hp Hp' Hne Hne' Hh. apply bind_ok in Hd as (x & _ & Hd), Hd' as (x' & _ & Hd').
  apply bind_ok in Hd as ([] & Hv & H), Hd' as ([] & Hv' & H'). injection H as ->. injection H' as ->.
  destruct rs as [|r rs _] using rev_ind; [done|]. destruct rs' as [|r' rs' _] using rev_ind; [done|].
  pose proof Hh as Hl. rewrite !head_hash_snoc in Hl.
  pose proof (validate_snoc _ _ _ _ Hv) as (_ & c & Hc). pose proof (validate_snoc _ _ _ _ Hv') as (_ & c' & Hc').
  destruct (Forall_last _ _ _ Hp) as [_ Hr]. destruct (Forall_last _ _ _ Hp') as [_ Hr'].
  destruct (same_head (rs ++ [r]) (rs' ++ [r']) r r' _ _ _ _ _ _ Hc Hc' Hl) as [Ht|Hx]; [set_solver|set_solver| |by right].
  destruct (same_text_position _ _ _ _ _ _ _ _ Hr Hr' Ht Hc Hc') as [Hn _].
  apply (chain_determined _ _ NO_HASH); try done. rewrite !length_app. cbn. lia.
Qed.
