(* ===== verification/Migration.v ===== *)
(** * Migration of private collections ([milvus_collection_migration.py])

    An operator copies one subject's legacy collection into the collection of
    the hashed name, verifies it, and records the outcome in the audit log.
    Milvus and its SDK are outside the repository: [Milvus] lists the client's
    calls.  A row is a dictionary; the monotonic clock counts nanoseconds. *)
From S2P Require Import Prelude PyStr PyFloat PyVal Json JsonRoundtrip Redis Sha Dedupe Identity Tokens.
From S2P Require Import Collections Documents DocumentTool AuditLog.
#[local] Open Scope Z_scope.

(** ** The client *)
(** What [create_collection] is given. *)
Record create_request := CreateRequest {
  c_name : string; c_auto_id : bool; c_dynamic : bool; c_description : string;
  c_fields : list dict; c_indexes : list dict; c_options : dict }.
Class Milvus (S : Type) := {
  cursor : Type;
  has_collection : string -> eff S bool;
  describe_collection : string -> eff S dict;
  list_indexes : string -> eff S (list value);
  describe_index : string -> string -> eff S dict;
  load_collection : string -> eff S unit;
  (** The answer to a strong query of the row count. *)
  query_count : string -> eff S value;
  (** [DataType(n)], the checks of [add_field] and [add_index]. *)
  data_type : Z -> result Z;
  add_field : list dict -> dict -> result (list dict);
  add_index : list dict -> dict -> result (list dict);
  create_collection : create_request -> eff S unit;
  (** [alter_collection_properties] of [allow_insert_auto_id]. *)
  alter_allow_insert : string -> string -> eff S unit;
  query_iterator : string -> Z -> eff S cursor;
  next_batch : cursor -> eff S (list value);
  close_cursor : cursor -> eff S unit;
  (** How many batches the iterator still has to deliver. *)
  left : cursor -> S -> nat;
  (** A strong [get] by primary key. *)
  get_rows : string -> list value -> eff S (list value);
  insert_rows : string -> list dict -> eff S unit;
  upsert_rows : string -> list dict -> eff S unit }.

(** ** Schemas and indexes *)
(** [dict(v)] of a mapping or of something that is not one. *)
Definition to_dict (v : value) : result dict :=
  match v with
  | VDict d => Ok d
  | VStr _ | VList _ => raise ValueError "dictionary update sequence element #0 has the wrong length"
  | _ => raise TypeError "object is not iterable"
  end.
(** [dict(v or {})]. *)
Definition params_dict (v : value) : result dict := if truthy v then to_dict v else Ok [].
(** [v.get(...)] of a value that has to be a mapping. *)
Definition mapping (v : value) : result dict :=
  match v with VDict d => Ok d | _ => raise AttributeError "object has no attribute 'get'" end.
Definition _as_plain_dict (v : value) : result dict :=
  match v with
  | VDict d => Ok d
  | _ => raise MigrationVerificationError "Milvus returned an unsupported entity type"
  end.
(** The entries of [d] under [keys], in the order of [keys]. *)
Definition pick (keys : list string) (d : dict) : dict :=
  flat_map (fun k => match dlookup k d with Some v => [(k, v)] | None => [] end) keys.
Definition FIELD_KEYS : list string :=
  ["description"; "is_primary"; "is_partition_key"; "is_clustering_key"; "nullable"; "default_value"; "auto_id"].
Definition entry_text (k : string) (d : dict) : string := py_str (vor (dget k d) (VStr "")).
Definition _normalize_field (v : value) : result dict :=
  field ← mapping v;
  t ← py_int (dget_or "type" (VInt 0) field);
  params ← params_dict (dget "params" field);
  Ok ([("name", VStr (entry_text "name" field)); ("type", VInt t); ("params", VDict params)] ++
      pick (FIELD_KEYS ++ ["element_type"]) field).
Definition canonical_schema (description : dict) : result (bool * bool * list dict) :=
  if truthy (dget "functions" description)
  then raise MigrationStateError "Milvus schema functions aren't supported by the private collection migration executor"
  else match dget "fields" description with
  | VList (f :: fs) =>
      fields ← mapM_r _normalize_field (f :: fs);
      Ok (truthy (dget_or "auto_id" (VBool false) description),
          truthy (dget_or "enable_dynamic_field" (VBool false) description), fields)
  | _ => raise MigrationVerificationError "Milvus collection has no readable fields"
  end.
Definition schema_value (schema : bool * bool * list dict) : value :=
  let '(auto_id, dynamic, fields) := schema in
  VDict [("auto_id", VBool auto_id); ("enable_dynamic_field", VBool dynamic); ("fields", VList (map VDict fields))].

Definition _RUNTIME_INDEX_FIELDS : list string :=
  ["state"; "total_rows"; "indexed_rows"; "pending_index_rows"; "index_state_fail_reason"; "fail_reason"; "index_id";
   "indexID"; "build_id"; "collection_name"; "created_timestamp"; "updated_timestamp"].
Definition _INDEX_IDENTITY_FIELDS : list string := ["field_name"; "index_name"; "index_type"; "metric_type"].
Definition _FINISHED_INDEX_STATES : list string := ["3"; "finished"; "indexstatefinished"].
Definition config_key (k : string) : bool :=
  negb (is_in k _RUNTIME_INDEX_FIELDS) && negb (is_in k _INDEX_IDENTITY_FIELDS) && negb (k =? "params")%string.
Record index_config := IndexConfig {
  i_field : string; i_name : string; i_type : string; i_metric : string; i_params : dict }.
Definition _index_config (description : dict) : result index_config :=
  params ← params_dict (dget "params" description);
  let params := dmerge params (List.filter (fun kv => config_key (fst kv)) description) in
  Ok (IndexConfig (entry_text "field_name" description) (entry_text "index_name" description)
        (entry_text "index_type" description) (entry_text "metric_type" description) params).
Definition config_value (c : index_config) : value :=
  VDict [("field_name", VStr (i_field c)); ("index_name", VStr (i_name c)); ("index_type", VStr (i_type c));
         ("metric_type", VStr (i_metric c)); ("params", VDict (i_params c))].
Definition config_leb (a b : index_config) : bool :=
  match String.compare (i_field a) (i_field b) with
  | Lt => true | Gt => false
  | Eq => match String.compare (i_name a) (i_name b) with Gt => false | _ => true end
  end.
Definition _index_is_ready (description : dict) : result bool :=
  let state := lower (replace "." "" (replace "_" "" (py_str (dget_or "state" (VStr "") description)))) in
  if negb (is_in state _FINISHED_INDEX_STATES) && negb (endswith state "finished") then Ok false
  else if truthy (vor (dget "index_state_fail_reason" description) (dget "fail_reason" description)) then Ok false else
  behind ← match dget "pending_index_rows" description with VNone => Ok false | v => n ← py_int v; Ok (negb (n =? 0)) end;
  if (behind : bool) then Ok false else
  match dget "total_rows" description, dget "indexed_rows" description with
  | VNone, _ | _, VNone => Ok true
  | t, i => total ← py_int t; indexed ← py_int i; Ok (total =? indexed)
  end.
Fixpoint all_ready (l : list dict) : result bool :=
  match l with
  | [] => Ok true
  | d :: l => ready ← _index_is_ready d; if (ready : bool) then all_ready l else Ok false
  end.
Definition _allow_insert_auto_id_value (description : dict) : result string :=
  let v := dget "properties" description in
  properties ← (if truthy v then mapping v else Ok []);
  let value := dget_or "allow_insert_auto_id" (VStr "false") properties in
  Ok (if is_in (lower (strip (py_str value))) ["1"; "true"; "yes"] then "true" else "false").

Record CollectionSnapshot := Snapshot {
  count : Z; schema_fingerprint : string; index_fingerprint : string; indexes_ready : bool;
  primary_field : string; auto_id : bool; allow_insert_auto_id : string }.
#[export] Instance snapshot_eq_dec : EqDecision CollectionSnapshot.
Proof. solve_decision. Defined.
(** [field["name"]] of the fields that are primary. *)
Definition primary_fields (fields : list dict) : list string :=
  flat_map (fun f => if truthy (dget "is_primary" f) then [entry_text "name" f] else []) fields.

Section Inspect.
Context {S : Type} `{!Milvus S}.
(** [sorted(...)], then one description per index. *)
Definition _describe_indexes (collection_name : string) : eff S (list dict) :=
  names ← list_indexes collection_name;
  let names := stable_sort str_leb (map py_str names) in
  match names with
  | [] => throw MigrationVerificationError ("collection '" +++ collection_name +++ "' has no indexes to verify")
  | _ => mapE (describe_index collection_name) names
  end.
(** The name of the count column. *)
Definition COUNT_ALL : string := "count(" +++ String "*" ")".
Definition count_of (row : dict) : option value :=
  match pick [COUNT_ALL; "count"; "row_count"] row with (_, v) :: _ => Some v | [] => None end.
Definition _strong_count (collection_name : string) : eff S Z :=
  _ ← load_collection collection_name;
  result ← query_count collection_name;
  match result with
  | VList [r] =>
      row ← lift (_as_plain_dict r);
      match count_of row with
      | Some v =>
          n ← lift (py_int v);
          if n <? 0
          then throw MigrationVerificationError ("collection '" +++ collection_name +++ "' returned an invalid strong count")
          else mret n
      | None => throw MigrationVerificationError ("collection '" +++ collection_name +++ "' returned an invalid strong count")
      end
  | _ => throw MigrationVerificationError ("collection '" +++ collection_name +++ "' didn't return one strong count result")
  end.
Definition inspect_collection (collection_name : string) : eff S CollectionSnapshot :=
  description ← describe_collection collection_name;
  schema ← lift (canonical_schema description);
  match primary_fields (snd schema) with
  | [primary] =>
      indexes ← _describe_indexes collection_name;
      configs ← lift (mapM_r _index_config indexes);
      let configs := stable_sort config_leb configs in
      n ← _strong_count collection_name;
      schema_print ← lift (_fingerprint (schema_value schema));
      index_print ← lift (_fingerprint (VList (map config_value configs)));
      ready ← lift (all_ready indexes);
      allow ← lift (_allow_insert_auto_id_value description);
      mret (Snapshot n schema_print index_print ready primary (fst (fst schema)) allow)
  | _ => throw MigrationVerificationError ("collection '" +++ collection_name +++ "' must have exactly one primary field")
  end.
End Inspect.

(** ** The operation *)
Record MigrationResult := Result {
  r_state : string; r_migration_id : string; r_subject : string; r_legacy : string; r_current : string;
  r_source_count : Z; r_target_count : Z; r_already : bool }.
(** A number of seconds: in nanoseconds, and as [{:g}] writes it. *)
Record seconds := Seconds { ns : Z; g_text : string }.
Definition SECOND : Z := 1000000000.
Definition PAUSE : Z := SECOND / 4.

Definition verify_operator (provided_token expected_token operator_id : string) : result unit :=
  if (strip operator_id =? "")%string then raise OperatorAuthenticationError "operator_id is required"
  else if ulen expected_token <? 32
  then raise OperatorAuthenticationError "MILVUS_MIGRATION_OPERATOR_TOKEN must contain at least 32 characters" else
  same ← compare_digest provided_token expected_token;
  if (same : bool) then Ok tt else raise OperatorAuthenticationError "invalid migration operator credential".
(** [[item.strip() for item in l if item.strip()]]. *)
Definition stripped (l : list string) : list string :=
  List.filter (fun s => negb (s =? "")%string) (map strip l).
Definition occurrences (s : string) (l : list string) : nat := length (List.filter (String.eqb s) l).
Definition assert_unambiguous_owner (subject : string) (known_subjects : list string) (base : string)
  : result (string * string) :=
  let subject := strip subject in
  let inventory := stripped known_subjects in
  if (subject =? "")%string || negb (Nat.eqb (occurrences subject inventory) 1)
  then raise AmbiguousLegacyOwnershipError
         "the subject must appear exactly once in the authenticated-subject inventory" else
  plan ← try_except (plan_user_collection_migrations inventory (Some base)) [ValueError]
           (fun e => raise AmbiguousLegacyOwnershipError (exn_msg e));
  names ← user_collection_migration_names (Some subject) (Some base);
  let '(legacy, current) := names in
  if bool_decide (hlookup legacy plan = Some current) then Ok (legacy, current)
  else raise AmbiguousLegacyOwnershipError
         ("legacy collection '" +++ legacy +++ "' isn't uniquely owned by '" +++ subject +++ "'").
Definition _matching_events (events : list dict) (subject legacy current : string) : list dict :=
  List.filter (fun e => py_eq (dget "subject" e) (VStr subject) && py_eq (dget "legacy_collection" e) (VStr legacy) &&
                        py_eq (dget "current_collection" e) (VStr current)) events.
Definition _inventory_fingerprint (known_subjects : list string) : result string :=
  _fingerprint (VList (map VStr (stable_sort str_leb (stripped known_subjects)))).
(** [a and b] of results. *)
Definition and_then (a b : result bool) : result bool := x ← a; if (x : bool) then b else Ok false.
Definition _snapshot_matches_marker (s : CollectionSnapshot) (marker : dict) (prefix : string) (allow_count_growth : bool)
  : result bool :=
  let eq (text key : string) := v ← dgetitem (prefix +++ key) marker; Ok (py_eq (VStr text) v) in
  v ← dgetitem (prefix +++ "_count") marker;
  expected ← py_int v;
  and_then (Ok (if allow_count_growth then expected <=? count s else count s =? expected))
    (and_then (eq (schema_fingerprint s) "_schema_fingerprint")
      (and_then (eq (index_fingerprint s) "_index_fingerprint")
        (and_then (eq (allow_insert_auto_id s) "_allow_insert_auto_id") (Ok (indexes_ready s))))).
(** The entries of a marker that describe a snapshot. *)
Definition snapshot_entries (prefix : string) (s : CollectionSnapshot) : dict :=
  [(prefix +++ "_count", VInt (count s)); (prefix +++ "_schema_fingerprint", VStr (schema_fingerprint s));
   (prefix +++ "_index_fingerprint", VStr (index_fingerprint s));
   (prefix +++ "_allow_insert_auto_id", VStr (allow_insert_auto_id s))].
Definition INSERT_MISSING : string := "primary-key-insert-missing".
Definition UPSERT : string := "primary-key-upsert".

(** ** Rows by primary key *)
(** A Python dictionary with any hashable keys, equal keys being one. *)
Abbreviation table := (list (value * dict)).
Definition hashable_key (k : value) : result value :=
  match k with VList _ | VDict _ => raise TypeError "unhashable type" | _ => Ok k end.
Fixpoint tset (k : value) (row : dict) (t : table) : table :=
  match t with
  | [] => [(k, row)]
  | (k', r') :: t => if py_eq k k' then (k', row) :: t else (k', r') :: tset k row t
  end.
Fixpoint tget (k : value) (t : table) : option dict :=
  match t with [] => None | (k', r) :: t => if py_eq k k' then Some r else tget k t end.
(** [{entity[primary]: entity ...}] over rows as the client returns them. *)
Fixpoint table_go (primary : string) (acc : table) (rows : list value) : result table :=
  match rows with
  | [] => Ok acc
  | v :: rows =>
      entity ← _as_plain_dict v;
      k ← dgetitem primary entity;
      k ← hashable_key k;
      table_go primary (tset k entity acc) rows
  end.
Definition table_of (primary : string) (rows : list value) : result table := table_go primary [] rows.
Definition row_eq (a b : dict) : bool := py_eq (VDict a) (VDict b).
(** [a == b] of two tables. *)
Definition table_eq (a b : table) : bool :=
  Nat.eqb (length a) (length b) &&
  forallb (fun kr => match tget (fst kr) b with Some r => row_eq (snd kr) r | None => false end) a.
(** The rows of [expected] that [existing] lacks. *)
Definition missing_rows (expected existing : table) : list dict :=
  flat_map (fun kr => match tget (fst kr) existing with Some _ => [] | None => [snd kr] end) expected.
Definition conflicts (expected existing : table) : bool :=
  existsb (fun kr => match tget (fst kr) expected with Some r => negb (row_eq r (snd kr)) | None => true end) existing.

Definition type_name (e : exn) : string :=
  match exn_cls e with
  | Exception_ => "Exception" | ValueError => "ValueError" | TypeError => "TypeError" | KeyError => "KeyError"
  | AttributeError => "AttributeError" | IndexError => "IndexError" | OverflowError => "OverflowError"
  | RuntimeError => "RuntimeError" | JSONDecodeError => "JSONDecodeError" | ConnectionError_ => "ConnectionError"
  | PermissionError => "PermissionError" | FileNotFoundError => "FileNotFoundError" | OSError => "OSError"
  | TimeoutError_ => "TimeoutError" | AssertionError => "AssertionError"
  | MigrationStateError => "MigrationStateError" | MigrationVerificationError => "MigrationVerificationError"
  | OperatorAuthenticationError => "OperatorAuthenticationError"
  | AmbiguousLegacyOwnershipError => "AmbiguousLegacyOwnershipError"
  | _ => "Exception"
  end.

Section Run.
Context {S_ : Type} `{!Milvus S_} (o : outside).
Abbreviation W := (mworld S_).
Definition client {A} (m : eff S_ A) : eff W A := fun w =>
  let '(r, s) := m (m_store w) in (r, MWorld s (m_file w) (m_time w) (m_uses w)).
Definition monotonic : eff W Z :=
  d ← ask (elapse o);
  _ ← modify (fun w : W => MWorld (m_store w) (m_file w) (m_time w + d) (m_uses w));
  gets m_time.
Definition pause_for (d : Z) : eff W unit := modify (fun w => MWorld (m_store w) (m_file w) (m_time w + d) (m_uses w)).
Definition operation_lock {A} (m : eff W A) : eff W A :=
  free ← ask (lock_free o);
  if (free : bool) then m else throw MigrationStateError "another migration command owns this audit-state lock".

(** ** Waiting *)
(** One look, then a pause until the deadline: [look] returns the result, the
    error to report if time runs out, or raises at once. *)
Fixpoint wait_loop {A} (fuel : nat) (deadline : Z) (give : exn -> exn) (look : eff W (A + exn)) : eff W A :=
  match fuel with
  | O => throw AssertionError "the deadline never came"
  | S fuel =>
      seen ← look;
      match seen with
      | inl a => mret a
      | inr last_error =>
          now ← monotonic;
          let remaining := deadline - now in
          if remaining <=? 0 then rethrow (give last_error) else
          _ ← pause_for (Z.min PAUSE remaining);
          wait_loop fuel deadline give look
      end
  end.
Definition pauses (timeout : seconds) : nat := Z.to_nat (ns timeout / PAUSE + 3).
Definition wait_until {A} (fuel : nat) (timeout : seconds) (give : exn -> exn) (look : eff W (A + exn)) : eff W A :=
  start ← monotonic;
  wait_loop fuel (start + ns timeout) give look.
Definition not_ready (collection_name : string) : exn :=
  Exn MigrationVerificationError ("collection '" +++ collection_name +++ "' indexes aren't ready").
Definition ready_look (collection_name : string) : eff W (CollectionSnapshot + exn) :=
  catch (snapshot ← client (inspect_collection collection_name);
         mret (if indexes_ready snapshot then inl snapshot else inr (not_ready collection_name)))
    [Exception_] (fun e => mret (inr e)).
Definition ready_wait (fuel : nat) (collection_name : string) (timeout : seconds) : eff W CollectionSnapshot :=
  wait_until fuel timeout
    (fun e => Exn MigrationVerificationError ("collection '" +++ collection_name +++
       "' didn't become verification-ready within " +++ g_text timeout +++ " seconds: " +++ exn_msg e))
    (ready_look collection_name).
Definition _wait_for_ready_snapshot (collection_name : string) (timeout : seconds) : eff W CollectionSnapshot :=
  ready_wait (pauses timeout) collection_name timeout.
Definition verification_error {A} (msg : string) : eff W A := throw MigrationVerificationError msg.
Definition counts_text (source target : Z) : string :=
  "source=" +++ str_of_Z source +++ ", target=" +++ str_of_Z target.
Definition post_copy_look (source_name target_name : string) (expected : CollectionSnapshot) (allow : string)
  : eff W ((CollectionSnapshot * CollectionSnapshot) + exn) :=
  source ← client (inspect_collection source_name);
  target ← client (inspect_collection target_name);
  if negb (bool_decide (source = expected))
  then verification_error "legacy source changed while the migration was running"
  else if negb (schema_fingerprint target =? schema_fingerprint expected)%string
          || negb (index_fingerprint target =? index_fingerprint expected)%string
  then verification_error "target schema or index configuration changed during migration"
  else if negb (allow_insert_auto_id target =? allow)%string
  then verification_error "target allow_insert_auto_id policy wasn't restored"
  else if count expected <? count target
  then verification_error ("row-count verification failed: " +++ counts_text (count expected) (count target))
  else if (count target =? count expected) && indexes_ready target then mret (inl (source, target))
  else mret (inr (Exn MigrationVerificationError
    ("row-count/index verification pending: " +++ counts_text (count expected) (count target) +++
     ", indexes_ready=" +++ py_str (VBool (indexes_ready target))))).
Definition verified_look (source_name target_name : string) (expected : CollectionSnapshot) (allow : string)
  : eff W ((CollectionSnapshot * CollectionSnapshot) + exn) :=
  catch (post_copy_look source_name target_name expected allow) [Exception_]
    (fun e => if exn_isa (exn_cls e) MigrationVerificationError && negb (contains (exn_msg e) "pending:")
              then rethrow e else mret (inr e)).
Definition verified_wait (fuel : nat) (source_name target_name : string) (expected : CollectionSnapshot)
  (allow : string) (timeout : seconds) : eff W (CollectionSnapshot * CollectionSnapshot) :=
  wait_until fuel timeout
    (fun e => Exn MigrationVerificationError
       ("row-count verification failed within " +++ g_text timeout +++ " seconds: " +++ exn_msg e))
    (verified_look source_name target_name expected allow).
Definition _wait_for_post_copy_verification (source_name target_name : string) (expected : CollectionSnapshot)
  (allow : string) (timeout : seconds) : eff W (CollectionSnapshot * CollectionSnapshot) :=
  verified_wait (pauses timeout) source_name target_name expected allow timeout.

(** ** Copying *)
Definition field_kwargs (field : dict) : result dict :=
  params ← params_dict (dget "params" field);
  let kwargs := dmerge params (pick FIELD_KEYS field) in
  let element_type := dget "element_type" field in
  kwargs ← (if truthy element_type
            then n ← py_int element_type; t ← data_type n; Ok (dset "element_type" (VInt t) kwargs)
            else Ok kwargs);
  name ← dgetitem "name" field;
  n ← (v ← dgetitem "type" field; py_int v);
  t ← data_type n;
  if dmem "field_name" kwargs || dmem "datatype" kwargs
  then raise TypeError "add_field() got multiple values for keyword argument"
  else Ok ([("field_name", name); ("datatype", VInt t)] ++ kwargs).
Fixpoint add_fields (added : list dict) (fields : list dict) : result (list dict) :=
  match fields with
  | [] => Ok added
  | f :: fields => kwargs ← field_kwargs f; added ← add_field added kwargs; add_fields added fields
  end.
Definition index_kwargs (c : index_config) : dict :=
  let params := ddel "dim" (i_params c) in
  [("field_name", VStr (i_field c)); ("index_name", VStr (i_name c)); ("index_type", VStr (i_type c))] ++
  (if (i_metric c =? "")%string then [] else [("metric_type", VStr (i_metric c))]) ++
  (match params with [] => [] | _ => [("params", VDict params)] end).
Fixpoint add_indexes (added : list dict) (indexes : list dict) : result (list dict) :=
  match indexes with
  | [] => Ok added
  | d :: indexes => c ← _index_config d; added ← add_index added (index_kwargs c); add_indexes added indexes
  end.
(** [value not in (None, {}, "")]. *)
Definition given_option (v : value) : bool := negb (py_eq v VNone || py_eq v (VDict []) || py_eq v (VStr "")).
Definition clone_options (description : dict) (fields : list dict) : result dict :=
  let options := flat_map (fun k => let v := dget k description in if given_option v then [(k, v)] else [])
                   ["num_shards"; "consistency_level"; "properties"] in
  let partitions := dget "num_partitions" description in
  if existsb (fun f => truthy (dget "is_partition_key" f)) fields && truthy partitions
  then n ← py_int partitions; Ok (options ++ [("num_partitions", VInt n)])
  else Ok options.
Definition _clone_collection (source_name target_name : string) : eff S_ unit :=
  description ← describe_collection source_name;
  schema ← lift (canonical_schema description);
  let '(auto_id, dynamic, fields) := schema in
  added ← lift (add_fields [] fields);
  indexes ← _describe_indexes source_name;
  params ← lift (add_indexes [] indexes);
  options ← lift (clone_options description fields);
  create_collection (CreateRequest target_name auto_id dynamic (entry_text "description" description) added params options).

Definition _preserve_auto_ids {A} (collection_name : string) (auto_id : bool) (restore_value : string) (body : eff W A)
  : eff W A :=
  if negb auto_id then body else
  description ← client (describe_collection collection_name);
  current ← lift (_allow_insert_auto_id_value description);
  _ ← (if negb (current =? "true")%string then client (alter_allow_insert collection_name "true") else mret tt);
  finally body (client (alter_allow_insert collection_name restore_value)).

Definition fetch_table (collection_name primary : string) (ids : list value) : eff S_ table :=
  rows ← get_rows collection_name ids;
  lift (table_of primary rows).
Definition copy_batch (target_name primary : string) (auto_id : bool) (batch : list value) : eff S_ Z :=
  entities ← lift (mapM_r _as_plain_dict batch);
  if existsb (fun e => negb (dmem primary e)) entities
  then throw MigrationVerificationError ("source batch omitted primary field '" +++ primary +++ "'") else
  expected ← lift (table_of primary (map VDict entities));
  if negb (Nat.eqb (length expected) (length entities))
  then throw MigrationVerificationError "source batch has duplicate primary IDs" else
  let ids := map fst expected in
  _ ← (if auto_id then
         existing ← fetch_table target_name primary ids;
         if conflicts expected existing
         then throw MigrationVerificationError "target primary ID already contains different source data" else
         match missing_rows expected existing with
         | [] => mret tt
         | missing => insert_rows target_name missing
         end
       else upsert_rows target_name entities);
  actual ← fetch_table target_name primary ids;
  if negb (table_eq actual expected)
  then throw MigrationVerificationError "copied batch failed primary-ID and content verification"
  else mret (Z.of_nat (length entities)).
Fixpoint copy_loop (fuel : nat) (it : cursor) (target_name primary : string) (auto_id : bool) (copied : Z) : eff S_ Z :=
  match fuel with
  | O => mret copied
  | S fuel =>
      batch ← next_batch it;
      match batch with
      | [] => mret copied
      | _ => n ← copy_batch target_name primary auto_id batch;
             copy_loop fuel it target_name primary auto_id (copied + n)
      end
  end.
Definition _copy_batches (source_name target_name primary : string) (batch_size : Z) (auto_id : bool) : eff S_ Z :=
  it ← query_iterator source_name batch_size;
  n ← gets (left it);
  finally (copy_loop (S n) it target_name primary auto_id 0) (suppress [Exception_] (close_cursor it)).

(** ** Migrating *)
Record operator_request := Request {
  q_subject : string; q_known : list string; q_operator : string; q_token : string; q_base : string }.
Definition _authorize (expected_token : string) (q : operator_request) (subject : string) : result (string * string) :=
  _ ← verify_operator (q_token q) expected_token (q_operator q);
  assert_unambiguous_owner subject (q_known q) (q_base q).
(** What every step of one migration knows. *)
Record job_names := Names { n_subject : string; n_legacy : string; n_current : string; n_operator : string; n_inventory : string }.
Definition event_head (event migration_id : string) (n : job_names) : dict :=
  [("event", VStr event); ("migration_id", VStr migration_id); ("operator_id", VStr (n_operator n));
   ("subject", VStr (n_subject n)); ("legacy_collection", VStr (n_legacy n));
   ("current_collection", VStr (n_current n))].
Definition inventory_entry (n : job_names) : dict := [("subject_inventory_fingerprint", VStr (n_inventory n))].
Definition event_is (name : string) (e : dict) : result bool :=
  v ← dgetitem "event" e; Ok (py_eq v (VStr name)).
Definition is_latest (name : string) (latest : option dict) : result bool :=
  match latest with Some e => event_is name e | None => Ok false end.
(** The first of [events] that satisfies a test that may raise. *)
Fixpoint first_event (f : dict -> result bool) (events : list dict) : result (option dict) :=
  match events with
  | [] => Ok None
  | e :: rest => yes ← f e; if (yes : bool) then Ok (Some e) else first_event f rest
  end.
Definition find_started (events : list dict) (latest : option dict) : result (option dict) :=
  first_event (fun e =>
    and_then (event_is "migration_started" e)
      (Ok (match latest with
           | None => true
           | Some l => py_eq (dget "migration_id" e) (dget "migration_id" l)
           end))) (rev events).
Definition copied_with (auto_id : bool) : string := if auto_id then INSERT_MISSING else UPSERT.

Definition check_verified (n : job_names) (latest : dict) : eff W MigrationResult :=
  source ← client (inspect_collection (n_legacy n));
  target ← client (inspect_collection (n_current n));
  if auto_id source && negb (py_eq (dget "copied_with" latest) (VStr INSERT_MISSING))
  then throw MigrationStateError "legacy AutoID upsert verification requires operator review of the copied primary IDs before reuse" else
  same ← lift (_snapshot_matches_marker source latest "source" false);
  if negb same then verification_error "verified legacy source changed after migration" else
  grown ← lift (_snapshot_matches_marker target latest "target" true);
  if negb grown then verification_error "verified target schema, index, or minimum count changed" else
  id ← lift (dgetitem "migration_id" latest);
  mret (Result "verified" (py_str id) (n_subject n) (n_legacy n) (n_current n) (count source) (count target) true).

(** The migration to go on with: its identifier, the target's policy and its
    [migration_started] record. *)
Definition resume (n : job_names) (source : CollectionSnapshot) (started : dict) : eff W (string * string * dict) :=
  if negb (py_eq (dget "subject_inventory_fingerprint" started) (VStr (n_inventory n)))
  then throw MigrationStateError "an incomplete migration can resume only with its original authenticated-subject inventory" else
  same ← lift (_snapshot_matches_marker source started "source" false);
  if negb same then verification_error "legacy source changed during an incomplete migration" else
  id ← lift (dgetitem "migration_id" started);
  allow ← lift (dgetitem "target_allow_insert_auto_id" started);
  mret (py_str id, py_str allow, started).
Definition begin (n : job_names) (source : CollectionSnapshot) : eff W (string * string * dict) :=
  exists_ ← client (has_collection (n_current n));
  allow ← (if (exists_ : bool) then
             before ← client (inspect_collection (n_current n));
             if negb (count before =? 0)
             then throw MigrationStateError "hashed target already contains data and has no matching migration marker"
             else if negb (schema_fingerprint before =? schema_fingerprint source)%string
                     || negb (index_fingerprint before =? index_fingerprint source)%string
                     || negb (indexes_ready before)
             then verification_error "empty hashed target doesn't match the legacy schema/index contract"
             else mret (allow_insert_auto_id before)
           else mret (allow_insert_auto_id source));
  id ← ask (new_uuid o);
  started ← AuditLog.append o
    (event_head "migration_started" id n ++ [("target_existed", VBool exists_)] ++ snapshot_entries "source" source ++
     [("target_allow_insert_auto_id", VStr allow); ("copied_with", VStr (copied_with (auto_id source)))] ++ inventory_entry n);
  mret (id, allow, started).
(** The new strategy is recorded before an empty target of an old migration is
    filled with it. *)
Definition restate_strategy (source before : CollectionSnapshot) (started : dict) : eff W unit :=
  if auto_id source && negb (py_eq (dget "copied_with" started) (VStr INSERT_MISSING)) then
    if negb (count before =? 0)
    then throw MigrationStateError "nonempty legacy AutoID partial target requires operator review of its primary IDs before resuming"
    else
      _ ← AuditLog.append o (dset "copied_with" (VStr INSERT_MISSING)
            (List.filter (fun kv => negb (fst kv =? "event_hash")%string) started));
      mret tt
  else mret tt.
Definition copy_and_verify (n : job_names) (source : CollectionSnapshot) (allow : string) (started : dict) (batch_size : Z)
  (timeout : seconds) : eff W (Z * CollectionSnapshot * CollectionSnapshot) :=
  exists_ ← client (has_collection (n_current n));
  _ ← (if (exists_ : bool) then mret tt else client (_clone_collection (n_legacy n) (n_current n)));
  before ← _wait_for_ready_snapshot (n_current n) timeout;
  if negb (schema_fingerprint before =? schema_fingerprint source)%string
     || negb (index_fingerprint before =? index_fingerprint source)%string || negb (indexes_ready before)
  then verification_error "hashed target doesn't match the legacy schema/index contract"
  else if count source <? count before
  then verification_error "hashed target contains more rows than the recorded legacy source" else
  _ ← restate_strategy source before started;
  rows ← _preserve_auto_ids (n_current n) (auto_id source) allow
           (client (_copy_batches (n_legacy n) (n_current n) (primary_field source) batch_size (auto_id source)));
  after ← _wait_for_post_copy_verification (n_legacy n) (n_current n) source allow timeout;
  mret (rows, fst after, snd after).
Definition record_failure (n : job_names) (id allow : string) (e : exn) : eff W dict :=
  AuditLog.append o (event_head "migration_failed" id n ++ inventory_entry n ++
    [("target_allow_insert_auto_id", VStr allow); ("error_type", VStr (type_name e));
     ("error", VStr (utake 500 (exn_msg e)))]).
Definition record_verified (n : job_names) (id : string) (source : CollectionSnapshot)
  (done_ : Z * CollectionSnapshot * CollectionSnapshot) : eff W dict :=
  let '(rows, source_after, target_after) := done_ in
  AuditLog.append o (event_head "migration_verified" id n ++ inventory_entry n ++
    snapshot_entries "source" source_after ++ snapshot_entries "target" target_after ++
    [("copied_with", VStr (copied_with (auto_id source))); ("rows_processed", VInt rows);
     ("source_auto_id", VBool (auto_id source))]).
Definition run_migration (n : job_names) (events : list dict) (latest : option dict) (batch_size : Z) (timeout : seconds)
  : eff W MigrationResult :=
  there ← client (has_collection (n_legacy n));
  if negb (there : bool) then throw MigrationStateError ("legacy collection '" +++ n_legacy n +++ "' doesn't exist") else
  source ← client (inspect_collection (n_legacy n));
  if negb (indexes_ready source) then verification_error "legacy source indexes aren't ready" else
  found ← lift (find_started events latest);
  plan ← match found with Some started => resume n source started | None => begin n source end;
  let '(id, allow, started) := plan in
  done_ ← catch (copy_and_verify n source allow started batch_size timeout) [Exception_]
            (fun e => _ ← record_failure n id allow e; rethrow e);
  verified ← record_verified n id source done_;
  vid ← lift (dgetitem "migration_id" verified);
  mret (Result "verified" (py_str vid) (n_subject n) (n_legacy n) (n_current n)
          (count (snd (fst done_))) (count (snd done_)) false).
Definition matching (n : job_names) : eff W (list dict) :=
  records ← AuditLog.read;
  mret (_matching_events records (n_subject n) (n_legacy n) (n_current n)).
Definition _migrate_locked (expected_token : string) (q : operator_request) (batch_size : Z) (timeout : seconds)
  : eff W MigrationResult :=
  if (batch_size <? 1) || (5000 <? batch_size)
  then throw MigrationStateError "batch_size must be between 1 and 5000"
  else if negb ((0 <? ns timeout) && (ns timeout <=? 1800 * SECOND))
  then throw MigrationStateError "verification_timeout_seconds must be greater than 0 and at most 1800" else
  let subject := strip (q_subject q) in
  names ← lift (_authorize expected_token q subject);
  inventory ← lift (_inventory_fingerprint (q_known q));
  let n := Names subject (fst names) (snd names) (strip (q_operator q)) inventory in
  events ← matching n;
  let latest := last events in
  rolled_back ← lift (is_latest "migration_rolled_back" latest);
  if (rolled_back : bool)
  then throw MigrationStateError "migration was rolled back; a new migration requires an operator review and a separate audit log" else
  verified ← lift (is_latest "migration_verified" latest);
  match latest with
  | Some l => if (verified : bool) then check_verified n l else run_migration n events latest batch_size timeout
  | None => run_migration n events latest batch_size timeout
  end.
Definition migrate (expected_token : string) (q : operator_request) (batch_size : Z) (timeout : seconds) : eff W MigrationResult :=
  operation_lock (_migrate_locked expected_token q batch_size timeout).

(** ** Rolling back *)
Definition marker_result (n : job_names) (marker : dict) : result MigrationResult :=
  id ← dgetitem "migration_id" marker;
  s ← (v ← dgetitem "source_count" marker; py_int v);
  t ← (v ← dgetitem "target_count" marker; py_int v);
  Ok (Result "rolled_back" (py_str id) (n_subject n) (n_legacy n) (n_current n) s t true).
Definition roll_back_verified (n : job_names) (verified : dict) (reason : string) : eff W MigrationResult :=
  legacy_there ← client (has_collection (n_legacy n));
  both ← (if (legacy_there : bool) then client (has_collection (n_current n)) else mret false);
  if negb both then verification_error "both legacy and hashed collections must exist for rollback" else
  source ← client (inspect_collection (n_legacy n));
  target ← client (inspect_collection (n_current n));
  same ← lift (_snapshot_matches_marker source verified "source" false);
  if negb same then verification_error "legacy rollback source changed after migration" else
  grown ← lift (_snapshot_matches_marker target verified "target" true);
  if negb grown then verification_error "hashed target isn't in a verified rollback-safe state" else
  id ← lift (dgetitem "migration_id" verified);
  marker ← AuditLog.append o
    (event_head "migration_rolled_back" (py_str id) n ++ inventory_entry n ++ snapshot_entries "source" source ++
     snapshot_entries "target" target ++ [("reason", VStr (strip reason)); ("data_action", VStr "none")]);
  mid ← lift (dgetitem "migration_id" marker);
  mret (Result "rolled_back" (py_str mid) (n_subject n) (n_legacy n) (n_current n) (count source) (count target) false).
Definition _rollback_locked (expected_token : string) (q : operator_request) (reason : string) : eff W MigrationResult :=
  let subject := strip (q_subject q) in
  inventory ← lift (_inventory_fingerprint (q_known q));
  if ulen (strip reason) <? 10
  then throw MigrationStateError "rollback reason must contain at least 10 characters" else
  names ← lift (_authorize expected_token q subject);
  let n := Names subject (fst names) (snd names) (strip (q_operator q)) inventory in
  events ← matching n;
  done_ ← lift (is_latest "migration_rolled_back" (last events));
  match last events with
  | Some marker =>
      if (done_ : bool) then lift (marker_result n marker) else
      verified ← lift (first_event (event_is "migration_verified") (rev events));
      active ← lift (match verified with Some _ => event_is "migration_verified" marker | None => Ok false end);
      match verified with
      | Some v => if (active : bool) then roll_back_verified n v reason
                  else throw MigrationStateError "there is no active verified migration to roll back"
      | None => throw MigrationStateError "there is no active verified migration to roll back"
      end
  | None => throw MigrationStateError "there is no active verified migration to roll back"
  end.
Definition rollback (expected_token : string) (q : operator_request) (reason : string) : eff W MigrationResult :=
  operation_lock (_rollback_locked expected_token q reason).
End Run.
