(* ===== verification/MigrationLaws.v ===== *)
(** * Laws of the migration

    What a migration can touch, what its success means, and that it ends. *)
From S2P Require Import Prelude PyStr PyFloat PyVal Json JsonRoundtrip Redis Sha Dedupe WorkerOps Identity.
From S2P Require Import Tokens Gate Collections CollectionLaws Documents DocumentTool AuditLog Migration.
#[local] Open Scope Z_scope.

(** ** What the client's calls may change
    A call that reads changes no collection; a call that writes changes the
    one it names. *)
Class MilvusFrame (S : Type) `{!Milvus S} (Data : Type) := {
  content : S -> string -> Data;
  reads {A} (m : eff S A) : Prop := forall s r s', m s = (r, s') -> forall n, content s' n = content s n;
  writes {A} (n : string) (m : eff S A) : Prop :=
    forall s r s', m s = (r, s') -> forall n', n' <> n -> content s' n' = content s n';
  has_reads n : reads (has_collection n);
  describe_reads n : reads (describe_collection n);
  indexes_reads n : reads (list_indexes n);
  index_reads n i : reads (describe_index n i);
  load_reads n : reads (load_collection n);
  count_reads n : reads (query_count n);
  iterator_reads n b : reads (query_iterator n b);
  next_reads it : reads (next_batch it);
  close_reads it : reads (close_cursor it);
  get_reads n ids : reads (get_rows n ids);
  create_writes q : writes (c_name q) (create_collection q);
  alter_writes n v : writes n (alter_allow_insert n v);
  insert_writes n l : writes n (insert_rows n l);
  upsert_writes n l : writes n (upsert_rows n l) }.

Section Frame.
Context {S_ Data : Type} `{!Milvus S_} `{!MilvusFrame S_ Data} (o : outside).
Abbreviation W := (mworld S_).
(** Only the collections in [P] have changed. *)
Definition changed (P : string -> Prop) (s s' : S_) : Prop := forall n, ~ P n -> content s' n = content s n.
#[export] Instance changed_preorder P : PreOrder (changed P).
Proof.
  split; [by intros s n|]. intros s1 s2 s3 H1 H2 n Hn. by rewrite (H2 n Hn), (H1 n Hn).
Qed.
Lemma pres_reads P {A} (m : eff S_ A) : reads m -> pres (changed P) m.
Proof. intros H s r s' E n _. by eapply H. Qed.
Lemma pres_writes (P : string -> Prop) n {A} (m : eff S_ A) : P n -> writes n m -> pres (changed P) m.
Proof. intros Hn H s r s' E n' Hn'. eapply H; [done|]. intros ->. by apply Hn'. Qed.
Ltac milvus :=
  first [ apply pres_reads, has_reads | apply pres_reads, describe_reads | apply pres_reads, indexes_reads
        | apply pres_reads, index_reads | apply pres_reads, load_reads | apply pres_reads, count_reads
        | apply pres_reads, iterator_reads | apply pres_reads, next_reads | apply pres_reads, close_reads
        | apply pres_reads, get_reads ].
Ltac walk_first ::= milvus.
Lemma inspect_frame P n : pres (changed P) (inspect_collection n).
Proof. unfold inspect_collection, _describe_indexes, _strong_count. walk. Qed.
Lemma writes_in (P : string -> Prop) n {A} (m : eff S_ A) : P n -> writes n m -> pres (changed P) m.
Proof. apply pres_writes. Qed.
#[local] Hint Resolve inspect_frame : steps.
Lemma clone_frame (P : string -> Prop) src dst : P dst -> pres (changed P) (_clone_collection src dst).
Proof.
  intros HP. unfold _clone_collection, _describe_indexes. walk. apply (pres_writes P dst); [done|]. apply (create_writes (CreateRequest dst _ _ _ _ _ _)).
Qed.
Lemma fetch_frame P n k ids : pres (changed P) (fetch_table n k ids).
Proof. unfold fetch_table. walk. Qed.
#[local] Hint Resolve fetch_frame : steps.
Lemma copy_batch_frame (P : string -> Prop) dst k a batch : P dst -> pres (changed P) (copy_batch dst k a batch).
Proof.
  intros HP. unfold copy_batch. walk.
  all: apply (pres_writes P dst); [done|apply insert_writes || apply upsert_writes].
Qed.
Lemma copy_loop_frame (P : string -> Prop) fuel : forall it dst k a n, P dst -> pres (changed P) (copy_loop fuel it dst k a n).
Proof.
  induction fuel as [|fuel IH]; intros it dst k a n HP; cbn [copy_loop]; walk; by apply copy_batch_frame.
Qed.
Lemma copy_frame (P : string -> Prop) src dst k b a : P dst -> pres (changed P) (_copy_batches src dst k b a).
Proof. intros HP. unfold _copy_batches, suppress. walk. by apply copy_loop_frame. Qed.

(** ** The whole process: one collection and a log that grows *)
Definition log_grows (w w' : W) : Prop :=
  m_file w' = m_file w \/ exists p, m_file w' = Regular (file_bytes (m_file w) +++ p).
Definition confined (P : string -> Prop) (w w' : W) : Prop :=
  changed P (m_store w) (m_store w') /\ log_grows w w'.
#[export] Instance confined_preorder P : PreOrder (confined P).
Proof.
  split; [intros w; split; [reflexivity|by left]|]. intros w1 w2 w3 [H1 L1] [H2 L2]. split; [by etransitivity|].
  destruct L1 as [L1|[p1 L1]], L2 as [L2|[p2 L2]].
  - left. congruence. - right. exists p2. by rewrite L2, L1.
  - right. exists p1. congruence. - right. exists (p1 +++ p2). rewrite L2, L1. cbn. by rewrite append_assoc.
Qed.
Lemma confined_client P {A} (m : eff S_ A) : pres (changed P) m -> pres (confined P) (client m).
Proof.
  intros H w r w' E. unfold client in E. destruct (m (m_store w)) as [r1 s] eqn:Em. injection E as _ <-.
  split; [by eapply H|by left].
Qed.
Lemma confined_ask P {A} (f : nat -> A) : pres (confined P) (ask f).
Proof. intros w r w' E. injection E as _ <-. split; [reflexivity|by left]. Qed.
Lemma confined_append P event : pres (confined P) (AuditLog.append o event).
Proof. intros w r w' E. apply append_only in E as [Es Ef]. split; [by rewrite Es|done]. Qed.
Lemma confined_read P : pres (confined P) (AuditLog.read (S_ := S_)).
Proof. apply pres_const; [exact _|]. intros w r w' E. by injection E. Qed.
Lemma confined_monotonic P : pres (confined P) (monotonic o).
Proof. unfold monotonic. walk; [apply confined_ask|]. split; [reflexivity|by left]. Qed.
Lemma confined_sleep P d : pres (confined P) (pause_for d : eff W unit).
Proof. apply pres_modify. intros w. split; [reflexivity|by left]. Qed.
#[local] Hint Resolve confined_client confined_ask confined_append confined_read confined_monotonic confined_sleep inspect_frame : steps.
Lemma confined_wait P {A} fuel d give (look : eff W (A + exn)) :
  pres (confined P) look -> pres (confined P) (wait_loop o fuel d give look).
Proof. intros Hl. induction fuel as [|fuel IH]; cbn [wait_loop]; walk. Qed.
Lemma confined_until P {A} fuel t give (look : eff W (A + exn)) :
  pres (confined P) look -> pres (confined P) (wait_until o fuel t give look).
Proof. intros Hl. unfold wait_until. walk. by apply confined_wait. Qed.
Lemma confined_ready P n t : pres (confined P) (_wait_for_ready_snapshot o n t).
Proof. unfold _wait_for_ready_snapshot, ready_wait, ready_look. apply confined_until. walk. Qed.
Lemma confined_post_copy P s t e a ti : pres (confined P) (_wait_for_post_copy_verification o s t e a ti).
Proof. unfold _wait_for_post_copy_verification, verified_wait, verified_look, post_copy_look, verification_error. apply confined_until. walk. Qed.
#[local] Hint Resolve confined_ready confined_post_copy : steps.
Lemma confined_inspect P n : pres (confined P) (client (inspect_collection n)).
Proof. apply confined_client, inspect_frame. Qed.
Lemma confined_has P n : pres (confined P) (client (has_collection n)).
Proof. apply confined_client, pres_reads, has_reads. Qed.
#[local] Hint Resolve confined_inspect confined_has : steps.
Lemma confined_check P n l : pres (confined P) (check_verified n l).
Proof. unfold check_verified, verification_error. walk. Qed.
Lemma confined_resume P n s st : pres (confined P) (resume n s st).
Proof. unfold resume, verification_error. walk. Qed.
Lemma confined_begin P n s : pres (confined P) (begin o n s).
Proof. unfold begin, verification_error. walk. Qed.
Lemma confined_restate P s b st : pres (confined P) (restate_strategy o s b st).
Proof. unfold restate_strategy. walk. Qed.
Lemma confined_preserve (P : string -> Prop) {A} n a v (body : eff W A) : P n ->
  pres (confined P) body -> pres (confined P) (_preserve_auto_ids n a v body).
Proof.
  intros HP Hb. unfold _preserve_auto_ids. walk.
  all: apply confined_client; first [apply pres_reads, describe_reads|apply (pres_writes P n); [done|apply alter_writes]].
Qed.
#[local] Hint Resolve confined_check confined_resume confined_begin confined_restate : steps.
Lemma confined_copy (P : string -> Prop) n source allow started b t : P (n_current n) ->
  pres (confined P) (copy_and_verify o n source allow started b t).
Proof.
  intros HP. unfold copy_and_verify, verification_error. walk.
  - by apply confined_client, clone_frame.
  - apply confined_preserve; [done|]. by apply confined_client, copy_frame.
Qed.
Lemma confined_run (P : string -> Prop) n events latest b t : P (n_current n) ->
  pres (confined P) (run_migration o n events latest b t).
Proof.
  intros HP. unfold run_migration, verification_error, record_failure, record_verified. walk. by apply confined_copy.
Qed.
Lemma confined_roll_back P n v reason : pres (confined P) (roll_back_verified o n v reason).
Proof. unfold roll_back_verified, verification_error. walk. Qed.
Lemma confined_matching P n : pres (confined P) (matching (S_ := S_) n).
Proof. unfold matching. walk. Qed.
#[local] Hint Resolve confined_matching confined_roll_back : steps.

Lemma pres_run {X A} (Q : X -> X -> Prop) (m : eff X A) w r w' : m w = (r, w') -> pres Q m -> Q w w'.
Proof. intros H Hp. by eapply Hp. Qed.

(** ** Who may migrate what *)
(** Nothing was changed and the command failed. *)
Definition turned_away {A} (w w' : W) (r : result A) : Prop :=
  m_store w' = m_store w /\ m_file w' = m_file w /\ exists e, r = Raise e.
Lemma authorize_names tok q legacy current : _authorize tok q (strip (q_subject q)) = Ok (legacy, current) ->
  verify_operator (q_token q) tok (q_operator q) = Ok tt /\
  assert_unambiguous_owner (strip (q_subject q)) (q_known q) (q_base q) = Ok (legacy, current) /\ legacy <> current.
Proof.
  intros H. apply bind_ok in H as ([] & Hv & H). split; [done|]. split; [done|].
  unfold assert_unambiguous_owner in H. case_hyp H; [done|]. apply bind_ok in H as (plan & _ & H).
  apply bind_ok in H as ([l c] & Hn & H). destruct (bool_decide _); [|done]. injection H as -> ->.
  unfold user_collection_migration_names in Hn. apply bind_ok in Hn as (c & Hc & Hn). injection Hn as <- ->.
  by eapply legacy_not_current.
Qed.
Lemma refused_raise {A} (w : W) e : turned_away w w (Raise e : result A).
Proof. split_and!; eauto. Qed.
Lemma lift_Ok {A B} (r : result A) (f : A -> eff W B) w x w' : (a ← lift r; f a) w = (x, w') ->
  (exists a, r = Ok a /\ f a w = (x, w')) \/ (exists e, r = Raise e /\ x = Raise e /\ w' = w).
Proof.
  intros H. apply bind_inv in H as [(a & w1 & H1 & H)|(e & H1 & ->)].
  - injection H1 as -> <-. eauto. - injection H1 as -> <-. eauto.
Qed.
(** The operator was verified and the subject owns the legacy collection. *)
Definition authorised (tok : string) (q : operator_request) (legacy current : string) : Prop :=
  verify_operator (q_token q) tok (q_operator q) = Ok tt /\
  assert_unambiguous_owner (strip (q_subject q)) (q_known q) (q_base q) = Ok (legacy, current) /\ legacy <> current.
Lemma lock_inv {A} (m : eff W A) w r w' : operation_lock o m w = (r, w') ->
  turned_away w w' r \/ exists w1, m_store w1 = m_store w /\ m_file w1 = m_file w /\ m_time w1 = m_time w /\ m w1 = (r, w').
Proof.
  intros H. apply bind_inv in H as [(free & w1 & H1 & H)|(e & H1 & ->)]; [|done]. injection H1 as <- <-.
  destruct (lock_free o (m_uses w)); [right; by eexists; split_and!; [| | |exact H]|left].
  injection H as <- <-. split_and!; [done|done|eauto].
Qed.
Lemma confined_migrate_locked tok q b t w r w' : _migrate_locked o tok q b t w = (r, w') ->
  turned_away w w' r \/ exists legacy current, authorised tok q legacy current /\ confined (eq current) w w'.
Proof.
  unfold _migrate_locked. intros H. case_hyp H; [injection H as <- <-; left; apply refused_raise|].
  case_hyp H; [injection H as <- <-; left; apply refused_raise|].
  apply lift_Ok in H as [([legacy current] & Hn & H)|(e & _ & -> & ->)]; [|left; apply refused_raise].
  right. exists legacy, current. split; [by apply authorize_names|]. apply (pres_run _ _ _ _ _ H). clear H.
  walk; by apply confined_run.
Qed.
Lemma confined_rollback_locked tok q reason w r w' : _rollback_locked o tok q reason w = (r, w') ->
  turned_away w w' r \/ exists legacy current, authorised tok q legacy current /\ confined (fun _ => False) w w'.
Proof.
  unfold _rollback_locked. intros H.
  apply lift_Ok in H as [(inv & _ & H)|(e & _ & -> & ->)]; [|left; apply refused_raise].
  case_hyp H; [injection H as <- <-; left; apply refused_raise|].
  apply lift_Ok in H as [([legacy current] & Hn & H)|(e & _ & -> & ->)]; [|left; apply refused_raise].
  right. exists legacy, current. split; [by apply authorize_names|]. apply (pres_run _ _ _ _ _ H). clear H.
  walk.
Qed.
(** C16: the reach of an operator's command.  A command that is not authorised
    -- by a credential that matches a long enough expected one, a named
    operator and an inventory that maps one subject to the legacy collection --
    or that finds another one running changes nothing and fails.  An
    authorised migration changes no collection but the one of the hashed name,
    which is not the legacy one; a rollback changes no collection at all; and
    both only ever add to the audit log. *)
Theorem migration_confined tok q w r w' :
  (forall batch_size timeout, migrate o tok q batch_size timeout w = (r, w') ->
     turned_away w w' r \/ exists legacy current, authorised tok q legacy current /\ confined (eq current) w w') /\
  (forall reason, rollback o tok q reason w = (r, w') ->
     turned_away w w' r \/ exists legacy current, authorised tok q legacy current /\ confined (fun _ => False) w w').
Proof.
  split; [intros b t H|intros reason H]; apply lock_inv in H as [H|(w1 & Hs & Hf & _ & H)]; try by left.
  - apply confined_migrate_locked in H as [(H1 & H2 & H3)|(l & c & Ha & H)]; [left; split_and!; congruence|right].
    exists l, c. split; [done|]. unfold confined, log_grows in *. by rewrite <- Hs, <- Hf.
  - apply confined_rollback_locked in H as [(H1 & H2 & H3)|(l & c & Ha & H)]; [left; split_and!; congruence|right].
    exists l, c. split; [done|]. unfold confined, log_grows in *. by rewrite <- Hs, <- Hf.
Qed.
End Frame.

(** ** Waiting ends *)
Section Waits.
Context {S_ : Type} `{!Milvus S_} (o : outside) (Ho : forall k, 0 <= elapse o k).
Abbreviation W := (mworld S_).
Definition same_time (w w' : W) : Prop := m_time w' = m_time w.
#[export] Instance same_time_preorder : PreOrder same_time.
Proof. split; [by intros w|]. intros w1 w2 w3 H1 H2. unfold same_time in *. congruence. Qed.
Lemma client_time {A} (m : eff S_ A) : pres same_time (client m).
Proof. intros w r w' E. unfold client in E. destruct (m (m_store w)). by injection E as _ <-. Qed.
#[local] Hint Resolve client_time : steps.
Lemma ready_time n : pres same_time (ready_look n).
Proof. unfold ready_look. walk. Qed.
Lemma verified_time a b e v : pres same_time (verified_look a b e v).
Proof. unfold verified_look, post_copy_look, verification_error. walk. Qed.

(** Rounds that a wait with [left] nanoseconds can still take. *)
Definition rounds (left : Z) : Z := if left <=? 0 then 1 else left / PAUSE + 2.
Lemma rounds_drop left now : 0 < left -> now <= left -> rounds (now - Z.min PAUSE now) + 1 <= rounds left.
Proof.
  intros Hl Hn. unfold rounds. assert (HP : 0 < PAUSE) by reflexivity.
  destruct (Z.leb_spec left 0); [lia|]. assert (0 <= left / PAUSE) by (apply Z.div_pos; lia).
  destruct (Z.leb_spec (now - Z.min PAUSE now) 0); [lia|].
  assert (PAUSE < now) by lia. replace (now - Z.min PAUSE now) with (now + (-1) * PAUSE) by lia.
  rewrite Z.div_add by lia. assert (now / PAUSE <= left / PAUSE) by (by apply Z.div_le_mono). lia.
Qed.
Lemma monotonic_run (w : W) : exists w1, monotonic o w = (Ok (m_time w1), w1) /\ m_time w <= m_time w1 /\ m_store w1 = m_store w.
Proof.
  exists (MWorld (m_store w) (m_file w) (m_time w + elapse o (m_uses w)) (S (m_uses w))). split; [done|]. cbn.
  pose proof (Ho (m_uses w)). split; [lia|done].
Qed.
(** What a wait does: more fuel changes nothing; it returns what a look saw,
    or gives up with the last error, or a look raised. *)
Lemma wait_loop_spec {A} give (look : eff W (A + exn)) (Hl : pres same_time look) d : forall fuel (w : W),
  rounds (d - m_time w) <= Z.of_nat fuel ->
  (forall extra, wait_loop o (fuel + extra) d give look w = wait_loop o fuel d give look w) /\
  exists w1 w2 e, (look w1 = (Raise e, w2) /\ wait_loop o fuel d give look w = (Raise e, w2)) \/
    (exists a, look w1 = (Ok (inl a), w2) /\ wait_loop o fuel d give look w = (Ok a, w2)) \/
    (look w1 = (Ok (inr e), w2) /\ exists w3, wait_loop o fuel d give look w = (Raise (give e), w3)).
Proof.
  induction fuel as [|fuel IH]; intros w Hf.
  { exfalso. unfold rounds in Hf. assert (0 < PAUSE) by reflexivity. destruct (Z.leb_spec (d - m_time w) 0); [lia|].
    assert (0 <= (d - m_time w) / PAUSE) by (apply Z.div_pos; lia). lia. }
  cbn [wait_loop Nat.add]. destruct (look w) as [[[a|e]|e] w1] eqn:E.
  1: { split; [intros extra; by rewrite !(bind_run _ _ _ _ _ E)|]. exists w, w1, (Exn Exception_ ""). right; left.
       exists a. by rewrite (bind_run _ _ _ _ _ E). }
  2: { split; [intros extra; by rewrite !(bind_fail _ _ _ _ _ E)|]. exists w, w1, e. left. by rewrite (bind_fail _ _ _ _ _ E). }
  pose proof (Hl _ _ _ E) as Ht. destruct (monotonic_run w1) as (w2 & Hm & Ht2 & _).
  rewrite !(bind_run _ _ _ _ _ E), !(bind_run _ _ _ _ _ Hm). cbv zeta. unfold same_time in Ht.
  destruct (Z.leb_spec (d - m_time w2) 0) as [Hr|Hr].
  { split; [intros extra; by rewrite !(bind_run _ _ _ _ _ E), !(bind_run _ _ _ _ _ Hm); destruct (Z.leb_spec (d - m_time w2) 0); [|lia]|].
    exists w, w1, e. right; right. split; [done|]. by exists w2. }
  destruct (IH (MWorld (m_store w2) (m_file w2) (m_time w2 + Z.min PAUSE (d - m_time w2)) (m_uses w2))) as [H1 H2].
  { cbn. pose proof (rounds_drop (d - m_time w) (d - m_time w2) ltac:(lia) ltac:(lia)).
    replace (d - (m_time w2 + Z.min PAUSE (d - m_time w2))) with (d - m_time w2 - Z.min PAUSE (d - m_time w2)) by lia. lia. }
  split; [|exact H2]. intros extra. rewrite !(bind_run _ _ _ _ _ E), !(bind_run _ _ _ _ _ Hm).
  destruct (Z.leb_spec (d - m_time w2) 0); [lia|]. apply H1.
Qed.
Lemma wait_until_spec {A} give (look : eff W (A + exn)) (Hl : pres same_time look) timeout (w : W) : 0 < ns timeout ->
  (forall fuel, (pauses timeout <= fuel)%nat -> wait_until o fuel timeout give look w = wait_until o (pauses timeout) timeout give look w) /\
  exists w1 w2 e, (look w1 = (Raise e, w2) /\ wait_until o (pauses timeout) timeout give look w = (Raise e, w2)) \/
    (exists a, look w1 = (Ok (inl a), w2) /\ wait_until o (pauses timeout) timeout give look w = (Ok a, w2)) \/
    (look w1 = (Ok (inr e), w2) /\ exists w3, wait_until o (pauses timeout) timeout give look w = (Raise (give e), w3)).
Proof.
  intros Ht. unfold wait_until. destruct (monotonic_run w) as (w1 & Hm & _).
  destruct (wait_loop_spec give look Hl (m_time w1 + ns timeout) (pauses timeout) w1) as [H1 H2].
  { replace (m_time w1 + ns timeout - m_time w1) with (ns timeout) by lia. unfold rounds, pauses.
    assert (0 <= ns timeout / PAUSE) by (apply Z.div_pos; [lia|reflexivity]). rewrite Z2Nat.id by lia.
    destruct (Z.leb_spec (ns timeout) 0); lia. }
  rewrite !(bind_run _ _ _ _ _ Hm). split; [|exact H2].
  intros fuel Hf. rewrite !(bind_run _ _ _ _ _ Hm). replace fuel with (pauses timeout + (fuel - pauses timeout))%nat by lia. apply H1.
Qed.
Lemma any_exception e : exn_in e [Exception_] = true.
Proof. by destruct e as [[]]. Qed.
Lemma client_inv {A} (m : eff S_ A) (w : W) r w' : client m w = (r, w') -> m (m_store w) = (r, m_store w').
Proof. unfold client. destruct (m (m_store w)) as [r1 s1]. intros H. by injection H as <- <-. Qed.
Lemma ready_look_inl n (w : W) s w' : ready_look n w = (Ok (inl s), w') ->
  indexes_ready s = true /\ inspect_collection n (m_store w) = (Ok s, m_store w').
Proof.
  unfold ready_look, catch. intros H. destruct (_ ≫= _) as [[a|e] w1] eqn:E.
  - injection H as -> <-. apply bind_Ok in E as (x & w2 & E & Hx). apply client_inv in E.
    destruct (indexes_ready x) eqn:R; injection Hx; intros; subst; [by split|done].
  - rewrite any_exception in H. by injection H.
Qed.
Lemma ready_look_total n (w : W) e w' : ready_look n w = (Raise e, w') -> False.
Proof.
  unfold ready_look, catch. intros H. destruct (_ ≫= _) as [[a|e1] w1]; [by injection H|]. rewrite any_exception in H. by injection H.
Qed.
(** Source and target as the last look of a successful wait found them. *)
Definition settled (expected : CollectionSnapshot) (allow : string) (source target : CollectionSnapshot) : Prop :=
  source = expected /\ schema_fingerprint target = schema_fingerprint expected /\
  index_fingerprint target = index_fingerprint expected /\ allow_insert_auto_id target = allow /\
  count target = count expected /\ indexes_ready target = true.
Lemma verified_look_inl a b e v (w : W) s t w' : verified_look a b e v w = (Ok (inl (s, t)), w') ->
  settled e v s t /\ exists st, inspect_collection b st = (Ok t, m_store w').
Proof.
  unfold verified_look, catch. intros H. destruct (post_copy_look a b e v w) as [[x|x] w1] eqn:E.
  2:{ rewrite any_exception in H. by case_hyp H. }
  injection H as -> <-. unfold post_copy_look in E.
  apply bind_Ok in E as (s0 & w2 & E1 & E). apply bind_Ok in E as (t0 & w3 & E2 & E). apply client_inv in E2.
  case_hyp E; [done|]. case_hyp E; [done|]. case_hyp E; [done|]. case_hyp E; [done|]. case_hyp E; [|done].
  injection E as <- <- <-. bool_prop. split; [|by eexists]. split_and!; try done.
Qed.
Lemma verified_look_raise a b e v (w : W) x w' : verified_look a b e v w = (Raise x, w') ->
  exn_cls x = MigrationVerificationError.
Proof.
  unfold verified_look, catch. intros H. destruct (post_copy_look a b e v w) as [[y|y] w1]; [by injection H|].
  rewrite any_exception in H. destruct (exn_isa (exn_cls y) MigrationVerificationError) eqn:C; [|done].
  cbn [andb] in H. case_hyp H; [|done]. injection H as <- _. unfold exn_isa in C. rewrite orb_false_r in C.
  by apply bool_decide_eq_true_1 in C.
Qed.
(** waiting for Milvus is bounded and fails closed.  With any clock that
    does not run backwards both waits come to an end: the rounds computed from
    the timeout are enough, more of them change nothing.  Either the last look
    found what was waited for -- ready indexes; or an unchanged source and a
    target with its schema, indexes and row count and the agreed policy -- or
    the wait raises MigrationVerificationError, whatever the client raised. *)
Theorem waits_end timeout (w : W) : 0 < ns timeout ->
  (forall n, (forall fuel, (pauses timeout <= fuel)%nat -> ready_wait o fuel n timeout w = _wait_for_ready_snapshot o n timeout w) /\
     match _wait_for_ready_snapshot o n timeout w with
     | (Ok s, w') => indexes_ready s = true /\ exists st, inspect_collection n st = (Ok s, m_store w')
     | (Raise e, _) => exn_cls e = MigrationVerificationError
     end) /\
  (forall a b expected allow,
     (forall fuel, (pauses timeout <= fuel)%nat ->
        verified_wait o fuel a b expected allow timeout w = _wait_for_post_copy_verification o a b expected allow timeout w) /\
     match _wait_for_post_copy_verification o a b expected allow timeout w with
     | (Ok (s, t), w') => settled expected allow s t /\ exists st, inspect_collection b st = (Ok t, m_store w')
     | (Raise e, _) => exn_cls e = MigrationVerificationError
     end).
Proof.
  intros Ht. split.
  - intros n. destruct (wait_until_spec (fun e => Exn MigrationVerificationError ("collection '" +++ n +++
       "' didn't become verification-ready within " +++ g_text timeout +++ " seconds: " +++ exn_msg e))
      (ready_look n) (ready_time n) timeout w Ht) as [H1 (w1 & w2 & e & H2)].
    split; [exact H1|]. unfold _wait_for_ready_snapshot, ready_wait.
    destruct H2 as [[H _]|[(s & H & ->)|(_ & w3 & ->)]]; [by apply ready_look_total in H| |done].
    apply ready_look_inl in H as [? ?]. eauto.
  - intros a b expected allow. destruct (wait_until_spec (fun e => Exn MigrationVerificationError
       ("row-count verification failed within " +++ g_text timeout +++ " seconds: " +++ exn_msg e))
      (verified_look a b expected allow) (verified_time a b expected allow) timeout w Ht) as [H1 (w1 & w2 & e & H2)].
    split; [exact H1|]. unfold _wait_for_post_copy_verification, verified_wait.
    destruct H2 as [[H ->]|[([s t] & H & ->)|(_ & w3 & ->)]]; [by apply verified_look_raise in H| |done].
    by apply verified_look_inl in H.
Qed.
End Waits.
