(* ===== verification/MigrationHistory.v ===== *)
(** * What the audit log means for later commands

    The record of a rollback closes a migration for good, and the record of a
    verified migration says what was verified. *)
From S2P Require Import Prelude PyStr PyFloat PyVal Json JsonRoundtrip Redis Sha Dedupe WorkerOps Identity.
From S2P Require Import Tokens Gate Collections CollectionLaws Documents DocumentTool AuditLog Migration.
From S2P Require Import MigrationLaws.
#[local] Open Scope Z_scope.

Section History.
Context {S_ Data : Type} `{!Milvus S_} `{!MilvusFrame S_ Data} (o : outside).
Abbreviation W := (mworld S_).

(** ** Reading the log back *)
Lemma matching_run n rs (w : W) : read w = (Ok rs, w) ->
  matching n w = (Ok (_matching_events rs (n_subject n) (n_legacy n) (n_current n)), w).
Proof. intros H. unfold matching. by rewrite (bind_run _ _ _ _ _ H). Qed.
Definition concerns (subject legacy current : string) (e : dict) : Prop :=
  dlookup "subject" e = Some (VStr subject) /\ dlookup "legacy_collection" e = Some (VStr legacy) /\
  dlookup "current_collection" e = Some (VStr current).
Lemma matching_snoc rs e subject legacy current : concerns subject legacy current e ->
  last (_matching_events (rs ++ [e]) subject legacy current) = Some e.
Proof.
  intros (H1 & H2 & H3). unfold _matching_events, dget. rewrite List.filter_app. cbn [List.filter].
  rewrite H1, H2, H3. cbn [py_eq num_eq]. rewrite !String.eqb_refl. cbn [andb]. apply last_snoc.
Qed.
(** An event that was just appended is found again by its entries. *)
Lemma appended_lookup event rs (w : W) record w' k s :
  sound_log (file_bytes (m_file w)) rs -> json_ok canonical_opts (VDict event) = true ->
  dlookup "event_hash" event = None -> append o event w = (Ok record, w') ->
  k ∉ ["audit_version"; "sequence"; "previous_hash"; "recorded_at"; "event_hash"] ->
  dlookup k event = Some (VStr s) -> dlookup k (sort_dict record) = Some (VStr s).
Proof.
  intros Hl Hj Hf H Hk Hs. destruct (append_sound o event _ rs w record w' eq_refl Hl Hj Hf H) as (_ & _ & h & at_ & t & ->).
  rewrite dlookup_sort_dict by (by apply sealed_keys). rewrite sealed_lookup by set_solver.
  rewrite stamped_lookup by (by apply event_keys).
  repeat (case_goal; [match goal with H : String.eqb _ _ = true |- _ => apply String.eqb_eq in H as -> end; set_solver|]).
  by rewrite Hs.
Qed.

(** ** After a rollback *)
(** The latest record on this migration is that of its rollback. *)
Definition rolled_back_log (subject legacy current : string) (w : W) : Prop :=
  exists rs e, read w = (Ok rs, w) /\ last (_matching_events rs subject legacy current) = Some e /\
    event_is "migration_rolled_back" e = Ok true.
Lemma closed_file subject legacy current (w w1 : W) : rolled_back_log subject legacy current w -> m_file w1 = m_file w ->
  rolled_back_log subject legacy current w1.
Proof.
  intros (rs & e & Hr & H) Hf. exists rs, e. split; [|done]. unfold read in *. injection Hr as Hr. by rewrite Hf, Hr.
Qed.
Lemma closed_refuses tok q legacy current b t (w : W) r w' :
  (forall l c, _authorize tok q (strip (q_subject q)) = Ok (l, c) -> l = legacy /\ c = current) ->
  rolled_back_log (strip (q_subject q)) legacy current w -> _migrate_locked o tok q b t w = (r, w') -> turned_away w w' r.
Proof.
  intros Hn (rs & e & Hr & Hl & He) H. unfold _migrate_locked in H.
  case_hyp H; [injection H as <- <-; apply refused_raise|]. case_hyp H; [injection H as <- <-; apply refused_raise|].
  apply lift_Ok in H as [([l c] & Ha & H)|(x & _ & -> & ->)]; [|apply refused_raise]. destruct (Hn _ _ Ha) as [-> ->].
  apply lift_Ok in H as [(inv & _ & H)|(x & _ & -> & ->)]; [|apply refused_raise].
  rewrite (bind_run _ _ _ _ _ (matching_run _ rs w Hr)) in H. cbn [n_subject n_legacy n_current fst snd] in H.
  rewrite Hl in H. cbv zeta in H. cbn [is_latest] in H. rewrite He in H. injection H as <- <-. apply refused_raise.
Qed.
Lemma authorize_same tok q tok' q' l c l' c' : strip (q_subject q') = strip (q_subject q) -> q_base q' = q_base q ->
  _authorize tok q (strip (q_subject q)) = Ok (l, c) -> _authorize tok' q' (strip (q_subject q')) = Ok (l', c') ->
  l' = l /\ c' = c.
Proof.
  intros Hs Hb H H'. unfold _authorize, assert_unambiguous_owner in *. rewrite Hs, Hb in H'.
  apply bind_ok in H as (? & _ & H), H' as (? & _ & H'). case_hyp H; [done|]. case_hyp H'; [done|].
  apply bind_ok in H as (? & _ & H), H' as (? & _ & H').
  apply bind_ok in H as ([a b] & H1 & H), H' as ([a' b'] & H2 & H'). rewrite H1 in H2. injection H2 as <- <-.
  case_hyp H; [|done]. case_hyp H'; [|done]. by injection H as <- <-; injection H' as <- <-.
Qed.
Definition rollback_event (n : job_names) (id : string) (source target : CollectionSnapshot) (reason : string) : dict :=
  event_head "migration_rolled_back" id n ++ inventory_entry n ++ snapshot_entries "source" source ++
  snapshot_entries "target" target ++ [("reason", VStr (strip reason)); ("data_action", VStr "none")].
Lemma rollback_event_plain n id s t reason : json_ok canonical_opts (VDict (rollback_event n id s t reason)) = true /\
  dlookup "event_hash" (rollback_event n id s t reason) = None.
Proof. split; reflexivity. Qed.
Lemma roll_back_closes n v reason rs (w : W) res w' : sound_log (file_bytes (m_file w)) rs ->
  roll_back_verified o n v reason w = (Ok res, w') -> rolled_back_log (n_subject n) (n_legacy n) (n_current n) w'.
Proof.
  intros Hl H. unfold roll_back_verified in H.
  assert (Hstay : forall {A} (m : eff S_ A) w1 x w2, client m w1 = (x, w2) -> m_file w2 = m_file w1).
  { intros A m w1 x w2 E. unfold client in E. destruct (m (m_store w1)). by injection E as _ <-. }
  apply bind_Ok in H as (lt & w1 & E1 & H). apply Hstay in E1.
  apply bind_Ok in H as (both & w2 & E2 & H).
  assert (Hf2 : m_file w2 = m_file w1) by (destruct lt; [by eapply Hstay|by injection E2 as _ <-]).
  case_hyp H; [done|]. apply bind_Ok in H as (src & w3 & E3 & H). apply Hstay in E3.
  apply bind_Ok in H as (tgt & w4 & E4 & H). apply Hstay in E4.
  apply lift_Ok in H as [(same & _ & H)|(? & _ & ? & _)]; [|done]. case_hyp H; [done|].
  apply lift_Ok in H as [(grown & _ & H)|(? & _ & ? & _)]; [|done]. case_hyp H; [done|].
  apply lift_Ok in H as [(id & _ & H)|(? & _ & ? & _)]; [|done].
  apply bind_Ok in H as (marker & w5 & E5 & H).
  apply lift_Ok in H as [(mid & _ & H)|(? & _ & ? & _)]; [|done]. injection H as <- <-.
  change (append o (rollback_event n (py_str id) src tgt reason) w4 = (Ok marker, w5)) in E5.
  destruct (rollback_event_plain n (py_str id) src tgt reason) as [Hj Hh].
  assert (Hl4 : sound_log (file_bytes (m_file w4)) rs) by (by rewrite E4, E3, Hf2, E1).
  destruct (append_sound o _ _ rs w4 marker w5 eq_refl Hl4 Hj Hh E5) as (Hfile & Hs & _).
  exists (rs ++ [sort_dict marker]), (sort_dict marker). split; [by apply (read_sound _ _ _ Hfile)|].
  assert (Hk : forall k x, k ∉ ["audit_version"; "sequence"; "previous_hash"; "recorded_at"; "event_hash"] ->
    dlookup k (rollback_event n (py_str id) src tgt reason) = Some (VStr x) -> dlookup k (sort_dict marker) = Some (VStr x)).
  { intros k x Hk Hx. eapply appended_lookup; eauto. }
  split.
  - apply matching_snoc. split_and!; apply Hk; try reflexivity; by apply (bool_decide_unpack _).
  - unfold event_is, dgetitem. rewrite (Hk "event" "migration_rolled_back"); [reflexivity|by apply (bool_decide_unpack _)|reflexivity].
Qed.
Lemma first_event_found f l e : first_event f l = Ok (Some e) -> f e = Ok true.
Proof.
  induction l as [|x l IH]; cbn; [done|]. intros H. apply bind_ok in H as ([] & Hf & H); [|by apply IH]. by injection H as ->.
Qed.
(** a rollback is final.  On a sound audit log, once a rollback has returned
    -- its record now written, or found to be there already -- every later
    migration of the same subject and base collection, by any operator with
    any credential, is refused: it changes no collection and no record. *)
Theorem rollback_is_final tok q reason rs (w : W) res w' :
  sound_log (file_bytes (m_file w)) rs -> (forall y, m_file w <> Symlink y) ->
  rollback o tok q reason w = (Ok res, w') ->
  forall tok' q' b t (w1 : W) r w2, m_file w1 = m_file w' ->
    strip (q_subject q') = strip (q_subject q) -> q_base q' = q_base q ->
    migrate o tok' q' b t w1 = (r, w2) -> turned_away w1 w2 r.
Proof.
  intros Hl Hfile H tok' q' b t w1 r w2 Hf Hs Hb Hm.
  apply lock_inv in H as [(_ & _ & e & H)|(w0 & Hs0 & Hf0 & _ & H)]; [done|]. rewrite <- Hf0 in Hl.
  assert (Hr0 : read w0 = (Ok rs, w0)).
  { unfold read. rewrite Hf0. destruct (m_file w) as [|bytes|y] eqn:E; [| |by destruct (Hfile y)]; rewrite Hf0 in Hl; cbn in Hl;
      destruct Hl as (Hd & _); [|by rewrite Hd]. by injection Hd as <-. }
  unfold _rollback_locked in H. apply lift_Ok in H as [(inv & _ & H)|(? & _ & ? & _)]; [|done].
  case_hyp H; [done|]. apply lift_Ok in H as [([l c] & Ha & H)|(? & _ & ? & _)]; [|done].
  rewrite (bind_run _ _ _ _ _ (matching_run _ rs w0 Hr0)) in H. cbn [n_subject n_legacy n_current fst snd] in H.
  assert (Hc : rolled_back_log (strip (q_subject q)) l c w').
  { apply lift_Ok in H as [(d & Hd & H)|(? & _ & ? & _)]; [|done].
    destruct (last (_matching_events rs (strip (q_subject q)) l c)) as [marker|] eqn:El; [|done]. destruct d.
    - destruct (marker_result _ marker) as [x|x]; injection H as _ <-; by exists rs, marker.
    - apply lift_Ok in H as [(v & _ & H)|(? & _ & ? & _)]; [|done].
      apply lift_Ok in H as [(a & _ & H)|(? & _ & ? & _)]; [|done]. destruct v as [v|]; [|done]. destruct a; [|done].
      by apply (roll_back_closes _ v reason rs) in H. }
  apply lock_inv in Hm as [Hm|(w3 & Hs3 & Hf3 & _ & Hm)]; [done|].
  assert (turned_away w3 w2 r) as (R1 & R2 & R3).
  { apply (closed_refuses tok' q' l c b t w3 r w2); [|rewrite Hs; apply (closed_file _ _ _ w'); [done|congruence]|done].
    intros l' c' H'. exact (authorize_same tok q tok' q' l c l' c' Hs Hb Ha H'). }
  split_and!; congruence.
Qed.

(** ** A verified migration *)
Lemma append_ok event (w : W) record w' : append o event w = (Ok record, w') ->
  m_file w' = Regular (file_bytes (m_file w) +++ _canonical_json (VDict record) +++ nl) /\
  m_store w' = m_store w /\
  forall k, k ∉ ["audit_version"; "sequence"; "previous_hash"; "recorded_at"; "event_hash"] -> NoDup (dkeys event) ->
    dlookup k record = dlookup k event.
Proof.
  intros H. rewrite append_open in H.
  assert (Hr : exists b records (w1 : W), b = file_bytes (m_file w) /\ m_file w1 = Regular b /\ m_store w1 = m_store w /\
    append_record o event records w1 = (Ok record, w')).
  { destruct (m_file w) as [|b|y]; cbn [file_bytes] in *; [| |done]; destruct (_decode _) as [records|e]; try done;
      eexists _, records, _; (split_and!; [reflexivity| | |exact H]); done. }
  destruct Hr as (b & records & w1 & -> & Hf & Hs & Ha). apply (append_record_spec _ _ _ _ _ _ _ Hf) in Ha as (Hs' & _ & Ha).
  destruct (Ha record eq_refl) as (ph & at_ & t & _ & _ & -> & _ & Hfile). split; [done|]. split; [congruence|].
  intros k Hk Hn. rewrite dlookup_dset. destruct (String.eqb_spec k "event_hash") as [->|Hne]; [set_solver|].
  rewrite stamped_lookup by done.
  repeat (case_goal; [match goal with H : String.eqb _ _ = true |- _ => apply String.eqb_eq in H as -> end; set_solver|]). done.
Qed.
Context (Ho : forall k, 0 <= elapse o k).
Definition verified_event (n : job_names) (id : string) (auto : bool) (rows : Z) (source target : CollectionSnapshot) : dict :=
  event_head "migration_verified" id n ++ inventory_entry n ++ snapshot_entries "source" source ++
  snapshot_entries "target" target ++
  [("copied_with", VStr (copied_with auto)); ("rows_processed", VInt rows); ("source_auto_id", VBool auto)].
Lemma verified_event_keys n id auto rows s t : NoDup (dkeys (verified_event n id auto rows s t)).
Proof. apply (bool_decide_unpack _). reflexivity. Qed.
(** The steps a migration that returned has behind it. *)
Record verified_run (n : job_names) (rows : Z) (source target : CollectionSnapshot) (allow : string) (w' : W) : Prop := {
  vr_before : exists st st', inspect_collection (n_legacy n) st = (Ok source, st') /\ indexes_ready source = true;
  vr_copied : exists st st' size, _copy_batches (n_legacy n) (n_current n) (primary_field source) size (auto_id source) st = (Ok rows, st');
  vr_after : exists st, inspect_collection (n_current n) st = (Ok target, m_store w');
  vr_settled : settled source allow source target }.
Lemma preserve_ok {A} c a v (body : eff W A) w x w' : _preserve_auto_ids c a v body w = (Ok x, w') ->
  exists w1 w2, body w1 = (Ok x, w2).
Proof.
  unfold _preserve_auto_ids. intros H. case_hyp H; [eauto|].
  apply bind_Ok in H as (d & w1 & _ & H). apply lift_Ok in H as [(cur & _ & H)|(? & _ & ? & _)]; [|done].
  apply bind_Ok in H as ([] & w2 & _ & H). unfold finally in H. destruct (body w2) as [r w3] eqn:E.
  destruct (client _ w3) as [[[]|e] w4]; [|done]. injection H as -> _. eauto.
Qed.
Lemma copy_and_verify_ok n source allow started size timeout (w : W) rows sa ta w' : 0 < ns timeout ->
  copy_and_verify o n source allow started size timeout w = (Ok (rows, sa, ta), w') ->
  sa = source /\ (exists st st', _copy_batches (n_legacy n) (n_current n) (primary_field source) size (auto_id source) st = (Ok rows, st')) /\
  (exists st, inspect_collection (n_current n) st = (Ok ta, m_store w')) /\ settled source allow source ta.
Proof.
  intros Ht H. unfold copy_and_verify in H. apply bind_Ok in H as (e & w1 & _ & H). apply bind_Ok in H as ([] & w2 & _ & H).
  apply bind_Ok in H as (before & w3 & _ & H). case_hyp H; [done|]. case_hyp H; [done|].
  apply bind_Ok in H as ([] & w4 & _ & H). apply bind_Ok in H as (r & w5 & E & H).
  apply preserve_ok in E as (w6 & w7 & E). apply client_inv in E.
  apply bind_Ok in H as ([s t] & w8 & E8 & H). injection H as <- <- <- <-. cbn [fst snd].
  destruct (wait_until_spec o Ho (fun e => Exn MigrationVerificationError
       ("row-count verification failed within " +++ g_text timeout +++ " seconds: " +++ exn_msg e))
      (verified_look (n_legacy n) (n_current n) source allow) (verified_time _ _ _ _) timeout w5 Ht) as [_ (x1 & x2 & x & Hx)].
  unfold _wait_for_post_copy_verification, verified_wait in E8. rewrite E8 in Hx.
  destruct Hx as [[_ Hx]|[([s' t'] & Hx & Hy)|(_ & x3 & Hx)]]; [done| |done]. injection Hy as <- <- <-.
  apply verified_look_inl in Hx as [Hset Hins]. split; [by destruct Hset as [-> _]|]. split; [eauto|]. split; [done|].
  by destruct Hset as (-> & Hset).
Qed.
(** what the record of a verified migration stands for.  A migration that
    returns, and did not find an earlier one, has copied the legacy collection
    it had inspected into the current one and then seen, in the state it leaves
    behind, a target with the schema, the indexes, the row count and the
    agreed policy of a source that had not changed; and the last line of the
    audit log is the record of it, with those very counts and fingerprints. *)
Theorem verified_is_recorded tok q size timeout (w : W) res w' :
  migrate o tok q size timeout w = (Ok res, w') -> r_already res = false ->
  exists n rows source target allow b record,
    verified_run n rows source target allow w' /\
    m_file w' = Regular (b +++ _canonical_json (VDict record) +++ nl) /\
    dlookup "event" record = Some (VStr "migration_verified") /\
    concerns (strip (q_subject q)) (r_legacy res) (r_current res) record /\
    dlookup "source_count" record = Some (VInt (r_source_count res)) /\
    dlookup "target_count" record = Some (VInt (r_target_count res)) /\
    r_source_count res = r_target_count res /\
    dlookup "target_schema_fingerprint" record = dlookup "source_schema_fingerprint" record /\
    dlookup "target_index_fingerprint" record = dlookup "source_index_fingerprint" record /\
    r_legacy res = n_legacy n /\ r_current res = n_current n.
Proof.
  intros H Hnew. apply lock_inv in H as [(_ & _ & e & H)|(w0 & _ & _ & _ & H)]; [done|].
  unfold _migrate_locked in H. case_hyp H; [done|]. case_hyp H; [done|].
  assert (Ht : 0 < ns timeout) by (bool_prop; lia).
  apply lift_Ok in H as [([l c] & _ & H)|(? & _ & ? & _)]; [|done]. apply lift_Ok in H as [(inv & _ & H)|(? & _ & ? & _)]; [|done].
  apply bind_Ok in H as (events & w1 & _ & H). cbv zeta in H. apply lift_Ok in H as [(rb & _ & H)|(? & _ & ? & _)]; [|done].
  case_hyp H; [done|]. apply lift_Ok in H as [(vd & _ & H)|(? & _ & ? & _)]; [|done].
  set (n := Names (strip (q_subject q)) (fst (l, c)) (snd (l, c)) (strip (q_operator q)) inv) in *.
  assert (Hrun : exists latest, run_migration o n events latest size timeout w1 = (Ok res, w')).
  { destruct (last events) as [lt|]; [|eauto]. destruct vd; [|eauto]. exfalso. unfold check_verified in H.
    apply bind_Ok in H as (s & w2 & _ & H). apply bind_Ok in H as (t & w3 & _ & H). case_hyp H; [done|].
    apply lift_Ok in H as [(x & _ & H)|(? & _ & ? & _)]; [|done]. case_hyp H; [done|].
    apply lift_Ok in H as [(y & _ & H)|(? & _ & ? & _)]; [|done]. case_hyp H; [done|].
    apply lift_Ok in H as [(z & _ & H)|(? & _ & ? & _)]; [|done]. injection H as <- _. discriminate Hnew. }
  clear H Hnew. destruct Hrun as [latest H]. unfold run_migration in H. apply bind_Ok in H as (there & w2 & _ & H). case_hyp H; [done|].
  apply bind_Ok in H as (source & w3 & Es & H). apply client_inv in Es. case_hyp H; [done|].
  apply lift_Ok in H as [(found & _ & H)|(? & _ & ? & _)]; [|done]. apply bind_Ok in H as ([[id allow] started] & w4 & _ & H).
  apply bind_Ok in H as ([[rows sa] ta] & w5 & E5 & H). apply catch_any in E5 as [(d & E5 & Hd)|(e & w6 & _ & E5)].
  2:{ exfalso. apply bind_Ok in E5 as (? & ? & _ & E5). done. }
  injection Hd as <-. apply (copy_and_verify_ok _ _ _ _ _ _ _ _ _ _ _ Ht) in E5 as (-> & (st & st' & Hcopy) & (st1 & Hins) & Hset).
  apply bind_Ok in H as (record & w6 & E6 & H). apply lift_Ok in H as [(vid & _ & H)|(? & _ & ? & _)]; [|done].
  injection H as <- <-. cbn [fst snd r_source_count r_target_count r_legacy r_current].
  change (append o (verified_event n id (auto_id source) rows source ta) w5 = (Ok record, w6)) in E6.
  apply append_ok in E6 as (Hfile & Hstore & Hk).
  assert (Hlook : forall k, k ∉ ["audit_version"; "sequence"; "previous_hash"; "recorded_at"; "event_hash"] ->
    dlookup k record = dlookup k (verified_event n id (auto_id source) rows source ta)) by (intros k Hn; apply Hk; [done|apply verified_event_keys]).
  exists n, rows, source, ta, allow, (file_bytes (m_file w5)), record. split.
  { split; [exists (m_store w2), (m_store w3); split; [done|by apply negb_false_iff]|eauto|rewrite Hstore; eauto|done]. }
  destruct Hset as (_ & Hs1 & Hs2 & _ & Hcount & _).
  split; [done|]. unfold concerns. rewrite !Hlook by (by apply (bool_decide_unpack _)). cbn.
  rewrite Hs1, Hs2, Hcount. by split_and!.
Qed.
End History.
