(* ===== verification/MigrationRows.v ===== *)
(** * A copied collection contains every row of its source

    [MilvusRows] states what is relied on of the client's reads and writes of
    rows; [copy_is_complete] is what [_copy_batches] makes of them. *)
From S2P Require Import Prelude PyStr PyFloat PyVal Json Redis WorkerOps Documents AuditLog Migration.
From S2P Require Import MigrationLaws.
#[local] Open Scope Z_scope.

(** Milvus has INT64 and VARCHAR primary keys. *)
Definition plain_key (v : value) : Prop := match v with VInt _ | VStr _ => True | _ => False end.
Definition key_of (primary : string) (d : dict) : value := dget primary d.
Class MilvusRows (S : Type) `{!Milvus S} (primary : string) := {
  (** The collection has a row with these entries. *)
  holds : S -> string -> dict -> Prop;
  all_rows : S -> string -> list dict;
  (** What the iterator still has to deliver. *)
  to_come : cursor -> S -> list dict;
  rows_keyed s n : NoDup (map (key_of primary) (all_rows s n)) /\
    Forall (fun d => plain_key (key_of primary d)) (all_rows s n);
  iterator_rows n b s it s' : query_iterator n b s = (Ok it, s') -> to_come it s' = all_rows s n;
  next_rows it s l s' : next_batch it s = (Ok l, s') -> exists ds, l = map VDict ds /\ to_come it s = ds ++ to_come it s' /\
    (ds = [] -> to_come it s' = []) /\ (ds <> [] -> (left it s' < left it s)%nat) /\ forall n d, holds s n d -> holds s' n d;
  get_rows_sound n ids s r s' : get_rows n ids s = (r, s') ->
    (forall it, to_come it s' = to_come it s /\ left it s' = left it s) /\ (forall m d, holds s m d -> holds s' m d) /\
    forall l, r = Ok l -> Forall (fun v => exists d, v = VDict d /\ holds s' n d /\ plain_key (key_of primary d)) l;
  insert_keeps n l s r s' : insert_rows n l s = (r, s') ->
    (forall it, to_come it s' = to_come it s /\ left it s' = left it s) /\ forall m d, holds s m d -> holds s' m d;
  upsert_keeps n l s r s' : upsert_rows n l s = (r, s') ->
    (forall it, to_come it s' = to_come it s /\ left it s' = left it s) /\
    forall m d, holds s m d -> (forall e, e ∈ l -> key_of primary e <> key_of primary d) -> holds s' m d;
  close_keeps it s r s' : close_cursor it s = (r, s') -> forall m d, holds s m d -> holds s' m d }.

(** ** Tables by primary key *)
Lemma py_eq_plain a b : plain_key a -> plain_key b -> py_eq a b = bool_decide (a = b).
Proof.
  destruct a, b; try done; intros _ _; cbn.
  - destruct (Z.eqb_spec z z0) as [->|Hne]; [by rewrite bool_decide_true|]. symmetry. apply bool_decide_eq_false_2. congruence.
  - destruct (String.eqb_spec s s0) as [->|Hne]; [by rewrite bool_decide_true|]. symmetry. apply bool_decide_eq_false_2. congruence.
Qed.
Definition plain_table (t : table) : Prop := NoDup (map fst t) /\ Forall plain_key (map fst t).
Lemma tset_new k row t : plain_key k -> Forall plain_key (map fst t) -> k ∉ map fst t -> tset k row t = t ++ [(k, row)].
Proof.
  intros Hk. induction t as [|[k' r'] t IH]; intros Hp Hn; [done|]. cbn in *. inversion Hp; subst.
  rewrite py_eq_plain by done. rewrite bool_decide_false by set_solver. cbn. rewrite IH; [done|done|set_solver].
Qed.
Lemma tset_keys k row t : plain_key k -> Forall plain_key (map fst t) ->
  map fst (tset k row t) = if bool_decide (k ∈ map fst t) then map fst t else map fst t ++ [k].
Proof.
  intros Hk. induction t as [|[k' r'] t IH]; intros Hp; [done|]. cbn in *. inversion Hp; subst.
  rewrite py_eq_plain by done. destruct (decide (k = k')) as [->|Hne].
  - rewrite !bool_decide_true by set_solver. done.
  - rewrite bool_decide_false by done. cbn. rewrite IH by done. destruct (decide (k ∈ map fst t)).
    + rewrite !bool_decide_true by set_solver. done. + rewrite !bool_decide_false by set_solver. done.
Qed.
Lemma tset_plain k row t : plain_key k -> plain_table t -> plain_table (tset k row t).
Proof.
  intros Hk [Hn Hp]. unfold plain_table. rewrite tset_keys by done. case_bool_decide as H; [done|].
  split; [apply NoDup_app; split_and!; [done|set_solver|apply NoDup_singleton]|]. apply Forall_app. by repeat constructor.
Qed.
Lemma tset_in k row t kr : kr ∈ tset k row t -> kr ∈ t \/ (snd kr = row /\ (fst kr = k \/ py_eq k (fst kr) = true)).
Proof.
  induction t as [|[k' r'] t IH]; cbn; [set_solver|]. destruct (py_eq k k') eqn:E; [|set_solver].
  intros [->|H]%elem_of_cons; [right; cbn; auto|left; set_solver].
Qed.
Lemma tget_in t k r : plain_key k -> plain_table t -> (k, r) ∈ t -> tget k t = Some r.
Proof.
  intros Hk. induction t as [|[k' r'] t IH]; intros [Hn Hp] Hin; [set_solver|]. cbn in *.
  apply NoDup_cons in Hn as [Hni Hn]. inversion Hp; subst. rewrite py_eq_plain by done.
  apply elem_of_cons in Hin as [[= -> ->]|Hin]; [by rewrite bool_decide_true|].
  rewrite bool_decide_false; [apply IH; [by split|done]|]. intros ->. apply Hni. apply list_elem_of_fmap. by exists (k', r).
Qed.
Lemma tget_some t k r : plain_key k -> plain_table t -> tget k t = Some r -> (k, r) ∈ t.
Proof.
  intros Hk. induction t as [|[k' r'] t IH]; intros [Hn Hp] H; [done|]. cbn in *.
  apply NoDup_cons in Hn as [_ Hn]. inversion Hp; subst. rewrite py_eq_plain in H by done.
  case_bool_decide as E; [injection H as ->; subst; set_solver|]. apply elem_of_cons. right. apply IH; [by split|done].
Qed.

Section Tables.
Context (primary : string).
Abbreviation pkey := (key_of primary).
Lemma dgetitem_key d k : dgetitem primary d = Ok k -> pkey d = k.
Proof. unfold dgetitem, key_of, dget. destruct (dlookup primary d); [by intros [= ->]|done]. Qed.
Lemma dgetitem_present d : dmem primary d = true -> dgetitem primary d = Ok (pkey d).
Proof. unfold dgetitem, key_of, dget, dmem. by destruct (dlookup primary d). Qed.
Lemma hashable_plain k : plain_key k -> hashable_key k = Ok k.
Proof. by destruct k. Qed.
(** Rows with keys of their own give a table of those rows. *)
Lemma table_go_rows ds : forall acc, Forall (fun d => plain_key (pkey d) /\ dmem primary d = true) ds -> plain_table acc ->
  NoDup (map fst acc ++ map pkey ds) ->
  table_go primary acc (map VDict ds) = Ok (acc ++ map (fun d => (pkey d, d)) ds).
Proof.
  induction ds as [|d ds IH]; intros acc Hd Ha Hn; cbn [map table_go]; [by rewrite app_nil_r|].
  inversion Hd as [|? ? [Hk Hm] Hds]; subst. cbn [_as_plain_dict mbind result_bind].
  rewrite dgetitem_present by done. cbn [mbind result_bind]. rewrite hashable_plain by done. cbn [mbind result_bind].
  cbn [map] in Hn. apply NoDup_app in Hn as (Hn1 & Hn2 & Hn3). apply NoDup_cons in Hn3 as [Hn3 Hn4].
  rewrite tset_new; [|done|apply Ha|intros H; apply (Hn2 _ H); set_solver].
  rewrite IH; [by rewrite <- app_assoc|done| |].
  - destruct Ha as [H1 H2]. unfold plain_table. rewrite map_app. cbn [map fst]. split.
    + apply NoDup_app. split_and!; [done| |apply NoDup_singleton]. intros x Hx. specialize (Hn2 x Hx). set_solver.
    + apply Forall_app. by repeat constructor.
  - rewrite map_app. cbn [map fst]. rewrite <- app_assoc. apply NoDup_app. split_and!; [done| |by constructor].
    intros x Hx. specialize (Hn2 x Hx). set_solver.
Qed.
(** Whatever the rows, a table has them under their keys. *)
Lemma table_go_sound rows : forall acc t, table_go primary acc rows = Ok t ->
  Forall (fun v => exists d, v = VDict d /\ plain_key (pkey d)) rows -> plain_table acc ->
  plain_table t /\ forall k d, (k, d) ∈ t -> (k, d) ∈ acc \/ (VDict d ∈ rows /\ pkey d = k).
Proof.
  induction rows as [|v rows IH]; intros acc t H Hr Ha; cbn [table_go] in H; [injection H as <-; auto|].
  inversion Hr as [|? ? (d & -> & Hk) Hrs]; subst. cbn [_as_plain_dict mbind result_bind] in H.
  apply bind_ok in H as (k & Hd & H). apply dgetitem_key in Hd as Hk'. rewrite Hk' in Hk.
  rewrite hashable_plain in H by done. cbn [mbind result_bind] in H.
  apply IH in H as [Ht Hin]; [|done|by apply tset_plain]. split; [done|]. intros k1 d1 H1.
  destruct (Hin _ _ H1) as [H2|[H2 H3]]; [|right; split; [set_solver|done]].
  apply tset_in in H2 as [H2|(H2 & H3)]; [by left|]. cbn in H2, H3. subst d1. right. split; [set_solver|].
  destruct H3 as [<-|H3]; [done|]. assert (plain_key k1).
  { destruct Ht as [_ Hp]. rewrite Forall_forall in Hp. apply Hp. apply list_elem_of_fmap. by exists (k1, d). }
  rewrite py_eq_plain in H3 by done. apply bool_decide_eq_true_1 in H3. congruence.
Qed.
(** Equal tables: every row of the one is a row of the other. *)
Lemma table_eq_covers actual expected : table_eq actual expected = true -> plain_table actual -> plain_table expected ->
  forall k e, (k, e) ∈ expected -> exists d, (k, d) ∈ actual /\ row_eq d e = true.
Proof.
  unfold table_eq. intros H Ha He k e Hin. apply andb_true_iff in H as [Hl H]. apply Nat.eqb_eq in Hl.
  apply Is_true_true, forallb_True in H. rewrite Forall_forall in H.
  assert (Hsub : map fst actual ⊆ map fst expected).
  { intros x Hx. apply list_elem_of_fmap in Hx as ([x' d] & -> & Hd). specialize (H _ Hd). cbn in *.
    destruct (tget x' expected) as [r|] eqn:Et; [|done]. apply list_elem_of_fmap. exists (x', r). split; [done|].
    apply tget_some; [|done|done]. destruct Ha as [_ Hp]. rewrite Forall_forall in Hp. apply Hp. apply list_elem_of_fmap. by exists (x', d). }
  assert (Hk : k ∈ map fst actual).
  { assert (Hp : map fst actual ≡ₚ map fst expected).
    { apply submseteq_length_Permutation; [by apply NoDup_submseteq; [apply Ha|]|]. by rewrite !length_map, Hl. }
    rewrite Hp. apply list_elem_of_fmap. by exists (k, e). }
  apply list_elem_of_fmap in Hk as ([k' d] & -> & Hd). cbn. exists d. split; [done|]. specialize (H _ Hd). cbn in H.
  rewrite (tget_in expected k' e) in H; [by apply Is_true_true|destruct He as [_ Hp]; rewrite Forall_forall in Hp; apply Hp; apply list_elem_of_fmap; by exists (k', e)|done|done].
Qed.
(** Equal rows have the same key. *)
Lemma row_eq_key d e : row_eq d e = true -> plain_key (pkey d) -> plain_key (pkey e) -> pkey d = pkey e.
Proof.
  unfold row_eq. cbn [py_eq num_eq]. intros H Hd He. apply andb_true_iff in H as [_ H]. unfold key_of, dget in *.
  destruct (dlookup primary d) as [x|] eqn:Ed; [|done].
  assert (Hx : match dlookup primary e with Some y => py_eq x y | None => false end = true).
  { clear Hd He. induction d as [|[k0 v0] d IH]; [done|]. cbn in Ed. apply andb_true_iff in H as [H1 H2].
    destruct (String.eqb_spec primary k0) as [->|]; [injection Ed as ->; done|by apply IH]. }
  destruct (dlookup primary e) as [y|]; [|done]. rewrite py_eq_plain in Hx by done. by apply bool_decide_eq_true_1 in Hx.
Qed.
End Tables.

Section Copy.
Context {S : Type} `{!Milvus S} (primary : string) `{!MilvusRows S primary}.
Abbreviation pkey := (key_of primary).
(** Iterators stay where they are, and rows with none of [keys] stay. *)
Definition rows_stay (keys : list value) (s s' : S) : Prop :=
  (forall it, to_come it s' = to_come it s /\ left it s' = left it s) /\
  forall m d, holds s m d -> pkey d ∉ keys -> holds s' m d.
#[export] Instance kept_preorder keys : PreOrder (rows_stay keys).
Proof.
  split; [intros s; split; [done|done]|]. intros s1 s2 s3 [I1 H1] [I2 H2]. split.
  - intros it. destruct (I1 it), (I2 it). split; congruence.
  - intros m d Hd Hk. apply H2; [by apply H1|done].
Qed.
Lemma fetch_spec keys n ids s r s' : fetch_table n primary ids s = (r, s') -> rows_stay keys s s' /\
  forall t, r = Ok t -> plain_table t /\ forall k d, (k, d) ∈ t -> pkey d = k /\ plain_key k /\ holds s' n d.
Proof.
  unfold fetch_table. intros H. apply bind_inv in H as [(rows & s1 & E & H)|(e & E & ->)];
    apply (get_rows_sound (primary := primary)) in E as (Hi & Hh & Hl); [|split; [split; auto|done]].
  injection H as <- <-. split; [split; auto|]. intros t Ht. specialize (Hl rows eq_refl).
  apply table_go_sound in Ht as [Hp Hin].
  - split; [done|]. intros k d H. destruct (Hin _ _ H) as [H1|[H1 <-]]; [set_solver|].
    rewrite Forall_forall in Hl. destruct (Hl _ H1) as (d' & [= <-] & H2 & H3). done.
  - eapply Forall_impl; [exact Hl|]. intros v (d & -> & _ & Hk). eauto.
  - by split; [constructor|].
Qed.
Lemma plain_entities ds : mapM_r _as_plain_dict (map VDict ds) = Ok ds.
Proof. induction ds as [|d ds IH]; [done|]. cbn. by rewrite IH. Qed.
(** The rows [ds] are in the collection, entry for entry. *)
Definition stored (s : S) (n : string) (ds : list dict) : Prop :=
  Forall (fun e => exists d, row_eq d e = true /\ pkey d = pkey e /\ holds s n d) ds.
Lemma copy_batch_spec dst a ds s n s' : NoDup (map pkey ds) -> Forall (fun d => plain_key (pkey d)) ds ->
  copy_batch dst primary a (map VDict ds) s = (Ok n, s') ->
  n = Z.of_nat (length ds) /\ rows_stay (map pkey ds) s s' /\ stored s' dst ds.
Proof.
  intros Hn Hp H. unfold copy_batch in H. rewrite plain_entities in H. change (lift (Ok ds) s) with (Ok ds, s) in H.
  apply bind_Ok in H as (ds' & s0 & E & H). injection E as <- <-. case_hyp H; [done|].
  assert (Hd : Forall (fun d => plain_key (pkey d) /\ dmem primary d = true) ds).
  { rewrite Forall_forall in *. intros d Hin. split; [by apply Hp|]. destruct (dmem primary d) eqn:E; [done|].
    match goal with H : existsb _ ds = false |- _ => rewrite <- not_true_iff_false, existsb_exists in H; destruct H end.
    exists d. split; [by apply list_elem_of_In|by rewrite E]. }
  unfold table_of in H. rewrite (table_go_rows primary ds []) in H; [|done|by split; [constructor|]|done].
  apply bind_Ok in H as (ex & s0 & E & H). injection E as <- <-. cbn [app] in H.
  set (expected := map (fun d => (pkey d, d)) ds) in *. case_hyp H; [done|].
  assert (Hkeys : map fst expected = map pkey ds) by (unfold expected; by rewrite map_map).
  assert (Hex : plain_table expected).
  { split; rewrite Hkeys; [done|]. apply Forall_map. eapply Forall_impl; [exact Hp|done]. }
  apply bind_Ok in H as ([] & s1 & E1 & H). apply bind_Ok in H as (actual & s2 & E2 & H).
  apply (fetch_spec (map pkey ds)) in E2 as [K2 A2]. destruct (A2 actual eq_refl) as [Hta Hact]. clear A2.
  case_hyp H; [done|]. injection H as <- <-. split; [done|].
  assert (K1 : rows_stay (map pkey ds) s s1).
  { destruct a.
    - apply bind_Ok in E1 as (existing & s3 & E3 & E1). apply (fetch_spec (map pkey ds)) in E3 as [K3 _].
      case_hyp E1; [done|]. etransitivity; [exact K3|]. destruct (missing_rows expected existing) as [|m ms].
      + injection E1 as <-. reflexivity.
      + apply (insert_keeps (primary := primary)) in E1 as [Hi Hh]. split; [done|]. intros; by apply Hh.
    - apply (upsert_keeps (primary := primary)) in E1 as [Hi Hh]. split; [done|]. intros m d Hm Hk. apply Hh; [done|].
      intros e He Hke. apply Hk. rewrite <- Hke. apply list_elem_of_fmap. by exists e. }
  split; [by etransitivity|]. apply Forall_forall. intros e He.
  assert (Hin : (pkey e, e) ∈ expected) by (apply list_elem_of_fmap; by exists e).
  match goal with H : negb (table_eq _ _) = false |- _ => apply negb_false_iff in H; rename H into Heq end.
  destruct (table_eq_covers actual expected Heq Hta Hex _ _ Hin) as (d & Hd1 & Hd2).
  destruct (Hact _ _ Hd1) as (H1 & _ & H2). eauto.
Qed.
Lemma stored_kept keys s s' n ds : rows_stay keys s s' -> (forall d, d ∈ ds -> pkey d ∉ keys) -> stored s n ds -> stored s' n ds.
Proof.
  intros [_ Hk] Hn H. unfold stored in *. rewrite Forall_forall in *. intros e He. destruct (H e He) as (d & H1 & H2 & H3).
  exists d. split_and!; [done|done|]. apply Hk; [done|]. rewrite H2. by apply Hn.
Qed.
Lemma copy_loop_spec dst a it fuel : forall done_ rest copied s n s',
  to_come it s = rest -> (left it s < fuel)%nat -> stored s dst done_ -> copied = Z.of_nat (length done_) ->
  NoDup (map pkey (done_ ++ rest)) -> Forall (fun d => plain_key (pkey d)) rest ->
  copy_loop fuel it dst primary a copied s = (Ok n, s') ->
  n = Z.of_nat (length (done_ ++ rest)) /\ stored s' dst (done_ ++ rest).
Proof.
  induction fuel as [|fuel IH]; intros done_ rest copied s n s' Hr Hf Hs -> Hn Hp H; [lia|]. cbn [copy_loop] in H.
  apply bind_Ok in H as (batch & s1 & E & H).
  apply (next_rows (primary := primary)) in E as (ds & -> & Hc & Hnil & Hless & Hh).
  assert (Hs1 : stored s1 dst done_).
  { unfold stored in *. eapply Forall_impl; [exact Hs|]. intros e (d & ? & ? & ?). eauto. }
  destruct ds as [|d ds].
  - injection H as <- <-. rewrite Hc, (Hnil eq_refl) in Hr. subst rest. cbn. by rewrite app_nil_r.
  - change (map VDict (d :: ds)) with (VDict d :: map VDict ds) in H.
    apply bind_Ok in H as (m & s2 & E & H). change (VDict d :: map VDict ds) with (map VDict (d :: ds)) in E.
    rewrite Hc in Hr. subst rest. set (batch := d :: ds) in *. rewrite !map_app in Hn.
    apply NoDup_app in Hn as (Hn1 & Hn2 & Hn3). apply NoDup_app in Hn3 as (Hn3 & Hn4 & Hn5).
    apply Forall_app in Hp as [Hp1 Hp2].
    apply copy_batch_spec in E as (-> & K & Hb); [|done|done].
    rewrite app_assoc. destruct K as [Ki Kh]. destruct (Ki it) as [Kt Kl].
    refine (IH (done_ ++ batch) (to_come it s1) _ s2 n s' Kt _ _ _ _ Hp2 H).
    + assert (batch <> []) as Hne by done. specialize (Hless Hne). lia.
    + unfold stored. apply Forall_app. split; [|exact Hb].
      apply (stored_kept (map pkey batch) s1); [by split|intros x Hx Hin|done].
      apply (Hn2 (pkey x)); [apply list_elem_of_fmap; eauto|set_solver].
    + rewrite length_app. lia.
    + rewrite !map_app, <- app_assoc. apply NoDup_app. split_and!; [done|done|]. apply NoDup_app. by split_and!.
Qed.
(** C17: a copy that returns is complete.  When [_copy_batches] reports a number
    of rows, it is the number of rows the source had when its iterator was
    opened, and each of them is in the target, under its own primary key and
    entry for entry -- whichever strategy filled the target, in whatever sizes
    the batches came, and whatever was in the target before. *)
Theorem copy_is_complete src dst batch_size a s n s' :
  _copy_batches src dst primary batch_size a s = (Ok n, s') ->
  n = Z.of_nat (length (all_rows s src)) /\ stored s' dst (all_rows s src).
Proof.
  intros H. unfold _copy_batches in H. apply bind_Ok in H as (it & s1 & E & H).
  apply (iterator_rows (primary := primary)) in E. apply bind_Ok in H as (k & s2 & E2 & H). injection E2 as <- <-.
  unfold finally in H. destruct (copy_loop _ it dst primary a 0 s1) as [r s2] eqn:El.
  destruct (suppress [Exception_] (close_cursor it) s2) as [[[]|e] s3] eqn:Ec; [|done]. injection H as -> <-.
  destruct (rows_keyed (primary := primary) s src) as [Hn Hp].
  destruct (copy_loop_spec dst a it (Datatypes.S (left it s1)) [] (all_rows s src) 0 s1 n s2 E ltac:(lia) ltac:(by constructor) eq_refl Hn Hp El) as [H1 H2].
  split; [exact H1|]. cbn [app] in H2. unfold stored in *. eapply Forall_impl; [exact H2|]. intros e (d & ? & ? & Hd).
  exists d. split_and!; [done|done|]. unfold suppress, catch in Ec. destruct (close_cursor it s2) as [[[]|x] s4] eqn:E4.
  - injection Ec as <-. by eapply close_keeps in E4.
  - rewrite any_exception in Ec. injection Ec as <-. by eapply close_keeps in E4.
Qed.
End Copy.

(** ** A reference client for the migration

    A database in memory that satisfies what the laws of the migration rely
    on, so that they can be applied to concrete runs. *)
Record coll := Coll { k_description : dict; k_indexes : list dict; k_rows : list dict }.
Record db := Db { d_colls : gmap string coll; d_cursors : list (list (list dict)) }.
Definition rows_of (s : db) (n : string) : list dict := match d_colls s !! n with Some c => k_rows c | None => [] end.
Definition put (n : string) (c : coll) (s : db) : db := Db (<[n := c]> (d_colls s)) (d_cursors s).
(** A call on a collection that has to exist. *)
Definition on_coll {A} (n : string) (f : coll -> result A * coll) : eff db A := fun s =>
  match d_colls s !! n with
  | Some c => (fst (f c), put n (snd (f c)) s)
  | None => (raise OSError "collection not found", s)
  end.
Definition look_coll {A} (n : string) (f : coll -> result A) : eff db A := fun s =>
  match d_colls s !! n with Some c => (f c, s) | None => (raise OSError "collection not found", s) end.
Definition id_of (d : dict) : value := key_of "id" d.
Definition plain_keyb (v : value) : bool := match v with VInt _ | VStr _ => true | _ => false end.
Definition keyed (l : list dict) : bool := bool_decide (NoDup (map id_of l)) && forallb (fun d => plain_keyb (id_of d)) l.
Fixpoint chunks (fuel : nat) (b : nat) (l : list dict) : list (list dict) :=
  match fuel, l with
  | S fuel, _ :: _ => firstn (S b) l :: chunks fuel b (skipn (S b) l)
  | _, _ => []
  end.
Definition created_field (kw : dict) : value :=
  VDict ([("name", dget "field_name" kw); ("type", dget "datatype" kw); ("params", VDict [])] ++ pick FIELD_KEYS kw).
Definition created (q : create_request) : coll :=
  Coll [("auto_id", VBool (c_auto_id q)); ("enable_dynamic_field", VBool (c_dynamic q)); ("fields", VList (map created_field (c_fields q)))]
    (map (fun kw => kw ++ [("state", VStr "Finished")]) (c_indexes q)) [].
#[export] Instance memory : Milvus db := {
  cursor := nat;
  has_collection n := fun s => (Ok (match d_colls s !! n with Some _ => true | None => false end), s);
  describe_collection n := look_coll n (fun c => Ok (k_description c));
  list_indexes n := look_coll n (fun c => Ok (map (dget "index_name") (k_indexes c)));
  describe_index n i := look_coll n (fun c =>
    match List.filter (fun d => py_eq (dget "index_name" d) (VStr i)) (k_indexes c) with
    | d :: _ => Ok d | [] => raise OSError "index not found" end);
  load_collection n := look_coll n (fun _ => Ok tt);
  query_count n := look_coll n (fun c => Ok (VList [VDict [(COUNT_ALL, VInt (Z.of_nat (length (k_rows c))))]]));
  data_type z := Ok z;
  add_field l kw := Ok (l ++ [kw]);
  add_index l kw := Ok (l ++ [kw]);
  create_collection q := fun s => (Ok tt, put (c_name q) (created q) s);
  alter_allow_insert n v := on_coll n (fun c =>
    (Ok tt, Coll (dset "properties" (VDict [("allow_insert_auto_id", VStr v)]) (k_description c)) (k_indexes c) (k_rows c)));
  query_iterator n b := fun s =>
    let l := rows_of s n in
    if keyed l then (Ok (length (d_cursors s)), Db (d_colls s) (d_cursors s ++ [chunks (length l) (Z.to_nat (b - 1)) l]))
    else (raise OSError "unreadable rows", s);
  next_batch it := fun s =>
    match d_cursors s !! it with
    | Some ((d :: l) :: ls) => (Ok (map VDict (d :: l)), Db (d_colls s) (<[it := ls]> (d_cursors s)))
    | _ => (Ok [], s)
    end;
  close_cursor it := mret tt;
  left it := fun s => match d_cursors s !! it with Some ls => length ls | None => 0%nat end;
  get_rows n ids := look_coll n (fun c => Ok (map VDict (List.filter (fun d =>
    plain_keyb (id_of d) && existsb (py_eq (id_of d)) ids) (k_rows c))));
  insert_rows n l := on_coll n (fun c => (Ok tt, Coll (k_description c) (k_indexes c) (k_rows c ++ l)));
  upsert_rows n l := on_coll n (fun c => (Ok tt, Coll (k_description c) (k_indexes c)
    (List.filter (fun d => negb (bool_decide (id_of d ∈ map id_of l))) (k_rows c) ++ l))) }.

Lemma look_same {A} n (f : coll -> result A) s r s' : look_coll n f s = (r, s') -> s' = s.
Proof. unfold look_coll. destruct (d_colls s !! n); congruence. Qed.
Lemma on_coll_other {A} n (f : coll -> result A * coll) s r s' : on_coll n f s = (r, s') ->
  d_cursors s' = d_cursors s /\ forall m, m <> n -> d_colls s' !! m = d_colls s !! m.
Proof.
  unfold on_coll. destruct (d_colls s !! n); intros [= _ <-]; [|done]. split; [done|]. intros m Hm. cbn. by rewrite lookup_insert_ne.
Qed.
Lemma on_coll_rows {A} n (f : coll -> result A * coll) s r s' : on_coll n f s = (r, s') ->
  rows_of s' n = rows_of s n \/ exists c, d_colls s !! n = Some c /\ rows_of s n = k_rows c /\ rows_of s' n = k_rows (snd (f c)).
Proof.
  unfold on_coll, rows_of. destruct (d_colls s !! n) as [c|] eqn:E; intros [= _ <-]; [right|by left; rewrite E].
  exists c. split_and!; [done|done|]. cbn. by rewrite lookup_insert_eq.
Qed.
Lemma next_same it s r s' : next_batch it s = (r, s') -> d_colls s' = d_colls s.
Proof. cbn. intros H. repeat case_hyp H; by injection H as _ <-. Qed.
#[export] Program Instance memory_frame : MilvusFrame db (option coll) := { content s n := d_colls s !! n }.
Next Obligation. intros n s r s' [= _ <-]; done. Qed.
Next Obligation. intros n s r s' H m. by rewrite (look_same _ _ _ _ _ H). Qed.
Next Obligation. intros n s r s' H m. by rewrite (look_same _ _ _ _ _ H). Qed.
Next Obligation. intros n i s r s' H m. by rewrite (look_same _ _ _ _ _ H). Qed.
Next Obligation. intros n s r s' H m. by rewrite (look_same _ _ _ _ _ H). Qed.
Next Obligation. intros n s r s' H m. by rewrite (look_same _ _ _ _ _ H). Qed.
Next Obligation. intros n b s r s' H m. cbn in H. destruct (keyed _); by injection H as _ <-. Qed.
Next Obligation. intros it s r s' H m. by rewrite (next_same _ _ _ _ H). Qed.
Next Obligation. intros it s r s' [= _ <-]; done. Qed.
Next Obligation. intros n ids s r s' H m. by rewrite (look_same _ _ _ _ _ H). Qed.
Next Obligation. intros q s r s' [= _ <-] m Hm. cbn. by rewrite lookup_insert_ne. Qed.
Next Obligation. intros n v s r s' H m Hm. by apply on_coll_other in H as [_ H]; apply H. Qed.
Next Obligation. intros n v s r s' H m Hm. by apply on_coll_other in H as [_ H]; apply H. Qed.
Next Obligation. intros n v s r s' H m Hm. by apply on_coll_other in H as [_ H]; apply H. Qed.

(** An iterator ends at its first empty batch. *)
Fixpoint upto_empty (ls : list (list dict)) : list dict :=
  match ls with [] | [] :: _ => [] | l :: ls => l ++ upto_empty ls end.
Definition pending (it : nat) (s : db) : list dict := match d_cursors s !! it with Some ls => upto_empty ls | None => [] end.
Lemma chunks_concat b fuel : forall l, (length l <= fuel)%nat -> upto_empty (chunks fuel b l) = l.
Proof.
  induction fuel as [|fuel IH]; intros [|d l] H; cbn [chunks length] in *; try done; [lia|].
  change (firstn (S b) (d :: l)) with (d :: firstn b l). cbn [upto_empty skipn app]. f_equal. change (skipn (S b) (d :: l)) with (skipn b l).
  rewrite IH; [apply firstn_skipn|]. rewrite length_skipn. lia.
Qed.
(** The rows of a collection, if they have distinct keys of the right kind. *)
Definition keyed_rows (s : db) (n : string) : list dict := if keyed (rows_of s n) then rows_of s n else [].
Lemma plain_keyb_spec v : plain_keyb v = true <-> plain_key v.
Proof. by destruct v. Qed.
Lemma keyed_spec l : keyed l = true -> NoDup (map id_of l) /\ Forall (fun d => plain_key (id_of d)) l.
Proof.
  unfold keyed. intros H. apply andb_true_iff in H as [H1%bool_decide_eq_true_1 H2]. split; [done|].
  apply Is_true_true, forallb_True in H2. eapply Forall_impl; [exact H2|]. intros d Hd%Is_true_true. by apply plain_keyb_spec.
Qed.
Lemma rows_kept {A} n (f : coll -> result A * coll) s r s' (P : dict -> Prop) : on_coll n f s = (r, s') ->
  (forall c d, d ∈ k_rows c -> P d -> d ∈ k_rows (snd (f c))) ->
  (forall it, pending it s' = pending it s /\ left it s' = left it s) /\
  forall m d, d ∈ rows_of s m -> P d -> d ∈ rows_of s' m.
Proof.
  intros H Hf. pose proof (on_coll_other _ _ _ _ _ H) as [Hc Ho]. split; [intros it; cbn; unfold pending; by rewrite Hc|].
  intros m d Hd HP. destruct (decide (m = n)) as [->|Hm]; [|unfold rows_of in *; by rewrite Ho].
  apply on_coll_rows in H as [->|(c & _ & E & ->)]; [done|]. apply Hf; [by rewrite <- E|done].
Qed.
Lemma next_cases (it : nat) s l s' : next_batch (it : cursor) s = (Ok l, s') ->
  (exists d l1 ls, d_cursors s !! it = Some ((d :: l1) :: ls) /\ l = map VDict (d :: l1) /\
     s' = Db (d_colls s) (<[it := ls]> (d_cursors s))) \/ (l = [] /\ s' = s /\ pending it s = []).
Proof.
  unfold pending. cbn. intros H. destruct (d_cursors s !! it) as [[|[|d l1] ls]|] eqn:E;
    injection H as <- <-; auto.
  left. by exists d, l1, ls.
Qed.
#[export] Program Instance memory_rows : MilvusRows db "id" := {
  holds s n d := d ∈ rows_of s n; all_rows := keyed_rows; to_come := pending }.
Next Obligation.
  intros s n. unfold keyed_rows. destruct (keyed (rows_of s n)) eqn:E; [by apply keyed_spec|]. split; constructor.
Qed.
Next Obligation.
  intros n b s it s' H. cbn in H. unfold keyed_rows. destruct (keyed (rows_of s n)); [|done]. injection H as <- <-.
  unfold pending. cbn. rewrite lookup_app_r, Nat.sub_diag by lia. cbn. by apply chunks_concat.
Qed.
Next Obligation.
  intros it s l s' H. destruct (next_cases it s l s' H) as [(d & l1 & ls & Hc & -> & ->)|(-> & -> & Hp)].
  - exists (d :: l1). cbn. unfold pending. cbn. rewrite Hc, list_lookup_insert_eq by (by apply lookup_lt_Some in Hc).
    split_and!; [done|done|done|cbn; lia|done].
  - exists []. by split_and!.
Qed.
Next Obligation.
  intros n ids s r s' H. pose proof (look_same _ _ _ _ _ H) as ->. split_and!; [done|done|]. intros l ->.
  unfold rows_of. cbn in H. unfold look_coll in H. destruct (d_colls s !! n) as [c|]; [|done]. injection H as <-.
  apply Forall_map, Forall_forall. intros d Hd. apply list_elem_of_In, filter_In in Hd as [Hin Hp].
  apply andb_true_iff in Hp as [Hp _]. exists d. split_and!; [done|by apply list_elem_of_In|by apply plain_keyb_spec].
Qed.
Next Obligation.
  intros n l s r s' H. apply (rows_kept _ _ _ _ _ (fun _ => True)) in H as [H1 H2]; [split; [done|by intros; apply H2]|].
  intros c d Hd _. cbn. apply elem_of_app. by left.
Qed.
Next Obligation.
  intros n l s r s' H. apply (rows_kept _ _ _ _ _ (fun d => forall e, e ∈ l -> id_of e <> id_of d)) in H as [H1 H2]; [split; [done|]|].
  - intros m d Hd Hk. by apply H2.
  - intros c d Hd Hk. cbn. apply elem_of_app. left. apply list_elem_of_In, filter_In. split; [by apply list_elem_of_In|].
    apply negb_true_iff, bool_decide_eq_false_2. intros Hin. apply list_elem_of_fmap in Hin as (e & He & Hl). by apply (Hk e).
Qed.
Next Obligation. intros it s r s' [= _ <-]; done. Qed.
