(* ===== verification/MigrationExamples.v ===== *)
(** * The migration command ([main] of [milvus_collection_migration.py])

    Reading the token file, the inventory and the client's environment, and
    running one command.  Arguments come parsed; the file system is what
    reading each path gives. *)
From S2P Require Import Prelude PyStr PyFloat PyVal Json JsonRoundtrip Redis Sha WorkerOps Identity Tokens.
From S2P Require Import Gate Collections Documents AuditLog Migration MigrationLaws MigrationHistory.
From S2P Require Import MigrationRows.
#[local] Open Scope Z_scope.

(** What is at the operator token's path. *)
Inductive token_path :=
| TokenSymlink | TokenUnreadable (why : string) | TokenIrregular
| TokenFile (mode : Z) (text : result string).
Definition _read_operator_token (f : token_path) : result string :=
  match f with
  | TokenSymlink => raise OperatorAuthenticationError "operator token file must not be a symlink"
  | TokenUnreadable why => raise OperatorAuthenticationError ("can't read operator token file: " +++ why)
  | TokenIrregular => raise OperatorAuthenticationError "operator token path must be a file"
  | TokenFile mode text =>
      if negb (Z.land mode 63 =? 0)
      then raise OperatorAuthenticationError "operator token file must not be accessible by group or others"
      else try_except (t ← text; Ok (strip t)) [OSError] (fun e =>
             raise OperatorAuthenticationError ("can't read operator token file: " +++ exn_msg e))
  end.
Fixpoint all_texts (l : list value) : option (list string) :=
  match l with
  | [] => Some []
  | VStr s :: l => match all_texts l with Some ss => Some (s :: ss) | None => None end
  | _ => None
  end.
Definition load_subject_inventory (text : result string) : result (list string) :=
  v ← try_except (t ← text; loads t) [OSError; JSONDecodeError] (fun e =>
        raise MigrationStateError ("can't read subject inventory: " +++ exn_msg e));
  match v with
  | VList l =>
      match all_texts l with
      | Some [] => raise MigrationStateError "subject inventory must not be empty"
      | Some subjects => Ok subjects
      | None => raise MigrationStateError "subject inventory must be a JSON array of strings"
      end
  | _ => raise MigrationStateError "subject inventory must be a JSON array of strings"
  end.
Section Command.
Context (getenv : string -> option string).
(** [(os.getenv(name) or fallback).strip()]. *)
Definition getenv_or (name fallback : string) : string :=
  let v := default "" (getenv name) in strip (if (v =? "")%string then fallback else v).
(** [os.getenv(a) or os.getenv(b) or ""]. *)
Definition either_env (a b : string) : string :=
  let v := default "" (getenv a) in strip (if (v =? "")%string then default "" (getenv b) else v).
Definition client_kwargs : result (list (string * string)) :=
  let uri := getenv_or "MILVUS_URI" "" in
  let token := getenv_or "MILVUS_TOKEN" "" in
  let username := either_env "MILVUS_USERNAME" "MILVUS_USER" in
  let password := getenv_or "MILVUS_PASSWORD" "" in
  let blank s := (s =? "")%string in
  if blank uri then raise MigrationStateError "MILVUS_URI is required" else
  credentials ← (if negb (blank token) then Ok [("token", token)]
                 else if negb (blank username) && negb (blank password)
                 then Ok [("user", username); ("password", password)]
                 else raise OperatorAuthenticationError "authenticated Milvus credentials are required for migration");
  let database := getenv_or "MILVUS_DATABASE" "default" in
  Ok ([("uri", uri)] ++ credentials ++
      (if blank database || (database =? "default")%string then [] else [("db_name", database)])).

Inductive command := Migrate | Rollback.
Record arguments := Arguments_ {
  g_command : command; g_subject : string; g_inventory : result string; g_operator : string; g_token : token_path;
  g_base : string; g_batch : Z; g_timeout : seconds; g_reason : option string }.
Definition result_value (r : MigrationResult) : value :=
  VDict [("state", VStr (r_state r)); ("migration_id", VStr (r_migration_id r)); ("subject", VStr (r_subject r));
         ("legacy_collection", VStr (r_legacy r)); ("current_collection", VStr (r_current r));
         ("source_count", VInt (r_source_count r)); ("target_count", VInt (r_target_count r));
         ("already_complete", VBool (r_already r))].
(** Subclasses of [MigrationError]. *)
Definition migration_errors : list exn_class :=
  [OperatorAuthenticationError; AmbiguousLegacyOwnershipError; MigrationStateError; MigrationVerificationError].
Context {S_ : Type} `{!Milvus S_} (o : outside).
(** [MilvusClient] of those arguments; closing it cannot fail the command. *)
Context (connect : list (string * string) -> eff S_ unit) (close_client : eff S_ unit).
Abbreviation W := (mworld S_).
Definition execute_command (g : arguments) (expected_token provided_token : string) (inventory : list string) : eff W (Z * string) :=
  kwargs ← lift client_kwargs;
  _ ← client (connect kwargs);
  let q := Request (g_subject g) inventory (g_operator g) provided_token (g_base g) in
  finally
    (catch
       (res ← match g_command g with
              | Migrate => migrate o expected_token q (g_batch g) (g_timeout g)
              | Rollback => rollback o expected_token q (default "" (g_reason g))
              end;
        mret (0, _canonical_json (result_value res)))
       migration_errors (fun e => mret (2, "migration refused: " +++ exn_msg e)))
    (suppress [Exception_] (client close_client)).
(** The exit status and the line printed. *)
Definition main (g : arguments) : eff W (Z * string) :=
  catch
    (let expected_token := getenv_or "MILVUS_MIGRATION_OPERATOR_TOKEN" "" in
     provided_token ← lift (_read_operator_token (g_token g));
     _ ← lift (verify_operator provided_token expected_token (g_operator g));
     inventory ← lift (load_subject_inventory (g_inventory g));
     execute_command g expected_token provided_token inventory)
    migration_errors (fun e => mret (2, "migration refused: " +++ exn_msg e)).
End Command.

(** ** Concrete runs of the migration

    The theorems on the audit log and on the migration, applied to the runs of
    one operator against the reference client. *)
Definition plain_outside : outside :=
  Outside (fun _ => "2026-01-05T10:00:00+00:00") (fun _ => "5f1c") (fun _ n => Ok (Z.min n 100)) (fun _ => 0) (fun _ => true).
Definition ok_or {A} (d : A) (r : result A) : A := match r with Ok a => a | Raise _ => d end.
Definition fresh : mworld unit := MWorld tt Missing 0 0.
Definition started_event : dict := [("event", VStr "migration_started"); ("subject", VStr "ada"); ("source_count", VInt 3)].
Definition after_start : result dict * mworld unit := append plain_outside started_event fresh.
Definition first_record : dict := ok_or [] (fst after_start).
Definition one_line : string := file_bytes (m_file (snd after_start)).
Lemma empty_sound : sound_log "" [].
Proof. split_and!; [reflexivity|by left|done]. Qed.
Lemma after_start_ok : after_start = (Ok first_record, snd after_start).
Proof. vm_compute. reflexivity. Qed.

Lemma append_extends_witness :
  sound_log (file_bytes (m_file fresh)) [] /\ append plain_outside started_event fresh = (Ok first_record, snd after_start) /\
  extended fresh (snd after_start) /\ dlookup "subject" first_record = Some (VStr "ada").
Proof.
  destruct (append_extends plain_outside started_event [] fresh (Ok first_record) (snd after_start)
    empty_sound ltac:(vm_compute; reflexivity) ltac:(reflexivity) after_start_ok) as [He Hr].
  split; [exact empty_sound|]. split; [exact after_start_ok|]. split; [exact He|].
  destruct (Hr first_record eq_refl) as (_ & _ & Hk). rewrite (Hk "subject"); [reflexivity|].
  apply (bool_decide_unpack _). vm_compute. exact I.
Defined.

(** The same record on a line that ends in a space, and a blank line after it. *)
Definition spaced_line : string := utake (ulen one_line - 1) one_line +++ " " +++ nl +++ nl.
Lemma audit_tamper_evident_witness :
  one_line <> spaced_line /\ _decode one_line = Ok [sort_dict first_record] /\ _decode spaced_line = Ok [sort_dict first_record] /\
  (map payload_text [sort_dict first_record] = map payload_text [sort_dict first_record] \/
   collide [sort_dict first_record] [sort_dict first_record]).
Proof.
  assert (H1 : _decode one_line = Ok [sort_dict first_record]) by (vm_compute; reflexivity).
  assert (H2 : _decode spaced_line = Ok [sort_dict first_record]) by (vm_compute; reflexivity).
  assert (H3 : Forall plain_record [sort_dict first_record]) by (repeat constructor).
  split; [vm_compute; discriminate|]. split; [exact H1|]. split; [exact H2|].
  exact (audit_tamper_evident one_line spaced_line _ _ H1 H2 H3 H3 ltac:(discriminate) ltac:(discriminate) eq_refl).
Defined.

(** ** One migration and its rollback *)
Definition token32 : string := "0123456789abcdef0123456789abcdef".
Definition ada : operator_request := Request "ada" ["ada"; "grace"] "op-1" token32 "user_uploads".
Definition minute : seconds := Seconds (60 * SECOND) "60".
Definition legacy_name : string := "user_uploads_ada".
Definition doc_row (i : Z) (t : string) : dict := [("id", VInt i); ("text", VStr t)].
Definition legacy_coll : coll := Coll
  [("auto_id", VBool false);
   ("fields", VList [VDict [("name", VStr "id"); ("type", VInt 5); ("is_primary", VBool true)];
                     VDict [("name", VStr "text"); ("type", VInt 21)]])]
  [[("field_name", VStr "text"); ("index_name", VStr "text_ix"); ("index_type", VStr "INVERTED"); ("state", VStr "Finished")]]
  [doc_row 1 "one"; doc_row 2 "two"; doc_row 7 "seven"].
Definition start : mworld db := MWorld (Db {[legacy_name := legacy_coll]} []) Missing 0 0.
Definition migrated := migrate plain_outside token32 ada 2 minute start.
Definition world1 : mworld db := snd migrated.
Definition result1 : MigrationResult :=
  ok_or (Result "" "" "" "" "" 0 0 true) (fst migrated).
Lemma ok_raise {A} (a : A) e : Ok a = Raise e -> False.
Proof. discriminate. Qed.
Lemma migrated_ok : migrate plain_outside token32 ada 2 minute start = (Ok result1, world1).
Proof. vm_compute. reflexivity. Qed.
Lemma elapse_ok : forall k, 0 <= elapse plain_outside k.
Proof. intros k. reflexivity. Qed.
Lemma migration_confined_witness : migrate plain_outside token32 ada 2 minute start = (Ok result1, world1) /\ r_source_count result1 = 3 /\
  exists legacy current, authorised token32 ada legacy current /\ legacy <> current /\ confined (eq current) start world1.
Proof.
  split; [exact migrated_ok|]. split; [vm_compute; reflexivity|].
  destruct (proj1 (migration_confined plain_outside token32 ada start (Ok result1) world1) 2 minute migrated_ok)
    as [(_ & _ & e & He)|(legacy & current & Ha & Hc)]; [destruct (ok_raise _ _ He)|].
  exists legacy, current. split; [exact Ha|]. split; [apply Ha|exact Hc].
Defined.
Lemma new_result : r_already result1 = false.
Proof. vm_compute. reflexivity. Qed.
Lemma result1_counts : r_source_count result1 = 3 /\ r_target_count result1 = 3.
Proof. vm_compute. by split. Qed.
Lemma verified_is_recorded_witness : r_already result1 = false /\
  exists record b, m_file world1 = Regular (b +++ _canonical_json (VDict record) +++ nl) /\
    dlookup "source_count" record = Some (VInt 3) /\ dlookup "target_count" record = Some (VInt 3).
Proof.
  split; [exact new_result|].
  destruct (verified_is_recorded plain_outside elapse_ok token32 ada 2 minute start result1 world1 migrated_ok new_result)
    as (n & rows & source & target & allow & b & record & _ & Hf & _ & _ & Hs & Ht & _).
  destruct result1_counts as [H1 H2]. rewrite H1 in Hs. rewrite H2 in Ht.
  exists record, b. split; [exact Hf|]. split; [exact Hs|exact Ht].
Defined.
Definition looked := _wait_for_ready_snapshot plain_outside legacy_name minute start.
Definition seen : CollectionSnapshot :=
  ok_or (Snapshot 0 "" "" false "" false "") (fst looked).
Lemma looked_ok : _wait_for_ready_snapshot plain_outside legacy_name minute start = (Ok seen, snd looked).
Proof. vm_compute. reflexivity. Qed.
Lemma seen_count : count seen = 3.
Proof. vm_compute. reflexivity. Qed.
Lemma waits_end_witness : 0 < ns minute /\ indexes_ready seen = true /\ count seen = 3.
Proof.
  split; [reflexivity|].
  destruct (waits_end plain_outside elapse_ok minute start ltac:(reflexivity)) as [Hr _].
  destruct (Hr legacy_name) as [_ H]. rewrite looked_ok in H. split; [apply H|exact seen_count].
Defined.
Lemma copy_is_complete_witness :
  exists n s', _copy_batches legacy_name "copy" "id" 2 false (put "copy" (Coll [] [] []) (m_store start)) = (Ok n, s') /\
    n = 3 /\ stored "id" s' "copy" [doc_row 1 "one"; doc_row 2 "two"; doc_row 7 "seven"].
Proof.
  destruct (_copy_batches legacy_name "copy" "id" 2 false (put "copy" (Coll [] [] []) (m_store start))) as [[n|e] s'] eqn:E;
    [|exfalso; vm_compute in E; discriminate E].
  exists n, s'. split; [reflexivity|].
  destruct (copy_is_complete "id" legacy_name "copy" 2 false _ n s' E) as [H1 H2]. split; [rewrite H1; vm_compute; reflexivity|].
  exact H2.
Defined.

Definition rolled := rollback plain_outside token32 ada "wrong embedding model" world1.
Definition world2 : mworld db := snd rolled.
Definition result2 : MigrationResult :=
  ok_or (Result "" "" "" "" "" 0 0 true) (fst rolled).
Definition records1 : list dict := ok_or [] (fst (read world1)).
Lemma rolled_ok : rollback plain_outside token32 ada "wrong embedding model" world1 = (Ok result2, world2).
Proof. vm_compute. reflexivity. Qed.
Lemma records1_last : bool_decide (dlookup "event_hash" (default [] (last records1)) =
  Some (VStr (py_str (dget "event_hash" (default [] (last records1)))))) = true.
Proof. vm_compute. reflexivity. Qed.
Lemma last_hash r : last records1 = Some r -> dlookup "event_hash" r = Some (VStr (py_str (dget "event_hash" r))).
Proof. intros Hr. pose proof records1_last as H. rewrite Hr in H. by apply bool_decide_eq_true_1 in H. Qed.
Lemma world1_sound : sound_log (file_bytes (m_file world1)) records1.
Proof.
  split; [vm_compute; reflexivity|]. split.
  - right. exists (utake (ulen (file_bytes (m_file world1)) - 1) (file_bytes (m_file world1))). vm_compute. reflexivity.
  - intros r Hr. exists (py_str (dget "event_hash" (default [] (last records1)))). rewrite Hr. apply last_hash. exact Hr.
Qed.
Lemma rollback_is_final_witness : result2 = Result "rolled_back" "5f1c" "ada" legacy_name (r_current result1) 3 3 false /\
  turned_away world2 (snd (migrate plain_outside token32 ada 2 minute world2)) (fst (migrate plain_outside token32 ada 2 minute world2)).
Proof.
  split; [vm_compute; reflexivity|].
  apply (rollback_is_final plain_outside token32 ada "wrong embedding model" records1 world1 result2 world2 world1_sound
    ltac:(vm_compute; discriminate) rolled_ok token32 ada 2 minute world2); [reflexivity..|].
  apply surjective_pairing.
Defined.
