(* ===== verification/PyNet.v ===== *)
(** * [ipaddress] and relative URLs

    [ipaddress.ip_address] with the properties the program asks of an address,
    as in Python 3.12 (the version of builder/Dockerfile), and
    [urllib.parse.urljoin] and [urldefrag]. *)
From S2P Require Import Prelude PyStr PyFloat PyVal Json PyUrl.
#[local] Open Scope Z_scope.

(** ** Addresses *)
Inductive ip_addr := V4 (n : Z) | V6 (n : Z).
Definition ipv4_value (s : string) : Z := fold_left (fun acc p => acc * 256 + digits_val 0 p) (split_char "." s) 0.
Fixpoint hex_number (acc : Z) (s : string) : Z :=
  match s with
  | EmptyString => acc
  | String c s => hex_number (acc * 16 + match hex_val c with Some d => d | None => 0 end) s
  end.
(** The 16-bit groups of one side of "::"; a dotted quad is two of them. *)
Definition group_values (p : string) : list Z :=
  if contains p "." then let v := ipv4_value p in [v / 65536; v mod 65536] else [hex_number 0 p].
Definition groups (s : string) : list Z :=
  if (s =? "")%string then [] else flat_map group_values (split_char ":" s).
Definition ipv6_value (s : string) : Z :=
  let addr := match cut s "%" with Some (a, _) => a | None => s end in
  let gs := match cut addr "::" with
            | Some (l, r) => let a := groups l in let b := groups r in
                             a ++ repeat 0 (8 - length a - length b) ++ b
            | None => groups addr
            end in
  fold_left (fun acc g => acc * 65536 + g) gs 0.
(** [ipaddress.ip_address(s)]; [None] for ValueError. *)
Definition ip_address (s : string) : option ip_addr :=
  if ipv4_ok s then Some (V4 (ipv4_value s))
  else if ipv6_ok s && negb (contains s "/") then Some (V6 (ipv6_value s)) else None.
(** Whether an address of [w] bits lies in [base/len]. *)
Definition in_net (w n : Z) (net : Z * Z) : bool :=
  Z.shiftr n (w - snd net) =? Z.shiftr (fst net) (w - snd net).
Definition in_any (w n : Z) (nets : list (Z * Z)) : bool := existsb (in_net w n) nets.
Definition quad (a b c d : Z) : Z := ((a * 256 + b) * 256 + c) * 256 + d.
Definition v4_private : list (Z * Z) :=
  [(quad 0 0 0 0, 8); (quad 10 0 0 0, 8); (quad 127 0 0 0, 8); (quad 169 254 0 0, 16); (quad 172 16 0 0, 12);
   (quad 192 0 0 0, 24); (quad 192 0 0 170, 31); (quad 192 0 2 0, 24); (quad 192 168 0 0, 16); (quad 198 18 0 0, 15);
   (quad 198 51 100 0, 24); (quad 203 0 113 0, 24); (quad 240 0 0 0, 4); (quad 255 255 255 255, 32)].
Definition v4_exceptions : list (Z * Z) := [(quad 192 0 0 9, 32); (quad 192 0 0 10, 32)].
Definition v4_shared : Z * Z := (quad 100 64 0 0, 10).
(** The address whose first groups are [gs]. *)
Definition g6 (gs : list Z) : Z := fold_left (fun acc g => acc * 65536 + g) (gs ++ repeat 0 (8 - length gs)) 0.
Definition v6_private : list (Z * Z) :=
  [(1, 128); (0, 128); (g6 [0; 0; 0; 0; 0; 65535], 96); (g6 [100; 65435; 1], 48); (g6 [256], 64); (g6 [8193], 23);
   (g6 [8193; 3512], 32); (g6 [8194], 16); (g6 [16383], 20); (g6 [64512], 7); (g6 [65152], 10)].
Definition v6_exceptions : list (Z * Z) :=
  [(g6 [8193; 1; 0; 0; 0; 0; 0; 1], 128); (g6 [8193; 1; 0; 0; 0; 0; 0; 2], 128); (g6 [8193; 3], 32);
   (g6 [8193; 4; 274], 48); (g6 [8193; 32], 28); (g6 [8193; 48], 28)].
Definition v6_reserved : list (Z * Z) :=
  [(g6 [0], 8); (g6 [256], 8); (g6 [512], 7); (g6 [1024], 6); (g6 [2048], 5); (g6 [4096], 4); (g6 [16384], 3);
   (g6 [24576], 3); (g6 [32768], 3); (g6 [40960], 3); (g6 [49152], 3); (g6 [57344], 4); (g6 [61440], 5);
   (g6 [63488], 6); (g6 [65024], 9)].
Definition v4_is_private (n : Z) : bool := in_any 32 n v4_private && negb (in_any 32 n v4_exceptions).
Definition ipv4_mapped (n : Z) : option Z :=
  if in_net 128 n (g6 [0; 0; 0; 0; 0; 65535], 96) then Some (Z.land n 4294967295) else None.
Definition is_private (a : ip_addr) : bool :=
  match a with
  | V4 n => v4_is_private n
  | V6 n => match ipv4_mapped n with
            | Some m => v4_is_private m
            | None => in_any 128 n v6_private && negb (in_any 128 n v6_exceptions)
            end
  end.
Definition is_global (a : ip_addr) : bool :=
  match a with
  | V4 n => negb (in_net 32 n v4_shared) && negb (is_private a)
  | V6 _ => negb (is_private a)
  end.
Definition is_site_local (a : ip_addr) : bool :=
  match a with V4 _ => false | V6 n => in_net 128 n (g6 [65216], 10) end.
Definition is_loopback (a : ip_addr) : bool := match a with V4 n => in_net 32 n (quad 127 0 0 0, 8) | V6 n => n =? 1 end.
Definition is_link_local (a : ip_addr) : bool :=
  match a with V4 n => in_net 32 n (quad 169 254 0 0, 16) | V6 n => in_net 128 n (g6 [65152], 10) end.
Definition is_reserved (a : ip_addr) : bool :=
  match a with V4 n => in_net 32 n (quad 240 0 0 0, 4) | V6 n => in_any 128 n v6_reserved end.
Definition is_multicast (a : ip_addr) : bool :=
  match a with V4 n => in_net 32 n (quad 224 0 0 0, 4) | V6 n => in_net 128 n (g6 [65280], 8) end.
Definition is_unspecified (a : ip_addr) : bool := match a with V4 n => n =? 0 | V6 n => n =? 0 end.

(** ** Relative URLs *)
Definition uses_relative : list string :=
  [""; "ftp"; "http"; "gopher"; "nntp"; "imap"; "wais"; "file"; "https"; "shttp"; "mms"; "prospero"; "rtsp"; "rtsps";
   "rtspu"; "sftp"; "svn"; "svn+ssh"; "ws"; "wss"].
Definition uses_netloc : list string :=
  [""; "ftp"; "http"; "gopher"; "nntp"; "telnet"; "imap"; "wais"; "file"; "mms"; "https"; "shttp"; "snews"; "prospero";
   "rtsp"; "rtsps"; "rtspu"; "rsync"; "svn"; "svn+ssh"; "sftp"; "nfs"; "git"; "git+ssh"; "ws"; "wss"; "itms-services"].
Definition uses_params : list string :=
  [""; "ftp"; "hdl"; "prospero"; "http"; "imap"; "https"; "shttp"; "rtsp"; "rtsps"; "rtspu"; "sip"; "sips"; "mms"; "sftp"; "tel"].
Definition among (s : string) (l : list string) : bool := existsb (String.eqb s) l.
(** [_splitparams]: at the first ";" of the last segment. *)
Definition split_params (path : string) : string * string :=
  match rcut path "/" with
  | Some (dir, seg) => match cut seg ";" with Some (a, p) => (dir +++ "/" +++ a, p) | None => (path, "") end
  | None => match cut path ";" with Some p => p | None => (path, "") end
  end.
(** [urlparse]: the path without its parameters, and those. *)
Definition urlparse (u : split_result) : string * string :=
  if among (u_scheme u) uses_params && contains (u_path u) ";" then split_params (u_path u) else (u_path u, "").
Definition url_text (scheme netloc path params query fragment : string) : string :=
  let url := if (params =? "")%string then path else path +++ ";" +++ params in
  let url :=
    if negb (netloc =? "")%string then
      "//" +++ netloc +++ (if negb (url =? "")%string && negb (startswith url "/") then "/" +++ url else url)
    else if startswith url "//" then "//" +++ url
    else if negb (scheme =? "")%string && among scheme uses_netloc && ((url =? "")%string || startswith url "/")
    then "//" +++ url else url in
  let url := if (scheme =? "")%string then url else scheme +++ ":" +++ url in
  let url := if (query =? "")%string then url else url +++ "?" +++ query in
  if (fragment =? "")%string then url else url +++ "#" +++ fragment.
Definition pop_last {A} (l : list A) : list A := removelast l.
(** Dot segments. *)
Fixpoint resolve_segments (resolved : list string) (segments : list string) : list string :=
  match segments with
  | [] => resolved
  | seg :: segments =>
      if (seg =? "..")%string then resolve_segments (pop_last resolved) segments
      else if (seg =? ".")%string then resolve_segments resolved segments
      else resolve_segments (resolved ++ [seg]) segments
  end.
(** [segments[1:-1] = filter(None, segments[1:-1])]. *)
Definition drop_inner_blanks (l : list string) : list string :=
  match l with
  | first :: (_ :: _) as l' => first :: List.filter (fun s => negb (s =? "")%string) (removelast (tl l)) ++ [default ""%string (last l)]
  | _ => l
  end.
Definition urljoin (base url : string) : result string :=
  if (base =? "")%string then Ok url else if (url =? "")%string then Ok base else
  b ← urlsplit base;
  u ← urlsplit url;
  let scheme := if (u_scheme u =? "")%string then u_scheme b else u_scheme u in
  let '(bpath, bparams) := urlparse b in
  let '(path, params) := urlparse (Split scheme (u_netloc u) (u_path u) (u_query u) (u_fragment u)) in
  if negb (scheme =? u_scheme b)%string || negb (among scheme uses_relative) then Ok url
  else if among scheme uses_netloc && negb (u_netloc u =? "")%string
  then Ok (url_text scheme (u_netloc u) path params (u_query u) (u_fragment u))
  else
    let netloc := if among scheme uses_netloc then u_netloc b else u_netloc u in
    if (path =? "")%string && (params =? "")%string then
      Ok (url_text scheme netloc bpath bparams (if (u_query u =? "")%string then u_query b else u_query u) (u_fragment u))
    else
      let base_parts := split_char "/" bpath in
      let base_parts := if (default ""%string (last base_parts) =? "")%string then base_parts else removelast base_parts in
      let segments := if startswith path "/" then split_char "/" path
                      else drop_inner_blanks (base_parts ++ split_char "/" path) in
      let resolved := resolve_segments [] segments in
      let final := default ""%string (last segments) in
      let resolved := if (final =? ".")%string || (final =? "..")%string then resolved ++ [""] else resolved in
      let p := join "/" resolved in
      Ok (url_text scheme netloc (if (p =? "")%string then "/" else p) params (u_query u) (u_fragment u)).
(** [.username] and [.password]. *)
Definition userinfo (u : split_result) : option string * option string :=
  match rcut (u_netloc u) "@" with
  | None => (None, None)
  | Some (info, _) => match cut info ":" with Some (a, b) => (Some a, Some b) | None => (Some info, None) end
  end.
(** [urldefrag(url)[0]]. *)
Definition urldefrag (url : string) : result string :=
  if contains url "#" then
    u ← urlsplit url;
    let '(path, params) := urlparse u in
    Ok (url_text (u_scheme u) (u_netloc u) path params (u_query u) "")
  else Ok url.

Example ip_ex : map ip_address ["10.1.2.3"; "::ffff:1.2.3.4"; "fe80::1%eth0"; "1.2.3"; "2001:4860:4860::8888"] =
  [Some (V4 167838211); Some (V6 281470698652420); Some (V6 338288524927261089654018896841347694593); None;
   Some (V6 42541956123769884636017138956568135816)].
Proof. vm_compute. reflexivity. Qed.
Example join_ex : map (urljoin "https://a.example/x/y;p/z?q=1#f") ["../t"; "/r?s"; "//b.example"; "http://c.example/d"; "?n=2"; "k"] =
  [Ok "https://a.example/x/t"; Ok "https://a.example/r?s"; Ok "https://b.example"; Ok "http://c.example/d";
   Ok "https://a.example/x/y;p/z?n=2"; Ok "https://a.example/x/y;p/k"].
Proof. vm_compute. reflexivity. Qed.
