(* ===== verification/SafeHttp.v ===== *)
(** * Fetching public URLs ([nat_helpers/url_guard.py], [nat_helpers/safe_http.py])

    Which URLs and addresses a tool may reach, the pinned connections of the
    transport, its bound on responses, and redirects that are checked one by
    one.  DNS and the HTTP client are outside the repository: [network] says
    what each lookup answers and which connections and response each request
    leads to. *)
From S2P Require Import Prelude PyStr PyFloat PyVal Json Redis PyUrl Sha StoreOps WorkerOps Identity PyNet.
#[local] Open Scope Z_scope.

(** ** Addresses *)
Definition _ip_is_public_addr (addr : ip_addr) : bool :=
  negb (negb (is_global addr) || is_site_local addr || is_loopback addr || is_link_local addr || is_reserved addr ||
        is_multicast addr || is_unspecified addr).
Definition _ip_is_public (ip : string) : bool :=
  match ip_address ip with None => false | Some addr => _ip_is_public_addr addr end.
(** [socket.getaddrinfo]: the addresses, [gaierror], or another exception. *)
Inductive lookup_answer := Addresses (l : list string) | NoAnswer (why : string) | LookupFailed (e : exn).
(** [dict.fromkeys] of texts. *)
Fixpoint distinct (seen : list string) (l : list string) : list string :=
  match l with
  | [] => []
  | x :: l => if is_in x seen then distinct seen l else x :: distinct (x :: seen) l
  end.
Definition check_answer (host : string) (a : lookup_answer) : result (list string) :=
  match a with
  | NoAnswer why => raise UnresolvableHostError ("Could not resolve host '" +++ host +++ "': " +++ why)
  | LookupFailed e => Raise e
  | Addresses l =>
      match distinct [] l with
      | [] => raise UnresolvableHostError ("Host '" +++ host +++ "' did not resolve to any address.")
      | addresses =>
          if forallb _ip_is_public addresses then Ok addresses
          else raise UnsafeURLError ("URL host '" +++ host +++ "' resolves to a non-public address.")
      end
  end.
(** What a URL is before any lookup: its host, or the refusal. *)
Definition url_host (url : string) (allowed_schemes : list string) : result string :=
  if (url =? "")%string then raise UnsafeURLError "No URL supplied." else
  parsed ← urlsplit (strip url);
  if negb (is_in (lower (u_scheme parsed)) allowed_schemes)
  then raise UnsafeURLError ("URL scheme '" +++ u_scheme parsed +++ "' is not allowed.")
  else match hostname parsed with
       | Some host => Ok host
       | None => raise UnsafeURLError "URL is missing a host."
       end.
Definition literal_check (host : string) : result unit :=
  match ip_address host with
  | Some _ => if _ip_is_public host then Ok tt
              else raise UnsafeURLError ("URL host '" +++ host +++ "' is a non-public address.")
  | None => Ok tt
  end.
(** [validate_public_url(url, allowed_schemes=..., check_dns=False)]. *)
Definition validate_offline (url : string) (allowed_schemes : list string) : result string :=
  host ← url_host url allowed_schemes;
  _ ← literal_check host;
  Ok url.

(** ** The network *)
Record response := Response { p_status : Z; p_headers : list (string * string); p_body : string }.
(** One request as the client performs it: the hosts it opens connections to,
    then a response with the chunks of its body, or an exception. *)
Record exchange := Exchange {
  x_hosts : list string; x_status : Z; x_headers : list (string * string); x_chunks : list string; x_error : option exn }.
Record network := Network {
  getaddrinfo : nat -> string -> lookup_answer;
  perform : nat -> string -> exchange }.
Inductive net_event := Connected (address : string) | Requested (url : string) | Slept (seconds : float).
Record net_world := NetWorld { nw_lookups : nat; nw_requests : nat; nw_log : list net_event }.
(** [response.is_redirect] of httpx: a 3xx status. *)
Definition header (name : string) (r : response) : option string := hlookup name (p_headers r).
Definition is_redirect (r : response) : bool := (300 <=? p_status r) && (p_status r <=? 399).

Section Net.
Context (net : network).
Abbreviation W := net_world.
Definition record_event (e : net_event) : eff W unit :=
  modify (fun w => NetWorld (nw_lookups w) (nw_requests w) (nw_log w ++ [e])).
Definition lookup_host (host : string) : eff W lookup_answer := fun w =>
  (Ok (getaddrinfo net (nw_lookups w) host), NetWorld (S (nw_lookups w)) (nw_requests w) (nw_log w)).
Definition next_exchange (url : string) : eff W exchange := fun w =>
  (Ok (perform net (nw_requests w) url), NetWorld (nw_lookups w) (S (nw_requests w)) (nw_log w)).
Definition resolve_public_addresses (host : string) : eff W (list string) :=
  match ip_address host with
  | Some _ => _ ← lift (literal_check host); mret [host]
  | None => a ← lookup_host host; lift (check_answer host a)
  end.
Definition validate_public_url (url : string) (allowed_schemes : list string) : eff W string :=
  host ← lift (url_host url allowed_schemes);
  _ ← resolve_public_addresses host;
  mret url.

(** ** The transport *)
Definition _DEFAULT_MAX_REDIRECTS : Z := 10.
Definition _DEFAULT_MAX_RESPONSE_BYTES : Z := 16 * 1024 * 1024.
Definition connect_tcp (host : string) : eff W unit :=
  addresses ← resolve_public_addresses host;
  match addresses with
  | [] => throw IndexError "tuple index out of range"
  | a :: _ => record_event (Connected a)
  end.
Definition too_large {A} (limit : Z) : result A :=
  raise ResponseSizeError ("Public response exceeds " +++ str_of_Z limit +++ " byte limit.").
Definition _check_response_size (r : response) (limit : Z) : result unit :=
  let encoding := lower (strip (default "identity" (header "content-encoding" r))) in
  if negb (is_in encoding [""; "identity"])
  then raise ResponseSizeError "Public fetch requires identity content encoding." else
  let length := default "" (header "content-length" r) in
  if isdigit length && (limit <? digits_val 0 length) then too_large limit else Ok tt.
(** [_BoundedAsyncStream], read to its end. *)
Fixpoint bounded_read (total limit : Z) (chunks : list string) : result string :=
  match chunks with
  | [] => Ok ""
  | chunk :: chunks =>
      let total := total + blen chunk in
      if limit <? total then too_large limit else
      rest ← bounded_read total limit chunks;
      Ok (chunk +++ rest)
  end.
(** [client.get(url)] over the transport. *)
Definition client_get (limit : Z) (url : string) : eff W response :=
  _ ← record_event (Requested url);
  x ← next_exchange url;
  _ ← iterE connect_tcp (x_hosts x);
  match x_error x with
  | Some e => rethrow e
  | None =>
      let r := Response (x_status x) (x_headers x) "" in
      _ ← lift (_check_response_size r limit);
      body ← lift (bounded_read 0 limit (x_chunks x));
      mret (Response (x_status x) (x_headers x) body)
  end.

(** ** Redirects *)
Fixpoint follow (fuel : nat) (limit : Z) (allowed_schemes : list string) (current_url : string) : eff W (option response) :=
  match fuel with
  | O => mret None
  | S fuel =>
      _ ← validate_public_url current_url allowed_schemes;
      r ← client_get limit current_url;
      if negb (is_redirect r) then mret (Some r) else
      let location := default "" (header "location" r) in
      if (location =? "")%string then mret (Some r) else
      next ← lift (urljoin current_url location);
      follow fuel limit allowed_schemes next
  end.
Definition get_public_response_async (limit : Z) (url : string) (allowed_schemes : list string) (max_redirects : Z)
  : eff W response :=
  r ← follow (Z.to_nat (max_redirects + 1)) limit allowed_schemes url;
  match r with
  | Some r => mret r
  | None => throw UnsafeURLError ("Exceeded maximum of " +++ str_of_Z max_redirects +++ " redirects while fetching '" +++
                                  url +++ "'.")
  end.
End Net.

(** ** Laws of fetching public URLs

    What a public address is not, and that fetching stays among public
    addresses, allowed schemes, a number of requests and a size. *)
(** ** Addresses *)
Lemma in_net_spec w n base len : 0 <= len <= w -> (2 ^ (w - len) | base) ->
  in_net w n (base, len) = true <-> base <= n < base + 2 ^ (w - len).
Proof.
  intros Hl [k ->]. unfold in_net. cbn [fst snd]. rewrite !Z.shiftr_div_pow2 by lia.
  assert (0 < 2 ^ (w - len)) by (apply Z.pow_pos_nonneg; lia). rewrite Z.div_mul by lia. rewrite Z.eqb_eq. split.
  - intros <-. pose proof (Z.div_mod n (2 ^ (w - len))). pose proof (Z.mod_pos_bound n (2 ^ (w - len))). lia.
  - intros [H1 H2]. symmetry. apply (Z.div_unique n (2 ^ (w - len)) k (n - k * 2 ^ (w - len))); lia.
Qed.
(** The blocks that a public IPv4 address is outside of. *)
Definition internal_v4 : list (Z * Z) :=
  [(quad 0 0 0 0, quad 0 255 255 255); (quad 10 0 0 0, quad 10 255 255 255); (quad 100 64 0 0, quad 100 127 255 255);
   (quad 127 0 0 0, quad 127 255 255 255); (quad 169 254 0 0, quad 169 254 255 255);
   (quad 172 16 0 0, quad 172 31 255 255); (quad 192 168 0 0, quad 192 168 255 255);
   (quad 224 0 0 0, quad 255 255 255 255)].
Definition inside (n : Z) (block : Z * Z) : Prop := fst block <= n <= snd block.
(** The blocks of IPv6: link and site local, unique local, multicast, and the
    lowest 1/256, with loopback, mapped and translated IPv4. *)
Definition internal_v6 : list (Z * Z) :=
  [(g6 [65152], g6 [65215; 65535; 65535; 65535; 65535; 65535; 65535; 65535]);
   (g6 [65216], g6 [65279; 65535; 65535; 65535; 65535; 65535; 65535; 65535]);
   (g6 [64512], g6 [65023; 65535; 65535; 65535; 65535; 65535; 65535; 65535]);
   (g6 [65280], g6 [65535; 65535; 65535; 65535; 65535; 65535; 65535; 65535]);
   (0, g6 [255; 65535; 65535; 65535; 65535; 65535; 65535; 65535])].
Lemma in_any_false w n nets net : in_any w n nets = false -> net ∈ nets -> in_net w n net = false.
Proof.
  intros H Hin. destruct (in_net w n net) eqn:E; [|done]. rewrite <- H. unfold in_any. symmetry. apply existsb_exists.
  exists net. split; [by apply list_elem_of_In|done].
Qed.
Lemma outside_net w n base len hi : in_net w n (base, len) = false -> 0 <= len <= w -> (2 ^ (w - len) | base) ->
  hi = base + 2 ^ (w - len) - 1 -> ~ inside n (base, hi).
Proof.
  intros H Hl Hd -> [H1 H2]. cbn in *. assert (in_net w n (base, len) = true) by (apply in_net_spec; [done|done|lia]). congruence.
Qed.
Ltac among_nets := apply list_elem_of_In; repeat first [left; reflexivity|right].
Ltac outside := eapply outside_net; [eassumption|lia|by apply Z.mod_divide; vm_compute|vm_compute; reflexivity].
Lemma single_net n base : in_net 32 n (base, 32) = true -> n = base.
Proof. unfold in_net. cbn [fst snd]. change (32 - 32) with 0. rewrite !Z.shiftr_0_r. by intros H%Z.eqb_eq. Qed.
Lemma v4_outside n : _ip_is_public_addr (V4 n) = true -> Forall (fun b => ~ inside n b) internal_v4.
Proof.
  unfold _ip_is_public_addr. intros H. apply negb_true_iff in H. bool_prop. cbn [is_global is_loopback is_link_local is_reserved is_multicast is_unspecified is_private] in *.
  match goal with H : negb _ && negb _ = true |- _ => apply andb_true_iff in H as [Hs Hp] end.
  apply negb_true_iff in Hs, Hp. unfold v4_is_private in Hp. apply andb_false_iff in Hp as [Hp|Hp].
  - assert (P : forall net, net ∈ v4_private -> in_net 32 n net = false) by (intros net; by apply in_any_false).
    assert (in_net 32 n (quad 0 0 0 0, 8) = false) by (apply P; among_nets).
    assert (in_net 32 n (quad 10 0 0 0, 8) = false) by (apply P; among_nets).
    assert (in_net 32 n (quad 172 16 0 0, 12) = false) by (apply P; among_nets).
    assert (in_net 32 n (quad 192 168 0 0, 16) = false) by (apply P; among_nets).
    repeat constructor; try outside. intros [L U]. cbn [fst snd] in *.
    assert (Ha : ~ inside n (quad 224 0 0 0, quad 239 255 255 255)) by outside.
    assert (Hb : ~ inside n (quad 240 0 0 0, quad 255 255 255 255)) by outside.
    unfold inside in *. cbn [fst snd] in *. change (quad 239 255 255 255) with (quad 240 0 0 0 - 1) in Ha. lia.
  - apply negb_false_iff in Hp. assert (n = quad 192 0 0 9 \/ n = quad 192 0 0 10) as [-> | ->].
    { unfold in_any, v4_exceptions in Hp. cbn [existsb] in Hp. rewrite orb_false_r in Hp.
      apply orb_true_iff in Hp as [Hp|Hp]; apply single_net in Hp; auto. }
    + repeat constructor; intros [L U]; vm_compute in L, U; first [by apply L|by apply U].
    + repeat constructor; intros [L U]; vm_compute in L, U; first [by apply L|by apply U].
Qed.
Lemma v6_outside n : _ip_is_public_addr (V6 n) = true -> Forall (fun b => ~ inside n b) internal_v6.
Proof.
  unfold _ip_is_public_addr. intros H. apply negb_true_iff in H. bool_prop.
  cbn [is_global is_loopback is_link_local is_site_local is_reserved is_multicast is_unspecified is_private] in *.
  assert (in_net 128 n (g6 [0], 8) = false) by (eapply in_any_false; [eassumption|among_nets]).
  assert (Hu : in_net 128 n (g6 [64512], 7) = false).
  { assert (Hpriv : is_private (V6 n) = false) by (by apply negb_true_iff). revert Hpriv. cbn [is_private].
    unfold ipv4_mapped. destruct (in_net 128 n (g6 [0; 0; 0; 0; 0; 65535], 96)) eqn:E.
    - intros _. apply in_net_spec in E; [|lia|by apply Z.mod_divide; vm_compute].
      destruct (in_net 128 n (g6 [64512], 7)) eqn:E2; [|done]. apply in_net_spec in E2; [|lia|by apply Z.mod_divide; vm_compute].
      exfalso. vm_compute (2 ^ _) in E, E2. vm_compute (g6 _) in E, E2. lia.
    - intros Hp. apply andb_false_iff in Hp as [Hp|Hp]; [eapply in_any_false; [exact Hp|among_nets]|].
      apply negb_false_iff in Hp. unfold in_any in Hp. apply existsb_exists in Hp as ([b l] & Hin & Hp).
      destruct (in_net 128 n (g6 [64512], 7)) eqn:E2; [|done]. apply in_net_spec in E2; [|lia|by apply Z.mod_divide; vm_compute].
      exfalso. vm_compute (2 ^ _) in E2. vm_compute (g6 _) in E2. unfold v6_exceptions in Hin.
      repeat (destruct Hin as [[= <- <-]|Hin]; [apply in_net_spec in Hp; [|lia|by apply Z.mod_divide; vm_compute];
        vm_compute (2 ^ _) in Hp; vm_compute (g6 _) in Hp; lia|]). done. }
  repeat constructor; outside.
Qed.
(** An accepted address is outside every internal block. *)
Definition outside_internal (ip : string) : Prop :=
  match ip_address ip with
  | Some (V4 n) => Forall (fun b => ~ inside n b) internal_v4
  | Some (V6 n) => Forall (fun b => ~ inside n b) internal_v6
  | None => False
  end.
Lemma public_outside ip : _ip_is_public ip = true -> outside_internal ip.
Proof.
  unfold _ip_is_public, outside_internal. destruct (ip_address ip) as [[n|n]|]; [apply v4_outside|apply v6_outside|done].
Qed.

(** ** Fetching *)
Section Fetch.
Context (net : network).
Abbreviation W := net_world.
Lemma literal_ok host : literal_check host = Ok tt -> ip_address host <> None -> _ip_is_public host = true.
Proof. unfold literal_check. destruct (ip_address host); [|done]. by destruct (_ip_is_public host). Qed.
Lemma check_answer_public host a addresses : check_answer host a = Ok addresses ->
  addresses <> [] /\ Forall (fun ip => _ip_is_public ip = true) addresses.
Proof.
  unfold check_answer. destruct a as [l|why|e]; [|done|done]. destruct (distinct [] l) as [|x xs]; [done|].
  destruct (forallb _ip_is_public (x :: xs)) eqn:E; [|done]. intros [= <-]. split; [done|].
  apply Is_true_true, forallb_True in E. eapply Forall_impl; [exact E|]. intros y. apply Is_true_true.
Qed.
(** Events that may appear in the log: a connection to a public address, a
    request for a URL of an allowed scheme. *)
Definition safe_event (schemes : list string) (e : net_event) : Prop :=
  match e with
  | Connected a => _ip_is_public a = true
  | Requested u => exists host, url_host u schemes = Ok host /\ (ip_address host <> None -> _ip_is_public host = true)
  | Slept _ => True
  end.
Definition is_request (e : net_event) : bool := match e with Requested _ => true | _ => false end.
Definition requests (l : list net_event) : nat := length (List.filter is_request l).
(** At most [k] requests, and only safe events. *)
Definition extends_by (schemes : list string) (k : nat) (w w' : W) : Prop :=
  exists es, nw_log w' = nw_log w ++ es /\ Forall (safe_event schemes) es /\ (requests es <= k)%nat.
Lemma fetches_none schemes k w w' : nw_log w' = nw_log w -> extends_by schemes k w w'.
Proof. intros H. exists []. rewrite app_nil_r. split_and!; [done|constructor|cbn; lia]. Qed.
Lemma fetches_app schemes j k w1 w2 w3 : extends_by schemes j w1 w2 -> extends_by schemes k w2 w3 -> extends_by schemes (j + k) w1 w3.
Proof.
  intros (e1 & L1 & F1 & N1) (e2 & L2 & F2 & N2). exists (e1 ++ e2). split_and!.
  - by rewrite L2, L1, app_assoc. - by apply Forall_app. - unfold requests in *. rewrite List.filter_app, length_app. lia.
Qed.
#[export] Instance fetches_preorder schemes : PreOrder (extends_by schemes 0).
Proof. split; [intros w; by apply fetches_none|]. intros w1 w2 w3 H1 H2. exact (fetches_app _ 0 0 _ _ _ H1 H2). Qed.
Lemma resolve_frame schemes host : pres (extends_by schemes 0) (resolve_public_addresses net host).
Proof.
  unfold resolve_public_addresses. destruct (ip_address host); walk. intros w r w' [= _ <-]. by apply fetches_none.
Qed.
Lemma resolve_public w host addresses w' : resolve_public_addresses net host w = (Ok addresses, w') ->
  Forall (fun ip => _ip_is_public ip = true) addresses /\ (ip_address host <> None -> _ip_is_public host = true).
Proof.
  unfold resolve_public_addresses. destruct (ip_address host) eqn:E; intros H.
  - apply bind_Ok in H as ([] & w1 & H1 & H). injection H1 as H1 _. injection H as <- _.
    assert (_ip_is_public host = true) by (apply literal_ok; [done|by rewrite E]). by repeat constructor.
  - apply bind_Ok in H as (a & w1 & _ & H). injection H as H _. apply check_answer_public in H as [_ H]. by split.
Qed.
Lemma connect_frame schemes host : pres (extends_by schemes 0) (connect_tcp net host).
Proof.
  intros w r w' H. unfold connect_tcp in H. apply bind_inv in H as [(l & w1 & H1 & H)|(e & H1 & ->)].
  - etransitivity; [by eapply resolve_frame|]. apply resolve_public in H1 as [H1 _].
    destruct l as [|a l]; [injection H as _ <-; by apply fetches_none|]. injection H as _ <-.
    exists [Connected a]. inversion H1; subst. split_and!; [done|by repeat constructor|done].
  - by eapply resolve_frame.
Qed.
Lemma bounded_read_ok limit chunks : forall total body, total <= limit -> bounded_read total limit chunks = Ok body ->
  total + blen body <= limit.
Proof.
  induction chunks as [|c chunks IH]; intros total body Ht H; cbn [bounded_read] in H; [injection H as <-; unfold blen; cbn [String.length]; lia|].
  destruct (Z.ltb_spec limit (total + blen c)); [done|]. apply bind_ok in H as (rest & Hr & H). injection H as <-.
  apply IH in Hr; [|lia]. unfold blen in *. rewrite length_append, Nat2Z.inj_add. lia.
Qed.
Lemma get_frame schemes limit u w r w' : 0 <= limit -> safe_event schemes (Requested u) -> client_get net limit u w = (r, w') ->
  extends_by schemes 1 w w' /\ forall resp, r = Ok resp -> blen (p_body resp) <= limit.
Proof.
  intros Hlimit Hu H. unfold client_get in H. apply bind_inv in H as [([] & w1 & H1 & H)|(e & H1 & ->)]; [|done]. injection H1 as <-.
  assert (E1 : extends_by schemes 1 w (NetWorld (nw_lookups w) (nw_requests w) (nw_log w ++ [Requested u]))).
  { exists [Requested u]. split_and!; [done|by repeat constructor|done]. }
  apply bind_inv in H as [(x & w2 & H2 & H)|(e & H2 & ->)]; [|done]. injection H2 as <- <-.
  match type of H with _ ?w2 = _ => assert (E2 : extends_by schemes 1 w w2) end.
  { apply (fetches_app _ 1 0 _ _ _ E1). by apply fetches_none. }
  assert (Hc : forall w2 r2 w3, iterE (connect_tcp net) (x_hosts (perform net (nw_requests w) u)) w2 = (r2, w3) -> extends_by schemes 0 w2 w3).
  { apply pres_iter; [exact _|]. intros h. apply connect_frame. }
  apply bind_inv in H as [([] & w3 & H3 & H)|(e & H3 & ->)].
  2:{ split; [|done]. exact (fetches_app _ 1 0 _ _ _ E2 (Hc _ _ _ H3)). }
  pose proof (fetches_app _ 1 0 _ _ _ E2 (Hc _ _ _ H3)) as E3. cbn [Nat.add] in E3.
  destruct (x_error _) as [e|]; [injection H as <- <-; by split|].
  apply bind_inv in H as [([] & w4 & H4 & H)|(e & H4 & ->)]; [|injection H4 as _ <-; by split]. injection H4 as _ <-.
  apply bind_inv in H as [(body & w5 & H5 & H)|(e & H5 & ->)]; [|injection H5 as _ <-; by split]. injection H5 as H5 <-.
  injection H as <- <-. split; [done|]. intros resp [= <-]. cbn [p_body]. by apply bounded_read_ok in H5.
Qed.
Lemma validate_frame schemes u w r w' : validate_public_url net u schemes w = (r, w') ->
  extends_by schemes 0 w w' /\ (forall x, r = Ok x -> safe_event schemes (Requested u)).
Proof.
  unfold validate_public_url. intros H. apply bind_inv in H as [(host & w1 & H1 & H)|(e & H1 & ->)].
  2:{ injection H1 as _ <-. split; [by apply fetches_none|done]. }
  injection H1 as H1 <-. apply bind_inv in H as [(l & w2 & H2 & H)|(e & H2 & ->)].
  - injection H as <- <-. split; [by eapply resolve_frame|]. intros x _. apply resolve_public in H2 as [_ H2]. cbn. eauto.
  - split; [by eapply resolve_frame|done].
Qed.
Lemma follow_frame schemes limit fuel : 0 <= limit -> forall u w r w', follow net fuel limit schemes u w = (r, w') ->
  extends_by schemes fuel w w' /\
  forall resp, r = Ok (Some resp) -> blen (p_body resp) <= limit /\ (is_redirect resp = true -> default "" (header "location" resp) = "").
Proof.
  intros Hl. induction fuel as [|fuel IH]; intros u w r w' H; cbn [follow] in H.
  { injection H as <- <-. split; [by apply fetches_none|done]. }
  change (Datatypes.S fuel) with (1 + fuel)%nat.
  apply bind_inv in H as [(x & w1 & H1 & H)|(e & H1 & ->)]; apply validate_frame in H1 as [E1 S1].
  2:{ split; [|done]. apply (fetches_app _ 0 _ _ _ _ E1). by apply fetches_none. }
  specialize (S1 x eq_refl).
  apply bind_inv in H as [(resp & w2 & H2 & H)|(e & H2 & ->)]; apply (get_frame schemes) in H2 as [E2 B2]; try done.
  2:{ split; [|done]. apply (fetches_app _ 0 _ _ _ _ E1). apply (fetches_app _ 1 fuel _ _ _ E2). by apply fetches_none. }
  assert (E3 : extends_by schemes 1 w w2) by exact (fetches_app _ 0 1 _ _ _ E1 E2).
  specialize (B2 resp eq_refl).
  assert (Hstop : extends_by schemes (1 + fuel) w w2) by (apply (fetches_app _ 1 fuel _ _ _ E3); by apply fetches_none).
  destruct (is_redirect resp) eqn:R; cbn [negb] in H.
  - destruct (String.eqb_spec (default "" (header "location" resp)) "") as [L|L].
    + injection H as <- <-. split; [done|]. intros resp' [= <-]. by split.
    + apply bind_inv in H as [(next & w3 & H3 & H)|(e & H3 & ->)]; injection H3 as _ <-; [|by split].
      apply IH in H as [E4 B4]. split; [|done]. exact (fetches_app _ 1 fuel _ _ _ E3 E4).
  - injection H as <- <-. split; [done|]. intros resp' [= <-]. by rewrite R.
Qed.
Lemma get_public_frame schemes limit max_redirects : 0 <= limit -> forall u w r w',
  get_public_response_async net limit u schemes max_redirects w = (r, w') ->
  extends_by schemes (Z.to_nat (max_redirects + 1)) w w' /\
  forall resp, r = Ok resp -> blen (p_body resp) <= limit /\ (is_redirect resp = true -> default "" (header "location" resp) = "").
Proof.
  intros Hl u w r w' H. unfold get_public_response_async in H.
  apply bind_inv in H as [(o & w1 & H1 & H)|(e & H1 & ->)]; apply follow_frame in H1 as [E B]; try done.
  destruct o as [resp|]; injection H as <- <-; (split; [done|]); [|done]. intros ? [= <-]. by apply B.
Qed.
(** C6: where a fetch can go.  Whatever DNS answers, from one lookup to the
    next, and whatever the server sends, a fetch only opens connections to
    addresses outside the loopback, private, shared, link-local, multicast and
    reserved ranges of IPv4 and IPv6; it requests at most [max_redirects + 1]
    URLs, each with an allowed scheme and a host that is no internal literal;
    and a response it returns is no larger than the limit and no redirect it
    could still follow. *)
Theorem fetch_confined limit url schemes max_redirects w r w' : 0 <= limit -> 0 <= max_redirects ->
  get_public_response_async net limit url schemes max_redirects w = (r, w') ->
  exists es, nw_log w' = nw_log w ++ es /\
    (forall a, Connected a ∈ es -> outside_internal a) /\
    (forall u, Requested u ∈ es -> exists host, url_host u schemes = Ok host /\ (ip_address host <> None -> outside_internal host)) /\
    Z.of_nat (requests es) <= max_redirects + 1 /\
    (forall resp, r = Ok resp -> blen (p_body resp) <= limit /\
       (is_redirect resp = true -> default "" (header "location" resp) = "")).
Proof.
  intros Hl Hm H. apply get_public_frame in H as [(es & L & F & N) B]; [|done]. exists es. rewrite Forall_forall in F.
  split_and!; [done| | |lia|done].
  - intros a Ha. by apply public_outside, (F _ Ha).
  - intros u Hu. destruct (F _ Hu) as (host & H1 & H2). exists host. split; [done|]. intros Hn. by apply public_outside, H2.
Qed.
End Fetch.
