(* ===== verification/PublicContent.v ===== *)
(** * Shared anonymous articles ([nat_helpers/public_content.py])

    Detecting challenge pages, converting a response, how long it may be kept,
    the retried fetch, and the cache with its table of pending loads.
    MarkItDown and the tools' converters are parameters. *)
From S2P Require Import Prelude PyStr PyFloat PyVal Json JsonRoundtrip Redis PyUrl Sha Dedupe StoreOps.
From S2P Require Import Identity Markdown PyNet SafeHttp.
#[local] Open Scope Z_scope.

(** ** Challenges *)
Definition CHALLENGE_SIGNATURES : list string :=
  ["just a moment"; "checking your browser"; "attention required"; "enable javascript and cookies";
   "cf-browser-verification"; "challenge-platform"; "cdn-cgi/challenge-platform"; "_cf_chl_opt"; "ddos-guard";
   "please turn javascript on"; "checking if the site connection is secure"; "verify you are human"; "ray id:";
   "access denied"; "you don't have permission to access"; "request blocked"; "requested url was rejected";
   "forbidden"; "reference #"; "zh-zse-ck"; "static.zhihu.com/zse-ck/"; "安全验证"; "请完成验证"; "访问异常"].
Definition is_challenge_page (text : string) : bool :=
  let lowered := lower (utake 5000 text) in
  2 <=? Z.of_nat (length (List.filter (contains lowered) CHALLENGE_SIGNATURES)).

(** ** Conversion *)
(** MarkItDown: whether it is installed, whether it has plugins, which pages
    its specialised converters take, and the title and text of an HTML page. *)
Record markitdown := Markitdown {
  installed : bool; has_plugins : bool; specialized : string -> string -> bool;
  html_convert : string -> result (string * string) }.
Section Convert.
Context (md : markitdown).
Definition source_line (url : string) : string := "_Source: " +++ url +++ "_".
Definition _convert_html_article (content url : string) : result (option string) :=
  if negb (installed md) then Ok None else
  if has_plugins md then Ok None else
  if specialized md content url then Ok None else
  r ← html_convert md content;
  let '(title, text) := r in
  let markdown := join NL (map rstrip (split_char (chr 10) (replace (String (chr 13) NL) NL text))) in
  Ok (Some ("# " +++ (if (title =? "")%string then url else title) +++ NL +++ NL +++ source_line url +++ NL +++ NL +++
            collapse_newlines markdown)).
Definition media_type (content_type : string) : string :=
  lower (strip (match cut content_type ";" with Some (a, _) => a | None => content_type end)).
Definition is_html (content_type : string) : bool := is_in (media_type content_type) ["text/html"; "application/xhtml+xml"].
Definition article_body (markdown url : string) : string :=
  strip (match cut markdown (source_line url) with Some (_, rest) => rest | None => markdown end).
Definition _convert_article (content url content_type : string) (converter : string -> string -> string -> result string)
  : result string :=
  html ← (if is_html content_type then _convert_html_article content url else Ok None);
  markdown ← match html with Some m => Ok m | None => converter content url content_type end;
  let body := article_body markdown url in
  if (body =? "")%string || startswith markdown "Error:"
  then raise EmptyArticleError "Article conversion produced no content" else
  if is_challenge_page body then raise ArticleChallengeError "Article is an automated-access challenge" else Ok markdown.
End Convert.

(** ** Cache lifetime *)
Definition max_age_at (s : string) : option Z :=
  match strip_prefix "max-age" (lstrip s) with
  | None => None
  | Some r =>
      match strip_prefix "=" (lstrip r) with
      | None => None
      | Some r => let '(ds, _) := take_while is_digit (removeprefix (lstrip r) (String (chr 34) "")) in
                  if (ds =? "")%string then None else Some (digits_val 0 ds)
      end
  end.
(** [re.search]: after a comma, from left to right. *)
Fixpoint max_age_after (s : string) : option Z :=
  match s with
  | EmptyString => None
  | String c s' => if char_is "," c then match max_age_at s' with Some n => Some n | None => max_age_after s' end
                   else max_age_after s'
  end.
Definition max_age (directives : string) : option Z :=
  match max_age_at directives with Some n => Some n | None => max_age_after directives end.
Definition _cache_ttl (headers : list (string * string)) (default_ttl : Z) : Z :=
  let directives := lower (default "" (hlookup "cache-control" headers)) in
  if negb (default "" (hlookup "set-cookie" headers) =? "")%string ||
     existsb (contains directives) ["no-store"; "private"; "no-cache"] then 0 else
  let age := default "0" (hlookup "age" headers) in
  let server_ttl := match max_age directives with
                    | Some n => Z.max 0 (n - (if isdigit age then digits_val 0 age else 0))
                    | None => default_ttl
                    end in
  Z.min default_ttl server_ttl.

(** ** One load *)
Section Load.
Context (net : network) (md : markitdown) (utcnow : net_world -> string).
Abbreviation W := net_world.
Definition RETRYABLE : list Z := [408; 425; 429; 500; 502; 503; 504].
Definition retryable (status : Z) : bool := existsb (Z.eqb status) RETRYABLE.
Definition raise_for_status (r : response) : result response :=
  if (200 <=? p_status r) && (p_status r <=? 299) then Ok r else raise HTTPStatusError (str_of_Z (p_status r)).
Definition retry_delay (attempt : Z) : float := f_mul (dec_to_float false 35 (-2)) (f_of_Z (2 ^ attempt)).
(** What one attempt of the loop leaves: the response to use, or another round. *)
Definition fetch_attempt (attempt : Z) (url : string) (schemes : list string) : eff W (option response) :=
  catch (r ← get_public_response_async net _DEFAULT_MAX_RESPONSE_BYTES url schemes _DEFAULT_MAX_REDIRECTS;
         if negb (retryable (p_status r)) || (attempt =? 2)
         then r ← lift (raise_for_status r); mret (Some r)
         else mret None)
        [TransportError]
        (fun e => if attempt =? 2 then rethrow e else mret None).
Fixpoint fetch_attempts (rounds : nat) (attempt : Z) (url : string) (schemes : list string) : eff W response :=
  match rounds with
  | O => throw RuntimeError "cannot access local variable 'response'"
  | S rounds =>
      r ← fetch_attempt attempt url schemes;
      match r with
      | Some r => mret r
      | None =>
          _ ← record_event (Slept (retry_delay attempt));
          fetch_attempts rounds (attempt + 1) url schemes
      end
  end.
(** [bytes]: slices, ASCII white space and case. *)
Definition bytes_take (n : nat) (s : string) : string := String.substring 0 n s.
Definition byte_space (c : ascii) : bool := in_range 9 13 c || char_is " " c.
Fixpoint lower_bytes (s : string) : string :=
  match s with EmptyString => EmptyString | String c s => String (lower_ascii c) (lower_bytes s) end.
Definition sniffed (r : response) : string :=
  let content_type := default "" (header "content-type" r) in
  if (content_type =? "")%string &&
     (let start := lower_bytes (lstrip_chars byte_space (bytes_take 512 (p_body r))) in
      startswith start "<!doctype html" || startswith start "<html")
  then "text/html" else content_type.
Record loaded := Loaded { d_markdown : string; d_fetched_at : string; d_headers : list (string * string) }.
Definition load_body (url : string) (schemes : list string) (converter : string -> string -> string -> result string)
  : eff W loaded :=
  r ← fetch_attempts 3 0 url schemes;
  fetched_at ← gets utcnow;
  let content_type := sniffed r in
  if is_html content_type && is_challenge_page (utf8_ignore (bytes_take 20000 (p_body r)))
  then throw ArticleChallengeError "Article is an automated-access challenge" else
  markdown ← lift (_convert_article md (p_body r) url content_type converter);
  mret (Loaded markdown fetched_at (p_headers r)).
End Load.

(** ** The session

    A key is a URL and the schemes allowed for it.  [_cache] keeps the
    insertion order of [OrderedDict]; [_pending] maps a key to the task that
    loads it. *)
Abbreviation article_key := (string * list string)%type.
Record article_t := PublicArticle { a_url : string; a_markdown : string; a_fetched_at : string }.
Record cached_t := Cached { c_expiry : float; c_article : article_t; c_size : Z }.
(** A call of [_load] under way: a task of its own, or awaited by the caller;
    whether it holds one of the slots. *)
Record load := Load { l_id : nat; l_key : article_key; l_task : bool; l_slot : bool }.
Record session := Session {
  ttl : Z; max_entries : Z; max_bytes : Z;
  _cache : list (article_key * cached_t); _bytes : Z; _pending : list (article_key * nat);
  _loads : list load; _ended : list (article_key * nat); _next : nat }.
Definition PublicContentSession (ttl max_entries max_bytes : Z) : session :=
  Session ttl max_entries max_bytes [] 0 [] [] [] 0.
Definition set_cache (s : session) (c : list (article_key * cached_t)) (b : Z) : session :=
  Session (ttl s) (max_entries s) (max_bytes s) c b (_pending s) (_loads s) (_ended s) (_next s).
Definition set_tasks (s : session) (p : list (article_key * nat)) (l : list load) (e : list (article_key * nat)) (n : nat) : session :=
  Session (ttl s) (max_entries s) (max_bytes s) (_cache s) (_bytes s) p l e n.

Section Od.
Context {V : Type}.
Fixpoint od_get (k : article_key) (d : list (article_key * V)) : option V :=
  match d with [] => None | (k', v) :: d => if decide (k = k') then Some v else od_get k d end.
Definition od_without (k : article_key) (d : list (article_key * V)) : list (article_key * V) := List.filter (fun kv => negb (bool_decide (k = fst kv))) d.
End Od.
(** The [while] loop of [_load]: the oldest entries go first. *)
Fixpoint evict (max_entries max_bytes : Z) (cache : list (article_key * cached_t)) (bytes : Z) : result (list (article_key * cached_t) * Z) :=
  if (max_entries <? Z.of_nat (length cache)) || (max_bytes <? bytes) then
    match cache with
    | [] => raise KeyError "dictionary is empty"
    | (_, c) :: cache => evict max_entries max_bytes cache (bytes - c_size c)
    end
  else Ok (cache, bytes).
Definition drop_cached (k : article_key) (s : session) : session :=
  match od_get k (_cache s) with
  | Some c => set_cache s (od_without k (_cache s)) (_bytes s - c_size c)
  | None => s
  end.
Definition query_of (url : string) : result string := u ← urlsplit url; Ok (u_query u).
(** The end of [_load]: no [await] between here and its return. *)
Definition keep (s : session) (url : string) (schemes : list string) (d : loaded) (now : float) : result article_t * session :=
  let article := PublicArticle url (d_markdown d) (d_fetched_at d) in
  let t := _cache_ttl (d_headers d) (ttl s) in
  if negb (utf8_ok (d_markdown d)) then (raise ValueError "'utf-8' codec can't encode characters", s) else
  let size := blen (d_markdown d) in
  if t <=? 0 then (Ok article, s) else
  match query_of url with
  | Raise e => (Raise e, s)
  | Ok query =>
      if negb (query =? "")%string || (max_bytes s <? size) then (Ok article, s) else
      let s := drop_cached (url, schemes) s in
      let cache := _cache s ++ [((url, schemes), Cached (f_add now (f_of_Z t)) article size)] in
      match evict (max_entries s) (max_bytes s) cache (_bytes s + size) with
      | Ok (cache, bytes) => (Ok article, set_cache s cache bytes)
      | Raise e => (Raise e, set_cache s cache (_bytes s + size))
      end
  end.

(** What [article] does before it first waits: answer, wait for a load of its
    own, or wait for a task that it or another caller started. *)
Inductive begun := Hit (a : article_t) | Own (id : nat) | Shared (id : nat) (status : string).
Definition clean_schemes (schemes : list string) : list string := stable_sort str_leb (distinct [] (map lower schemes)).
Definition clean_request (url : string) (schemes : list string) : result (string * list string * bool) :=
  url ← urldefrag url;
  parsed ← urlsplit url;
  if match userinfo parsed with (None, None) => false | _ => true end
  then raise UnsafeURLError "Anonymous public URLs cannot contain credentials" else
  let schemes := clean_schemes schemes in
  _ ← validate_offline url schemes;
  Ok (url, schemes, (u_query parsed =? "")%string).
Definition start_load (k : article_key) (task : bool) (s : session) : session :=
  set_tasks s (if task then _pending s ++ [(k, _next s)] else _pending s)
    (_loads s ++ [Load (_next s) k task false]) (_ended s) (S (_next s)).
Definition load_or_join (k : article_key) (share : bool) (s : session) : result begun * session :=
  match (if share then od_get k (_pending s) else None) with
  | Some id => (Ok (Shared id "coalesced"), s)
  | None => if negb share || (32 <=? Z.of_nat (length (_pending s))) then (Ok (Own (_next s)), start_load k false s)
            else (Ok (Shared (_next s) "miss"), start_load k true s)
  end.
Definition article (s : session) (url : string) (schemes : list string) (now : float) : result begun * session :=
  match clean_request url schemes with
  | Raise e => (Raise e, s)
  | Ok (url, schemes, share) =>
      let k := (url, schemes) in
      match (if share then od_get k (_cache s) else None) with
      | None => load_or_join k share s
      | Some c =>
          if f_ltb now (c_expiry c)
          then (Ok (Hit (c_article c)), set_cache s (od_without k (_cache s) ++ [(k, c)]) (_bytes s))
          else load_or_join k share (drop_cached k s)
      end
  end.

(** ** Interleaving

    Between two steps of a session anything can happen on the network.  A load
    waits for one of eight slots, then ends with what [load_body] gives in
    some state of the network, or with a timeout, a cancellation or an error;
    the callback of a task runs some time after the task has ended. *)
Section Steps.
Context (net : network) (md : markitdown) (utcnow : net_world -> string).
Definition is_load (id : nat) (l : load) : bool := Nat.eqb (l_id l) id.
Definition holding (s : session) : nat := length (List.filter l_slot (_loads s)).
Definition take_slot (id : nat) (s : session) : session :=
  set_tasks s (_pending s) (map (fun l => if is_load id l then Load id (l_key l) (l_task l) true else l) (_loads s))
    (_ended s) (_next s).
Definition end_load (l : load) (s : session) : session :=
  set_tasks s (_pending s) (List.filter (fun l' => negb (is_load (l_id l) l')) (_loads s))
    (if l_task l then _ended s ++ [(l_key l, l_id l)] else _ended s) (_next s).
(** [finished(task)], the task of key [k]. *)
Definition finished (k : article_key) (id : nat) (s : session) : session :=
  set_tasks s (if decide (od_get k (_pending s) = Some id) then od_without k (_pending s) else _pending s) (_loads s)
    (List.filter (fun e => negb (Nat.eqb (snd e) id)) (_ended s)) (_next s).
(** The end of [close], after the tasks that were pending when it began were
    cancelled and have ended; what was started meanwhile is cleared as well. *)
Definition close (s : session) : session := set_cache (set_tasks s [] (_loads s) (_ended s) (_next s)) [] 0.
Inductive happens : session -> session -> Prop :=
| Asked url schemes now r s s' : article s url schemes now = (r, s') -> happens s s'
| Slot_taken id s : (holding s < 8)%nat -> happens s (take_slot id s)
| Load_done l converter w d w' now r s s' : l ∈ _loads s -> l_slot l = true ->
    load_body net md utcnow (fst (l_key l)) (snd (l_key l)) converter w = (Ok d, w') ->
    keep s (fst (l_key l)) (snd (l_key l)) d now = (r, s') -> happens s (end_load l s')
| Load_failed l s : l ∈ _loads s -> happens s (end_load l s)
| Callback k id s : (k, id) ∈ _ended s -> happens s (finished k id s)
| Closed s : happens s (close s).
Definition reachable (s : session) : Prop :=
  exists ttl entries bytes, 0 <= entries /\ 0 <= bytes /\ rtc happens (PublicContentSession ttl entries bytes) s.
End Steps.

(** ** Sessions of owners

    [_SESSIONS]: a session per owner, shared by nested uses, closed by the
    last one.  Session numbers stand for the objects. *)
Record sessions := Sessions { o_table : gmap Z (nat * nat); o_fresh : nat; o_closed : list nat }.
Definition enter (owner : Z) (t : sessions) : nat * sessions :=
  match o_table t !! owner with
  | Some (sid, n) => (sid, Sessions (<[owner := (sid, S n)]> (o_table t)) (o_fresh t) (o_closed t))
  | None => (o_fresh t, Sessions (<[owner := (o_fresh t, 1%nat)]> (o_table t)) (S (o_fresh t)) (o_closed t))
  end.
Definition leave (owner : Z) (session : nat) (t : sessions) : result sessions :=
  match o_table t !! owner with
  | None => raise KeyError (str_of_Z owner)
  | Some (sid, n) =>
      if Nat.eqb n 1 then Ok (Sessions (delete owner (o_table t)) (o_fresh t) (session :: o_closed t))
      else Ok (Sessions (<[owner := (session, (n - 1)%nat)]> (o_table t)) (o_fresh t) (o_closed t))
  end.
