(* ===== verification/PublicContentLaws.v ===== *)
(** * Laws of the article cache

    A session's memory and work are bounded, and what it answers from memory
    is a fresh article of that URL. *)
From S2P Require Import Prelude PyStr PyFloat PyVal Json JsonRoundtrip Redis PyUrl Sha Dedupe StoreOps.
From S2P Require Import WorkerOps Identity Markdown PyNet SafeHttp PublicContent.
#[local] Open Scope Z_scope.

(** ** Challenges *)
Lemma strip_prefix_skip p q s r : strip_prefix (p +++ q) s = Some r -> exists t, strip_prefix p s = Some t /\ startswith t q = true.
Proof.
  unfold startswith. revert s. induction p as [|a p IH]; intros s H.
  - exists s. split; [done|]. cbn in H. by rewrite H.
  - destruct s as [|b s]; [done|]. cbn in *. destruct (Ascii.eqb a b); [by eapply IH|done].
Qed.
Lemma contains_suffix p s t q : strip_prefix p s = Some t -> contains t q = true -> contains s q = true.
Proof.
  revert s. induction p as [|a p IH]; intros s H Hc; [by injection H as ->|]. destruct s as [|b s]; [done|]. cbn in H.
  destruct (Ascii.eqb a b); [|done]. cbn [contains]. apply orb_true_iff. right. by eapply IH.
Qed.
Lemma contains_tail p q s : contains s (p +++ q) = true -> contains s q = true.
Proof.
  induction s as [|c s IH]; intros H.
  - cbn in H. rewrite orb_false_r in H. unfold startswith in H. destruct (strip_prefix (p +++ q) "") eqn:E; [|done].
    apply strip_prefix_skip in E as (t & Ht & Hq). destruct p; [|done]. injection Ht as <-. cbn. by rewrite Hq.
  - cbn [contains] in H. apply orb_true_iff in H as [H|H].
    + unfold startswith in H. destruct (strip_prefix (p +++ q) (String c s)) eqn:E; [|done].
      apply strip_prefix_skip in E as (t & Ht & Hq). eapply contains_suffix; [exact Ht|]. destruct t; cbn; by rewrite Hq.
    + cbn [contains]. apply orb_true_iff. right. by apply IH.
Qed.
Lemma two_of {A} (f : A -> bool) l x y : x <> y -> x ∈ l -> y ∈ l -> f x = true -> f y = true -> (2 <= length (List.filter f l))%nat.
Proof.
  intros Hn Hx Hy Fx Fy. assert (x ∈ List.filter f l /\ y ∈ List.filter f l) as [Ix Iy].
  { rewrite !list_elem_of_In, !List.filter_In, <- !list_elem_of_In. auto. }
  destruct (List.filter f l) as [|a [|b m]]; [by apply elem_of_nil in Ix| |cbn; lia].
  apply list_elem_of_singleton in Ix, Iy. congruence.
Qed.
(** the path of the Cloudflare script is two signatures at once: a page
    that mentions it a single time is refused as a challenge. *)
Theorem script_path_is_two_signatures text :
  contains (lower (utake 5000 text)) "cdn-cgi/challenge-platform" = true -> is_challenge_page text = true.
Proof.
  intros H. unfold is_challenge_page. apply Z.leb_le. apply (Nat2Z.inj_le 2).
  apply (two_of _ _ "challenge-platform"%string "cdn-cgi/challenge-platform"%string); [done| | | |done].
  - apply list_elem_of_In. unfold CHALLENGE_SIGNATURES. repeat first [left; reflexivity|right].
  - apply list_elem_of_In. unfold CHALLENGE_SIGNATURES. repeat first [left; reflexivity|right].
  - exact (contains_tail "cdn-cgi/" "challenge-platform" _ H).
Qed.

(** ** One load *)
(** What an article is: a body that is neither empty nor a challenge. *)
Definition is_article (url markdown : string) : Prop :=
  article_body markdown url <> "" /\ startswith markdown "Error:" = false /\ is_challenge_page (article_body markdown url) = false.
Lemma convert_sound md content url ct converter m : _convert_article md content url ct converter = Ok m -> is_article url m.
Proof.
  unfold _convert_article. intros H. apply bind_ok in H as (h & _ & H). apply bind_ok in H as (m' & _ & H).
  destruct ((article_body m' url =? "")%string || startswith m' "Error:") eqn:E; [done|].
  destruct (is_challenge_page (article_body m' url)) eqn:C; [done|]. injection H as <-. bool_prop.
  by split_and!.
Qed.
Section Loads.
Context (net : network) (md : markitdown) (utcnow : net_world -> string).
Lemma attempt_frame schemes a u w r w' : fetch_attempt net a u schemes w = (r, w') ->
  extends_by schemes 11 w w' /\ (forall resp, r = Ok (Some resp) -> 200 <= p_status resp <= 299) /\ (a = 2 -> r <> Ok None).
Proof.
  intros H. unfold fetch_attempt, catch in H.
  match type of H with match ?m w with _ => _ end = _ => destruct (m w) as [[o|e] w1] eqn:E end.
  - injection H as <- <-. apply bind_inv in E as [(resp & w2 & H1 & H)|(e & H1 & H)]; [|done].
    apply get_public_frame with (schemes := schemes) in H1 as [F _]; [|unfold _DEFAULT_MAX_RESPONSE_BYTES; lia].
    destruct (negb (retryable (p_status resp)) || (a =? 2)) eqn:Er.
    + apply bind_inv in H as [(resp2 & w3 & H2 & H)|(e & H2 & H)]; [|done]. injection H2 as H2 <-. injection H as <- <-.
      unfold raise_for_status in H2. destruct ((200 <=? p_status resp) && (p_status resp <=? 299)) eqn:S; [|done].
      injection H2 as <-. bool_prop. split_and!; [done| |done]. intros ? [= <-]. lia.
    + injection H as <- <-. bool_prop. split_and!; [done|done|]. lia.
  - assert (F : extends_by schemes 11 w w1).
    { apply bind_inv in E as [(resp & w2 & H1 & E)|(e' & H1 & E)];
        apply get_public_frame with (schemes := schemes) in H1 as [F _]; try (unfold _DEFAULT_MAX_RESPONSE_BYTES; lia); [|done].
      destruct (negb (retryable (p_status resp)) || (a =? 2)); [|done].
      apply bind_inv in E as [(resp2 & w3 & H2 & E)|(e' & H2 & E)]; injection H2 as _ <-; done. }
    destruct (exn_in e [TransportError]); [|by injection H as <- <-].
    destruct (Z.eqb_spec a 2); injection H as <- <-; by split_and!.
Qed.
Lemma sleep_frame schemes x w r w' : record_event (Slept x) w = (r, w') -> extends_by schemes 0 w w'.
Proof. intros [= _ <-]. exists [Slept x]. split_and!; [done|by repeat constructor|done]. Qed.
Lemma attempts_frame schemes u rounds : forall a w r w', fetch_attempts net rounds a u schemes w = (r, w') ->
  extends_by schemes (rounds * 11) w w' /\ forall resp, r = Ok resp -> 200 <= p_status resp <= 299.
Proof.
  induction rounds as [|rounds IH]; intros a w r w' H; cbn [fetch_attempts] in H.
  { injection H as <- <-. split; [by apply fetches_none|done]. }
  change (Datatypes.S rounds * 11)%nat with (11 + rounds * 11)%nat.
  apply bind_inv in H as [(o & w1 & H1 & H)|(e & H1 & ->)]; apply attempt_frame with (schemes := schemes) in H1 as (F & B & _).
  2:{ split; [|done]. apply (fetches_app _ 11 _ _ _ _ F). by apply fetches_none. }
  destruct o as [resp|].
  - injection H as <- <-. split; [|intros ? [= <-]; by apply B]. apply (fetches_app _ 11 _ _ _ _ F). by apply fetches_none.
  - apply bind_inv in H as [([] & w2 & H2 & H)|(e & H2 & ->)]; [|done]. apply sleep_frame with (schemes := schemes) in H2.
    apply IH in H as [F2 B2]. split; [|done]. exact (fetches_app _ 11 _ _ _ _ F (fetches_app _ 0 _ _ _ _ H2 F2)).
Qed.
(** The last round answers: the loop never falls through. *)
Lemma attempts_answer u schemes w r w' : fetch_attempts net 3 0 u schemes w = (r, w') ->
  (exists resp, r = Ok resp) \/ (exists e a v v', r = Raise e /\ fetch_attempt net a u schemes v = (Raise e, v')).
Proof.
  cbn [fetch_attempts]. change (0 + 1 + 1) with 2. change (0 + 1) with 1.
  intros H. apply bind_inv in H as [([resp|] & w1 & H1 & H)|(e & H1 & ->)]; [injection H as <- _; eauto| |by right; eauto 8].
  apply bind_inv in H as [([] & w2 & _ & H)|(e & H2 & ->)]; [|done].
  apply bind_inv in H as [([resp|] & w3 & H3 & H)|(e & H3 & ->)]; [injection H as <- _; eauto| |by right; eauto 8].
  apply bind_inv in H as [([] & w4 & _ & H)|(e & H4 & ->)]; [|done].
  apply bind_inv in H as [([resp|] & w5 & H5 & H)|(e & H5 & ->)]; [injection H as <- _; eauto| |by right; eauto 8].
  apply attempt_frame with (schemes := schemes) in H5 as (_ & _ & N). by destruct (N eq_refl).
Qed.
Lemma load_frame schemes u converter w r w' : load_body net md utcnow u schemes converter w = (r, w') ->
  extends_by schemes 33 w w' /\ forall d, r = Ok d -> is_article u (d_markdown d).
Proof.
  unfold load_body. intros H. apply bind_inv in H as [(resp & w1 & H1 & H)|(e & H1 & ->)]; apply attempts_frame in H1 as [F _].
  2:{ by split. }
  apply bind_inv in H as [(t & w2 & H2 & H)|(e & H2 & ->)]; [|done]. injection H2 as _ <-.
  match type of H with (if ?b then _ else _) _ = _ => destruct b end; [by injection H as <- <-|].
  apply bind_inv in H as [(m & w3 & H3 & H)|(e & H3 & ->)]; injection H3 as H3 <-; [|by split]. injection H as <- <-.
  split; [done|]. intros d [= <-]. by eapply convert_sound.
Qed.
End Loads.

(** ** The dictionaries *)
Section OdLaws.
Context {V : Type}.
Implicit Types (d : list (article_key * V)).
Lemma od_get_in k v d : od_get k d = Some v -> (k, v) ∈ d.
Proof.
  induction d as [|[k' v'] d IH]; cbn; [done|]. destruct (decide (k = k')) as [<-|]; [intros [= ->]; left|right; auto].
Qed.
Lemma od_get_of_in k v d : NoDup (map fst d) -> (k, v) ∈ d -> od_get k d = Some v.
Proof.
  induction d as [|[k' v'] d IH]; cbn; intros K H; [by apply elem_of_nil in H|]. apply NoDup_cons in K as [Hn K].
  apply elem_of_cons in H as [[= <- <-]|H]; [by rewrite decide_True|]. destruct (decide (k = k')) as [<-|]; [|auto].
  destruct Hn. by apply (list_elem_of_fmap_2 fst) in H.
Qed.
Lemma od_get_none k d : od_get k d = None -> k ∉ map fst d.
Proof.
  induction d as [|[k' v'] d IH]; cbn; [intros _; apply not_elem_of_nil|]. destruct (decide (k = k')); [done|].
  intros H. rewrite not_elem_of_cons. auto.
Qed.
Lemma od_without_in k kv d : kv ∈ od_without k d <-> kv ∈ d /\ fst kv <> k.
Proof.
  unfold od_without. rewrite !list_elem_of_In, List.filter_In, <- !list_elem_of_In.
  destruct (bool_decide_reflect (k = fst kv)); naive_solver.
Qed.
Lemma od_without_keys k d : NoDup (map fst d) -> NoDup (map fst (od_without k d)) /\ k ∉ map fst (od_without k d).
Proof.
  intros H. split.
  - induction d as [|[k' v] d IH]; cbn; [done|]. apply NoDup_cons in H as [Hn H]. cbn [fst].
    destruct (bool_decide (k = k')); cbn; [auto|]. constructor; [|auto]. intros Hin. apply Hn.
    apply list_elem_of_fmap in Hin as (kv & -> & Hin). apply od_without_in in Hin as [Hin _]. apply list_elem_of_fmap. by exists kv.
  - intros Hin. apply list_elem_of_fmap in Hin as (kv & -> & Hin). by apply od_without_in in Hin as [_ Hin].
Qed.
Lemma od_without_none k d : k ∉ map fst d -> od_without k d = d.
Proof.
  induction d as [|[k' v] d IH]; cbn; [done|]. rewrite not_elem_of_cons. intros [Hn H].
  rewrite bool_decide_eq_false_2 by done. cbn. f_equal. by apply IH.
Qed.
Lemma od_without_perm k v d : NoDup (map fst d) -> od_get k d = Some v -> d ≡ₚ (k, v) :: od_without k d.
Proof.
  induction d as [|[k' v'] d IH]; cbn; [done|]. rewrite NoDup_cons. intros [Hn H]. cbn [fst].
  destruct (decide (k = k')) as [<-|Hk].
  - intros [= ->]. rewrite bool_decide_eq_true_2 by done. cbn [negb]. fold (od_without k d). by rewrite od_without_none.
  - intros Hg. rewrite bool_decide_eq_false_2 by done. cbn [negb]. fold (od_without k d).
    rewrite (IH H Hg) at 1. apply Permutation_swap.
Qed.
Lemma od_without_length k d : (length (od_without k d) <= length d)%nat.
Proof. apply List.filter_length_le. Qed.
End OdLaws.

(** ** The invariant of a session *)
Lemma urlsplit_raises url e : urlsplit url = Raise e -> exn_cls e = ValueError.
Proof.
  unfold urlsplit. intros H. repeat case_hyp H; first [discriminate H|by injection H as <-].
Qed.
Lemma query_raises url e : query_of url = Raise e -> exn_cls e = ValueError.
Proof. unfold query_of. destruct (urlsplit url) eqn:E; [done|]. intros [= <-]. by eapply urlsplit_raises. Qed.
Definition total (c : list (article_key * cached_t)) : Z := foldr (fun kv n => c_size (snd kv) + n) 0 c.
Lemma total_cons k x c : total ((k, x) :: c) = c_size x + total c.
Proof. done. Qed.
Lemma total_perm c d : c ≡ₚ d -> total c = total d.
Proof. unfold total. induction 1; cbn in *; lia. Qed.
Lemma total_snoc c kv : total (c ++ [kv]) = total c + c_size (snd kv).
Proof. induction c as [|x c IH]; cbn; [lia|]. unfold total in *. rewrite IH. lia. Qed.
Arguments total : simpl never.
Lemma evict_ok n m : 0 <= n -> 0 <= m -> forall c, exists a k,
  c = a ++ k /\ evict n m c (total c) = Ok (k, total k) /\ Z.of_nat (length k) <= n /\ total k <= m.
Proof.
  intros Hn Hm. induction c as [|[k x] c (a & r & -> & He & Hl & Ht)]; cbn [evict].
  - match goal with |- context [if ?b then _ else _] => replace b with false
      by (symmetry; apply orb_false_iff; split; apply Z.ltb_ge; unfold total; cbn; lia) end.
    exists [], []. unfold total. cbn. split_and!; [done|done|lia|lia].
  - destruct ((n <? Z.of_nat (length ((k, x) :: a ++ r))) || (m <? total ((k, x) :: a ++ r))) eqn:E.
    + exists ((k, x) :: a), r. split; [done|]. rewrite total_cons.
      replace (c_size x + total (a ++ r) - c_size x) with (total (a ++ r)) by lia. done.
    + apply orb_false_iff in E as [E1 E2]. apply Z.ltb_ge in E1, E2. exists [], ((k, x) :: a ++ r). by split_and!.
Qed.
Section Invariant.
Context (net : network) (md : markitdown) (utcnow : net_world -> string).
(** Where an entry comes from: a load of that URL that ended, with headers
    that allow keeping it, at a time from which its age is counted. *)
Definition produced (k : article_key) (d : loaded) : Prop :=
  exists converter w w', load_body net md utcnow (fst k) (snd k) converter w = (Ok d, w').
(** The requests [article] accepts. *)
Definition clean (k : article_key) : Prop := exists url schemes share, clean_request url schemes = Ok (fst k, snd k, share).
Definition kept_entry (ttl : Z) (kv : article_key * cached_t) : Prop :=
  clean (fst kv) /\ query_of (fst (fst kv)) = Ok "" /\ c_size (snd kv) = blen (a_markdown (c_article (snd kv))) /\
  exists d at_time, produced (fst kv) d /\
    c_article (snd kv) = PublicArticle (fst (fst kv)) (d_markdown d) (d_fetched_at d) /\
    0 < _cache_ttl (d_headers d) ttl /\ c_expiry (snd kv) = f_add at_time (f_of_Z (_cache_ttl (d_headers d) ttl)).
Record cache_inv (s : session) : Prop := CacheInv {
  ci_limits : 0 <= max_entries s /\ 0 <= max_bytes s;
  ci_keys : NoDup (map fst (_cache s));
  ci_total : _bytes s = total (_cache s);
  ci_bytes : _bytes s <= max_bytes s;
  ci_count : Z.of_nat (length (_cache s)) <= max_entries s;
  ci_kept : Forall (kept_entry (ttl s)) (_cache s) }.
Record task_inv (s : session) : Prop := TaskInv {
  ti_pending : (length (_pending s) <= 32)%nat;
  ti_keys : NoDup (map fst (_pending s));
  ti_alive : forall k id, (k, id) ∈ _pending s -> (exists slot, Load id k true slot ∈ _loads s) \/ (k, id) ∈ _ended s;
  ti_slots : (holding s <= 8)%nat;
  ti_clean : Forall (fun l => clean (l_key l)) (_loads s);
  ti_ids : NoDup (map l_id (_loads s) ++ map snd (_ended s));
  ti_fresh : forall id, id ∈ map l_id (_loads s) ++ map snd (_ended s) -> (id < _next s)%nat }.
Lemma kept_size ttl kv : kept_entry ttl kv -> 0 <= c_size (snd kv).
Proof. intros (_ & _ & -> & _). unfold blen. lia. Qed.
Lemma total_nonneg ttl c : Forall (kept_entry ttl) c -> 0 <= total c.
Proof. induction 1 as [|[k x] c H _ IH]; [done|]. rewrite total_cons. apply kept_size in H. cbn in H. lia. Qed.

Lemma drop_inv k s : cache_inv s -> cache_inv (drop_cached k s) /\ k ∉ map fst (_cache (drop_cached k s)).
Proof.
  intros [L K T B C F]. unfold drop_cached. destruct (od_get k (_cache s)) as [c|] eqn:E; [|split; [done|by apply od_get_none]].
  pose proof (od_without_perm _ _ _ K E) as P. destruct (od_without_keys k _ K) as [K2 N2]. split; [|done].
  assert (F2 : Forall (kept_entry (ttl s)) (od_without k (_cache s))).
  { rewrite P in F. by apply Forall_cons in F as [_ F]. }
  assert (S : 0 <= c_size c). { rewrite P in F. apply Forall_cons in F as [F _]. exact (kept_size _ _ F). }
  rewrite (total_perm _ _ P) in T. rewrite total_cons in T.
  split; cbn; try done; [lia|lia|]. pose proof (od_without_length k (_cache s)). lia.
Qed.
Lemma touch_inv k c s : cache_inv s -> od_get k (_cache s) = Some c ->
  cache_inv (set_cache s (od_without k (_cache s) ++ [(k, c)]) (_bytes s)).
Proof.
  intros [L K T B C F] E. pose proof (od_without_perm _ _ _ K E) as P.
  assert (Q : od_without k (_cache s) ++ [(k, c)] ≡ₚ _cache s) by (rewrite P at 2; apply Permutation_sym, Permutation_cons_append).
  split; cbn; try done.
  - by rewrite Q. - by rewrite (total_perm _ _ Q). - by rewrite Q. - by rewrite Q.
Qed.
Lemma keep_inv l d now s r s' : cache_inv s -> clean (l_key l) -> produced (l_key l) d -> keep s (fst (l_key l)) (snd (l_key l)) d now = (r, s') ->
  cache_inv s' /\ (forall e, r = Raise e -> exn_cls e <> KeyError).
Proof.
  intros I Cl P. unfold keep. destruct (utf8_ok (d_markdown d)); cbn [negb]; [|by intros [= <- <-]; split; [|intros ? [= <-]]].
  destruct (Z.leb_spec (_cache_ttl (d_headers d) (ttl s)) 0) as [|Ht]; [by intros [= <- <-]|].
  destruct (query_of (fst (l_key l))) as [q|e] eqn:Eq.
  2:{ intros [= <- <-]. split; [done|]. intros ? [= <-]. apply query_raises in Eq. by rewrite Eq. }
  destruct (negb (q =? "")%string || (max_bytes s <? blen (d_markdown d))) eqn:E; [by intros [= <- <-]|].
  apply orb_false_iff in E as [E1 E2]. apply negb_false_iff, String.eqb_eq in E1 as ->. apply Z.ltb_ge in E2.
  assert (K : (fst (l_key l), snd (l_key l)) = l_key l) by (by destruct (l_key l)). rewrite K.
  destruct (drop_inv (l_key l) s I) as [[L2 K2 T2 B2 C2 F2] N2].
  assert (Hs : ttl (drop_cached (l_key l) s) = ttl s /\ max_entries (drop_cached (l_key l) s) = max_entries s /\
               max_bytes (drop_cached (l_key l) s) = max_bytes s) by (unfold drop_cached; by destruct (od_get _ _)).
  destruct Hs as (Hs1 & Hs2 & Hs3). set (s2 := drop_cached (l_key l) s) in *.
  set (entry := (l_key l, Cached (f_add now (f_of_Z (_cache_ttl (d_headers d) (ttl s)))) _ (blen (d_markdown d)))).
  assert (Hk : kept_entry (ttl s2) entry).
  { rewrite Hs1. split; [exact Cl|]. split; [exact Eq|]. split; [done|]. exists d, now. by split_and!. }
  assert (Ht2 : _bytes s2 + blen (d_markdown d) = total (_cache s2 ++ [entry])) by (rewrite total_snoc, T2; done). rewrite Ht2.
  destruct (evict_ok (max_entries s2) (max_bytes s2) (proj1 L2) (proj2 L2) (_cache s2 ++ [entry])) as (a & r2 & Ha & He & Hl & Hm).
  rewrite He. intros [= <- <-]. split; [|done].
  assert (F3 : Forall (kept_entry (ttl s2)) (a ++ r2)) by (rewrite <- Ha; apply Forall_app; by split; [|constructor]).
  assert (K3 : NoDup (map fst (a ++ r2))).
  { rewrite <- Ha, map_app. apply NoDup_app. split_and!; [done| |apply NoDup_singleton].
    intros x Hx Hx2. apply list_elem_of_singleton in Hx2 as ->. by apply N2. }
  split; cbn; try done.
  - rewrite map_app in K3. by apply NoDup_app in K3 as (_ & _ & K3).
  - by apply Forall_app in F3 as [_ F3].
Qed.

(** Waiting for slots, ending, and the callbacks. *)
Lemma filter_filter_le {A} (f g : A -> bool) l : (length (List.filter f (List.filter g l)) <= length (List.filter f l))%nat.
Proof. induction l as [|x l IH]; cbn; [lia|]. destruct (g x); cbn; destruct (f x); cbn; lia. Qed.
Lemma out_of_loads id ls : NoDup (map l_id ls) -> forall l, l ∈ ls -> l_id l = id ->
  ls ≡ₚ l :: List.filter (fun l' => negb (is_load id l')) ls.
Proof.
  induction ls as [|x ls IH]; intros ND l Hl E; [by apply elem_of_nil in Hl|]. cbn in ND. apply NoDup_cons in ND as [Hn ND]. cbn.
  unfold is_load at 1. destruct (Nat.eqb_spec (l_id x) id) as [Ex|Ex]; cbn [negb].
  - apply elem_of_cons in Hl as [->|Hl]; [|exfalso; apply Hn; rewrite Ex, <- E; by apply list_elem_of_fmap_2].
    constructor. rewrite (List.filter_ext_in _ (fun _ => true)); [by rewrite List.filter_true|].
    intros y Hy. unfold is_load. destruct (Nat.eqb_spec (l_id y) id) as [Ey|]; [|done]. exfalso. apply Hn.
    rewrite Ex, <- Ey. apply list_elem_of_fmap_2. by apply list_elem_of_In.
  - apply elem_of_cons in Hl as [->|Hl]; [done|]. rewrite (IH ND l Hl E) at 1. apply Permutation_swap.
Qed.
Lemma slots_grow id ls : NoDup (map l_id ls) ->
  (length (List.filter l_slot (map (fun l => if is_load id l then Load id (l_key l) (l_task l) true else l) ls))
   <= S (length (List.filter l_slot ls)))%nat.
Proof.
  induction ls as [|x ls IH]; cbn; [lia|]. intros [Hn ND]%NoDup_cons. unfold is_load at 1.
  destruct (Nat.eqb_spec (l_id x) id) as [Ex|Ex].
  - cbn. assert (E : map (fun l => if is_load id l then Load id (l_key l) (l_task l) true else l) ls = ls).
    { rewrite <- (map_id ls) at 2. apply map_ext_in. intros y Hy. unfold is_load. destruct (Nat.eqb_spec (l_id y) id) as [Ey|]; [|done].
      exfalso. apply Hn. rewrite Ex, <- Ey. apply list_elem_of_fmap_2. by apply list_elem_of_In. }
    rewrite E. destruct (l_slot x); cbn; lia.
  - specialize (IH ND). destruct (l_slot x); cbn; lia.
Qed.
Lemma slot_ids id ls : map l_id (map (fun l => if is_load id l then Load id (l_key l) (l_task l) true else l) ls) = map l_id ls.
Proof.
  rewrite map_map. apply map_ext. intros l. unfold is_load. destruct (Nat.eqb_spec (l_id l) id) as [->|]; reflexivity.
Qed.
Lemma take_slot_inv id s : task_inv s -> (holding s < 8)%nat -> task_inv (take_slot id s).
Proof.
  intros [P K A S C I F] H. apply NoDup_app in I as I'. destruct I' as (I1 & _ & _). split; cbn; rewrite ?slot_ids; try done.
  - intros k i Hi. destruct (A k i Hi) as [[b Hb]|]; [left|by right]. destruct (Nat.eqb_spec i id) as [->|Hn].
    + exists true. apply list_elem_of_fmap. eexists. split; [|exact Hb]. unfold is_load. cbn. by rewrite Nat.eqb_refl.
    + exists b. apply list_elem_of_fmap. eexists. split; [|exact Hb]. unfold is_load. cbn. by rewrite (proj2 (Nat.eqb_neq i id)).
  - unfold holding in *. cbn. pose proof (slots_grow id (_loads s) I1). lia.
  - rewrite Forall_fmap. eapply Forall_impl; [exact C|]. intros l. cbn. by destruct (is_load id l).
Qed.
Lemma end_load_inv l s : task_inv s -> l ∈ _loads s -> task_inv (end_load l s).
Proof.
  intros [P K A S C I F] Hl. apply NoDup_app in I as I'. destruct I' as (I1 & _ & _).
  pose proof (out_of_loads (l_id l) _ I1 l Hl eq_refl) as Q.
  set (rest := List.filter (fun l' => negb (is_load (l_id l) l')) (_loads s)) in *.
  assert (Hids : exists extra, map snd (_ended (end_load l s)) = map snd (_ended s) ++ extra /\ (extra = [] \/ extra = [l_id l])).
  { cbn. destruct (l_task l); [|exists []; rewrite app_nil_r; auto]. exists [l_id l]. rewrite map_app. auto. }
  destruct Hids as (extra & Hx & Hextra).
  assert (Hsub : forall id, id ∈ map l_id rest ++ map snd (_ended s) ++ extra -> id ∈ map l_id (_loads s) ++ map snd (_ended s)).
  { intros id. rewrite Q. rewrite !elem_of_app. cbn. rewrite elem_of_cons. destruct Hextra as [-> | ->]; [|rewrite list_elem_of_singleton];
      rewrite ?elem_of_nil; tauto. }
  split.
  - exact P. - exact K.
  - intros k id Hi. cbn. destruct (A k id Hi) as [[b Hb]|Hb].
    + rewrite Q in Hb. apply elem_of_cons in Hb as [<-|Hb]; [|left; by exists b]. right. cbn. apply elem_of_app. right. by left.
    + right. destruct (l_task l); [|done]. apply elem_of_app. by left.
  - unfold holding in *. cbn. pose proof (filter_filter_le l_slot (fun l' => negb (is_load (l_id l) l')) (_loads s)). lia.
  - cbn. fold rest. rewrite Q in C. by apply Forall_cons in C as [_ C].
  - cbn [_loads end_load set_tasks]. fold rest. rewrite Hx. rewrite Q in I. cbn in I. destruct Hextra as [-> | ->].
    + rewrite app_nil_r. by apply NoDup_cons in I as [_ I].
    + rewrite app_assoc. rewrite <- Permutation_cons_append. done.
  - cbn [_loads end_load set_tasks _next]. fold rest. rewrite Hx. intros id Hi. by apply F, Hsub.
Qed.
Lemma finished_inv k id s : task_inv s -> (k, id) ∈ _ended s -> task_inv (finished k id s).
Proof.
  intros [P K A S C I F] Hk. apply NoDup_app in I as I'. destruct I' as (I1 & Id & I2).
  assert (Hsub : forall i, i ∈ map snd (List.filter (fun e : article_key * nat => negb (Nat.eqb (snd e) id)) (_ended s)) -> i ∈ map snd (_ended s)).
  { intros i Hi. apply list_elem_of_fmap in Hi as (e & -> & Hi). apply list_elem_of_In, List.filter_In in Hi as [Hi _].
    apply list_elem_of_fmap_2. by apply list_elem_of_In. }
  split; cbn; try done.
  - destruct (decide _); [|done]. pose proof (od_without_length k (_pending s)). lia.
  - destruct (decide _); [|done]. by apply od_without_keys.
  - intros k' i Hi. assert (Hp : (k', i) ∈ _pending s).
    { destruct (decide _); [|done]. by apply od_without_in in Hi as [Hi _]. }
    destruct (A _ _ Hp) as [Hb|Hb]; [by left|]. right.
    apply list_elem_of_In, List.filter_In. split; [by apply list_elem_of_In|]. cbn. destruct (Nat.eqb_spec i id) as [->|]; [exfalso|done].
    assert (k' = k) as ->.
    { clear - Hk Hb I2. induction (_ended s) as [|[k0 i0] e IH]; [by apply elem_of_nil in Hk|]. cbn in I2. apply NoDup_cons in I2 as [Hn I2].
      apply elem_of_cons in Hk as [[= <- <-]|Hk], Hb as [[= <-]|Hb]; try done; try (apply IH; done).
      - destruct Hn. by apply (list_elem_of_fmap_2 snd) in Hb. - subst. destruct Hn. by apply (list_elem_of_fmap_2 snd) in Hk. }
    assert (Hg : od_get k (_pending s) = Some id).
    { by apply od_get_of_in. }
    destruct (decide (od_get k (_pending s) = Some id)); [|done]. by apply od_without_in in Hi as [_ Hi].
  - apply NoDup_app. split_and!; [done|intros i Hi Hj; by eapply Id, Hsub|]. clear - I2.
    induction (_ended s) as [|[k0 i0] e IH]; cbn in *; [done|]. apply NoDup_cons in I2 as [Hn I2].
    destruct (Nat.eqb i0 id); cbn; [auto|]. constructor; [|auto]. intros Hi. apply Hn.
    apply list_elem_of_fmap in Hi as (x & -> & Hi). apply list_elem_of_In, List.filter_In in Hi as [Hi _].
    apply list_elem_of_fmap_2. by apply list_elem_of_In.
  - intros i Hi. apply F. apply elem_of_app in Hi as [Hi|Hi]; apply elem_of_app; auto.
Qed.
Lemma start_load_inv k task s : task_inv s -> clean k ->
  (task = true -> od_get k (_pending s) = None /\ (length (_pending s) < 32)%nat) -> task_inv (start_load k task s).
Proof.
  intros [P K A S C I F] Hc Ht. assert (Hn : _next s ∉ map l_id (_loads s) ++ map snd (_ended s)) by (intros Hi; apply F in Hi; lia).
  assert (Q : map l_id (_loads s ++ [Load (_next s) k task false]) ++ map snd (_ended s) ≡ₚ
              _next s :: map l_id (_loads s) ++ map snd (_ended s)).
  { rewrite map_app, <- app_assoc. symmetry. apply Permutation_middle. }
  split; cbn.
  - destruct task; [|done]. rewrite length_app. cbn. destruct Ht as [_ Ht]; [done|]. lia.
  - destruct task; [|done]. destruct Ht as [Ht _]; [done|]. rewrite map_app. apply NoDup_app. split_and!; [done| |apply NoDup_singleton].
    intros x Hx Hy. apply list_elem_of_singleton in Hy as ->. by apply od_get_none in Ht.
  - intros k' id Hi. assert (Hold : (k', id) ∈ _pending s -> (exists b, Load id k' true b ∈ _loads s ++ [Load (_next s) k task false]) \/ (k', id) ∈ _ended s).
    { intros Hp. destruct (A _ _ Hp) as [[b Hb]|]; [left; exists b; apply elem_of_app; by left|by right]. }
    destruct task; [|by apply Hold]. apply elem_of_app in Hi as [Hi|Hi]; [by apply Hold|].
    apply list_elem_of_singleton in Hi as [= -> ->]. left. exists false. apply elem_of_app. right. by left.
  - unfold holding in *. cbn. rewrite List.filter_app. cbn. by rewrite app_nil_r.
  - apply Forall_app. split; [done|]. by repeat constructor.
  - rewrite Q. by constructor.
  - intros id Hi. rewrite Q in Hi. apply elem_of_cons in Hi as [->|Hi]; [lia|]. apply F in Hi. lia.
Qed.
Lemma join_inv k share s r s' : task_inv s -> clean k -> load_or_join k share s = (r, s') ->
  task_inv s' /\ set_cache s (_cache s') (_bytes s') = set_cache s (_cache s) (_bytes s) /\
  ttl s' = ttl s /\ max_entries s' = max_entries s /\ max_bytes s' = max_bytes s /\ (forall a, r <> Ok (Hit a)).
Proof.
  intros I Hc. unfold load_or_join. destruct (if share then od_get k (_pending s) else None) eqn:E; [by intros [= <- <-]|].
  destruct (negb share || (32 <=? Z.of_nat (length (_pending s)))) eqn:B; intros [= <- <-];
    (split; [apply start_load_inv; [done|done|]|by split_and!]); [done|].
  intros _. destruct share; [|done]. cbn in B. apply Z.leb_gt in B. split; [done|lia].
Qed.
Lemma same_cache s s' : cache_inv s -> set_cache s (_cache s') (_bytes s') = set_cache s (_cache s) (_bytes s) ->
  ttl s' = ttl s -> max_entries s' = max_entries s -> max_bytes s' = max_bytes s -> cache_inv s'.
Proof. intros [L K T B C F] [= E1 E2] H1 H2 H3. split; rewrite ?E1, ?E2, ?H1, ?H2, ?H3; done. Qed.
Lemma task_inv_cache s c b : task_inv s -> task_inv (set_cache s c b).
Proof. by intros [P K A S C I F]. Qed.
Lemma task_inv_drop k s : task_inv s -> task_inv (drop_cached k s).
Proof. unfold drop_cached. destruct (od_get k (_cache s)); [apply task_inv_cache|done]. Qed.
Definition inv (s : session) : Prop := cache_inv s /\ task_inv s.
Lemma article_inv s url schemes now r s' : inv s -> article s url schemes now = (r, s') -> inv s'.
Proof.
  intros [I J]. unfold article. destruct (clean_request url schemes) as [[[u sch] share]|e] eqn:E; [|by intros [= <- <-]].
  assert (Hc : clean (u, sch)) by (by exists url, schemes, share).
  destruct (if share then od_get (u, sch) (_cache s) else None) as [c|] eqn:G.
  - destruct share; [|done]. destruct (f_ltb now (c_expiry c)).
    + intros [= <- <-]. split; [by apply touch_inv|by apply task_inv_cache].
    + intros H. apply join_inv in H as (J2 & H1 & H2 & H3 & H4 & _); [|by apply task_inv_drop|done].
      split; [|done]. eapply same_cache; [by apply drop_inv|done..].
  - intros H. apply join_inv in H as (J2 & H1 & H2 & H3 & H4 & _); [|done|done]. split; [|done]. by eapply same_cache.
Qed.
Lemma keep_tasks s u sch d now r s' : keep s u sch d now = (r, s') ->
  _loads s' = _loads s /\ (task_inv s -> task_inv s').
Proof.
  unfold keep. repeat case_goal; intros [= <- <-]; try done; (split; [cbn; unfold drop_cached; by destruct (od_get _ _)|]);
    intros J; by apply task_inv_cache, task_inv_drop.
Qed.
Lemma end_load_cache l s : cache_inv s -> cache_inv (end_load l s).
Proof. by intros [L K T B C F]. Qed.
Lemma session_step s s' : inv s -> happens net md utcnow s s' -> inv s'.
Proof.
  intros [I J]. destruct 1 as [url sch now r s s' H|id s H|l converter w d w' now r s s' Hl _ Hd Hk|l s Hl|k id s Hk|s].
  - by eapply article_inv; [split|].
  - split; [by destruct I|by apply take_slot_inv].
  - assert (Hc : clean (l_key l)) by exact (proj1 (Forall_forall _ _) (ti_clean _ J) l Hl).
    pose proof (keep_tasks _ _ _ _ _ _ _ Hk) as [Hls Hj].
    apply keep_inv in Hk as [Hk _]; [|done|done|by exists converter, w, w'].
    split; [by apply end_load_cache|]. apply end_load_inv; [by apply Hj|by rewrite Hls].
  - split; [by apply end_load_cache|by apply end_load_inv].
  - split; [by destruct I|by apply finished_inv].
  - destruct I as [L K T B C F], J as [P K2 A S C2 I2 F2]. split; split; cbn; try done; try lia; try apply NoDup_nil_2; try apply Forall_nil_2; by intros ? ? ?%elem_of_nil.
Qed.
Lemma session_invariant s : reachable net md utcnow s -> inv s.
Proof.
  intros (t & n & m & Hn & Hm & H).
  assert (H0 : inv (PublicContentSession t n m)).
  { split; split; cbn; try done; try lia; try apply NoDup_nil_2; try apply Forall_nil_2; first [by intros ? ?%elem_of_nil|by intros ? ? ?%elem_of_nil]. }
  revert H0. induction H as [|x y z Hxy _ IH]; [done|]. intros H0. apply IH. by eapply session_step.
Qed.
End Invariant.

(** ** What a session promises *)
Section Promises.
Context (net : network) (md : markitdown) (utcnow : net_world -> string).
Lemma ttl_positive h t : 0 < _cache_ttl h t ->
  _cache_ttl h t <= t /\ default "" (hlookup "set-cookie" h) = "" /\
  forall d, d ∈ ["no-store"; "private"; "no-cache"] -> contains (lower (default "" (hlookup "cache-control" h))) d = false.
Proof.
  unfold _cache_ttl. intros H. case_hyp H; [lia|]. bool_prop. split_and!; [|done|].
  - by apply Z.le_min_l.
  - intros d Hd. destruct (contains _ d) eqn:E; [|done]. exfalso.
    match goal with Hx : existsb _ _ = false |- _ => rewrite (proj2 (existsb_exists _ _)) in Hx; [done|] end.
    exists d. split; [by apply list_elem_of_In|done].
Qed.
Definition stored_text (c : list (article_key * cached_t)) : Z := foldr (fun kv n => blen (a_markdown (c_article (snd kv))) + n) 0 c.
Lemma total_text t c : Forall (kept_entry net md utcnow t) c -> total c = stored_text c.
Proof.
  induction 1 as [|[k x] c (_ & _ & H & _) _ IH]; [done|]. rewrite total_cons, IH. cbn in *. by rewrite H.
Qed.
(** memory and work are bounded, however calls, loads, failures, callbacks
    and closing interleave: the articles kept_entry number at most [max_entries],
    one per request, and their text is exactly the [_bytes] accounted for, at
    most [max_bytes]; at most 32 loads are shared, one per request, each still
    running or about to be taken off the table; and at most 8 loads hold a
    slot. *)
Theorem session_bounded s : reachable net md utcnow s ->
  Z.of_nat (length (_cache s)) <= max_entries s /\ NoDup (map fst (_cache s)) /\
  stored_text (_cache s) = _bytes s /\ _bytes s <= max_bytes s /\
  (length (_pending s) <= 32)%nat /\ NoDup (map fst (_pending s)) /\
  (forall k id, (k, id) ∈ _pending s -> (exists slot, Load id k true slot ∈ _loads s) \/ (k, id) ∈ _ended s) /\
  (holding s <= 8)%nat.
Proof.
  intros H. apply session_invariant in H as [[L K T B C F] [P K2 A S _ _ _]].
  rewrite <- (total_text _ _ F). by split_and!.
Qed.
End Promises.

(** ** Sessions shared by the uses of an owner

    [public_content_session]: the session of an owner stays open while a use
    of it lasts, and the last use closes it. *)
Inductive use_step : list (Z * nat) * sessions -> list (Z * nat) * sessions -> Prop :=
| Entered owner uses t sid t' : enter owner t = (sid, t') -> use_step (uses, t) ((owner, sid) :: uses, t')
| Left owner sid before after t t' : leave owner sid t = Ok t' ->
    use_step (before ++ (owner, sid) :: after, t) (before ++ after, t').
Definition uses_of (owner : Z) (uses : list (Z * nat)) : nat := length (List.filter (fun u => fst u =? owner) uses).
Lemma uses_cons o u a : uses_of o (u :: a) = ((if (fst u =? o)%Z then 1 else 0) + uses_of o a)%nat.
Proof. unfold uses_of. cbn. by destruct (fst u =? o). Qed.
Lemma uses_remove o before u after :
  uses_of o (before ++ u :: after) = ((if (fst u =? o)%Z then 1 else 0) + uses_of o (before ++ after))%nat.
Proof. unfold uses_of. rewrite !List.filter_app, !length_app. cbn. destruct (fst u =? o); cbn; lia. Qed.
Lemma uses_zero o uses : uses_of o uses = O -> forall sid, (o, sid) ∉ uses.
Proof.
  intros Hz sid Hi. induction uses as [|[o' s'] uses IH]; [by apply elem_of_nil in Hi|]. rewrite uses_cons in Hz.
  apply elem_of_cons in Hi as [[= <- <-]|Hi]; [cbn in Hz; rewrite Z.eqb_refl in Hz; lia|]. apply IH; [lia|done].
Qed.
Lemma uses_some o uses : uses_of o uses <> O -> exists sid, (o, sid) ∈ uses.
Proof.
  induction uses as [|[o' s'] uses IH]; [done|]. rewrite uses_cons. cbn. destruct (Z.eqb_spec o' o) as [->|]; [exists s'; left|].
  intros H. destruct (IH H) as (sid & Hs). exists sid. by right.
Qed.
Arguments uses_of : simpl never.
(** The table has session [sid] for [o]. *)
Definition holds (m : gmap Z (nat * nat)) (o : Z) (sid : nat) : Prop := exists n, m !! o = Some (sid, n).
Record owned (x : list (Z * nat) * sessions) : Prop := Owned {
  ow_count : forall o sid n, o_table (snd x) !! o = Some (sid, n) -> n = uses_of o (fst x) /\ (0 < n)%nat;
  ow_uses : forall o sid, (o, sid) ∈ fst x -> holds (o_table (snd x)) o sid;
  ow_apart : forall o o' sid, holds (o_table (snd x)) o sid -> holds (o_table (snd x)) o' sid -> o = o';
  ow_open : forall o sid, holds (o_table (snd x)) o sid -> sid ∉ o_closed (snd x);
  ow_once : NoDup (o_closed (snd x));
  ow_all : forall sid, (sid < o_fresh (snd x))%nat <-> sid ∈ o_closed (snd x) \/ exists o, holds (o_table (snd x)) o sid }.
Lemma holds_insert m owner sid n o s :
  holds (<[owner := (sid, n)]> m) o s <-> (o = owner /\ s = sid) \/ (o <> owner /\ holds m o s).
Proof.
  unfold holds. destruct (decide (owner = o)) as [<-|Hn]; [rewrite lookup_insert_eq|rewrite lookup_insert_ne by done]; naive_solver.
Qed.
Lemma holds_same m owner sid n o s : holds m owner sid -> holds (<[owner := (sid, n)]> m) o s <-> holds m o s.
Proof.
  intros H. rewrite holds_insert. destruct (decide (o = owner)) as [->|Hn]; [|naive_solver].
  destruct H as (k & Hk). split; [intros [[_ ->]|[? _]]; [by exists k|done]|]. intros (k' & Hk'). left. simplify_eq. done.
Qed.
Lemma holds_delete m owner o s : holds (delete owner m) o s <-> o <> owner /\ holds m o s.
Proof.
  unfold holds. destruct (decide (owner = o)) as [<-|Hn]; [rewrite lookup_delete_eq|rewrite lookup_delete_ne by done]; naive_solver.
Qed.
(** Changing the count of an owner that stays in the table. *)
Lemma recount owner sid uses uses' t n : owned (uses, t) -> holds (o_table t) owner sid ->
  n = uses_of owner uses' -> (0 < n)%nat -> (forall o, o <> owner -> uses_of o uses' = uses_of o uses) ->
  (forall u, u ∈ uses' -> u ∈ uses \/ u = (owner, sid)) ->
  owned (uses', Sessions (<[owner := (sid, n)]> (o_table t)) (o_fresh t) (o_closed t)).
Proof.
  intros [T U A L O C] Hh Hn Hp Ho Hu. cbn in *. split; cbn.
  - intros o s k. destruct (decide (owner = o)) as [<-|Hne]; [rewrite lookup_insert_eq; intros [= <- <-]; done|].
    rewrite lookup_insert_ne by done. rewrite Ho by done. apply T.
  - intros o s Hs. apply holds_same; [done|]. destruct (Hu _ Hs) as [Hs'|[= -> ->]]; [by apply U|done].
  - intros o o' s H1 H2. apply holds_same in H1, H2; [by eapply A|done..].
  - intros o s H1. apply holds_same in H1; [by eapply L|done].
  - done.
  - intros s. rewrite C. split; (intros [?|(o & H1)]; [by left|right; exists o]); [by apply holds_same|by apply holds_same in H1].
Qed.
Lemma enter_owned owner uses t sid t' : owned (uses, t) -> enter owner t = (sid, t') -> owned ((owner, sid) :: uses, t').
Proof.
  intros I H. unfold enter in H. destruct (o_table t !! owner) as [[sid0 n]|] eqn:E; injection H as <- <-.
  { destruct (ow_count _ I _ _ _ E) as [Hn Hp]. cbn in Hn. apply (recount owner sid0 uses); [done|by exists n| |lia| |].
    - rewrite uses_cons. cbn. rewrite Z.eqb_refl. lia.
    - intros o Ho. rewrite uses_cons. cbn. by rewrite (proj2 (Z.eqb_neq owner o)).
    - intros u [->|Hu]%elem_of_cons; auto. }
  destruct I as [T U A L O C]. cbn in *.
  assert (Hno : forall s, ~ holds (o_table t) owner s) by (intros s (n & Hn); congruence).
  assert (Hf : forall o, ~ holds (o_table t) o (o_fresh t)).
  { intros o Ho. assert (o_fresh t < o_fresh t)%nat; [|lia]. apply C. right. by exists o. }
  split; cbn.
  - intros o s n. rewrite uses_cons. cbn. destruct (Z.eqb_spec owner o) as [<-|Hn].
    + rewrite lookup_insert_eq. intros [= <- <-]. split; [|lia].
      destruct (uses_of owner uses) eqn:Hu; [done|]. destruct (uses_some owner uses) as (s & Hs); [lia|]. exfalso; exact (Hno s (U _ _ Hs)).
    + rewrite lookup_insert_ne by done. apply T.
  - intros o s [[= -> ->]|Hs]%elem_of_cons; apply holds_insert; [by left|]. right. split; [intros ->; by eapply Hno, U|by apply U].
  - intros o o' s [[-> ->]|[H1 H2]]%holds_insert [[-> E2]|[H3 H4]]%holds_insert; [done|by destruct (Hf o')|subst; by destruct (Hf o)|by eapply A].
  - intros o s [[-> ->]|[_ H1]]%holds_insert; [|by eapply L]. intros Hc. assert (o_fresh t < o_fresh t)%nat; [|lia]. apply C. by left.
  - done.
  - intros s. transitivity (s = o_fresh t \/ (s < o_fresh t)%nat); [lia|]. rewrite C. setoid_rewrite holds_insert. split.
    + intros [->|[?|(o & Ho)]]; [right; exists owner; by left|by left|right; exists o]. right. split; [intros ->; by eapply Hno|done].
    + intros [?|(o & [[-> ->]|[_ Ho]])]; [by right; left|by left|right; right; by exists o].
Qed.
Lemma leave_owned before owner sid after t : owned (before ++ (owner, sid) :: after, t) ->
  exists t', leave owner sid t = Ok t' /\ owned (before ++ after, t').
Proof.
  intros I. destruct (ow_uses _ I owner sid) as (n & E); [cbn; apply elem_of_app; right; by left|].
  destruct (ow_count _ I _ _ _ E) as [Hn Hp]. cbn in Hn, E. rewrite uses_remove in Hn. cbn in Hn. rewrite Z.eqb_refl in Hn.
  unfold leave. rewrite E. destruct (Nat.eqb_spec n 1) as [->|H1]; eexists; (split; [reflexivity|]).
  2:{ apply (recount owner sid (before ++ (owner, sid) :: after)); [done|by exists n|lia|lia| |].
      - intros o Ho. rewrite uses_remove. cbn. by rewrite (proj2 (Z.eqb_neq owner o)).
      - intros u Hu. left. rewrite elem_of_app in *. rewrite elem_of_cons. tauto. }
  assert (Hz : uses_of owner (before ++ after) = O) by lia.
  destruct I as [T U A L O C]. cbn in *. split; cbn.
  - intros o s n. destruct (decide (owner = o)) as [<-|Ho]; [by rewrite lookup_delete_eq|]. rewrite lookup_delete_ne by done.
    intros Hs. destruct (T _ _ _ Hs) as [-> Hp2]. rewrite uses_remove in *. cbn in *. rewrite (proj2 (Z.eqb_neq owner o)) in * by done. done.
  - intros o s Hs. apply holds_delete. split; [intros ->; by eapply uses_zero|]. apply U. rewrite elem_of_app in *. rewrite elem_of_cons. tauto.
  - intros o o' s [_ H1]%holds_delete [_ H2]%holds_delete. by eapply A.
  - intros o s [Ho H1]%holds_delete [->|Hc]%elem_of_cons; [|by eapply L]. apply Ho. eapply A; [exact H1|by exists 1%nat].
  - constructor; [|done]. eapply L. by exists 1%nat.
  - intros s. rewrite C, elem_of_cons. setoid_rewrite holds_delete. split.
    + intros [?|(o & Ho)]; [left; by right|]. destruct (decide (o = owner)) as [->|Hne]; [|right; by exists o].
      destruct Ho as (n & Ho). rewrite E in Ho. injection Ho as -> _. left. by left.
    + intros [[->|?]|(o & _ & Ho)]; [right; exists owner; by exists 1%nat|by left|right; by exists o].
Qed.
(** nested and overlapping uses.  While a use of an owner's session
    lasts, the session is open; uses of one owner share it and no two owners
    do; a use always ends without an error; and once no use is left, every
    session that was ever opened has been closed exactly once. *)
Theorem owner_sessions uses t : rtc use_step ([], Sessions ∅ 0 []) (uses, t) ->
  (forall owner sid, (owner, sid) ∈ uses -> sid ∉ o_closed t /\
     (forall owner' sid', (owner', sid') ∈ uses -> owner' = owner <-> sid' = sid)) /\
  (forall before owner sid after, uses = before ++ (owner, sid) :: after -> exists t', leave owner sid t = Ok t') /\
  (uses = [] -> NoDup (o_closed t) /\ forall sid, (sid < o_fresh t)%nat <-> sid ∈ o_closed t).
Proof.
  intros H. assert (I : owned (uses, t)).
  { revert H. generalize (uses, t). apply rtc_ind_r.
    - split; cbn; try done; [by intros ? ? ?%elem_of_nil|by intros o o' s (n & Hn)|by intros o s (n & Hn)|apply NoDup_nil_2|].
      intros s. split; [lia|]. intros [Hs%elem_of_nil|(o & n & Hn)]; done.
    - intros x y _ Hs I. destruct Hs as [owner u t0 sid t1 He|owner sid b a t0 t1 Hl]; [by eapply enter_owned|].
      destruct (leave_owned _ _ _ _ _ I) as (t2 & H2 & I2). rewrite H2 in Hl. by injection Hl as <-. }
  split_and!.
  - intros o sid Hi. pose proof (ow_uses _ I _ _ Hi) as Hh. split; [by eapply (ow_open _ I)|]. intros o' sid' Hi'.
    pose proof (ow_uses _ I _ _ Hi') as Hh'. split; intros ->; [|by eapply (ow_apart _ I)].
    destruct Hh as (n & Hn), Hh' as (n' & Hn'). congruence.
  - intros b o sid a ->. destruct (leave_owned _ _ _ _ _ I) as (t' & Ht & _). by exists t'.
  - intros ->. split; [exact (ow_once _ I)|]. intros sid. rewrite (ow_all _ I). cbn. split; [|by left].
    intros [?|(o & n & Hn)]; [done|]. destruct (ow_count _ I _ _ _ Hn) as [-> Hp]. cbn in Hp. unfold uses_of in Hp. cbn in Hp. lia.
Qed.
