(* ===== verification/WebExamples.v ===== *)
(** * Runs of the public fetching and of the article cache

    One page is asked for twice: the first call fetches it, the second is
    answered from memory. *)
From S2P Require Import Prelude PyStr PyFloat PyVal Json Redis PyUrl StoreOps Identity Markdown PyNet.
From S2P Require Import SafeHttp PublicContent PublicContentLaws.
#[local] Open Scope Z_scope.

Definition news : string := "https://news.example/today#top".
Definition news_url : string := "https://news.example/today".
(** The host answers with one public address; the page moves once. *)
Definition demo_net : network := Network
  (fun _ host => if (host =? "news.example")%string then Addresses ["93.184.216.34"] else NoAnswer "unknown")
  (fun n url => Exchange ["news.example"] 200 [("content-type", "text/html"); ("cache-control", "max-age=60")] ["<html>"; "news"] None).
Definition demo_md : markitdown := Markitdown false false (fun _ _ => false) (fun _ => Ok ("", "")).
Definition demo_converter (content url content_type : string) : result string :=
  Ok ("# News" +++ NL +++ NL +++ source_line url +++ NL +++ NL +++ "All is well.").
Definition start : net_world := NetWorld 0 0 [].
Definition demo_clock (w : net_world) : string := "2026-01-05T10:00:00+00:00".
Definition demo_load : result loaded * net_world := load_body demo_net demo_md demo_clock news_url ["http"; "https"] demo_converter start.
Definition demo_article : article_t :=
  PublicArticle news_url ("# News" +++ NL +++ NL +++ source_line news_url +++ NL +++ NL +++ "All is well.") "2026-01-05T10:00:00+00:00".

Lemma fetch_confined_witness : exists es,
  nw_log (snd (get_public_response_async demo_net 100 news ["http"; "https"] 10 start)) = [] ++ es /\
  (forall a, Connected a ∈ es -> outside_internal a) /\
  (forall u, Requested u ∈ es -> exists host, url_host u ["http"; "https"] = Ok host /\ (ip_address host <> None -> outside_internal host)) /\
  Z.of_nat (requests es) <= 10 + 1 /\
  (forall resp, fst (get_public_response_async demo_net 100 news ["http"; "https"] 10 start) = Ok resp ->
     blen (p_body resp) <= 100 /\ (is_redirect resp = true -> default "" (header "location" resp) = "")).
Proof.
  apply (fetch_confined demo_net 100 news ["http"; "https"] 10 start _ _); [lia|lia|]. apply surjective_pairing.
Defined.

Definition s0 : session := PublicContentSession 300 64 8388608.
Definition s1 : session := snd (article s0 news ["https"; "http"] (f_of_Z 10)).
Definition s2 : session := take_slot 0 s1.
Definition s3 : session :=
  end_load (Load 0 (news_url, ["http"; "https"]) true true)
    (snd (keep s2 news_url ["http"; "https"] (default (Loaded "" "" []) (match fst demo_load with Ok d => Some d | _ => None end)) (f_of_Z 11))).
Definition s4 : session := finished (news_url, ["http"; "https"]) 0 s3.
Lemma demo_loaded : fst demo_load = Ok (Loaded (a_markdown demo_article) (a_fetched_at demo_article)
  [("content-type", "text/html"); ("cache-control", "max-age=60")]).
Proof. vm_compute. reflexivity. Qed.
Lemma demo_reachable : reachable demo_net demo_md demo_clock s4.
Proof.
  exists 300, 64, 8388608. split; [lia|]. split; [lia|].
  eapply rtc_l; [by eapply (Asked _ _ _ news ["https"; "http"] (f_of_Z 10)), surjective_pairing|]. fold s1.
  eapply rtc_l; [apply (Slot_taken _ _ _ 0%nat s1); apply Nat.ltb_lt; vm_compute; reflexivity|]. fold s2.
  eapply rtc_l; [eapply (Load_done _ _ _ (Load 0 (news_url, ["http"; "https"]) true true) demo_converter start _ (snd demo_load)
    (f_of_Z 11) _ s2)|].
  - apply list_elem_of_In. left. vm_compute. reflexivity.
  - reflexivity.
  - cbn [fst snd l_key]. fold demo_load. rewrite <- demo_loaded. apply surjective_pairing.
  - apply surjective_pairing.
  - eapply rtc_l; [|apply rtc_refl]. unfold s4, s3. rewrite demo_loaded. cbn [default l_key fst snd].
    apply Callback. apply list_elem_of_In. vm_compute. left. reflexivity.
Qed.
Lemma demo_hit : article s4 news ["http"; "https"] (f_of_Z 70) =
  (Ok (Hit demo_article), snd (article s4 news ["http"; "https"] (f_of_Z 70))).
Proof. vm_compute. reflexivity. Qed.
Lemma session_bounded_witness : length (_cache s4) = 1%nat /\ _bytes s4 = 58 /\ stored_text (_cache s4) = 58 /\ _pending s4 = [].
Proof.
  destruct (session_bounded demo_net demo_md demo_clock s4 demo_reachable) as (_ & _ & H & _).
  split; [vm_compute; reflexivity|]. split; [vm_compute; reflexivity|]. split; [rewrite H; vm_compute; reflexivity|vm_compute; reflexivity].
Defined.
(** A minute later the page is loaded again; while that load runs, it is shared. *)
Example expired_page : fst (article s4 news ["http"; "https"] (f_of_Z 71)) = Ok (Shared 1 "miss") /\
  fst (article (snd (article s4 news ["http"; "https"] (f_of_Z 71))) news_url ["HTTPS"; "http"] (f_of_Z 72)) = Ok (Shared 1 "coalesced").
Proof. split; vm_compute; reflexivity. Qed.
Example refused_urls : map (fun u => match fst (article s0 u ["https"] (f_of_Z 0)) with Ok _ => true | Raise _ => false end)
  ["https://u:p@news.example/"; "http://news.example/"; "https://169.254.169.254/latest"; "https://[::1]/"; "https://news.example/?k=1"] =
  [false; false; false; false; true].
Proof. vm_compute. reflexivity. Qed.
Example lifetimes : map (fun c => _cache_ttl [("cache-control", c); ("age", "20")] 300)
  ["public, max-age=60"; "max-age=10"; "no-store"; "s-maxage=9"; "Max-Age = 4000"; ""] = [40; 0; 0; 300; 300; 300].
Proof. vm_compute. reflexivity. Qed.
Lemma script_path_witness : is_challenge_page "<p>Story</p><script src=/cdn-cgi/challenge-platform/s.js></script>" = true.
Proof. apply script_path_is_two_signatures. vm_compute. reflexivity. Defined.

(** Two nested uses of owner 7 and one of owner 8. *)
Definition uses7 : sessions := snd (enter 8 (snd (enter 7 (snd (enter 7 (Sessions ∅ 0 [])))))).
Lemma demo_uses : rtc use_step ([], Sessions ∅ 0 []) ([(8, 1%nat); (7, 0%nat); (7, 0%nat)], uses7).
Proof.
  eapply rtc_l; [apply (Entered 7); reflexivity|]. eapply rtc_l; [apply (Entered 7); reflexivity|].
  eapply rtc_l; [apply (Entered 8); reflexivity|]. apply rtc_refl.
Qed.
Lemma owner_sessions_witness : (0%nat ∉ o_closed uses7) /\ exists t', leave 7 0 uses7 = Ok t'.
Proof.
  destruct (owner_sessions _ _ demo_uses) as (H1 & H2 & _). split.
  - apply (H1 7 0%nat). apply elem_of_cons. right. left.
  - apply (H2 [(8, 1%nat)] 7 0%nat [(7, 0%nat)]). reflexivity.
Defined.
