(* ===== verification/Compaction.v ===== *)
(** * Reversible compaction of tool output ([nat_helpers/tool_output_compaction.py])

    Strict JSON, the choice of rows and excerpts to show, the store of exact
    originals and the decision itself.  zlib and the Unicode data behind [\w]
    are parameters. *)
From S2P Require Import Prelude PyStr PyFloat PyVal Json JsonRoundtrip Redis Sha Dedupe World Identity Tokens.
From S2P Require Import Markdown.
#[local] Open Scope Z_scope.

Definition COMPACTION_MARKER : string := "_daedalus_compacted_tool_output".
Definition REFERENCE_PREFIX : string := "tor_".
Definition hex_char (c : ascii) : bool := is_digit c || in_range 97 102 c.
Definition REFERENCE_PATTERN (s : string) : bool :=
  match strip_prefix REFERENCE_PREFIX s with
  | Some r => (String.length r =? 32)%nat && all_chars hex_char r
  | None => false
  end.

(** ** Strict JSON *)
Definition _reject_duplicate_keys (pairs : list (string * value)) : option dict :=
  if decide (NoDup (map fst pairs)) then Some pairs else None.
(** [Decimal(s)] of the text of a JSON float: mantissa and power of ten. *)
Definition decimal (s : string) : option (Z * Z) :=
  let '(neg, s) := match s with String c r => if char_is "-" c then (true, r) else (false, s) | _ => (false, s) end in
  match p_int_part s with
  | None => None
  | Some (ip, r) =>
      let '(fp, r) := match scan_frac r with Some (fp, r) => (fp, r) | None => ("", r) end in
      let '(e, r) := match scan_exp r with Some (e, r) => (e, r) | None => (0, r) end in
      let n := digits_val 0 (ip +++ fp) in
      if (r =? "")%string then Some (if neg then - n else n, e - ulen fp) else None
  end.
Definition decimal_eq (a b : Z * Z) : bool :=
  let e := Z.min (snd a) (snd b) in fst a * 10 ^ (snd a - e) =? fst b * 10 ^ (snd b - e).
Definition is_finite (f : float) : bool := match f with S754_zero _ | S754_finite _ _ _ => true | _ => false end.
Definition _lossless_float (text : string) (parsed : float) : bool :=
  let rendered := float_repr parsed in
  is_finite parsed &&
  ((text =? rendered)%string ||
   match decimal text, decimal rendered with Some a, Some b => decimal_eq a b | _, _ => false end).
Definition strict_hooks : hooks := Hooks _reject_duplicate_keys (fun _ => false) _lossless_float.
Definition _json_loads : string -> result value := loads_with strict_hooks.
Definition _json_dumps (v : value) : string := dumps_with compact_opts v.

Record CompactionSettings := Settings {
  enabled : bool; min_chars : Z; max_items : Z; min_savings_chars : Z; max_compacted_ratio : float;
  max_original_chars : Z; cache_ttl_seconds : Z; article_excerpt_chars : Z }.
Definition default_settings : CompactionSettings :=
  Settings true 8000 16 1500 (dec_to_float false 7 (-1)) 4000000 7200 4000.
Record OptimizedToolContent := Optimized {
  o_content : string; o_mode : string; o_original_chars : Z; o_optimized_chars : Z; o_reference : option string }.
Record parsed_json := ParsedJSON { j_value : value; j_prefix : string; j_suffix : string }.
Definition render (p : parsed_json) (v : value) : string := j_prefix p +++ _json_dumps v +++ j_suffix p.

(** ** The two wrappers *)
(** [s] without its suffix [r], and the suffix [p] at the end of [s]. *)
Definition before (s r : string) : string := String.substring 0 (String.length s - String.length r) s.
Definition drop_end (s p : string) : option string :=
  if endswith s p then Some (String.substring 0 (String.length s - String.length p) s) else None.
Definition tag_char (c : ascii) : bool := is_alnum_lower c || is_upper c || char_is "_" c || char_is ":" c || char_is "-" c.
Definition after_text (s r : string) : string := String.substring (String.length r) (String.length s) s.
Definition _TAGGED_JSON (content : string) : option (string * string * string) :=
  match strip_prefix "<" (lstrip content) with
  | Some (String c r) =>
      if is_lower c || is_upper c then
        let '(name, r) := take_while tag_char (String c r) in
        match strip_prefix ">" r with
        | Some r =>
            let r := lstrip r in
            let t := rstrip r in
            match drop_end t ("</" +++ name +++ ">") with
            | Some body => Some (before content r, body, after_text r body)
            | None => None
            end
        | None => None
        end
      else None
  | _ => None
  end.
(** Letters as [re.IGNORECASE] compares them: the four characters that fold to
    an ASCII letter, and the ASCII capitals. *)
Definition sre_fold (ch : string) : string :=
  if (ch =? "ſ")%string then "s" else if (ch =? "K")%string then "k"
  else if (ch =? "İ")%string || (ch =? "ı")%string then "i"
  else match ch with String c "" => String (lower_ascii c) "" | _ => ch end.
Fixpoint drop_chars (p cs : list string) : option (list string) :=
  match p, cs with
  | [], _ => Some cs
  | x :: p, c :: cs => if (x =? sre_fold c)%string then drop_chars p cs else None
  | _, _ => None
  end.
Definition JSON_FENCE : string := "```".
Definition _FENCED_JSON (content : string) : option (string * string * string) :=
  match strip_prefix JSON_FENCE (lstrip content) with
  | None => None
  | Some r =>
      let r := match drop_chars (chars "json") (chars r) with Some cs => String.concat "" cs | None => r end in
      let r := lstrip r in
      match drop_end (rstrip r) JSON_FENCE with
      | Some body => let body := rstrip body in Some (before content r, body, after_text r body)
      | None => None
      end
  end.
Fixpoint first_parsed (candidates : list (string * string * string)) : option parsed_json :=
  match candidates with
  | [] => None
  | (prefix, candidate, suffix) :: candidates =>
      match _json_loads (strip candidate) with
      | Ok v => if utf8_ok (_json_dumps v) then Some (ParsedJSON v prefix suffix) else first_parsed candidates
      | Raise _ => first_parsed candidates
      end
  end.
Definition option_list {A} (o : option A) : list A := match o with Some x => [x] | None => [] end.
Definition _parse_structured_json (content : string) : option parsed_json :=
  first_parsed (("", strip content, "") :: option_list (_TAGGED_JSON content) ++ option_list (_FENCED_JSON content)).

Definition tool_output_reference (content : string) : result string :=
  h ← utf8_sha256 content; Ok (REFERENCE_PREFIX +++ utake 32 h).
Definition _user_cache_key (user_id reference : string) : result string :=
  h ← utf8_sha256 user_id; Ok ("daedalus:tool-output:v1:" +++ utake 24 h +++ ":" +++ reference).

(** ** Words and signals *)
Section Words.
Context (wide_word : string -> bool).
Inductive tok := Lit (s : string) | Spaces.
Definition word (ch : string) : bool := is_word_char wide_word (sre_fold ch).
Fixpoint drop_spaces (cs : list string) : list string :=
  match cs with c :: cs' => if space_char c then drop_spaces cs' else cs | [] => [] end.
Fixpoint match_toks (ts : list tok) (cs : list string) : option (list string) :=
  match ts with
  | [] => Some cs
  | Lit s :: ts => match drop_chars (chars s) cs with Some cs => match_toks ts cs | None => None end
  | Spaces :: ts => match cs with c :: cs => if space_char c then match_toks ts (drop_spaces cs) else None | [] => None end
  end.
(** Whether one of the phrases occurs between word boundaries. *)
Fixpoint search_at (phrases : list (list tok)) (previous_word : bool) (cs : list string) : bool :=
  (negb previous_word &&
   existsb (fun ts => match match_toks ts cs with
                      | Some (c :: _) => negb (word c)
                      | Some [] => true
                      | None => false
                      end) phrases) ||
  match cs with [] => false | c :: cs => search_at phrases (word c) cs end.
Definition search (phrases : list (list tok)) (text : string) : bool := search_at phrases false (chars text).
Definition lits (l : list string) : list (list tok) := map (fun s => [Lit s]) l.
Definition _ERROR_SIGNAL : list (list tok) :=
  lits ["critical"; "denied"; "error"; "exception"; "failed"; "failure"; "fatal"; "invalid"; "missing"; "notready";
        "not ready"; "not-ready"; "timeout"; "unavailable"; "unhealthy"; "warning"].
Definition _COMPLETE_OUTPUT_INTENT : list (list tok) :=
  lits ["all"; "complete"; "count"; "each"; "entire"; "every"; "exact"; "exhaustive"; "full"; "raw"; "verbatim";
        "how many"; "are there any"; "are there no"; "list all"; "list every"].
Definition _RESEARCH_COMPLETE_OUTPUT_INTENT : list (list tok) :=
  lits ["all"; "complete"; "count"; "entire"; "every"; "exhaustive"; "full"; "raw"; "verbatim"; "how many";
        "are there any"; "are there no"] ++
  map (fun s => [Lit s; Spaces; Lit "each"]) ["list"; "enumerate"; "extract"; "report"; "return"] ++
  map (fun s => [Lit "each"; Spaces; Lit s])
    ["line"; "word"; "character"; "byte"; "paragraph"; "sentence"; "item"; "entry"; "record"; "measurement"; "fact"; "detail"] ++
  map (fun s => [Lit "exact"; Spaces; Lit s])
    ["source"; "content"; "document"; "text"; "article"; "code"; "transcript"; "output"].
Definition _STOP_WORDS : list string :=
  ["about"; "after"; "also"; "and"; "are"; "can"; "could"; "does"; "for"; "from"; "have"; "into"; "latest"; "list"; "more";
   "please"; "show"; "that"; "the"; "their"; "this"; "tool"; "what"; "when"; "where"; "which"; "with"; "would"].
Definition term_head (c : ascii) : bool := is_alnum_lower c || is_upper c.
Definition term_char (c : ascii) : bool :=
  term_head c || char_is "_" c || char_is "." c || char_is ":" c || char_is "/" c || char_is "-" c.
(** [_WORD.findall]. *)
Fixpoint find_words (fuel : nat) (s : string) : list string :=
  match fuel, s with
  | S fuel, String c r =>
      if term_head c then
        let '(w, rest) := take_while term_char r in
        if 2 <=? blen w then String c w :: find_words fuel rest else find_words fuel r
      else find_words fuel r
  | _, _ => []
  end.
Fixpoint dedupe_terms (seen l : list string) : list string :=
  match l with
  | [] => []
  | x :: l => if is_in x seen then dedupe_terms seen l else x :: dedupe_terms (x :: seen) l
  end.
Definition _query_terms (query : string) : list string :=
  dedupe_terms [] (List.filter (fun w => negb (is_in w _STOP_WORDS)) (map casefold (find_words (String.length query) query))).
Definition score (terms : list string) (text : string) : Z :=
  let lowered := casefold text in fold_right (fun t n => count lowered t + n) 0 terms.

(** ** Which rows to show *)
Definition mem (i : Z) (l : list Z) : bool := existsb (Z.eqb i) l.
Definition add (i : Z) (l : list Z) : list Z := if mem i l then l else l ++ [i].
Definition range (a b : Z) : list Z := map (fun i => a + Z.of_nat i) (seq 0 (Z.to_nat (b - a))).
Definition size (l : list Z) : Z := Z.of_nat (length l).
(** [for i in candidates: if len(selected) >= budget: break; selected.add(i)]. *)
Fixpoint fill (budget : Z) (candidates selected : list Z) : list Z :=
  match candidates with
  | [] => selected
  | i :: candidates => if budget <=? size selected then selected else fill budget candidates (add i selected)
  end.
Definition add_all (l selected : list Z) : list Z := fold_left (fun s i => add i s) l selected.
Definition score_leb (a b : Z * Z) : bool := (fst a <? fst b) || ((fst a =? fst b) && (snd a <=? snd b)).
(** [int(round(f))]. *)
Definition round_half_even (f : float) : Z := match float_frac f with Some (n, d) => round_div n d | None => 0 end.
Definition even_sample (count remaining : Z) : list Z :=
  let step := f_div (f_of_Z count) (f_of_Z (remaining + 1)) in
  map (fun ordinal => Z.min (count - 1) (round_half_even (f_mul (f_of_Z ordinal) step))) (range 1 (remaining + 1)).
Definition _select_indices (items : list value) (max_items : Z) (query : string) : list Z :=
  let count := Z.of_nat (length items) in
  let budget := Z.min (Z.max 1 max_items) count in
  let selected := add_all (range (Z.max 0 (count - 2)) count) (range 0 (Z.min 3 count)) in
  let rendered := map _json_dumps items in
  let indexed := combine (range 0 count) rendered in
  let signal_indices := map fst (List.filter (fun ix => search _ERROR_SIGNAL (snd ix)) indexed) in
  let remaining_budget := Z.max 0 (budget - size selected) in
  let signal_quota := if remaining_budget =? 0 then 0 else Z.max 1 (remaining_budget / 2) in
  let selected := fill budget (py_take signal_quota signal_indices) selected in
  let terms := _query_terms query in
  let selected :=
    match terms with
    | [] => selected
    | _ =>
        if budget <=? size selected then selected else
        let scored := List.filter (fun si => negb (fst si =? 0)) (map (fun ix => (- score terms (snd ix), fst ix)) indexed) in
        let query_quota := Z.max 1 (budget - size selected) in
        fill budget (py_take query_quota (map snd (stable_sort score_leb scored))) selected
    end in
  let selected := if size selected <? budget then fill budget (skipn (Z.to_nat signal_quota) signal_indices) selected else selected in
  let selected := if size selected <? budget
                  then add_all (even_sample count (budget - size selected)) selected else selected in
  let selected := if size selected <? budget then fill budget (range 0 count) selected else selected in
  py_take budget (stable_sort Z.leb selected).
End Words.

(** ** Previews *)
(** [max(candidates, key=...)]: the first of the longest. *)
Fixpoint longest (best : string * list value) (l : list (string * list value)) : string * list value :=
  match l with
  | [] => best
  | x :: l => longest (if ulen (_json_dumps (VList (snd best))) <? ulen (_json_dumps (VList (snd x))) then x else best) l
  end.
Definition array_candidates (d : dict) : list (string * list value) :=
  omap (fun kv => match snd kv with VList (x :: l) => Some (fst kv, x :: l) | _ => None end) d.
(** The key of the array in the object, [None] for an array at the top. *)
Definition _array_target (v : value) : option (option string * list value) :=
  match v with
  | VList l => Some (None, l)
  | VDict d => match array_candidates d with [] => None | x :: l => let '(k, items) := longest x l in Some (Some k, items) end
  | _ => None
  end.
Definition array_path (k : option string) : string := match k with None => "$" | Some k => "$." +++ k end.
Definition nth_item (items : list value) (i : Z) : value := nth (Z.to_nat i) items VNone.
Definition shown_item (items : list value) (i : Z) : value := VDict [("index", VInt i); ("value", nth_item items i)].
Definition _preview_value (parsed : value) (k : option string) (items : list value) (selected : list Z) : value :=
  let preview := VDict [("total_items", VInt (Z.of_nat (length items))); ("shown_items", VInt (size selected));
     ("omitted_items", VInt (Z.of_nat (length items) - size selected));
     ("selection", VStr "first,last,errors,query_relevance,even_sample");
     ("items", VList (map (shown_item items) selected))] in
  match k, parsed with Some k, VDict d => VDict (dset k preview d) | _, _ => preview end.
Definition ROWS_RETRIEVAL : string :=
  "Use tool_output_retriever_tool with this reference when omitted rows could affect the answer. Search by query first; page exact content when completeness matters.".
Definition ARTICLE_RETRIEVAL : string :=
  "Partial excerpts, not the complete source. Use tool_output_retriever_tool with this reference to read exact surrounding content when omitted context could affect a claim. Do not infer absence from this preview. Excerpt offsets refer to the decoded article, not its JSON wrapper. Recover this source by query or page the original JSON; do not use excerpt offsets as retrieval offsets.".
Definition _estimate_tokens (content : string) : Z := Z.max 1 ((ulen content + 3) / 4).
Definition ratio (a b : string) : float := f_div (f_of_Z (ulen a)) (f_of_Z (Z.max 1 (ulen b))).
(** Whether the preview saves enough. *)
Definition worthwhile (settings : CompactionSettings) (content optimized : string) : bool :=
  negb (ulen content - ulen optimized <? min_savings_chars settings) &&
  negb (f_ltb (max_compacted_ratio settings) (ratio optimized content)).
Section Previews.
Context (wide_word : string -> bool) (settings : CompactionSettings).
Definition rows_envelope (content reference : string) (v : value) (k : option string) (items : list value) (selected : list Z) : value :=
  VDict [(COMPACTION_MARKER, VDict [("reference", VStr reference); ("array_path", VStr (array_path k));
            ("original_chars", VInt (ulen content)); ("estimated_original_tokens", VInt (_estimate_tokens content));
            ("total_items", VInt (Z.of_nat (length items))); ("shown_items", VInt (size selected));
            ("omitted_items", VInt (Z.of_nat (length items) - size selected)); ("retrieval", VStr ROWS_RETRIEVAL)]);
         ("preview", _preview_value v k items selected)].
Definition _reversible_preview (content : string) (parsed : parsed_json) (query : string) : result (option (string * string)) :=
  match _array_target (j_value parsed) with
  | None => Ok None
  | Some (k, items) =>
      if Z.of_nat (length items) <=? max_items settings then Ok None else
      let selected := _select_indices wide_word items (max_items settings) query in
      reference ← tool_output_reference content;
      let optimized := render parsed (rows_envelope content reference (j_value parsed) k items selected) in
      Ok (if worthwhile settings content optimized then Some (optimized, reference) else None)
  end.

(** Verbatim windows of an article. *)
Definition windows (article : string) (window : Z) : list (Z * Z) :=
  map (fun i => let offset := Z.of_nat i * window in (offset, Z.min (offset + window) (ulen article)))
      (seq 0 (Z.to_nat ((ulen article + window - 1) / window))).
Definition window_at (ws : list (Z * Z)) (i : Z) : Z * Z := nth (Z.to_nat i) ws (0, 0).
Definition slice_of (article : string) (w : Z * Z) : string := uslice (fst w) (snd w) article.
Definition width (w : Z * Z) : Z := snd w - fst w.
(** Signals first, then the score, then the position. *)
Definition rank_leb (a b : bool * Z * Z) : bool :=
  let '(sa, na, ia) := a in
  let '(sb, nb, ib) := b in
  if Bool.eqb sa sb then (nb <? na) || ((na =? nb) && (ia <=? ib)) else sa.
Fixpoint choose (ws : list (Z * Z)) (ranked : list Z) (remaining : Z) (selected : list Z) : list Z :=
  match ranked with
  | [] => selected
  | i :: ranked =>
      let n := width (window_at ws i) in
      if remaining <? n then choose ws ranked remaining selected
      else choose ws ranked (remaining - n) (add i selected)
  end.
Definition _excerpts (article query : string) (budget : Z) : list (Z * Z) :=
  let window := Z.min 800 (budget / 2) in
  let ws := windows article window in
  let n := Z.of_nat (length ws) in
  let terms := _query_terms query in
  let ends := add (n - 1) [0] in
  let ranked := map snd (stable_sort rank_leb (map (fun i => let text := slice_of article (window_at ws i) in
                  (search wide_word _ERROR_SIGNAL text, score terms text, i)) (range 1 (n - 1)))) in
  let used := fold_right (fun i s => width (window_at ws i) + s) 0 ends in
  map (window_at ws) (stable_sort Z.leb (choose ws ranked (budget - used) ends)).
Definition excerpt_value (article : string) (w : Z * Z) : value :=
  VDict [("start_offset", VInt (fst w)); ("end_offset", VInt (snd w)); ("text", VStr (slice_of article w))].
Definition article_envelope (content reference article : string) (metadata : dict) (ws : list (Z * Z)) : value :=
  VDict [(COMPACTION_MARKER, VDict [("reference", VStr reference); ("content_path", VStr "$.content");
            ("offset_basis", VStr "decoded_article"); ("original_chars", VInt (ulen content));
            ("article_chars", VInt (ulen article));
            ("omitted_chars", VInt (ulen article - fold_right (fun w s => ulen (slice_of article w) + s) 0 ws));
            ("selection", VStr "verbatim_boundaries,cautions,query_relevance"); ("retrieval", VStr ARTICLE_RETRIEVAL)]);
         ("preview", VDict (dset "excerpts" (VList (map (excerpt_value article) ws)) metadata))].
Definition is_research (v : value) : bool := match v with VDict d => py_eq (dget "output_mode" d) (VStr "research") | _ => false end.
Definition _article_preview (content : string) (parsed : option parsed_json) (tool_name query : string)
  : result (option (string * string)) :=
  match parsed with
  | Some p =>
      if (tool_name =? "curated_feed_search_tool")%string || ((tool_name =? "webscrape_tool")%string && is_research (j_value p)) then
        match j_value p with
        | VDict d =>
            match dget "success" d, dget "content" d, dget "source" d with
            | VBool true, VStr article, VDict _ =>
                let metadata := ddel "content" d in
                let query := query +++ " " +++ py_str (dget_or "query" (VStr "") d) in
                let budget := Z.max 800 (article_excerpt_chars settings) in
                if ulen article <=? budget then Ok None else
                let ws := _excerpts article query budget in
                reference ← tool_output_reference content;
                let optimized := render p (article_envelope content reference article metadata ws) in
                Ok (if worthwhile settings content optimized then Some (optimized, reference) else None)
            | _, _, _ => Ok None
            end
        | _ => Ok None
        end
      else Ok None
  | None => Ok None
  end.
End Previews.

(** ** The store *)
Section Store.
Context {R : Type} `{RS : RedisServer R} (h : host R) (monotonic : nat -> float).
Context (compress : string -> string) (decompress : string -> option string).
Record store_world := StoreWorld { sw_world : world R; sw_reads : nat; sw_disabled_until : float }.
Definition cache_ttl (settings : CompactionSettings) : Z := Z.max 1 (cache_ttl_seconds settings).
Definition _retry_after_seconds : float := f_of_Z 30.
Definition _CACHE_VERSION : string := "z1".
Definition clock_read : eff store_world float := fun w =>
  (Ok (monotonic (sw_reads w)), StoreWorld (sw_world w) (S (sw_reads w)) (sw_disabled_until w)).
Definition on_redis {A} (m : eff (world R) A) : eff store_world A := fun w =>
  let '(x, w') := m (sw_world w) in (x, StoreWorld w' (sw_reads w) (sw_disabled_until w)).
Definition disable : eff store_world unit :=
  now ← clock_read;
  modify (fun w => StoreWorld (sw_world w) (sw_reads w) (f_add now _retry_after_seconds)).
Definition disabled : eff store_world bool :=
  now ← clock_read; gets (fun w => f_ltb now (sw_disabled_until w)).
Definition put (ttl : Z) (user_id content reference : string) : eff store_world bool :=
  if (user_id =? "")%string || negb (REFERENCE_PATTERN reference) then mret false else
  off ← disabled;
  if (off : bool) then mret false else
  if negb (utf8_ok content) then throw ValueError "'utf-8' codec can't encode characters" else
  catch (k ← lift (_user_cache_key user_id reference);
         _ ← on_redis (redis h (SETEX k ttl (_CACHE_VERSION +++ compress content)));
         mret true)
        [Exception_] (fun _ => _ ← disable; mret false).
Definition decode_payload (reference : string) (r : reply) : result (option string) :=
  match r with
  | RText payload =>
      match strip_prefix _CACHE_VERSION payload with
      | None => Ok None
      | Some packed =>
          match decompress packed with
          | None => raise ValueError "Error -3 while decompressing data"
          | Some content =>
              if negb (utf8_ok content) then raise ValueError "'utf-8' codec can't decode bytes" else
              actual ← tool_output_reference content;
              Ok (if (actual =? reference)%string then Some content else None)
          end
      end
  | _ => Ok None
  end.
Definition get (user_id reference : string) : eff store_world (option string) :=
  if (user_id =? "")%string || negb (REFERENCE_PATTERN reference) then mret None else
  off ← disabled;
  if (off : bool) then mret None else
  catch (k ← lift (_user_cache_key user_id reference);
         r ← on_redis (redis h (GET k));
         lift (decode_payload reference r))
        [Exception_] (fun _ => _ ← disable; mret None).

(** ** The decision *)
Context (wide_word : string -> bool).
Definition unchanged (content : string) : OptimizedToolContent :=
  Optimized content "unchanged" (ulen content) (ulen content) None.
Definition lossless (content : string) (parsed : option parsed_json) : OptimizedToolContent :=
  match parsed with
  | Some p =>
      let minified := render p (j_value p) in
      if 256 <=? ulen content - ulen minified
      then Optimized minified "lossless_json" (ulen content) (ulen minified) None else unchanged content
  | None => unchanged content
  end.
Definition research_result (tool_name : string) (parsed : option parsed_json) : bool :=
  match parsed with
  | Some p =>
      (tool_name =? "webscrape_tool")%string && is_research (j_value p) &&
      match j_value p with
      | VDict d => match dget "success" d, dget "content" d with VBool true, VStr _ => true | _, _ => false end
      | _ => false
      end
  | None => false
  end.
Definition preview_of (settings : CompactionSettings) (content tool_name query : string) (parsed : option parsed_json)
  : result (option (string * string)) :=
  article ← _article_preview wide_word settings content parsed tool_name query;
  match article, parsed with
  | None, Some p => _reversible_preview wide_word settings content p query
  | _, _ => Ok article
  end.
Definition optimize_tool_content (settings : CompactionSettings) (content tool_name query user_id : string)
  : eff store_world OptimizedToolContent :=
  if negb (enabled settings) || (content =? "")%string || contains content COMPACTION_MARKER ||
     (max_original_chars settings <? ulen content)
  then mret (unchanged content) else
  let parsed := _parse_structured_json content in
  let base := lossless content parsed in
  if ulen content <? min_chars settings then mret base else
  let preserve := if research_result tool_name parsed then _RESEARCH_COMPLETE_OUTPUT_INTENT else _COMPLETE_OUTPUT_INTENT in
  if search wide_word preserve query then mret base else
  reversible ← lift (preview_of settings content tool_name query parsed);
  match reversible with
  | None => mret base
  | Some (optimized, reference) =>
      stored ← put (cache_ttl settings) user_id content reference;
      mret (if (stored : bool)
            then Optimized optimized "reversible_preview" (ulen content) (ulen optimized) (Some reference) else base)
  end.
End Store.

(** ** The retrieval tool ([nat_helpers/tool_output_retriever.py]) *)
Record retriever_config := RetrieverConfig { max_chunk_chars : Z; max_matches : Z; context_chars : Z }.
Record retriever_input := RetrieverInput { r_reference : string; r_query : option string; r_offset : Z; r_max_chars : option Z }.
Record page := Page { p_offset : Z; p_end : Z; p_total : Z; p_content : string }.
Definition page_of (content : string) (offset max_chars : Z) : page :=
  let bounded_offset := Z.min offset (ulen content) in
  let stop := Z.min (ulen content) (bounded_offset + max_chars) in
  Page bounded_offset stop (ulen content) (uslice bounded_offset stop content).
Definition page_complete (p : page) : bool := p_total p <=? p_end p.
Definition _json_result (d : dict) : string := _json_dumps (VDict d).
Definition _page_content (content reference : string) (offset max_chars : Z) : string :=
  let p := page_of content offset max_chars in
  _json_result [("reference", VStr reference); ("mode", VStr "exact_page"); ("offset", VInt (p_offset p));
    ("end_offset", VInt (p_end p)); ("total_chars", VInt (p_total p)); ("complete", VBool (page_complete p));
    ("next_offset", if page_complete p then VNone else VInt (p_end p)); ("content", VStr (p_content p))].
Section Search.
(** Whether [re.IGNORECASE] takes one character for the other. *)
Context (same_char : string -> string -> bool).
Fixpoint matches_here (q cs : list string) : bool :=
  match q, cs with
  | [], _ => true
  | x :: q, c :: cs => same_char x c && matches_here q cs
  | _, [] => false
  end.
(** The first match in [cs], which starts at character [i] of the text. *)
Fixpoint find_match (q cs : list string) (i : Z) : option Z :=
  if matches_here q cs then Some i else match cs with [] => None | _ :: cs => find_match q cs (i + 1) end.
Definition match_from (content q : list string) (cursor : Z) : option Z := find_match q (skipn (Z.to_nat cursor) content) cursor.
Fixpoint collect_matches (fuel : nat) (content q : list string) (cursor : Z) : list Z * Z :=
  match fuel with
  | O => ([], cursor)
  | S fuel =>
      match match_from content q cursor with
      | None => ([], cursor)
      | Some i => let '(l, c) := collect_matches fuel content q (i + Z.of_nat (length q)) in (i :: l, c)
      end
  end.
Definition match_value (content : string) (n context i : Z) : value :=
  let start := Z.max 0 (i - context) in
  let stop := Z.min (ulen content) (i + n + context) in
  VDict [("match_offset", VInt i); ("start_offset", VInt start); ("end_offset", VInt stop);
         ("content", VStr (uslice start stop content))].
Definition _search_content (content reference query : string) (max_matches context_chars : Z) : string :=
  let q := chars query in
  let '(found, cursor) := collect_matches (Z.to_nat max_matches) (chars content) q 0 in
  let more := match match_from (chars content) q cursor with Some _ => true | None => false end in
  _json_result [("reference", VStr reference); ("mode", VStr "literal_search"); ("query", VStr query);
    ("total_chars", VInt (ulen content));
    ("matches", VList (map (match_value content (Z.of_nat (length q)) context_chars) found));
    ("matches_returned", VInt (Z.of_nat (length found))); ("more_matches", VBool more)].
Definition NOT_FOUND_MESSAGE : string :=
  "The reference expired or belongs to a different user. Repeat the source tool call if the data is still needed.".
(** [identity] is what [authenticated_user_id_from_context] gives. *)
Definition retrieve {W} (store_get : string -> string -> eff W (option string)) (config : retriever_config)
    (identity : result string) (i : retriever_input) : eff W string :=
  if negb (REFERENCE_PATTERN (r_reference i))
  then mret (_json_result [("error", VStr "invalid_tool_output_reference")]) else
  match identity with
  | Raise _ => mret (_json_result [("error", VStr "tool_output_retrieval_denied")])
  | Ok user_id =>
      content ← store_get user_id (r_reference i);
      mret (match content with
            | None => _json_result [("error", VStr "tool_output_not_found"); ("reference", VStr (r_reference i));
                                    ("message", VStr NOT_FOUND_MESSAGE)]
            | Some content =>
                match r_query i with
                | Some (String c q) =>
                    _search_content content (r_reference i) (String c q) (max_matches config) (context_chars config)
                | _ =>
                    let wanted := match r_max_chars i with Some 0 | None => max_chunk_chars config | Some n => n end in
                    _page_content content (r_reference i) (r_offset i) (Z.min wanted (max_chunk_chars config))
                end
            end)
  end.
End Search.
