(* ===== verification/CompactionLaws.v ===== *)
(** * Laws of tool-output compaction

    What a preview shows is chosen within its budget and taken verbatim; the
    exact original of every preview can be read back by its user. *)
From Stdlib Require Import Sorting.Sorted.
From S2P Require Import Prelude PyStr PyFloat PyVal Json JsonRoundtrip Redis Sha Dedupe World PromptLaws.
From S2P Require Import WorkerOps Identity Tokens Markdown Compaction.
#[local] Open Scope Z_scope.

(** ** Sets of indices *)
Lemma mem_in i l : mem i l = true <-> i ∈ l.
Proof.
  unfold mem. rewrite existsb_exists, list_elem_of_In. split; [intros (x & Hx & E); apply Z.eqb_eq in E; by subst|].
  intros H. exists i. split; [done|apply Z.eqb_refl].
Qed.
Lemma add_in i j l : j ∈ add i l <-> j = i \/ j ∈ l.
Proof.
  unfold add. destruct (mem i l) eqn:E; [apply mem_in in E; naive_solver|]. rewrite elem_of_app, list_elem_of_singleton. tauto.
Qed.
Lemma add_nodup i l : NoDup l -> NoDup (add i l).
Proof.
  unfold add. destruct (mem i l) eqn:E; [done|]. intros H. apply NoDup_app. split_and!; [done| |apply NoDup_singleton].
  intros x Hx Hy. apply list_elem_of_singleton in Hy as ->. apply mem_in in Hx. congruence.
Qed.
Lemma add_size i l : size l <= size (add i l) <= size l + 1.
Proof. unfold add, size. destruct (mem i l); [lia|]. rewrite length_app. cbn. lia. Qed.
(** A set of indices below [n]. *)
Definition index_set (n : Z) (l : list Z) : Prop := NoDup l /\ Forall (fun i => 0 <= i < n) l.
Lemma add_set n i l : 0 <= i < n -> index_set n l -> index_set n (add i l).
Proof.
  intros Hi [H1 H2]. split; [by apply add_nodup|]. apply Forall_forall. intros j [->|Hj]%add_in; [done|].
  by apply (proj1 (Forall_forall _ _) H2).
Qed.
Lemma fill_set n b c : forall s, Forall (fun i => 0 <= i < n) c -> index_set n s -> index_set n (fill b c s).
Proof.
  induction c as [|i c IH]; intros s Hc Hs; cbn; [done|]. apply Forall_cons in Hc as [Hi Hc].
  destruct (b <=? size s); [done|]. apply IH; [done|]. by apply add_set.
Qed.
Lemma fill_keeps b c : forall s j, j ∈ s -> j ∈ fill b c s.
Proof.
  induction c as [|i c IH]; intros s j Hj; cbn; [done|]. destruct (b <=? size s); [done|]. apply IH, add_in. by right.
Qed.
Lemma fill_size b c : forall s, size s <= size (fill b c s) <= Z.max b (size s).
Proof.
  induction c as [|i c IH]; intros s; cbn; [lia|]. destruct (Z.leb_spec b (size s)); [lia|].
  specialize (IH (add i s)). pose proof (add_size i s). lia.
Qed.
Lemma fill_reaches b c : forall s, b <= size (fill b c s) \/ (forall i, i ∈ c -> i ∈ fill b c s).
Proof.
  induction c as [|i c IH]; intros s; cbn; [right; by intros i ?%elem_of_nil|]. destruct (Z.leb_spec b (size s)); [by left|].
  destruct (IH (add i s)) as [|H2]; [by left|]. right. intros j [->|Hj]%elem_of_cons; [|by apply H2].
  apply fill_keeps, add_in. by left.
Qed.
Lemma add_all_set n c : forall s, Forall (fun i => 0 <= i < n) c -> index_set n s -> index_set n (add_all c s).
Proof.
  unfold add_all. induction c as [|i c IH]; intros s Hc Hs; cbn; [done|]. apply Forall_cons in Hc as [Hi Hc]. apply IH; [done|].
  by apply add_set.
Qed.
Lemma add_all_in c : forall s j, j ∈ add_all c s <-> j ∈ c \/ j ∈ s.
Proof.
  unfold add_all. induction c as [|i c IH]; intros s j; cbn; [rewrite elem_of_nil; tauto|]. rewrite IH, add_in, elem_of_cons. tauto.
Qed.
Lemma add_all_size c : forall s, size s <= size (add_all c s) <= size s + size c.
Proof.
  unfold add_all. induction c as [|i c IH]; intros s; cbn; [unfold size; cbn; lia|]. specialize (IH (add i s)). pose proof (add_size i s).
  unfold size in *. cbn [length]. lia.
Qed.
Lemma range_in a b i : i ∈ range a b <-> a <= i < b.
Proof.
  unfold range. rewrite list_elem_of_In, in_map_iff. split.
  - intros (k & <- & Hk). apply in_seq in Hk. lia.
  - intros H. exists (Z.to_nat (i - a)). split; [lia|]. apply in_seq. lia.
Qed.
Lemma range_size a b : a <= b -> size (range a b) = b - a.
Proof. intros H. unfold size, range. rewrite length_map, length_seq. lia. Qed.
Lemma range_nodup a b : NoDup (range a b).
Proof. unfold range. apply NoDup_fmap; [intros x y; lia|]. apply NoDup_ListNoDup, seq_NoDup. Qed.
Lemma range_bound n a b : 0 <= a -> b <= n -> Forall (fun i => 0 <= i < n) (range a b).
Proof. intros Ha Hb. apply Forall_forall. intros i Hi%range_in. lia. Qed.
(** A set below [n] that has every index has [n] of them. *)
Lemma full_size n l : 0 <= n -> index_set n l -> (forall i, i ∈ range 0 n -> i ∈ l) -> size l = n.
Proof.
  intros Hn [H1 H2] H. apply Z.le_antisymm.
  - assert (L : (length l <= length (range 0 n))%nat).
    { apply NoDup_incl_length; [by apply NoDup_ListNoDup|]. intros i Hi. apply list_elem_of_In, range_in.
      by apply (proj1 (Forall_forall _ _) H2), list_elem_of_In. }
    pose proof (range_size 0 n Hn). unfold size in *. lia.
  - assert (L : (length (range 0 n) <= length l)%nat).
    { apply NoDup_incl_length; [apply NoDup_ListNoDup, range_nodup|]. intros i Hi. apply list_elem_of_In, H. by apply list_elem_of_In. }
    pose proof (range_size 0 n Hn). unfold size in *. lia.
Qed.
Lemma set_bound n l : 0 <= n -> index_set n l -> size l <= n.
Proof.
  intros Hn [H1 H2]. pose proof (range_size 0 n Hn) as R. unfold size in *.
  assert (L : (length l <= length (range 0 n))%nat); [|lia].
  apply NoDup_incl_length; [by apply NoDup_ListNoDup|]. intros i Hi. apply list_elem_of_In, range_in.
  by apply (proj1 (Forall_forall _ _) H2), list_elem_of_In.
Qed.

(** ** Rounding stays non-negative *)
Definition nonneg (f : float) : Prop := match f with S754_finite true _ _ | S754_infinity true | S754_zero true => False | _ => True end.
Lemma round_aux_sign s m e l : match SpecFloat.binary_round_aux prec emax s m e l with
  | S754_finite s' _ _ | S754_infinity s' | S754_zero s' => s' = s | S754_nan => True end.
Proof.
  unfold SpecFloat.binary_round_aux. destruct (SpecFloat.shr_fexp _ _ _ _ _) as [mrs' e'].
  destruct (SpecFloat.shr_fexp _ _ _ _ _) as [mrs'' e'']. destruct (SpecFloat.shr_m mrs''); [done| |done].
  by destruct (_ <=? _).
Qed.
Lemma f_of_Z_nonneg z : 0 <= z -> nonneg (f_of_Z z).
Proof.
  intros H. unfold f_of_Z, SpecFloat.binary_normalize. destruct z as [|p|p]; [done| |lia]. unfold SpecFloat.binary_round.
  destruct (SpecFloat.shl_align _ _ _) as [mz ez].
  pose proof (round_aux_sign false (Zpos mz) ez SpecFloat.loc_Exact) as S.
  destruct (SpecFloat.binary_round_aux _ _ _ _ _ _); cbn in *; by subst.
Qed.
Lemma f_mul_nonneg a b : nonneg a -> nonneg b -> nonneg (f_mul a b).
Proof.
  unfold f_mul, SpecFloat.SFmul. destruct a as [[]|[]| |[] ma ea], b as [[]|[]| |[] mb eb]; try done. intros _ _. cbn.
  pose proof (round_aux_sign false (Zpos (ma * mb)) (ea + eb) SpecFloat.loc_Exact) as S.
  destruct (SpecFloat.binary_round_aux _ _ _ _ _ _); cbn in *; by subst.
Qed.
Lemma f_div_nonneg a b : nonneg a -> nonneg b -> nonneg (f_div a b).
Proof.
  unfold f_div, SpecFloat.SFdiv. destruct a as [[]|[]| |[] ma ea], b as [[]|[]| |[] mb eb]; try done. intros _ _. cbn [xorb].
  destruct (SpecFloat.SFdiv_core_binary _ _ _ _ _ _) as [[mz ez] lz].
  pose proof (round_aux_sign false mz ez lz) as S. destruct (SpecFloat.binary_round_aux _ _ _ _ _ _); cbn in *; by subst.
Qed.
Lemma round_div_nonneg n d : 0 <= n -> 0 < d -> 0 <= round_div n d.
Proof.
  intros Hn Hd. unfold round_div. pose proof (Z.div_pos n d Hn Hd). destruct (_ ?= _); [|done|lia]. destruct (Z.even _); lia.
Qed.
Lemma round_nonneg f : nonneg f -> 0 <= round_half_even f.
Proof.
  unfold round_half_even, float_frac. destruct f as [[]|[]| |[] m e]; try done. intros _. destruct (Z.leb_spec 0 e).
  - apply round_div_nonneg; [|lia]. pose proof (Z.pow_nonneg 2 e). lia.
  - apply round_div_nonneg; [lia|]. apply Z.pow_pos_nonneg; lia.
Qed.

(** ** The rows of a preview *)
Section Rows.
Context (wide_word : string -> bool).
Lemma even_sample_set count remaining : 0 < count -> 0 <= remaining ->
  Forall (fun i => 0 <= i < count) (even_sample count remaining) /\ size (even_sample count remaining) <= remaining.
Proof.
  intros Hc Hr. unfold even_sample. split.
  - apply Forall_forall. intros i Hi. apply list_elem_of_fmap in Hi as (k & -> & Hk%range_in).
    assert (0 <= round_half_even (f_mul (f_of_Z k) (f_div (f_of_Z count) (f_of_Z (remaining + 1))))); [|lia].
    apply round_nonneg, f_mul_nonneg; [apply f_of_Z_nonneg; lia|]. apply f_div_nonneg; apply f_of_Z_nonneg; lia.
  - unfold size. rewrite length_map. pose proof (range_size 1 (remaining + 1) ltac:(lia)) as R. unfold size in R. lia.
Qed.
Lemma combine_fst_in {A} (l : list Z) (m : list A) x : x ∈ combine l m -> fst x ∈ l.
Proof. intros H. destruct x as [i y]. apply list_elem_of_In in H. apply list_elem_of_In. by eapply in_combine_l. Qed.
Lemma take_bound n k (l : list Z) : Forall (fun i => 0 <= i < n) l -> Forall (fun i => 0 <= i < n) (py_take k l).
Proof.
  intros H. apply Forall_forall. intros i Hi%elem_of_py_take. by apply (proj1 (Forall_forall _ _) H).
Qed.
Lemma skip_bound n k (l : list Z) : Forall (fun i => 0 <= i < n) l -> Forall (fun i => 0 <= i < n) (skipn k l).
Proof. apply Forall_drop. Qed.
Lemma indexed_bound {A} n (l : list A) x : x ∈ combine (range 0 n) l -> 0 <= fst x < n.
Proof. intros H%combine_fst_in. by apply range_in. Qed.
(** The sorted choice: everything between the boundaries and the last fill. *)
Lemma sort_strict l : NoDup l -> StronglySorted Z.lt (stable_sort Z.leb l).
Proof.
  intros Hn. pose proof (stable_sort_perm Z.leb l) as P.
  assert (N : NoDup (stable_sort Z.leb l)) by (by rewrite P).
  assert (L : StronglySorted (fun x y => Z.leb x y = true) (stable_sort Z.leb l)).
  { apply stable_sort_sorted; [intros x y; destruct (Z.leb_spec x y); [by left|right; apply Z.leb_le; lia]|].
    intros x y z. rewrite !Z.leb_le. lia. }
  revert N L. generalize (stable_sort Z.leb l). induction l0 as [|x m IH]; [constructor|].
  intros [Hx N]%NoDup_cons L. inversion L as [|? ? L1 L2]; subst. constructor; [by apply IH|].
  rewrite Forall_forall in *. intros y Hy. specialize (L2 y Hy). apply Z.leb_le in L2.
  assert (x <> y) by (intros ->; done). lia.
Qed.
Lemma sorted_take b l : 0 <= b -> NoDup l -> StronglySorted Z.lt (py_take b (stable_sort Z.leb l)).
Proof.
  intros Hb Hn. pose proof (sort_strict l Hn) as S.
  unfold py_take. destruct (Z.ltb_spec b 0); [lia|]. revert S. generalize (stable_sort Z.leb l) (Z.to_nat b).
  intros m. induction m as [|x m IH]; intros k S; destruct k; cbn; try constructor; inversion S as [|? ? S1 S2]; subst.
  - by apply IH.
  - by apply Forall_take.
Qed.
Lemma sorted_set n l : StronglySorted Z.lt l -> Forall (fun i => 0 <= i < n) l -> index_set n l.
Proof.
  intros S H. split; [|done]. clear H. induction S as [|x l S IH F]; constructor; [|done]. intros Hx.
  rewrite Forall_forall in F. specialize (F x Hx). lia.
Qed.
Lemma full_has n l i : 0 <= n -> index_set n l -> size l = n -> 0 <= i < n -> i ∈ l.
Proof.
  intros Hn Hl Hs Hi. destruct (mem i l) eqn:E; [by apply mem_in|exfalso].
  pose proof (set_bound n _ Hn (add_set n i l Hi Hl)) as Hle. unfold add in Hle. rewrite E in Hle. unfold size in *.
  rewrite length_app in Hle. cbn in Hle. lia.
Qed.
(** What every stage of the choice keeps. *)
Definition stage (count budget : Z) (init s : list Z) : Prop :=
  index_set count s /\ size s <= Z.max budget 5 /\ (forall i, i ∈ init -> i ∈ s).
Lemma stage_fill count b init c s : Forall (fun i => 0 <= i < count) c -> stage count b init s -> stage count b init (fill b c s).
Proof.
  intros Hc (H1 & H2 & H3). split_and!; [by apply fill_set| |].
  - pose proof (fill_size b c s). lia.
  - intros i Hi. by apply fill_keeps, H3.
Qed.
Lemma stage_take count b init s : 0 <= b -> b <= size s -> stage count b init s ->
  StronglySorted Z.lt (py_take b (stable_sort Z.leb s)) /\ Forall (fun i => 0 <= i < count) (py_take b (stable_sort Z.leb s)) /\
  size (py_take b (stable_sort Z.leb s)) = b /\ (5 <= b -> forall i, i ∈ init -> i ∈ py_take b (stable_sort Z.leb s)).
Proof.
  intros Hb Hs ([H1 H2] & H3 & H4). pose proof (stable_sort_perm Z.leb s) as P.
  assert (L : length (stable_sort Z.leb s) = length s) by by rewrite P.
  split_and!; [by apply sorted_take|apply take_bound; by rewrite P| |].
  - unfold py_take, size in *. destruct (Z.ltb_spec b 0); [lia|]. rewrite length_firstn. lia.
  - intros H5 i Hi. unfold py_take, size in *. destruct (Z.ltb_spec b 0); [lia|]. rewrite firstn_all2 by lia. rewrite P. by apply H4.
Qed.
Lemma boundaries_stage count budget : 0 <= count ->
  stage count budget (add_all (range (Z.max 0 (count - 2)) count) (range 0 (Z.min 3 count)))
    (add_all (range (Z.max 0 (count - 2)) count) (range 0 (Z.min 3 count))).
Proof.
  intros Hc. split_and!; [|pose proof (add_all_size (range (Z.max 0 (count - 2)) count) (range 0 (Z.min 3 count)));
    rewrite !range_size in * by lia; lia|done].
  apply add_all_set; [apply range_bound; lia|]. split; [apply range_nodup|apply range_bound; lia].
Qed.
(** the rows that a preview shows: as many as the budget allows, in order
    and without repetition, all of them rows of the result; with a budget of
    five or more the first three and the last two are among them. *)
Theorem rows_selected items max_items query :
  let count := Z.of_nat (length items) in
  let shown := _select_indices wide_word items max_items query in
  StronglySorted Z.lt shown /\ Forall (fun i => 0 <= i < count) shown /\
  size shown = Z.min (Z.max 1 max_items) count /\
  (5 <= max_items -> forall i, 0 <= i < Z.min 3 count \/ Z.max 0 (count - 2) <= i < count -> i ∈ shown).
Proof.
  cbv zeta. unfold _select_indices. set (count := Z.of_nat (length items)). set (budget := Z.min (Z.max 1 max_items) count).
  set (init := add_all _ _). set (indexed := combine _ _). set (signals := map fst (List.filter _ indexed)).
  set (quota := if _ =? 0 then _ else _). set (s1 := fill budget (py_take quota signals) init).
  set (s2 := match _query_terms query with [] => s1 | _ => _ end).
  set (s3 := if size s2 <? budget then _ else s2). set (s4 := if size s3 <? budget then _ else s3).
  set (s5 := if size s4 <? budget then _ else s4).
  assert (Hc : 0 <= count) by (unfold count; lia).
  assert (Hsig : Forall (fun i => 0 <= i < count) signals).
  { apply Forall_forall. intros i Hi. apply list_elem_of_fmap in Hi as (x & -> & Hx).
    apply list_elem_of_In, List.filter_In in Hx as [Hx _]. eapply indexed_bound. by apply list_elem_of_In. }
  assert (S0 : stage count budget init init) by (by apply boundaries_stage).
  assert (S1 : stage count budget init s1) by (apply stage_fill; [by apply take_bound|done]).
  assert (S2 : stage count budget init s2).
  { unfold s2. destruct (_query_terms query) as [|t ts]; [done|]. destruct (budget <=? size s1); [done|].
    apply stage_fill; [|done]. apply take_bound, Forall_forall. intros i Hi. apply list_elem_of_fmap in Hi as (x & -> & Hx).
    rewrite stable_sort_perm in Hx. apply list_elem_of_In, List.filter_In in Hx as [Hx _].
    apply in_map_iff in Hx as (y & <- & Hy). cbn. eapply indexed_bound. by apply list_elem_of_In. }
  assert (S3 : stage count budget init s3).
  { unfold s3. destruct (size s2 <? budget); [|done]. apply stage_fill; [by apply skip_bound|done]. }
  assert (S4 : stage count budget init s4).
  { unfold s4. destruct (Z.ltb_spec (size s3) budget) as [Hlt|]; [|done]. destruct S3 as (H1 & H2 & H3).
    assert (0 <= size s3) by (unfold size; lia).
    destruct (even_sample_set count (budget - size s3)) as [E1 E2]; [unfold budget in *; lia|lia|].
    split_and!; [by apply add_all_set| |].
    - pose proof (add_all_size (even_sample count (budget - size s3)) s3). lia.
    - intros i Hi. apply add_all_in. right. by apply H3. }
  assert (S5 : stage count budget init s5 /\ budget <= size s5).
  { unfold s5. destruct (Z.ltb_spec (size s4) budget) as [Hlt|]; [|done]. split; [apply stage_fill; [by apply range_bound|done]|].
    destruct (fill_reaches budget (range 0 count) s4) as [|Hall]; [done|].
    rewrite (full_size count); [unfold budget; lia|done|apply fill_set; [by apply range_bound|by destruct S4]|done]. }
  destruct S5 as [S5 Hfull]. assert (0 <= budget) by (unfold budget; lia).
  destruct (stage_take count budget init s5) as (T1 & T2 & T3 & T4); [done|done|done|]. split_and!; [done|done|done|].
  intros H5 i Hi. destruct (Z.le_gt_cases 5 budget) as [Hb|Hb].
  - apply T4; [done|]. unfold init. rewrite add_all_in, !range_in. lia.
  - assert (Hb2 : budget = count) by (unfold budget in *; lia).
    apply (full_has count); [done|by apply sorted_set|lia|lia].
Qed.
End Rows.

(** ** Excerpts of an article *)
Section Windows.
Context (article : string) (window : Z) (Hw : 0 < window) (Hn : 2 * window <= ulen article).
Abbreviation ws := (windows article window).
Lemma ceil_spec : (ulen article + window - 1) / window * window - window < ulen article <= (ulen article + window - 1) / window * window.
Proof.
  pose proof (Z.div_mod (ulen article + window - 1) window ltac:(lia)).
  pose proof (Z.mod_pos_bound (ulen article + window - 1) window Hw). lia.
Qed.
Lemma windows_count : Z.of_nat (length ws) = (ulen article + window - 1) / window /\ 2 <= Z.of_nat (length ws).
Proof.
  unfold windows. rewrite length_map, length_seq. pose proof ceil_spec.
  assert (2 <= (ulen article + window - 1) / window) by (apply Z.div_le_lower_bound; lia). lia.
Qed.
Lemma window_at_eq i : 0 <= i < Z.of_nat (length ws) -> window_at ws i = (i * window, Z.min (i * window + window) (ulen article)).
Proof.
  intros Hi. unfold window_at, windows. unfold windows in Hi. rewrite length_map, length_seq in Hi.
  rewrite nth_lookup, list_lookup_fmap, lookup_seq_lt by lia. cbn [fmap option_fmap option_map default Nat.add].
  by rewrite Z2Nat.id by lia.
Qed.
Lemma window_bounds i : 0 <= i < Z.of_nat (length ws) ->
  0 <= fst (window_at ws i) < snd (window_at ws i) /\ snd (window_at ws i) <= ulen article /\ width (window_at ws i) <= window.
Proof.
  intros Hi. rewrite window_at_eq by done. unfold width. cbn [fst snd]. destruct windows_count as [Hc _]. rewrite Hc in Hi.
  pose proof ceil_spec as Hs. assert (i * window < ulen article); [|nia].
  apply (Z.le_lt_trans _ (((ulen article + window - 1) / window - 1) * window)); nia.
Qed.
Lemma windows_apart i j : 0 <= i < j -> j < Z.of_nat (length ws) -> snd (window_at ws i) <= fst (window_at ws j).
Proof. intros Hi Hj. rewrite !window_at_eq by lia. cbn [fst snd]. nia. Qed.
Lemma last_window : snd (window_at ws (Z.of_nat (length ws) - 1)) = ulen article.
Proof.
  destruct windows_count as [Hc H2]. rewrite window_at_eq by lia. cbn [snd]. rewrite Hc. pose proof ceil_spec. nia.
Qed.
(** The width of a choice of windows. *)
Definition widths (l : list Z) : Z := fold_right (fun i s => width (window_at ws i) + s) 0 l.
Lemma widths_perm l l' : l ≡ₚ l' -> widths l = widths l'.
Proof. unfold widths. induction 1; cbn in *; lia. Qed.
Lemma choose_ok ranked : forall remaining selected, index_set (Z.of_nat (length ws)) selected ->
  Forall (fun i => 0 <= i < Z.of_nat (length ws)) ranked -> 0 <= remaining ->
  index_set (Z.of_nat (length ws)) (choose ws ranked remaining selected) /\
  widths (choose ws ranked remaining selected) <= widths selected + remaining /\
  (forall i, i ∈ selected -> i ∈ choose ws ranked remaining selected).
Proof.
  induction ranked as [|i ranked IH]; intros remaining selected Hs Hr Hp; cbn [choose]; [split_and!; [done|lia|done]|].
  apply Forall_cons in Hr as [Hi Hr]. destruct (Z.ltb_spec remaining (width (window_at ws i))) as [|Hfit]; [by apply IH|].
  destruct (IH (remaining - width (window_at ws i)) (add i selected)) as (H1 & H2 & H3); [by apply add_set|done|lia|].
  split_and!; [done| |intros j Hj; apply H3, add_in; by right].
  destruct (window_bounds i Hi) as (B1 & _ & _). unfold width in *.
  assert (widths (add i selected) <= widths selected + (snd (window_at ws i) - fst (window_at ws i))); [|unfold width in *; lia].
  unfold add. destruct (mem i selected); [lia|]. rewrite (widths_perm _ (i :: selected)) by (symmetry; apply Permutation_cons_append).
  unfold widths at 1. cbn [fold_right]. fold (widths selected). unfold width. lia.
Qed.
End Windows.
Lemma slice_width article w : 0 <= fst w <= snd w -> snd w <= ulen article -> ulen (slice_of article w) = width w.
Proof.
  intros H1 H2. unfold slice_of, uslice, width, norm_index, ulen in *. rewrite ulen_udrop_nat, ulen_utake_nat_eq.
  destruct (Z.ltb_spec (fst w) 0); [lia|]. destruct (Z.ltb_spec (snd w) 0); lia.
Qed.
(** the excerpts of an article: windows of its text, word for word and with
    their true offsets, in order and without overlap, the beginning and the end
    among them, together no longer than the budget. *)
Theorem excerpts_verbatim wide_word article query budget : 800 <= budget -> budget < ulen article ->
  let shown := _excerpts wide_word article query budget in
  Forall (fun w => 0 <= fst w < snd w /\ snd w <= ulen article /\ ulen (slice_of article w) = width w) shown /\
  StronglySorted (fun v w => snd v <= fst w) shown /\
  fold_right (fun w s => width w + s) 0 shown <= budget /\
  (exists w, w ∈ shown /\ fst w = 0) /\ (exists w, w ∈ shown /\ snd w = ulen article).
Proof.
  intros Hb Hlong. cbv zeta. unfold _excerpts. set (window := Z.min 800 (budget / 2)).
  assert (Hw : 0 < window) by (unfold window; assert (400 <= budget / 2) by (apply Z.div_le_lower_bound; lia); lia).
  assert (H2 : 2 * window <= budget) by (pose proof (Z.mul_div_le budget 2 ltac:(lia)); unfold window; lia).
  assert (Hn : 2 * window <= ulen article) by lia. set (ws := windows article window). set (n := Z.of_nat (length ws)).
  destruct (windows_count article window Hw Hn) as [Hc Hc2]. fold ws n in Hc, Hc2.
  assert (Hends : add (n - 1) [0] = [0; n - 1]).
  { unfold add, mem. cbn. destruct (Z.eqb_spec (n - 1) 0); [lia|done]. }
  rewrite Hends. cbn [fold_right]. set (ranked := map snd _).
  assert (W0 : width (window_at ws 0) <= window) by (apply window_bounds; [done|done|fold ws n; lia]).
  assert (W1 : width (window_at ws (n - 1)) <= window) by (apply window_bounds; [done|done|fold ws n; lia]).
  destruct (choose_ok article window Hw Hn ranked (budget - (width (window_at ws 0) + (width (window_at ws (n - 1)) + 0))) [0; n - 1])
    as (C1 & C2 & C3).
  - split; [|repeat constructor; fold ws n; lia]. constructor; [rewrite list_elem_of_singleton; lia|apply NoDup_singleton].
  - apply Forall_forall. intros i Hi. apply list_elem_of_fmap in Hi as (x & -> & Hx). rewrite stable_sort_perm in Hx.
    apply list_elem_of_fmap in Hx as (k & -> & Hk%range_in). cbn. fold ws n. lia.
  - lia.
  - fold ws n in C1, C2, C3. unfold widths in C2 at 2. cbn [fold_right] in C2.
    set (chosen := choose ws ranked _ _) in *. destruct C1 as [C1 C4]. pose proof (sort_strict chosen C1) as S.
    pose proof (stable_sort_perm Z.leb chosen) as P.
    assert (F : Forall (fun i => 0 <= i < n) (stable_sort Z.leb chosen)) by (by rewrite P).
    split_and!.
    + apply Forall_map. eapply Forall_impl; [exact F|]. intros i Hi.
      destruct (window_bounds article window Hw Hn i Hi) as (B1 & B2 & _). fold ws in B1, B2.
      split_and!; [lia|lia|lia|]. apply slice_width; lia.
    + clear P C1 C3 C4 C2. induction S as [|i l S IH FS]; cbn; constructor.
      * apply IH. by apply Forall_cons in F as [_ F].
      * apply Forall_map. apply Forall_cons in F as [Fi F]. rewrite Forall_forall in *. intros j Hj. specialize (FS j Hj). specialize (F j Hj).
        apply (windows_apart article window); first [lia|fold ws n; lia].
    + fold ws in C2. etransitivity; [|apply (Z.le_trans _ _ _ C2); lia]. apply Z.eq_le_incl. rewrite <- (widths_perm article window _ _ P).
      unfold widths. fold ws. clear. induction (stable_sort Z.leb chosen) as [|i l IH]; cbn; [done|]. by rewrite IH.
    + exists (window_at ws 0). split; [apply list_elem_of_fmap_2; rewrite P; apply C3; left|].
      unfold ws. rewrite window_at_eq by (done || (fold ws n; lia)). cbn. lia.
    + exists (window_at ws (n - 1)). split; [apply list_elem_of_fmap_2; rewrite P; apply C3; right; left|].
      exact (last_window article window Hw Hn).
Qed.

(** ** JSON and its wrappers *)
Lemma strict_keeps d : NoDup (dkeys d) -> on_object strict_hooks d = Some d.
Proof. intros H. cbn. unfold _reject_duplicate_keys. by rewrite decide_True. Qed.
Lemma strict_roundtrip v : json_ok compact_opts v = true -> _json_loads (_json_dumps v) = Ok v.
Proof. intros H. apply loads_with_dumps; [apply compact_sep_ok|apply strict_keeps|done]. Qed.

(** ** The store *)
Section Stored.
Context {R : Type} `{RS : RedisServer R} (h : host R) (monotonic : nat -> float).
Context (compress : string -> string) (decompress : string -> option string).
Abbreviation put := (put h monotonic compress).
Abbreviation get := (get h monotonic decompress).
Lemma redis_up c w : link h (trips w) = Up ->
  fst (redis h c w) = fst (run c (others h (trips w) (srv w))).
Proof. intros H. unfold redis, round_trip, call. rewrite H. by destruct (run c _). Qed.
Lemma redis_ok c w x w' : redis h c w = (Ok x, w') -> exists t, w_log w' = t :: w_log w /\ t_kind t = TCmd c /\
  fst (run c (others h (trips w) (srv w))) = Ok x /\
  t_after t = snd (spec json_render json_module c (t_before t)) /\ t_before t = keyspace (others h (trips w) (srv w)).
Proof.
  unfold redis, round_trip, call. destruct (link h (trips w)); [|done|done].
  destruct (run c (others h (trips w) (srv w))) as [x0 r1] eqn:E. intros [= -> <-]. eexists. split; [reflexivity|].
  split_and!; [done|done| |done]. cbn. rewrite <- run_keys. by rewrite E.
Qed.
Lemma put_stored ttl user content reference w w' : put ttl user content reference w = (Ok true, w') ->
  user <> "" /\ REFERENCE_PATTERN reference = true /\ utf8_ok content = true /\
  exists k t, _user_cache_key user reference = Ok k /\ w_log (sw_world w') = t :: w_log (sw_world w) /\
    t_kind t = TCmd (SETEX k ttl (_CACHE_VERSION +++ compress content)) /\
    t_after t !! k = Some (Entry (RStr (_CACHE_VERSION +++ compress content)) (Some ttl)).
Proof.
  unfold Compaction.put. destruct (String.eqb_spec user ""); [done|]. destruct (REFERENCE_PATTERN reference) eqn:Hp; [|done].
  cbn [orb negb]. intros H. apply bind_Ok in H as (off & w1 & H1 & H). injection H1 as _ <-. destruct off; [done|].
  destruct (utf8_ok content) eqn:Hu; [|done]. cbn [negb] in H. unfold catch in H.
  match type of H with match ?m ?v with _ => _ end = _ => destruct (m v) as [[b|e] w2] eqn:E end.
  - injection H as -> <-. apply bind_Ok in E as (k & w3 & E1 & E). injection E1 as E1 <-.
    apply bind_Ok in E as (x & w4 & E2 & E). injection E as <-. unfold on_redis in E2.
    destruct (redis h _ _) as [y wr] eqn:Er. injection E2 as -> <-. apply redis_ok in Er as (t & L & K & _ & A & _).
    split_and!; [done|done|done|]. exists k, t. split_and!; [done|exact L|done|]. rewrite A. cbn. by rewrite lookup_insert_eq.
  - destruct (exn_in e [Exception_]); [|done]. apply bind_Ok in H as (? & ? & _ & H). done.
Qed.
(** What is read back has the digest that the reference names, whatever the
    server holds. *)
Lemma get_integrity user reference w content w' : get user reference w = (Ok (Some content), w') ->
  utf8_ok content = true /\ tool_output_reference content = Ok reference.
Proof.
  unfold Compaction.get. destruct ((user =? "")%string || negb (REFERENCE_PATTERN reference)); [done|]. intros H.
  apply bind_Ok in H as (off & w1 & _ & H). destruct off; [done|]. unfold catch in H.
  match type of H with match ?m ?v with _ => _ end = _ => destruct (m v) as [[b|e] w2] eqn:E end.
  - injection H as -> _. apply bind_Ok in E as (k & w3 & _ & E). apply bind_Ok in E as (x & w4 & _ & E). injection E as E _.
    unfold decode_payload in E. destruct x; try done. destruct (strip_prefix _ _); [|done]. destruct (decompress _) as [c|]; [|done].
    destruct (utf8_ok c) eqn:Hu; [|done]. cbn [negb] in E. apply bind_ok in E as (actual & Ha & E).
    destruct (String.eqb_spec actual reference) as [<-|]; [|done]. by injection E as <-.
  - destruct (exn_in e [Exception_]); [|done]. by apply bind_Ok in H as (? & ? & _ & H).
Qed.
Context (zlib : forall s, decompress (compress s) = Some s).
Lemma get_stored user reference content k w : user <> "" -> REFERENCE_PATTERN reference = true -> utf8_ok content = true ->
  tool_output_reference content = Ok reference -> _user_cache_key user reference = Ok k ->
  f_ltb (monotonic (sw_reads w)) (sw_disabled_until w) = false -> link h (trips (sw_world w)) = Up ->
  kval k (keyspace (others h (trips (sw_world w)) (srv (sw_world w)))) = Some (RStr (_CACHE_VERSION +++ compress content)) ->
  fst (get user reference w) = Ok (Some content).
Proof.
  intros Hne Hp Hu Hr Hk Hoff Hup Hv. unfold Compaction.get. rewrite (proj2 (String.eqb_neq user "")), Hp by done. cbn [orb negb].
  unfold disabled, clock_read. unfold mbind, eff_bind. cbn [fst snd gets]. cbn [sw_disabled_until]. rewrite Hoff.
  unfold catch, lift. rewrite Hk. cbn [fst snd]. unfold on_redis. cbn [sw_world].
  pose proof (redis_up (GET k) (sw_world w) Hup) as Hg. rewrite run_reply in Hg. cbn [spec] in Hg.
  unfold kstr in Hg. rewrite Hv in Hg. destruct (redis h (GET k) (sw_world w)) as [y wr]. cbn in Hg. subst y. cbn [fst].
  unfold decode_payload. cbn [strip_prefix String.append _CACHE_VERSION]. rewrite !Ascii.eqb_refl, zlib, Hu. cbn [negb].
  rewrite Hr. cbn. by rewrite String.eqb_refl.
Qed.
End Stored.

(** ** The decision *)
Section Decision.
Context (wide_word : string -> bool) (settings : CompactionSettings).
(** What a preview is made of. *)
Inductive preview_shape (content : string) (p : parsed_json) (reference : string) : value -> Prop :=
| RowsShown k items query : _array_target (j_value p) = Some (k, items) -> max_items settings < Z.of_nat (length items) ->
    preview_shape content p reference (rows_envelope content reference (j_value p) k items (_select_indices wide_word items (max_items settings) query))
| ExcerptsShown d article query : j_value p = VDict d -> dget "content" d = VStr article ->
    Z.max 800 (article_excerpt_chars settings) < ulen article ->
    preview_shape content p reference (article_envelope content reference article (ddel "content" d)
      (_excerpts wide_word article query (Z.max 800 (article_excerpt_chars settings)))).
Lemma reference_ok content : utf8_ok content = true -> exists r, tool_output_reference content = Ok r.
Proof. intros H. unfold tool_output_reference, utf8_sha256. rewrite H. by eexists. Qed.
Definition shaped (content : string) (p : parsed_json) (x : string * string) : Prop :=
  exists envelope, fst x = render p envelope /\ preview_shape content p (snd x) envelope /\
    tool_output_reference content = Ok (snd x) /\ worthwhile settings content (fst x) = true.
Lemma rows_cases content p query : utf8_ok content = true ->
  exists o, _reversible_preview wide_word settings content p query = Ok o /\ (forall x, o = Some x -> shaped content p x).
Proof.
  intros Hu. unfold _reversible_preview. destruct (_array_target (j_value p)) as [[k items]|] eqn:E; [|by exists None].
  destruct (Z.leb_spec (Z.of_nat (length items)) (max_items settings)); [by exists None|].
  destruct (reference_ok content Hu) as (r & Hr). rewrite Hr. cbn [mbind result_bind]. eexists. split; [reflexivity|].
  intros x Hx. destruct (worthwhile _ _ _) eqn:W; [|done]. injection Hx as <-. eexists. split_and!; [done|by eapply RowsShown|done|done].
Qed.
Lemma article_cases content parsed tool query : utf8_ok content = true ->
  exists o, _article_preview wide_word settings content parsed tool query = Ok o /\
    (forall x, o = Some x -> exists p, parsed = Some p /\ shaped content p x).
Proof.
  intros Hu. unfold _article_preview. destruct parsed as [p|]; [|by exists None]. case_goal; [|by exists None].
  destruct (j_value p) as [| | | | | |d] eqn:Ed; try by exists None.
  destruct (dget "success" d) as [|[]| | | | |]; try by exists None.
  destruct (dget "content" d) as [| | | |article| |] eqn:Ec; try by exists None.
  destruct (dget "source" d); try by exists None.
  destruct (Z.leb_spec (ulen article) (Z.max 800 (article_excerpt_chars settings))); [by exists None|].
  destruct (reference_ok content Hu) as (r & Hr). rewrite Hr. cbn [mbind result_bind]. eexists. split; [reflexivity|].
  intros x Hx. destruct (worthwhile _ _ _) eqn:W; [|done]. injection Hx as <-. exists p. split; [done|]. eexists.
  split_and!; [done|by eapply ExcerptsShown|done|done].
Qed.
Lemma preview_cases content tool query parsed : utf8_ok content = true ->
  exists o, preview_of wide_word settings content tool query parsed = Ok o /\
    (forall x, o = Some x -> exists p, parsed = Some p /\ shaped content p x).
Proof.
  intros Hu. unfold preview_of. destruct (article_cases content parsed tool query Hu) as (o & Ho & Hs). rewrite Ho. cbn [mbind result_bind].
  destruct o as [x|]; [by exists (Some x)|]. destruct parsed as [p|]; [|by exists None].
  destruct (rows_cases content p query Hu) as (o & Ho2 & Hs2). exists o. split; [done|]. intros x Hx. exists p. split; [done|by apply Hs2].
Qed.
Lemma lossless_cases content parsed : lossless content parsed = unchanged content \/
  exists p, parsed = Some p /\ lossless content parsed =
    Optimized (render p (j_value p)) "lossless_json" (ulen content) (ulen (render p (j_value p))) None /\
    256 <= ulen content - ulen (render p (j_value p)).
Proof.
  unfold lossless. destruct parsed as [p|]; [|by left].
  destruct (Z.leb_spec 256 (ulen content - ulen (render p (j_value p)))); [right; by exists p|by left].
Qed.
Context {R : Type} `{RS : RedisServer R} (h : host R) (monotonic : nat -> float).
Context (compress : string -> string) (decompress : string -> option string).
Context (zlib : forall s, decompress (compress s) = Some s).
(** The optimisation never fails, and its three results. *)
Lemma optimize_cases content tool query user w r w' : utf8_ok content = true ->
  optimize_tool_content h monotonic compress wide_word settings content tool query user w = (r, w') ->
  r = Ok (lossless content (_parse_structured_json content)) \/ r = Ok (unchanged content) \/
  exists p optimized reference, _parse_structured_json content = Some p /\ shaped content p (optimized, reference) /\
    put h monotonic compress (cache_ttl settings) user content reference w = (Ok true, w') /\
    r = Ok (Optimized optimized "reversible_preview" (ulen content) (ulen optimized) (Some reference)).
Proof.
  intros Hu. unfold optimize_tool_content. case_goal; [intros [= <- _]; auto|].
  destruct (_ <? min_chars settings); [intros [= <- _]; auto|]. destruct (search _ _ _); [intros [= <- _]; auto|].
  destruct (preview_cases content tool query (_parse_structured_json content) Hu) as (o & Ho & Hs). rewrite Ho. intros H.
  apply bind_inv in H as [(o' & w1 & H1 & H)|(e & H1 & _)]; [|done]. injection H1 as <- <-.
  destruct o as [[optimized reference]|]; [|injection H as <- _; auto].
  apply bind_inv in H as [(b & w2 & H2 & H)|(e & H2 & _)].
  - injection H as <- <-. destruct b; [|auto]. destruct (Hs _ eq_refl) as (p & Hp & Hx). right; right.
    exists p, optimized, reference. by split_and!.
  - exfalso. unfold put in H2. destruct ((user =? "")%string || _); [done|].
    apply bind_inv in H2 as [(off & w3 & H3 & H2)|(e' & H3 & _)]; [|done]. injection H3 as _ <-. destruct off; [done|]. rewrite Hu in H2.
    cbn [negb] in H2. unfold catch in H2.
    match type of H2 with match ?m ?v with _ => _ end = _ => destruct (m v) as [[b|e2] w4] eqn:E end; [done|].
    unfold exn_in, existsb in H2. rewrite (proj2 (orb_true_iff _ _)) in H2 by (left; unfold exn_isa; by rewrite orb_true_r).
    apply bind_inv in H2 as [(? & w5 & H5 & H2)|(e3 & H5 & _)]; [done|].
    apply bind_inv in H5 as [(? & w6 & H6 & H5)|(e4 & H6 & _)]; done.
Qed.
(** C15: a preview never loses anything.  The optimisation of a tool result
    never fails, and it gives the result itself, or its JSON value printed
    without padding, or a preview that is worth its while: rows or excerpts of
    that value with a reference.  Then the original was stored for that user
    under the digest that the reference names, and the retrieval of that user
    gives it back as long as the entry is there; whatever anyone is given for
    the reference, at any time, has that digest. *)
Theorem preview_recoverable content tool query user w r w' : utf8_ok content = true ->
  optimize_tool_content h monotonic compress wide_word settings content tool query user w = (r, w') ->
  exists o, r = Ok o /\ o_original_chars o = ulen content /\ o_optimized_chars o = ulen (o_content o) /\
    ((o_content o = content /\ o_reference o = None) \/
     (exists p, _parse_structured_json content = Some p /\ o_content o = render p (j_value p) /\ o_reference o = None /\
        256 <= ulen content - ulen (o_content o)) \/
     (exists p envelope reference k t, _parse_structured_json content = Some p /\ o_content o = render p envelope /\
        preview_shape content p reference envelope /\ worthwhile settings content (o_content o) = true /\
        o_reference o = Some reference /\ tool_output_reference content = Ok reference /\
        _user_cache_key user reference = Ok k /\ w_log (sw_world w') = t :: w_log (sw_world w) /\
        kval k (t_after t) = Some (RStr (_CACHE_VERSION +++ compress content)) /\
        (forall v, f_ltb (monotonic (sw_reads v)) (sw_disabled_until v) = false -> link h (trips (sw_world v)) = Up ->
           kval k (keyspace (others h (trips (sw_world v)) (srv (sw_world v)))) = Some (RStr (_CACHE_VERSION +++ compress content)) ->
           fst (get h monotonic decompress user reference v) = Ok (Some content)) /\
        (forall u v c v', get h monotonic decompress u reference v = (Ok (Some c), v') -> tool_output_reference c = Ok reference))).
Proof.
  intros Hu H. apply optimize_cases in H as [->|[->|(p & optimized & reference & Hp & Hs & Hput & ->)]]; [| | |done].
  - destruct (lossless_cases content (_parse_structured_json content)) as [-> | (p & Hp & -> & Hsave)];
      eexists; (split; [reflexivity|]); split_and!; try done; [by left|]. right; left. by exists p.
  - eexists. split; [reflexivity|]. split_and!; try done. by left.
  - eexists. split; [reflexivity|]. split_and!; try done. right; right. destruct Hs as (envelope & He & Hshape & Hr & Hw). cbn in *.
    apply put_stored in Hput as (Hne & Hpat & _ & k & t & Hk & Hl & _ & Ha).
    exists p, envelope, reference, k, t. split_and!; try done.
    + unfold kval. by rewrite Ha.
    + intros v Hoff Hup Hv. by eapply get_stored.
    + intros u v c v' Hg. by apply get_integrity in Hg as [_ Hg].
Qed.
End Decision.

(** ** Paging through the original *)
(** Reading on at [next_offset] until a page says it is complete. *)
Fixpoint read_pages (fuel : nat) (content : string) (max_chars offset : Z) : list page :=
  match fuel with
  | O => []
  | S fuel => let p := page_of content offset max_chars in
              p :: (if page_complete p then [] else read_pages fuel content max_chars (p_end p))
  end.
Lemma slice_join s : forall a b, (a <= b)%nat -> udrop_nat a (utake_nat b s) +++ udrop_nat b s = udrop_nat a s.
Proof.
  induction s as [|c s IH]; intros a b H; cbn [utake_nat udrop_nat]; [done|]. destruct (is_cont c) eqn:E.
  - cbn [udrop_nat]. rewrite E. by apply IH.
  - destruct b as [|b].
    + assert (a = O) as -> by lia. cbn [udrop_nat]. done.
    + cbn [udrop_nat]. rewrite E. destruct a as [|a].
      * cbn [String.append]. f_equal. apply utake_udrop_nat.
      * apply IH. lia.
Qed.
Lemma udrop_nat_end s n : (ulen_nat s <= n)%nat -> udrop_nat n s = "".
Proof.
  revert n. induction s as [|c s IH]; intros n H; cbn in *; [done|]. destruct (is_cont c); [by apply IH|].
  destruct n; [lia|]. apply IH. lia.
Qed.
Lemma udrop_nat_zero s : is_cont (match s with String c _ => c | _ => "a"%char end) = false -> udrop_nat 0 s = s.
Proof. destruct s as [|c s]; cbn; [done|]. by intros ->. Qed.
Lemma page_spec content offset max_chars : 0 <= offset <= ulen content -> 0 < max_chars ->
  let p := page_of content offset max_chars in
  p_offset p = offset /\ p_end p = Z.min (ulen content) (offset + max_chars) /\
  p_content p +++ udrop_nat (Z.to_nat (p_end p)) content = udrop_nat (Z.to_nat offset) content /\ ulen (p_content p) <= max_chars.
Proof.
  intros Ho Hm. unfold page_of. cbn. rewrite (Z.min_l offset) by lia. split_and!; [done|done| |].
  - unfold uslice, norm_index. destruct (Z.ltb_spec offset 0); [lia|]. destruct (Z.ltb_spec (Z.min (ulen content) (offset + max_chars)) 0); [lia|].
    apply slice_join. lia.
  - pose proof (slice_width content (offset, Z.min (ulen content) (offset + max_chars))) as L. unfold slice_of, width in L. cbn in L. lia.
Qed.
(** the original can be read page by page.  Starting at 0 and going on at
    [next_offset], the pages end after as many steps as the length asks for,
    each within the size asked for, and joined they are the text exactly. *)
Theorem pages_cover content max_chars fuel : utf8_ok content = true -> 0 < max_chars ->
  ulen content / max_chars < Z.of_nat fuel ->
  let pages := read_pages fuel content max_chars 0 in
  String.concat "" (map p_content pages) = content /\ Forall (fun p => ulen (p_content p) <= max_chars) pages /\
  (exists p, last pages = Some p /\ page_complete p = true).
Proof.
  intros Hu Hm Hf. cbv zeta.
  assert (G : forall offset, 0 <= offset <= ulen content -> (ulen content - offset) / max_chars < Z.of_nat fuel ->
    String.concat "" (map p_content (read_pages fuel content max_chars offset)) = udrop_nat (Z.to_nat offset) content /\
    Forall (fun p => ulen (p_content p) <= max_chars) (read_pages fuel content max_chars offset) /\
    (exists p, last (read_pages fuel content max_chars offset) = Some p /\ page_complete p = true)).
  { clear Hf. induction fuel as [|fuel IH]; intros offset Ho Hf.
    { pose proof (Z.div_pos (ulen content - offset) max_chars). lia. }
    destruct (page_spec content offset max_chars Ho Hm) as (H1 & H2 & H3 & H4). cbn [read_pages].
    set (p := page_of content offset max_chars) in *.
    assert (Ht : p_total p = ulen content) by done. destruct (page_complete p) eqn:C.
    - unfold page_complete in C. apply Z.leb_le in C. rewrite Ht in C.
      rewrite (udrop_nat_end content (Z.to_nat (p_end p))), append_nil_r in H3 by (unfold ulen in *; lia).
      cbn [map]. split_and!; [exact H3|by repeat constructor|]. exists p. split; [done|]. unfold page_complete. apply Z.leb_le. lia.
    - unfold page_complete in C. apply Z.leb_gt in C. assert (He : p_end p = offset + max_chars) by lia.
      destruct (IH (p_end p)) as (I1 & I2 & q & I3 & I4); [lia| |].
      { rewrite He. replace (ulen content - (offset + max_chars)) with (ulen content - offset + (-1) * max_chars) by lia.
        rewrite Z.div_add by lia. lia. }
      split_and!; [|by constructor|exists q; split; [|done]].
      + rewrite <- H3, <- I1. cbn [map]. destruct (map p_content (read_pages fuel content max_chars (p_end p))); [by rewrite append_nil_r|done].
      + cbn [last]. by destruct (read_pages fuel content max_chars (p_end p)). }
  destruct (G 0) as (G1 & G2 & G3); [unfold ulen; lia|by rewrite Z.sub_0_r|]. split_and!; [|done|done].
  rewrite G1. apply udrop_nat_zero. destruct content as [|c s]; [done|]. cbn in Hu. unfold is_cont. cbn in *.
  destruct (Z.ltb_spec (byte_of c) 128).
  - apply andb_false_iff. left. apply Z.leb_gt. lia.
  - destruct (Z.ltb_spec (byte_of c) 192); [exfalso|by rewrite andb_false_r].
    destruct s as [|b s]; [done|]. destruct (Z.ltb_spec (byte_of c) 224); [|lia]. bool_prop. lia.
Qed.

(** ** Searching the original *)
Section Found.
Context (same_char : string -> string -> bool) (content q : list string).
Definition match_at (i : Z) : Prop := matches_here same_char q (skipn (Z.to_nat i) content) = true.
Lemma find_spec cs : forall i, match find_match same_char q cs i with
  | Some j => i <= j /\ matches_here same_char q (skipn (Z.to_nat (j - i)) cs) = true /\
              forall k, i <= k < j -> matches_here same_char q (skipn (Z.to_nat (k - i)) cs) = false
  | None => forall k, i <= k -> q <> [] -> matches_here same_char q (skipn (Z.to_nat (k - i)) cs) = false end.
Proof.
  induction cs as [|c cs IH]; intros i; cbn [find_match].
  - destruct (matches_here same_char q []) eqn:E.
    + rewrite Z.sub_diag. split_and!; [lia|done|lia].
    + intros k Hk Hq. rewrite skipn_nil. done.
  - destruct (matches_here same_char q (c :: cs)) eqn:E; [rewrite Z.sub_diag; split_and!; [lia|done|lia]|].
    assert (S : forall k, i < k -> skipn (Z.to_nat (k - i)) (c :: cs) = skipn (Z.to_nat (k - (i + 1))) cs).
    { intros k Hk. replace (Z.to_nat (k - i)) with (Datatypes.S (Z.to_nat (k - (i + 1)))) by lia. done. }
    specialize (IH (i + 1)). destruct (find_match same_char q cs (i + 1)) as [j|].
    + destruct IH as (H1 & H2 & H3). split_and!; [lia|rewrite S by lia; done|]. intros k Hk.
      destruct (Z.eq_dec k i) as [->|]; [by rewrite Z.sub_diag|]. rewrite S by lia. apply H3. lia.
    + intros k Hk Hq. destruct (Z.eq_dec k i) as [->|]; [by rewrite Z.sub_diag|]. rewrite S by lia. apply IH; [lia|done].
Qed.
Lemma match_from_spec c : 0 <= c -> q <> [] -> match match_from same_char content q c with
  | Some j => c <= j /\ match_at j /\ forall k, c <= k < j -> ~ match_at k
  | None => forall k, c <= k -> ~ match_at k end.
Proof.
  intros Hc Hq. unfold match_from, match_at. pose proof (find_spec (skipn (Z.to_nat c) content) c) as H.
  assert (S : forall k, c <= k -> skipn (Z.to_nat (k - c)) (skipn (Z.to_nat c) content) = skipn (Z.to_nat k) content).
  { intros k Hk. rewrite skipn_skipn. f_equal. lia. }
  destruct (find_match same_char q _ c) as [j|].
  - destruct H as (H1 & H2 & H3). rewrite S in H2 by done. split_and!; [done|done|]. intros k Hk. rewrite <- S by lia. rewrite H3 by done. done.
  - intros k Hk. rewrite <- S by done. by rewrite H.
Qed.
(** From [c] on: matches that do not overlap, with none left out between them. *)
Inductive greedy : Z -> list Z -> Z -> Prop :=
| GDone c : greedy c [] c
| GFound c i l c' : c <= i -> match_at i -> (forall k, c <= k < i -> ~ match_at k) ->
    greedy (i + Z.of_nat (length q)) l c' -> greedy c (i :: l) c'.
(** a search of the original reports the matches that a reader from left to
    right would count, at most as many as asked for, and says truly whether
    there are more. *)
Theorem search_is_greedy max_matches : q <> [] -> 0 <= max_matches ->
  let '(found, cursor) := collect_matches same_char (Z.to_nat max_matches) content q 0 in
  greedy 0 found cursor /\ size found <= max_matches /\
  (size found < max_matches -> forall k, cursor <= k -> ~ match_at k) /\
  (match_from same_char content q cursor = None <-> forall k, cursor <= k -> ~ match_at k).
Proof.
  intros Hq Hm.
  assert (G : forall n c, 0 <= c -> let '(found, cursor) := collect_matches same_char n content q c in
    greedy c found cursor /\ size found <= Z.of_nat n /\ 0 <= cursor /\
    (size found < Z.of_nat n -> forall k, cursor <= k -> ~ match_at k)).
  { induction n as [|n IH]; intros c Hc; cbn [collect_matches]; [split_and!; [constructor|done|done|unfold size; cbn; lia]|].
    pose proof (match_from_spec c Hc Hq) as H. destruct (match_from same_char content q c) as [i|].
    - destruct H as (H1 & H2 & H3). specialize (IH (i + Z.of_nat (length q)) ltac:(lia)).
      destruct (collect_matches same_char n content q (i + Z.of_nat (length q))) as [l c'].
      destruct IH as (I1 & I2 & I3 & I4). unfold size in *. cbn [length]. split_and!; [by constructor|lia|done|].
      intros Hlt. apply I4. lia.
    - split_and!; [constructor|unfold size; cbn; lia|done|done]. }
  specialize (G (Z.to_nat max_matches) 0 ltac:(lia)). destruct (collect_matches _ _ _ _ _) as [found cursor].
  destruct G as (G1 & G2 & G3 & G4). rewrite Z2Nat.id in * by done. split_and!; [done|done|done|].
  pose proof (match_from_spec cursor G3 Hq) as H. destruct (match_from same_char content q cursor) as [i|]; [|done].
  split; [done|]. intros Hn. destruct H as (H1 & H2 & _). by destruct (Hn i H1).
Qed.
End Found.
