(* ===== verification/AgentBudget.v ===== *)
(** * The limits of one agent turn

    [nat_helpers/agent_loop_guard.py]: what counts as a failed tool call;
    [nat_helpers/history_budget.py]: how much of the conversation is sent;
    [nat_helpers/image_input_budget.py]: how many bytes of images are decoded;
    [nat_helpers/model_routing.py]: which model answers. *)
From S2P Require Import Prelude PyStr PyFloat PyVal Json JsonRoundtrip PyUrl Dedupe StoreOps Identity Tokens.
#[local] Open Scope Z_scope.

(** ** Tool outcomes *)
(** [str.splitlines]: the separators of one byte, then of two and three. *)
Definition line_sep (c : ascii) : bool := in_range 10 13 c || in_range 28 30 c.
Fixpoint splitlines_go (acc s : string) : list string :=
  match s with
  | EmptyString => if (acc =? "")%string then [] else [acc]
  | String a s1 =>
      if line_sep a then
        acc :: match s1 with
               | String b s2 => if char_is (chr 13) a && char_is (chr 10) b then splitlines_go "" s2 else splitlines_go "" s1
               | EmptyString => []
               end
      else match s1 with
           | String b s2 =>
               if (byte_of a =? 194) && (byte_of b =? 133) then acc :: splitlines_go "" s2
               else match s2 with
                    | String c s3 =>
                        if (byte_of a =? 226) && (byte_of b =? 128) && in_range 168 169 c then acc :: splitlines_go "" s3
                        else splitlines_go (acc +++ String a "") s1
                    | EmptyString => splitlines_go (acc +++ String a "") s1
                    end
           | EmptyString => [acc +++ String a ""]
           end
  end.
Definition splitlines : string -> list string := splitlines_go "".
(** [b.get("type") in {...}] raises on a type that cannot be hashed. *)
Definition text_block (b : value) : result (option string) :=
  match b with
  | VDict d =>
      match dget "type" d with
      | VList _ | VDict _ => raise TypeError "unhashable type"
      | VStr t => Ok (if is_in t ["text"; "output_text"] then match dget "text" d with VStr s => Some s | _ => None end else None)
      | _ => Ok None
      end
  | _ => Ok None
  end.
Definition _text (v : value) : result string :=
  match v with
  | VStr s => Ok s
  | VList l => blocks ← mapM_r text_block l; Ok (String.concat "" (omap id blocks))
  | _ => Ok ""
  end.
Record Outcome := MkOutcome { comparable : value; failed : bool }.
Definition SANDBOX_HEADER : string := "## Sandbox Execution Result" +++ String (chr 10) "".
Definition field_of (line : string) : option (string * value) :=
  match cut line ": " with Some (k, v) => Some (k, VStr v) | None => None end.
Definition fields_of (text : string) : dict := dict_of (omap field_of (splitlines text)).
Definition field (k : string) (d : dict) : result string := v ← dgetitem k d; match v with VStr s => Ok s | _ => raise TypeError "" end.
Definition json_field (k : string) (d : dict) : result value := s ← field k d; loads s.
(** [json.loads] of a decoded value: only text is accepted. *)
Definition loads_value (v : value) : result value :=
  match v with VStr s => loads s | _ => raise TypeError "the JSON object must be str, bytes or bytearray" end.
Definition collected_line (line : string) : bool :=
  startswith line "content (UTF-8 JSON string):" || startswith line "content (base64 JSON string):".
(** Exit code, time-out, standard output and error, and the collected files. *)
Definition sandbox_report (text : string) : result (Z * bool * value * value * list string) :=
  let fields := fields_of text in
  stdout ← json_field "stdout (JSON string)" fields;
  stderr ← json_field "stderr (JSON string)" fields;
  code ← (s ← field "Exit code" fields; match parse_int s with Some n => Ok n | None => raise ValueError "invalid literal for int()" end);
  let timed_out := match dlookup "Timed out" fields with Some (VStr s) => (s =? "True")%string | _ => false end in
  Ok (code, timed_out, stdout, stderr, List.filter collected_line (splitlines text)).
(** The first part of [tool_outcome]: what to compare, whether it failed, and
    the payload to look into. *)
Definition first_look (text : string) (status_error : bool) : Outcome * option value :=
  if startswith text SANDBOX_HEADER then
    match sandbox_report text with
    | Raise _ => (MkOutcome (VStr text) status_error, None)
    | Ok (code, timed_out, stdout, stderr, collected) =>
        (MkOutcome (VList [VInt code; VBool timed_out; stdout; stderr; VList (map VStr collected)])
                   (status_error || negb (code =? 0) || timed_out),
         match loads_value stdout with Ok v => Some v | Raise _ => None end)
    end
  else (MkOutcome (VStr text) status_error, match loads text with Ok v => Some v | Raise _ => None end).
Definition payload_failed (d : dict) : bool :=
  is_false (dget "passed" d) || is_false (dget "success" d) || is_true (dget "isError" d) ||
  py_eq (dget "status" d) (VStr "error") || py_eq (dget "status" d) (VStr "failed") || truthy (dget "error" d).
Definition tool_outcome (content : value) (status : option string) : result Outcome :=
  text ← _text content;
  let '(o, payload) := first_look text (match status with Some s => (s =? "error")%string | None => false end) in
  Ok match payload with
     | Some (VDict d) => MkOutcome (comparable o) (failed o || payload_failed d)
     | _ => if startswith text "Error:" then MkOutcome (comparable o) true else o
     end.

(** ** Conversation history *)
Definition _MESSAGE_OVERHEAD_TOKENS : Z := 8.
Definition _BYTES_PER_ESTIMATED_TOKEN : Z := 3.
Definition _START_ROLES : list string := ["human"; "system"; "user"].
Definition message_tokens (d : dict) : result Z :=
  let serialized := dumps_with compact_opts (VDict d) in
  if utf8_ok serialized
  then Ok (_MESSAGE_OVERHEAD_TOKENS + (blen serialized + _BYTES_PER_ESTIMATED_TOKEN - 1) / _BYTES_PER_ESTIMATED_TOKEN)
  else raise ValueError "'utf-8' codec can't encode characters".
Fixpoint _estimate_history_tokens (messages : list dict) : result Z :=
  match messages with
  | [] => Ok 0
  | m :: messages => t ← message_tokens m; n ← _estimate_history_tokens messages; Ok (t + n)
  end.
Definition _message_role (m : dict) : string :=
  casefold (py_str (vor (vor (dget "role" m) (dget "type" m)) (VStr ""))).
(** [l[-n:]]. *)
Definition py_last {A} (n : Z) (l : list A) : list A :=
  if 0 <? n then skipn (length l - Z.to_nat n) l else skipn (Z.to_nat (- n)) l.
(** The loop over the older messages, newest first. *)
Fixpoint take_older (max_tokens used : Z) (older : list dict) : result (list dict) :=
  match older with
  | [] => Ok []
  | m :: older =>
      t ← _estimate_history_tokens [m];
      if max_tokens <? used + t then Ok [] else
      rest ← take_older max_tokens (used + t) older;
      Ok (m :: rest)
  end.
Fixpoint trim_start (selected : list dict) : list dict :=
  match selected with
  | m :: (_ :: _) as rest => if is_in (_message_role m) _START_ROLES then selected else trim_start rest
  | _ => selected
  end.
Definition _select_history_payloads (messages : list dict) (max_messages max_tokens : Z) : result (list dict) :=
  let candidates := py_last max_messages messages in
  match last candidates with
  | None => Ok []
  | Some newest =>
      used ← _estimate_history_tokens [newest];
      older ← take_older max_tokens used (rev (removelast candidates));
      Ok (trim_start (rev older ++ [newest]))
  end.

(** ** Images *)
Definition MAX_IMAGE_INPUTS : Z := 16.
Definition MAX_IMAGE_INPUT_BYTES : Z := 50 * 1024 * 1024.
Definition MAX_IMAGE_REQUEST_BYTES : Z := 64 * 1024 * 1024.
Definition sorted_opts : opts := Opts true "," ":" true None.
Definition image_reference_key (ref : dict) : string := dumps_with sorted_opts (VDict ref).
Record ImageInputBudget := ImageBudget { decoded_bytes : Z; multipart_bytes : Z }.
Definition TOO_LARGE : string := "image inputs exceed the 64 MiB request or 50 MiB file budget".
Definition image_remaining (b : ImageInputBudget) : Z := Z.min (MAX_IMAGE_INPUT_BYTES - 1) (MAX_IMAGE_REQUEST_BYTES - decoded_bytes b).
Definition decode (b : ImageInputBudget) (v : value) : result (string * ImageInputBudget) :=
  let remaining := image_remaining b in
  match v with
  | VStr s =>
      if 4 * ((remaining + 2) / 3) <? ulen s then raise ValueError TOO_LARGE else
      match b64decode s with
      | None => raise ValueError "image input is not valid base64"
      | Some decoded =>
          if remaining <? blen decoded then raise ValueError TOO_LARGE
          else Ok (decoded, ImageBudget (decoded_bytes b + blen decoded) (multipart_bytes b))
      end
  | _ => raise ValueError TOO_LARGE
  end.
Definition add_part (b : ImageInputBudget) (part : string) : result ImageInputBudget :=
  if MAX_IMAGE_REQUEST_BYTES <? multipart_bytes b + blen part
  then raise ValueError "image inputs exceed the 64 MiB multipart request budget"
  else Ok (ImageBudget (decoded_bytes b) (multipart_bytes b + blen part)).

(** ** Models *)
Definition MODEL_PROFILES : list string := ["max"; "xhigh"; "high"; "medium"; "low"; "instant"].
Record ModelRoutingConfig := Routing {
  model_routes : gmap string string; request_model_profiles : gmap string string; skill_model_profiles : gmap string string }.
(** [validate_model_mappings], after the fields were validated. *)
Definition validate_model_mappings (c : ModelRoutingConfig) : result ModelRoutingConfig :=
  let used := map snd (map_to_list (request_model_profiles c)) ++ map snd (map_to_list (skill_model_profiles c)) in
  match List.find (fun p => match model_routes c !! p with None => true | Some _ => false end) used with
  | Some profile => raise ValueError ("Model mapping requires model_routes." +++ profile)
  | None => Ok c
  end.
Definition requested_profile (additional_props : value) : result (option string) :=
  match additional_props with
  | VNone => Ok None
  | VDict d =>
      match dlookup "model_profile" d with
      | None => Ok None
      | Some (VStr s) => if is_in s MODEL_PROFILES then Ok (Some s)
                         else raise ValueError ("model_profile must be one of: " +++ join ", " MODEL_PROFILES)
      | Some _ => raise ValueError ("model_profile must be one of: " +++ join ", " MODEL_PROFILES)
      end
  | _ => raise ValueError "additional_props must be an object"
  end.
Inductive selection_source := Automatic | Explicit | RequestProfile | SkillLoad | Autonomous.
Definition source_name (s : selection_source) : string :=
  match s with Automatic => "automatic" | Explicit => "explicit" | RequestProfile => "request_profile"
             | SkillLoad => "skill_load" | Autonomous => "autonomous" end.
Record ModelSelection := Selection {
  requested : option string; effective : option string; source : selection_source; promotion_count : Z;
  triggering_skill : option string }.
Definition nonempty (o : option string) : bool := match o with Some (String _ _) => true | _ => false end.
Definition resolve (c : ModelRoutingConfig) (additional_props : value) (request_profile : string) : result ModelSelection :=
  wanted ← requested_profile additional_props;
  match wanted with
  | Some p =>
      match model_routes c !! p with
      | None => raise ValueError ("model_profile '" +++ p +++ "' is not configured")
      | Some _ => Ok (Selection (Some p) (Some p) Explicit 0 None)
      end
  | None =>
      let mapped := request_model_profiles c !! request_profile in
      Ok (Selection None mapped (if nonempty mapped then RequestProfile else Automatic) 0 None)
  end.
Definition explicit (s : ModelSelection) : bool :=
  match requested s, source s with Some _, _ | _, Autonomous => true | _, _ => false end.
Definition skill_loaded (s : ModelSelection) (operation skill_name : string) (c : ModelRoutingConfig) : ModelSelection :=
  if explicit s || match effective s with Some _ => true | None => false end || negb (operation =? "load_skill")%string then s else
  match skill_model_profiles c !! skill_name with
  | Some (String x p) => Selection (requested s) (Some (String x p)) SkillLoad (promotion_count s + 1) (Some skill_name)
  | _ => s
  end.
Definition alias (s : ModelSelection) (c : ModelRoutingConfig) (default_alias : string) : result string :=
  match effective s with
  | None => Ok default_alias
  | Some p => match model_routes c !! p with Some a => Ok a | None => raise KeyError p end
  end.
Definition metadata (s : ModelSelection) : dict :=
  let or_auto o := VStr (match o with Some (String c p) => String c p | _ => "automatic" end) in
  [("requested_model_profile", or_auto (requested s)); ("effective_model_profile", or_auto (effective s));
   ("model_selection_source", VStr (source_name (source s))); ("model_promotion_count", VInt (promotion_count s));
   ("model_triggering_skill", match triggering_skill s with Some k => VStr k | None => VNone end)].

(** ** Laws: outcomes *)
Definition status_error (status : option string) : bool := match status with Some s => (s =? "error")%string | None => false end.
Definition sandbox_failed (text : string) : bool :=
  startswith text SANDBOX_HEADER &&
  match sandbox_report text with Ok (code, timed_out, _, _, _) => negb (code =? 0) || timed_out | Raise _ => false end.
(** The JSON a result carries: itself, or the standard output of its run. *)
Definition payload_of (text : string) : result value :=
  if startswith text SANDBOX_HEADER then '(_, _, stdout, _, _) ← sandbox_report text; loads_value stdout else loads text.
(** What counts as a failure. *)
Lemma outcome_failed content status text : _text content = Ok text ->
  exists o, tool_outcome content status = Ok o /\
    failed o = status_error status || sandbox_failed text ||
               match payload_of text with Ok (VDict d) => payload_failed d | _ => startswith text "Error:" end.
Proof.
  intros Ht. unfold tool_outcome, first_look, sandbox_failed, payload_of. rewrite Ht. cbn [mbind result_bind]. fold (status_error status).
  destruct (startswith text SANDBOX_HEADER); [destruct (sandbox_report text) as [[[[[code timed] out] err] files]|e]; cbn [mbind result_bind andb]|].
  - destruct (loads_value out) as [[]|]; eexists; (split; [reflexivity|]); destruct (startswith text "Error:"); cbn [failed];
      by rewrite ?orb_true_r, ?orb_false_r, ?orb_assoc.
  - eexists; (split; [reflexivity|]); destruct (startswith text "Error:"); cbn [failed]; by rewrite ?orb_true_r, ?orb_false_r.
  - destruct (loads text) as [[]|]; eexists; (split; [reflexivity|]); cbn [andb]; destruct (startswith text "Error:"); cbn [failed];
      by rewrite ?orb_true_r, ?orb_false_r.
Qed.
(** Two runs that differ in nothing but the lines a report does not read, such
    as their request identifiers, are the same for the repetition guard. *)
Lemma outcome_comparable t1 t2 r : startswith t1 SANDBOX_HEADER = true -> startswith t2 SANDBOX_HEADER = true ->
  sandbox_report t1 = Ok r -> sandbox_report t2 = Ok r ->
  comparable <$> tool_outcome (VStr t1) None = comparable <$> tool_outcome (VStr t2) None.
Proof.
  intros H1 H2 R1 R2. unfold tool_outcome, first_look. cbn [_text mbind result_bind]. rewrite H1, H2, R1, R2.
  destruct r as [[[[code timed] out] err] files].
  destruct (loads_value out) as [[]|]; cbn; by destruct (startswith t1 "Error:"), (startswith t2 "Error:").
Qed.

(** ** Laws: history *)
Lemma message_tokens_pos m t : message_tokens m = Ok t -> 8 <= t.
Proof.
  unfold message_tokens. cbv zeta. destruct (utf8_ok _); [|done]. intros [= <-].
  pose proof (Z.div_pos (blen (dumps_with compact_opts (VDict m)) + 3 - 1) 3 ltac:(unfold blen; lia) ltac:(lia)) as D.
  unfold _MESSAGE_OVERHEAD_TOKENS, _BYTES_PER_ESTIMATED_TOKEN. lia.
Qed.
Lemma take_older_spec max_tokens older : forall used kept, take_older max_tokens used older = Ok kept ->
  exists rest n, older = kept ++ rest /\ _estimate_history_tokens kept = Ok n /\ 0 <= n /\ (kept = [] \/ used + n <= max_tokens) /\
    (forall m t rest', rest = m :: rest' -> _estimate_history_tokens [m] = Ok t -> max_tokens < used + n + t).
Proof.
  induction older as [|m older IH]; intros used kept H; cbn [take_older] in H.
  { injection H as <-. exists [], 0. split_and!; [done|done|lia|by left|done]. }
  apply bind_ok in H as (t & Ht & H). assert (Hpos : 0 <= t).
  { cbn in Ht. apply bind_ok in Ht as (k & Hk%message_tokens_pos & [= <-]). lia. }
  destruct (Z.ltb_spec max_tokens (used + t)) as [Hover|Hfit].
  - injection H as <-. exists (m :: older), 0. split_and!; [done|done|lia|by left|]. intros m' t' rest' [= <- <-] Ht'.
    rewrite Ht in Ht'. injection Ht' as <-. lia.
  - apply bind_ok in H as (k & Hk & H). injection H as <-. destruct (IH _ _ Hk) as (rest & n & -> & Hn & Hp & Hb & Hmax).
    exists rest, (t + n). split_and!; [done| |lia| |].
    + cbn in Ht |- *. apply bind_ok in Ht as (t0 & Ht & [= <-]). rewrite Ht. cbn. rewrite Hn. cbn. f_equal; lia.
    + right. destruct Hb as [->|]; [|lia]. cbn in Hn. injection Hn as <-. lia.
    + intros m' t' rest' Hr Ht'. specialize (Hmax _ _ _ Hr Ht'). lia.
Qed.
Lemma estimate_app a b : _estimate_history_tokens (a ++ b) =
  (x ← _estimate_history_tokens a; y ← _estimate_history_tokens b; Ok (x + y)).
Proof.
  induction a as [|m a IH]; cbn; [by destruct (_estimate_history_tokens b)|].
  destruct (message_tokens m) as [t|]; cbn; [|done]. rewrite IH.
  destruct (_estimate_history_tokens a) as [x|]; cbn; [|done]. destruct (_estimate_history_tokens b) as [y|]; cbn; [|done]. f_equal; lia.
Qed.
Lemma estimate_perm a b : a ≡ₚ b -> forall n, _estimate_history_tokens a = Ok n -> _estimate_history_tokens b = Ok n.
Proof.
  induction 1 as [|m a b _ IH|m m' a|a b c _ IH1 _ IH2]; intros n Hn; [done| | |auto].
  - cbn in *. apply bind_ok in Hn as (t & Ht & Hn). apply bind_ok in Hn as (k & Hk & Hn). rewrite Ht. cbn. by rewrite (IH _ Hk).
  - cbn in *. apply bind_ok in Hn as (t & Ht & Hn). apply bind_ok in Hn as (k & Hk & [= <-]).
    apply bind_ok in Hk as (t' & Ht' & Hk). apply bind_ok in Hk as (x & Hx & [= <-]). rewrite Ht'. cbn. rewrite Ht. cbn. rewrite Hx. cbn.
    f_equal; lia.
Qed.
Lemma trim_spec l : l <> [] -> exists cut, l = cut ++ trim_start l /\ trim_start l <> [] /\
  (forall m rest, trim_start l = m :: rest -> rest = [] \/ is_in (_message_role m) _START_ROLES = true).
Proof.
  induction l as [|m l IH]; [done|intros _]. cbn [trim_start]. destruct l as [|m2 l].
  { exists []. split_and!; [done|done|]. intros ? ? [= <- <-]. by left. }
  destruct (is_in (_message_role m) _START_ROLES) eqn:E.
  - exists []. split_and!; [done|done|]. intros ? ? [= <- <-]. by right.
  - destruct (IH ltac:(done)) as (cut & H1 & H2 & H3). exists (m :: cut). split_and!; [|done|done]. cbn [app]. by rewrite <- H1.
Qed.
Lemma py_last_spec {A} (l : list A) n : 0 < n -> exists pre, l = pre ++ py_last n l /\ Z.of_nat (length (py_last n l)) <= n /\
  (pre <> [] -> Z.of_nat (length (py_last n l)) = n).
Proof.
  intros Hn. unfold py_last. destruct (Z.ltb_spec 0 n); [|lia]. exists (firstn (length l - Z.to_nat n) l).
  split_and!; [by rewrite firstn_skipn|rewrite length_skipn; lia|]. rewrite length_skipn. intros Hp.
  destruct (Nat.le_gt_cases (length l) (Z.to_nat n)); [|lia]. destruct Hp. by replace (length l - Z.to_nat n)%nat with O by lia.
Qed.

(** ** Laws: images *)
Lemma b64_length s : forall d, b64decode s = Some d -> Z.of_nat (String.length s) = 4 * ((blen d + 2) / 3).
Proof.
  enough (G : forall n s, (String.length s <= n)%nat -> forall d, b64decode s = Some d -> Z.of_nat (String.length s) = 4 * ((blen d + 2) / 3))
    by (by eapply G).
  intros n. induction n as [|n IH]; intros t Hn d H; (destruct t as [|a [|b [|c [|e rest]]]]; cbn in Hn; try lia; try done; try (by injection H as <-)).
  cbn [b64decode] in H. destruct (sextet a), (sextet b); try done. destruct (sextet c), (sextet e); try done.
  - apply bind_Some in H as (r & Er & [= <-]). apply IH in Er; [|lia].
    unfold blen in *. cbn [String.length]. replace (Z.of_nat (S (S (S (String.length r)))) + 2) with (Z.of_nat (String.length r) + 2 + 1 * 3) by lia.
    rewrite Z.div_add by lia. lia.
  - case_hyp H; [|done]. injection H as <-. bool_prop. by subst.
  - case_hyp H; [|done]. injection H as <-. bool_prop. by subst.
Qed.
Lemma ulen_le_length s : ulen s <= Z.of_nat (String.length s).
Proof. unfold ulen. induction s as [|c s IH]; cbn; [lia|]. destruct (is_cont c); lia. Qed.
(** Budgets as requests can make them. *)
Definition budget_ok (b : ImageInputBudget) : Prop :=
  0 <= decoded_bytes b <= MAX_IMAGE_REQUEST_BYTES /\ 0 <= multipart_bytes b <= MAX_IMAGE_REQUEST_BYTES.
(** an image is accepted exactly when it is base64 whose bytes are below the
    limit of a file and fit in what is left of the request, so the check of the
    text before it is decoded never refuses an image that fits; the budget
    then grows by its bytes, and it never passes the limit of a request. *)
Theorem image_decode_exact b v d b' : budget_ok b ->
  decode b v = Ok (d, b') <->
  exists s, v = VStr s /\ b64decode s = Some d /\ blen d < MAX_IMAGE_INPUT_BYTES /\ decoded_bytes b + blen d <= MAX_IMAGE_REQUEST_BYTES /\
    b' = ImageBudget (decoded_bytes b + blen d) (multipart_bytes b) /\ budget_ok b'.
Proof.
  intros [[B1 B2] B3]. assert (Hd : forall x, 0 <= blen x) by (intros x; unfold blen; lia). split.
  - unfold decode. destruct v as [| | | |s| |]; try done. destruct (_ <? ulen s); [done|].
    destruct (b64decode s) as [x|] eqn:E; [|done]. destruct (Z.ltb_spec (image_remaining b) (blen x)) as [|Hf]; [done|].
    intros [= -> <-]. exists s. specialize (Hd d). unfold image_remaining in Hf. split_and!; try done; cbn; try lia.
    split; cbn; lia.
  - intros (s & -> & E & H1 & H2 & -> & _). unfold decode. rewrite E. pose proof (b64_length s d E) as L. pose proof (ulen_le_length s) as U.
    assert (Hr : blen d <= image_remaining b) by (unfold image_remaining; lia).
    assert (M : (blen d + 2) / 3 <= (image_remaining b + 2) / 3) by (apply Z.div_le_mono; lia).
    destruct (Z.ltb_spec (4 * ((image_remaining b + 2) / 3)) (ulen s)); [lia|].
    destruct (Z.ltb_spec (image_remaining b) (blen d)); [lia|done].
Qed.
Lemma add_part_ok b part b' : budget_ok b -> add_part b part = Ok b' -> budget_ok b'.
Proof.
  unfold add_part, budget_ok. intros [B1 B2] H. destruct (Z.ltb_spec MAX_IMAGE_REQUEST_BYTES (multipart_bytes b + blen part)); [done|].
  injection H as <-. cbn. unfold blen in *. lia.
Qed.

(** ** Laws: models *)
Definition routed (c : ModelRoutingConfig) (s : ModelSelection) : Prop :=
  (forall p, effective s = Some p -> is_Some (model_routes c !! p)) /\
  0 <= promotion_count s <= 1 /\ (effective s = None -> promotion_count s = 0).
Lemma mapping_routed c k p : validate_model_mappings c = Ok c ->
  request_model_profiles c !! k = Some p \/ skill_model_profiles c !! k = Some p -> is_Some (model_routes c !! p).
Proof.
  unfold validate_model_mappings. intros H Hk. destruct (List.find _ _) as [q|] eqn:F; [done|]. clear H.
  destruct (model_routes c !! p) as [a|] eqn:E; [by eexists|exfalso].
  pose proof (List.find_none _ _ F p) as N. cbv beta in N. rewrite E in N. discriminate N. rewrite in_app_iff, !in_map_iff.
  destruct Hk as [Hk|Hk]; [left|right]; exists (k, p); (split; [done|]); by apply list_elem_of_In, elem_of_map_to_list.
Qed.
Lemma skill_loaded_routed c s op name : validate_model_mappings c = Ok c -> routed c s -> routed c (skill_loaded s op name c).
Proof.
  intros Hv R. pose proof R as [H1 [H2 H3]]. unfold skill_loaded. destruct (effective s) as [p|] eqn:E; [by rewrite orb_true_r|].
  destruct (_ || negb _); [done|]. destruct (skill_model_profiles c !! name) as [[|x p]|] eqn:Es; try done.
  specialize (H3 eq_refl). split_and!; cbn; [|lia|lia|done]. intros q [= <-]. apply (mapping_routed c name); [done|by right].
Qed.
Definition after_skills (c : ModelRoutingConfig) (events : list (string * string)) (s : ModelSelection) : ModelSelection :=
  fold_left (fun s e => skill_loaded s (fst e) (snd e) c) events s.
(** the model of a request.  With a configuration that was validated,
    whatever the request asks for and whatever skills load in whatever order,
    the alias exists; the model changes at most once, and never when the
    request, its profile or an autonomous run chose one. *)
Theorem routing_total c props profile s events default_alias : validate_model_mappings c = Ok c -> resolve c props profile = Ok s ->
  (exists a, alias (after_skills c events s) c default_alias = Ok a) /\
  0 <= promotion_count (after_skills c events s) <= 1 /\
  (explicit s = true \/ effective s <> None -> after_skills c events s = s) /\
  (forall more, effective (after_skills c events s) <> None -> after_skills c (events ++ more) s = after_skills c events s).
Proof.
  intros Hv Hr. assert (R : routed c s).
  { unfold resolve in Hr. apply bind_ok in Hr as (w & _ & Hr). destruct w as [p|].
    - destruct (model_routes c !! p) eqn:E; [|done]. injection Hr as <-. split_and!; cbn; try lia; try done. intros q [= <-]. by eexists.
    - injection Hr as <-. split_and!; cbn; try lia; try done. intros q Hq. apply (mapping_routed c profile); [done|by left]. }
  assert (A : forall l t, routed c t -> routed c (after_skills c l t)).
  { induction l as [|e l IH]; intros t Ht; [done|]. cbn. by apply IH, skill_loaded_routed. }
  assert (Fix : forall l t, explicit t = true \/ effective t <> None -> after_skills c l t = t).
  { induction l as [|e l IH]; intros t Ht; [done|]. cbn. assert (E : skill_loaded t e.1 e.2 c = t); [|by rewrite E; apply IH].
    unfold skill_loaded. destruct Ht as [->|Ht]; [done|]. destruct (effective t); [by rewrite orb_true_r|done]. }
  destruct (A events s R) as [H1 [H2 H3]]. split_and!; [|lia|lia|by apply Fix|].
  - unfold alias. destruct (effective (after_skills c events s)) as [p|]; [|by eexists]. destruct (H1 p eq_refl) as [a ->]. by eexists.
  - intros more Hm. unfold after_skills at 1. rewrite fold_left_app. fold (after_skills c events s). apply Fix. by right.
Qed.
