(* ===== verification/Citations.v ===== *)
(** * Citations of an answer ([source_verifier/source_verifier_function.py])

    The URLs of a text and their comparison form, the ledger of observed
    sources, and [audit_citations] with its renumbering.  The decimal values of
    digits outside ASCII and the Unicode data behind [\w] are parameters. *)
From S2P Require Import Prelude PyStr PyFloat PyVal Json Redis PyUrl Dedupe PromptText Identity Markdown.
From S2P Require Import PyNet SafeHttp Compaction AgentBudget.
#[local] Open Scope Z_scope.

Definition _PLACEHOLDER_HOSTS : list string := ["example.com"; "example.org"; "example.net"].
Definition _TRACKING_PARAMS : list string :=
  ["utm_source"; "utm_medium"; "utm_campaign"; "utm_term"; "utm_content"; "ref"; "source"].
Definition _URL_TRIM_CHARS (c : ascii) : bool :=
  char_is "." c || char_is "," c || char_is ";" c || char_is ")" c || char_is "]" c || char_is ">" c.

(** ** URLs in a text *)
Definition text_of (cs : list string) : string := String.concat "" cs.
Fixpoint drop_exact (p cs : list string) : option (list string) :=
  match p, cs with
  | [], _ => Some cs
  | x :: p, c :: cs => if (x =? c)%string then drop_exact p cs else None
  | _, [] => None
  end.
Fixpoint take_chars (f : string -> bool) (cs : list string) : list string * list string :=
  match cs with
  | c :: cs' => if f c then let '(a, b) := take_chars f cs' in (c :: a, b) else ([], cs)
  | [] => ([], [])
  end.
(** What [r], a rest of [cs], leaves in front of it. *)
Definition ahead (cs r : list string) : list string := firstn (length cs - length r) cs.
Section UrlPattern.
(** How literal text is recognised, and the characters of a URL. *)
Context (literal : list string -> list string -> option (list string)) (url_char : string -> bool).
(** [https?://[...]+] at the start of [cs]: the URL and what follows. *)
Definition url_at (cs : list string) : option (string * list string) :=
  match (match literal (chars "https://") cs with Some r => Some r | None => literal (chars "http://") cs end) with
  | Some r =>
      match take_chars url_char r with
      | ([], _) => None
      | (_, rest) => Some (text_of (ahead cs rest), rest)
      end
  | None => None
  end.
Fixpoint find_urls (fuel : nat) (cs : list string) : list string :=
  match fuel, cs with
  | S fuel, c :: r =>
      match url_at cs with
      | Some (u, rest) => u :: find_urls fuel rest
      | None => find_urls fuel r
      end
  | _, _ => []
  end.
End UrlPattern.
Definition url_char (c : string) : bool := negb (space_char c) && negb (is_in c ["<"; ">"; String dq ""; "'"; "]"]).
Definition _URL_RE (text : string) : list string :=
  let cs := chars text in find_urls drop_exact url_char (length cs) cs.
Definition or_text (s fallback : string) : string := if (s =? "")%string then fallback else s.
Definition _normalize_audit_url (url : string) : string :=
  match urlsplit (strip url) with
  | Raise _ => strip url
  | Ok u =>
      let query := urlencode (stable_sort pair_leb
        (List.filter (fun kv => negb (is_in (lower (fst kv)) _TRACKING_PARAMS)) (parse_qsl (u_query u)))) in
      let '(path, _) := PyNet.urlparse u in
      url_text (lower (u_scheme u)) (lower (u_netloc u)) (or_text (rstrip_chars (char_is "/") path) "/") "" query ""
  end.
(** The first URL of each comparison form. *)
Fixpoint dedupe_urls (seen : list string) (urls : list string) : list string :=
  match urls with
  | [] => []
  | url :: urls =>
      let normalized := _normalize_audit_url url in
      if is_in normalized seen then dedupe_urls seen urls else url :: dedupe_urls (normalized :: seen) urls
  end.
Definition _extract_urls (text : string) : list string :=
  dedupe_urls [] (map (rstrip_chars _URL_TRIM_CHARS) (_URL_RE text)).

(** ** The ledger *)
Fixpoint first_text (keys : list string) (d : dict) : option string :=
  match keys with
  | [] => None
  | k :: keys => match dget k d with VStr s => Some s | _ => first_text keys d end
  end.
Fixpoint first_list (keys : list string) (d : dict) : option (list value) :=
  match keys with
  | [] => None
  | k :: keys => match dget k d with VList l => Some l | _ => first_list keys d end
  end.
Definition URL_KEYS : list string := ["url"; "source_url"; "href"].
Definition urls_of_dict (d : dict) : list string :=
  match first_text URL_KEYS d with Some s => _extract_urls s | None => [] end.
Definition item_urls (v : value) : list string :=
  match v with VStr s => _extract_urls s | VDict d => urls_of_dict d | _ => [] end.
(** The recursion is one level deep: the text it is called on is a list. *)
Fixpoint parse_ledger (fuel : nat) (source_urls_json : string) : list string :=
  if is_blank source_urls_json then [] else
  let text := strip source_urls_json in
  match loads text with
  | Raise _ => _extract_urls text
  | Ok raw =>
      dedupe_urls []
        match raw with
        | VList l => flat_map item_urls l
        | VDict d =>
            match first_list ["urls"; "source_urls"; "sources"; "references"] d with
            | Some l => match fuel with S fuel => parse_ledger fuel (dumps (VList l)) | O => [] end
            | None => urls_of_dict d
            end
        | _ => []
        end
  end.
Definition _parse_source_urls (source_urls_json : string) : list string := parse_ledger 1 source_urls_json.

(** ** Safety of a cited URL *)
Section Safety.
Context (net : network).
Definition _ALLOWED_SCHEMES : list string := ["http"; "https"].
Definition _safe_audit_url (url : string) : eff net_world (bool * option string) :=
  catch (parsed ← lift (urlsplit (strip url));
         if is_in (lower (default "" (hostname parsed))) _PLACEHOLDER_HOSTS
         then mret (false, Some "placeholder_url")
         else _ ← validate_public_url net url _ALLOWED_SCHEMES; mret (true, None))
        [ValueError]
        (fun e => mret (if exn_isa (exn_cls e) UnresolvableHostError then (true, Some "unresolved_host")
                        else (false, Some ("unsafe_url: " +++ exn_msg e)))).
(** The checks of the distinct URLs, in one of the orders the threads allow. *)
Definition _audit_url_safety (urls : list string) : eff net_world (list (string * (bool * option string))) :=
  mapE (fun url => r ← _safe_audit_url url; mret (url, r)) (distinct [] urls).
End Safety.
Fixpoint lookup_url {A} (url : string) (l : list (string * A)) : result A :=
  match l with
  | [] => raise KeyError url
  | (u, x) :: l => if (u =? url)%string then Ok x else lookup_url url l
  end.

Section Audit.
Context (wide_digit : string -> option Z) (wide_word : string -> bool).
(** ** Citation marks *)
Definition decimal_value (ch : string) : option Z :=
  match ch with
  | String c "" => if is_digit c then Some (byte_of c - 48) else None
  | "" => None
  | _ => wide_digit ch
  end.
Fixpoint take_digits (cs : list string) : list Z * list string :=
  match cs with
  | c :: cs' => match decimal_value c with Some d => let '(ds, r) := take_digits cs' in (d :: ds, r) | None => ([], cs) end
  | [] => ([], [])
  end.
(** [int(digits)], with the limit of the interpreter. *)
Definition number (ds : list Z) : result Z :=
  if 4300 <? Z.of_nat (length ds)
  then raise ValueError ("Exceeds the limit (4300 digits) for integer string conversion: value has " +++
                         str_of_Z (Z.of_nat (length ds)) +++ " digits; use sys.set_int_max_str_digits() to increase the limit")
  else Ok (fold_left (fun acc d => acc * 10 + d) ds 0).
(** ["[" \d+ "]"] at the start of [cs]. *)
Definition bracketed (cs : list string) : option (list Z * list string) :=
  match cs with
  | c :: r =>
      if (c =? "[")%string then
        match take_digits r with
        | (d :: ds, e :: rest) => if (e =? "]")%string then Some (d :: ds, rest) else None
        | _ => None
        end
      else None
  | [] => None
  end.
(** Prefix, number and tail of a reference entry. *)
Definition _CITATION_LINE_RE (line : string) : option (string * list Z * string) :=
  let cs := chars line in
  let r := drop_spaces cs in
  let r := match r with c :: r' => if is_in c ["-"; "*"] then drop_spaces r' else r | [] => r end in
  match bracketed r with
  | Some (ds, c :: rest) =>
      match rest with
      | [] => None
      | _ => if space_char c then Some (text_of (ahead cs r), ds, text_of (c :: rest)) else None
      end
  | _ => None
  end.
(** A text as its inline citations and the characters between them. *)
Inductive piece := Plain (c : string) | Cited (ds : list Z) (text : list string).
Abbreviation word_at := (is_word_char wide_word).
Fixpoint pieces_go (fuel : nat) (previous_word : bool) (cs : list string) : list piece :=
  match fuel, cs with
  | S fuel, c :: r =>
      match (if previous_word then None else bracketed cs) with
      | Some (ds, rest) =>
          if match rest with n :: _ => word_at n | [] => false end
          then Plain c :: pieces_go fuel (word_at c) r
          else Cited ds (ahead cs rest) :: pieces_go fuel false rest
      | None => Plain c :: pieces_go fuel (word_at c) r
      end
  | _, _ => []
  end.
Definition _INLINE_CITATION_RE (cs : list string) : list piece := pieces_go (length cs) false cs.
Definition cited (p : piece) : option (list Z) := match p with Cited ds _ => Some ds | Plain _ => None end.
Definition inline_numbers (cs : list string) : result (list Z) := mapM_r number (omap cited (_INLINE_CITATION_RE cs)).

(** ** Renumbering *)
Fixpoint zlookup (n : Z) (m : list (Z * Z)) : option Z :=
  match m with [] => None | (k, v) :: m => if k =? n then Some v else zlookup n m end.
Definition mark (n : Z) : string := "[" +++ str_of_Z n +++ "]".
Definition replace_inline (mapping : list (Z * Z)) (p : piece) : result (list string) :=
  match p with
  | Plain c => Ok [c]
  | Cited ds _ => old ← number ds; Ok (match zlookup old mapping with Some new => chars (mark new) | None => [] end)
  end.
Definition renumber_body (mapping : list (Z * Z)) (cs : list string) : result (list string) :=
  l ← mapM_r (replace_inline mapping) (_INLINE_CITATION_RE cs); Ok (List.concat l).
Fixpoint renumber_lines (mapping : list (Z * Z)) (reference_lines : list string) : result (list string) :=
  match reference_lines with
  | [] => Ok []
  | line :: lines =>
      match _CITATION_LINE_RE line with
      | None => rest ← renumber_lines mapping lines; Ok (line :: rest)
      | Some (prefix, ds, tail) =>
          old ← number ds;
          rest ← renumber_lines mapping lines;
          Ok (match zlookup old mapping with Some new => (prefix +++ mark new +++ tail) :: rest | None => rest end)
      end
  end.
Definition renumber_map (valid_numbers : list Z) : list (Z * Z) :=
  let ordered := stable_sort Z.leb valid_numbers in combine ordered (range 1 (size ordered + 1)).
Definition _renumber_markdown_citations (body : list string) (reference_lines : list string) (valid_numbers : list Z)
  : result (string * string * list (Z * Z)) :=
  let mapping := renumber_map valid_numbers in
  repaired_body ← renumber_body mapping body;
  repaired_ref_lines ← renumber_lines mapping reference_lines;
  Ok (text_of repaired_body, strip (join NL repaired_ref_lines), mapping).

(** ** The reference section *)
Definition heading (cs : list string) : bool :=
  match drop_exact (chars "##") cs with
  | Some r =>
      let r := match r with c :: r' => if (c =? "#")%string then r' else r | [] => r end in
      match r with
      | c :: r' =>
          space_char c &&
          let r' := drop_spaces r' in
          existsb (fun s => match drop_chars (chars s) r' with Some _ => true | None => false end) ["sources"; "references"]
      | [] => false
      end
  | None => false
  end.
Definition bold_heading (cs : list string) : bool :=
  match drop_chars (chars "**references") cs with
  | Some r =>
      let closes r := match drop_exact (chars "**") r with Some _ => true | None => false end in
      match r with c :: r' => if (c =? ":")%string then closes r' else closes r | [] => false end
  | None => false
  end.
(** [_REFERENCE_SECTION_RE.search]: the body and the section. *)
Fixpoint split_section (line_start : bool) (cs : list string) : option (list string * list string) :=
  if line_start && (heading cs || bold_heading cs) then Some ([], cs) else
  match cs with
  | [] => None
  | c :: r => match split_section (c =? NL)%string r with Some (b, s) => Some (c :: b, s) | None => None end
  end.

(** ** The audit *)
Record citation := Citation { ct_number : Z; ct_urls : list string; ct_line : string }.
Fixpoint citations_of (lines : list string) : result (list citation) :=
  match lines with
  | [] => Ok []
  | line :: lines =>
      match _CITATION_LINE_RE line with
      | None => citations_of lines
      | Some (_, ds, tail) => n ← number ds; rest ← citations_of lines; Ok (Citation n (_extract_urls tail) line :: rest)
      end
  end.
Definition number_count (citations : list citation) (n : Z) : nat :=
  length (List.filter (fun c => ct_number c =? n) citations).
Record audit_state := AuditState {
  s_invalid : list dict; s_warnings : list string; s_valid : list (Z * string); s_seen : list (string * Z) }.
Definition reject (st : audit_state) (d : dict) : audit_state :=
  AuditState (s_invalid st ++ [d]) (s_warnings st) (s_valid st) (s_seen st).
Definition warn (st : audit_state) (w : string) : audit_state :=
  AuditState (s_invalid st) (s_warnings st ++ [w]) (s_valid st) (s_seen st).
Fixpoint seen_number (normalized : string) (seen : list (string * Z)) : option Z :=
  match seen with [] => None | (u, n) :: seen => if (u =? normalized)%string then Some n else seen_number normalized seen end.
Definition opt_value (o : option string) : value := match o with Some s => VStr s | None => VNone end.
(** The ledger: whether it was given, and its comparison forms. *)
Record ledger := Ledger { l_given : bool; l_norms : list string; l_count : Z; l_malformed : bool }.
Definition audit_entry (lg : ledger) (citations : list citation) (safety : list (string * (bool * option string)))
    (st : audit_state) (c : citation) : result audit_state :=
  let n := VInt (ct_number c) in
  let line := VStr (strip (ct_line c)) in
  if (1 <? number_count citations (ct_number c))%nat
  then Ok (reject st [("number", n); ("reason", VStr "duplicate_citation_number"); ("line", line)]) else
  match ct_urls c with
  | [] => Ok (reject st [("number", n); ("reason", VStr "missing_reference_url"); ("line", line)])
  | url :: _ =>
      let normalized := _normalize_audit_url url in
      '(safe, reason) ← lookup_url url safety;
      let refused r := reject st [("number", n); ("reason", r); ("url", VStr url); ("line", line)] in
      if negb safe then Ok (refused (opt_value reason)) else
      let st := match reason with Some r => warn st (r +++ ": " +++ url) | None => st end in
      let refused r := reject st [("number", n); ("reason", r); ("url", VStr url); ("line", line)] in
      if l_given lg && negb (is_in normalized (l_norms lg)) then Ok (refused (VStr "url_not_in_source_ledger")) else
      match seen_number normalized (s_seen st) with
      | Some canonical => Ok (refused (VStr ("duplicate_of_citation_" +++ str_of_Z canonical)))
      | None => Ok (AuditState (s_invalid st) (s_warnings st) (s_valid st ++ [(ct_number c, url)])
                               (s_seen st ++ [(normalized, ct_number c)]))
      end
  end.
Fixpoint audit_entries (lg : ledger) (citations : list citation) (safety : list (string * (bool * option string)))
    (st : audit_state) (l : list citation) : result audit_state :=
  match l with
  | [] => Ok st
  | c :: l => st ← audit_entry lg citations safety st c; audit_entries lg citations safety st l
  end.
Definition without (l m : list Z) : list Z := List.filter (fun x => negb (mem x m)) l.
Fixpoint dedupe_numbers (l : list Z) : list Z :=
  match l with [] => [] | x :: l => if mem x l then dedupe_numbers l else x :: dedupe_numbers l end.
Definition sorted_set (l : list Z) : list Z := stable_sort Z.leb (dedupe_numbers l).
Definition int_list (l : list Z) : value := VList (map VInt l).

(** What an audit finds, before it is printed. *)
Record audit_report := AuditReport {
  r_allowed : Z; r_valid : list (Z * string); r_invalid : list dict; r_warnings : list string;
  r_map : option (list (Z * Z)); r_markdown : string }.
Definition r_passed (r : audit_report) : bool := match r_invalid r with [] => true | _ => false end.
Definition json_report (r : audit_report) : string :=
  dumps_with indent2_opts (VDict (
    [("passed", VBool (r_passed r)); ("allowed_source_count", VInt (r_allowed r));
     ("valid_citations", VList (map (fun nu => VDict [("number", VInt (fst nu)); ("url", VStr (snd nu))]) (r_valid r)));
     ("invalid_citations", VList (map VDict (r_invalid r))); ("warnings", VList (map VStr (r_warnings r)))] ++
    match r_map r with
    | Some m => [("renumber_map", VDict (map (fun kv => (str_of_Z (fst kv), VInt (snd kv))) m))]
    | None => []
    end ++ [("repaired_markdown", VStr (r_markdown r))])).
Definition ledger_of (source_urls_json : string) : ledger :=
  let allowed := _parse_source_urls source_urls_json in
  let bad := (startswith (lstrip source_urls_json) "[" || startswith (lstrip source_urls_json) "{") &&
             match loads source_urls_json with Ok _ => false | Raise _ => true end in
  Ledger (negb (is_blank source_urls_json)) (if bad then [] else map _normalize_audit_url allowed)
         (Z.of_nat (length allowed)) bad.
Definition note_url (safety : list (string * (bool * option string))) (st : result audit_state) (url : string) : result audit_state :=
  st ← st;
  '(safe, reason) ← lookup_url url safety;
  Ok (if negb (safe : bool) then reject st [("reason", opt_value reason); ("url", VStr url)]
      else match reason with Some r => warn st (r +++ ": " +++ url) | None => st end).
Definition audit_unsectioned (net : network) (lg : ledger) (st : audit_state) (answer_markdown : string) (require_references : bool)
  : eff net_world audit_report :=
  let st := if require_references
            then reject st [("reason", VStr "missing_references_section");
                            ("detail", VStr "No References or Sources section was found.")] else st in
  let urls := _extract_urls answer_markdown in
  safety ← _audit_url_safety net urls;
  st ← lift (fold_left (note_url safety) urls (Ok st));
  mret (AuditReport (l_count lg) (s_valid st) (s_invalid st) (s_warnings st) None (strip answer_markdown)).
Definition single_urls (citations : list citation) : list string :=
  omap (fun c => if (number_count citations (ct_number c) =? 1)%nat then head (ct_urls c) else None) citations.
Definition close_report (lg : ledger) (st : audit_state) (body : list string) (reference_lines : list string) (require_references : bool)
  : result audit_report :=
  let valid_numbers := map fst (s_valid st) in
  inline ← inline_numbers body;
  let orphaned := sorted_set (without inline valid_numbers) in
  let st := match orphaned with [] => st
            | _ => reject st [("reason", VStr "orphaned_inline_citations"); ("numbers", int_list orphaned)] end in
  let uncited := sorted_set (without valid_numbers inline) in
  let st := match uncited with [] => st
            | _ => warn st ("references not cited in body: " +++ py_str (int_list uncited)) end in
  let st := if require_references && match valid_numbers with [] => true | _ => false end
            then reject st [("reason", VStr "no_valid_citations"); ("detail", VStr "No reference entries survived validation.")]
            else st in
  '(repaired_body, repaired_refs, mapping) ← _renumber_markdown_citations body reference_lines valid_numbers;
  let repaired := rstrip repaired_body in
  let repaired := if (repaired_refs =? "")%string then repaired else strip (repaired +++ NL +++ NL +++ repaired_refs) in
  Ok (AuditReport (l_count lg) (s_valid st) (s_invalid st) (s_warnings st) (Some mapping) repaired).
Definition audit_answer (net : network) (answer_markdown source_urls_json : string) (require_references : bool)
  : eff net_world audit_report :=
  let lg := ledger_of source_urls_json in
  let st := AuditState [] [] [] [] in
  let st := if l_malformed lg
            then reject st [("reason", VStr "invalid_source_ledger"); ("detail", VStr "Source ledger JSON is malformed.")] else st in
  match split_section true (chars answer_markdown) with
  | None => audit_unsectioned net lg st answer_markdown require_references
  | Some (body, section) =>
      let reference_lines := splitlines (text_of section) in
      citations ← lift (citations_of reference_lines);
      safety ← _audit_url_safety net (single_urls citations);
      st ← lift (audit_entries lg citations safety st citations);
      lift (close_report lg st body reference_lines require_references)
  end.
Definition MISSING_ANSWER : string :=
  dumps_with indent2_opts (VDict [("passed", VBool false); ("valid_citations", VList []);
    ("invalid_citations", VList [VDict [("reason", VStr "missing_answer_markdown"); ("detail", VStr "No answer_markdown was provided.")]]);
    ("warnings", VList []); ("repaired_markdown", VStr "")]).
Definition audit_citations (net : network) (answer_markdown source_urls_json : string) (require_references : bool)
  : eff net_world string :=
  if is_blank answer_markdown then mret MISSING_ANSWER else
  r ← audit_answer net answer_markdown source_urls_json require_references; mret (json_report r).
End Audit.
Lemma in_list s l : is_in s l = true <-> s ∈ l.
Proof.
  unfold is_in. rewrite existsb_exists, list_elem_of_In. split; [intros (x & Hx & E%String.eqb_eq); by subst|].
  intros H. exists s. split; [done|apply String.eqb_refl].
Qed.
