(* ===== verification/CitationLaws.v ===== *)
(** * Laws of the citation audit

    Repairing an answer leaves exactly its valid citations, renumbered from 1
    in the order of their numbers; what an audit accepts was checked. *)
From Stdlib Require Import Sorting.Sorted.
From S2P Require Import Prelude PyStr PyFloat PyVal Json JsonRoundtrip Redis PyUrl Dedupe PromptText Identity.
From S2P Require Import Markdown PyNet SafeHttp PublicContentLaws Compaction CompactionLaws AgentBudget.
From S2P Require Import Citations.
#[local] Open Scope Z_scope.

Section Marks.
Context (wide_digit : string -> option Z) (wide_word : string -> bool).
(** Every decimal digit is a word character, as in the Unicode tables. *)
Context (digits_are_words : forall c d, wide_digit c = Some d -> wide_word c = true).
Abbreviation dv := (decimal_value wide_digit).
Abbreviation word_at := (is_word_char wide_word).
Abbreviation take_digits := (take_digits wide_digit).
Abbreviation bracketed := (bracketed wide_digit).
Abbreviation go := (pieces_go wide_digit wide_word).
Definition P (pw : bool) (cs : list string) : list piece := go (length cs) pw cs.

Lemma digit_word c d : dv c = Some d -> word_at c = true.
Proof.
  unfold decimal_value, is_word_char. destruct c as [|a [|b s]]; [done| |apply digits_are_words].
  destruct (is_digit a) eqn:E; [|done]. intros _. unfold ascii_alnum, is_alnum_lower. by rewrite E, !orb_true_r.
Qed.
Lemma bracket_facts : dv "[" = None /\ dv "]" = None /\ word_at "[" = false /\ word_at "]" = false.
Proof. done. Qed.

(** ** Marks in a text *)
Lemma take_digits_spec cs ds r : take_digits cs = (ds, r) ->
  exists pre, cs = pre ++ r /\ length pre = length ds /\ Forall (fun c => is_Some (dv c)) pre /\
    match r with c :: _ => dv c = None | [] => True end.
Proof.
  revert ds r. induction cs as [|c cs IH]; intros ds r; cbn; [intros [= <- <-]; by exists []|].
  destruct (dv c) eqn:E; [|intros [= <- <-]; by exists []].
  destruct (take_digits cs) as [ds' r'] eqn:T. intros [= <- <-]. destruct (IH _ _ eq_refl) as (pre & -> & H1 & H2 & H3).
  exists (c :: pre). split_and!; [done|cbn; lia|constructor; [by eexists|done]|done].
Qed.
Lemma take_digits_app pre r : Forall (fun c => is_Some (dv c)) pre -> match r with c :: _ => dv c = None | [] => True end ->
  exists ds, take_digits (pre ++ r) = (ds, r) /\ length ds = length pre.
Proof.
  induction 1 as [|c pre [d Hd] _ IH]; intros Hr; cbn.
  - exists []. split; [|done]. destruct r as [|c r]; [done|]. cbn. by rewrite Hr.
  - rewrite Hd. destruct (IH Hr) as (ds & -> & Hl). eexists. split; [done|]. cbn. lia.
Qed.
(** A mark: its digits between brackets. *)
Lemma bracketed_spec cs ds rest : bracketed cs = Some (ds, rest) ->
  exists pre, cs = "[" :: pre ++ "]" :: rest /\ pre <> [] /\ Forall (fun c => is_Some (dv c)) pre /\ take_digits (pre ++ "]" :: rest) = (ds, "]" :: rest).
Proof.
  unfold bracketed. destruct cs as [|c r]; [done|]. destruct (String.eqb_spec c "[") as [->|]; [|done].
  destruct (take_digits r) as [[|d ds'] [|e rest']] eqn:T; try done. destruct (String.eqb_spec e "]") as [->|]; [|done].
  intros [= <- <-]. pose proof T as T0. apply take_digits_spec in T as (pre & -> & Hl & Hd & _). exists pre.
  split_and!; [done|by destruct pre|done|done].
Qed.
Lemma bracketed_mark pre rest : pre <> [] -> Forall (fun c => is_Some (dv c)) pre ->
  exists ds, bracketed ("[" :: pre ++ "]" :: rest) = Some (ds, rest) /\ take_digits (pre ++ "]" :: rest) = (ds, "]" :: rest).
Proof.
  intros Hn Hp. destruct (take_digits_app pre ("]" :: rest) Hp eq_refl) as (ds & T & Hl). exists ds. split; [|done].
  unfold bracketed. rewrite String.eqb_refl, T. destruct ds; [by destruct pre|]. done.
Qed.
Lemma ahead_mark pre rest : ahead ("[" :: pre ++ "]" :: rest) rest = "[" :: pre ++ ["]"].
Proof.
  unfold ahead. cbn [length]. rewrite length_app. cbn [length].
  replace (S (length pre + S (length rest)) - length rest)%nat with (S (length pre + 1)) by lia. cbn. f_equal.
  rewrite firstn_app_2. done.
Qed.
Definition next_word (rest : list string) : bool := match rest with n :: _ => word_at n | [] => false end.
(** The scan, step by step, whatever the fuel. *)
Lemma go_fuel cs : forall pw m n, (length cs <= m)%nat -> (length cs <= n)%nat -> go m pw cs = go n pw cs.
Proof.
  induction cs as [cs IH] using (induction_ltof1 _ (@length string)); unfold ltof in IH. intros pw m n Hm Hn.
  destruct cs as [|c r]; [by destruct m, n|]. destruct m as [|m], n as [|n]; cbn in Hm, Hn; try lia. cbn [pieces_go].
  assert (G : forall q, go m q r = go n q r) by (intros q; apply IH; cbn; lia).
  destruct pw; [by rewrite G|]. destruct (bracketed (c :: r)) as [[ds rest]|] eqn:B; [|by rewrite G].
  destruct (next_word rest) eqn:N; unfold next_word in N; rewrite N; [by rewrite G|]. f_equal.
  apply bracketed_spec in B as (pre & E & _). assert (L : (length rest < length (c :: r))%nat).
  { rewrite E. cbn. rewrite length_app. cbn. lia. }
  apply IH; cbn in L |- *; lia.
Qed.
Lemma P_plain pw c r : (pw = true \/ bracketed (c :: r) = None \/ exists ds rest, bracketed (c :: r) = Some (ds, rest) /\ next_word rest = true) ->
  P pw (c :: r) = Plain c :: P (word_at c) r.
Proof.
  unfold P. cbn [length pieces_go]. intros [->|[B|(ds & rest & B & N)]]; [done| |].
  - destruct pw; [done|]. by rewrite B.
  - destruct pw; [done|]. rewrite B. unfold next_word in N. by rewrite N.
Qed.
Lemma P_cited pre rest : pre <> [] -> Forall (fun c => is_Some (dv c)) pre -> next_word rest = false ->
  exists ds, take_digits (pre ++ "]" :: rest) = (ds, "]" :: rest) /\
    P false ("[" :: pre ++ "]" :: rest) = Cited ds ("[" :: pre ++ ["]"]) :: P false rest.
Proof.
  intros Hn Hp N. destruct (bracketed_mark pre rest Hn Hp) as (ds & B & T). exists ds. split; [done|].
  unfold P at 1. cbn [length pieces_go]. rewrite B. unfold next_word in N. rewrite N, ahead_mark. f_equal.
  apply go_fuel; [rewrite length_app; cbn|]; lia.
Qed.
Lemma P_cases pw c r :
  (exists pre rest ds, pw = false /\ c :: r = "[" :: pre ++ "]" :: rest /\ pre <> [] /\ Forall (fun c => is_Some (dv c)) pre /\
     next_word rest = false /\ P pw (c :: r) = Cited ds ("[" :: pre ++ ["]"]) :: P false rest) \/
  (P pw (c :: r) = Plain c :: P (word_at c) r /\
   (pw = true \/ bracketed (c :: r) = None \/ exists ds rest, bracketed (c :: r) = Some (ds, rest) /\ next_word rest = true)).
Proof.
  destruct pw; [right; split; [apply P_plain|]; by left|].
  destruct (bracketed (c :: r)) as [[ds rest]|] eqn:B; [|right; split; [apply P_plain|]; auto].
  destruct (next_word rest) eqn:N; [right; split; [apply P_plain|]; right; right; eauto|].
  left. apply bracketed_spec in B as (pre & -> & Hn & Hp & _). destruct (P_cited pre rest Hn Hp N) as (ds' & _ & HP).
  exists pre, rest, ds'. done.
Qed.

(** ** Replacing marks *)
Section Replace.
(** What each citation becomes. *)
Context (repl : list Z -> list string).
Context (repl_mark : forall ds, repl ds = [] \/ exists pre, repl ds = "[" :: pre ++ ["]"] /\ pre <> [] /\ Forall (fun c => is_Some (dv c)) pre).
Definition shown (p : piece) : list string := match p with Plain c => [c] | Cited ds _ => repl ds end.
Definition out (pw : bool) (cs : list string) : list string := List.concat (map shown (P pw cs)).
Lemma out_nonword cs : forall pw, next_word cs = false -> next_word (out pw cs) = false.
Proof using repl_mark.
  induction cs as [cs IH] using (induction_ltof1 _ (@length string)); unfold ltof in IH. intros pw N.
  destruct cs as [|c r]; [done|]. destruct (P_cases pw c r) as [(pre & rest & ds & _ & E & _ & _ & Nr & HP)|[HP _]].
  - unfold out. rewrite HP. cbn [map List.concat shown]. destruct (repl_mark ds) as [->|(m & -> & _)]; [|done]. cbn [app].
    apply IH; [|done]. rewrite E. cbn. rewrite length_app. cbn. lia.
  - unfold out. rewrite HP. done.
Qed.
Lemma out_digits pre r : Forall (fun c => is_Some (dv c)) pre -> forall pw,
  out pw (pre ++ r) = pre ++ out (match pre with [] => pw | _ => true end) r.
Proof using digits_are_words.
  induction 1 as [|c pre [d Hd] Hp IH]; intros pw; [done|]. cbn [app].
  assert (Hc : (c =? "[")%string = false) by (destruct (String.eqb_spec c "["); [by subst|done]).
  unfold out at 1. rewrite P_plain by (right; left; unfold bracketed; by rewrite Hc).
  cbn [map List.concat shown app]. fold (out (word_at c) (pre ++ r)). rewrite IH, (digit_word c d Hd). by destruct pre.
Qed.
Lemma no_digit_ahead r pw : match r with c :: _ => dv c = None | [] => True end -> match out pw r with c :: _ => dv c = None | [] => True end.
Proof using digits_are_words repl_mark.
  intros H. destruct r as [|c r]; [done|]. destruct (P_cases pw c r) as [(pre & rest & ds & _ & E & _ & _ & Nr & HP)|[HP _]].
  - unfold out. rewrite HP. cbn [map List.concat shown]. destruct (repl_mark ds) as [->|(m & -> & _)]; [|done]. cbn [app].
    pose proof (out_nonword rest false Nr) as N. fold (out false rest). destruct (out false rest) as [|x l]; [done|]. cbn in N.
    destruct (dv x) eqn:D; [|done]. apply digit_word in D. congruence.
  - unfold out. rewrite HP. done.
Qed.
(** A character that was no start of a mark is none after the replacement. *)
Lemma still_plain c r : (bracketed (c :: r) = None \/ exists ds rest, bracketed (c :: r) = Some (ds, rest) /\ next_word rest = true) ->
  bracketed (c :: out (word_at c) r) = None \/
  exists ds rest, bracketed (c :: out (word_at c) r) = Some (ds, rest) /\ next_word rest = true.
Proof using digits_are_words repl_mark.
  intros H. destruct (String.eqb_spec c "[") as [->|Hc].
  2:{ left. unfold bracketed. apply String.eqb_neq in Hc. by rewrite Hc. }
  change (word_at "[") with false. destruct (take_digits r) as [ds r'] eqn:T.
  pose proof (take_digits_spec _ _ _ T) as (pre & -> & Hl & Hp & Hr'). rewrite out_digits by done.
  pose proof (no_digit_ahead r' (match pre with [] => false | _ => true end) Hr') as Ho.
  destruct (take_digits_app pre _ Hp Ho) as (ds2 & T2 & Hl2). unfold bracketed at 1 2. rewrite String.eqb_refl, T2.
  destruct ds2 as [|d2 ds2]; [by left|]. destruct pre as [|p pre]; [done|]. cbn [out] in *.
  destruct r' as [|e r'']; [by left|]. assert (HP : P true (e :: r'') = Plain e :: P (word_at e) r'') by (apply P_plain; by left).
  unfold out. rewrite HP. cbn [map List.concat shown app]. fold (out (word_at e) r''). destruct (String.eqb_spec e "]") as [->|]; [|by left].
  right. eexists _, _. split; [done|]. change (word_at "]") with false.
  destruct H as [H|(ds' & rest & H & N)]; unfold bracketed in H; rewrite String.eqb_refl, T in H; (destruct ds as [|d ds]; [done|]); rewrite String.eqb_refl in H; [done|].
  injection H as <- <-. destruct r'' as [|x r'']; [done|]. cbn in N.
  assert (Hx : (x =? "[")%string = false) by (destruct (String.eqb_spec x "["); [by subst|done]).
  unfold out. rewrite P_plain by (right; left; unfold bracketed; by rewrite Hx). done.
Qed.
Definition cited_text (p : piece) : option (list string) := match p with Cited _ t => Some t | Plain _ => None end.
Definition kept_mark (ds : list Z) : option (list string) := match repl ds with [] => None | m => Some m end.
(** Scanning the repaired text finds the replaced marks and nothing else. *)
Lemma marks_after cs : forall pw, omap cited_text (P pw (out pw cs)) = omap kept_mark (omap cited (P pw cs)).
Proof using digits_are_words repl_mark.
  induction cs as [cs IH] using (induction_ltof1 _ (@length string)); unfold ltof in IH. intros pw.
  destruct cs as [|c r]; [done|]. destruct (P_cases pw c r) as [(pre & rest & ds & -> & E & _ & _ & Nr & HP)|[HP Hc]].
  - assert (L : (length rest < length (c :: r))%nat) by (rewrite E; cbn; rewrite length_app; cbn; lia).
    unfold out. rewrite HP. cbn [map List.concat shown omap list_omap cited]. fold (out false rest). unfold kept_mark at 1.
    destruct (repl_mark ds) as [->|(m & -> & Hm & Hd)]; [by apply IH|].
    cbn [app]. rewrite <- app_assoc. cbn [app]. destruct (P_cited m (out false rest) Hm Hd (out_nonword rest false Nr)) as (ds' & _ & ->).
    cbn [omap list_omap cited_text]. f_equal. by apply IH.
  - unfold out. rewrite HP. cbn [map List.concat shown app omap list_omap cited]. fold (out (word_at c) r). rewrite P_plain.
    + cbn [omap list_omap cited_text]. apply IH. cbn. lia.
    + destruct Hc as [->|Hc]; [by left|right]. by apply still_plain.
Qed.
End Replace.
End Marks.

(** ** Numbers as marks *)
Fixpoint explode (s : string) : list string := match s with EmptyString => [] | String c s => String c "" :: explode s end.
Lemma chars_ascii s : all_chars (fun c => negb (is_cont c)) s = true -> chars s = explode s.
Proof.
  intros H. unfold chars. enough (G : forall n, (String.length s <= n)%nat -> chars_go n s = explode s) by (by apply G).
  induction s as [|c s IH]; intros [|n] Hn; cbn in Hn; try done; try lia. cbn in H. apply andb_true_iff in H as [_ H].
  cbn [chars_go]. assert (E : conts s = ("", s)).
  { destruct s as [|b s]; [done|]. cbn in H |- *. by destruct (is_cont b). }
  rewrite E. cbn. f_equal. apply IH; [done|lia].
Qed.
Lemma explode_app a b : explode (a +++ b) = explode a ++ explode b.
Proof. induction a as [|c a IH]; cbn; [done|]. by rewrite IH. Qed.
Lemma str_of_nonneg z : 0 <= z -> all_chars is_digit (str_of_Z z) = true /\ str_of_Z z <> "".
Proof.
  intros Hz. split.
  - unfold str_of_Z. destruct z as [|p|p]; [done| |lia]. cbn. pose proof (uint_digits (Pos.to_uint p)) as U. by destruct (Pos.to_uint p).
  - destruct (str_of_Z_shape z) as (c & t & _ & [-> | ->]); done.
Qed.
Lemma digit_not_cont s : all_chars is_digit s = true -> all_chars (fun c => negb (is_cont c)) s = true.
Proof.
  induction s as [|c s IH]; [done|]. cbn. intros [Hc Hs]%andb_true_iff. rewrite (IH Hs), andb_true_r.
  unfold is_digit, in_range, is_cont in *. destruct (byte_of c <=? 57) eqn:A; [|by rewrite andb_false_r in Hc].
  apply Z.leb_le in A. destruct (Z.leb_spec 128 (byte_of c)); [lia|done].
Qed.
Lemma mark_chars wide_digit z : 0 <= z -> exists pre, chars (mark z) = "[" :: pre ++ ["]"] /\ pre <> [] /\
  Forall (fun c => is_Some (decimal_value wide_digit c)) pre.
Proof.
  intros Hz. destruct (str_of_nonneg z Hz) as [Hd Hn]. exists (explode (str_of_Z z)). split_and!.
  - unfold mark. rewrite chars_ascii; [by rewrite !explode_app|]. rewrite !all_chars_app, (digit_not_cont _ Hd). done.
  - by destruct (str_of_Z z).
  - clear Hn. revert Hd. generalize (str_of_Z z). intros s. induction s as [|c s IH]; [constructor|].
    cbn. intros [Hc Hs]%andb_true_iff. constructor; [|by apply IH]. cbn. rewrite Hc. by eexists.
Qed.

(** ** The renumbering *)
Lemma map_fst_combine {A B} (l : list A) (m : list B) : length l = length m -> map fst (combine l m) = l /\ map snd (combine l m) = m.
Proof.
  revert m. induction l as [|x l IH]; intros [|y m]; cbn; try done. intros [= H]. destruct (IH m H) as [-> ->]. done.
Qed.
Lemma renumber_map_spec vs : NoDup vs ->
  StronglySorted Z.lt (map fst (renumber_map vs)) /\ map fst (renumber_map vs) ≡ₚ vs /\
  map snd (renumber_map vs) = range 1 (size vs + 1).
Proof.
  intros Hn. unfold renumber_map. pose proof (stable_sort_perm Z.leb vs) as Pm.
  assert (L : length (stable_sort Z.leb vs) = length (range 1 (size (stable_sort Z.leb vs) + 1))).
  { unfold range. rewrite length_map, length_seq. unfold size. lia. }
  destruct (map_fst_combine _ _ L) as [-> ->]. split_and!; [by apply sort_strict|done|]. do 2 f_equal. unfold size. by rewrite Pm.
Qed.
Lemma zlookup_range n m k a b : map snd m = range a b -> zlookup n m = Some k -> a <= k < b.
Proof.
  intros E H. apply range_in. rewrite <- E. clear E. induction m as [|[x y] m IH]; [done|]. cbn in H |- *.
  destruct (x =? n); [injection H as <-; by left|right; by apply IH].
Qed.

Section Renumber.
Context (wide_digit : string -> option Z) (wide_word : string -> bool).
Context (digits_are_words : forall c d, wide_digit c = Some d -> wide_word c = true).
Abbreviation scan := (_INLINE_CITATION_RE wide_digit wide_word).
(** The marks of a text, as they are written. *)
Definition marks (cs : list string) : list (list string) := omap cited_text (scan cs).
Definition replacement (m : list (Z * Z)) (ds : list Z) : list string :=
  match number ds with Ok old => match zlookup old m with Some new => chars (mark new) | None => [] end | Raise _ => [] end.
Lemma replaced_out m ps : forall l, mapM_r (replace_inline m) ps = Ok l ->
  l = map (shown (replacement m)) ps.
Proof.
  induction ps as [|p ps IH]; intros l; cbn; [by intros [= <-]|]. intros H.
  apply bind_ok in H as (x & Hx & H). apply bind_ok in H as (l' & Hl & [= <-]). rewrite (IH _ Hl). f_equal.
  destruct p as [c|ds t]; cbn in Hx |- *; [by injection Hx as <-|]. apply bind_ok in Hx as (n & Hn & [= <-]). unfold replacement. by rewrite Hn.
Qed.
Lemma renumbered_marks vs body body' ns : inline_numbers wide_digit wide_word body = Ok ns ->
  renumber_body wide_digit wide_word (renumber_map vs) body = Ok body' ->
  NoDup vs -> marks body' = map (fun k => chars (mark k)) (omap (fun n => zlookup n (renumber_map vs)) ns).
Proof using digits_are_words.
  intros Hns Hb Hv. set (m := renumber_map vs) in *. destruct (renumber_map_spec vs Hv) as (_ & _ & Hsnd). fold m in Hsnd.
  assert (Hmark : forall ds, replacement m ds = [] \/ exists pre, replacement m ds = "[" :: pre ++ ["]"] /\ pre <> [] /\
            Forall (fun c => is_Some (decimal_value wide_digit c)) pre).
  { intros ds. unfold replacement. destruct (number ds) as [old|]; [|by left]. destruct (zlookup old m) as [new|] eqn:E; [|by left].
    right. apply mark_chars. pose proof (zlookup_range _ _ _ _ _ Hsnd E). lia. }
  unfold renumber_body in Hb. apply bind_ok in Hb as (l & Hl & [= <-]). rewrite (replaced_out _ _ _ Hl).
  change (omap cited_text (P wide_digit wide_word false (out wide_digit wide_word (replacement m) false body)) =
          map (fun k => chars (mark k)) (omap (fun n => zlookup n m) ns)).
  rewrite (marks_after wide_digit wide_word digits_are_words _ Hmark).
  unfold inline_numbers, _INLINE_CITATION_RE in Hns. fold (P wide_digit wide_word false body) in Hns.
  revert ns Hns. generalize (omap cited (P wide_digit wide_word false body)). intros dss.
  induction dss as [|ds dss IH]; intros ns H; cbn in H |- *; [by injection H as <-|].
  apply bind_ok in H as (n & Hn & H). apply bind_ok in H as (ns' & Hns & [= <-]). cbn [omap list_omap].
  assert (K : kept_mark (replacement m) ds = option_map (fun k => chars (mark k)) (zlookup n m)).
  { unfold kept_mark, replacement. rewrite Hn. destruct (zlookup n m) as [new|] eqn:E; [|done].
    destruct (mark_chars wide_digit new) as (pre & Hpre & _); [pose proof (zlookup_range _ _ _ _ _ Hsnd E); lia|]. cbn [option_map]. by rewrite Hpre. }
  rewrite K, (IH ns' Hns). by destruct (zlookup n m).
Qed.
End Renumber.

(** ** What the ledger and the safety checks say *)
(** A list in JSON is never read as an object, so the ledger is read with one
    level of recursion whatever the fuel. *)
Lemma list_text l : exists t, strip (dumps (VList l)) = String "[" t.
Proof.
  assert (exists t, dumps (VList l) = String "[" t) as [t ->].
  { unfold dumps, dumps_with. cbn [dumps_at]. unfold bracket. destruct (map _ l); cbn; by eexists. }
  unfold strip. rewrite lstrip_graph by done. rewrite rstrip_cons. unfold is_blank. rewrite lstrip_graph by done. by eexists.
Qed.
Lemma loads_bracket t v : loads (String "[" t) = Ok v -> is_list v = true.
Proof.
  unfold loads, loads_with. change (skip_ws (String "[" t)) with (String "[" t). intros H.
  destruct (p_value Json.plain _ _) as [[x r]|] eqn:Hp; [|done]. destruct (_ =? _)%string; [|done]. injection H as ->.
  replace (parse_fuel (String "[" t)) with (S (2 * String.length (String "[" t) + 1)) in Hp by (unfold parse_fuel; lia).
  cbn [p_value] in Hp. change (Ascii.eqb "[" dq) with false in Hp. change (Ascii.eqb "[" "[") with true in Hp. cbv iota in Hp.
  destruct (skip_ws t) as [|d r']; [done|]. destruct (Ascii.eqb d "]"); [by injection Hp as <- <-|].
  destruct (p_items _ _ _) as [[l r2]|]; [|done]. by injection Hp as <- <-.
Qed.
Lemma ledger_depth n s : parse_ledger (S n) s = _parse_source_urls s.
Proof.
  unfold _parse_source_urls. cbn [parse_ledger]. destruct (is_blank s); [done|]. destruct (loads (strip s)) as [v|]; [|done].
  destruct v as [| | | | | |d]; try done. destruct (first_list _ d) as [l|]; [|done].
  assert (G : forall m, parse_ledger m (dumps (VList l)) = parse_ledger 0 (dumps (VList l))); [|by rewrite G].
  intros [|m]; [done|]. cbn [parse_ledger]. destruct (is_blank _); [done|]. destruct (list_text l) as [t ->].
  destruct (loads (String "[" t)) as [v|] eqn:E; [|done]. apply loads_bracket in E. by destruct v.
Qed.

(** ** What the loop accepts *)
Section Entries.
Context (lg : ledger) (citations : list citation) (safety : list (string * (bool * option string))).
(** A citation that passed every check. *)
Definition accepted (c : citation) (nu : Z * string) : Prop :=
  ct_number c = fst nu /\ number_count citations (fst nu) = 1%nat /\ head (ct_urls c) = Some (snd nu) /\
  (exists reason, lookup_url (snd nu) safety = Ok (true, reason)) /\
  (l_given lg = true -> _normalize_audit_url (snd nu) ∈ l_norms lg).
Record audit_inv (seen_so_far : list citation) (st : audit_state) : Prop := {
  ai_sound : forall nu, nu ∈ s_valid st -> exists c, c ∈ seen_so_far /\ accepted c nu;
  ai_numbers : NoDup (map fst (s_valid st));
  ai_seen : s_seen st = map (fun nu => (_normalize_audit_url (snd nu), fst nu)) (s_valid st);
  ai_urls : NoDup (map fst (s_seen st));
  ai_complete : s_invalid st = [] -> forall c, c ∈ seen_so_far -> ct_number c ∈ map fst (s_valid st) }.
Lemma number_count_two a c b n : citations = a ++ c :: b -> ct_number c = n -> number_count citations n = 1%nat ->
  forall c', c' ∈ a -> ct_number c' <> n.
Proof.
  intros -> Hc Hn c' Hc' E. unfold number_count in Hn. rewrite List.filter_app, length_app in Hn. cbn in Hn.
  rewrite Hc, Z.eqb_refl in Hn. cbn in Hn. apply list_elem_of_In in Hc'.
  assert (H : In c' (List.filter (fun c => ct_number c =? n) a)) by (apply List.filter_In; split; [done|by apply Z.eqb_eq]).
  destruct (List.filter _ a); cbn in *; [done|lia].
Qed.
Lemma seen_number_none u l : seen_number u l = None -> u ∉ map fst l.
Proof.
  induction l as [|[v n] l IH]; cbn; [by intros _ ?%elem_of_nil|]. destruct (String.eqb_spec v u) as [->|Hne]; [done|].
  intros H [->|Hin]%elem_of_cons; [done|by apply IH].
Qed.
Lemma reject_inv a c st d : audit_inv a st -> audit_inv (a ++ [c]) (reject st d).
Proof.
  intros [H1 H2 H3 H4 H5]. constructor; cbn; [|done..|].
  - intros nu Hnu. destruct (H1 nu Hnu) as (c' & Hc & Ha). exists c'. split; [set_solver|done].
  - intros E. by destruct (s_invalid st).
Qed.
Lemma warn_inv a st w : audit_inv a st -> audit_inv a (warn st w).
Proof. intros [H1 H2 H3 H4 H5]. by constructor. Qed.
Lemma entry_inv a c b st st' : citations = a ++ c :: b -> audit_inv a st -> audit_entry lg citations safety st c = Ok st' ->
  audit_inv (a ++ [c]) st'.
Proof.
  intros Hs Hi H. unfold audit_entry in H. destruct (Nat.ltb_spec 1 (number_count citations (ct_number c))) as [|Hcount];
    [injection H as <-; by apply reject_inv|].
  destruct (ct_urls c) as [|url urls] eqn:Hu; [injection H as <-; by apply reject_inv|].
  apply bind_ok in H as ([safe reason] & Hl & H). destruct safe; cbn [negb] in H; [|injection H as <-; by apply reject_inv].
  set (st1 := match reason with Some r => _ | None => st end) in *. assert (Hi1 : audit_inv a st1) by (by destruct reason; [apply warn_inv|]).
  destruct (l_given lg && _) eqn:Hg; [injection H as <-; by apply reject_inv|].
  destruct (seen_number _ _) eqn:Hn; [injection H as <-; by apply reject_inv|]. injection H as <-.
  assert (Hone : number_count citations (ct_number c) = 1%nat).
  { apply Nat.le_antisymm; [done|]. unfold number_count. rewrite Hs, List.filter_app, length_app. cbn. rewrite Z.eqb_refl. cbn. lia. }
  apply seen_number_none in Hn. destruct Hi1 as [H1 H2 H3 H4 H5]. constructor; cbn.
  - intros nu [Hnu|Hnu]%elem_of_app.
    + destruct (H1 nu Hnu) as (c' & Hc & Ha). exists c'. split; [set_solver|done].
    + apply list_elem_of_singleton in Hnu as ->. exists c. split; [set_solver|]. split_and!; cbn; try done; [by rewrite Hu|by eexists|].
      intros G. rewrite G in Hg. cbn in Hg. apply negb_false_iff in Hg. by apply in_list.
  - rewrite map_app. cbn. apply NoDup_app. split_and!; [done| |apply NoDup_singleton]. intros n Hn1 Hn2.
    apply list_elem_of_singleton in Hn2 as ->. apply list_elem_of_fmap in Hn1 as (nu & Hnu & Hin). destruct (H1 nu Hin) as (c' & Hc' & E & _).
    exact (number_count_two a c b _ Hs eq_refl Hone c' Hc' (eq_trans E (eq_sym Hnu))).
  - by rewrite map_app, H3.
  - rewrite map_app. cbn. apply NoDup_app. split_and!; [done| |apply NoDup_singleton]. intros u Hu1 Hu2.
    apply list_elem_of_singleton in Hu2 as ->. done.
  - intros Hv c' [Hc'|Hc']%elem_of_app; rewrite map_app; cbn; [specialize (H5 Hv c' Hc')|]; set_solver.
Qed.
Lemma entries_inv l : forall a st st', citations = a ++ l -> audit_inv a st -> audit_entries lg citations safety st l = Ok st' ->
  audit_inv citations st'.
Proof.
  induction l as [|c l IH]; intros a st st' Hs Hi H; cbn in H; [injection H as <-; by rewrite Hs, app_nil_r|].
  apply bind_ok in H as (st1 & H1 & H). eapply (IH (a ++ [c])); [by rewrite Hs, <- app_assoc|by eapply entry_inv|done].
Qed.
Lemma entries_invalid l : forall st st', audit_entries lg citations safety st l = Ok st' -> exists more, s_invalid st' = s_invalid st ++ more.
Proof.
  induction l as [|c l IH]; intros st st' H; cbn in H; [injection H as <-; exists []; by rewrite app_nil_r|].
  apply bind_ok in H as (st1 & H1 & H). destruct (IH _ _ H) as [more ->].
  assert (exists d, s_invalid st1 = s_invalid st ++ d) as [d ->]; [|exists (d ++ more); by rewrite app_assoc].
  unfold audit_entry in H1. case_hyp H1; [injection H1 as <-; by eexists|]. destruct (ct_urls c); [injection H1 as <-; by eexists|].
  apply bind_ok in H1 as ([safe reason] & _ & H1). destruct safe; cbn [negb] in H1; [|injection H1 as <-; by eexists].
  destruct (l_given lg && _); [injection H1 as <-; destruct reason; by eexists|].
  destruct (seen_number _ _); injection H1 as <-; destruct reason; cbn; first [by eexists | by exists []; rewrite app_nil_r].
Qed.
End Entries.

(** ** The audit as a whole *)
Section Whole.
Context (wide_digit : string -> option Z) (wide_word : string -> bool) (net : network).
Context (digits_are_words : forall c d, wide_digit c = Some d -> wide_word c = true).
Lemma safety_lookup urls : forall w safety w' u x, _audit_url_safety net urls w = (Ok safety, w') -> lookup_url u safety = Ok x ->
  exists w1 w2, _safe_audit_url net u w1 = (Ok x, w2).
Proof.
  unfold _audit_url_safety. induction (distinct [] urls) as [|v l IH]; intros w safety w' u x H Hu; cbn in H; [by injection H as <- _|].
  apply bind_Ok in H as (ur & w1 & H1 & H). apply bind_Ok in H as (rest & w2 & H2 & H). injection H as <- _.
  apply bind_Ok in H1 as (r & w3 & H1 & H3). injection H3 as <- _. cbn in Hu. destruct (String.eqb_spec v u) as [->|]; [|by eapply IH].
  injection Hu as <-. by eexists _, _.
Qed.
(** A safe URL: its host is no placeholder, and either every address of it is
    public or the name had no answer. *)
Lemma safe_means u w reason w' : _safe_audit_url net u w = (Ok (true, reason), w') ->
  (exists p, urlsplit (strip u) = Ok p /\ is_in (lower (default "" (hostname p))) _PLACEHOLDER_HOSTS = false) /\
  ((reason = None /\ validate_public_url net u _ALLOWED_SCHEMES w = (Ok u, w')) \/
   (reason = Some "unresolved_host" /\ exists e, validate_public_url net u _ALLOWED_SCHEMES w = (Raise e, w') /\
      exn_isa (exn_cls e) UnresolvableHostError = true)).
Proof.
  unfold _safe_audit_url. intros [([safe r] & E & [= <- <-])|(e & w1 & E & [[_ H]|(_ & [=] & _)])]%catch_inv.
  - apply bind_Ok in E as (p & w2 & [= Hp <-] & E). destruct (is_in _ _) eqn:Hh; [done|]. split; [by exists p|]. left.
    apply bind_Ok in E as (v & w3 & Hv & [= <- <-]). split; [done|]. rewrite Hv. f_equal.
    unfold validate_public_url in Hv. apply bind_Ok in Hv as (? & ? & _ & Hv). by apply bind_Ok in Hv as (? & ? & _ & [= <- _]).
  - destruct (exn_isa (exn_cls e) UnresolvableHostError) eqn:Hu; [|done]. injection H as <- <-.
    apply bind_Raise in E as [[= Hp _]|(p & w2 & [= Hp <-] & E)].
    + apply urlsplit_raises in Hp. rewrite Hp in Hu. done.
    + destruct (is_in _ _) eqn:Hh; [done|]. split; [by exists p|]. right. split; [done|]. exists e. split; [|done].
      by apply bind_Raise in E as [E|(v & w3 & _ & [=])].
Qed.
Lemma sorted_set_nil l : sorted_set l = [] -> l = [].
Proof.
  unfold sorted_set. intros H. assert (E : dedupe_numbers l = []).
  { pose proof (stable_sort_perm Z.leb (dedupe_numbers l)) as Pm. rewrite H in Pm. by apply Permutation_nil in Pm. }
  clear H. induction l as [|x l IH]; [done|]. cbn in E. destruct (mem x l) eqn:M; [|done]. rewrite (IH E) in M. done.
Qed.
Lemma without_nil l m : without l m = [] -> forall x, x ∈ l -> x ∈ m.
Proof.
  unfold without. intros H x Hx. destruct (mem x m) eqn:E; [by apply mem_in|exfalso]. apply list_elem_of_In in Hx.
  assert (Hf : In x (List.filter (fun x => negb (mem x m)) l)) by (apply List.filter_In; by rewrite E). by rewrite H in Hf.
Qed.
Lemma close_spec lg st body lines required o : close_report wide_digit wide_word lg st body lines required = Ok o ->
  exists ns body' refs, inline_numbers wide_digit wide_word body = Ok ns /\ r_valid o = s_valid st /\
    (r_passed o = true -> s_invalid st = [] /\ (forall n, n ∈ ns -> n ∈ map fst (s_valid st)) /\ (required = true -> s_valid st <> [])) /\
    r_map o = Some (renumber_map (map fst (s_valid st))) /\
    renumber_body wide_digit wide_word (renumber_map (map fst (s_valid st))) body = Ok body' /\
    renumber_lines wide_digit (renumber_map (map fst (s_valid st))) lines = Ok refs /\
    r_markdown o = (let repaired := rstrip (text_of body') in let refs := strip (join NL refs) in
                    if (refs =? "")%string then repaired else strip (repaired +++ NL +++ NL +++ refs)).
Proof.
  unfold close_report. intros H. apply bind_ok in H as (ns & Hns & H).
  set (orphaned := sorted_set (without ns _)) in *. set (uncited := sorted_set (without (map fst (s_valid st)) ns)) in *.
  unfold _renumber_markdown_citations in H. apply bind_ok in H as ([[rb rr] m] & Hr & [= <-]).
  apply bind_ok in Hr as (body' & Hb & Hr). apply bind_ok in Hr as (refs & Hl & [= <- <- <-]).
  exists ns, body', refs. split_and!; try done; [by destruct orphaned, uncited, (required && _)|].
  unfold r_passed. cbn [r_invalid]. destruct orphaned as [|x orphaned'] eqn:Eo.
  - assert (Hall : forall n, n ∈ ns -> n ∈ map fst (s_valid st)) by (apply without_nil, sorted_set_nil; exact Eo).
    intros Hi. clearbody uncited. clear -Hi Hall. destruct st as [inv ws va se]. destruct required, va, uncited, inv; cbn in *; try done; split_and!; try done.
  - intros Hi. exfalso. clearbody uncited. clear -Hi. destruct st as [inv ws va se]. destruct uncited, (required && _), inv; cbn in *; done.
Qed.
Lemma audit_parts answer source_urls_json require_references w o w' body section cs :
  audit_answer wide_digit wide_word net answer source_urls_json require_references w = (Ok o, w') ->
  split_section true (chars answer) = Some (body, section) ->
  citations_of wide_digit (splitlines (text_of section)) = Ok cs ->
  exists safety w2 st, _audit_url_safety net (single_urls cs) w = (Ok safety, w2) /\
    audit_inv (ledger_of source_urls_json) cs safety cs st /\
    close_report wide_digit wide_word (ledger_of source_urls_json) st body (splitlines (text_of section)) require_references = Ok o.
Proof.
  unfold audit_answer. intros H Hsec Hcs. rewrite Hsec in H. set (lg := ledger_of source_urls_json) in *.
  set (st0 := if l_malformed lg then _ else _) in *.
  apply bind_Ok in H as (cs' & w1 & [= Hcs' <-] & H). rewrite Hcs in Hcs'. injection Hcs' as <-.
  apply bind_Ok in H as (safety & w2 & Hs & H). apply bind_Ok in H as (st & w3 & [= Hst <-] & H). injection H as Hc _.
  assert (I : audit_inv lg cs safety cs st).
  { apply (entries_inv lg cs safety cs [] st0); [done| |done]. unfold st0.
    destruct (l_malformed lg); constructor; cbn;
      first [done | apply NoDup_nil_2 | by intros ? ?%elem_of_nil | by intros _ ? ?%elem_of_nil]. }
  by exists safety, w2, st.
Qed.
(** C14: what the audit of an answer with a reference section accepts.  Each
    accepted reference is an entry whose number occurs once and whose first URL
    passed the safety check (no placeholder, nothing that resolves to a
    non-public address) and is in the ledger of observed sources if one was
    given; numbers and URLs are distinct.  An audit passes only if every entry
    was accepted and every inline citation points to one. *)
Theorem audit_accepts_checked answer source_urls_json require_references w o w' body section cs :
  audit_answer wide_digit wide_word net answer source_urls_json require_references w = (Ok o, w') ->
  split_section true (chars answer) = Some (body, section) ->
  citations_of wide_digit (splitlines (text_of section)) = Ok cs ->
  (forall nu, nu ∈ r_valid o -> exists c, c ∈ cs /\ ct_number c = fst nu /\ number_count cs (fst nu) = 1%nat /\
     head (ct_urls c) = Some (snd nu) /\ (exists reason w1 w2, _safe_audit_url net (snd nu) w1 = (Ok (true, reason), w2)) /\
     (is_blank source_urls_json = false -> _normalize_audit_url (snd nu) ∈ map _normalize_audit_url (_parse_source_urls source_urls_json))) /\
  NoDup (map fst (r_valid o)) /\ NoDup (map (fun nu => _normalize_audit_url (snd nu)) (r_valid o)) /\
  (r_passed o = true ->
     (forall c, c ∈ cs -> ct_number c ∈ map fst (r_valid o)) /\
     (forall ns, inline_numbers wide_digit wide_word body = Ok ns -> forall n, n ∈ ns -> n ∈ map fst (r_valid o)) /\
     (require_references = true -> r_valid o <> [])).
Proof.
  intros H Hsec Hcs. destruct (audit_parts _ _ _ _ _ _ _ _ _ H Hsec Hcs) as (safety & w2 & st & Hs & I & Hc).
  destruct I as [I1 I2 I3 I4 I5]. destruct (close_spec _ _ _ _ _ _ Hc) as (ns & body' & refs & Hns & Hv & Hp & _).
  rewrite Hv. split_and!; [|done| |].
  - intros nu Hnu. destruct (I1 nu Hnu) as (c & Hc' & A1 & A2 & A3 & [reason A4] & A5). exists c. split_and!; try done.
    + destruct (safety_lookup _ _ _ _ _ _ Hs A4) as (v1 & v2 & A). by exists reason, v1, v2.
    + intros Hb. specialize (A5 ltac:(cbn; by rewrite Hb)). cbn in A5. destruct (_ && _); [by apply elem_of_nil in A5|done].
  - rewrite I3, map_map in I4. exact I4.
  - intros Hpass. destruct (Hp Hpass) as (P1 & P2 & P3). split_and!; [by apply I5| |done].
    intros ns' Hns'. rewrite Hns in Hns'. by injection Hns' as <-.
Qed.
(** C24: the repair of an answer with a reference section.  The accepted numbers
    are mapped in increasing order onto 1, 2, ..., k; the repaired body has
    exactly the inline citations of the original that were accepted, in their
    order and under their new numbers, however marks were nested or adjacent
    before; the reference lines follow, those that were not accepted left out. *)
Theorem repair_renumbers answer source_urls_json require_references w o w' body section :
  audit_answer wide_digit wide_word net answer source_urls_json require_references w = (Ok o, w') ->
  split_section true (chars answer) = Some (body, section) ->
  exists m ns body' refs, r_map o = Some m /\ inline_numbers wide_digit wide_word body = Ok ns /\
    StronglySorted Z.lt (map fst m) /\ map fst m ≡ₚ map fst (r_valid o) /\ map snd m = range 1 (size (map fst (r_valid o)) + 1) /\
    marks wide_digit wide_word body' = map (fun k => chars (mark k)) (omap (fun n => zlookup n m) ns) /\
    renumber_lines wide_digit m (splitlines (text_of section)) = Ok refs /\
    r_markdown o = (let repaired := rstrip (text_of body') in let refs := strip (join NL refs) in
                    if (refs =? "")%string then repaired else strip (repaired +++ NL +++ NL +++ refs)).
Proof using digits_are_words.
  intros H Hsec. destruct (citations_of wide_digit (splitlines (text_of section))) as [cs|e] eqn:Hcs.
  2:{ exfalso. unfold audit_answer in H. rewrite Hsec, Hcs in H. done. }
  destruct (audit_parts _ _ _ _ _ _ _ _ _ H Hsec Hcs) as (safety & w2 & st & _ & [_ Hn _ _ _] & Hc).
  destruct (close_spec _ _ _ _ _ _ Hc) as (ns & body' & refs & Hns & Hv & _ & Hm & Hb & Hl & Ht).
  rewrite <- Hv in Hn, Hm, Hb, Hl. destruct (renumber_map_spec _ Hn) as (R1 & R2 & R3).
  exists (renumber_map (map fst (r_valid o))), ns, body', refs. split_and!; try done.
  eapply renumbered_marks; eauto.
Qed.
End Whole.
