(* ===== verification/SourcePlan.v ===== *)
(** * Source planning ([source_verifier/source_verifier_function.py])

    The source registry, the selection and exclusion of sources, and
    [plan_sources]: which sources are recommended, in which order and with
    which tools.  [str.title] is a parameter. *)
From Stdlib Require Import Sorting.Sorted.
From S2P Require Import Prelude PyStr PyFloat PyVal Json JsonRoundtrip Redis PyUrl Dedupe PromptText Identity.
From S2P Require Import Markdown PyNet SafeHttp Compaction Citations.
#[local] Open Scope Z_scope.

(** ** The registry *)
Definition registered (id name description : string) (tools : list string) (default_enabled requires_auth : bool) : dict :=
  [("id", VStr id); ("name", VStr name); ("description", VStr description); ("tools", VList (map VStr tools));
   ("default_enabled", VBool default_enabled); ("requires_auth", VBool requires_auth)].
Definition _default_source_registry : list dict := [
  registered "curated_domains" "Curated Knowledge Domains" "Milvus-backed curated corpora for established reference questions."
    ["domain_retriever_tool"] true false;
  registered "curated_feeds" "Curated Recent Feeds" "Trusted RSS feeds for current source-specific updates and announcements."
    ["curated_feed_search_tool"] true false;
  registered "perplexity_search" "Internet Search (Perplexity)" "Perplexity Search API ranked web results with snippets, publication dates, and freshness metadata."
    ["perplexity_search_tool"] true false;
  registered "known_url_scrape" "Known URL Scrape" "Fetch an observed URL or official structured US weather data."
    ["webscrape_tool"; "nws_weather_tool"] true false;
  registered "uploaded_documents" "Uploaded Documents" "Authenticated user's uploaded documents and shared upload collections."
    ["user_document_tool"] false true;
  registered "workspace_data" "Workspace Data" "Authenticated user's Gmail, Calendar, and Docs data."
    ["gmail_mcp_server"; "calendar_mcp_server"; "docs_mcp_server"] false true;
  registered "nvidia_docs" "Official NVIDIA Docs" "Official NVIDIA product documentation via one routed docs search."
    ["nvidia_docs_tool"] true false;
  registered "x_mcp" "X AI MCP" "Read-only social signals and updates."
    ["x_mcp_server"] true false;
  registered "cluster_state" "Live Kubernetes State" "Current cluster resources and workload evidence."
    ["k8s_mcp_server"] false true;
  registered "network_state" "Live UniFi State" "Current network inventory, device state, and statistics."
    ["unifi_mcp_server"] false true;
  registered "repository_data" "GitHub Repository Evidence" "Read-only source, commits, releases, issues, and pull requests."
    ["github_mcp_server"] false true;
  registered "fantasy_data" "ESPN Fantasy Evidence" "Read-only league, roster, draft, and player data."
    ["espn_mcp_server"] false true].
Record source_entry := SourceEntry {
  e_id : string; e_name : string; e_description : string; e_tools : list string;
  e_default_enabled : bool; e_requires_auth : bool }.
Definition _source_entry_value (entry : dict) (key : string) (default : value) : value :=
  match dget_or key default entry with VNone => default | v => v end.
Definition nonblank (s : string) : bool := negb (s =? "")%string.
Definition tool_names (v : value) : list string :=
  match v with
  | VStr s => List.filter nonblank (map strip (split_char "," s))
  | VList l => List.filter nonblank (map (fun x => strip (py_str x)) l)
  | _ => []
  end.
Definition _normalize_source_entry (title : string -> string) (entry : dict) : source_entry :=
  let source_id := lower (strip (py_str (_source_entry_value entry "id" (VStr "")))) in
  SourceEntry source_id
    (strip (py_str (_source_entry_value entry "name" (VStr (title (replace "_" " " source_id))))))
    (strip (py_str (_source_entry_value entry "description" (VStr ""))))
    (tool_names (_source_entry_value entry "tools" (VList [])))
    (truthy (_source_entry_value entry "default_enabled" (VBool true)))
    (truthy (_source_entry_value entry "requires_auth" (VBool false))).

(** ** Source ids of a request *)
Definition split_lines_or_commas (text : string) : list string := flat_map (split_char ",") (split_char (chr 10) text).
Definition id_values (parsed : value) : list value :=
  match parsed with
  | VDict d =>
      match first_list ["sources"; "source_ids"; "selected_sources"; "disabled_sources"] d with
      | Some l => l
      | None => [dget_or "id" (VStr "") d]
      end
  | VList l => l
  | v => [v]
  end.
Definition sorted_texts (l : list string) : list string := stable_sort str_leb (distinct [] l).
(** [None] when the caller left the value out; otherwise the sorted set. *)
Definition _parse_source_ids (raw : string) : option (list string) :=
  if is_blank raw then None else
  let text := strip raw in
  let parsed := match loads text with Ok v => v | Raise _ => VList (map VStr (split_lines_or_commas text)) end in
  Some (sorted_texts (map lower (List.filter nonblank (map (fun v => strip (py_str v)) (id_values parsed))))).

(** ** What a question asks for *)
Definition any_of (tokens : list string) (q : string) : bool := existsb (contains q) tokens.
Record question_flags := QuestionFlags {
  f_has_url : bool; f_current : bool; f_broad : bool; f_docs : bool; f_uploaded : bool; f_workspace : bool; f_news_or_cards : bool }.
Definition _question_flags (question : string) : question_flags :=
  let q := lower question in
  QuestionFlags (match _extract_urls question with [] => false | _ => true end)
    (any_of ["latest"; "current"; "today"; "this week"; "recent"; "news"; "released"; "version"] q)
    (any_of ["comprehensive"; "deep research"; "report"; "roadmap"; "strategy"; "survey"; "compare across"; "market"; "landscape"] q)
    (any_of ["nvidia docs"; "api"; "configuration"; "deployment"; "troubleshoot"; "dynamo"; "openshell"; "aiperf"; "nvcf"; "dsx"] q)
    (any_of ["uploaded"; "my document"; "my pdf"; "the pdf"; "documentref"] q)
    (any_of ["my email"; "gmail"; "inbox"; "my calendar"; "schedule"; "free time"; "google doc"] q)
    (any_of ["news"; "image"; "shopping"; "google"] q).
Definition when_list {A} (b : bool) (l : list A) : list A := if b then l else [].
Definition LIVE_SOURCES : list (string * list string) :=
  [("cluster_state", ["cluster"; "kubernetes"; "k8s"; "pods"]); ("network_state", ["unifi"; "home network"]);
   ("repository_data", ["github"; "repository"; "gitops"]); ("fantasy_data", ["fantasy"; "roster"; "waivers"])].
Definition _preferred_source_ids (question depth : string) : list string :=
  let flags := _question_flags question in
  let q := lower question in
  distinct []
    (when_list (f_uploaded flags) ["uploaded_documents"] ++ when_list (f_workspace flags) ["workspace_data"] ++
     map fst (List.filter (fun sa => any_of (snd sa) q) LIVE_SOURCES) ++
     when_list (f_docs flags) ["nvidia_docs"] ++ when_list (f_has_url flags) ["known_url_scrape"] ++
     when_list (f_current flags) ["curated_feeds"; "perplexity_search"] ++
     when_list (f_broad flags || (depth =? "deep")%string) ["curated_domains"; "perplexity_search"] ++
     when_list (f_news_or_cards flags) ["perplexity_search"] ++ ["curated_domains"; "perplexity_search"]).
Definition DEEP_REASON : string :=
  " Deep research should pair internet search with independent curated or known-URL sources when available.".
Definition CURRENT_REASON : string := " Pair with a current source before making latest/current claims.".
Definition base_reason (source_id : string) : string :=
  match List.find (fun kv => (fst kv =? source_id)%string)
    [("curated_domains", "Use curated corpora for stable background and primary reference passages.");
     ("curated_feeds", "Use recent trusted feeds for current announcements or latest-source checks.");
     ("perplexity_search", "Use Perplexity internet search for ranked web sources, snippets, publication dates, and freshness metadata.");
     ("known_url_scrape", "Fetch observed URLs; use structured NWS data for US weather coordinates.");
     ("uploaded_documents", "Use when the question is about authenticated uploaded documents.");
     ("workspace_data", "Use when the question is about authenticated Google Workspace data.");
     ("nvidia_docs", "Route official NVIDIA product documentation questions to the docs specialist.")] with
  | Some kv => snd kv
  | None => "Use this selected source when it matches the user's constraints."
  end.
Definition _source_reason (source_id question depth : string) : string :=
  let reason := base_reason source_id in
  let reason := if (depth =? "deep")%string && (source_id =? "perplexity_search")%string then reason +++ DEEP_REASON else reason in
  if f_current (_question_flags question) && (source_id =? "curated_domains")%string then reason +++ CURRENT_REASON else reason.
(** The first of the alternatives one of whose words occurs. *)
Definition first_alias (l : list (string * list string)) (q : string) : option string :=
  fst <$> List.find (fun ka => any_of (snd ka) q) l.
Definition hint_t : Type := string * option (string * string).
Definition WORKSPACE_ALIASES : list (string * list string) :=
  [("gmail_mcp_server", ["email"; "gmail"; "inbox"; "draft"]); ("calendar_mcp_server", ["calendar"; "schedule"; "free time"]);
   ("docs_mcp_server", ["google doc"; "document"])].
Definition PRODUCT_ALIASES : list (string * list string) :=
  [("openshell", ["openshell"; "open shell"]); ("aistore", ["aistore"; "ai store"]); ("aiperf", ["aiperf"; "ai perf"]);
   ("nvcf", ["nvcf"; "cloud function"]); ("dsx", ["dsx"]); ("dynamo", ["dynamo"])].
Definition DOMAIN_ALIASES : list (string * list string) :=
  [("kubernetes", ["kubernetes"; "k8s"; "helm"; "pod"]); ("semianalysis", ["semianalysis"; "gpu market"; "capex"]);
   ("veterinarian", ["veterinary"; "clinic"; "vet"]); ("mentalhealth", ["mental health"; "therapy"; "clinical"])].
Definition feed_scope (q : string) : string :=
  if contains q "semianalysis" then "semianalysis"
  else if any_of ["developer"; "cuda"; "nemo"; "inference"] q then "nvidia_developer" else "auto".
Definition _tool_hints (source_id question : string) : list hint_t :=
  let q := lower question in
  if (source_id =? "curated_domains")%string
  then [("domain_retriever_tool", Some ("domain", default "nvidia" (first_alias DOMAIN_ALIASES q)))]
  else if (source_id =? "curated_feeds")%string then [("curated_feed_search_tool", Some ("feed_scope", feed_scope q))]
  else if (source_id =? "perplexity_search")%string
  then [("perplexity_search_tool", if any_of ["latest"; "recent"; "news"] q then Some ("search_recency_filter", "week") else None)]
  else if (source_id =? "known_url_scrape")%string
  then [(if contains q "weather" then "nws_weather_tool" else "webscrape_tool", None)]
  else if (source_id =? "uploaded_documents")%string then [("user_document_tool", None)]
  else if (source_id =? "workspace_data")%string then
    match List.filter (fun ta => any_of (snd ta) q) WORKSPACE_ALIASES with
    | [] => map (fun ta => (fst ta, None)) WORKSPACE_ALIASES
    | l => map (fun ta => (fst ta, None)) l
    end
  else if (source_id =? "nvidia_docs")%string
  then [("nvidia_docs_tool", (fun p => ("product", p)) <$> first_alias PRODUCT_ALIASES q)]
  else [].

(** ** The plan *)
Definition among_ids (l : list string) (m : list string) : list string := List.filter (fun x => is_in x m) l.
Definition minus_ids (l : list string) (m : list string) : list string := List.filter (fun x => negb (is_in x m)) l.
(** [{entry["id"]: entry for entry in registry}[source_id]]: the last entry of an id. *)
Fixpoint entry_by_id (registry : list source_entry) (source_id : string) : option source_entry :=
  match registry with
  | [] => None
  | e :: registry =>
      match entry_by_id registry source_id with
      | Some e' => Some e'
      | None => if (e_id e =? source_id)%string then Some e else None
      end
  end.
Record recommendation := Recommendation { q_source : source_entry; q_reason : string; q_hints : list hint_t }.
Record source_plan := SourcePlan {
  p_depth : string; p_registry : list source_entry; p_selected : list source_entry; p_recommended : list recommendation;
  p_blocked_tools : list string; p_unknown : list string; p_warnings : list string; p_approval_recommended : bool }.
Definition normalized_depth (depth : string) : string :=
  let d := lower (strip (or_text depth "auto")) in if is_in d ["auto"; "quick"; "deep"] then d else "auto".
Definition text_list (l : list string) : string := py_str (VList (map VStr l)).
Section Plan.
Context (title : string -> string).
Definition registry_of (source_registry : list dict) : list source_entry :=
  List.filter (fun e => nonblank (e_id e)) (map (_normalize_source_entry title) source_registry).
Definition eligible (registry : list source_entry) (selected : option (list string)) (disabled : list string) : list string :=
  among_ids (minus_ids (match selected with Some l => l | None => distinct [] (map e_id (List.filter e_default_enabled registry)) end)
                       disabled)
            (map e_id registry).
Definition make_plan (source_registry : list dict) (question selected_sources_json disabled_sources_json depth : string) : source_plan :=
  let normalized := normalized_depth depth in
  let registry := registry_of source_registry in
  let ids := map e_id registry in
  let requested := _parse_source_ids selected_sources_json in
  let disabled_ids := _parse_source_ids disabled_sources_json in
  let disabled := default [] disabled_ids in
  let wanted := match requested with Some l => l | None => distinct [] (map e_id (List.filter e_default_enabled registry)) end in
  let unknown := sorted_texts (minus_ids (wanted ++ disabled) ids) in
  let selected := eligible registry requested disabled in
  let broad := f_broad (_question_flags question) in
  let preferred_depth := if (normalized =? "auto")%string && broad then "deep" else normalized in
  let preferred := among_ids (_preferred_source_ids question preferred_depth) selected in
  let ordered := preferred ++ sorted_texts (minus_ids selected preferred) in
  let sources := omap (entry_by_id registry) ordered in
  let recommended := map (fun s => Recommendation s (_source_reason (e_id s) question preferred_depth) (_tool_hints (e_id s) question)) sources in
  SourcePlan preferred_depth registry sources recommended
    (flat_map e_tools (omap (entry_by_id registry) (sorted_texts (among_ids disabled ids)))) unknown
    (match requested with Some (x :: l) => ["selected source override applied: " +++ text_list (x :: l)] | _ => [] end ++
     match disabled_ids with Some (x :: l) => ["disabled source override applied: " +++ text_list (x :: l)] | _ => [] end ++
     match unknown with [] => [] | _ => ["unknown source ids ignored: " +++ text_list unknown] end ++
     match sources with [] => ["no usable sources selected"] | _ => [] end)
    (negb (preferred_depth =? "quick")%string && (broad || (preferred_depth =? "deep")%string) && (3 <=? length recommended)%nat).
Definition p_passed (p : source_plan) : bool := match p_selected p with [] => false | _ => true end.
Definition texts (l : list string) : value := VList (map VStr l).
Definition entry_value (e : source_entry) : value :=
  VDict [("id", VStr (e_id e)); ("name", VStr (e_name e)); ("description", VStr (e_description e)); ("tools", texts (e_tools e));
         ("default_enabled", VBool (e_default_enabled e)); ("requires_auth", VBool (e_requires_auth e))].
Definition hint_value (h : hint_t) : value :=
  VDict (("tool", VStr (fst h)) :: match snd h with Some (k, v) => [(k, VStr v)] | None => [] end).
Definition recommendation_value (r : recommendation) : value :=
  VDict [("source_id", VStr (e_id (q_source r))); ("name", VStr (e_name (q_source r))); ("tools", texts (e_tools (q_source r)));
         ("reason", VStr (q_reason r)); ("hints", VList (map hint_value (q_hints r)))].
Definition APPROVAL_HINT : string :=
  "Advisory cost hint only. Honor the request's approval policy and existing authorization; do not reconfirm an authorized workflow.".
Definition EXECUTION_CONTRACT : string :=
  "Use only relevant selected sources; reuse completed reads and parallelize independent calls. Tool names identify capabilities, not proof of connectivity. For MCP groups select an exposed leaf.".
Definition LEDGER_RULE : string := "Only final URLs observed from selected source tools may appear in the References section.".
Definition plan_value (p : source_plan) : value :=
  VDict [("passed", VBool (p_passed p)); ("depth", VStr (p_depth p)); ("available_sources", VList (map entry_value (p_registry p)));
    ("selected_sources", VList (map entry_value (p_selected p)));
    ("recommended_tool_sequence", VList (map recommendation_value (p_recommended p))); ("blocked_tools", texts (p_blocked_tools p));
    ("unknown_sources", texts (p_unknown p)); ("warnings", texts (p_warnings p));
    ("approval_recommended", VBool (p_approval_recommended p)); ("approval_hint", VStr APPROVAL_HINT);
    ("execution_contract", VStr EXECUTION_CONTRACT);
    ("source_ledger_contract", VDict [("capture_fields", texts ["url"; "title"; "tool"; "source_id"]);
       ("audit_tool", VStr "source_verifier_tool"); ("audit_operation", VStr "audit_citations"); ("rule", VStr LEDGER_RULE)])].
Definition plan_sources (source_registry : list dict) (research_question selected_sources_json disabled_sources_json depth : string)
  : string :=
  let question := strip research_question in
  dumps_with indent2_opts
    (if (question =? "")%string
     then VDict [("passed", VBool false); ("reason", VStr "research_question is required"); ("selected_sources", VList []);
                 ("recommended_tool_sequence", VList [])]
     else plan_value (make_plan source_registry question selected_sources_json disabled_sources_json depth)).

(** ** Laws *)
Lemma filter_elem {A} (f : A -> bool) l x : x ∈ List.filter f l <-> x ∈ l /\ f x = true.
Proof. rewrite (list_elem_of_In (List.filter f l) x), (list_elem_of_In l x). apply List.filter_In. Qed.
Lemma among_ids_in x l m : x ∈ among_ids l m <-> x ∈ l /\ x ∈ m.
Proof. unfold among_ids. rewrite filter_elem. by rewrite in_list. Qed.
Lemma minus_ids_in x l m : x ∈ minus_ids l m <-> x ∈ l /\ x ∉ m.
Proof. unfold minus_ids. rewrite filter_elem, negb_true_iff, <- not_true_iff_false. by rewrite in_list. Qed.
Lemma distinct_in x l : forall seen, x ∈ distinct seen l <-> x ∈ l /\ x ∉ seen.
Proof.
  induction l as [|y l IH]; intros seen; cbn; [set_solver|]. destruct (is_in y seen) eqn:E.
  - apply in_list in E. rewrite IH. set_solver.
  - assert (y ∉ seen) by (intros H%in_list; congruence). rewrite elem_of_cons, IH. destruct (decide (x = y)); set_solver.
Qed.
Lemma distinct_nodup l : forall seen, NoDup (distinct seen l).
Proof.
  induction l as [|y l IH]; intros seen; cbn; [constructor|]. destruct (is_in y seen); [done|]. constructor; [|done].
  rewrite distinct_in. set_solver.
Qed.
Lemma filter_nodup {A} (f : A -> bool) (l : list A) : NoDup l -> NoDup (List.filter f l).
Proof.
  induction 1 as [|x l Hx _ IH]; cbn; [constructor|]. destruct (f x); [|done]. constructor; [|done].
  rewrite filter_elem. tauto.
Qed.
Lemma sorted_texts_in x l : x ∈ sorted_texts l <-> x ∈ l.
Proof. unfold sorted_texts. rewrite stable_sort_perm, distinct_in. set_solver. Qed.
Lemma sorted_texts_nodup l : NoDup (sorted_texts l).
Proof. unfold sorted_texts. rewrite stable_sort_perm. apply distinct_nodup. Qed.
Lemma entry_by_id_spec registry id : match entry_by_id registry id with
  | Some e => e ∈ registry /\ e_id e = id | None => id ∉ map e_id registry end.
Proof.
  induction registry as [|e l IH]; cbn; [set_solver|]. destruct (entry_by_id l id) as [e'|]; [set_solver|].
  destruct (String.eqb_spec (e_id e) id); set_solver.
Qed.
Lemma entries_of_ids registry ids : (forall id, id ∈ ids -> id ∈ map e_id registry) ->
  map e_id (omap (entry_by_id registry) ids) = ids /\ Forall (fun e => e ∈ registry) (omap (entry_by_id registry) ids).
Proof.
  induction ids as [|id ids IH]; intros H; [done|]. cbn [omap list_omap]. pose proof (entry_by_id_spec registry id) as E.
  destruct (entry_by_id registry id) as [e|]; [|destruct E; apply H; by left].
  destruct IH as [IH1 IH2]; [intros x Hx; apply H; by right|]. destruct E as [E1 E2]. cbn [map]. split; [|by constructor].
  rewrite E2. f_equal. exact IH1.
Qed.
Lemma parsed_nodup raw l : _parse_source_ids raw = Some l -> NoDup l.
Proof. unfold _parse_source_ids. destruct (is_blank raw); [done|]. intros [= <-]. apply sorted_texts_nodup. Qed.
Lemma str_leb_item a b : str_leb a b = item_leb (a, tt) (b, tt).
Proof. unfold str_leb, item_leb. cbn. by destruct (String.compare a b). Qed.
Lemma sorted_texts_sorted l : StronglySorted (fun a b => str_leb a b = true) (sorted_texts l).
Proof.
  apply stable_sort_sorted; [intros x y|intros x y z]; rewrite !str_leb_item; [apply item_leb_total|apply item_leb_trans].
Qed.
(** What a request allows: the sources it names, or the default ones. *)
Definition allowed_source (registry : list source_entry) (requested : option (list string)) (id : string) : Prop :=
  match requested with
  | Some l => id ∈ l
  | None => exists e, e ∈ registry /\ e_id e = id /\ e_default_enabled e = true
  end.
(** C26: a plan uses exactly the sources that the registry has, the request
    allows and does not exclude, each once: a disabled source is never
    recommended, whatever the question asks for, and no allowed one is lost.
    Those that suit the question come first, in the order of preference; a plan
    passes when one source is left. *)
Theorem plan_respects_selection source_registry question selected_json disabled_json depth :
  let p := make_plan source_registry question selected_json disabled_json depth in
  let registry := registry_of source_registry in
  NoDup (map e_id (p_selected p)) /\
  (forall id, id ∈ map e_id (p_selected p) <->
     id ∈ map e_id registry /\ allowed_source registry (_parse_source_ids selected_json) id /\
     id ∉ default [] (_parse_source_ids disabled_json)) /\
  Forall (fun e => e ∈ registry) (p_selected p) /\ map q_source (p_recommended p) = p_selected p /\
  (exists rest, map e_id (p_selected p) =
     among_ids (_preferred_source_ids question (p_depth p)) (map e_id (p_selected p)) ++ rest /\ StronglySorted (fun a b => str_leb a b = true) rest) /\
  (p_passed p = true <-> p_selected p <> []).
Proof.
  cbv zeta. unfold make_plan. cbv zeta. cbn [p_selected p_recommended p_depth]. set (registry := registry_of source_registry).
  set (requested := _parse_source_ids selected_json). set (disabled := default [] (_parse_source_ids disabled_json)).
  set (selected := eligible registry requested disabled). set (preferred_depth := if _ && _ then _ else _).
  set (preferred := _preferred_source_ids question preferred_depth).
  set (chosen := among_ids preferred selected).
  assert (Hsel : forall id, id ∈ selected <-> id ∈ map e_id registry /\ allowed_source registry requested id /\ id ∉ disabled).
  { intros id. unfold selected, eligible. rewrite among_ids_in, minus_ids_in. enough (E : id ∈ match requested with Some l => l
      | None => distinct [] (map e_id (List.filter e_default_enabled registry)) end <-> allowed_source registry requested id) by tauto.
    unfold allowed_source. destruct requested; [done|]. rewrite distinct_in, list_elem_of_fmap. split.
    - intros [(e & -> & He) _]. apply filter_elem in He as [He Hd]. by exists e.
    - intros (e & He & <- & Hd). split; [|set_solver]. exists e. split; [done|]. by apply filter_elem. }
  set (ordered := chosen ++ sorted_texts (minus_ids selected chosen)).
  assert (Hord : forall id, id ∈ ordered <-> id ∈ selected).
  { intros id. unfold ordered. rewrite elem_of_app, sorted_texts_in, minus_ids_in. unfold chosen. rewrite among_ids_in.
    destruct (decide (id ∈ preferred)); tauto. }
  assert (Hnd : NoDup ordered).
  { apply NoDup_app. split_and!; [apply filter_nodup, distinct_nodup| |apply sorted_texts_nodup].
    intros id H1 H2. apply sorted_texts_in, minus_ids_in in H2. tauto. }
  destruct (entries_of_ids registry ordered) as [Hids Hin]; [intros id Hid; apply Hsel, Hord; done|].
  set (sources := omap (entry_by_id registry) ordered) in *. rewrite Hids.
  split_and!; [done|intros id; by rewrite Hord|done|by rewrite map_map, map_id| |by destruct sources].
  exists (sorted_texts (minus_ids selected chosen)). split.
  - unfold ordered at 1. f_equal. unfold chosen, among_ids. apply List.filter_ext. intros id. apply eq_iff_eq_true.
    by rewrite !in_list, Hord.
  - apply sorted_texts_sorted.
Qed.
End Plan.
(** The tools that a hint names belong to the source, in the default registry. *)
Definition default_tools (id : string) : list string :=
  match entry_by_id (registry_of (fun s => s) _default_source_registry) id with Some e => e_tools e | None => [] end.
Lemma hints_are_registered id question h : h ∈ _tool_hints id question -> fst h ∈ default_tools id.
Proof.
  unfold _tool_hints. intros H.
  repeat match type of H with context [if (id =? ?k)%string then _ else _] => destruct (String.eqb_spec id k) as [->|] end;
    try (apply list_elem_of_singleton in H as ->; apply in_list; vm_compute; reflexivity).
  - apply list_elem_of_singleton in H as ->. apply in_list. by destruct (contains _ "weather").
  - assert (G : exists ta, ta ∈ WORKSPACE_ALIASES /\ fst h = fst ta).
    { destruct (List.filter _ WORKSPACE_ALIASES) eqn:F.
      - apply list_elem_of_fmap in H as (ta & -> & Hta). by exists ta.
      - rewrite <- F in H. apply list_elem_of_fmap in H as (ta & -> & Hta). apply filter_elem in Hta as [Hta _]. by exists ta. }
    destruct G as (ta & Hta & ->). unfold WORKSPACE_ALIASES in Hta. apply in_list.
    rewrite !elem_of_cons, elem_of_nil in Hta. destruct Hta as [->|[->|[->|[]]]]; vm_compute; reflexivity.
  - by apply elem_of_nil in H.
Qed.
