(* ===== verification/Webscrape.v ===== *)
(** * Scraping public pages ([webscrape/webscrape_function.py], [webscrape/reader.py])

    The URL of a request, what robots.txt allows, the fetch with its reader
    fallback, the explanation of failures, and the token limit.  Parameters:
    the token encoder, MarkItDown, the names of media types, the text of a
    response, and the shared article session as an interface. *)
From S2P Require Import Prelude PyStr PyFloat PyVal Json JsonRoundtrip Redis PyUrl Dedupe Identity Markdown.
From S2P Require Import PyNet SafeHttp PublicContent Compaction AgentBudget Citations.
#[local] Open Scope Z_scope.

(** ** Tokens *)
Definition _format_error (message : string) : string := "Error: " +++ message.
(** [encode]: the number of tokens tiktoken finds, when it is installed. *)
Definition _count_tokens (encode : option (string -> result Z)) (text : string) : Z :=
  match encode with
  | None => ulen text / 4
  | Some encode => match encode text with Ok n => n | Raise _ => ulen text / 4 end
  end.
Definition rfind (s p : string) : Z := match rfind_nat s p with Some n => Z.of_nat n | None => -1 end.
(** [a > n * 0.k]. *)
Definition above (k a n : Z) : bool := f_ltb (f_mul (f_of_Z n) (dec_to_float false k (-1))) (f_of_Z a).
Section Truncate.
Context (count_tokens : string -> Z).
Fixpoint bisect (fuel : nat) (text : string) (target left right : Z) : Z :=
  match fuel with
  | O => left
  | S fuel =>
      if left <? right then
        let mid := (left + right + 1) / 2 in
        if count_tokens (utake mid text) <=? target then bisect fuel text target mid right
        else bisect fuel text target left (mid - 1)
      else left
  end.
Fixpoint cut_sentence (truncated : string) (seps : list string) : string :=
  match seps with
  | [] => truncated
  | sep :: seps =>
      let last_sep := rfind truncated sep in
      if above 9 last_sep (ulen truncated) then utake (last_sep + 1) truncated else cut_sentence truncated seps
  end.
Definition cut_text (truncated : string) : string :=
  let last_para := rfind truncated (NL +++ NL) in
  if above 8 last_para (ulen truncated) then utake last_para truncated
  else cut_sentence truncated [". "; "! "; "? "; NL].
Definition _truncate_to_token_limit (text : string) (token_limit : Z) (truncation_msg : string) : string * bool :=
  if count_tokens text <=? token_limit then (text, false) else
  let target := token_limit - count_tokens truncation_msg in
  let left := bisect (S (ulen_nat text)) text target 0 (ulen text) in
  (cut_text (utake left text) +++ truncation_msg, true).
End Truncate.

(** ** Content *)
Definition content_body (markdown : string) : string :=
  match cut markdown "_Source: " with
  | Some (_, after) => match cut after (NL +++ NL) with Some (_, rest) => strip (NL +++ NL +++ rest) | None => markdown end
  | None => markdown
  end.
Definition _is_valid_content (markdown : string) : bool :=
  if (markdown =? "")%string then false else
  let body := content_body markdown in
  if ulen body <? 50 then false else negb (is_challenge_page body).
Definition last_part (path : string) : string := match rcut path "/" with Some (_, b) => b | None => path end.
(** [os.path.splitext(path)[1]]: leading dots start no suffix. *)
Definition suffix_of (path : string) : string :=
  match rcut (last_part path) "." with Some (a, b) => if all_chars (char_is ".") a then "" else "." +++ b | None => "" end.
Section Convert.
Context (guess_extension : string -> option string).
(** MarkItDown on a local file of a suffix: the title, when there is one, and the text. *)
Context (markitdown_convert : string -> string -> result (option string * option string)).
Definition _resource_suffix (url content_type : string) : result string :=
  let media := lower (strip (match cut content_type ";" with Some (a, _) => a | None => content_type end)) in
  let guessed := if (media =? "")%string then None else guess_extension media in
  u ← urlsplit url;
  let path_suffix := lower (suffix_of (fst (PyNet.urlparse u))) in
  let candidate := or_text (or_text (default "" guessed) path_suffix) ".bin" in
  Ok (match candidate with
      | String c r => if char_is "." c && all_chars is_alnum_lower r && (1 <=? blen r) && (blen r <=? 10) then candidate else ".bin"
      | EmptyString => ".bin"
      end).
Definition _bytes_to_markdown (content url content_type : string) : result string :=
  suffix ← _resource_suffix url content_type;
  '(title, text) ← markitdown_convert suffix content;
  Ok ("# " +++ or_text (default "" title) url +++ NL +++ NL +++ source_line url +++ NL +++ NL +++ default "" text).
Definition _convert_public_resource (content url content_type : string) : result string := _bytes_to_markdown content url content_type.
End Convert.

(** ** Robots ([urllib.robotparser]) *)
Record robots_rule := RobotsRule { r_path : string; r_allowance : bool }.
Record robots_entry := RobotsEntry { useragents : list string; rulelines : list robots_rule }.
Record robots_file := RobotsFile { r_entries : list robots_entry; r_default : option robots_entry }.
Inductive robots_state := Start | SawAgent | SawRule.
Definition unparse (path : string) : result string :=
  u ← urlsplit path;
  let '(p, params) := PyNet.urlparse u in
  Ok (url_text (u_scheme u) (u_netloc u) p params (u_query u) (u_fragment u)).
Definition quote_path : string -> string := quote_with (char_is "/").
Definition rule_line (path : string) (allowance : bool) : result robots_rule :=
  let allowance := allowance || (path =? "")%string in
  path ← unparse path; Ok (RobotsRule (quote_path path) allowance).
Definition _add_entry (f : robots_file) (e : robots_entry) : robots_file :=
  if is_in "*" (useragents e) then match r_default f with None => RobotsFile (r_entries f) (Some e) | Some _ => f end
  else RobotsFile (r_entries f ++ [e]) (r_default f).
Definition no_entry : robots_entry := RobotsEntry [] [].
Definition add_rule (e : robots_entry) (r : robots_rule) : robots_entry := RobotsEntry (useragents e) (rulelines e ++ [r]).
Definition robots_directive (st : robots_state) (e : robots_entry) (f : robots_file) (key val : string)
  : result (robots_state * robots_entry * robots_file) :=
  let unchanged := Ok (st, e, f) in
  if (key =? "user-agent")%string then
    let '(e, f) := match st with SawRule => (no_entry, _add_entry f e) | _ => (e, f) end in
    Ok (SawAgent, RobotsEntry (useragents e ++ [val]) (rulelines e), f)
  else if is_in key ["disallow"; "allow"] then
    match st with
    | Start => unchanged
    | _ => r ← rule_line val (key =? "allow")%string; Ok (SawRule, add_rule e r, f)
    end
  else if is_in key ["crawl-delay"; "request-rate"] then match st with Start => unchanged | _ => Ok (SawRule, e, f) end
  else unchanged.
Fixpoint robots_parse (lines : list string) (st : robots_state) (e : robots_entry) (f : robots_file) : result robots_file :=
  match lines with
  | [] => Ok (match st with SawRule => _add_entry f e | _ => f end)
  | line :: lines =>
      let '(st, e, f) := if (line =? "")%string
                         then match st with SawAgent => (Start, no_entry, f) | SawRule => (Start, no_entry, _add_entry f e) | Start => (st, e, f) end
                         else (st, e, f) in
      let line := strip (match cut line "#" with Some (a, _) => a | None => line end) in
      match cut line ":" with
      | None => robots_parse lines st e f
      | Some (key, val) =>
          '(st, e, f) ← robots_directive st e f (lower (strip key)) (unquote (strip val));
          robots_parse lines st e f
      end
  end.
Definition rule_applies (r : robots_rule) (filename : string) : bool := (r_path r =? "*")%string || startswith filename (r_path r).
Definition entry_applies (useragent : string) (e : robots_entry) : bool :=
  let name := lower (match cut useragent "/" with Some (a, _) => a | None => useragent end) in
  existsb (fun agent => (agent =? "*")%string || contains name (lower agent)) (useragents e).
Definition allowance (e : robots_entry) (filename : string) : bool :=
  match List.find (fun r => rule_applies r filename) (rulelines e) with Some r => r_allowance r | None => true end.
Definition can_fetch (f : robots_file) (useragent url : string) : result bool :=
  u ← urlsplit (unquote url);
  let '(path, params) := PyNet.urlparse u in
  let filename := or_text (quote_path (url_text "" "" path params (u_query u) (u_fragment u))) "/" in
  Ok (match List.find (entry_applies useragent) (r_entries f) with
      | Some e => allowance e filename
      | None => match r_default f with Some e => allowance e filename | None => true end
      end).

(** A policy: everything, a parsed file, or the refusal of a whole origin. *)
Inductive robots_policy := AllowAll | Rules (f : robots_file) | Refused (message : string).
Definition _ROBOTS_CACHE_TTL_SECONDS : float := f_of_Z 600.
Definition _ROBOTS_CACHE_MAX_ENTRIES : Z := 256.
Definition _MAX_REDIRECTS : Z := 10.
Definition _ALLOWED_FETCH_SCHEMES : list string := ["https"; "http"].
Definition ROBOTS_REDIRECTED : string := "robots.txt redirected to a disallowed target; scraping is not permitted.".
Definition ROBOTS_DENIED : string := "Access to robots.txt denied; scraping is not permitted.".
Definition ROBOTS_DISALLOWED : string := "robots.txt disallows accessing this URL with the configured user agent.".
Section Robots.
Context (net : network) (response_text : response -> string).
Abbreviation W := net_world.
Fixpoint safe_redirects (fuel : nat) (current_url : string) (allowed_schemes : list string) : eff W (option response) :=
  match fuel with
  | O => mret None
  | S fuel =>
      r ← client_get net _DEFAULT_MAX_RESPONSE_BYTES current_url;
      if negb (SafeHttp.is_redirect r) then mret (Some r) else
      let location := default "" (header "location" r) in
      if (location =? "")%string then mret (Some r) else
      next_url ← lift (urljoin current_url location);
      _ ← validate_public_url net next_url (match allowed_schemes with [] => _ALLOWED_FETCH_SCHEMES | l => l end);
      safe_redirects fuel next_url allowed_schemes
  end.
Definition _get_following_safe_redirects (url : string) (allowed_schemes : list string) : eff W response :=
  r ← safe_redirects (Z.to_nat (_MAX_REDIRECTS + 1)) url allowed_schemes;
  match r with
  | Some r => mret r
  | None => throw UnsafeURLError ("Exceeded maximum of " +++ str_of_Z _MAX_REDIRECTS +++ " redirects while fetching '" +++ url +++ "'.")
  end.
(** The policy of an origin and whether it may be cached. *)
Definition policy_of_response (r : response) : result (robots_policy * bool) :=
  if (p_status r =? 401) || (p_status r =? 403) then Ok (Refused ROBOTS_DENIED, true)
  else if 500 <=? p_status r then Ok (AllowAll, false)
  else if p_status r =? 404 then Ok (AllowAll, true)
  else f ← robots_parse (splitlines (response_text r)) Start no_entry (RobotsFile [] None); Ok (Rules f, true).
Definition _load_robots_policy (robots_url : string) (allowed_schemes : list string) : eff W (robots_policy * bool) :=
  answer ← catch (r ← _get_following_safe_redirects robots_url allowed_schemes; mret (inl r))
                 [UnsafeURLError; RequestError]
                 (fun e => mret (inr (if exn_isa (exn_cls e) UnsafeURLError then (Refused ROBOTS_REDIRECTED, true) else (AllowAll, false))));
  match answer with
  | inl r => lift (policy_of_response r)
  | inr p => mret p
  end.
End Robots.
Definition robots_url_of (u : split_result) : result string := urljoin (u_scheme u +++ "://" +++ u_netloc u) "/robots.txt".
(** The refusals of a policy. *)
Definition obey (policy : robots_policy) (user_agent url : string) : result unit :=
  match policy with
  | Refused message => raise PermissionError message
  | AllowAll => Ok tt
  | Rules f => ok ← can_fetch f user_agent url; if (ok : bool) then Ok tt else raise PermissionError ROBOTS_DISALLOWED
  end.
(** [serve]: the policy that the cache gives for a robots URL. *)
Definition _check_robots (serve : string -> eff net_world robots_policy) (user_agent url : string) (parsed_url : split_result)
  : eff net_world unit :=
  robots_url ← lift (robots_url_of parsed_url);
  policy ← serve robots_url;
  lift (obey policy user_agent url).

(** ** The cache of policies *)
Record robots_cache := RobotsCache {
  rc_entries : list (string * (float * robots_policy)); rc_pending : list (string * nat); rc_next : nat }.
Inductive robots_begun := Cached (p : robots_policy) | Waiting (id : nat).
Fixpoint url_get {A} (k : string) (l : list (string * A)) : option A :=
  match l with [] => None | (u, x) :: l => if (u =? k)%string then Some x else url_get k l end.
Definition url_del {A} (k : string) (l : list (string * A)) : list (string * A) := List.filter (fun kv => negb (fst kv =? k)%string) l.
(** [get], up to the wait for the shared fetch. *)
Definition robots_get (c : robots_cache) (robots_url : string) (now : float) : robots_begun * robots_cache :=
  let fetch c := match url_get robots_url (rc_pending c) with
                 | Some id => (Waiting id, c)
                 | None => (Waiting (rc_next c), RobotsCache (rc_entries c) (rc_pending c ++ [(robots_url, rc_next c)]) (S (rc_next c)))
                 end in
  match url_get robots_url (rc_entries c) with
  | Some (expiry, policy) =>
      if f_ltb now expiry then (Cached policy, c)
      else fetch (RobotsCache (url_del robots_url (rc_entries c)) (rc_pending c) (rc_next c))
  | None => fetch c
  end.
(** [_bounded]: the outcome of a fetch with its own deadline. *)
Definition _bounded {W} (load : eff W (robots_policy * bool)) : eff W (robots_policy * bool) :=
  catch load [TimeoutError_] (fun _ => mret (AllowAll, false)).
Fixpoint trim_oldest {A} (fuel : nat) (max_entries : Z) (l : list A) : list A :=
  match fuel, l with
  | S fuel, _ :: l' => if max_entries <? Z.of_nat (length l) then trim_oldest fuel max_entries l' else l
  | _, _ => l
  end.
Definition _finish (max_entries : Z) (ttl_seconds : float) (robots_url : string) (id : nat)
    (outcome : option (robots_policy * bool)) (now : float) (c : robots_cache) : robots_cache :=
  let pending := if decide (url_get robots_url (rc_pending c) = Some id) then url_del robots_url (rc_pending c) else rc_pending c in
  match outcome with
  | Some (policy, true) =>
      let entries := url_del robots_url (rc_entries c) ++ [(robots_url, (f_add now ttl_seconds, policy))] in
      RobotsCache (trim_oldest (length entries) max_entries entries) pending (rc_next c)
  | _ => RobotsCache (rc_entries c) pending (rc_next c)
  end.
Definition aclose (c : robots_cache) : robots_cache := RobotsCache (rc_entries c) [] (rc_next c).

(** ** The URL of a request *)
Definition _URL_FIELD_NAMES : list string := ["url"; "link"; "href"; "source_url"; "input_message"].
Definition _TRAILING_URL_PUNCTUATION (c : ascii) : bool := char_is "." c || char_is "," c || char_is ";" c || char_is ":" c.
Definition prose_url_char (c : string) : bool := negb (space_char c) && negb (is_in c ["<"; ">"; "]"; String dq ""]).
(** [_HTTP_URL_RE.search(text)]: the first match. *)
Definition _HTTP_URL_RE (text : string) : option string :=
  let cs := chars text in head (find_urls drop_chars prose_url_char (length cs) cs).
Definition _is_complete_http_url (candidate : string) : bool :=
  if any_space candidate then false else
  match urlsplit candidate with
  | Raise _ => false
  | Ok u => is_in (lower (u_scheme u)) ["http"; "https"] && negb (u_netloc u =? "")%string
  end.
Fixpoint drop_last (s : string) : string :=
  match s with EmptyString => "" | String _ EmptyString => "" | String c s => String c (drop_last s) end.
(** One round of the loop of [_trim_embedded_url]. *)
Definition trim_round (url : string) : string :=
  let trimmed := rstrip_chars (char_is "'") (rstrip_chars _TRAILING_URL_PUNCTUATION url) in
  if endswith trimmed ")" && (count trimmed "(" <? count trimmed ")") then drop_last trimmed else trimmed.
Fixpoint trim_rounds (fuel : nat) (url : string) : string :=
  match fuel with
  | O => url
  | S fuel => let trimmed := trim_round url in if (trimmed =? url)%string then url else trim_rounds fuel trimmed
  end.
Definition _trim_embedded_url (url : string) : string := trim_rounds (S (String.length url)) url.
Fixpoint first_nonblank (keys : list string) (d : dict) : option string :=
  match keys with
  | [] => None
  | k :: keys => match dget k d with VStr s => if is_blank s then first_nonblank keys d else Some (strip s) | _ => first_nonblank keys d end
  end.
Definition _extract_url_candidate (url_candidate : string) : result string :=
  let normalized_url := strip url_candidate in
  if (normalized_url =? "")%string then raise ValueError "No URL supplied." else
  if _is_complete_http_url normalized_url then Ok normalized_url else
  let from_json := match loads normalized_url with
                   | Ok (VDict d) => first_nonblank _URL_FIELD_NAMES d
                   | Ok (VStr s) => if is_blank s then None else Some (strip s)
                   | _ => None
                   end in
  match from_json with
  | Some url => Ok url
  | None =>
      match _HTTP_URL_RE normalized_url with
      | Some url => Ok (_trim_embedded_url url)
      | None =>
          Ok (if startswith normalized_url "<" && endswith normalized_url ">"
              then strip (drop_last (removeprefix normalized_url "<")) else normalized_url)
      end
  end.
Definition _validate_url (url_candidate : string) (allowed_schemes : list string) : result (string * split_result) :=
  if (url_candidate =? "")%string then raise ValueError "No URL supplied." else
  url ← _extract_url_candidate url_candidate;
  parsed ← urlsplit url;
  '(url, parsed) ← (if startswith url "//" then let url := "https:" +++ url in p ← urlsplit url; Ok (url, p)
                    else if (u_scheme parsed =? "")%string then let url := "https://" +++ url in p ← urlsplit url; Ok (url, p)
                    else Ok (url, parsed));
  if (u_scheme parsed =? "")%string || negb (is_in (lower (u_scheme parsed)) (map lower allowed_schemes))
  then raise ValueError "URL scheme is not allowed." else
  if (u_netloc parsed =? "")%string then raise ValueError "URL is missing a host." else Ok (url, parsed).

(** ** Failures *)
Inductive RetrievalFailureKind := Unsafe | TooLarge | Blocked | HttpStatus | TimedOut | NoConnection | NoContent | Failed.
Definition _ACCESS_DENIED_STATUS_CODES : list Z := [401; 403; 407; 451].
(** [f"{x:g}"] for [1 <= x < 10 ** 6], the range of the configured timeouts. *)
Definition pad_zeros (n : Z) (s : string) : string := String.concat "" (repeat "0" (Z.to_nat (n - blen s))) +++ s.
Definition format_g (x : float) : string :=
  match float_frac x with
  | Some (n, d) =>
      let e := blen (str_of_Z (n / d)) - 1 in
      let r := round_div (n * 10 ^ (5 - e)) d in
      let '(e, r) := if r <? 10 ^ 6 then (e, r) else (e + 1, r / 10) in
      let digits := pad_zeros 6 (str_of_Z r) in
      let frac := rstrip_chars (char_is "0") (udrop (e + 1) digits) in
      utake (e + 1) digits +++ (if (frac =? "")%string then "" else "." +++ frac)
  | None => "inf"
  end.
Section Failure.
(** The reason phrase of a status, and [type(exc).__name__]. *)
Context (reason_phrase : Z -> string) (class_name : exn -> string).
(** The status that an [HTTPStatusError] carries. *)
Definition status_of (e : exn) : Z := default 0 (parse_int (exn_msg e)).
Definition GENERIC_FAILURE : string := "Unable to retrieve page content. The site may require JavaScript or is blocking automated access.".
Definition _describe_retrieval_failure (e : exn) (timeout : float) : RetrievalFailureKind * string :=
  let isa := exn_isa (exn_cls e) in
  if isa ResponseSizeError then (TooLarge, exn_msg e)
  else if isa UnsafeURLError then (Unsafe, exn_msg e)
  else if isa HTTPStatusError then
    let status := status_of e in
    let reason := or_text (reason_phrase status) "error" in
    if existsb (Z.eqb status) _ACCESS_DENIED_STATUS_CODES
    then (Blocked, "The site returned HTTP " +++ str_of_Z status +++ " (" +++ reason +++ ") and is blocking automated access.")
    else (HttpStatus, "The site returned HTTP " +++ str_of_Z status +++ " (" +++ reason +++ ").")
  else if isa TimeoutError_ || isa TimeoutException
  then (TimedOut, "The site did not respond in time (timeout " +++ format_g timeout +++ "s).")
  else if isa TransportError then (NoConnection, "Could not connect to the site (" +++ class_name e +++ ").")
  else if isa ArticleChallengeError then (Blocked, "The site is blocking automated access.")
  else if isa EmptyArticleError then (NoContent, "The page returned no extractable content.")
  else if isa ReaderResponseError then (Failed, exn_msg e)
  else (Failed, GENERIC_FAILURE).

(** ** The reader *)
Definition READER_BASE_URL : string := "https://r.jina.ai/".
Definition reader_fallback_allowed (url : string) (hosts allowed_schemes : list string) (e : exn) : result bool :=
  parsed ← urlsplit url;
  if negb (is_in (u_scheme parsed) ["http"; "https"]) || negb (is_in "https" allowed_schemes) ||
     negb (match hostname parsed with Some h => is_in h (map lower hosts) | None => false end) ||
     negb (u_query parsed =? "")%string || match userinfo parsed with (None, None) => false | _ => true end
  then Ok false else
  p ← port parsed;
  if negb (match p with None => true | Some n => n =? (if (u_scheme parsed =? "https")%string then 443 else 80) end)
  then Ok false else
  Ok (exn_isa (exn_cls e) ArticleChallengeError || exn_isa (exn_cls e) EmptyArticleError ||
      (exn_isa (exn_cls e) HTTPStatusError && (status_of e =? 403))).
Context (net : network) (utcnow : net_world -> string).
Definition response_json (r : response) : result value :=
  if utf8_ok (p_body r) then loads (p_body r) else raise ValueError "'utf-8' codec can't decode byte".
Definition READER_NOTE : string :=
  "_Retrieved via: [Jina Reader](https://jina.ai/reader/); the provider may serve cached content._".
Definition reader_markdown (title url body : string) : string :=
  "# " +++ or_text title url +++ NL +++ NL +++ source_line url +++ NL +++ READER_NOTE +++ NL +++ NL +++ strip body.
Definition reader_data (r : response) (url : string) : result (dict * string) :=
  _ ← raise_for_status r;
  payload ← try_except (response_json r) [ValueError] (fun _ => raise ReaderResponseError "Reader returned invalid JSON.");
  match payload with
  | VDict payload =>
      if negb (py_eq (dget "code" payload) (VInt 200)) then raise ReaderResponseError "Reader did not return a successful article." else
      match dget "data" payload with
      | VDict data =>
          if negb (py_eq (dget_or "httpStatus" (VInt 200) data) (VInt 200)) || truthy (dget "warning" payload) ||
             truthy (dget "warnings" payload) || truthy (dget "warning" data) || truthy (dget "warnings" data)
          then raise ReaderResponseError "Reader reported an incomplete or blocked page." else
          if negb (py_eq (dget "url" data) (VStr url)) then raise ReaderResponseError "Reader returned a different source URL." else
          match dget "content" data with
          | VStr body =>
              if ulen (strip body) <? 50 then raise EmptyArticleError "Reader returned no extractable article content."
              else if is_challenge_page body then raise ArticleChallengeError "Reader returned an automated-access challenge."
              else Ok (data, body)
          | _ => raise EmptyArticleError "Reader returned no extractable article content."
          end
      | _ => raise ReaderResponseError "Reader returned no article data."
      end
  | _ => raise ReaderResponseError "Reader did not return a successful article."
  end.
Definition _reader_article (r : response) (url : string) : eff net_world article_t :=
  '(data, body) ← lift (reader_data r url);
  let title := match dget "title" data with VStr t => join " " (split_ws t) | _ => url end in
  fetched_at ← gets utcnow;
  mret (PublicArticle url (reader_markdown title url body) fetched_at).
Definition fetch_reader_article (url : string) (allowed_schemes : list string) : eff net_world article_t :=
  url ← lift (urldefrag url);
  _ ← validate_public_url net url allowed_schemes;
  r ← get_public_response_async net _DEFAULT_MAX_RESPONSE_BYTES (READER_BASE_URL +++ url) ["https"] _DEFAULT_MAX_REDIRECTS;
  _reader_article r url.

(** ** A scrape *)
(** What the shared session promises to its clients: an article is the
    article of the URL asked for, which is public by its text. *)
Record article_source := ArticleSource {
  get_article : string -> list string -> eff net_world (article_t * string);
  get_article_law : forall url schemes a status w w', get_article url schemes w = (Ok (a, status), w') ->
    exists u share, clean_request url schemes = Ok (u, clean_schemes schemes, share) /\ a_url a = u }.
Record scrape_config := ScrapeConfig {
  user_agent : string; respect_robots_txt : bool; reader_fallback_hosts : list string; allowed_schemes : list string;
  max_output_tokens : Z; truncation_message : string; timeout : float }.
Inductive stage := AtRobots | AtArticle | AtReader.
Context (session_of : article_source) (serve : string -> eff net_world robots_policy) (count_tokens : string -> Z).
(** Where the deadline shared by the stages passes, if it does. *)
Context (expires : stage -> bool).
(** The URL to fetch, or the refusal. *)
Definition request_url (config : scrape_config) (url : string) : result (string * split_result) :=
  '(url, parsed) ← _validate_url (strip url) (allowed_schemes config);
  if match userinfo parsed with (None, None) => false | _ => true end
  then raise UnsafeURLError "Anonymous public URLs cannot contain credentials" else
  _ ← validate_offline url (allowed_schemes config);
  Ok (url, parsed).
(** Outcomes of the stages: an article and where it came from, a refusal, or
    the passing of the deadline, which no inner handler sees. *)
Inductive staged := Got (a : article_t) (cache_status : string) | Refusal (message : string) | Expired.
Definition read_stage (config : scrape_config) (url : string) (direct_error : exn) : eff net_world staged :=
  if expires AtReader then mret Expired else
  catch (a ← fetch_reader_article url (allowed_schemes config); mret (Got a "reader"))
        [Exception_]
        (fun reader_error => mret (Refusal (snd (_describe_retrieval_failure direct_error (timeout config)) +++
           " Reader fallback also failed: " +++ snd (_describe_retrieval_failure reader_error (timeout config))))).
Definition article_stage (config : scrape_config) (url : string) : eff net_world staged :=
  if expires AtArticle then mret Expired else
  catch ('(a, status) ← get_article session_of url (allowed_schemes config); mret (Got a status))
        [Exception_]
        (fun direct_error =>
           allowed ← lift (reader_fallback_allowed url (reader_fallback_hosts config) (allowed_schemes config) direct_error);
           if (allowed : bool) then read_stage config url direct_error else rethrow direct_error).
Definition robots_stage (config : scrape_config) (url : string) (parsed : split_result) : eff net_world staged :=
  if negb (respect_robots_txt config) then article_stage config url else
  if expires AtRobots then mret Expired else
  refused ← catch (_ ← _check_robots serve (user_agent config) url parsed; mret None)
                  [PermissionError; UnsafeURLError] (fun e => mret (Some (exn_msg e)));
  match refused with
  | Some message => mret (Refusal message)
  | None => article_stage config url
  end.
Fixpoint replace_once (old new s : string) : string :=
  match strip_prefix old s with
  | Some r => new +++ r
  | None => match s with EmptyString => s | String c s => String c (replace_once old new s) end
  end.
Definition dated (a : article_t) (cache_status : string) : string :=
  let source := source_line (a_url a) in
  replace_once source (source +++ NL +++ "_Fetched: " +++ a_fetched_at a +++ "; cache: " +++ cache_status +++ "_") (a_markdown a).
Definition scrape_result (config : scrape_config) (research : bool) (a : article_t) (cache_status : string) : string :=
  if is_challenge_page (a_markdown a) then _format_error "The site is blocking automated access." else
  let content := dated a cache_status in
  if research then
    dumps_with (Opts false ", " ": " false None)
      (VDict [("success", VBool true); ("output_mode", VStr "research");
              ("source", VDict [("url", VStr (a_url a)); ("fetched_at", VStr (a_fetched_at a))]); ("content", VStr content)])
  else fst (_truncate_to_token_limit count_tokens content (max_output_tokens config) (truncation_message config)).
Definition described (config : scrape_config) (e : exn) : string :=
  _format_error (snd (_describe_retrieval_failure e (timeout config))).
Definition _fetch_response (config : scrape_config) (url : string) (research : bool) : eff net_world string :=
  match try_except (r ← request_url config url; Ok (inl r)) [AttributeError; ValueError; UnsafeURLError] (fun e => Ok (inr (exn_msg e))) with
  | Raise e => rethrow e
  | Ok (inr message) => mret (_format_error message)
  | Ok (inl (url, parsed)) =>
      catch (s ← robots_stage config url parsed;
             match s with
             | Expired => throw TimeoutError_ ""
             | Refusal message => mret (_format_error message)
             | Got a status => mret (scrape_result config research a status)
             end)
            [Exception_] (fun e => mret (described config e))
  end.
End Failure.

(** ** Laws: URLs in prose *)
Definition prefix_of (a s : string) : Prop := exists t, s = a +++ t.
Lemma append_length a b : String.length (a +++ b) = (String.length a + String.length b)%nat.
Proof. induction a as [|x a IH]; cbn; [done|]. by rewrite IH. Qed.
Lemma prefix_refl s : prefix_of s s.
Proof. exists "". by rewrite append_nil_r. Qed.
Lemma prefix_trans a b c : prefix_of a b -> prefix_of b c -> prefix_of a c.
Proof. intros [x ->] [y ->]. exists (x +++ y). by rewrite append_assoc. Qed.
Lemma prefix_same a s : prefix_of a s -> (String.length s <= String.length a)%nat -> a = s.
Proof. intros [t ->]. rewrite append_length. intros H. destruct t; cbn in H; [by rewrite append_nil_r|lia]. Qed.
Lemma prefix_length a s : prefix_of a s -> (String.length a <= String.length s)%nat.
Proof. intros [t ->]. rewrite append_length. lia. Qed.
Lemma rstrip_chars_prefix f s : prefix_of (rstrip_chars f s) s.
Proof.
  induction s as [|c s [t IH]]; cbn [rstrip_chars]; [by exists ""|]. destruct (all_chars f _); [by eexists|].
  exists t. cbn. by rewrite <- IH.
Qed.
Lemma drop_last_prefix s : prefix_of (drop_last s) s /\ (s <> "" -> (String.length (drop_last s) < String.length s)%nat).
Proof.
  induction s as [|c s [[t IH] IL]]; [split; [by exists ""|done]|]. destruct s as [|b s]; [split; [by eexists|cbn; lia]|].
  specialize (IL ltac:(done)). change (drop_last (String c (String b s))) with (String c (drop_last (String b s))). split.
  - exists t. cbn [String.append]. by rewrite <- IH.
  - intros _. cbn [String.length] in *. lia.
Qed.
Lemma stripped_prefix url : prefix_of (rstrip_chars (char_is "'") (rstrip_chars _TRAILING_URL_PUNCTUATION url)) url.
Proof. eapply prefix_trans; apply rstrip_chars_prefix. Qed.
Lemma trim_round_prefix url : prefix_of (trim_round url) url.
Proof.
  unfold trim_round. pose proof (stripped_prefix url) as S. destruct (_ && _); [|done]. eapply prefix_trans; [apply drop_last_prefix|done].
Qed.
Lemma trim_round_shorter url : trim_round url <> url -> (String.length (trim_round url) < String.length url)%nat.
Proof.
  intros Hne. pose proof (trim_round_prefix url) as Pr. pose proof (prefix_length _ _ Pr).
  destruct (Nat.eq_dec (String.length (trim_round url)) (String.length url)) as [E|]; [|lia]. destruct Hne. apply prefix_same; [done|lia].
Qed.
Lemma trim_rounds_stable fuel : forall url, (String.length url < fuel)%nat ->
  prefix_of (trim_rounds fuel url) url /\ trim_round (trim_rounds fuel url) = trim_rounds fuel url.
Proof.
  induction fuel as [|fuel IH]; intros url Hl; [lia|]. cbn [trim_rounds]. destruct (String.eqb_spec (trim_round url) url) as [E|Hne];
    [split; [apply prefix_refl|done]|].
  pose proof (trim_round_prefix url) as Pr. apply trim_round_shorter in Hne.
  destruct (IH (trim_round url) ltac:(lia)) as [H1 H2]. split; [by eapply prefix_trans|done].
Qed.
Lemma trim_rounds_fuel m : forall n url, (String.length url < m)%nat -> (String.length url < n)%nat -> trim_rounds m url = trim_rounds n url.
Proof.
  induction m as [|m IH]; intros [|n] url Hm Hn; try lia. cbn [trim_rounds].
  destruct (String.eqb_spec (trim_round url) url) as [E|Hne]; [done|]. apply trim_round_shorter in Hne. apply IH; lia.
Qed.
(** the loop that trims a URL found in prose ends, after at most as many
    rounds as the URL has bytes, with a prefix of it that ends neither with
    punctuation nor with an apostrophe, and with a closing parenthesis only if
    that one has its partner. *)
Theorem trimming_ends url : let r := _trim_embedded_url url in
  prefix_of r url /\ trim_round r = r /\ rstrip_chars _TRAILING_URL_PUNCTUATION r = r /\ rstrip_chars (char_is "'") r = r /\
  (endswith r ")" = true -> count r ")" <= count r "(") /\
  (forall fuel, (String.length url < fuel)%nat -> trim_rounds fuel url = r).
Proof.
  cbv zeta. unfold _trim_embedded_url. destruct (trim_rounds_stable (S (String.length url)) url ltac:(lia)) as [H1 H2].
  set (r := trim_rounds _ url) in *. pose proof H2 as H3. unfold trim_round in H2.
  set (t := rstrip_chars (char_is "'") _) in *. assert (Ht : t = r /\ (endswith t ")" && (count t "(" <? count t ")")) = false).
  { destruct (_ && _) eqn:C; [exfalso|done]. pose proof (prefix_length _ _ (stripped_prefix r)) as L. fold t in L.
    destruct (drop_last_prefix t) as [_ D]. assert (t <> "") by (intros E; rewrite E in C; done). specialize (D ltac:(done)).
    rewrite H2 in D. lia. }
  destruct Ht as [Ht C]. assert (Hp : rstrip_chars _TRAILING_URL_PUNCTUATION r = r).
  { apply prefix_same; [apply rstrip_chars_prefix|]. rewrite <- Ht at 1. apply prefix_length, rstrip_chars_prefix. }
  split_and!; [done|done|done| | |].
  - unfold t in Ht. by rewrite Hp in Ht.
  - intros E. rewrite Ht, E in C. cbn in C. by apply Z.ltb_ge in C.
  - intros fuel Hf. apply trim_rounds_fuel; [done|lia].
Qed.

(** ** Laws: the token limit *)
Lemma utake_prefix n s : prefix_of (utake n s) s.
Proof. unfold utake. eexists. symmetry. apply utake_udrop_nat. Qed.
Section TruncateLaws.
Context (count_tokens : string -> Z) (text : string) (target : Z).
Lemma bisect_spec fuel : forall left right, (Z.to_nat (right - left) < fuel)%nat -> 0 <= left <= right ->
  (left = 0 \/ count_tokens (utake left text) <= target) ->
  let l := bisect count_tokens fuel text target left right in
  left <= l <= right /\ (l = 0 \/ count_tokens (utake l text) <= target) /\
  (l < right -> target < count_tokens (utake (l + 1) text)).
Proof.
  induction fuel as [|fuel IH]; intros left right Hf Hlr Hl; [lia|]. cbv zeta. cbn [bisect].
  destruct (Z.ltb_spec left right); [|split_and!; [lia|lia|done|lia]].
  set (mid := (left + right + 1) / 2). assert (Hm : left < mid <= right).
  { unfold mid. pose proof (Z.div_mod (left + right + 1) 2). pose proof (Z.mod_pos_bound (left + right + 1) 2). lia. }
  destruct (Z.leb_spec (count_tokens (utake mid text)) target) as [Hc|Hc].
  - destruct (IH mid right ltac:(lia) ltac:(lia) ltac:(by right)) as (H1 & H2 & H3). split_and!; [lia|lia|done|done].
  - destruct (IH left (mid - 1) ltac:(lia) ltac:(lia) Hl) as (H1 & H2 & H3). split_and!; [lia|lia|done|].
    intros Hlt. destruct (Z.eq_dec (bisect count_tokens fuel text target left (mid - 1)) (mid - 1)) as [E|E].
    + rewrite E. by replace (mid - 1 + 1) with mid by lia.
    + apply H3. lia.
Qed.
End TruncateLaws.
Lemma cut_sentence_prefix t seps : prefix_of (cut_sentence t seps) t.
Proof. induction seps as [|sep seps IH]; cbn; [apply prefix_refl|]. destruct (above _ _ _); [apply utake_prefix|done]. Qed.
Lemma cut_text_prefix t : prefix_of (cut_text t) t.
Proof. unfold cut_text. destruct (above _ _ _); [apply utake_prefix|apply cut_sentence_prefix]. Qed.
(** truncation to a number of tokens, for any way of counting them.  A text
    within the limit is unchanged.  Otherwise a prefix of it is kept, cut from
    the [left] characters that the search found, and the notice follows: those
    characters fit in what the notice leaves of the limit, one more would
    not; so for a counter that grows with the text and does not count more
    for a whole than for its parts, the answer stays within the limit. *)
Theorem truncation_bounded count_tokens text limit msg r was_cut :
  _truncate_to_token_limit count_tokens text limit msg = (r, was_cut) ->
  if was_cut then
    limit < count_tokens text /\
    exists left kept, r = kept +++ msg /\ prefix_of kept (utake left text) /\ 0 <= left <= ulen text /\
      (left = 0 \/ count_tokens (utake left text) <= limit - count_tokens msg) /\
      (left < ulen text -> limit - count_tokens msg < count_tokens (utake (left + 1) text)) /\
      ((forall a b, prefix_of a b -> count_tokens a <= count_tokens b) ->
       (forall a b, count_tokens (a +++ b) <= count_tokens a + count_tokens b) -> 0 < left -> count_tokens r <= limit)
  else r = text /\ count_tokens text <= limit.
Proof.
  unfold _truncate_to_token_limit. destruct (Z.leb_spec (count_tokens text) limit) as [H|H];
    [by intros [= <- <-]|]. intros E. apply pair_eq in E as [E <-]. split; [done|].
  assert (Hu : 0 <= ulen text) by (unfold ulen; lia).
  destruct (bisect_spec count_tokens text (limit - count_tokens msg) (S (ulen_nat text)) 0 (ulen text)) as (H1 & H2 & H3);
    [unfold ulen; lia|lia|by left|]. set (left := bisect _ _ _ _ _ _) in *.
  exists left, (cut_text (utake left text)). pose proof (cut_text_prefix (utake left text)) as Pc. split_and!; try done; try lia.
  - intros Hmono Hsub Hl. specialize (Hmono _ _ Pc). specialize (Hsub (cut_text (utake left text)) msg).
    rewrite <- E. destruct H2; lia.
Qed.

(** ** Laws: a scrape *)
Definition value_error {A} (r : result A) : Prop := match r with Raise e => exn_isa (exn_cls e) ValueError = true | Ok _ => True end.
Lemma value_error_bind {A B} (m : result A) (f : A -> result B) : value_error m -> (forall a, value_error (f a)) -> value_error (a ← m; f a).
Proof. destruct m; cbn; auto. Qed.
Lemma urlsplit_value_error url : value_error (urlsplit url).
Proof. destruct (urlsplit url) as [|e] eqn:E; [done|]. cbn. unfold urlsplit in E. repeat case_hyp E; try done; by injection E as <-. Qed.
Lemma validate_url_value_error url schemes : value_error (_validate_url url schemes).
Proof.
  unfold _validate_url. destruct (_ =? _)%string; [done|]. apply value_error_bind.
  { unfold _extract_url_candidate. repeat case_goal; done. }
  intros u. apply value_error_bind; [apply urlsplit_value_error|]. intros p. apply value_error_bind.
  - destruct (startswith u "//"); [|destruct (_ =? _)%string]; try done; (apply value_error_bind; [apply urlsplit_value_error|done]).
  - intros [v q]. repeat case_goal; done.
Qed.
Lemma offline_value_error url schemes : value_error (validate_offline url schemes).
Proof.
  unfold validate_offline. apply value_error_bind.
  - unfold url_host. destruct (_ =? _)%string; [done|]. apply value_error_bind; [apply urlsplit_value_error|]. intros p. repeat case_goal; done.
  - intros h. apply value_error_bind; [|done]. unfold literal_check. repeat case_goal; done.
Qed.
Lemma request_url_value_error config url : value_error (request_url config url).
Proof.
  unfold request_url. apply value_error_bind; [apply validate_url_value_error|]. intros [u p].
  destruct (userinfo p) as [[|] [|]]; try done. apply value_error_bind; [apply offline_value_error|done].
Qed.
Lemma mret_inv {W A} (x y : A) (w w' : W) : (mret x : eff W A) w = (Ok y, w') -> y = x.
Proof. by intros [= <-]. Qed.
(** What may be sent to the external reader. *)
Definition reader_may_see (hosts : list string) (url : string) (e : exn) : Prop :=
  exists p host, urlsplit url = Ok p /\ u_scheme p ∈ ["http"; "https"] /\ hostname p = Some host /\ host ∈ map lower hosts /\
    u_query p = "" /\ userinfo p = (None, None) /\
    (port p = Ok None \/ port p = Ok (Some (if (u_scheme p =? "https")%string then 443 else 80))) /\
    (exn_cls e = ArticleChallengeError \/ exn_cls e = EmptyArticleError \/ (exn_cls e = HTTPStatusError /\ status_of e = 403)).
Lemma reader_allowed url hosts schemes e : reader_fallback_allowed url hosts schemes e = Ok true -> reader_may_see hosts url e.
Proof.
  unfold reader_fallback_allowed. intros H. apply bind_ok in H as (p & Hp & H).
  destruct (is_in (u_scheme p) _) eqn:Hs; [|done]. destruct (is_in "https" schemes); [|done]. cbn [negb orb] in H.
  destruct (hostname p) as [host|] eqn:Hh; [|done]. destruct (is_in host _) eqn:Hi; [|done]. cbn [negb orb] in H.
  destruct (String.eqb_spec (u_query p) "") as [Hq|]; [|done]. cbn [negb orb] in H.
  destruct (userinfo p) as [[|] [|]] eqn:Hu; try done. apply bind_ok in H as (n & Hn & H).
  exists p, host. split_and!; [done|by apply in_list|done|by apply in_list|done|done| |].
  - destruct n as [n|]; [right|by left]. destruct (n =? _) eqn:E; [|done]. apply Z.eqb_eq in E. by rewrite Hn, E.
  - destruct (negb _); [done|]. injection H as H. destruct e as [c m]. cbn in H |- *.
    destruct c; try done; try (by left); try (by right; left). right; right. split; [done|]. by apply Z.eqb_eq in H.
Qed.
Section ScrapeLaws.
Context (reason_phrase : Z -> string) (class_name : exn -> string) (net : network) (utcnow : net_world -> string).
Context (session_of : article_source) (serve : string -> eff net_world robots_policy) (count_tokens : string -> Z) (expires : stage -> bool).
Abbreviation fetch_response := (_fetch_response reason_phrase class_name net utcnow session_of serve count_tokens expires).
Abbreviation reader := (fetch_reader_article net utcnow).
(** Where an article comes from: the shared session, or the reader after the
    session failed on a URL that the reader may see. *)
Definition obtained (config : scrape_config) (url : string) (a : article_t) (status : string) : Prop :=
  (exists v v', get_article session_of url (allowed_schemes config) v = (Ok (a, status), v')) \/
  (status = "reader" /\ exists e v v1 v2, get_article session_of url (allowed_schemes config) v = (Raise e, v1) /\
     reader_may_see (reader_fallback_hosts config) url e /\ reader url (allowed_schemes config) v1 = (Ok a, v2)).
Lemma article_stage_spec config url w r w' :
  article_stage reason_phrase class_name net utcnow session_of expires config url w = (r, w') ->
  match r with Ok (Got a status) => obtained config url a status | _ => True end.
Proof.
  unfold article_stage. destruct (expires AtArticle); [by intros [= <- <-]|].
  intros [(s & E & ->)|(e & v & E & [[_ H]|(_ & -> & _)])]%catch_inv; [| |done].
  - apply bind_Ok in E as ([a status] & v & Ha & [= <- _]). left. by eexists _, _.
  - apply bind_Raise in E as [E|([a status] & v1 & _ & [=])].
    apply bind_inv in H as [(ok & v1 & [= Hok <-] & H)|(e' & _ & ->)]; [|done].
    destruct ok; [|by injection H as <- _]. unfold read_stage in H. destruct (expires AtReader); [by injection H as <- _|].
    apply catch_inv in H as [(s & H & ->)|(e2 & v2 & _ & [[_ H]|(_ & -> & _)])]; [|by injection H as <- _|done].
    apply bind_Ok in H as (a & v2 & Ha & [= <- _]). right. split; [done|]. exists e, w, v, v2. split_and!; [done|by apply reader_allowed in Hok|done].
Qed.
Definition robots_consented (config : scrape_config) (url : string) (parsed : split_result) : Prop :=
  respect_robots_txt config = true -> exists robots_url policy v v', robots_url_of parsed = Ok robots_url /\
    serve robots_url v = (Ok policy, v') /\ obey policy (user_agent config) url = Ok tt.
Lemma robots_stage_spec config url parsed w r w' :
  robots_stage reason_phrase class_name net utcnow session_of serve expires config url parsed w = (r, w') ->
  match r with Ok (Got a status) => robots_consented config url parsed /\ obtained config url a status | _ => True end.
Proof.
  unfold robots_stage, robots_consented. destruct (respect_robots_txt config); cbn [negb].
  - destruct (expires AtRobots); [by intros [= <- <-]|]. intros [(refused & v & E & H)|(e & _ & ->)]%bind_inv; [|done].
    destruct refused; [by injection H as <- _|]. apply catch_inv in E as [(x & E & [= <-])|(e & v1 & _ & [[_ [=]]|(_ & [=] & _)])].
    apply bind_Ok in E as ([] & v1 & E & [= <-]). unfold _check_robots in E. apply bind_Ok in E as (ru & v2 & [= Hru <-] & E).
    apply bind_Ok in E as (policy & v3 & Hs & [= Ho <-]). apply article_stage_spec in H. destruct r as [[]|]; try done. split; [|done].
    intros _. by exists ru, policy, w, v3.
  - intros H%article_stage_spec. destruct r as [[]|]; done.
Qed.
(** C12: whatever a scrape is asked for, it answers with a text.  The text is an
    error message, or the article of a URL without credentials, with an
    allowed scheme and no internal address, that the robots policy of its
    origin permits; the article comes from the shared session, or from the
    external reader, which is asked only about URLs of the configured hosts
    with no query, no credentials and no port of their own, after the site
    refused or gave nothing. *)
Theorem scrape_permitted config url research w r w' : fetch_response config url research w = (r, w') ->
  exists text, r = Ok text /\
    ((exists message, text = _format_error message) \/
     exists u parsed a status, request_url config url = Ok (u, parsed) /\ userinfo parsed = (None, None) /\
       validate_offline u (allowed_schemes config) = Ok u /\ robots_consented config u parsed /\ obtained config u a status /\
       text = scrape_result count_tokens config research a status).
Proof.
  unfold _fetch_response. pose proof (request_url_value_error config url) as V.
  destruct (request_url config url) as [[u parsed]|e] eqn:Hu; cbn [mbind result_bind try_except].
  - assert (Hp : userinfo parsed = (None, None) /\ validate_offline u (allowed_schemes config) = Ok u).
    { unfold request_url in Hu. apply bind_ok in Hu as ([v q] & _ & Hu). destruct (userinfo q) as [[|] [|]] eqn:Hq; try done.
      apply bind_ok in Hu as (x & Hx & [= -> ->]). split; [done|]. unfold validate_offline in Hx |- *.
      apply bind_ok in Hx as (h & -> & Hx). cbn. by apply bind_ok in Hx as (y & -> & _). }
    intros [(text & E & ->)|(e & v & E & [[_ H]|(Hx & _)])]%catch_inv; [| |by destruct e as [[] ?]].
    + exists text. split; [done|]. apply bind_Ok in E as (s & v & Hs & E). apply robots_stage_spec in Hs.
      destruct s as [a status|m|]; [|apply mret_inv in E; left; by exists m|done]. apply mret_inv in E. right.
      exists u, parsed, a, status. destruct Hp, Hs. by split_and!.
    + exists (described reason_phrase class_name config e). split; [by apply pair_eq in H as [<- _]|]. left. by eexists.
  - cbn in V. unfold exn_in. cbn [existsb]. rewrite V, orb_true_r. intros [= <- _]. eexists. split; [done|]. left. by eexists.
Qed.
End ScrapeLaws.

(** ** Laws: the cache of policies *)
Section CacheLaws.
(** The outcomes that fetches of a URL can have. *)
Context (fetched : string -> robots_policy * bool -> Prop).
Inductive robots_step : robots_cache -> robots_cache -> Prop :=
| Robots_asked url now b c c' : robots_get c url now = (b, c') -> robots_step c c'
| Robots_finished url id outcome now c : (forall o, outcome = Some o -> fetched url o) ->
    robots_step c (_finish _ROBOTS_CACHE_MAX_ENTRIES _ROBOTS_CACHE_TTL_SECONDS url id outcome now c)
| Robots_closed c : robots_step c (aclose c).
Definition robots_cache_ok (c : robots_cache) : Prop :=
  NoDup (map fst (rc_entries c)) /\ NoDup (map fst (rc_pending c)) /\ Z.of_nat (length (rc_entries c)) <= _ROBOTS_CACHE_MAX_ENTRIES /\
  forall url expiry policy, (url, (expiry, policy)) ∈ rc_entries c ->
    fetched url (policy, true) /\ exists at_time, expiry = f_add at_time _ROBOTS_CACHE_TTL_SECONDS.
Lemma url_get_in {A} k (l : list (string * A)) : match url_get k l with Some x => (k, x) ∈ l | None => k ∉ map fst l end.
Proof.
  induction l as [|[u x] l IH]; cbn; [set_solver|]. destruct (String.eqb_spec u k) as [->|]; [by left|].
  destruct (url_get k l); [by right|]. rewrite not_elem_of_cons. done.
Qed.
Lemma url_del_in {A} k (l : list (string * A)) kv : kv ∈ url_del k l <-> kv ∈ l /\ fst kv <> k.
Proof.
  unfold url_del. rewrite (list_elem_of_In (List.filter _ _) kv), List.filter_In, <- list_elem_of_In.
  destruct (String.eqb_spec (fst kv) k); cbn; naive_solver.
Qed.
Lemma url_del_keys {A} k (l : list (string * A)) : NoDup (map fst l) -> NoDup (map fst (url_del k l)) /\ k ∉ map fst (url_del k l).
Proof.
  intros H. split.
  - induction l as [|[u x] l IH]; cbn; [done|]. apply NoDup_cons in H as [Hn H]. destruct (u =? k)%string; cbn; [auto|].
    constructor; [|auto]. intros Hin. apply Hn. apply list_elem_of_fmap in Hin as (kv & -> & [Hin _]%url_del_in).
    apply list_elem_of_fmap. by exists kv.
  - intros Hin. apply list_elem_of_fmap in Hin as (kv & -> & [_ Hne]%url_del_in). done.
Qed.
Lemma url_del_length {A} k (l : list (string * A)) : (length (url_del k l) <= length l)%nat.
Proof. apply List.filter_length_le. Qed.
Lemma trim_oldest_spec {A} n : forall fuel (l : list A), 0 <= n -> (length l <= fuel)%nat ->
  exists old, l = old ++ trim_oldest fuel n l /\ Z.of_nat (length (trim_oldest fuel n l)) <= n.
Proof.
  induction fuel as [|fuel IH]; intros l Hn Hl; destruct l as [|x l]; cbn in Hl; try lia; try (exists []; cbn; split; [done|lia]).
  cbn [trim_oldest]. destruct (Z.ltb_spec n (Z.of_nat (length (x :: l)))).
  - destruct (IH l Hn ltac:(lia)) as (old & E & H1). exists (x :: old). split; [by rewrite <- app_comm_cons, <- E|done].
  - exists []. done.
Qed.
Lemma robots_step_ok c c' : robots_step c c' -> robots_cache_ok c -> robots_cache_ok c'.
Proof.
  intros S (H1 & H2 & H3 & H4). destruct S as [url now b c c' G|url id outcome now c Ho|c].
  - assert (F : forall d b c', robots_cache_ok d -> (match url_get url (rc_pending d) with Some id => (Waiting id, d)
        | None => (Waiting (rc_next d), RobotsCache (rc_entries d) (rc_pending d ++ [(url, rc_next d)]) (S (rc_next d))) end) = (b, c') -> robots_cache_ok c').
    { intros d b' d' (D1 & D2 & D3 & D4). pose proof (url_get_in url (rc_pending d)) as U.
      destruct (url_get url (rc_pending d)); intros [= _ <-]; split_and!; cbn; try done. rewrite map_app. cbn.
      apply NoDup_app. split_and!; [done| |apply NoDup_singleton]. intros x Hx ->%list_elem_of_singleton. done. }
    unfold robots_get in G. destruct (url_get url (rc_entries c)) as [[expiry policy]|]; [destruct (f_ltb now expiry); [by injection G as _ <-|]|];
      (eapply F; [|exact G]); [|done]. destruct (url_del_keys url _ H1) as [D1 _]. pose proof (url_del_length url (rc_entries c)).
    split_and!; cbn; [done|done|lia|]. intros u ex p [Hin _]%url_del_in. by apply H4.
  - assert (Hp : NoDup (map fst (if decide (url_get url (rc_pending c) = Some id) then url_del url (rc_pending c) else rc_pending c))).
    { destruct (decide _); [|done]. by apply url_del_keys. }
    unfold _finish. destruct outcome as [[policy []]|]; [|by split_and!..]. cbn [rc_entries].
    destruct (url_del_keys url _ H1) as [D1 D2]. set (entries := url_del url (rc_entries c) ++ _).
    assert (N : NoDup (map fst entries)).
    { unfold entries. rewrite map_app. cbn. apply NoDup_app. split_and!; [done| |apply NoDup_singleton].
      intros x Hx ->%list_elem_of_singleton. done. }
    destruct (trim_oldest_spec _ROBOTS_CACHE_MAX_ENTRIES (length entries) entries ltac:(done) ltac:(lia)) as (old & E & L).
    set (kept := trim_oldest _ _ entries) in *. split_and!; cbn; [|done|done|].
    + rewrite E, map_app in N. by apply NoDup_app in N as (_ & _ & N).
    + intros u ex p Hin. assert (Hin' : (u, (ex, p)) ∈ entries) by (rewrite E; set_solver). unfold entries in Hin'.
      apply elem_of_app in Hin' as [[Hin' _]%url_del_in|Hin']; [by apply H4|]. apply list_elem_of_singleton in Hin' as [= -> -> ->].
      split; [by apply Ho|by eexists].
  - split_and!; cbn; try done. constructor.
Qed.
(** the robots cache of a tool, after any interleaving of scrapes, of
    fetches that end or fail and of its closing: at most 256 origins, each
    once, each with the policy that a fetch of its robots.txt gave and declared
    cacheable, to be kept 600 seconds from a time when that was recorded; and
    never two fetches of one origin waiting at a time. *)
Theorem robots_cache_invariant c : rtc robots_step (RobotsCache [] [] 0) c -> robots_cache_ok c.
Proof.
  assert (G : forall a b, rtc robots_step a b -> robots_cache_ok a -> robots_cache_ok b)
    by (induction 1; eauto using robots_step_ok).
  intros R. apply (G _ _ R). split_and!; cbn; [constructor|constructor|done|by intros ? ? ? ?%elem_of_nil].
Qed.
End CacheLaws.
