(* ===== verification/ToolExamples.v ===== *)
(** * Runs of the tool-output, agent-turn and source-verification components

    A Kubernetes listing compacted and read back, an article, a search, the
    limits of a turn; an answer audited, a page scraped, a claim verified. *)
From S2P Require Import Prelude PyStr PyFloat PyVal Json JsonRoundtrip Redis PyUrl Sha Dedupe World Identity.
From S2P Require Import Tokens Markdown PyNet SafeHttp PublicContent PublicContentLaws WebExamples Compaction.
From S2P Require Import CompactionLaws AgentBudget Citations CitationLaws SourcePlan Webscrape Critic.
#[local] Open Scope Z_scope.

Definition demo_word (s : string) : bool := true.
Definition demo_rows : list value :=
  map (fun i => VDict [("pod", VStr ("worker-" +++ str_of_Z (Z.of_nat i))); ("phase", VStr (if Nat.eqb i 17 then "Failed" else "Running"))])
      (seq 0 48).
Definition demo_output : string := dumps (VList demo_rows).
Definition demo_settings : CompactionSettings := Settings true 100 6 100 (dec_to_float false 9 (-1)) 4000000 7200 4000.
Definition demo_store : store_world := StoreWorld (fresh_world (RefRedis ∅ [])) 0 (f_of_Z 0).
Definition demo_time (n : nat) : float := f_of_Z (Z.of_nat n + 1).
#[local] Existing Instance ref_server.
#[local] Instance plain_redis : RedisServer ref_redis := ref_server false.
Definition demo_host : host ref_redis := quiet_host 0.
Definition demo_run : result OptimizedToolContent * store_world :=
  optimize_tool_content demo_host demo_time (fun s => s) demo_word demo_settings demo_output "k8s" "which pod is broken" "alice" demo_store.
Example demo_shown : _select_indices demo_word demo_rows 6 "which pod is broken" = [0; 1; 2; 17; 46; 47].
Proof. vm_compute. reflexivity. Qed.
Example demo_mode : match fst demo_run with Ok o => (o_mode o, o_original_chars o, o_optimized_chars o) | _ => ("", 0, 0) end =
  ("reversible_preview", 2005, 869).
Proof. vm_compute. reflexivity. Qed.
(** A witness of [preview_recoverable]: the run above, and reading it back. *)
Lemma preview_recoverable_witness :
  utf8_ok demo_output = true /\
  exists o, fst demo_run = Ok o /\ o_original_chars o = 2005 /\ o_optimized_chars o = ulen (o_content o).
Proof.
  assert (Hu : utf8_ok demo_output = true) by (vm_compute; reflexivity). split; [exact Hu|].
  destruct (preview_recoverable demo_word demo_settings demo_host demo_time (fun s => s) (fun s => Some s) (fun s => eq_refl)
    demo_output "k8s" "which pod is broken" "alice" demo_store (fst demo_run) (snd demo_run) Hu) as (o & H1 & H2 & H3 & _).
  - apply surjective_pairing.
  - exists o. split; [exact H1|]. split; [rewrite H2; vm_compute; reflexivity|exact H3].
Defined.
Example read_back :
  fst (Compaction.get demo_host demo_time (fun s => Some s) "alice" "tor_050aac2718e41e974cc2cd3f2f1a0322" (snd demo_run)) = Ok (Some demo_output) /\
  fst (Compaction.get demo_host demo_time (fun s => Some s) "mallory" "tor_050aac2718e41e974cc2cd3f2f1a0322" (snd demo_run)) = Ok None.
Proof. split; vm_compute; reflexivity. Qed.
Definition demo_article : string := String.concat " " (map (fun i => "sentence " +++ str_of_Z (Z.of_nat i) +++ " of the story.") (seq 0 60)).
Lemma excerpts_verbatim_witness :
  800 <= 800 /\ 800 < ulen demo_article /\
  fold_right (fun w s => width w + s) 0 (_excerpts demo_word demo_article "story 41" 800) <= 800.
Proof.
  assert (H : 800 < ulen demo_article) by (apply Z.ltb_lt; vm_compute; reflexivity).
  split; [lia|]. split; [exact H|]. apply (excerpts_verbatim demo_word demo_article "story 41" 800); [lia|exact H].
Defined.
Lemma rows_selected_witness : 2 ∈ _select_indices demo_word demo_rows 6 "which pod is broken".
Proof.
  destruct (rows_selected demo_word demo_rows 6 "which pod is broken") as (_ & _ & _ & H). apply H; [lia|]. left.
  split; [lia|]. apply Z.ltb_lt. vm_compute. reflexivity.
Defined.
Lemma pages_cover_witness : String.concat "" (map p_content (read_pages 4 "précis of a page" 5 0)) = "précis of a page".
Proof. apply (pages_cover "précis of a page" 5 4); [vm_compute; reflexivity|lia|apply Z.ltb_lt; vm_compute; reflexivity]. Defined.
Lemma search_is_greedy_witness :
  greedy (fun x y => (x =? sre_fold y)%string) (chars "An ana banana") (chars "ana") 0 [3; 8] 11.
Proof.
  pose proof (search_is_greedy (fun x y => (x =? sre_fold y)%string) (chars "An ana banana") (chars "ana") 4) as H.
  assert (E : collect_matches (fun x y => (x =? sre_fold y)%string) (Z.to_nat 4) (chars "An ana banana") (chars "ana") 0 = ([3; 8], 11))
    by (vm_compute; reflexivity).
  rewrite E in H. apply H; [discriminate|lia].
Defined.

(** The limits of a turn. *)
Definition demo_message (role text : string) : dict := [("role", VStr role); ("content", VStr text)].
Definition demo_history : list dict :=
  [demo_message "user" "first question"; demo_message "assistant" "first answer"; demo_message "user" "second question";
   demo_message "assistant" "second answer"; demo_message "user" "latest question"].
Example demo_budgeted : _select_history_payloads demo_history 4 100 = Ok (skipn 2 demo_history).
Proof. vm_compute. reflexivity. Qed.
Lemma image_decode_exact_witness :
  budget_ok (ImageBudget (64 * 1024 * 1024 - 5) 0) /\
  decode (ImageBudget (64 * 1024 * 1024 - 5) 0) (VStr "aGVsbG8=") = Ok ("hello", ImageBudget (64 * 1024 * 1024) 0).
Proof.
  assert (B : budget_ok (ImageBudget (64 * 1024 * 1024 - 5) 0)) by (unfold budget_ok; cbn; unfold MAX_IMAGE_REQUEST_BYTES; lia).
  split; [exact B|]. apply (image_decode_exact _ (VStr "aGVsbG8=") "hello" (ImageBudget (64 * 1024 * 1024) 0) B).
  exists "aGVsbG8=". split; [reflexivity|]. split; [vm_compute; reflexivity|]. split; [apply Z.ltb_lt; vm_compute; reflexivity|].
  split; [apply Z.leb_le; vm_compute; reflexivity|]. split; [vm_compute; reflexivity|].
  unfold budget_ok; cbn; unfold MAX_IMAGE_REQUEST_BYTES; lia.
Defined.
Example image_too_many : decode (ImageBudget (64 * 1024 * 1024 - 4) 0) (VStr "aGVsbG8=") = raise ValueError TOO_LARGE.
Proof. vm_compute. reflexivity. Qed.
Definition demo_routing : ModelRoutingConfig :=
  Routing {["high" := "gpt-large"; "low" := "gpt-small"]} {["daily_summary" := "low"]} {["deep-research" := "high"]}.
Definition demo_skills : list (string * string) := [("list_skills", ""); ("load_skill", "notes"); ("load_skill", "deep-research"); ("load_skill", "deep-research")].
Lemma routing_total_witness :
  validate_model_mappings demo_routing = Ok demo_routing /\
  resolve demo_routing VNone "chat" = Ok (Selection None None Automatic 0 None) /\
  exists a, alias (after_skills demo_routing demo_skills (Selection None None Automatic 0 None)) demo_routing "default" = Ok a.
Proof.
  assert (V : validate_model_mappings demo_routing = Ok demo_routing) by (vm_compute; reflexivity).
  assert (S : resolve demo_routing VNone "chat" = Ok (Selection None None Automatic 0 None)) by (vm_compute; reflexivity).
  split; [exact V|]. split; [exact S|]. exact (proj1 (routing_total demo_routing VNone "chat" _ demo_skills "default" V S)).
Defined.
Example demo_promoted : alias (after_skills demo_routing demo_skills (Selection None None Automatic 0 None)) demo_routing "default" = Ok "gpt-large".
Proof. vm_compute. reflexivity. Qed.

(** ** An answer and its citations

    Three references: the first is not in the ledger, the third names a
    placeholder host. *)
Definition ascii_digit (c : string) : option Z := None.
Definition ascii_word (c : string) : bool := false.
Definition demo_answer : string := join NL
  ["# Rivers"; ""; "The rivers rose [2] and fell again [1][3]."; ""; "## References"; "";
   "[1] A. News - https://news.example/a"; "[2] B. News - https://news.example/b"; "[3] C. Blog - https://example.com/c"].
Definition demo_ledger : string := dumps (VList [VStr "https://news.example/b"; VStr "https://news.example/c"; VStr "https://example.com/c"]).
Definition demo_audit := audit_answer ascii_digit ascii_word WebExamples.demo_net demo_answer demo_ledger true start.
Example demo_audited : match fst demo_audit with Ok o => (r_passed o, r_valid o, r_map o) | _ => (true, [], None) end =
  (false, [(2, "https://news.example/b")], Some [(2, 1)]).
Proof. vm_compute. reflexivity. Qed.
Example demo_repaired : match fst demo_audit with Ok o => r_markdown o | _ => "" end =
  join NL ["# Rivers"; ""; "The rivers rose [1] and fell again ."; ""; "## References"; ""; "[1] B. News - https://news.example/b"].
Proof. vm_compute. reflexivity. Qed.
Definition demo_split : list string * list string := default ([], []) (split_section true (chars demo_answer)).
Definition demo_citations : list citation :=
  match citations_of ascii_digit (splitlines (text_of (snd demo_split))) with Ok cs => cs | Raise _ => [] end.
Lemma demo_ran : exists o, fst demo_audit = Ok o /\ demo_audit = (Ok o, snd demo_audit).
Proof.
  destruct (fst demo_audit) as [o|e] eqn:E.
  - exists o. split; [done|]. by rewrite <- E, <- surjective_pairing.
  - assert (H : match fst demo_audit with Ok _ => True | Raise _ => False end) by (vm_compute; exact I). by rewrite E in H.
Qed.
Lemma audit_accepts_checked_witness : exists o, fst demo_audit = Ok o /\
  (forall nu, nu ∈ r_valid o -> exists c, c ∈ demo_citations /\ ct_number c = fst nu /\ head (ct_urls c) = Some (snd nu) /\
     _normalize_audit_url (snd nu) ∈ map _normalize_audit_url (_parse_source_urls demo_ledger)).
Proof.
  destruct demo_ran as (o & Ho & R). exists o. split; [exact Ho|]. intros nu Hnu.
  destruct (audit_accepts_checked ascii_digit ascii_word WebExamples.demo_net demo_answer demo_ledger true start o _
    (fst demo_split) (snd demo_split) demo_citations R) as (H & _); [vm_compute; reflexivity|vm_compute; reflexivity|].
  destruct (H nu Hnu) as (c & H1 & H2 & _ & H3 & _ & H4). exists c. split; [exact H1|]. split; [exact H2|]. split; [exact H3|].
  apply H4. vm_compute. reflexivity.
Defined.
Lemma repair_renumbers_witness : exists o m, fst demo_audit = Ok o /\ r_map o = Some m /\ map fst m ≡ₚ map fst (r_valid o) /\
  map snd m = range 1 (size (map fst (r_valid o)) + 1).
Proof.
  destruct demo_ran as (o & Ho & R).
  destruct (repair_renumbers ascii_digit ascii_word WebExamples.demo_net ltac:(discriminate) demo_answer demo_ledger true start o _
    (fst demo_split) (snd demo_split) R) as (m & ns & body & refs & H1 & _ & _ & H2 & H3 & _); [vm_compute; reflexivity|].
  exists o, m. split; [exact Ho|]. split; [exact H1|]. split; [exact H2|exact H3].
Defined.
(** A heading that only starts with the word begins the reference section: the
    citations after it are not inline ones. *)
Example heading_prefix_ends_body :
  let answer := join NL ["Rivers rose [1]."; "## Sources of the flood"; "Rain fell [7] for a week."; "## References"; "[1] A https://news.example/a"] in
  match fst (audit_answer ascii_digit ascii_word WebExamples.demo_net answer "" true start) with Ok o => r_passed o | _ => false end = true.
Proof. vm_compute. reflexivity. Qed.
Example demo_planned :
  map e_id (p_selected (make_plan (fun s => s) [] "latest kubernetes weather" "[]" (dumps (VList [VStr "web"])) "auto")) = [].
Proof. vm_compute. reflexivity. Qed.

(** ** A page scraped and a claim verified *)
Definition page_md : string := "# News" +++ NL +++ NL +++ "The rivers rose by two metres in the north on Monday, officials said, and fell again by Thursday evening.".
(** The session of a single caller: asked, loaded, kept and answered. *)
Definition single_article (url : string) (schemes : list string) : eff net_world (article_t * string) :=
  '(url, schemes, share) ← lift (clean_request url schemes);
  d ← load_body WebExamples.demo_net demo_md WebExamples.demo_clock url schemes (fun _ _ _ => Ok page_md);
  a ← lift (fst (keep (PublicContentSession 300 64 8388608) url schemes d (f_of_Z 0)));
  mret (a, if (share : bool) then "miss" else "bypass").
Lemma single_law url schemes a status w w' : single_article url schemes w = (Ok (a, status), w') ->
  exists u share, clean_request url schemes = Ok (u, clean_schemes schemes, share) /\ a_url a = u.
Proof.
  unfold single_article. intros H. apply bind_Ok in H as ([[u s] share] & v & [= Hc <-] & H).
  apply bind_Ok in H as (d & v2 & _ & H). apply bind_Ok in H as (a' & v3 & [= Hk <-] & [= -> _ _]).
  exists u, share. assert (s = clean_schemes schemes) as ->.
  { unfold clean_request in Hc. apply bind_ok in Hc as (u' & _ & Hc). apply bind_ok in Hc as (p & _ & Hc).
    destruct (userinfo p) as [[|] [|]]; try done. apply bind_ok in Hc as (? & _ & Hc). by injection Hc as _ <- _. }
  split; [done|]. unfold keep in Hk. repeat case_hyp Hk; try done; by injection Hk as <-.
Qed.
Definition single_source : article_source := ArticleSource single_article single_law.
Definition demo_scrape : scrape_config := ScrapeConfig "daedalus" true ["news.example"] ["https"; "http"] 1000 "[cut]" (f_of_Z 20).
Definition demo_rules : robots_policy :=
  match robots_parse ["User-agent: *"; "Disallow: /private"; "Allow: /"] Start no_entry (RobotsFile [] None) with Ok f => Rules f | Raise _ => AllowAll end.
Definition scrape (url : string) := _fetch_response (fun _ => "") (fun _ => "Error") WebExamples.demo_net WebExamples.demo_clock single_source (fun _ => mret demo_rules) ulen (fun _ => false) demo_scrape url false start.
Example demo_scraped : fst (scrape "see https://news.example/today.") = Ok page_md.
Proof. vm_compute. reflexivity. Qed.
Example demo_refused : fst (scrape "https://news.example/private/x") = Ok (_format_error ROBOTS_DISALLOWED).
Proof. vm_compute. reflexivity. Qed.
Lemma scrape_permitted_witness : exists text, fst (scrape "see https://news.example/today.") = Ok text /\
  ((exists message, text = _format_error message) \/
   exists u parsed a status, request_url demo_scrape "see https://news.example/today." = Ok (u, parsed) /\ userinfo parsed = (None, None) /\
     robots_consented (fun _ => mret demo_rules) demo_scrape u parsed /\ text = scrape_result ulen demo_scrape false a status).
Proof.
  destruct (scrape_permitted (fun _ => "") (fun _ => "Error") WebExamples.demo_net WebExamples.demo_clock single_source (fun _ => mret demo_rules)
    ulen (fun _ => false) demo_scrape "see https://news.example/today." false start _ _ (surjective_pairing _))
    as (text & H & [Hm|(u & parsed & a & status & H1 & H2 & _ & H3 & _ & H4)]); exists text; (split; [exact H|]); [left; exact Hm|right].
  exists u, parsed, a, status. split; [exact H1|]. split; [exact H2|]. split; [exact H3|exact H4].
Defined.
Lemma truncation_bounded_witness : exists left kept,
  fst (_truncate_to_token_limit ulen page_md 40 "[cut]") = kept +++ "[cut]" /\ prefix_of kept (utake left page_md) /\
  ulen (utake left page_md) <= 40 - 5.
Proof.
  assert (E : _truncate_to_token_limit ulen page_md 40 "[cut]" = (fst (_truncate_to_token_limit ulen page_md 40 "[cut]"), true))
    by (vm_compute; reflexivity).
  destruct (truncation_bounded ulen page_md 40 "[cut]" _ _ E) as (_ & left & kept & H1 & H2 & _ & H3 & _).
  exists left, kept. split; [exact H1|]. split; [exact H2|]. destruct H3 as [->|H3]; [vm_compute; discriminate|exact H3].
Defined.
Definition demo_cache : robots_cache :=
  _finish _ROBOTS_CACHE_MAX_ENTRIES _ROBOTS_CACHE_TTL_SECONDS "https://news.example/robots.txt" 0 (Some (demo_rules, true)) (f_of_Z 5)
    (snd (robots_get (RobotsCache [] [] 0) "https://news.example/robots.txt" (f_of_Z 4))).
Lemma robots_cache_invariant_witness :
  rc_entries demo_cache = [("https://news.example/robots.txt", (f_of_Z 605, demo_rules))] /\ rc_pending demo_cache = [] /\
  robots_cache_ok (fun _ o => o = (demo_rules, true)) demo_cache.
Proof.
  split; [vm_compute; reflexivity|]. split; [vm_compute; reflexivity|]. apply robots_cache_invariant.
  eapply rtc_l; [by eapply (Robots_asked _ "https://news.example/robots.txt" (f_of_Z 4)), surjective_pairing|].
  eapply rtc_l; [apply (Robots_finished _ "https://news.example/robots.txt" 0 (Some (demo_rules, true)) (f_of_Z 5)); by intros o [= <-]|]. apply rtc_refl.
Defined.
Example demo_served : fst (robots_get demo_cache "https://news.example/robots.txt" (f_of_Z 604)) = Cached demo_rules /\
  fst (robots_get demo_cache "https://news.example/robots.txt" (f_of_Z 605)) = Waiting 1.
Proof. split; vm_compute; reflexivity. Qed.
Definition long_page : string := String.concat " " (map (fun i => "line " +++ str_of_Z (Z.of_nat i) +++ " of the record.") (seq 0 40)).
Lemma excerpt_bounded_witness : 256 <= 256 /\ ulen (fst (_claim_focused_excerpt ascii_word long_page "the record of line 20" 256)) <= 256.
Proof.
  split; [lia|]. pose proof (excerpt_bounded ascii_word long_page "the record of line 20" 256 ltac:(lia)) as H.
  destruct (_claim_focused_excerpt _ _ _ _). exact (proj1 H).
Defined.
Definition demo_chat (s u : string) : eff net_world llm_result := mret (Message (VStr ("```json" +++ NL +++ dumps (VDict [("verdict", VStr "supported"); ("confidence", VFloat (dec_to_float false 9 (-1))); ("evidence", VStr "rose by two metres"); ("reasoning", VStr " The page says so. "); ("claim_issues", VList [])]) +++ NL +++ "```")) "").
Definition demo_verifier := VerifierConfig "critic" 8000 (f_of_Z 20) 2000 None [].
Definition demo_conf (v : value) : option float := match v with VFloat f => Some f | _ => None end.
Definition demo_verdict := verdict_of ascii_word ulen demo_conf (_call_llm demo_chat) (fun _ => "") (fun _ => "") (fun _ => "Error") single_source demo_verifier "The rivers rose by two metres." "https://news.example/today" "" start.
Lemma supported_needs_source_witness : exists content, source_read single_source "https://news.example/today" content /\
  exists u a status w w', fetchable "https://news.example/today" = Ok u /\ get_article single_source u _SOURCE_SCHEMES w = (Ok (a, status), w') /\
    content = a_markdown a.
Proof.
  assert (E : exists d, demo_verdict = (Ok (d, true), snd demo_verdict) /\ dget "verdict" d = VStr "supported").
  { eexists. split; [vm_compute; reflexivity|]. vm_compute. reflexivity. }
  destruct E as (d & E & V).
  destruct (supported_needs_source ascii_word ulen demo_conf demo_chat (fun _ => "") (fun _ => "") (fun _ => "Error") single_source
    demo_verifier _ _ _ _ _ _ _ E V) as (_ & _ & content & _ & _ & _ & _ & _ & _ & H & _).
  exists content. split; [exact H|]. destruct H as (u & a & status & w & w' & H1 & H2 & _ & H3). exists u, a, status, w, w'.
  split; [exact H1|]. split; [exact H2|exact H3].
Defined.
