(* ===== verification/Runtime.v ===== *)
(** * The tool service ([daedalus_runtime/service.py])

    Runs of the agent as the Python side sees them: a run is prepared, its
    tools are called, and it is released.  Local tools and the MCP manager are
    an interface; the history budget, the routing of models, the outcome of a
    tool and the compaction of its result are the components of that name. *)
From S2P Require Import Prelude PyStr PyFloat PyVal Json JsonRoundtrip Redis Sha PyUrl World Identity Policy Mcp PyNet Compaction AgentBudget.
#[local] Open Scope Z_scope.

(** ** Approval markers in the text of a tool *)
Definition marker_token_char (c : ascii) : bool := is_alnum_lower c || is_upper c || char_is "_" c || char_is "-" c.
Definition OMITTED_MARKER : string := "[untrusted approval marker omitted]".
Definition first_prefix (ps : list string) (s : string) : option string := head (omap (fun p => strip_prefix p s) ps).
Definition MARKER_OPEN : list string := ["<!--"; "&lt;!--"].
Definition MARKER_NAME : string := "daedalus-mcp-approval:".
Definition MARKER_CLOSE : list string := ["-->"; "--&gt;"].
(** The longest token that a closing bracket follows; [some]: there is a
    character of the token already. *)
Fixpoint marker_tail (some : bool) (s : string) : option string :=
  let here := if some then first_prefix MARKER_CLOSE s else None in
  match s with
  | String c r => if marker_token_char c then match marker_tail true r with Some x => Some x | None => here end else here
  | EmptyString => here
  end.
(** [re.match]: what follows the marker that [s] starts with. *)
Definition marker_at (s : string) : option string :=
  match first_prefix MARKER_OPEN s with
  | Some r => match strip_prefix MARKER_NAME r with Some r => marker_tail false r | None => None end
  | None => None
  end.
Fixpoint redact (fuel : nat) (s : string) : string :=
  match fuel, s with
  | S fuel, String c r => match marker_at s with Some rest => OMITTED_MARKER +++ redact fuel rest | None => String c (redact fuel r) end
  | _, _ => s
  end.
Definition redact_markers (s : string) : string := redact (String.length s) s.

(** ** The profile of a request *)
Definition DAILY_BRIEFING_TRIGGERS : list string :=
  ["daily summary"; "daily summaries"; "daily briefing"; "daily briefings"; "daily brief"; "daily summry"; "morning briefing";
   "morning brief"; "catch me up on today"].
Definition _is_daily_briefing_query (query : string) : bool :=
  let normalized := join " " (split_ws (lower query)) in existsb (contains normalized) DAILY_BRIEFING_TRIGGERS.
Definition DAILY_SUMMARY_PROFILE : string := "daily_summary".
Definition request_profile (user_text : string) (autonomous : bool) : string :=
  if autonomous then "default" else if _is_daily_briefing_query user_text then DAILY_SUMMARY_PROFILE else "default".
(** [autonomous_llm_config]; the key is kept as text. *)
Definition AUTONOMY_ENV : list (string * string) :=
  [("base_url", "AUTONOMOUS_LLM_MODEL_BASE_URL"); ("api_key", "AUTONOMOUS_LLM_MODEL_API_KEY"); ("model_name", "AUTONOMOUS_LLM_MODEL_MODEL")].
Definition valid_endpoint (url : string) : bool :=
  match (u ← urlsplit url; p ← port u; Ok u) with
  | Ok u => is_in (u_scheme u) ["http"; "https"] && match hostname u with Some h => negb (h =? "")%string | None => false end &&
            match userinfo u with (name, password) => (default "" name =? "")%string && (default "" password =? "")%string end &&
            (u_query u =? "")%string && (u_fragment u =? "")%string
  | Raise _ => false
  end.
Definition autonomous_llm_config (getenv : string -> option string) (max_retries : Z) (request_timeout : float) : result (option dict) :=
  let values := map (fun fe => (fst fe, (snd fe, strip (default "" (getenv (snd fe)))))) AUTONOMY_ENV in
  let blank v := (snd (snd v) =? "")%string in
  if forallb blank values then Ok None else
  match List.filter blank values with
  | _ :: _ as missing => raise ValueError ("Autonomy model configuration requires " +++ join ", " (map (fun v => fst (snd v)) missing))
  | [] =>
      let value k := match List.find (fun v => (fst v =? k)%string) values with Some (_, (_, s)) => s | None => "" end in
      if negb (valid_endpoint (value "base_url")) then raise ValueError "AUTONOMOUS_LLM_MODEL_BASE_URL must be an HTTP(S) base URL" else
      Ok (Some [("api_type", VStr "responses"); ("base_url", VStr (value "base_url")); ("api_key", VStr (value "api_key"));
                ("model_name", VStr (value "model_name")); ("max_retries", VInt max_retries); ("request_timeout", VFloat request_timeout);
                ("truncation", VStr "auto")])
  end.

(** ** Runs *)
Record AgentRun := MkAgentRun {
  terminal_content : option string; attempts : dict; nonretryable_mcp_results : dict; briefing_execution : dict }.
Definition new_artifacts : AgentRun := MkAgentRun None [] [] [].
Record run_context := RunContext {
  rn_user : string; rn_query : string; rn_tools : list string; rn_groups : list string; rn_selection : ModelSelection;
  rn_created : float; rn_artifacts : AgentRun }.
(** What a call sees while it runs: the world, the artifacts of its run, and the
    skills that were loaded, as (operation, name). *)
Record scope (W : Type) := Scope { sc_world : W; sc_artifacts : AgentRun; sc_skills : list (string * string) }.
Arguments Scope {W}. Arguments sc_world {W}. Arguments sc_artifacts {W}. Arguments sc_skills {W}.
(** The tools behind the service.  The law is what the manager of remote tools
    promises: it asks for an approval only with a marker of the gate. *)
Record leaf_tools (W : Type) := Leaves {
  lf_groups : list string;
  lf_schema : string -> eff W dict;
  lf_catalogue : list string -> string -> bool -> eff W (option (list dict));
  lf_mcp_call : string -> dict -> string -> eff (scope W) call_result;
  lf_invoke : string -> dict -> eff (scope W) value;
  lf_registered : W -> string -> Prop;
  lf_marker_law : forall name arguments user s d s', lf_mcp_call name arguments user s = (Ok (Answer d), s') ->
    py_eq (dget "terminal_reason" d) (VStr "mcp_approval_required") = true ->
    truthy (dget "terminal" d) = true /\ exists reason, dget "content" d = VStr reason /\ lf_registered (sc_world s') reason }.
Arguments lf_groups {W}. Arguments lf_schema {W}. Arguments lf_catalogue {W}. Arguments lf_mcp_call {W}.
Arguments lf_invoke {W}. Arguments lf_registered {W}. Arguments lf_marker_law {W}.
Record http_request := Request { rq_headers : option header_map; rq_run_id : string; rq_conversation : option string }.
Record service_config := ServiceConfig {
  sv_config : dict; sv_workflow : dict; sv_routing : ModelRoutingConfig; sv_compaction : CompactionSettings }.
Abbreviation run_key := (string * string)%type.
Record service (W : Type) := Service {
  sv_runs : list (string * run_context); sv_released : list (run_key * float); sv_world : W }.
Arguments Service {W}. Arguments sv_runs {W}. Arguments sv_released {W}. Arguments sv_world {W}.
Definition run_get (id : string) (runs : list (string * run_context)) : option run_context :=
  snd <$> List.find (fun kv => (fst kv =? id)%string) runs.
Definition run_del (id : string) (runs : list (string * run_context)) : list (string * run_context) :=
  List.filter (fun kv => negb (fst kv =? id)%string) runs.
Definition key_in (k : run_key) (released : list (run_key * float)) : bool := existsb (fun e => bool_decide (fst e = k)) released.
Definition RUN_LIMIT : Z := 128.
Definition RUN_SECONDS : float := f_of_Z 7200.
Definition TOMBSTONES : Z := 256.
Definition TOMBSTONE_SECONDS : float := f_of_Z 180.
Definition http {A} (status : Z) (detail : string) : result A := raise (HTTPException status) detail.
Definition CANCELLED_RUN : string := "Run was cancelled during preparation".
Definition NO_RUN : string := "Run is unavailable".

Section Service.
Context {W : Type} (leaves : leaf_tools W) (config : service_config) (getenv : string -> option string).
(** The automatic memory context of a user, conversation and query. *)
Context (memory_context : string -> option string -> string -> eff W (option string)) (hindsight : bool).
Abbreviation S_ := (service W).
Definition on_world {A} (m : eff W A) : eff S_ A := fun s =>
  let '(r, w) := m (sv_world s) in (r, Service (sv_runs s) (sv_released s) w).
Definition wf (k : string) (def : value) : value := dget_or k def (sv_workflow config).

(** *** Preparing a run *)
Definition message_ok (m : value) : result bool :=
  match m with
  | VDict d =>
      match dget "role" d with
      | VList _ | VDict _ => raise TypeError "unhashable type"
      | VStr r => Ok (is_in r ["user"; "assistant"] && is_str (dget "content" d))
      | _ => Ok false
      end
  | _ => Ok false
  end.
Fixpoint checked_messages (l : list value) : result (list dict) :=
  match l with
  | [] => Ok []
  | m :: l =>
      ok ← message_ok m;
      match m with
      | VDict d => if (ok : bool) then rest ← checked_messages l; Ok (d :: rest)
                   else http 400 "Messages require a user or assistant role and text content"
      | _ => http 400 "Messages require a user or assistant role and text content"
      end
  end.
Definition is_user (m : dict) : bool := py_eq (dget "role" m) (VStr "user").
Definition query_of (messages : list dict) : string :=
  match List.find is_user (rev messages) with Some m => py_str (dget "content" m) | None => "" end.
(** Before the first wait: the identity, the tombstones, the messages. *)
Definition prepare_admit (body : dict) (rq : http_request) (now : float) : eff S_ (string * list value) :=
  user ← lift (authenticated_user_id_from_headers getenv (rq_headers rq));
  if (rq_run_id rq =? "")%string then lift (http 400 "Run identity is required") else
  _ ← modify (fun s => Service (sv_runs s) (List.filter (fun e => f_ltb now (snd e)) (sv_released s)) (sv_world s));
  released ← gets sv_released;
  if key_in (rq_run_id rq, user) released then lift (http 409 CANCELLED_RUN) else
  match dget "messages" body with
  | VList (m :: l) => mret (user, m :: l)
  | _ => lift (http 400 "messages must be a nonempty array")
  end.
Definition int_of (k : string) (def : Z) : result Z := py_int (wf k (VInt def)).
(** The model of the run and how it was chosen. *)
Definition choose_model (body : dict) (autonomy : bool) (profile : string) : result (dict * ModelSelection) :=
  selection ← resolve (sv_routing config) (dget "additional_props" body) profile;
  llms ← dgetitem "llms" (sv_config config);
  name ← dgetitem "llm_name" (sv_workflow config);
  model ← match llms, name with VDict d, VStr n => dgetitem n d | _, _ => raise TypeError "" end;
  model ← match model with VDict d => Ok (ddel "_type" d) | _ => raise TypeError "cannot convert to a dict" end;
  '(model, selection) ←
    (if autonomy then
       retries ← py_int (dget_or "max_retries" (VInt 3) model);
       seconds ← py_float (dget_or "request_timeout" (VInt 60) model);
       autonomous ← autonomous_llm_config getenv retries seconds;
       Ok (match autonomous with
           | Some m => (m, Selection None None Autonomous 0 None)
           | None => (model, selection)
           end)
     else Ok (model, selection));
  default ← dgetitem "model_name" model;
  default ← match default with VStr s => Ok s | _ => raise TypeError "" end;
  name ← alias selection (sv_routing config) default;
  let model := dset "model_name" (VStr name) model in
  seconds ← py_float (dget_or "request_timeout" (VInt 60) model);
  let model := dset "request_timeout" (VFloat seconds) model in
  retries ← py_int (dget_or "max_retries" (VInt 3) model);
  Ok (dset "max_retries" (VInt retries) model, selection).
Definition tool_names (profile : string) : result (list string) :=
  let names := wf "tools" (VList []) in
  as_names (if (profile =? DAILY_SUMMARY_PROFILE)%string then wf "daily_summary_tools" names else names).
(** The group whose tool the request forces. *)
Definition forced_group (body : dict) (group_names : list string) : option string :=
  match dget "tool_choice" body with
  | VDict choice =>
      if negb (py_eq (dget "type" choice) (VStr "function")) then None else
      match vor (match dget "function" choice with VDict f => dget "name" f | _ => VNone end) (dget "name" choice) with
      | VStr name =>
          match List.find (fun g => startswith name (g +++ "__") && negb (name =? g +++ "__connect")%string) group_names with
          | Some g => if (g =? "")%string then None else Some g
          | None => None
          end
      | _ => None
      end
  | _ => None
  end.
Fixpoint local_schemas (names : list string) : eff W (list dict) :=
  match names with
  | [] => mret []
  | n :: names => s ← lf_schema leaves n; rest ← local_schemas names; mret (s :: rest)
  end.
(** The schemas of a run; [None] when the wait was cancelled. *)
Definition discover_tools (body : dict) (user : string) (names : list string) : eff W (option (list dict)) :=
  let group_names := List.filter (fun n => is_in n (lf_groups leaves)) names in
  local ← local_schemas (List.filter (fun n => negb (is_in n (lf_groups leaves))) names);
  remote ← lf_catalogue leaves group_names user true;
  match remote with
  | None => mret None
  | Some remote =>
      match forced_group body group_names with
      | None => mret (Some (local ++ remote))
      | Some g =>
          more ← lf_catalogue leaves [g] user false;
          mret (match more with
                | Some more => Some (local ++ List.filter (fun t => negb (startswith (schema_name t) (g +++ "__"))) remote ++ more)
                | None => None
                end)
      end
  end.
(** [messages.insert] before the last message of the user. *)
Fixpoint insert_before_last_user (m : dict) (rest_has_user : list dict -> bool) (messages : list dict) : list dict :=
  match messages with
  | [] => []
  | x :: l => if is_user x && negb (rest_has_user l) then m :: x :: l else x :: insert_before_last_user m rest_has_user l
  end.
Definition with_context (context : option string) (messages : list dict) : list dict :=
  match context with
  | Some (String c t) =>
      insert_before_last_user [("role", VStr "user"); ("content", VStr (String c t))] (existsb is_user) messages
  | _ => messages
  end.
Definition remembered (autonomy : bool) (user : string) (rq : http_request) (query : string) (messages : list dict) : eff W (list dict) :=
  if autonomy || negb hindsight then mret messages else
  catch (context ← memory_context user (rq_conversation rq) query; mret (with_context context messages))
        [Exception_] (fun _ => mret messages).
Record prepared := Prepared {
  pr_user : string; pr_query : string; pr_profile : string; pr_selection : ModelSelection; pr_model : dict;
  pr_messages : list dict; pr_tools : list dict; pr_groups : list string }.
(** Everything between the two checks: it waits, and touches only the world. *)
Definition prepare_build (body : dict) (rq : http_request) (user : string) (raw : list value) : eff W (option prepared) :=
  messages ← lift (checked_messages raw);
  max_messages ← lift (int_of "max_history" 50);
  max_tokens ← lift (int_of "max_history_tokens" 32000);
  messages ← lift (_select_history_payloads messages max_messages max_tokens);
  let query := query_of messages in
  let autonomy := is_authenticated_autonomy_request getenv (rq_headers rq) in
  let profile := request_profile query autonomy in
  '(model, selection) ← lift (choose_model body autonomy profile);
  names ← lift (tool_names profile);
  tools ← discover_tools body user names;
  match tools with
  | None => mret None
  | Some tools =>
      messages ← remembered autonomy user rq query messages;
      mret (Some (Prepared user query profile selection model messages tools (List.filter (fun n => is_in n (lf_groups leaves)) names)))
  end.
Definition dict_at (k : string) (d : dict) : result dict :=
  match dget_or k (VDict []) d with VDict d => Ok d | _ => raise AttributeError "object has no attribute 'get'" end.
Definition routes_value (m : gmap string string) : value := VDict (map (fun kv => (fst kv, VStr (snd kv))) (map_to_list m)).
Definition prepared_answer (p : prepared) : result dict :=
  iterations ← int_of "max_iterations" 128;
  seconds ← py_float (wf "daily_summary_research_budget_seconds" (VInt 300));
  guard ← dict_at "loop_guard" (sv_workflow config);
  limit ← (if truthy (dget_or "enabled" (VBool true) guard) then py_int (dget_or "repeated_error_limit" (VInt 4) guard) else Ok 0);
  Ok [("model", VDict (pr_model p)); ("instructions", wf "instructions" (VStr "")); ("messages", VList (map VDict (pr_messages p)));
      ("tools", VList (map VDict (pr_tools p))); ("max_iterations", VInt iterations);
      ("model_routes", routes_value (model_routes (sv_routing config)));
      ("explicit_model_profile", VBool (explicit (pr_selection p)));
      ("daily_summary", VBool (pr_profile p =? DAILY_SUMMARY_PROFILE)%string);
      ("final_tools", wf "daily_summary_final_tools" (VList [])); ("research_budget_seconds", VFloat seconds);
      ("repeated_error_limit", VInt limit); ("parallel_tool_calls", VBool (truthy (wf "parallel_tool_calls" (VBool true))))].
Definition run_of (p : prepared) (now : float) : run_context :=
  RunContext (pr_user p) (pr_query p) (map schema_name (pr_tools p)) (pr_groups p) (pr_selection p) now new_artifacts.
(** After the last wait: the checks again, and the run is there. *)
Definition prepare_commit (rq : http_request) (p : prepared) (now : float) : eff S_ dict :=
  _ ← modify (fun s => Service (List.filter (fun kv => f_ltb (f_sub now (rn_created (snd kv))) RUN_SECONDS) (sv_runs s)) (sv_released s) (sv_world s));
  runs ← gets sv_runs;
  released ← gets sv_released;
  if RUN_LIMIT <=? Z.of_nat (length runs) then lift (http 429 "Tool runtime capacity reached") else
  match run_get (rq_run_id rq) runs with
  | Some _ => lift (http 409 "Run identity is already active")
  | None =>
      if key_in (rq_run_id rq, pr_user p) released then lift (http 409 CANCELLED_RUN) else
      _ ← modify (fun s => Service (sv_runs s ++ [(rq_run_id rq, run_of p now)]) (sv_released s) (sv_world s));
      lift (prepared_answer p)
  end.
Definition prepare (body : dict) (rq : http_request) (started finished : float) : eff S_ (option dict) :=
  '(user, raw) ← prepare_admit body rq started;
  p ← on_world (prepare_build body rq user raw);
  match p with
  | None => mret None
  | Some p => answer ← prepare_commit rq p finished; mret (Some answer)
  end.
(** [context(request)]. *)
Definition context (rq : http_request) : eff S_ run_context :=
  runs ← gets sv_runs;
  match run_get (rq_run_id rq) runs with
  | None => lift (http 404 NO_RUN)
  | Some run =>
      user ← lift (authenticated_user_id_from_headers getenv (rq_headers rq));
      if negb (rn_user run =? user)%string then lift (http 404 NO_RUN) else mret run
  end.

(** *** Releasing a run *)
Fixpoint key_set (k : run_key) (until : float) (l : list (run_key * float)) : list (run_key * float) :=
  match l with
  | [] => [(k, until)]
  | e :: l => if bool_decide (fst e = k) then (k, until) :: l else e :: key_set k until l
  end.
Definition release (rq : http_request) (now : float) : eff S_ dict :=
  user ← lift (authenticated_user_id_from_headers getenv (rq_headers rq));
  runs ← gets sv_runs;
  _ ← (match run_get (rq_run_id rq) runs with
       | Some run =>
           if negb (rn_user run =? user)%string then lift (http 404 NO_RUN)
           else modify (fun s => Service (run_del (rq_run_id rq) (sv_runs s)) (sv_released s) (sv_world s))
       | None =>
           modify (fun s =>
             let released := if TOMBSTONES <=? Z.of_nat (length (sv_released s)) then tl (sv_released s) else sv_released s in
             Service (sv_runs s) (key_set (rq_run_id rq, user) (f_add now TOMBSTONE_SECONDS) released) (sv_world s))
       end);
  mret [("status", VStr "released")].
End Service.

(** ** Calling a tool *)
Section Call.
Context {W : Type} (leaves : leaf_tools W) (config : service_config).
Context {R : Type} `{RS : RedisServer R} (h : host R) (monotonic : nat -> float) (compress : string -> string) (wide_word : string -> bool).
(** The state of a call: its run, the world, the store of originals, and the
    skills it loaded when the caller keeps the selection itself. *)
Record call_state := CallState { cs_run : run_context; cs_world : W; cs_store : store_world (R:=R); cs_loaded : list string }.
Definition set_artifacts (a : AgentRun) (r : run_context) : run_context :=
  RunContext (rn_user r) (rn_query r) (rn_tools r) (rn_groups r) (rn_selection r) (rn_created r) a.
Definition set_selection (m : ModelSelection) (r : run_context) : run_context :=
  RunContext (rn_user r) (rn_query r) (rn_tools r) (rn_groups r) m (rn_created r) (rn_artifacts r).
Definition add_tools (names : list string) (r : run_context) : run_context :=
  RunContext (rn_user r) (rn_query r) (rn_tools r ++ names) (rn_groups r) (rn_selection r) (rn_created r) (rn_artifacts r).
(** [skill_loaded], for every skill the tool loaded. *)
Definition note_skills (explicit_ : bool) (skills : list (string * string)) (s : call_state) : call_state :=
  if explicit_ then CallState (cs_run s) (cs_world s) (cs_store s) (cs_loaded s ++ map snd skills)
  else CallState (set_selection (fold_left (fun m e => skill_loaded m (fst e) (snd e) (sv_routing config)) skills (rn_selection (cs_run s))) (cs_run s))
                 (cs_world s) (cs_store s) (cs_loaded s).
(** The artifacts are the run's own object, also when the tool fails. *)
Definition in_scope {A} (explicit_ : bool) (m : eff (scope W) A) : eff call_state A := fun s =>
  let '(r, sc) := m (Scope (cs_world s) (rn_artifacts (cs_run s)) []) in
  (r, note_skills explicit_ (sc_skills sc)
        (CallState (set_artifacts (sc_artifacts sc) (cs_run s)) (sc_world sc) (cs_store s) (cs_loaded s))).
Definition on_run (f : run_context -> run_context) : eff call_state unit :=
  modify (fun s => CallState (f (cs_run s)) (cs_world s) (cs_store s) (cs_loaded s)).
Definition in_store {A} (m : eff store_world A) : eff call_state A := fun s =>
  let '(r, st) := m (cs_store s) in (r, CallState (cs_run s) (cs_world s) st (cs_loaded s)).
Definition group_part (name : string) : string := match cut name "__" with Some (g, _) => g | None => name end.
Definition names_in (v : value) : list string :=
  match v with VList l => omap (fun t => match t with VDict d => Some (schema_name d) | _ => None end) l | _ => [] end.
Definition wire_text (v : value) : string := match v with VStr s => s | _ => dumps_with (Opts false ", " ": " false None) v end.
(** The result of the tool itself; [None] for a cancelled call. *)
Definition run_tool (name : string) (arguments : dict) (explicit_ : bool) : eff call_state (option dict) :=
  run ← gets cs_run;
  if is_in (group_part name) (rn_groups run) then
    r ← in_scope explicit_ (lf_mcp_call leaves name arguments (rn_user run));
    match r with
    | CallCancelled => mret None
    | Answer d => _ ← on_run (add_tools (names_in (dget_or "tools" (VList []) d))); mret (Some d)
    end
  else
    v ← in_scope explicit_ (lf_invoke leaves name arguments);
    mret (Some [("content", VStr (wire_text v))]).
Definition text_at (k : string) (d : dict) : result string :=
  v ← dgetitem k d; match v with VStr s => Ok s | _ => raise TypeError "expected string or bytes-like object" end.
Definition APPROVAL_REQUIRED : value := VStr "mcp_approval_required".
Definition without_markers (result_ : dict) : result dict :=
  if py_eq (dget "terminal_reason" result_) APPROVAL_REQUIRED then Ok result_ else
  content ← text_at "content" result_; Ok (dset "content" (VStr (redact_markers content)) result_).
Definition classified (result_ : dict) : result dict :=
  content ← dgetitem "content" result_;
  o ← tool_outcome content (if truthy (dget "is_error" result_) then Some "error" else None);
  let result_ := dset "is_error" (VBool (failed o)) result_ in
  Ok (if failed o
      then dset "error_signature" (VStr (sha256_hex (dumps_with (Opts true ", " ": " true None) (comparable o)))) result_
      else result_).
Definition with_artifact (result_ : dict) : eff call_state dict :=
  run ← gets cs_run;
  match terminal_content (rn_artifacts run) with
  | None => mret result_
  | Some t =>
      let a := rn_artifacts run in
      _ ← on_run (set_artifacts (MkAgentRun None (attempts a) (nonretryable_mcp_results a) (briefing_execution a)));
      mret (dmerge result_ [("content", VStr t); ("terminal", VBool true); ("terminal_reason", VStr "validated_artifact")])
  end.
Definition executor_state (a : AgentRun) : value :=
  VDict [("attempts", VDict (attempts a)); ("briefing_execution", VDict (briefing_execution a));
         ("nonretryable_mcp_results", VDict (nonretryable_mcp_results a))].
(** The name under which the compaction knows the tool. *)
Definition compaction_name (name : string) : result string :=
  functions ← dict_at "functions" (sv_config config);
  f ← dict_at name functions;
  Ok (if py_eq (dget "_type" f) (VStr "webscrape") then "webscrape_tool" else name).
Definition compacted (name : string) (result_ : dict) : eff call_state dict :=
  content ← lift (text_at "content" result_);
  tool ← lift (compaction_name name);
  run ← gets cs_run;
  o ← in_store (optimize_tool_content h monotonic compress wide_word (sv_compaction config) content tool (rn_query run) (rn_user run));
  mret (dset "content" (VStr (o_content o)) result_).
Definition with_profile (result_ : dict) (m : ModelSelection) : dict :=
  match source m with
  | SkillLoad => dset "model_profile" (match effective m with Some p => VStr p | None => VNone end) result_
  | _ => result_
  end.
Definition NOT_AVAILABLE : string := "Tool is not available in this run".
Definition call (name : string) (arguments : dict) (explicit_ : bool) : eff call_state (option dict) :=
  run ← gets cs_run;
  if negb (is_in name (rn_tools run)) then throw ValueError NOT_AVAILABLE else
  r ← run_tool name arguments explicit_;
  match r with
  | None => mret None
  | Some result_ =>
      result_ ← lift (without_markers result_);
      result_ ← lift (classified result_);
      result_ ← with_artifact result_;
      result_ ← (if explicit_ || truthy (dget "terminal" result_) then mret result_ else compacted name result_);
      run ← gets cs_run;
      let result_ := if explicit_ then result_ else with_profile result_ (rn_selection run) in
      loaded ← gets cs_loaded;
      mret (Some (if explicit_
                  then dmerge result_ [("loaded_skills", VList (map VStr loaded)); ("executor_state", executor_state (rn_artifacts run))]
                  else result_))
  end.

(** ** The stream of a call *)
Record event := Event { ev_name : string; ev_data : dict }.
Definition FAILED_TEXT (class_name : string) : string :=
  "Tool failed (" +++ class_name +++ "). Check its arguments and service availability.".
(** The class name of an exception, and pydantic's report of a validation
    error, if it is one. *)
Context (class_name : exn -> string) (validation_report : exn -> option string).
Definition failure_result (e : exn) : dict :=
  [("content", VStr (match validation_report e with Some report => report | None => FAILED_TEXT (class_name e) end)); ("is_error", VBool true)].
Definition with_state (explicit_ : bool) (a : AgentRun) (result_ : dict) : dict :=
  if explicit_ then dset "executor_state" (executor_state a) (dsetdefault "loaded_skills" (VList []) result_) else result_.
Definition escaped_result (explicit_ : bool) (a : AgentRun) : dict :=
  [("content", VStr (FAILED_TEXT "RuntimeError")); ("is_error", VBool true)] ++
  (if explicit_ then [("loaded_skills", VList []); ("executor_state", executor_state a)] else []).
(** The events of a call in order, [progress] those the tool emitted itself;
    nothing follows the first result. *)
Fixpoint until_result (l : list event) : list event :=
  match l with [] => [] | e :: l => if (ev_name e =? "result")%string then [e] else e :: until_result l end.
Definition stream_call (name : string) (arguments : dict) (explicit_ : bool) (progress : list event) : eff call_state (list event) := fun s =>
  if negb (is_in name (rn_tools (cs_run s))) then (raise (HTTPException 400) NOT_AVAILABLE, s) else
  let '(r, s') := call name arguments explicit_ s in
  let a := rn_artifacts (cs_run s') in
  let result_ := match r with
                 | Ok (Some d) => with_state explicit_ a d
                 | Raise e => with_state explicit_ a (failure_result e)
                 | Ok None => escaped_result explicit_ a
                 end in
  (Ok (until_result (progress ++ [Event "result" result_])), s').
End Call.

(** ** Calls that bring their own state *)
Section Explicit.
Context {W : Type} (leaves : leaf_tools W) (config : service_config) (getenv : string -> option string).
Record call_context := CallContext { cc_query : string; cc_available : list string; cc_state : dict }.
Definition configured_names : result (list string) :=
  a ← as_names (dget_or "tools" (VList []) (sv_workflow config));
  b ← as_names (dget_or "daily_summary_tools" (VList []) (sv_workflow config));
  c ← as_names (dget_or "daily_summary_final_tools" (VList []) (sv_workflow config));
  Ok (a ++ b ++ c).
Definition dict_or_empty (v : value) : result dict :=
  match vor v (VDict []) with VDict d => Ok d | _ => raise ValueError "dictionary update sequence element" end.
Definition restored (state : dict) : result AgentRun :=
  a ← dict_or_empty (dget "attempts" state);
  b ← dict_or_empty (dget "briefing_execution" state);
  n ← dict_or_empty (dget "nonretryable_mcp_results" state);
  Ok (MkAgentRun None a n b).
Definition explicit_run (name : string) (c : call_context) (rq : http_request) (now : float) : result run_context :=
  user ← authenticated_user_id_from_headers getenv (rq_headers rq);
  configured ← configured_names;
  if negb (is_in name (cc_available c)) || (negb (is_in name configured) && negb (is_in (group_part name) configured))
  then http 400 NOT_AVAILABLE else
  artifacts ← restored (cc_state c);
  Ok (RunContext user (cc_query c) (cc_available c) (lf_groups leaves) (Selection None None Automatic 0 None) now artifacts).
(** [catalog]: the names asked for are configured ones. *)
Definition catalog (names : list string) (rq : http_request) : eff W (option (list (string * list dict))) :=
  user ← lift (authenticated_user_id_from_headers getenv (rq_headers rq));
  configured ← lift configured_names;
  if negb (forallb (fun n => is_in n configured) names) then lift (http 400 "Tool is not configured") else
  l ← mapE (fun n => schemas ← (if is_in n (lf_groups leaves) then lf_catalogue leaves [n] user true
                                else s ← lf_schema leaves n; mret (Some [s]));
                     mret ((fun s => (n, s)) <$> schemas)) names;
  mret (mapM (fun x => x) l).
End Explicit.

(** ** The routes *)
(** The status of a failed preparation. *)
Definition prepare_status (e : exn) : Z :=
  match exn_cls e with
  | HTTPException n => n
  | c => if exn_isa c ValueError || exn_isa c KeyError then 400 else 500
  end.
Definition prepare_route {W} (m : eff W (option dict)) : eff W (option dict) :=
  catch m [Exception_]
    (fun e => match exn_cls e with
              | HTTPException _ => rethrow e
              | _ => let status := prepare_status e in
                     throw (HTTPException status)
                       (if status =? 400 then "Invalid run or runtime configuration" else "Run preparation failed")
              end).
