(* ===== verification/RuntimeLaws.v ===== *)
(** * Laws of the tool service

    No text of a tool carries an approval marker; the table of runs and the
    tombstones under any interleaving of preparations, calls and releases. *)
From S2P Require Import Prelude PyStr PyFloat PyVal Json JsonRoundtrip Redis Sha PyUrl World Identity Policy Mcp PyNet Compaction AgentBudget.
From S2P Require Import CompactionLaws Runtime.
#[local] Open Scope Z_scope.

(** ** Markers *)
(** An approval marker, as the pattern describes it. *)
Definition is_marker (m : string) : Prop := exists o t c, o ∈ MARKER_OPEN /\ c ∈ MARKER_CLOSE /\
  m = o +++ MARKER_NAME +++ t +++ c /\ t <> "" /\ all_chars marker_token_char t = true.
Definition has_marker (s : string) : Prop := exists a m b, s = a +++ m +++ b /\ is_marker m.
Lemma first_prefix_Some ps s r : first_prefix ps s = Some r -> exists p, p ∈ ps /\ s = p +++ r.
Proof.
  unfold first_prefix. induction ps as [|p ps IH]; cbn; [done|]. destruct (strip_prefix p s) as [x|] eqn:E.
  - cbn. intros [= ->]. exists p. split; [by left|by apply strip_prefix_Some].
  - intros H. destruct (IH H) as (q & Hq & ->). exists q. split; [by right|done].
Qed.
Lemma first_prefix_found p ps x : p ∈ ps -> first_prefix ps (p +++ x) <> None.
Proof.
  unfold first_prefix. induction ps as [|q ps IH]; intros H; [by apply elem_of_nil in H|]. cbn.
  destruct (strip_prefix q (p +++ x)) eqn:E; [done|]. apply elem_of_cons in H as [<-|H]; [by rewrite strip_prefix_app in E|by apply IH].
Qed.
Lemma open_rest o x : o ∈ MARKER_OPEN -> first_prefix MARKER_OPEN (o +++ x) = Some x.
Proof. unfold MARKER_OPEN. intros [->|[->|[]%elem_of_nil]%elem_of_cons]%elem_of_cons; done. Qed.
Lemma tail_found t c y some : c ∈ MARKER_CLOSE -> all_chars marker_token_char t = true -> some = true \/ t <> "" ->
  marker_tail some (t +++ c +++ y) <> None.
Proof.
  intros Hc. revert some. induction t as [|a t IH]; intros some Ht Hs.
  - destruct Hs as [->|]; [|done]. pose proof (first_prefix_found c MARKER_CLOSE y Hc) as F. cbn [String.append].
    destruct (c +++ y) as [|a r]; cbn [marker_tail]; [done|]. destruct (marker_token_char a); [|done]. by destruct (marker_tail true r).
  - cbn in Ht. apply andb_true_iff in Ht as [Ha Ht]. cbn [String.append marker_tail]. rewrite Ha.
    specialize (IH true Ht ltac:(by left)). by destruct (marker_tail true _).
Qed.
Lemma tail_shape s : forall some r, marker_tail some s = Some r ->
  exists t c, s = t +++ c +++ r /\ c ∈ MARKER_CLOSE /\ all_chars marker_token_char t = true /\ (some = true \/ t <> "").
Proof.
  assert (Here : forall (some : bool) s r, (if some then first_prefix MARKER_CLOSE s else None) = Some r ->
    exists t c, s = t +++ c +++ r /\ c ∈ MARKER_CLOSE /\ all_chars marker_token_char t = true /\ (some = true \/ t <> "")).
  { intros [|] u r H; [|done]. apply first_prefix_Some in H as (c & Hc & ->). exists "", c. split_and!; [done|done|done|by left]. }
  induction s as [|a s IH]; intros some r; cbn [marker_tail]; [apply Here|].
  destruct (marker_token_char a) eqn:Ha; [|apply Here]. destruct (marker_tail true s) as [x|] eqn:T; [|apply Here].
  intros [= ->]. destruct (IH _ _ T) as (t & c & -> & Hc & Ht & _). exists (String a t), c. split_and!; [done|done|by cbn; rewrite Ha|by right].
Qed.
Lemma marker_at_found m y : is_marker m -> marker_at (m +++ y) <> None.
Proof.
  intros (o & t & c & Ho & Hc & -> & Ht & Hall). unfold marker_at. rewrite append_assoc, (open_rest o _ Ho), append_assoc, strip_prefix_app, append_assoc.
  apply tail_found; [done|done|by right].
Qed.
Lemma marker_at_shape s r : marker_at s = Some r -> exists m, s = m +++ r /\ is_marker m.
Proof.
  unfold marker_at. destruct (first_prefix MARKER_OPEN s) as [x|] eqn:O; [|done]. apply first_prefix_Some in O as (o & Ho & ->).
  destruct (strip_prefix MARKER_NAME x) as [y|] eqn:N; [|done]. apply strip_prefix_Some in N as ->.
  intros (t & c & -> & Hc & Ht & Hs)%tail_shape. destruct Hs as [|Hs]; [done|].
  exists (o +++ MARKER_NAME +++ t +++ c). split; [by rewrite !append_assoc|]. exists o, t, c. by split_and!.
Qed.
(** A marker has none of the brackets of its replacement, and begins as its
    replacement never goes on. *)
Definition plain_char (c : ascii) : bool := negb (char_is "[" c).
Definition starts_marker (c : ascii) : bool := char_is "<" c || char_is "&" c.
Lemma marker_plain m : is_marker m -> all_chars plain_char m = true /\ exists c r, m = String c r /\ starts_marker c = true.
Proof.
  intros (o & t & c & Ho & Hc & -> & _ & Ht). split.
  - rewrite !all_chars_app. apply andb_true_iff; split; [|apply andb_true_iff; split; [|apply andb_true_iff; split]].
    + unfold MARKER_OPEN in Ho. rewrite !elem_of_cons in Ho. destruct Ho as [->|[->|[]%elem_of_nil]]; done.
    + done.
    + eapply all_chars_impl; [|exact Ht]. intros a. unfold marker_token_char, plain_char. destruct (Ascii.eqb_spec "[" a) as [<-|E]; [done|].
      unfold char_is. intros _. apply negb_true_iff. by apply Ascii.eqb_neq.
    + unfold MARKER_CLOSE in Hc. rewrite !elem_of_cons in Hc. destruct Hc as [->|[->|[]%elem_of_nil]]; done.
  - unfold MARKER_OPEN in Ho. rewrite !elem_of_cons in Ho. destruct Ho as [->|[->|[]%elem_of_nil]]; by eexists _, _.
Qed.
(** Up to its first replacement, the answer is the text. *)
Lemma redact_prefix fuel : forall s m b, redact fuel s = m +++ b -> all_chars plain_char m = true -> exists y, s = m +++ y.
Proof.
  induction fuel as [|fuel IH]; intros s m b E Hm; [by exists b; rewrite <- E|].
  destruct s as [|c s]; cbn [redact] in E; [by exists b; rewrite <- E|]. destruct (marker_at (String c s)).
  - destruct m as [|a m]; [by eexists|]. cbn in E. injection E as <- _. by cbn in Hm.
  - destruct m as [|a m]; [by eexists|]. cbn in E, Hm. injection E as <- E. apply andb_true_iff in Hm as [_ Hm].
    destruct (IH _ _ _ E Hm) as [y ->]. by exists y.
Qed.
(** A text that no marker can begin in is passed over. *)
Lemma skip_before p : forall x a m b, all_chars (fun c => negb (starts_marker c)) p = true -> p +++ x = a +++ m +++ b ->
  (exists c r, m = String c r /\ starts_marker c = true) -> exists a', x = a' +++ m +++ b.
Proof.
  induction p as [|c p IH]; intros x a m b Hp E Hm; [by exists a|]. cbn in Hp. apply andb_true_iff in Hp as [Hc Hp].
  destruct a as [|a0 a].
  - destruct Hm as (c0 & r & -> & H). cbn in E. injection E as <- _. by rewrite H in Hc.
  - cbn in E. injection E as <- E. by eapply IH.
Qed.
Lemma marker_rest_length s r : marker_at s = Some r -> (String.length r < String.length s)%nat.
Proof.
  intros (m & -> & Hm)%marker_at_shape. destruct (marker_plain m Hm) as (_ & c & t & -> & _). clear. cbn.
  induction t; cbn; lia.
Qed.
Lemma redact_clean_fuel fuel : forall s, (String.length s <= fuel)%nat -> ~ has_marker (redact fuel s).
Proof.
  induction fuel as [|fuel IH]; intros s Hl (a & m & b & E & Hm).
  { destruct s; [|cbn in Hl; lia]. destruct (marker_plain m Hm) as (_ & c & t & -> & _). by destruct a. }
  destruct (marker_plain m Hm) as (Hp & Hs). destruct s as [|c s]; cbn [redact] in E; [by destruct Hs as (? & ? & -> & _), a|].
  destruct (marker_at (String c s)) as [r|] eqn:Mk.
  - pose proof (marker_rest_length _ _ Mk) as Hr. apply skip_before in E as [a' E]; [|done|done]. cbn [String.length] in Hl, Hr. apply (IH r); [lia|]. by exists a', m, b.
  - cbn in Hl. destruct a as [|a0 a].
    + destruct m as [|c0 m]; [by destruct Hs as (? & ? & ? & _)|]. cbn in E. injection E as <- E.
      cbn in Hp. apply andb_true_iff in Hp as [_ Hp]. destruct (redact_prefix _ _ _ _ E Hp) as [y ->].
      by apply (marker_at_found (String c m) y Hm).
    + cbn in E. injection E as _ E. apply (IH s); [lia|]. by exists a, m, b.
Qed.
Lemma redact_clean s : ~ has_marker (redact_markers s).
Proof. by apply redact_clean_fuel. Qed.

(** ** A call *)
Section CallLaws.
Context {W : Type} (leaves : leaf_tools W) (config : service_config).
Context {R : Type} `{RS : RedisServer R} (h : host R) (monotonic : nat -> float) (compress : string -> string) (wide_word : string -> bool).
Abbreviation St := (call_state (W:=W) (R:=R)).
Abbreviation service_call := (Runtime.call leaves config h monotonic compress wide_word).
(** What a call leaves as it was. *)
Definition same_run (r r' : run_context) : Prop :=
  rn_user r' = rn_user r /\ rn_query r' = rn_query r /\ rn_groups r' = rn_groups r /\ rn_created r' = rn_created r.
Lemma same_run_refl r : same_run r r.
Proof. done. Qed.
Lemma same_run_trans a b c : same_run a b -> same_run b c -> same_run a c.
Proof. unfold same_run. intuition congruence. Qed.
Lemma in_scope_frame {A} e (m : eff (scope W) A) (s : St) r s' : in_scope config e m s = (r, s') ->
  same_run (cs_run s) (cs_run s') /\ rn_tools (cs_run s') = rn_tools (cs_run s) /\ cs_store s' = cs_store s /\
  exists sc, m (Scope (cs_world s) (rn_artifacts (cs_run s)) []) = (r, sc) /\ cs_world s' = sc_world sc /\
    rn_artifacts (cs_run s') = sc_artifacts sc.
Proof.
  unfold in_scope. destruct (m _) as [x sc] eqn:E. intros [= <- <-]. unfold note_skills. destruct e; split_and!; try done; by exists sc.
Qed.
(** The remote manager's part in a call. *)
Definition remote_answer (name : string) (arguments : dict) (s s' : St) (d : dict) : Prop :=
  is_in (group_part name) (rn_groups (cs_run s)) = true /\
  exists sc, lf_mcp_call leaves name arguments (rn_user (cs_run s)) (Scope (cs_world s) (rn_artifacts (cs_run s)) []) = (Ok (Answer d), sc) /\
    cs_world s' = sc_world sc.
Lemma run_tool_spec name arguments e (s : St) d s' : run_tool leaves config name arguments e s = (Ok (Some d), s') ->
  same_run (cs_run s) (cs_run s') /\ cs_store s' = cs_store s /\
  (exists more, rn_tools (cs_run s') = rn_tools (cs_run s) ++ more /\ (is_in (group_part name) (rn_groups (cs_run s)) = false -> more = [])) /\
  (py_eq (dget "terminal_reason" d) APPROVAL_REQUIRED = true -> remote_answer name arguments s s' d).
Proof.
  unfold run_tool. intros H. apply bind_Ok in H as (run & v & [= <- <-] & H). destruct (is_in _ _) eqn:G.
  - apply bind_Ok in H as (r & s1 & Hr & H). apply in_scope_frame in Hr as (F1 & F2 & F3 & sc & Hm & Hw & Ha).
    destruct r as [d'|]; [|done]. apply bind_Ok in H as (? & s2 & [= <- <-] & [= -> <-]). cbn. split_and!; try done.
    + eexists. split; [by rewrite F2|done].
    + intros _. split; [done|]. exists sc. by rewrite Hm.
  - apply bind_Ok in H as (x & s1 & Hr & [= <- <-]). apply in_scope_frame in Hr as (F1 & F2 & F3 & sc & Hm & Hw & Ha).
    split_and!; try done. exists []. by rewrite app_nil_r.
Qed.
Lemma without_markers_spec d d' : without_markers d = Ok d' ->
  (py_eq (dget "terminal_reason" d) APPROVAL_REQUIRED = true /\ d' = d) \/
  (py_eq (dget "terminal_reason" d) APPROVAL_REQUIRED = false /\ exists c, dget "content" d = VStr c /\ d' = dset "content" (VStr (redact_markers c)) d).
Proof.
  unfold without_markers. destruct (py_eq _ _); [intros [= <-]; by left|]. intros (c & Hc & [= <-])%bind_ok. right. split; [done|]. exists c.
  split; [|done]. unfold text_at, dgetitem in Hc. apply bind_ok in Hc as (v & Hv & Hc). unfold dget.
  destruct (dlookup "content" d); [|done]. injection Hv as ->. destruct v; try done. by injection Hc as <-.
Qed.
Lemma classified_spec d d' : classified d = Ok d' ->
  forall k, is_in k ["is_error"; "error_signature"] = false -> dget k d' = dget k d.
Proof.
  unfold classified. intros (c & _ & (o & _ & [= <-])%bind_ok)%bind_ok k Hk. cbn in Hk. apply orb_false_iff in Hk as [K1 [K2 _]%orb_false_iff].
  apply String.eqb_neq in K1, K2. destruct (failed o); rewrite !dget_dset_ne; done.
Qed.
Lemma with_artifact_spec d (s : St) d' s' : with_artifact d s = (Ok d', s') ->
  same_run (cs_run s) (cs_run s') /\ rn_tools (cs_run s') = rn_tools (cs_run s) /\ cs_world s' = cs_world s /\ cs_store s' = cs_store s /\
  terminal_content (rn_artifacts (cs_run s')) = None /\
  match terminal_content (rn_artifacts (cs_run s)) with
  | None => d' = d
  | Some t => d' = dmerge d [("content", VStr t); ("terminal", VBool true); ("terminal_reason", VStr "validated_artifact")]
  end.
Proof.
  unfold with_artifact. intros (run & v & [= <- <-] & H)%bind_Ok. destruct (terminal_content _) eqn:T.
  - apply bind_Ok in H as (? & v & [= <- <-] & [= <- <-]). by split_and!.
  - injection H as <- <-. by split_and!.
Qed.
Lemma compacted_spec name d (s : St) d' s' : compacted config h monotonic compress wide_word name d s = (Ok d', s') ->
  cs_run s' = cs_run s /\ cs_world s' = cs_world s /\ cs_loaded s' = cs_loaded s /\
  exists raw tool o, dget "content" d = VStr raw /\ d' = dset "content" (VStr (o_content o)) d /\
    optimize_tool_content h monotonic compress wide_word (sv_compaction config) raw tool (rn_query (cs_run s)) (rn_user (cs_run s)) (cs_store s)
      = (Ok o, cs_store s').
Proof.
  unfold compacted. intros (raw & v & [= Hraw <-] & (tool & v1 & [= Ht <-] & (run & v2 & [= <- <-] & (o & v3 & Ho & [= <- <-])%bind_Ok)%bind_Ok)%bind_Ok)%bind_Ok.
  unfold in_store in Ho. destruct (optimize_tool_content _ _ _ _ _ _ _ _ _ _) as [x st] eqn:E. injection Ho as -> <-. cbn.
  split_and!; try done. exists raw, tool, o. split_and!; [|done|done].
  unfold text_at, dgetitem in Hraw. apply bind_ok in Hraw as (u & Hv & Hc). unfold dget.
  destruct (dlookup "content" d); [|done]. injection Hv as ->. destruct u; try done. by injection Hc as <-.
Qed.
(** Where the text of a result can have its marker from. *)
Inductive marker_source (name : string) (arguments : dict) (e : bool) (s s' : St) (d : dict) (c : string) : Prop :=
| From_gate : is_in (group_part name) (rn_groups (cs_run s)) = true -> py_eq (dget "terminal_reason" d) APPROVAL_REQUIRED = true ->
    lf_registered leaves (cs_world s') c -> marker_source name arguments e s s' d c
| From_artifact : dget "terminal_reason" d = VStr "validated_artifact" -> marker_source name arguments e s s' d c
| From_compaction raw tool o s1 : e = false -> ~ has_marker raw -> o_content o = c ->
    optimize_tool_content h monotonic compress wide_word (sv_compaction config) raw tool (rn_query (cs_run s)) (rn_user (cs_run s)) (cs_store s)
      = (Ok o, s1) -> marker_source name arguments e s s' d c.
(** C8: a call stays within its run.  A tool that the run does not have is
    refused before anything happens.  A call never changes the user, the query
    or the groups of the run, and gives it more tools only when a group of the
    run was asked.  An approval marker in the text of a result was registered
    by the gate for this very call, or stands in a validated artifact; the text
    of a tool never carries one, unless the compaction of a result without any
    marker writes one (a marker spelt with JSON escapes), which does not happen
    when the caller keeps the state itself. *)
Theorem call_contained name arguments e (s : St) r s' : service_call name arguments e s = (r, s') ->
  (is_in name (rn_tools (cs_run s)) = false -> r = raise ValueError NOT_AVAILABLE /\ s' = s) /\
  (forall d, r = Ok (Some d) ->
     is_in name (rn_tools (cs_run s)) = true /\ same_run (cs_run s) (cs_run s') /\
     (exists more, rn_tools (cs_run s') = rn_tools (cs_run s) ++ more /\ (is_in (group_part name) (rn_groups (cs_run s)) = false -> more = [])) /\
     forall c, dget "content" d = VStr c -> has_marker c -> marker_source name arguments e s s' d c).
Proof.
  unfold Runtime.call. intros H. apply bind_inv in H as [(run & v & [= <- <-] & H)|(x & [=] & _)].
  destruct (is_in name (rn_tools (cs_run s))) eqn:T; cbn [negb] in H; [|split; [by injection H as <- <-|by injection H as <- <-]].
  split; [done|]. intros d ->. apply bind_Ok in H as (r0 & s1 & Hr & H). destruct r0 as [d0|]; [|done].
  apply run_tool_spec in Hr as (F1 & S1 & M1 & A1).
  apply bind_Ok in H as (d1 & v & [= Hd1 <-] & H). apply bind_Ok in H as (d2 & v & [= Hd2 <-] & H).
  apply bind_Ok in H as (d3 & s3 & Hd3 & H). apply with_artifact_spec in Hd3 as (F3 & T3 & W3 & S3 & _ & D3).
  apply bind_Ok in H as (d4 & s4 & Hd4 & H). apply bind_Ok in H as (run & v & [= <- <-] & H). apply bind_Ok in H as (loaded & v & [= <- <-] & H).
  injection H as Hd <-.
  assert (Hd' : forall k, is_in k ["loaded_skills"; "executor_state"; "model_profile"] = false -> dget k d = dget k d4).
  { intros k Hk. cbn in Hk. apply orb_false_iff in Hk as [K1 [K2 [K3 _]%orb_false_iff]%orb_false_iff]. apply String.eqb_neq in K1, K2, K3.
    rewrite <- Hd. destruct e; [cbn; by rewrite !dget_dset_ne by congruence|].
    unfold with_profile. destruct (source _); try done. by rewrite dget_dset_ne by congruence. }
  assert (R4 : cs_run s4 = cs_run s3 /\ cs_world s4 = cs_world s3).
  { destruct (e || truthy _); [by injection Hd4 as _ <-|]. apply compacted_spec in Hd4. tauto. }
  destruct R4 as [R4 W4]. split_and!; [done| | |].
  - rewrite R4. by eapply same_run_trans.
  - destruct M1 as (more & M1 & M2). exists more. by rewrite R4, T3, M1.
  - intros c Hc Hm. rewrite (Hd' "content" eq_refl) in Hc.
    pose proof (classified_spec _ _ Hd2) as C2.
    destruct (terminal_content (rn_artifacts (cs_run s1))) as [t|] eqn:Ta.
    { apply From_artifact. rewrite (Hd' "terminal_reason" eq_refl).
      assert (dget "terminal_reason" d3 = VStr "validated_artifact") as E3 by (rewrite D3; cbn; by rewrite dget_dset).
      destruct (e || truthy (dget "terminal" d3)) eqn:B; [by injection Hd4 as <- _|].
      rewrite D3 in B. cbn in B. rewrite dget_dset_ne, dget_dset in B by done. by rewrite orb_true_r in B. }
    subst d3. apply without_markers_spec in Hd1 as [[Ap ->]|[Ap (c0 & Hc0 & ->)]].
    + destruct (A1 Ap) as (G & sc & Hcall & Hw). destruct (lf_marker_law leaves _ _ _ _ _ _ Hcall Ap) as (Ht & reason & Hr & Hreg).
      rewrite (C2 "terminal" eq_refl), Ht, orb_true_r in Hd4. injection Hd4 as <- <-.
      rewrite (C2 "content" eq_refl), Hr in Hc. injection Hc as <-. apply From_gate; [done| |].
      * by rewrite (Hd' "terminal_reason" eq_refl), (C2 "terminal_reason" eq_refl).
      * by rewrite W3, Hw.
    + destruct (e || truthy (dget "terminal" d2)) eqn:B.
      * injection Hd4 as <- _. rewrite (C2 "content" eq_refl), dget_dset in Hc. injection Hc as <-. by apply redact_clean in Hm.
      * apply compacted_spec in Hd4 as (_ & _ & _ & raw & tool & o & Hraw & -> & Ho). rewrite dget_dset in Hc. injection Hc as <-.
        rewrite (C2 "content" eq_refl), dget_dset in Hraw. injection Hraw as <-.
        destruct F3 as (U3 & Q3 & _ & _), F1 as (U1 & Q1 & _ & _). rewrite U3, Q3, U1, Q1, S3, S1 in Ho.
        apply orb_false_iff in B as [-> _]. eapply From_compaction; [done|apply redact_clean|done|exact Ho].
Qed.
End CallLaws.

(** ** The table of runs *)
Section Table.
Context {W : Type} (config : service_config) (getenv : string -> option string).
Abbreviation S_ := (service W).
Abbreviation admit_ := (prepare_admit (W:=W) getenv).
Abbreviation commit_ := (prepare_commit (W:=W) config).
Abbreviation release_ := (release (W:=W) getenv).
Definition run_set (id : string) (run : run_context) (runs : list (string * run_context)) : list (string * run_context) :=
  map (fun kv => if (fst kv =? id)%string then (id, run) else kv) runs.
(** What happens to the service, one step between two waits at a time; [ends]
    says whether the step is a release that found no run. *)
Inductive service_step : bool -> S_ -> S_ -> Prop :=
| Admitting body rq now r s s' : admit_ body rq now s = (r, s') -> service_step false s s'
| Committing rq p now r s s' : commit_ rq p now s = (r, s') -> service_step false s s'
| Releasing rq now r s s' : release_ rq now s = (r, s') ->
    service_step (match run_get (rq_run_id rq) (sv_runs s) with None => true | Some _ => false end) s s'
| Calling id run run' s : run_get id (sv_runs s) = Some run -> same_run run run' ->
    service_step false s (Service (run_set id run' (sv_runs s)) (sv_released s) (sv_world s))
| World_moves w s : service_step false s (Service (sv_runs s) (sv_released s) w).
Definition any_step (s s' : S_) : Prop := exists b, service_step b s s'.
Definition service_ok (s : S_) : Prop :=
  NoDup (map fst (sv_runs s)) /\ Z.of_nat (length (sv_runs s)) <= RUN_LIMIT /\
  NoDup (map fst (sv_released s)) /\ Z.of_nat (length (sv_released s)) <= TOMBSTONES.

Lemma run_get_Some id runs run : run_get id runs = Some run -> (id, run) ∈ runs.
Proof.
  unfold run_get. destruct (List.find _ runs) as [[k v]|] eqn:E; [|done]. cbn. intros [= ->]. apply List.find_some in E as [E1 E2].
  apply String.eqb_eq in E2. cbn in E2. subst k. by apply list_elem_of_In.
Qed.
Lemma run_get_None id runs : run_get id runs = None <-> id ∉ map fst runs.
Proof.
  unfold run_get. induction runs as [|[k v] runs IH]; cbn; [set_solver|]. destruct (String.eqb_spec k id); cbn; [set_solver|].
  rewrite IH. set_solver.
Qed.
Lemma run_get_kept id f runs run : NoDup (map fst runs) -> run_get id runs = Some run ->
  run_get id (List.filter f runs) = if f (id, run) then Some run else None.
Proof.
  intros N G. destruct (f (id, run)) eqn:F.
  - unfold run_get in *. clear N. induction runs as [|[k v] runs IH]; [done|]. cbn in G |- *. destruct (String.eqb_spec k id) as [->|Hk].
    + cbn in G. injection G as ->. rewrite F. cbn. by rewrite String.eqb_refl.
    + destruct (f (k, v)); cbn; [destruct (String.eqb_spec k id); [done|]|]; by apply IH.
  - apply run_get_None. intros (kv & E & [Hin Hf]%list_elem_of_In%List.filter_In)%list_elem_of_fmap. destruct kv as [k v]. cbn in E. subst k.
    assert (v = run) as ->; [|congruence]. apply run_get_Some in G. apply list_elem_of_In in Hin.
    clear -N G Hin. induction runs as [|[k u] runs IH]; [by apply elem_of_nil in Hin|]. cbn in N. apply NoDup_cons in N as [Hn N].
    assert (forall x, (k, x) ∉ runs) as Hx by (intros x Hx; apply Hn, list_elem_of_fmap; by exists (k, x)).
    rewrite elem_of_cons in G. rewrite elem_of_cons in Hin. destruct G as [E1|G], Hin as [E2|Hin]; simplify_eq;
      [done|by destruct (Hx v)|by destruct (Hx run)|by apply IH].
Qed.
Lemma run_get_app id runs k v : run_get id (runs ++ [(k, v)]) = match run_get id runs with Some r => Some r | None => if (k =? id)%string then Some v else None end.
Proof.
  unfold run_get. induction runs as [|[k' v'] runs IH]; cbn; [by destruct (k =? id)%string|]. by destruct (k' =? id)%string.
Qed.
Lemma run_get_set id id' run runs : run_get id' (run_set id run runs) =
  if (id =? id')%string then (fun _ => run) <$> run_get id' runs else run_get id' runs.
Proof.
  unfold run_get, run_set. induction runs as [|[k v] runs IH]; cbn; [by destruct (id =? id')%string|].
  destruct (String.eqb_spec k id) as [->|Hk]; cbn.
  - destruct (String.eqb_spec id id'); [done|exact IH].
  - destruct (String.eqb_spec k id') as [->|]; [|exact IH]. by destruct (String.eqb_spec id id').
Qed.
Lemma run_set_keys id run runs : map fst (run_set id run runs) = map fst runs.
Proof. unfold run_set. rewrite map_map. apply map_ext. intros [k v]. cbn. by destruct (String.eqb_spec k id). Qed.
Lemma filter_keys {A B} (f : A * B -> bool) (l : list (A * B)) : NoDup (map fst l) -> NoDup (map fst (List.filter f l)).
Proof.
  induction l as [|[a b] l IH]; cbn; [done|]. intros [Hn H]%NoDup_cons. destruct (f (a, b)); cbn; [|auto]. constructor; [|auto].
  intros (kv & -> & Hin%list_elem_of_In)%list_elem_of_fmap. apply List.filter_In in Hin as [Hin _]. apply Hn, list_elem_of_fmap.
  exists kv. split; [done|by apply list_elem_of_In].
Qed.
Lemma filter_short {A} (f : A -> bool) l n : Z.of_nat (length l) <= n -> Z.of_nat (length (List.filter f l)) <= n.
Proof. pose proof (List.filter_length_le f l). lia. Qed.
Lemma key_set_keys k u l : map fst (key_set k u l) = if decide (k ∈ map fst l) then map fst l else map fst l ++ [k].
Proof.
  induction l as [|[k' u'] l IH]; cbn [key_set map fst]; [done|]. case_bool_decide as E; cbn [map fst].
  - cbn in E. subst k'. rewrite decide_True; [done|by left].
  - cbn in E. rewrite IH. destruct (decide (k ∈ map fst l)) as [Hin|Hn], (decide (k ∈ k' :: map fst l)) as [Hin'|Hn'];
      try done; set_solver.
Qed.
Lemma key_in_spec k l : key_in k l = true <-> k ∈ map fst l.
Proof.
  unfold key_in. rewrite existsb_exists, list_elem_of_fmap. split.
  - intros (e & He & E%bool_decide_eq_true). exists e. split; [done|by apply list_elem_of_In].
  - intros (e & -> & He). exists e. split; [by apply list_elem_of_In|by apply bool_decide_eq_true].
Qed.
(** The steps of the table, one by one. *)
Lemma admit_spec body rq now s r s' : admit_ body rq now s = (r, s') ->
  sv_runs s' = sv_runs s /\
  (sv_released s' = sv_released s \/ sv_released s' = List.filter (fun e => f_ltb now (snd e)) (sv_released s)) /\
  match r with
  | Ok (user, _) => authenticated_user_id_from_headers getenv (rq_headers rq) = Ok user /\ key_in (rq_run_id rq, user) (sv_released s') = false
  | Raise _ => True
  end.
Proof.
  unfold prepare_admit. intros [(user & v & [= Hu <-] & H)|(e & [= _ <-] & ->)]%bind_inv; [|split_and!; first [done|by left]].
  destruct (rq_run_id rq =? "")%string; [injection H as <- <-; split_and!; first [done|by left]|].
  apply bind_inv in H as [(? & v & [= <- <-] & H)|(e & [=] & _)]. apply bind_inv in H as [(rel & v & [= <- <-] & H)|(e & [=] & _)].
  cbn in H. destruct (key_in _ _) eqn:K; [injection H as <- <-; split_and!; first [done|by right]|].
  destruct (dget "messages" body) as [| | | | |[|m l]|]; injection H as <- <-; cbn; split_and!; first [done|by right].
Qed.
Lemma commit_spec rq p now s r s' : commit_ rq p now s = (r, s') ->
  let kept := List.filter (fun kv => f_ltb (f_sub now (rn_created (snd kv))) RUN_SECONDS) (sv_runs s) in
  sv_released s' = sv_released s /\
  ((sv_runs s' = kept /\ exists e, r = Raise e) \/
   (sv_runs s' = kept ++ [(rq_run_id rq, run_of p now)] /\ Z.of_nat (length kept) < RUN_LIMIT /\ run_get (rq_run_id rq) kept = None /\
    key_in (rq_run_id rq, pr_user p) (sv_released s) = false)).
Proof.
  cbv zeta. unfold prepare_commit. intros [(? & v & [= <- <-] & H)|(e & [=] & _)]%bind_inv.
  apply bind_inv in H as [(runs & v & [= <- <-] & H)|(e & [=] & _)]. apply bind_inv in H as [(rel & v & [= <- <-] & H)|(e & [=] & _)].
  cbn [sv_runs sv_released] in H. set (kept := List.filter _ _) in *.
  destruct (Z.leb_spec RUN_LIMIT (Z.of_nat (length kept))); [injection H as <- <-; split; [done|left; split; [done|by eexists]]|].
  destruct (run_get _ kept) eqn:G; [injection H as <- <-; split; [done|left; split; [done|by eexists]]|].
  destruct (key_in _ _) eqn:K; [injection H as <- <-; split; [done|left; split; [done|by eexists]]|].
  apply bind_inv in H as [(? & v & [= <- <-] & [= _ <-])|(e & [=] & _)]. split; [done|]. right. by split_and!.
Qed.
Lemma release_spec rq now s r s' : release_ rq now s = (r, s') ->
  s' = s \/
  exists user, authenticated_user_id_from_headers getenv (rq_headers rq) = Ok user /\ r = Ok [("status", VStr "released")] /\
    match run_get (rq_run_id rq) (sv_runs s) with
    | Some run => rn_user run = user /\ sv_runs s' = run_del (rq_run_id rq) (sv_runs s) /\ sv_released s' = sv_released s
    | None => sv_runs s' = sv_runs s /\ sv_released s' = key_set (rq_run_id rq, user) (f_add now TOMBSTONE_SECONDS)
                (if TOMBSTONES <=? Z.of_nat (length (sv_released s)) then tl (sv_released s) else sv_released s)
    end.
Proof.
  unfold release. intros [(user & v & [= Hu <-] & H)|(e & [= _ <-] & _)]%bind_inv; [|by left].
  apply bind_inv in H as [(runs & v & [= <- <-] & H)|(e & [=] & _)]. destruct (run_get _ _) as [run|] eqn:G.
  - destruct (String.eqb_spec (rn_user run) user) as [E|E]; cbn [negb] in H.
    + apply bind_inv in H as [(? & v & [= <- <-] & [= <- <-])|(e & [=] & _)]. right. by exists user.
    + apply bind_inv in H as [(? & v & [=] & _)|(e & [= _ <-] & _)]. by left.
  - apply bind_inv in H as [(? & v & [= <- <-] & [= <- <-])|(e & [=] & _)]. right. by exists user.
Qed.
(** Setting a key in a list that is not longer than the limit, or has just
    lost its head. *)
Lemma tombstone_bound k u (l : list (run_key * float)) : NoDup (map fst l) -> Z.of_nat (length l) <= TOMBSTONES ->
  let l' := key_set k u (if TOMBSTONES <=? Z.of_nat (length l) then tl l else l) in
  NoDup (map fst l') /\ Z.of_nat (length l') <= TOMBSTONES.
Proof.
  intros N Hl. cbv zeta. set (m := if TOMBSTONES <=? Z.of_nat (length l) then tl l else l).
  assert (M : NoDup (map fst m) /\ Z.of_nat (length m) < TOMBSTONES).
  { unfold m. destruct (Z.leb_spec TOMBSTONES (Z.of_nat (length l))); [|done]. destruct l as [|x l]; [done|]. cbn in *.
    apply NoDup_cons in N as [_ N]. split; [done|lia]. }
  destruct M as [M1 M2]. pose proof (key_set_keys k u m) as K. rewrite <- (length_map fst), K.
  destruct (decide _) as [Hin|Hn]; [rewrite length_map; split; [done|lia]|]. rewrite length_app, length_map. cbn. split; [|lia].
  apply NoDup_app. split_and!; [done|set_solver|apply NoDup_singleton].
Qed.
Lemma step_ok b s s' : service_step b s s' -> service_ok s -> service_ok s'.
Proof.
  intros S (O1 & O2 & O3 & O4). destruct S as [body rq now r s s' H|rq p now r s s' H|rq now r s s' H|id run run' s G F|w s].
  - apply admit_spec in H as (E & [E'|E'] & _); unfold service_ok; rewrite E, E'; split_and!; try done; [by apply filter_keys|by apply filter_short].
  - apply commit_spec in H as (E & [[E' _]|(E' & L & G & _)]); unfold service_ok; rewrite E, E'; split_and!; try done.
    + by apply filter_keys.
    + by apply filter_short.
    + rewrite map_app. apply NoDup_app. split_and!; [by apply filter_keys| |apply NoDup_singleton].
      apply run_get_None in G. set_solver.
    + rewrite length_app. cbn [length]. lia.
  - apply release_spec in H as [->|(user & _ & _ & H)]; [done|]. destruct (run_get _ _).
    + destruct H as (_ & E & E'). unfold service_ok. rewrite E, E'. split_and!; try done; [by apply filter_keys|by apply filter_short].
    + destruct H as (E & E'). unfold service_ok. rewrite E, E'. destruct (tombstone_bound (rq_run_id rq, user) (f_add now TOMBSTONE_SECONDS) _ O3 O4).
      by split_and!.
  - unfold service_ok. cbn. rewrite run_set_keys. split_and!; try done. unfold run_set. by rewrite length_map.
  - done.
Qed.
Lemma run_step_owner b s s' id run run' : service_ok s -> service_step b s s' ->
  run_get id (sv_runs s) = Some run -> run_get id (sv_runs s') = Some run' ->
  rn_user run' = rn_user run \/
  exists p now, run' = run_of p now /\ f_ltb (f_sub now (rn_created run)) RUN_SECONDS = false.
Proof.
  intros [N _] S G G'. destruct S as [body rq now r s s' H|rq p now r s s' H|rq now r s s' H|id2 run1 run2 s G1 F|w s].
  - apply admit_spec in H as (E & _ & _). rewrite E, G in G'. injection G' as <-. by left.
  - pose proof (run_get_kept id (fun kv => f_ltb (f_sub now (rn_created (snd kv))) RUN_SECONDS) _ _ N G) as K. cbn [snd] in K.
    apply commit_spec in H as (_ & [[E _]|(E & _ & _ & _)]); rewrite E in G'.
    + rewrite K in G'. destruct (f_ltb _ _); [|done]. injection G' as <-. by left.
    + rewrite run_get_app, K in G'. destruct (f_ltb _ _) eqn:A; [injection G' as <-; by left|]. right. exists p, now.
      destruct (_ =? id)%string; [by injection G' as <-|done].
  - apply release_spec in H as [->|(user & _ & _ & H)]; [rewrite G in G'; injection G' as <-; by left|].
    destruct (run_get (rq_run_id rq) _); destruct H as (H1 & H2).
    + destruct H2 as [H2 _]. rewrite H2 in G'. unfold run_del in G'. erewrite run_get_kept in G' by done.
      destruct (negb _); [injection G' as <-; by left|done].
    + rewrite H1, G in G'. injection G' as <-. by left.
  - cbn [sv_runs] in G'. rewrite run_get_set in G'. destruct (String.eqb_spec id2 id) as [->|]; rewrite G in G'.
    + cbn in G'. injection G' as <-. rewrite G1 in G. injection G as <-. left. apply F.
    + injection G' as <-. by left.
  - cbn [sv_runs] in G'. rewrite G in G'. injection G' as <-. by left.
Qed.
Lemma context_spec rq s r s' : context (W:=W) getenv rq s = (r, s') -> s' = s /\
  (forall run, r = Ok run <-> run_get (rq_run_id rq) (sv_runs s) = Some run /\ authenticated_user_id_from_headers getenv (rq_headers rq) = Ok (rn_user run)).
Proof.
  unfold context. intros [(runs & v & [= <- <-] & H)|(e & [=] & _)]%bind_inv. destruct (run_get _ _) as [run|] eqn:G.
  - apply bind_inv in H as [(user & v & [= Hu <-] & H)|(e & [= Hu <-] & ->)].
    + destruct (String.eqb_spec (rn_user run) user) as [<-|E]; cbn in H; injection H as <- <-; (split; [done|]); intros run'; (split; [|intros [[= <-] A]]).
      * intros [= <-]. by split.
      * done.
      * done.
      * congruence.
    + split; [done|]. intros run'. split; [done|]. intros [[= <-] A]. congruence.
  - injection H as <- <-. split; [done|]. intros run. by split; [|intros [? _]].
Qed.
(** C9: whatever preparations, calls and releases happen and however they
    interleave, at most 128 runs are kept, each identity once, and at most 256
    tombstones.  A run belongs to one user from its preparation on, until it
    expires after two hours or that user releases it: nobody else can call a
    tool in it or release it, and trying changes nothing. *)
Theorem runs_isolated w0 s : rtc any_step (Service [] [] w0) s -> service_ok s /\
  (forall b s' id run run', service_step b s s' -> run_get id (sv_runs s) = Some run -> run_get id (sv_runs s') = Some run' ->
     rn_user run' = rn_user run \/ exists p now, run' = run_of p now /\ f_ltb (f_sub now (rn_created run)) RUN_SECONDS = false) /\
  (forall rq run u, run_get (rq_run_id rq) (sv_runs s) = Some run ->
     authenticated_user_id_from_headers getenv (rq_headers rq) = Ok u ->
     (context getenv rq s = (Ok run, s) <-> u = rn_user run) /\
     (u <> rn_user run -> forall now, release_ rq now s = (http 404 NO_RUN, s))).
Proof.
  intros R. assert (O : service_ok s).
  { assert (G : forall a b, rtc any_step a b -> service_ok a -> service_ok b) by (induction 1 as [|a b c [n St] _ IH]; eauto using step_ok).
    apply (G _ _ R). split_and!; cbn; first [done|apply NoDup_nil_2]. }
  split_and!; [done|intros; by eapply run_step_owner|]. intros rq run u G Hu. split.
  - destruct (context getenv rq s) as [r s'] eqn:C. destruct (context_spec _ _ _ _ C) as [-> E]. split.
    + intros [= ->]. destruct (proj1 (E run) eq_refl) as [_ A]. congruence.
    + intros ->. f_equal. apply E. by split.
  - intros Hne now. unfold release. rewrite (bind_run _ _ _ u s) by (unfold lift; by rewrite Hu).
    rewrite (bind_run _ _ _ (sv_runs s) s) by done. rewrite G. destruct (String.eqb_spec (rn_user run) u); [congruence|]. done.
Qed.
(** What happens while the tombstone [k] is due: [n] releases that found no run. *)
Inductive while_due (k : run_key) : nat -> S_ -> S_ -> Prop :=
| Due_start s : while_due k 0 s s
| Due_step n b s1 s2 s3 : while_due k n s1 s2 -> service_step b s2 s3 ->
    (forall body rq now r, admit_ body rq now s2 = (r, s3) -> forall u, (k, u) ∈ sv_released s2 -> f_ltb now u = true) ->
    while_due k (if b then S n else n) s1 s3.
(** A key with at most [n] keys after it. *)
Definition recent (k : run_key) (n : nat) (l : list (run_key * float)) : Prop :=
  exists before u after, l = before ++ (k, u) :: after /\ (length after <= n)%nat.
Lemma recent_key_set k k' u n l : recent k n l -> recent k (S n) (key_set k' u l).
Proof.
  intros (b & v & a & -> & H). induction b as [|[x y] b IH]; cbn [app key_set fst].
  - case_bool_decide as E; [exists [], u, a; split; [by rewrite <- E|lia]|]. exists [], v, (key_set k' u a). split; [done|].
    rewrite <- (length_map fst), key_set_keys. destruct (decide _); rewrite ?length_app, length_map; cbn; lia.
  - case_bool_decide; [exists ((k', u) :: b), v, a; split; [done|lia]|]. destruct IH as (b' & v' & a' & -> & H').
    by exists ((x, y) :: b'), v', a'.
Qed.
Lemma recent_filter k f n l : recent k n l -> (forall u, (k, u) ∈ l -> f (k, u) = true) -> recent k n (List.filter f l).
Proof.
  intros (b & v & a & -> & H) Hf. exists (List.filter f b), v, (List.filter f a). split.
  - rewrite List.filter_app. cbn. rewrite (Hf v); [done|set_solver].
  - pose proof (List.filter_length_le f a). lia.
Qed.
Lemma recent_in k n l : recent k n l -> key_in k l = true.
Proof. intros (b & v & a & -> & _). apply key_in_spec. rewrite map_app. cbn. set_solver. Qed.
Lemma recent_tl k n l : recent k n l -> (n < length l - 1)%nat -> recent k n (tl l).
Proof.
  intros (b & v & a & -> & H) Hl. destruct b as [|x b]; cbn in Hl |- *; [lia|]. by exists b, v, a.
Qed.
Lemma while_due_recent k n s1 s2 : while_due k n s1 s2 -> (n < 256)%nat -> recent k 0 (sv_released s1) -> recent k n (sv_released s2).
Proof.
  induction 1 as [s|n b s1 s2 s3 D IH S Hf]; intros Hn R; [done|].
  assert (R2 : recent k n (sv_released s2)) by (apply IH; [destruct b; lia|done]).
  assert (Weak : forall l, recent k n l -> recent k (if b then Datatypes.S n else n) l).
  { intros l (b0 & v & a & -> & H). exists b0, v, a. split; [done|]. destruct b; lia. }
  destruct S as [body rq now r s s' H|rq p now r s s' H|rq now r s s' H|id run run' s G F|w s].
  - apply Weak. pose proof (admit_spec _ _ _ _ _ _ H) as (_ & [E|E] & _); rewrite E; [done|]. apply recent_filter; [done|]. cbn. by eapply Hf.
  - apply commit_spec in H as [E _]. by rewrite E.
  - apply release_spec in H as [->|(user & _ & _ & H)]; [by apply Weak|]. destruct (run_get _ _); [destruct H as (_ & _ & E); rewrite E; by apply Weak|].
    destruct H as [_ E]. rewrite E. apply recent_key_set. destruct (Z.leb_spec TOMBSTONES (Z.of_nat (length (sv_released s)))) as [L|L]; [|done].
    apply recent_tl; [done|]. unfold TOMBSTONES in L. lia.
  - by apply Weak.
  - by apply Weak.
Qed.
(** C10: a run that its owner released before it was there does not come back.
    While the tombstone is due and fewer than 256 others followed it, the
    preparation of that run is refused where it begins and, if it began
    before, where it would enter the run into the table. *)
Theorem released_stays_released rq user now s s1 n s2 :
  run_get (rq_run_id rq) (sv_runs s) = None -> authenticated_user_id_from_headers getenv (rq_headers rq) = Ok user ->
  key_in (rq_run_id rq, user) (sv_released s) = false -> snd (release_ rq now s) = s1 ->
  while_due (rq_run_id rq, user) n s1 s2 -> (n < 256)%nat ->
  (forall rq2 p later r s3, rq_run_id rq2 = rq_run_id rq -> pr_user p = user -> commit_ rq2 p later s2 = (r, s3) ->
     (exists e, r = Raise e) /\ forall run, run_get (rq_run_id rq) (sv_runs s3) = Some run -> run_get (rq_run_id rq) (sv_runs s2) <> None) /\
  (forall body rq2 later r s3, rq_run_id rq2 = rq_run_id rq -> authenticated_user_id_from_headers getenv (rq_headers rq2) = Ok user ->
     (forall u, ((rq_run_id rq, user), u) ∈ sv_released s2 -> f_ltb later u = true) ->
     admit_ body rq2 later s2 = (r, s3) -> exists e, r = Raise e).
Proof.
  intros G Hu K <- D Hn. destruct (release_ rq now s) as [r0 s1] eqn:Rl. cbn in D.
  assert (R1 : recent (rq_run_id rq, user) 0 (sv_released s1)).
  { unfold release in Rl. rewrite (bind_run _ _ _ user s) in Rl by (unfold lift; by rewrite Hu).
    rewrite (bind_run _ _ _ (sv_runs s) s) in Rl by done. rewrite G in Rl. injection Rl as _ <-. cbn. set (l := if TOMBSTONES <=? Z.of_nat (length (sv_released s)) then tl (sv_released s) else sv_released s).
    assert (Nk : (rq_run_id rq, user) ∉ map fst l).
    { intros Hin. apply not_true_iff_false in K. apply K, key_in_spec. unfold l in Hin. destruct (_ <=? _); [|done].
      destruct (sv_released s); [done|]. cbn in *. set_solver. }
    clear -Nk. induction l as [|[x y] l IH]; cbn; [by exists [], (f_add now TOMBSTONE_SECONDS), []|].
    case_bool_decide as E; [cbn in E; set_solver|]. destruct IH as (b & v & a & -> & H); [set_solver|]. by exists ((x, y) :: b), v, a. }
  pose proof (while_due_recent _ _ _ _ D Hn R1) as R2. apply recent_in in R2 as K2. split.
  - intros rq2 p later r s3 Hid <- Hc. apply commit_spec in Hc as (_ & [[E [e ->]]|(_ & _ & _ & K3)]); [|rewrite Hid in K3; congruence].
    split; [by exists e|]. intros run Hrun Hnone. rewrite E in Hrun. apply run_get_None in Hnone. apply Hnone.
    apply run_get_Some in Hrun. apply list_elem_of_fmap. exists (rq_run_id rq, run). split; [done|].
    apply list_elem_of_In in Hrun. apply List.filter_In in Hrun as [Hrun _]. by apply list_elem_of_In.
  - intros body rq2 later r s3 Hid Hu2 Hdue Ha. destruct r as [[u raw]|e]; [|by exists e]. exfalso.
    pose proof (admit_spec _ _ _ _ _ _ Ha) as (_ & Hrel & Hu3 & K3). rewrite Hu2 in Hu3. injection Hu3 as <-. rewrite Hid in K3.
    assert (recent (rq_run_id rq, user) n (sv_released s3)) as R3.
    { destruct Hrel as [E|E]; rewrite E; [done|]. by apply recent_filter. }
    apply recent_in in R3. congruence.
Qed.
End Table.

(** ** The stream of a call *)
Section StreamLaws.
Context {W : Type} (leaves : leaf_tools W) (config : service_config).
Context {R : Type} `{RS : RedisServer R} (h : host R) (monotonic : nat -> float) (compress : string -> string) (wide_word : string -> bool).
Context (class_name : exn -> string) (validation_report : exn -> option string).
Lemma until_result_spec l d : exists pre d', until_result (l ++ [Event "result" d]) = pre ++ [Event "result" d'] /\
  Forall (fun e => ev_name e <> "result") pre /\
  (Forall (fun e => ev_name e <> "result") l -> pre = l /\ d' = d).
Proof.
  induction l as [|e l IH]; cbn; [by exists [], d|]. destruct (String.eqb_spec (ev_name e) "result") as [E|E].
  - exists [], (ev_data e). split; [by destruct e; cbn in E |- *; subst|]. split; [constructor|]. by intros [? _]%Forall_cons.
  - destruct IH as (pre & d' & -> & H1 & H2). exists (e :: pre), d'. split; [done|]. split; [by constructor|].
    intros [_ Hl]%Forall_cons. by destruct (H2 Hl) as [-> ->].
Qed.
End StreamLaws.

(** ** The manager of remote tools keeps the interface's promise *)
Section McpLeaves.
Context {R : Type} `{RS : RedisServer R} (h : host R).
Context (token_urlsafe : nat -> string) (from_url : string -> result unit).
Context (reg : registry) (config : dict) (headers : option header_map) (consumed : Gate.consumed_t) (net : sdk).
Context (jsonschema_validate : dict -> value -> result unit).
Context (access_token : bool -> string -> dict -> eff (world R) (option string))
  (invalidate_access : string -> dict -> string -> eff (world R) unit).
Abbreviation manager := (mcp_state R).
Abbreviation remote_call_ := (Mcp.call h token_urlsafe from_url reg config headers consumed net jsonschema_validate access_token invalidate_access).
Definition asks_approval (d : dict) : Prop := py_eq (dget "terminal_reason" d) APPROVAL_REQUIRED = true.
Lemma gated_marker name user tool args t c hs (s : manager) d s' :
  gated h token_urlsafe from_url reg config headers consumed net invalidate_access name user tool args t c hs s = (Ok (Answer d), s') ->
  asks_approval d ->
  truthy (dget "terminal" d) = true /\ exists reason, dget "content" d = VStr reason /\ Gate.is_trusted_approval_marker reason (m_markers s') = true.
Proof.
  unfold gated. intros (token & v & _ & (ok & s1 & _ & H)%bind_Ok)%bind_Ok Ha. destruct (negb (fst ok)).
  - apply bind_Ok in H as (ms & v1 & [= <- <-] & [= <- <-]). unfold asks_approval in Ha. cbn in Ha |- *.
    destruct (Gate.is_trusted_approval_marker _ _) eqn:T; [|done]. split; [done|]. by eexists.
  - unfold run_remote in H. apply bind_Ok in H as (ready & v1 & _ & H). destruct (negb ready); [done|].
    apply bind_Ok in H as (o & v2 & _ & H). destruct o.
    + by injection H as <- _.
    + apply bind_Ok in H as (? & v3 & _ & (auth & v4 & _ & (? & v5 & _ & [= <- _])%bind_Ok)%bind_Ok). done.
    + by apply bind_Ok in H as (? & v3 & _ & [=]).
Qed.
Lemma call_marker full_name args user (s : manager) d s' : remote_call_ full_name args user s = (Ok (Answer d), s') -> asks_approval d ->
  truthy (dget "terminal" d) = true /\ exists reason, dget "content" d = VStr reason /\ Gate.is_trusted_approval_marker reason (m_markers s') = true.
Proof.
  unfold Mcp.call. intros H Ha. destruct (cut full_name "__") as [[name tool]|]; [|done]. destruct (negb _); [done|].
  apply bind_Ok in H as (hs & v & _ & (c & v1 & _ & H)%bind_Ok). destruct c as [c|]; [|done].
  apply bind_Ok in H as (g & v2 & _ & (schemas & v3 & _ & H)%bind_Ok). destruct (tool =? "connect")%string.
  - destruct args; [|done]. by injection H as <- _.
  - destruct (negb _); [done|]. destruct (find_tool _ _); [|done]. apply bind_Ok in H as (? & v4 & _ & H). by eapply gated_marker.
Qed.
(** Local tools: their schemas, and what a call of one does. *)
Context (schema : string -> eff manager dict) (invoke : string -> dict -> eff (Runtime.scope manager) value).
(** Every call begins with no marker of its own. *)
Definition fresh_markers (s : manager) : manager :=
  McpState (m_world s) (connections s) (Gate.approval_marker_scope true (m_markers s)) (m_next s) (m_sent s).
Definition manager_call (name : string) (arguments : dict) (user : string) : eff (Runtime.scope manager) call_result := fun sc =>
  let '(r, w) := remote_call_ name arguments user (fresh_markers (sc_world sc)) in
  (r, Runtime.Scope w (sc_artifacts sc) (sc_skills sc)).
Definition mcp_leaves : leaf_tools manager.
Proof.
  refine (Leaves manager (map fst (groups_of config)) schema
    (fun names user initial => catalogue config net access_token names user initial) manager_call invoke
    (fun w reason => Gate.is_trusted_approval_marker reason (m_markers w) = true) _).
  intros name arguments user s d s'. unfold manager_call. destruct (remote_call_ _ _ _ _) as [r w] eqn:E. intros [= -> <-] Ha. cbn.
  by eapply call_marker.
Defined.
End McpLeaves.
