(* ===== verification/Rss.v ===== *)
(** * Search in curated feeds ([rss_feed/rss_feed_function.py], [nat_helpers/vllm_reranker.py])

    Feeds are fetched or taken from a cache, their entries are ranked by a
    reranker, and the best one is read through the shared article session, or
    the best few are listed.  Parameters: tokens, [html.unescape], the feed
    parser, the reranker, the cache of [cachetools] and the clock. *)
From Stdlib Require Import Sorting.Sorted.
From S2P Require Import Prelude PyStr PyFloat PyVal Json JsonRoundtrip Redis PyUrl PyNet Dedupe Identity Markdown SafeHttp PublicContent.
From S2P Require Import Compaction AgentBudget Citations SourcePlan Webscrape.
#[local] Open Scope Z_scope.

(** ** The reranker's wire format *)
Definition build_vllm_rerank_payload (model query : string) (documents : list string) (top_n : option Z) : result dict :=
  let payload := [("model", VStr model); ("query", VStr query); ("documents", VList (map VStr documents))] in
  match top_n with
  | None => Ok payload
  | Some n => if n <? 1 then raise ValueError "top_n must be positive when set" else Ok (payload ++ [("top_n", VInt n)])
  end.
Record VLLMRerankResult := RerankResult { rr_index : Z; rr_score : float }.
Definition score_of (v : value) : result float :=
  match v with
  | VInt z => py_float (VInt z)
  | VFloat f => Ok f
  | _ => raise ValueError "vLLM reranker result has an invalid relevance score"
  end.
Definition parse_ranking (document_count : Z) (seen : list Z) (item : value) : result VLLMRerankResult :=
  match item with
  | VDict d =>
      match dget "index" d with
      | VInt index =>
          if negb ((0 <=? index) && (index <? document_count)) then raise ValueError "vLLM reranker result index is out of range" else
          if existsb (Z.eqb index) seen then raise ValueError "vLLM reranker returned a duplicate index" else
          score ← score_of (dget "relevance_score" d); Ok (RerankResult index score)
      | _ => raise ValueError "vLLM reranker result has an invalid index"
      end
  | _ => raise ValueError "vLLM reranker result must be an object"
  end.
Fixpoint parse_rankings (document_count : Z) (seen : list Z) (items : list value) : result (list VLLMRerankResult) :=
  match items with
  | [] => Ok []
  | item :: items =>
      r ← parse_ranking document_count seen item;
      rest ← parse_rankings document_count (rr_index r :: seen) items;
      Ok (r :: rest)
  end.
(** [sort(key=..., reverse=True)]: descending, equal scores in their order. *)
Definition higher (a b : VLLMRerankResult) : bool := negb (f_ltb (rr_score a) (rr_score b)).
Definition parse_vllm_rerank_response (payload : value) (document_count : Z) : result (list VLLMRerankResult) :=
  match payload with
  | VDict d =>
      match dget "results" d with
      | VList items => l ← parse_rankings document_count [] items; Ok (stable_sort higher l)
      | _ => raise ValueError "vLLM reranker response is missing results"
      end
  | _ => raise ValueError "vLLM reranker response is missing results"
  end.

(** ** Entries and passages *)
Record RssEntry := MkEntry {
  en_title : string; en_link : string; en_published : option string; en_author : option string; en_description : option string;
  en_scope : option string; en_feed_url : option string }.
Definition set_scope (scope : string) (e : RssEntry) : RssEntry :=
  MkEntry (en_title e) (en_link e) (en_published e) (en_author e) (en_description e) (Some scope) (en_feed_url e).
(** [encoding.encode] and [decode], when tiktoken is there. *)
Record tokenizer := Tokenizer { tk_encode : string -> result (list Z); tk_decode : list Z -> result string }.
Section Passages.
Context (tokens : option tokenizer) (unescape : string -> string).
Definition count_tokens : string -> Z :=
  Webscrape._count_tokens ((fun t text => l ← tk_encode t text; Ok (Z.of_nat (length l))) <$> tokens).
Definition truncate_text (text : string) (token_limit : Z) : string :=
  let char_limit := token_limit * 4 in
  let fallback := if char_limit <? ulen text then utake char_limit text else text in
  match tokens with
  | None => fallback
  | Some t =>
      match (l ← tk_encode t text;
             if Z.of_nat (length l) <=? token_limit then Ok text else tk_decode t (firstn (Z.to_nat token_limit) l)) with
      | Ok s => s
      | Raise _ => fallback
      end
  end.
(** [HTML_TAG_RE.sub(" ", text)]. *)
Fixpoint after_gt (s : string) : option string :=
  match s with EmptyString => None | String c r => if char_is ">" c then Some r else after_gt r end.
Fixpoint untagged (fuel : nat) (s : string) : string :=
  match fuel, s with
  | S fuel, String c r =>
      match (if char_is "<" c then match r with String d r' => if char_is ">" d then None else after_gt r' | EmptyString => None end else None) with
      | Some rest => " " +++ untagged fuel rest
      | None => String c (untagged fuel r)
      end
  | _, _ => s
  end.
Definition HTML_TAG_RE (s : string) : string := untagged (String.length s) s.
Definition _normalize_reranker_text (text : option string) : string :=
  match text with
  | None => ""
  | Some s => if (s =? "")%string then "" else join " " (split_ws (HTML_TAG_RE (unescape s)))
  end.
Definition _reranker_passage_token_limit (query : string) (entry_count max_passage_tokens max_total_tokens : Z) : Z :=
  if entry_count <=? 0 then max_passage_tokens else
  let available := max_total_tokens - count_tokens query - 256 in
  Z.max 16 (Z.min max_passage_tokens (Z.max 16 (available / entry_count))).
Definition given (o : option string) : option string := match o with Some (String c s) => Some (String c s) | _ => None end.
Definition passage_parts (e : RssEntry) : list string :=
  let title := _normalize_reranker_text (Some (en_title e)) in
  let description := _normalize_reranker_text (en_description e) in
  (if (title =? "")%string then [] else ["Title: " +++ title]) ++
  (if (description =? "")%string || (description =? title)%string then [] else ["Summary: " +++ description]) ++
  match given (en_scope e) with Some s => ["Feed: " +++ s] | None => [] end ++
  match given (en_published e) with Some p => ["Published: " +++ _normalize_reranker_text (Some p)] | None => [] end.
Fixpoint passages_from (token_limit : Z) (index : nat) (entries : list RssEntry) : list (string * nat) :=
  match entries with
  | [] => []
  | e :: entries =>
      let passage_text := strip (truncate_text (join NL (passage_parts e)) token_limit) in
      if (passage_text =? "")%string then passages_from token_limit (S index) entries
      else (passage_text, index) :: passages_from token_limit (S index) entries
  end.
Definition _build_reranker_passages (query : string) (entries : list RssEntry) (max_passage_tokens max_total_tokens : Z)
  : list (string * nat) :=
  passages_from (_reranker_passage_token_limit query (Z.of_nat (length entries)) max_passage_tokens max_total_tokens) 0 entries.
End Passages.

(** ** The answer of the tool *)
Definition bounded_text (s : string) (max_chars : Z) : option string :=
  let t := utake max_chars (strip s) in if (t =? "")%string then None else Some t.
(** [_bounded_optional_text] of a text or nothing. *)
Definition _bounded_optional_text (v : option string) (max_chars : Z) : option string := bounded_text (default "" v) max_chars.
Record feed_status := FeedStatus {
  fs_scope : string; fs_url : string; fs_cached : bool; fs_coalesced : bool; fs_status : string;
  fs_times : option (string * string); fs_entries : Z }.
Definition status_value (f : feed_status) : value :=
  VDict ([("feed_scope", VStr (fs_scope f)); ("url", VStr (fs_url f)); ("cached", VBool (fs_cached f)); ("coalesced", VBool (fs_coalesced f));
          ("status", VStr (fs_status f))] ++
         match fs_times f with
         | Some (fetched_at, expires_at) => [("fetched_at", VStr fetched_at); ("expires_at", VStr expires_at); ("entries_count", VInt (fs_entries f))]
         | None => [("error", VStr "RSS feed fetch or parsing failed.")]
         end).
(** What a search found: candidates, or one article. *)
Record search_result := SearchResult {
  sr_success : bool; sr_query : string; sr_scope : string; sr_entries : Z; sr_cached : bool; sr_feeds : list feed_status;
  sr_error : option string; sr_status : string; sr_sources : list dict;
  sr_top : option RssEntry; sr_content : option string; sr_truncated : bool; sr_fetched_at : option string; sr_cache_status : option string }.
Definition text_field (k : string) (o : option string) : dict := match o with Some s => [(k, VStr s)] | None => [] end.
Definition source_value (e : RssEntry) : value :=
  VDict ([("title", VStr (utake 500 (en_title e))); ("url", VStr (utake 2048 (en_link e)))] ++
         text_field "published" (_bounded_optional_text (en_published e) 100) ++ text_field "author" (_bounded_optional_text (en_author e) 200) ++
         text_field "feed_scope" (_bounded_optional_text (en_scope e) 100) ++ text_field "feed_url" (_bounded_optional_text (en_feed_url e) 2048)).
Definition NOTHING_FOUND : string := "No relevant content found".
Definition tool_response (r : search_result) : dict :=
  let content := _bounded_optional_text (sr_content r) 1000000 in
  let success := sr_success r && match content with Some _ => true | None => false end in
  let error := if success then None else Some (default NOTHING_FOUND (_bounded_optional_text (sr_error r) 1000)) in
  [("success", VBool success); ("query", VStr (utake 1000 (sr_query r)))] ++ text_field "feed_scope" (_bounded_optional_text (Some (sr_scope r)) 100) ++
  match sr_top r with Some e => [("source", source_value e)] | None => [] end ++
  text_field "content" content ++
  [("content_truncated", VBool (sr_truncated r)); ("entries_count", VInt (Z.max 0 (sr_entries r))); ("cached", VBool (sr_cached r))] ++
  text_field "error" error ++ [("feeds", VList (map status_value (sr_feeds r)))] ++
  text_field "content_fetched_at" (sr_fetched_at r) ++ text_field "content_cache_status" (sr_cache_status r).
Definition _format_tool_response (r : search_result) : string := dumps_with compact_opts (VDict (tool_response r)).

(** ** Feeds *)
Record snapshot := FeedSnapshot { sn_entries : list RssEntry; sn_fetched_at : Z; sn_expires_at : Z }.
(** [cachetools.TTLCache]: an entry that is found was stored for that key. *)
Record ttl_cache := TTLCache {
  tc : Type; tc_empty : tc; tc_get : Z -> string -> tc -> option snapshot; tc_set : Z -> string -> snapshot -> tc -> tc; tc_pop : string -> tc -> tc;
  tc_empty_law : forall now k, tc_get now k tc_empty = None;
  tc_set_law : forall now now' k k' v c x, tc_get now' k' (tc_set now k v c) = Some x ->
    (k = k' /\ x = v) \/ exists earlier, tc_get earlier k' c = Some x;
  tc_pop_law : forall now k k' c x, tc_get now k' (tc_pop k c) = Some x -> k <> k' /\ exists earlier, tc_get earlier k' c = Some x }.
(** An item as the feed parser gives it. *)
Record feed_item := FeedItem { it_title : string; it_link : string; it_published : option string; it_author : option string; it_description : option string }.
Record rss_config := RssConfig {
  rc_reranker : option (string * string); rc_max_passage_tokens : Z; rc_max_total_tokens : Z; rc_ttl : Z; rc_max_entries : Z;
  rc_max_batch : Z; rc_excerpt_chars : Z; rc_scrape_tokens : Z; rc_feeds : list (string * string); rc_feed_url : option string }.
(** The feeds of the tool: name and URL. *)
Definition feeds_of (config : rss_config) : list (string * string) :=
  match List.filter (fun kv => negb (fst kv =? "")%string && negb (snd kv =? "")%string) (rc_feeds config), given (rc_feed_url config) with
  | [], Some url => [("default", url)]
  | feeds, _ => feeds
  end.
Section Search.
Context (net : network) (clock : net_world -> Z) (isoformat : Z -> string) (parse_feed : string -> result (list feed_item)).
Context (tokens : option tokenizer) (unescape : string -> string) (rerank : dict -> eff net_world (Z * result value)).
Context (session_of : article_source) (cache : ttl_cache) (config : rss_config).
(** The links that discovery may show. *)
Definition entry_of (feed_url : string) (i : feed_item) : result (option RssEntry) :=
  if (it_title i =? "")%string || (it_link i =? "")%string then Ok None else
  try_except (_ ← validate_offline (it_link i) ["http"; "https"];
              Ok (Some (MkEntry (it_title i) (it_link i) (it_published i) (it_author i) (it_description i) None (Some feed_url))))
             [UnsafeURLError] (fun _ => Ok None).
Fixpoint entries_of (feed_url : string) (items : list feed_item) : result (list RssEntry) :=
  match items with
  | [] => Ok []
  | i :: items => e ← entry_of feed_url i; rest ← entries_of feed_url items; Ok (match e with Some e => e :: rest | None => rest end)
  end.
Definition NOT_A_FEED : string := "RSS response must contain feed content.".
(** A fetch of a feed.  [timed_out]: its deadline passes. *)
Definition fetch_feed (timed_out : bool) (url : string) : eff net_world snapshot :=
  if timed_out then throw TimeoutError_ "" else
  r ← get_public_response_async net _DEFAULT_MAX_RESPONSE_BYTES url ["http"; "https"] _DEFAULT_MAX_REDIRECTS;
  r ← lift (raise_for_status r);
  fetched_at ← gets clock;
  if startswith (p_body r) "http://" || startswith (p_body r) "https://" then throw ValueError NOT_A_FEED else
  items ← lift (parse_feed (p_body r));
  entries ← lift (entries_of url (firstn (Z.to_nat (rc_max_entries config)) items));
  mret (FeedSnapshot entries fetched_at (fetched_at + rc_ttl config)).

(** *** The cache and the fetches under way

    Between its beginning and its first wait a read finds a snapshot, starts a
    fetch or joins one. *)
Record feed_state := FeedState { fd_cache : tc cache; fd_inflight : list (string * nat); fd_next : nat }.
Definition no_feeds : feed_state := FeedState (tc_empty cache) [] 0.
Inductive reading := FromCache (s : snapshot) | Fetching (id : nat) (coalesced : bool).
Definition read_begin (now : Z) (url : string) (st : feed_state) : reading * feed_state :=
  let start st := match url_get url (fd_inflight st) with
                  | Some id => (Fetching id true, st)
                  | None => (Fetching (fd_next st) false, FeedState (fd_cache st) (fd_inflight st ++ [(url, fd_next st)]) (S (fd_next st)))
                  end in
  match tc_get cache now url (fd_cache st) with
  | Some s => if sn_expires_at s <=? now then start (FeedState (tc_pop cache url (fd_cache st)) (fd_inflight st) (fd_next st))
              else (FromCache s, st)
  | None => start st
  end.
(** The end of a fetch: the snapshot is stored, and the callback forgets the task. *)
Definition fetch_end (now : Z) (url : string) (id : nat) (outcome : result snapshot) (st : feed_state) : feed_state :=
  let inflight := if decide (url_get url (fd_inflight st) = Some id) then url_del url (fd_inflight st) else fd_inflight st in
  FeedState (match outcome with Ok s => tc_set cache now url s (fd_cache st) | Raise _ => fd_cache st end) inflight (fd_next st).
(** What a read answers once its snapshot is there. *)
Definition read_end (scope url : string) (r : reading) (outcome : result snapshot) : list RssEntry * feed_status :=
  let cached := match r with FromCache _ => true | Fetching _ _ => false end in
  let coalesced := match r with Fetching _ c => c | FromCache _ => false end in
  match match r with FromCache s => Ok s | Fetching _ _ => outcome end with
  | Ok s =>
      let entries := map (set_scope scope) (sn_entries s) in
      (entries, FeedStatus scope url cached coalesced (match entries with [] => "empty" | _ => "available" end)
                  (Some (isoformat (sn_fetched_at s), isoformat (sn_expires_at s))) (Z.of_nat (length entries)))
  | Raise _ => ([], FeedStatus scope url cached coalesced "unavailable" None 0)
  end.

(** *** Ranking *)
Definition ranked_entry (entries : list RssEntry) (passages : list (string * nat)) (r : VLLMRerankResult) : option RssEntry :=
  match passages !! Z.to_nat (rr_index r) with Some (_, i) => entries !! i | None => None end.
Definition rerank_entries (query : string) (entries : list RssEntry) (top_k : Z) : eff net_world (list RssEntry) :=
  match rc_reranker config with
  | None => throw ValueError "Reranker configuration is required."
  | Some (_, model) =>
      let passages := _build_reranker_passages tokens unescape query entries (rc_max_passage_tokens config) (rc_max_total_tokens config) in
      match passages with
      | [] => mret []
      | _ =>
          payload ← lift (build_vllm_rerank_payload model query (map fst passages) (Some top_k));
          '(status, body) ← rerank payload;
          if 400 <=? status then throw ValueError ("Reranker request failed with HTTP " +++ str_of_Z status +++ ".") else
          if negb ((200 <=? status) && (status <=? 299)) then throw HTTPStatusError (str_of_Z status) else
          body ← lift body;
          rankings ← lift (parse_vllm_rerank_response body (Z.of_nat (length passages)));
          mret (omap (ranked_entry entries passages)
                     (firstn (Z.to_nat top_k) rankings))
      end
  end.

(** *** One search, after its feeds were read *)
Definition NO_FEEDS : string := "RSS feed URL not configured. Please set feed_url or feeds in configuration.".
Definition empty_result (query scope : string) : search_result :=
  SearchResult false query scope 0 false [] None "unavailable" [] None None false None None.
Definition failing (r : search_result) (error : string) (success : bool) (status : string) : search_result :=
  SearchResult success (sr_query r) (sr_scope r) (sr_entries r) (sr_cached r) (sr_feeds r) (Some error) status [] None None false None None.
Definition unavailable (f : feed_status) : bool := (fs_status f =? "unavailable")%string.
Definition fetched_at_of (metadata : list feed_status) (scope : option string) : value :=
  match List.find (fun f => bool_decide (Some (fs_scope f) = scope)) metadata with
  | Some f => match fs_times f with Some (t, _) => VStr t | None => VNone end
  | None => VNone
  end.
Definition candidate (metadata : list feed_status) (e : RssEntry) : dict :=
  [("title", VStr (utake 500 (en_title e))); ("url", VStr (utake 2048 (en_link e)));
   ("published", opt_value (_bounded_optional_text (en_published e) 100)); ("feed_scope", opt_value (en_scope e));
   ("excerpt", VStr (utake (rc_excerpt_chars config) (_normalize_reranker_text unescape (en_description e))));
   ("fetched_at", fetched_at_of metadata (en_scope e)); ("evidence", VStr "feed_summary")].
Definition SCRAPE_TIMEOUT : string := "Selected RSS content exceeded the scrape timeout.".
Definition SCRAPE_FAILED : string := "Failed to scrape the selected RSS content.".
Definition read_article (top : RssEntry) (r : search_result) : eff net_world search_result :=
  catch ('(a, cache_status) ← get_article session_of (en_link top) ["http"; "https"];
         let content := truncate_text tokens (a_markdown a) (rc_scrape_tokens config) in
         mret (SearchResult true (sr_query r) (sr_scope r) (sr_entries r) (sr_cached r) (sr_feeds r) None "ok" [] (Some top) (Some content)
                 (ulen content <? ulen (a_markdown a)) (Some (a_fetched_at a)) (Some cache_status)))
        [Exception_]
        (fun e => mret (SearchResult false (sr_query r) (sr_scope r) (sr_entries r) (sr_cached r) (sr_feeds r)
                          (Some (if exn_isa (exn_cls e) TimeoutError_ then SCRAPE_TIMEOUT else SCRAPE_FAILED)) "unavailable" [] (Some top) None false None None)).
Definition perform_search (query scope : string) (discover : bool) (top_k : Z) (groups : list (list RssEntry * feed_status)) : eff net_world search_result :=
  let r := empty_result query scope in
  match feeds_of config with
  | [] => mret (failing r NO_FEEDS false "unavailable")
  | _ =>
      let entries := concat (map fst groups) in
      let metadata := map snd groups in
      let failed := existsb unavailable metadata in
      let r := SearchResult false query scope (Z.of_nat (length entries)) (forallb fs_cached metadata) metadata None "unavailable" [] None None false None None in
      match entries with
      | [] => mret (failing r (if failed then "RSS feeds unavailable." else "No entries found in RSS feed") (discover && negb failed)
                      (if failed then "unavailable" else "empty"))
      | _ =>
          ranked ← catch (l ← rerank_entries query entries (if discover then top_k else 1); mret (Some l)) [Exception_] (fun _ => mret None);
          match ranked with
          | None => mret (failing r "RSS search configuration or reranking failed." false "unavailable")
          | Some [] => mret (failing r "No suitable entry found after reranking" (discover && negb failed) (if failed then "partial" else "empty"))
          | Some (top :: more) =>
              if discover then
                mret (SearchResult true query scope (sr_entries r) (sr_cached r) metadata None (if failed then "partial" else "ok")
                        (map (candidate metadata) (top :: more)) None None false None None)
              else read_article top r
          end
      end
  end.
End Search.

(** ** The tool *)
Definition discovery_value (r : search_result) : value :=
  VDict ([("success", VBool (sr_success r)); ("query", VStr (sr_query r)); ("feed_scope", VStr (sr_scope r));
          ("entries_count", VInt (sr_entries r)); ("cached", VBool (sr_cached r)); ("feeds", VList (map status_value (sr_feeds r)));
          ("status", VStr (sr_status r)); ("sources", VList (map VDict (sr_sources r))); ("article_content_verified", VBool false)] ++
         text_field "error" (sr_error r)).
Record rss_request := RssRequest {
  q_query : string; q_scope : string; q_discover : bool; q_queries : option (list (string * string)); q_top_k : Z }.
Definition INVALID_ARGUMENTS : string :=
  "Invalid RSS search arguments. Use a configured feed_scope, a nonempty query or discovery queries batch, and top_k between 1 and 5.".
Section Tool.
Context (net : network) (clock : net_world -> Z) (isoformat : Z -> string) (parse_feed : string -> result (list feed_item)).
Context (tokens : option tokenizer) (unescape : string -> string) (rerank : dict -> eff net_world (Z * result value)).
Context (session_of : article_source) (cache : ttl_cache) (config : rss_config) (timed_out : nat -> bool).
Definition scope_ok (scope : string) : bool := (scope =? "auto")%string || is_in scope (map fst (feeds_of config)).
(** The schema, and the rules that go with it. *)
Definition request_ok (q : rss_request) : bool :=
  (ulen (q_query q) <=? 1000) && scope_ok (q_scope q) && (1 <=? q_top_k q) && (q_top_k q <=? 5) &&
  match q_queries q with
  | None => negb (is_blank (q_query q))
  | Some l =>
      (1 <=? Z.of_nat (length l)) && (Z.of_nat (length l) <=? rc_max_batch config) &&
      forallb (fun qs => (1 <=? ulen (fst qs)) && (ulen (fst qs) <=? 1000) && scope_ok (snd qs)) l &&
      q_discover q && (q_query q =? "")%string && forallb (fun qs => negb (is_blank (fst qs))) l
  end.
Definition selected_feeds (scope : string) : list (string * string) :=
  if (scope =? "auto")%string then feeds_of config else List.filter (fun kv => (fst kv =? scope)%string) (feeds_of config).
Record rss_world := RssWorld { rw_net : net_world; rw_feeds : feed_state cache }.
Definition on_net {A} (m : eff net_world A) : eff rss_world A := fun w => let '(r, n) := m (rw_net w) in (r, RssWorld n (rw_feeds w)).
(** The reads of every search begin before any of them waits. *)
Fixpoint begin_reads (feeds : list (string * string)) : eff rss_world (list (string * string * reading)) :=
  match feeds with
  | [] => mret []
  | (scope, url) :: feeds =>
      r ← (fun w => let '(r, st) := read_begin cache (clock (rw_net w)) url (rw_feeds w) in (Ok r, RssWorld (rw_net w) st));
      rest ← begin_reads feeds; mret ((scope, url, r) :: rest)
  end.
(** The fetches that were started, in one of the orders they may end in. *)
Definition run_fetch (url : string) (id : nat) : eff rss_world (nat * result snapshot) := fun w =>
  let '(o, n) := fetch_feed net clock parse_feed config (timed_out id) url (rw_net w) in
  (Ok (id, o), RssWorld n (fetch_end cache (clock n) url id o (rw_feeds w))).
Definition started (reads : list (string * string * reading)) : list (string * nat) :=
  omap (fun r => match r with (_, url, Fetching id false) => Some (url, id) | _ => None end) reads.
Definition outcome_of (outcomes : list (nat * result snapshot)) (r : reading) : result snapshot :=
  match r with
  | FromCache s => Ok s
  | Fetching id _ => match List.find (fun o => Nat.eqb (fst o) id) outcomes with Some (_, o) => o | None => raise Exception_ "" end
  end.
Definition end_read (outcomes : list (nat * result snapshot)) (r : string * string * reading) : list RssEntry * feed_status :=
  let '(scope, url, reading_) := r in read_end isoformat scope url reading_ (outcome_of outcomes reading_).
(** Each search with its reads begun, the fetches, then the searches. *)
Definition run_searches (searches : list (string * string)) (discover : bool) (top_k : Z) : eff rss_world (list search_result) :=
  reads ← mapE (fun qs => begin_reads (selected_feeds (snd qs))) searches;
  outcomes ← mapE (fun ui => run_fetch (fst ui) (snd ui)) (started (concat reads));
  mapE (fun qr => on_net (perform_search tokens unescape rerank session_of config (fst (fst qr)) (snd (fst qr)) discover top_k
                            (map (end_read outcomes) (snd qr))))
       (combine searches reads).
Definition invalid_response (q : rss_request) : string :=
  dumps_with compact_opts (VDict ([("success", VBool false); ("query", VStr (utake 1000 (q_query q))); ("feed_scope", VStr (q_scope q));
    ("content_truncated", VBool false); ("entries_count", VInt 0); ("cached", VBool false); ("error", VStr INVALID_ARGUMENTS); ("feeds", VList [])])).
Definition search_rss (q : rss_request) : eff rss_world string :=
  if negb (request_ok q) then mret (invalid_response q) else
  if q_discover q then
    results ← run_searches (match q_queries q with Some l => l | None => [(q_query q, q_scope q)] end) true (q_top_k q);
    mret (dumps (VDict [("success", VBool (existsb sr_success results)); ("mode", VStr "discover"); ("article_content_verified", VBool false);
                        ("results", VList (map discovery_value results))]))
  else
    results ← run_searches [(q_query q, q_scope q)] false 1;
    mret (String.concat "" (map _format_tool_response results)).
End Tool.

(** ** Laws: the ranking *)
Lemma parse_rankings_spec n items : forall seen l, parse_rankings n seen items = Ok l ->
  NoDup (map rr_index l) /\ (forall i, i ∈ map rr_index l -> 0 <= i < n /\ i ∉ seen) /\ length l = length items.
Proof.
  induction items as [|item items IH]; intros seen l; cbn; [intros [= <-]; split_and!; [constructor|set_solver|done]|].
  intros (r & Hr & (rest & Hrest & [= <-])%bind_ok)%bind_ok. destruct (IH _ _ Hrest) as (H1 & H2 & H3).
  assert (Hi : 0 <= rr_index r < n /\ rr_index r ∉ seen).
  { unfold parse_ranking in Hr. destruct item as [| | | | | |d]; try done. destruct (dget "index" d) as [| |i| | | |]; try done.
    destruct ((0 <=? i) && (i <? n)) eqn:B; [|done]. apply andb_true_iff in B as [B1%Z.leb_le B2%Z.ltb_lt]. cbn [negb] in Hr.
    destruct (existsb _ seen) eqn:S; [done|]. apply bind_ok in Hr as (score & _ & [= <-]). cbn. split; [done|].
    intros Hin. apply not_true_iff_false in S. apply S, existsb_exists. exists i. split; [by apply list_elem_of_In|by apply Z.eqb_eq]. }
  cbn [map length]. split_and!.
  - constructor; [|done]. intros Hin. destruct (H2 _ Hin) as [_ Hn]. set_solver.
  - intros i [->|Hin]%elem_of_cons; [done|]. destruct (H2 _ Hin). set_solver.
  - by rewrite H3.
Qed.
Lemma ranking_spec payload n l : parse_vllm_rerank_response payload n = Ok l ->
  NoDup (map rr_index l) /\ forall i, i ∈ map rr_index l -> 0 <= i < n.
Proof.
  unfold parse_vllm_rerank_response. destruct payload as [| | | | | |d]; try done. destruct (dget "results" d) as [| | | | |items|]; try done.
  intros (l0 & H0 & [= <-])%bind_ok. destruct (parse_rankings_spec _ _ _ _ H0) as (H1 & H2 & _).
  assert (Pm : map rr_index (stable_sort higher l0) ≡ₚ map rr_index l0) by (apply Permutation_map, stable_sort_perm).
  split; [by rewrite Pm|]. intros i Hi. rewrite Pm in Hi. by apply H2.
Qed.
Section RankLaws.
Context (tokens : option tokenizer) (unescape : string -> string) (rerank : dict -> eff net_world (Z * result value)) (config : rss_config).
Lemma passages_sound limit entries : forall start,
  StronglySorted lt (map snd (passages_from tokens unescape limit start entries)) /\
  Forall (fun p => (start <= snd p < start + length entries)%nat /\ fst p <> "" /\
     exists e, entries !! (snd p - start)%nat = Some e /\
       fst p = strip (truncate_text tokens (join NL (passage_parts unescape e)) limit))
    (passages_from tokens unescape limit start entries).
Proof.
  induction entries as [|e entries IH]; intros start; cbn [passages_from map length]; [by split; constructor|].
  destruct (IH (S start)) as [I1 I2].
  assert (Shift : Forall (fun p => (start <= snd p < start + S (length entries))%nat /\ fst p <> "" /\
     exists e0, (e :: entries) !! (snd p - start)%nat = Some e0 /\ fst p = strip (truncate_text tokens (join NL (passage_parts unescape e0)) limit))
     (passages_from tokens unescape limit (S start) entries)).
  { eapply Forall_impl; [exact I2|]. cbn. intros [t i] ([H1 H2] & H3 & e0 & H4 & H5). cbn in *. split_and!; [lia|lia|done|].
    exists e0. split; [|done]. replace (i - start)%nat with (S (i - S start)) by lia. done. }
  destruct (String.eqb_spec (strip (truncate_text tokens (join NL (passage_parts unescape e)) limit)) ""); [done|].
  cbn [map fst snd]. split.
  - constructor; [done|]. apply Forall_map. eapply Forall_impl; [exact I2|]. cbn. intros p [[H _] _]. lia.
  - constructor; [|done]. cbn [fst snd]. split_and!; [lia|lia|done|]. exists e. by rewrite Nat.sub_diag.
Qed.
Lemma sorted_nodup (l : list nat) : StronglySorted lt l -> NoDup l.
Proof. induction 1 as [|x l _ IH F]; constructor; [|done]. intros Hin. rewrite Forall_forall in F. specialize (F x Hin). lia. Qed.
Lemma ranking_positions entries passages : StronglySorted lt (map snd passages) ->
  Forall (fun p => exists e, entries !! snd p = Some e) passages ->
  forall t : list VLLMRerankResult, NoDup (map rr_index t) -> (forall i, i ∈ map rr_index t -> 0 <= i < Z.of_nat (length passages)) ->
  exists positions : list nat, NoDup positions /\
    map Some positions = map (fun r => snd <$> passages !! Z.to_nat (rr_index r)) t /\
    map Some (omap (ranked_entry entries passages) t) = map (fun i => entries !! i) positions.
Proof.
  intros S1%sorted_nodup S2. induction t as [|r t IH]; intros N B; [exists []; split_and!; [constructor|done|done]|].
  cbn [map] in N. apply NoDup_cons in N as [Nn N]. destruct IH as (ps & P1 & P2 & P3); [done|intros i Hi; apply B; cbn; set_solver|].
  destruct (B (rr_index r) ltac:(cbn; set_solver)) as [B1 B2].
  destruct (lookup_lt_is_Some_2 passages (Z.to_nat (rr_index r)) ltac:(lia)) as [[text i] L].
  pose proof (proj1 (Forall_lookup _ _) S2 _ _ L) as (e & He). cbn in He.
  assert (Re : ranked_entry entries passages r = Some e) by (unfold ranked_entry; by rewrite L).
  exists (i :: ps). cbn [map]. rewrite L, <- P2, <- P3, He. cbn. rewrite Re. split_and!; [|done|done]. constructor; [|done].
  intros Hin. assert (Some i ∈ map Some ps) as Hin2 by (apply list_elem_of_fmap; by exists i). rewrite P2 in Hin2.
  apply list_elem_of_fmap in Hin2 as (r2 & E & Hr2). destruct (passages !! Z.to_nat (rr_index r2)) as [[t2 i2]|] eqn:L2; [|done].
  cbn in E. injection E as <-. assert (Z.to_nat (rr_index r) = Z.to_nat (rr_index r2)) as E.
  { apply (NoDup_lookup (map snd passages) _ _ i); [done|change (map snd passages) with (snd <$> passages); by rewrite list_lookup_fmap, L|
      change (map snd passages) with (snd <$> passages); by rewrite list_lookup_fmap, L2]. }
  assert (Hm : rr_index r2 ∈ map rr_index t) by (apply list_elem_of_fmap; by exists r2).
  destruct (B (rr_index r2)) as [B3 _]; [cbn; set_solver|]. apply Nn. by replace (rr_index r) with (rr_index r2) by lia.
Qed.
Lemma passages_length limit entries : forall start, (length (passages_from tokens unescape limit start entries) <= length entries)%nat.
Proof.
  induction entries as [|e entries IH]; intros start; cbn [passages_from length]; [lia|]. specialize (IH (S start)).
  destruct (String.eqb (strip (truncate_text tokens (join NL (passage_parts unescape e)) limit)) ""); cbn [length]; lia.
Qed.
(** The entries of a ranking.  What a ranking gives are entries that were
    asked about, at most [top_k] of them and none twice, in the order of the
    reranker's scores; a reply that names an entry twice or one that does not
    exist, or lacks a score, is refused as a whole. *)
Lemma ranking_selects query entries top_k w l w' : rerank_entries tokens unescape rerank config query entries top_k w = (Ok l, w') ->
  Z.of_nat (length l) <= Z.max 0 top_k /\
  exists positions : list nat, NoDup positions /\ map Some l = map (fun i => entries !! i) positions /\
    (l <> [] -> exists passages body rankings, passages = _build_reranker_passages tokens unescape query entries (rc_max_passage_tokens config) (rc_max_total_tokens config) /\
       parse_vllm_rerank_response body (Z.of_nat (length passages)) = Ok rankings /\
       map Some positions = map (fun r => snd <$> passages !! Z.to_nat (rr_index r)) (firstn (Z.to_nat top_k) rankings)).
Proof.
  unfold rerank_entries. destruct (rc_reranker config) as [[endpoint model]|]; [|done].
  set (passages := _build_reranker_passages _ _ _ _ _ _). destruct passages as [|p ps] eqn:Ps.
  { intros [= <- _]. split; [cbn; lia|]. exists []. split_and!; [constructor|done|done]. }
  rewrite <- Ps. intros (payload & v & _ & ([status body] & v1 & _ & H)%bind_Ok)%bind_Ok.
  destruct (400 <=? status); [done|]. destruct (negb _); [done|]. apply bind_Ok in H as (b & v2 & _ & (rankings & v3 & [= Hr <-] & [= <- _])%bind_Ok).
  destruct (ranking_spec _ _ _ Hr) as [R1 R2]. destruct (passages_sound (_reranker_passage_token_limit tokens query (Z.of_nat (length entries))
    (rc_max_passage_tokens config) (rc_max_total_tokens config)) entries 0) as [S1 S2]. fold (_build_reranker_passages tokens unescape query entries
    (rc_max_passage_tokens config) (rc_max_total_tokens config)) in S1, S2. fold passages in S1, S2.
  set (top := firstn (Z.to_nat top_k) rankings).
  assert (T : NoDup (map rr_index top) /\ forall i, i ∈ map rr_index top -> 0 <= i < Z.of_nat (length passages)).
  { unfold top. rewrite <- (firstn_skipn (Z.to_nat top_k) rankings), map_app in R1, R2. apply NoDup_app in R1 as (R1 & _ & _). split; [done|].
    intros i Hi. apply R2. apply elem_of_app. by left. }
  destruct T as [T1 T2].
  assert (S3 : Forall (fun p => exists e, entries !! snd p = Some e) passages).
  { eapply Forall_impl; [exact S2|]. cbn. intros [text i] (_ & _ & e & He & _). exists e. by rewrite <- He, Nat.sub_0_r. }
  pose proof (ranking_positions entries passages S1 S3 top T1 T2) as G.
  destruct G as (positions & P1 & P2 & P3). split.
  - rewrite <- (length_map Some), P3, length_map, <- (length_map Some positions), P2, length_map. unfold top. rewrite length_firstn. lia.
  - exists positions. split_and!; [done|done|]. intros _. exists passages, b, rankings. by split_and!.
Qed.
(** The size of a ranking request.  The passages are those of distinct
    entries in their order, none blank; their token limit times their number,
    the tokens of the query and 256 more stay within the configured total,
    unless the limit is at its minimum of 16, and the limit is at most the
    configured one, unless that is below the minimum. *)
Theorem passages_budgeted query entries max_passage max_total :
  let passages := _build_reranker_passages tokens unescape query entries max_passage max_total in
  let limit := _reranker_passage_token_limit tokens query (Z.of_nat (length entries)) max_passage max_total in
  StronglySorted lt (map snd passages) /\ (length passages <= length entries)%nat /\
  Forall (fun p => fst p <> "" /\ exists e, entries !! snd p = Some e /\
     fst p = strip (truncate_text tokens (join NL (passage_parts unescape e)) limit)) passages /\
  (entries <> [] -> 16 <= limit /\ (16 <= max_passage -> limit <= max_passage) /\
     (limit = 16 \/ limit * Z.of_nat (length passages) + count_tokens tokens query + 256 <= max_total)).
Proof.
  cbv zeta. set (limit := _reranker_passage_token_limit _ _ _ _ _). unfold _build_reranker_passages. fold limit.
  destruct (passages_sound limit entries 0) as [S1 S2]. set (passages := passages_from _ _ _ _ _) in *.
  assert (L : (length passages <= length entries)%nat).
  { apply passages_length. }
  split_and!; [done|done| |].
  - eapply Forall_impl; [exact S2|]. cbn. intros [t i] (_ & H1 & e & H2 & H3). rewrite Nat.sub_0_r in H2. split; [done|]. by exists e.
  - intros Hne. unfold limit, _reranker_passage_token_limit in *. destruct entries as [|e0 es]; [done|]. set (n := Z.of_nat (length (e0 :: es))) in *.
    assert (Hn : 0 < n) by (unfold n; cbn; lia). destruct (Z.leb_spec n 0); [lia|].
    set (available := max_total - count_tokens tokens query - 256). pose proof (Z.mul_div_le available n Hn).
    split_and!; [lia|lia|]. destruct (Z.le_gt_cases (available / n) 16); [left; lia|right].
    assert (Z.of_nat (length passages) <= n) by (unfold n; lia).
    assert (Z.max 16 (Z.min max_passage (Z.max 16 (available / n))) <= available / n) by lia.
    unfold available in *. nia.
Qed.
End RankLaws.

(** ** Laws: what a search shows *)
Definition link_checked (e : RssEntry) : Prop := validate_offline (en_link e) ["http"; "https"] = Ok (en_link e).
Lemma validate_offline_same url schemes u : validate_offline url schemes = Ok u -> u = url.
Proof. unfold validate_offline. by intros (h & _ & (x & _ & [= <-])%bind_ok)%bind_ok. Qed.
Lemma entry_checked feed_url i e : entry_of feed_url i = Ok (Some e) -> link_checked e.
Proof.
  unfold entry_of. destruct (_ || _); [done|]. unfold try_except.
  destruct (validate_offline (it_link i) ["http"; "https"]) as [u|x] eqn:V; [|lazy beta iota delta [mbind result_bind]; by destruct (exn_in x [UnsafeURLError])].
  intros [= <-]. unfold link_checked. cbn. by rewrite V, (validate_offline_same _ _ _ V).
Qed.
Lemma entries_checked feed_url items : forall l, entries_of feed_url items = Ok l -> Forall link_checked l /\ (length l <= length items)%nat.
Proof.
  induction items as [|i items IH]; intros l; cbn [entries_of]; [by intros [= <-]|].
  intros (e & He & (rest & Hr & [= <-])%bind_ok)%bind_ok. destruct (IH _ Hr) as [I1 I2].
  destruct e as [e|]; cbn; [|split; [done|lia]]. split; [|lia]. constructor; [exact (entry_checked _ _ _ He)|done].
Qed.
Section SearchLaws.
Context (net : network) (clock : net_world -> Z) (isoformat : Z -> string) (parse_feed : string -> result (list feed_item)).
Context (tokens : option tokenizer) (unescape : string -> string) (rerank : dict -> eff net_world (Z * result value)).
Context (session_of : article_source) (cache : ttl_cache) (config : rss_config) (timed_out : nat -> bool).
Definition snapshot_checked (s : snapshot) : Prop := Forall link_checked (sn_entries s).
Definition outcome_checked (o : result snapshot) : Prop := match o with Ok s => snapshot_checked s | Raise _ => True end.
Definition feeds_checked (st : feed_state cache) : Prop := forall now k s, tc_get cache now k (fd_cache cache st) = Some s -> snapshot_checked s.
Definition reading_checked (r : reading) : Prop := match r with FromCache s => snapshot_checked s | Fetching _ _ => True end.
Lemma no_feeds_checked : feeds_checked (no_feeds cache).
Proof. intros now k s. cbn. by rewrite tc_empty_law. Qed.
Lemma fetch_checked b url w o w' : fetch_feed net clock parse_feed config b url w = (o, w') -> outcome_checked o.
Proof.
  intros H. destruct o as [s|]; [|done]. cbn. unfold fetch_feed in H. destruct b; [done|].
  apply bind_Ok in H as (r & w1 & _ & (r' & w2 & _ & (t & w3 & _ & H)%bind_Ok)%bind_Ok).
  destruct (_ || _); [done|]. apply bind_Ok in H as (items & w4 & _ & (l & w5 & [= Hl <-] & [= <- _])%bind_Ok).
  by apply entries_checked in Hl as [? _].
Qed.
Lemma begin_checked now url st : feeds_checked st ->
  reading_checked (fst (read_begin cache now url st)) /\ feeds_checked (snd (read_begin cache now url st)).
Proof.
  intros Ok_. unfold read_begin. destruct (tc_get cache now url (fd_cache cache st)) as [s|] eqn:G.
  - destruct (sn_expires_at s <=? now); [|by split; [exact (Ok_ _ _ _ G)|]].
    cbn [fd_inflight fd_next fd_cache]. destruct (url_get url (fd_inflight cache st)); split; [done| |done|];
      intros ? k x (_ & m & Hx)%tc_pop_law; exact (Ok_ _ _ _ Hx).
  - by destruct (url_get url (fd_inflight cache st)); split.
Qed.
Lemma end_checked now url id o st : feeds_checked st -> outcome_checked o -> feeds_checked (fetch_end cache now url id o st).
Proof.
  intros Ok_ Ho n k x. destruct o as [s|]; cbn; [|exact (Ok_ n k x)].
  intros [[_ ->]|[m Hx]]%tc_set_law; [done|exact (Ok_ _ _ _ Hx)].
Qed.
(** What a group of a feed holds: the entries of that feed. *)
Definition of_feed (feeds : list (string * string)) (e : RssEntry) : Prop :=
  link_checked e /\ exists name url, (name, url) ∈ feeds /\ en_scope e = Some name.
Lemma read_end_checked feeds name url r o : (name, url) ∈ feeds -> reading_checked r -> outcome_checked o ->
  Forall (of_feed feeds) (fst (read_end isoformat name url r o)).
Proof.
  intros Hin Hr Ho. unfold read_end.
  assert (H : outcome_checked (match r with FromCache s => Ok s | Fetching _ _ => o end)) by by destruct r.
  destruct (match r with FromCache s => Ok s | Fetching _ _ => o end) as [s|]; cbn; [|constructor].
  apply Forall_map. eapply Forall_impl; [exact H|]. intros e He. split; [exact He|]. by exists name, url.
Qed.
(** What a result lists: at most [top_k] candidates or one article, all of them
    entries of the feeds, with links that were checked, and the candidates at
    distinct positions among the entries read. *)
Definition lists_entries_of (feeds : list (string * string)) (top_k : Z) (r : search_result) : Prop :=
  Z.of_nat (length (sr_sources r)) <= top_k /\
  Forall (fun d => exists e, of_feed feeds e /\ d = candidate unescape config (sr_feeds r) e) (sr_sources r) /\
  forall e, sr_top r = Some e -> of_feed feeds e /\ sr_sources r = [].
Lemma lists_nothing feeds top_k r : 0 <= top_k -> sr_sources r = [] -> sr_top r = None -> lists_entries_of feeds top_k r.
Proof. intros Hk Hs Ht. unfold lists_entries_of. rewrite Hs, Ht. split_and!; [done|constructor|done]. Qed.
Lemma ranked_among query entries top_k w l w' : rerank_entries tokens unescape rerank config query entries top_k w = (Ok l, w') ->
  Z.of_nat (length l) <= Z.max 0 top_k /\ forall e, e ∈ l -> e ∈ entries.
Proof.
  intros (H & positions & _ & E & _)%ranking_selects. split; [done|]. intros e He.
  assert (Hm : Some e ∈ map Some l) by (apply list_elem_of_fmap; by exists e). rewrite E in Hm.
  apply list_elem_of_fmap in Hm as (i & Hi & _). symmetry in Hi. by eapply list_elem_of_lookup_2.
Qed.
Lemma perform_lists feeds query scope discover top_k groups w r w' : 1 <= top_k ->
  Forall (fun g => Forall (of_feed feeds) (fst g)) groups ->
  perform_search tokens unescape rerank session_of config query scope discover top_k groups w = (Ok r, w') ->
  sr_query r = query /\ sr_scope r = scope /\ lists_entries_of feeds top_k r.
Proof.
  intros Hk Hg. unfold perform_search. destruct (feeds_of config) as [|f fs]; [intros [= <- _]; split_and!; [done|done|by apply lists_nothing; [lia| |]]|].
  assert (He : forall e, e ∈ concat (map fst groups) -> of_feed feeds e).
  { intros e (l & Hin & Hl)%list_elem_of_In%in_concat. apply list_elem_of_In in Hl, Hin. apply list_elem_of_fmap in Hin as (g & -> & Hg2).
    rewrite Forall_forall in Hg. specialize (Hg g Hg2). rewrite Forall_forall in Hg. by apply Hg. }
  destruct (concat (map fst groups)) as [|e0 entries] eqn:Ec; [intros [= <- _]; split_and!; [done|done|by apply lists_nothing; [lia| |]]|].
  rewrite <- Ec in He |- *. intros (ranked & w1 & Hr & H)%bind_Ok.
  destruct ranked as [[|top more]|]; [injection H as <- _; split_and!; [done|done|by apply lists_nothing; [lia| |]]| |
    injection H as <- _; split_and!; [done|done|by apply lists_nothing; [lia| |]]].
  assert (R : exists w2, rerank_entries tokens unescape rerank config query (concat (map fst groups)) (if discover then top_k else 1) w = (Ok (top :: more), w2)).
  { revert Hr. unfold catch, mbind, eff_bind. destruct (rerank_entries _ _ _ _ _ _ _ w) as [[l|x] w2].
    - intros [= <- _]. by exists w2.
    - by destruct (exn_in x [Exception_]). }
  destruct R as [w2 [L M]%ranked_among]. destruct discover.
  - injection H as <- _. split_and!; [done|done|]. split_and!; [cbn in L |- *; rewrite ?length_map; lia| |done].
    apply Forall_forall. intros d Hd. change (d ∈ map (candidate unescape config (map snd groups)) (top :: more)) in Hd.
    apply list_elem_of_fmap in Hd as (e & -> & Hin). exists e. split; [by apply He, M|done].
  - assert (T : of_feed feeds top) by (apply He, M; by left).
    unfold read_article in H. unfold catch in H.
    assert (S : sr_query r = query /\ sr_scope r = scope /\ sr_sources r = [] /\ sr_top r = Some top).
    { match type of H with match ?m with _ => _ end = _ => destruct m as [[a|x] w3] eqn:B end.
      - injection H as <- _. apply bind_Ok in B as ([a' c] & w4 & _ & [= <- _]). done.
      - destruct (exn_in x [Exception_]); [|done]. by injection H as <- _. }
    destruct S as (-> & -> & S1 & S2). split_and!; [done|done|]. unfold lists_entries_of. rewrite S1, S2.
    split_and!; [cbn; lia|constructor|]. by intros e [= <-].
Qed.
Lemma mapE_spec {W A B} (I : W -> Prop) (Q : A -> B -> Prop) (f : A -> eff W B) :
  (forall a w b w', I w -> f a w = (Ok b, w') -> I w' /\ Q a b) ->
  forall l w bs w', I w -> mapE f l w = (Ok bs, w') -> I w' /\ Forall2 Q l bs.
Proof.
  intros Hf. induction l as [|a l IH]; intros w bs w' Iw; cbn [mapE]; [intros [= <- <-]; by split|].
  intros (b & w1 & Hb & (rest & w2 & Hr & [= <- <-])%bind_Ok)%bind_Ok.
  destruct (Hf _ _ _ _ Iw Hb) as [I1 Qb]. destruct (IH _ _ _ I1 Hr) as [I2 Qr]. split; [done|by constructor].
Qed.
Abbreviation world_ok := (fun w : rss_world cache => feeds_checked (rw_feeds cache w)).
Definition reads_of (feeds : list (string * string)) (reads : list (string * string * reading)) : Prop :=
  map fst reads = feeds /\ Forall (fun r => reading_checked (snd r)) reads.
Lemma begin_reads_checked feeds : forall w l w', world_ok w -> begin_reads clock cache feeds w = (Ok l, w') ->
  world_ok w' /\ reads_of feeds l.
Proof.
  unfold reads_of. induction feeds as [|[scope url] feeds IH]; intros w l w' Iw; cbn [begin_reads]; [by intros [= <- <-]|].
  intros (r & w1 & H1 & (rest & w2 & H2 & [= <- <-])%bind_Ok)%bind_Ok.
  destruct (begin_checked (clock (rw_net cache w)) url (rw_feeds cache w) Iw) as [B1 B2].
  destruct (read_begin cache (clock (rw_net cache w)) url (rw_feeds cache w)) as [r' st]. injection H1 as <- <-.
  destruct (IH (RssWorld cache (rw_net cache w) st) rest w2 B2 H2) as (I2 & M & F). split; [done|]. cbn. rewrite M. split; [done|]. by constructor.
Qed.
Lemma run_fetch_checked url id w o w' : world_ok w -> run_fetch net clock parse_feed cache config timed_out url id w = (Ok o, w') ->
  world_ok w' /\ outcome_checked (snd o).
Proof.
  intros Iw. unfold run_fetch. destruct (fetch_feed _ _ _ _ _ _ _) as [o' n] eqn:F. intros [= <- <-].
  apply fetch_checked in F. split; [by apply end_checked|done].
Qed.
Lemma outcome_of_checked outcomes r : Forall (fun o => outcome_checked (snd o)) outcomes -> reading_checked r ->
  outcome_checked (outcome_of outcomes r).
Proof.
  intros Ho Hr. destruct r as [s|id c]; [done|]. cbn. destruct (List.find _ outcomes) as [[i o]|] eqn:F; [|done].
  apply find_some in F as [Hin _]. rewrite Forall_forall in Ho. by apply list_elem_of_In, Ho in Hin.
Qed.
Lemma groups_of_feeds feeds reads outcomes : reads_of feeds reads -> Forall (fun o => outcome_checked (snd o)) outcomes ->
  Forall (fun g => Forall (of_feed feeds) (fst g)) (map (end_read isoformat outcomes) reads).
Proof.
  intros [M F] Ho. apply Forall_map, Forall_forall. intros [[name url] r] Hin. rewrite Forall_forall in F. specialize (F _ Hin). cbn in F |- *.
  apply read_end_checked; [|done|by apply outcome_of_checked]. rewrite <- M. change (name, url) with (fst (name, url, r)).
  apply list_elem_of_fmap. by exists (name, url, r).
Qed.
End SearchLaws.
