(* ===== verification/RssExamples.v ===== *)
(** * A search of two feeds

    One feed links to the machine itself, and its other item is listed; a feed
    with one malformed link is unavailable as a whole. *)
From S2P Require Import Prelude PyStr PyFloat PyVal Json Redis PyUrl PyNet Dedupe SafeHttp PublicContent WebExamples.
From S2P Require Import AgentBudget Citations Webscrape Rss.
#[local] Open Scope Z_scope.

(** A cache that keeps everything. *)
Definition kept_get (now : Z) (k : string) (c : list (string * snapshot)) : option snapshot := url_get k c.
Lemma kept_pop (now : Z) (k k' : string) (c : list (string * snapshot)) (x : snapshot) :
  kept_get now k' (url_del k c) = Some x -> k <> k' /\ exists earlier, kept_get earlier k' c = Some x.
Proof.
  unfold kept_get. induction c as [|[u v] c IH]; cbn; [done|]. destruct (String.eqb_spec u k) as [->|Hk]; cbn.
  - intros H. destruct (IH H) as [H1 [e H2]]. split; [done|]. exists 0. by destruct (String.eqb_spec k k').
  - destruct (String.eqb_spec u k') as [->|]; [|exact IH]. intros [= ->]. split; [done|]. by exists 0.
Qed.
Definition kept_cache : ttl_cache.
Proof.
  refine (TTLCache (list (string * snapshot)) [] kept_get (fun _ k v c => (k, v) :: c) url_del _ _ kept_pop).
  - done.
  - intros now now' k k' v c x. unfold kept_get. cbn. destruct (String.eqb_spec k k') as [->|]; [intros [= ->]; by left|].
    intros H. right. by exists 0.
Defined.
Definition no_articles : article_source.
Proof. refine (ArticleSource (fun _ _ => throw ValueError "not here") _). done. Defined.
Definition feed_clock (w : net_world) : Z := 1000 + Z.of_nat (nw_requests w).
Definition feed_time (t : Z) : string := str_of_Z t.
Definition item (title link : string) : feed_item := FeedItem title link None None (Some ("About <b>" +++ title +++ "</b>")).
Definition feed_items (content : string) : result (list feed_item) :=
  Ok [item "Floods" "https://news.example/floods"; item "Metadata" "http://169.254.169.254/latest"; item "Chips" "https://news.example/chips"].
Definition by_score (payload : dict) : eff net_world (Z * result value) :=
  mret (200, Ok (VDict [("results", VList [VDict [("index", VInt 0); ("relevance_score", VInt 1)];
                                            VDict [("index", VInt 1); ("relevance_score", VInt 3)]])])).
Definition feed_config : rss_config :=
  RssConfig (Some ("http://reranker", "rerank-1")) 192 7000 3600 20 6 800 8000 [("news", "https://news.example/rss"); ("gone", "https://gone.example/rss")] None.
Definition fresh_reader : rss_world kept_cache := RssWorld kept_cache WebExamples.start (no_feeds kept_cache).
Definition two_searches (parse : string -> result (list feed_item)) : result (list search_result) * rss_world kept_cache :=
  run_searches demo_net feed_clock feed_time parse None (fun s => s) by_score no_articles kept_cache feed_config (fun _ => false)
    [("chips", "auto"); ("floods", "news")] true 2 fresh_reader.
Definition shown_titles (r : search_result) : list value := map (dget "title") (sr_sources r).
Example two_searches_shown :
  match fst (two_searches feed_items) with
  | Ok rs => map shown_titles rs = [[VStr "Chips"; VStr "Floods"]; [VStr "Chips"; VStr "Floods"]] /\ map sr_status rs = ["partial"; "ok"] /\
             map (fun r => map fs_coalesced (sr_feeds r)) rs = [[false; false]; [true]]
  | Raise _ => False
  end.
Proof. vm_compute. by repeat split. Qed.
(** A link that does not parse raises a plain [ValueError]. *)
Definition with_broken_link (content : string) : result (list feed_item) :=
  l ← feed_items content; Ok (l ++ [item "Broken" "http://[broken"]).
Example broken_link_hides_feed :
  match fst (two_searches with_broken_link) with
  | Ok rs => map sr_sources rs = [[]; []] /\ map sr_error rs = [Some "RSS feeds unavailable."; Some "RSS feeds unavailable."]
  | Raise _ => False
  end.
Proof. vm_compute. by split. Qed.
